(* ===== verification/_CoqProject ===== *)
-Q . S2P
Prelude.v
Programs.v
GoText.v
JobModel.v
JobRepository.v
CommandPhases.v
CommandSlots.v
CommandLifecycle.v
Encodings.v
CommandWorld.v
CommandDelivery.v
SessionRegistry.v
AgentServer.v
AgentSessions.v
SessionSteps.v
SessionLogic.v
AgentDelivery.v
CommandJournal.v
AgentClient.v
AgentHost.v
ClientLogic.v
EndToEnd.v
Database.v
HostInventory.v
Enrollment.v
EnrollmentLogic.v
HostListing.v
EnrollmentSafety.v
CredentialSessions.v
SpoolCodec.v
SpoolStore.v
SpoolDurability.v
JsonText.v
AlertModel.v
AlertStore.v
AlertEvaluator.v
AlertNotification.v
AlertDispatch.v
AlertConfiguration.v
Idempotency.v
