(* ===== verification/Prelude.v ===== *)
(** * DBPilot verification library

    DBPilot is a platform for operating databases: a control plane (HTTP and
    gRPC services over PostgreSQL) and an agent on every managed host.  The
    control plane keeps jobs, alert rules, events and notifications and answers
    idempotent HTTP writes; the agent journals the commands it is sent, runs
    them, and spools telemetry on disk until it is acknowledged.  This library
    models the parts of the Go code under [src/backend/internal] that decide
    what is durable, what runs at most once and what an operator is told, and
    proves the properties those parts are written for.

    ** How the parts interact

    A job ([job/model.go]) is dispatched to agents as commands, which the job
    repository ([job/postgres.go]) keeps in an outbox and moves from phase to
    phase.  The dispatcher ([job/dispatcher.go]), in every control plane, takes
    commands from the outbox, signs their envelopes, hands them to the agent
    sessions, authorises their start when the agent has prepared them, and
    stores what the agents report.  Sessions are kept by the registry of each
    control plane and served by its agent server ([agentcontrol]): one stream
    per agent, which authenticates the agent, sends what its session's queue
    holds and hands the agent's messages to the dispatcher.  The control client
    of an agent ([agent/controlclient.go]) verifies the commands it is sent,
    records each in its journal ([agent/commandjournal]) before running it, and
    reports the result until it is acknowledged.  An agent gets its certificate
    from the enrollment service ([enrollment]) for a one-time token; the host
    inventory ([hostinventory]) keeps the active credential of each host, by
    which the agent server authorises streams, and loses it when the host is
    decommissioned.  Telemetry batches go through the agent's spool
    ([spool]).  In the control plane the alert evaluator ([alert/evaluator.go])
    turns metric samples into alert events kept by the alert repository
    ([alert/postgres.go]); the dispatcher ([alert/notification.go]) routes the
    events to channels.  HTTP writes pass the idempotency service
    ([idempotency]).

    ** Files

    - [Prelude]: results, database verdicts, machine integers, time, byte
      strings, hexadecimal text, tactics and shared lemmas.
    - [Programs]: programs as trees of calls, for services whose calls
      interleave.
    - [JobModel] ([job/model.go]): jobs, their transitions and target rows.
      The map of positions of the in-place merge is modelled and proved equal
      to a reference merge.
    - [JobRepository] ([job/postgres.go] with the types of [job/model.go] and
      the helpers of [job/dispatcher.go] it uses): the tables of jobs, target
      rows and commands, one transaction per call, and the interface
      ([repo_call], [exec]) that the dispatcher sees.  [CommandPhases]: the
      abstract machine of a command and the proof that every call follows it.
      [CommandSlots]: what every call does to the number of active commands of
      a job.
    - [CommandLifecycle] ([job/dispatcher.go]): every handler of the dispatcher
      and of the observer of agent sessions as a program over its calls.
      [CommandWorld]: what calls do to the tables and which messages they hand
      over, what handlers may rely on while others run and what they learn from
      replies, and a rely/guarantee logic for programs.  [CommandDelivery]: the
      proof of every handler in that logic, systems of any number of control
      planes that interleave call by call and crash, and executable runs.
    - [SessionRegistry] ([agentcontrol/registry.go] and the message checks of
      [commandvalidation/validation.go]): sessions on a heap, their bounded
      queues, execution leases, and the memory of secrets that messages share.
      [AgentServer] ([agentcontrol/server.go], [agentcontrol/identity.go]):
      verified identities, [Connect] and the handlers of agent messages as
      programs.  [AgentSessions]: the steps of streams with their receiving
      goroutine, control planes whose workers and streams share a registry, and
      worlds of control planes that crash.  [SessionSteps]: every world is a
      system of [CommandDelivery] (a simulation), and what each step does to
      the shared state.  [SessionLogic]: the logic of stream programs (secrets
      they hold, truth of what they queue) and the invariant of a control
      plane.  [AgentDelivery]: what reaches agents, and executable runs.
    - [Encodings]: concrete encodings with round trips for executable runs.
    - [CommandJournal] ([agent/commandjournal/journal.go]): the journal as a
      durable key/value store with the operations of the package, write
      failures and restarts as explicit steps.
    - [AgentClient] ([agent/controlclient.go], [agent/commandverify.go]): the
      registry of executors, the verifier, and every method of the control
      client as a program over its calls.  [AgentHost]: an agent as a process
      with its loop, goroutines and journal, which dies and is started again.
      [ClientLogic]: a logic for the programs of the client and the invariant
      of an agent: what it does goes back to messages it heard, and the right
      to invoke an executor is given out once per command.  [EndToEnd]: control
      planes and agents together, and executable runs of the whole system.
    - [Database]: connections, statements and transactions with verdicts for
      every call, and Hoare triples for programs of statements.
      [HostInventory] ([hostinventory/model.go], [hostinventory/postgres.go],
      [hostinventory/service.go]): hosts, their tables with the constraints of
      the migrations, the repository and the service.  [Enrollment]
      ([enrollment/model.go], [enrollment/postgres.go],
      [enrollment/service.go]): tokens, certificates and credentials in the
      repository, and the service as programs over its calls.
      [EnrollmentLogic]: the operations of all control planes as steps on the
      tables, the change each commits, the invariant of the tables and what
      every step keeps.  [HostListing]: the pages of a listing.
      [EnrollmentSafety]: runs of the enrollment service among the steps of
      all, and what they guarantee.  [CredentialSessions]: the streams of a
      control plane ([AgentSessions]) with the repository of [Enrollment] as
      their authorizer, step by step.
    - [SpoolCodec], [SpoolStore], [SpoolDurability] ([spool/segments.go],
      [spool/state.go]): the record format with its recovery scan, the store
      with capacity, eviction, acknowledgement and cursors over a file system
      and an index that may fail at any call, and what a restart recovers.
    - [GoText], [JsonText]: what the code uses of the Go standard library:
      strings, decimal and RFC 3339 texts, IEEE doubles, JSON syntax.
    - [AlertModel] ([alert/model.go], [alert/audit.go], validation of
      [alert/metric_store.go]): scopes, rules, events with their state machine,
      fingerprints, audit records.
    - [AlertStore] ([alert/postgres.go]): events, audit log, dispositions and
      the rule schedule as tables; every call on the database succeeds, fails,
      or commits and loses its reply, as an arbitrary list of verdicts says.
    - [AlertEvaluator] ([alert/evaluator.go]): aggregation, the decision for a
      series, system findings and the evaluation of a scope.
    - [AlertNotification] ([alert/notification.go] and the delivery statements
      of [alert/postgres.go]): routing, silences, templates, deliveries and the
      calls of the repository, with a small program logic for programs over the
      tables.  [AlertDispatch] ([alert/notification.go]): [Dispatch] and
      [RetryDue] as programs over these calls, and systems of overlapping runs.
    - [AlertConfiguration] (the configuration statements of
      [alert/postgres.go]): rules, policies, templates and silences with their
      audit records and references.
    - [Idempotency] ([idempotency/service.go], [idempotency/postgres.go]): the
      service as programs over its calls, the table with its statements, and
      systems of handlers that interleave call by call.

    ** Theorems

    - The whole system (C1-C5): over all control planes and agents, through
      crashes, reconnects and repeated messages, commands are executed at most
      once, executions are the ones the database has authorised, commands
      cancelled before their start are never executed, results that agents take
      for reported are stored; and an agent executes only genuine commands,
      whatever it is told.
    - What reaches agents (C6-C11): all messages about a command agree and
      reach one agent, acknowledgements of results are true and accepted;
      streams deliver in order within the capacity of their queues, execution
      leases follow starts, secrets are wiped, sessions are authenticated.
    - Dispatcher and commands (C12, C23, C24): jobs keep their concurrency
      limit; under any calls of any number of control planes, and any end of
      their transactions, commands follow their machine; and a race in which a
      running command is recorded as cancelled before its execution.
    - Enrollment (C13-C21): a token is exchanged for one certificate, which
      authenticates its agent until it is revoked and never after; sessions of
      replaced certificates are ended, and stay shut out although authorisation
      and registration interleave with the revocation; decommissioned hosts
      stay out; the tables stay in order under any operations and failures; an
      enrollment can be asked for again; signed certificates name their agent.
    - Host listing (C25): pages read one after the other while the clock and
      the table move on list no host twice, show each with the status that the
      service computes at that time, and leave out no host that was there at
      the start and has the asked status when its page is read.
    - Jobs (C22): a succeeded job accounts for every target.  [JobModel] also
      proves that every reachable job is consistent with its status and that
      the merge of target rows equals its reference.
    - Command journal (C26): recovery after a crash; [CommandJournal] also has
      the invariant of reachable journals and the laws of single operations.
    - Spool (C27-C32): reading back of segments, totality of the recovery scan,
      the byte limit, monotone cursors, the recovery of pending batches by a
      restart, and what a restart makes of a batch stored behind a torn one.  [SpoolStore] and
      [SpoolDurability] also prove that stores stay well formed under I/O
      failures, that cursors are fenced, and that a superseded cursor keeps the
      spool from opening.
    - Alerts (C33-C37): the stored events under arbitrary callers and database
      verdicts, refinement of an abstract alert machine by the evaluation of a
      series, the exact moment an alert fires; deliveries that are settled keep
      their row, which accounts for every request sent under their key by the
      overlapping runs of dispatchers; and references between events, rules,
      policies and templates hold.  The example of [AlertDispatch] is a run in
      which the lease of a slow dispatch ends and its request is sent twice.
    - Idempotent requests (C38-C40): exclusive claims under interleaving,
      what each kind of retry makes of a stored response, and a race between
      two recovering retries.  [Idempotency] also proves that completed responses are replayed.

    ** Conventions, bounds and fuel

    Integers that can overflow are kept at their width ([int64], [uint64],
    [uint32]); an instant is an unbounded number of nanoseconds.  Go errors are
    values of an error type per package.  Loops that are not structural have
    fuel: the recovery scan of a segment has the length of the file plus one
    (every record takes a byte), the eviction loop one round per entry plus one
    (every round removes an entry), the event pages of the evaluator the number
    of events plus one (every page advances the cursor), the placeholder scan
    the length of the text; the theorems about these functions are about the
    values with this fuel, and the loops of the spool are proved to end within
    it.

    Parameters, with their documented behaviour as laws where it is used:
    SHA-256, the token protector, the signer and the recorders of typed
    results of the dispatcher ([RecorderContract]), generated decoders of
    command bodies with the sizes of messages and UTF-8 validity
    ([AgentCodec]), Ed25519 and the check of command bodies in the agent
    ([AgentKeys]), PEM, X.509 and Ed25519 in enrollment ([X509], read back
    as written in [x509_reads]), the order and resolution of columns
    ([PgColumns], [PgLaws]), what TLS verified of a connection, the decimal
    text of doubles, rounding of timestamps, JSONB documents and collation
    in PostgreSQL, the encoding of command envelopes (with its round trip,
    [EnvelopeCodec]), the metric store, the iteration order of Go maps,
    delivery channels and callbacks, the credential authorizer (arbitrary in
    [AgentDelivery], the repository of enrollment in [CredentialSessions]),
    the lease issuers and the observation dispatchers of the agent server
    (arbitrary replies), and the outcome of every I/O and database call
    (arbitrary lists).

    ** Not modelled

    The listing queries of the alert API and its JSON forms, the response
    snapshots of cancellations and the repair of validation commands in the
    job repository, the check of command bodies in [commandvalidation], the
    texts of gRPC statuses, the observation dispatchers behind the agent
    server, the waiters for leases and discovery acknowledgements of the
    control client, the loading of the enrollment authority and the backfill
    of old issuances, size limits of JSON columns, the SQL repositories and
    gRPC or HTTP servers of the other packages, generated code,
    operating-system effects (processes, sockets, /proc), database drivers,
    the OpenTelemetry engine and the frontend. In the alert programs a
    transaction is atomic and one run of the evaluator is one program; in
    [AlertDispatch], [Idempotency] and [CommandDelivery] runs and handlers
    interleave at every call, in [Idempotency] also between the statements of
    a claim. The recovery of the command journal puts records while it walks
    the bucket, which bbolt documents as undefined; it is modelled as one pass
    over the records of the bucket before it. The mutex
    stripes of the command dispatcher are left out, which only adds
    interleavings.
    *)

From stdpp Require Export base tactics numbers option list gmap fin_maps fin_sets strings sorting.
From Stdlib Require Export ZArith Lia.

(** ** Outcome of a fallible Go function: a value, or the error it returns *)

Inductive result (E A : Type) : Type :=
| Ok (a : A)
| Err (e : E).
Arguments Ok {E A} a.
Arguments Err {E A} e.

#[global] Instance result_ret {E} : MRet (result E) := fun _ a => Ok a.
#[global] Instance result_bind {E} : MBind (result E) := fun _ _ f m =>
  match m with Ok a => f a | Err e => Err e end.
#[global] Instance result_fmap {E} : FMap (result E) := fun _ _ f m =>
  match m with Ok a => Ok (f a) | Err e => Err e end.

Definition is_ok {E A} (r : result E A) : bool :=
  match r with Ok _ => true | Err _ => false end.

(** [traverse f l] runs [f] on the elements from left to right and stops at the first error. *)
Fixpoint traverse {E A B} (f : A -> result E B) (l : list A) : result E (list B) :=
  match l with
  | [] => Ok []
  | x :: l' => match f x with
               | Err e => Err e
               | Ok y => match traverse f l' with
                         | Err e => Err e
                         | Ok ys => Ok (y :: ys)
                         end
               end
  end.

(** ** Databases

    How a database call ends: it succeeds, it fails and changes nothing, or the
    commit takes place but the reply is lost. *)
Inductive verdict := TxCommit | TxFail | TxLost.

(** ** Fixed-width integers: Go wraps around silently *)

Definition int64_min : Z := (- 2 ^ 63)%Z.
Definition int64_max : Z := (2 ^ 63 - 1)%Z.
Definition int64 (z : Z) : Z := ((z + 2 ^ 63) mod 2 ^ 64 - 2 ^ 63)%Z.
Definition uint64 (z : Z) : Z := (z mod 2 ^ 64)%Z.
Definition uint32 (z : Z) : Z := (z mod 2 ^ 32)%Z.

(** ** [time.Time]: an instant in nanoseconds since Go's zero time (January 1,
    year 1, 00:00 UTC), and whether its location is UTC.  Comparisons read the
    instant only; [UTC] changes the location only. *)

Record time := Time { instant : Z; in_utc : bool }.

#[global] Instance time_eq_dec : EqDecision time.
Proof. solve_decision. Defined.

Definition zero_time : time := Time 0 true.
Definition IsZero (t : time) : bool := (instant t =? 0)%Z.
Definition Before (a b : time) : bool := (instant a <? instant b)%Z.
Definition After (a b : time) : bool := (instant b <? instant a)%Z.
Definition TimeEqual (a b : time) : bool := (instant a =? instant b)%Z.
Definition UTC (t : time) : time := Time (instant t) true.
Definition AddDuration (t : time) (d : Z) : time := Time (instant t + d) (in_utc t).

(** [t.Sub(u)] saturates at the largest and smallest [time.Duration]. *)
Definition SubTime (t u : time) : Z :=
  let d := (instant t - instant u)%Z in
  if (int64_max <? d)%Z then int64_max
  else if (d <? int64_min)%Z then int64_min else d.

(** Seconds from year 1 to 1970 (Go's [unixToInternal]), and [UnixNano], which
    Go documents as undefined outside the [int64] range and which wraps. *)
Definition unix_epoch : Z := (62135596800 * 1000000000)%Z.
Definition UnixNano (t : time) : Z := int64 (instant t - unix_epoch).
Definition UnixNanoTime (n : Z) : time := Time (n + unix_epoch) true.

Definition nanosecond : Z := 1%Z.
Definition microsecond : Z := 1000%Z.
Definition second : Z := 1000000000%Z.
Definition minute : Z := (60 * second)%Z.
Definition hour : Z := (60 * minute)%Z.

(** [t.Truncate(d)] rounds down to a multiple of [d] since the zero time. *)
Definition Truncate (t : time) (d : Z) : time := Time (instant t - instant t mod d) (in_utc t).

(** ** Strings are byte strings *)

Definition byte_of (a : Ascii.ascii) : Z := Z.of_N (Ascii.N_of_ascii a).
Definition bytes_of (s : string) : list Z := byte_of <$> String.list_ascii_of_string s.
Definition empty_string (s : string) : bool := bool_decide (s = EmptyString).

(** The length in bytes of the Unicode white space at the head of a byte list;
    0 when the list does not start with white space. *)
Definition space_prefix (l : list Z) : nat :=
  match l with
  | 9%Z :: _ | 10%Z :: _ | 11%Z :: _ | 12%Z :: _ | 13%Z :: _ | 32%Z :: _ => 1
  | 194%Z :: 133%Z :: _ | 194%Z :: 160%Z :: _ => 2
  | 225%Z :: 154%Z :: 128%Z :: _ => 3
  | 226%Z :: 128%Z :: c :: _ =>
      if ((128 <=? c) && (c <=? 138) || (c =? 168) || (c =? 169) || (c =? 175))%Z then 3 else 0
  | 226%Z :: 129%Z :: 159%Z :: _ => 3
  | 227%Z :: 128%Z :: 128%Z :: _ => 3
  | _ => 0
  end.

(** The same for the end of the text, read on the reversed byte list. *)
Definition space_suffix (l : list Z) : nat :=
  match l with
  | 9%Z :: _ | 10%Z :: _ | 11%Z :: _ | 12%Z :: _ | 13%Z :: _ | 32%Z :: _ => 1
  | 133%Z :: 194%Z :: _ | 160%Z :: 194%Z :: _ => 2
  | 128%Z :: 154%Z :: 225%Z :: _ => 3
  | c :: 128%Z :: 226%Z :: _ =>
      if ((128 <=? c) && (c <=? 138) || (c =? 168) || (c =? 169) || (c =? 175))%Z then 3 else 0
  | 159%Z :: 129%Z :: 226%Z :: _ => 3
  | 128%Z :: 128%Z :: 227%Z :: _ => 3
  | _ => 0
  end.

Fixpoint strip (width : list Z -> nat) (fuel : nat) (l : list Z) : list Z :=
  match fuel with
  | 0 => l
  | S fuel' => match width l with
               | 0 => l
               | n => strip width fuel' (drop n l)
               end
  end.

(** The bytes [strings.TrimSpace] keeps. *)
Definition trim_bytes (l : list Z) : list Z :=
  let left := strip space_prefix (length l) l in
  reverse (strip space_suffix (length left) (reverse left)).

(** [strings.TrimSpace(s) == ""] and [s == strings.TrimSpace(s)]. *)
Definition blank (s : string) : bool := bool_decide (trim_bytes (bytes_of s) = []).
Definition trimmed (s : string) : bool := bool_decide (trim_bytes (bytes_of s) = bytes_of s).

(** ** [encoding/hex]: lower-case encoding, decoding of either case *)

Definition hex_digit (n : Z) : Ascii.ascii :=
  Ascii.ascii_of_N (Z.to_N (if (n <? 10)%Z then n + 48 else n + 87))%Z.

Fixpoint hex_encode (l : list Z) : string :=
  match l with
  | [] => EmptyString
  | b :: rest => String (hex_digit (b / 16)) (String (hex_digit (b mod 16)) (hex_encode rest))
  end%Z.

Definition hex_value (a : Ascii.ascii) : option Z :=
  let n := byte_of a in
  if ((48 <=? n) && (n <=? 57))%Z then Some (n - 48)%Z
  else if ((97 <=? n) && (n <=? 102))%Z then Some (n - 87)%Z
  else if ((65 <=? n) && (n <=? 70))%Z then Some (n - 55)%Z
  else None.

Fixpoint hex_decode (s : string) : option (list Z) :=
  match s with
  | EmptyString => Some []
  | String a (String b rest) =>
      match hex_value a, hex_value b, hex_decode rest with
      | Some h, Some l, Some bs => Some ((16 * h + l)%Z :: bs)
      | _, _, _ => None
      end
  | String _ EmptyString => None
  end.

Definition is_byte (z : Z) : Prop := (0 <= z < 256)%Z.

(** ** Record update

    [r <| field := v |>] is [r] with one field replaced.  A record type takes
    part by an [Eta] instance that rebuilds a value from its fields; the setter
    of a field is that term with the field's projection abstracted. *)

Class Eta (R : Type) := eta : R -> R.
Class Setter {R A : Type} (field : R -> A) := set_field : (A -> A) -> R -> R.
Arguments set_field {R A} field {_} f r.

Ltac solve_setter field :=
  lazymatch type of field with
  | ?R -> ?A =>
      let i := constr:(_ : Eta R) in
      let e := eval red in i in
      lazymatch eval pattern field in e with
      | ?body _ => let s := eval cbv beta in (fun (f : A -> A) => body (fun r => f (field r))) in exact s
      end
  end.
#[export] Hint Extern 1 (Setter ?field) => solve_setter field : typeclass_instances.

Declare Scope update_scope.
Delimit Scope update_scope with update.
Notation "r <| field ::= f |>" := (set_field field f r) (at level 12, f at level 99, left associativity) : update_scope.
Notation "r <| field := v |>" := (set_field field (fun _ => v) r) (at level 12, v at level 99, left associativity) : update_scope.

(** ** Tactics *)

(** Split the match or [if] a hypothesis or the goal is stuck on. *)
Ltac case_hyp H :=
  match type of H with
  | context [ match ?x with _ => _ end ] =>
      let E := fresh "E" in destruct x eqn:E; try discriminate H
  end.
Ltac case_goal :=
  match goal with
  | |- context [ match ?x with _ => _ end ] => let E := fresh "E" in destruct x eqn:E
  end.
(** Walk through the early returns of a definition that succeeded. *)
Ltac run H := repeat (case_hyp H); simplify_eq.
(** Turn boolean guards into propositions. *)
Ltac bool_simpl :=
  repeat match goal with
  | H : (_ && _) = true |- _ => apply andb_true_iff in H; destruct H
  | H : (_ || _) = false |- _ => apply orb_false_iff in H; destruct H
  | H : negb _ = true |- _ => apply negb_true_iff in H
  | H : negb _ = false |- _ => apply negb_false_iff in H
  | H : bool_decide _ = true |- _ => apply bool_decide_eq_true in H
  | H : bool_decide _ = false |- _ => apply bool_decide_eq_false in H
  | H : (_ =? _)%Z = true |- _ => apply Z.eqb_eq in H
  | H : (_ =? _)%Z = false |- _ => apply Z.eqb_neq in H
  | H : (_ <? _)%Z = true |- _ => apply Z.ltb_lt in H
  | H : (_ <? _)%Z = false |- _ => apply Z.ltb_ge in H
  | H : (_ <=? _)%Z = true |- _ => apply Z.leb_le in H
  | H : (_ <=? _)%Z = false |- _ => apply Z.leb_gt in H
  end.

(** ** Generic lemmas *)

Create HintDb dbpilot.
Create Rewrite HintDb dbpilot.

Lemma int64_id z : (int64_min <= z <= int64_max)%Z -> int64 z = z.
Proof.
  unfold int64, int64_min, int64_max. intros H. rewrite Z.mod_small; lia.
Qed.

Lemma int64_bound z : (int64_min <= int64 z <= int64_max)%Z.
Proof.
  unfold int64, int64_min, int64_max. pose proof (Z.mod_pos_bound (z + 2 ^ 63) (2 ^ 64)). lia.
Qed.

Lemma UTC_idemp t : UTC (UTC t) = UTC t.
Proof. reflexivity. Qed.

Lemma IsZero_UTC t : IsZero (UTC t) = IsZero t.
Proof. reflexivity. Qed.

#[export] Hint Rewrite UTC_idemp IsZero_UTC : dbpilot.
#[export] Hint Resolve int64_bound : dbpilot.

Lemma NoDup_fmap_subset_length {A B} `{EqDecision B} (f : A -> B) (l : list A) (k : list B) :
  NoDup (f <$> l) -> (forall x, x ∈ l -> f x ∈ k) -> length l <= length k.
Proof.
  intros Hnd Hin. rewrite <- (length_fmap f).
  apply submseteq_length, NoDup_submseteq; [done|].
  intros y (x & -> & Hx)%list_elem_of_fmap. auto.
Qed.

Lemma NoDup_fmap_subset_full {A B} (f : A -> B) (l : list A) (k : list B) :
  NoDup (f <$> l) -> (forall x, x ∈ l -> f x ∈ k) -> length k <= length l ->
  forall y, y ∈ k -> exists x, x ∈ l /\ f x = y.
Proof.
  intros Hnd Hin Hlen y Hy.
  assert (Hsub : f <$> l ⊆+ k).
  { apply NoDup_submseteq; [done|]. intros z (x & -> & Hx)%list_elem_of_fmap. auto. }
  assert (Hp : f <$> l ≡ₚ k) by (apply submseteq_length_Permutation; [done|by rewrite length_fmap]).
  rewrite <- Hp in Hy. apply list_elem_of_fmap in Hy as (x & -> & Hx). eauto.
Qed.

Lemma filter_ext_in {A} (P Q : A -> Prop) `{!forall x, Decision (P x), !forall x, Decision (Q x)} (l : list A) :
  (forall x, x ∈ l -> P x <-> Q x) -> filter P l = filter Q l.
Proof.
  induction l as [|x l IH]; intros Hl; [done|]. rewrite !filter_cons.
  assert (Htl : filter P l = filter Q l) by (apply IH; intros y Hy; apply Hl; by right).
  destruct (Hl x) as [H1 H2]; [by left|]. rewrite Htl. repeat case_decide; tauto.
Qed.

Lemma NoDup_fmap_inj_in {A B} (f : A -> B) (l : list A) x y :
  NoDup (f <$> l) -> x ∈ l -> y ∈ l -> f x = f y -> x = y.
Proof.
  intros Hnd [i Hi]%list_elem_of_lookup [j Hj]%list_elem_of_lookup Heq.
  assert (i = j); [|congruence]. eapply NoDup_lookup; [exact Hnd| |]; rewrite list_lookup_fmap; [by rewrite Hi|by rewrite Hj, Heq].
Qed.

Lemma StronglySorted_lt_NoDup (l : list Z) : StronglySorted Z.lt l -> NoDup l.
Proof.
  induction 1 as [|x l Hl IH Hx]; [constructor|]. apply NoDup_cons. split; [|done].
  intros Hin. rewrite Forall_forall in Hx. specialize (Hx x Hin). lia.
Qed.

Lemma StronglySorted_fmap {A B} (f : A -> B) (R : B -> B -> Prop) (l : list A) :
  StronglySorted (fun x y => R (f x) (f y)) l -> StronglySorted R (f <$> l).
Proof. induction 1 as [|x l Hl IH Hx]; rewrite ?fmap_cons; constructor; [done|]. by apply Forall_fmap. Qed.

Lemma StronglySorted_fmap_inv {A B} (f : A -> B) (R : B -> B -> Prop) (l : list A) :
  StronglySorted R (f <$> l) -> StronglySorted (fun x y => R (f x) (f y)) l.
Proof.
  induction l as [|x l IH]; intros H; [constructor|]. rewrite fmap_cons, StronglySorted_cons in H. destruct H as [H2 H1].
  constructor; [auto|]. rewrite Forall_fmap in H2. exact H2.
Qed.

Lemma StronglySorted_weaken {A} (R S : A -> A -> Prop) (l : list A) :
  (forall x y, R x y -> S x y) -> StronglySorted R l -> StronglySorted S l.
Proof. intros Hi. induction 1 as [|x l Hl IH Hx]; constructor; [done|]. eapply Forall_impl; [exact Hx|auto]. Qed.

Lemma hex_value_digit n : (0 <= n < 16)%Z -> hex_value (hex_digit n) = Some n.
Proof.
  intros H. assert (Hc : n ∈ seqZ 0 16) by (apply elem_of_seqZ; lia). clear H.
  revert n Hc. apply Forall_forall. apply (bool_decide_eq_true_1 (Forall _ _)). vm_compute. reflexivity.
Qed.

Lemma hex_decode_encode l : Forall is_byte l -> hex_decode (hex_encode l) = Some l.
Proof.
  induction 1 as [|b l Hb _ IH]; [done|]. cbn [hex_encode hex_decode]. unfold is_byte in Hb.
  rewrite !hex_value_digit by (pose proof (Z.mod_pos_bound b 16); split; try apply Z.div_pos; try apply Z.div_lt_upper_bound; lia).
  rewrite IH. do 2 f_equal. rewrite <- Z.div_mod; lia.
Qed.

Lemma hex_encode_inj l k : Forall is_byte l -> Forall is_byte k -> hex_encode l = hex_encode k -> l = k.
Proof.
  intros Hl Hk H. apply hex_decode_encode in Hl, Hk. rewrite H in Hl. congruence.
Qed.

Lemma traverse_Ok {E A B} (f : A -> result E B) l ys :
  traverse f l = Ok ys <-> Forall2 (fun x y => f x = Ok y) l ys.
Proof.
  revert ys. induction l as [|x l IH]; intros ys; cbn.
  - split; [intros [= <-]; constructor|inversion 1; done].
  - split.
    + intros H. run H. constructor; [done|]. by apply IH.
    + inversion 1 as [|? y ? ys' Hx Hl]; simplify_eq. rewrite Hx.
      by rewrite (proj2 (IH ys') Hl).
Qed.

Lemma traverse_total {E A B} (f : A -> result E B) l :
  (forall x, x ∈ l -> exists y, f x = Ok y) -> exists ys, traverse f l = Ok ys.
Proof.
  induction l as [|x l IH]; intros H; cbn; [eauto|].
  destruct (H x) as [y ->]; [left|]. destruct IH as [ys ->]; [|eauto].
  intros z Hz. apply H. by right.
Qed.

(** Rebuilding a map from its processed bindings, in any order. *)
Lemma traverse_map_lookup {E A B} (g : A -> result E B) (m : gmap string A) kvs ys k :
  kvs ≡ₚ map_to_list m ->
  traverse (fun kv => match g (snd kv) with Err e => Err e | Ok b => Ok (fst kv, b) end) kvs = Ok ys ->
  match m !! k with
  | None => (list_to_map ys : gmap string B) !! k = None
  | Some a => exists b, g a = Ok b /\ (list_to_map ys : gmap string B) !! k = Some b
  end.
Proof.
  intros Hp Ht%traverse_Ok.
  assert (Hfst : ys.*1 = kvs.*1).
  { clear Hp. induction Ht as [|[k0 a0] [k1 b1] l l' Hx _ IH]; [done|]. cbn in *. run Hx. by rewrite IH. }
  assert (Hnd : NoDup (ys.*1)) by (rewrite Hfst, Hp; apply NoDup_fst_map_to_list).
  destruct (m !! k) as [a|] eqn:Hk.
  - assert (Hin : (k, a) ∈ kvs) by (rewrite Hp; by apply elem_of_map_to_list).
    apply list_elem_of_lookup in Hin as [i Hi].
    destruct (Forall2_lookup_l _ _ _ _ _ Ht Hi) as ([k' b] & Hy & Hx). cbn in Hx. run Hx.
    exists b. split; [done|]. apply elem_of_list_to_map_1; [done|]. by eapply list_elem_of_lookup_2.
  - apply not_elem_of_list_to_map_1. rewrite Hfst, Hp.
    intros (p & -> & Hin)%list_elem_of_fmap. destruct p as [q a]. apply elem_of_map_to_list in Hin. cbn in Hk. congruence.
Qed.
