(* ===== verification/Programs.v ===== *)
(** * Programs over calls

    Services that call a database, a clock or other processes are programs:
    trees of calls with a continuation for every reply.  [C A] is the type of
    the calls whose reply has type [A].  What a call does is given where
    programs are run: alone, or interleaved with others call by call. *)

From S2P Require Import Prelude.

Inductive prog (C : Type -> Type) (A : Type) : Type :=
  | Return (a : A)
  | Call {B : Type} (c : C B) (k : B -> prog C A).
Arguments Return {C A} a.
Arguments Call {C A B} c k.

Fixpoint prog_bind {C A B} (f : A -> prog C B) (p : prog C A) : prog C B :=
  match p with Return a => f a | Call c k => Call c (fun b => prog_bind f (k b)) end.

Declare Scope prog_scope.
Delimit Scope prog_scope with prog.
Bind Scope prog_scope with prog.
(** Sequencing, a call, and a call whose error ends the program. *)
Notation "'let-' x := p 'in' q" := (prog_bind (fun x => q) p) (at level 200, x name, p at level 100, q at level 200, right associativity) : prog_scope.
Notation "'let*' x := c 'in' q" := (Call c (fun x => q)) (at level 200, x name, c at level 100, q at level 200, right associativity) : prog_scope.
Notation "'let!' x := c 'in' q" := (Call c (fun r => match r with Ok x => q | Err e => Return (Err e) end)) (at level 200, x name, c at level 100, q at level 200, right associativity) : prog_scope.
(** A program whose error ends the program. *)
Notation "'let?' x := p 'in' q" := (prog_bind (fun r => match r with Ok x => q | Err e => Return (Err e) end) p) (at level 200, x name, p at level 100, q at level 200, right associativity) : prog_scope.

(** A program for every element, one after the other. *)
Fixpoint for_each {C A B} (f : A -> prog C B) (l : list A) : prog C (list B) :=
  match l with
  | [] => Return []
  | x :: rest => prog_bind (fun y => prog_bind (fun ys => Return (y :: ys)) (for_each f rest)) (f x)
  end.
