(* ===== verification/GoText.v ===== *)
(** * Text and number formats of the Go standard library

    What the alert packages use of [strings], [strconv], [time] and IEEE
    floating point: substring tests, case folding, decimal integers, booleans,
    the RFC 3339 time format with its parser, clock times, and [float64]
    arithmetic on Stdlib's [spec_float].  The main result is that a UTC time
    survives formatting and parsing ([ParseRFC3339_Format]). *)

From stdpp Require Import pretty.
From Stdlib Require Import Ascii SpecFloat.
From S2P Require Import Prelude.

Open Scope Z_scope.

(** ** [strings] *)

(** [strings.Contains(s, sub)] *)
Fixpoint Contains (sub s : string) : bool :=
  String.prefix sub s || match s with EmptyString => false | String _ rest => Contains sub rest end.

(** ASCII character classes *)
Definition is_letter (n : Z) : bool := ((97 <=? n) && (n <=? 122)) || ((65 <=? n) && (n <=? 90)).
Definition is_digit (n : Z) : bool := (48 <=? n) && (n <=? 57).

Definition HasPrefix (p s : string) : bool := String.prefix p s.

Fixpoint drop_string (n : nat) (s : string) : string :=
  match n, s with
  | O, _ => s
  | S n', String _ rest => drop_string n' rest
  | S _, EmptyString => EmptyString
  end.

(** [strings.TrimPrefix(s, p)] *)
Definition TrimPrefix (p s : string) : string :=
  if HasPrefix p s then drop_string (String.length p) s else s.

Fixpoint map_string (f : Ascii.ascii -> Ascii.ascii) (s : string) : string :=
  match s with EmptyString => EmptyString | String a rest => String (f a) (map_string f rest) end.

(** [strings.ReplaceAll] of one byte by another *)
Definition ReplaceAll (old new : Ascii.ascii) (s : string) : string :=
  map_string (fun a => if Ascii.eqb a old then new else a) s.

Definition lower_byte (a : Ascii.ascii) : Ascii.ascii :=
  let n := byte_of a in
  if (65 <=? n) && (n <=? 90) then Ascii.ascii_of_N (Z.to_N (n + 32)) else a.

(** The ASCII part of [strings.ToLower].  Two characters outside ASCII have an
    ASCII lower case: the Kelvin sign U+212A ([k]) and U+0130 ([i]).  Every
    other character outside ASCII stays outside ASCII and is kept as it is,
    which none of the ASCII searches made on the result can see. *)
Fixpoint ToLower (s : string) : string :=
  match s with
  | EmptyString => EmptyString
  | String a rest =>
      match byte_of a, rest with
      | 226, String b (String c rest') =>
          if (byte_of b =? 132) && (byte_of c =? 170) then String "k"%char (ToLower rest')
          else String a (ToLower rest)
      | 196, String b rest' =>
          if byte_of b =? 176 then String "i"%char (ToLower rest') else String a (ToLower rest)
      | _, _ => String (lower_byte a) (ToLower rest)
      end
  end.

(** [strings.TrimSpace] as a string *)
Definition string_of_bytes (l : list Z) : string :=
  String.string_of_list_ascii ((fun z => Ascii.ascii_of_N (Z.to_N z)) <$> l).
Definition TrimSpace (s : string) : string := string_of_bytes (trim_bytes (bytes_of s)).

(** [strings.Split(s, ",")] *)
Fixpoint split_comma (s : string) : list string :=
  match s with
  | EmptyString => [EmptyString]
  | String a rest =>
      if Ascii.eqb a ","%char then EmptyString :: split_comma rest
      else match split_comma rest with
           | [] => [String a EmptyString]
           | w :: ws => String a w :: ws
           end
  end.

(** [strings.Join(l, ",")] *)
Fixpoint join_comma (l : list string) : string :=
  match l with
  | [] => EmptyString
  | [w] => w
  | w :: ws => (w +:+ "," +:+ join_comma ws)%string
  end.

Definition string_leb (a b : string) : bool := String.leb a b.

(** ** [strconv] *)

Definition Itoa (z : Z) : string :=
  if z <? 0 then String "-"%char (pretty (Z.to_N (- z))) else pretty (Z.to_N z).

Definition digit_val (a : Ascii.ascii) : option Z :=
  let n := byte_of a in if (48 <=? n) && (n <=? 57) then Some (n - 48) else None.

Fixpoint digits_val (acc : Z) (s : string) : option Z :=
  match s with
  | EmptyString => Some acc
  | String a rest => match digit_val a with Some d => digits_val (10 * acc + d) rest | None => None end
  end.

(** [strconv.Atoi] and [strconv.ParseInt(s, 10, 64)] on a 64-bit machine *)
Definition Atoi (s : string) : option Z :=
  let '(neg, body) := match s with
                      | String a rest => if Ascii.eqb a "-"%char then (true, rest)
                                         else if Ascii.eqb a "+"%char then (false, rest) else (false, s)
                      | EmptyString => (false, s)
                      end in
  if empty_string body then None
  else match digits_val 0 body with
       | None => None
       | Some n => let v := if (neg : bool) then - n else n in
                   if (int64_min <=? v) && (v <=? int64_max) then Some v else None
       end.

Definition ParseBool (s : string) : option bool :=
  if bool_decide (s ∈ ["1"; "t"; "T"; "TRUE"; "true"; "True"]%string) then Some true
  else if bool_decide (s ∈ ["0"; "f"; "F"; "FALSE"; "false"; "False"]%string) then Some false
  else None.

Definition FormatBool (b : bool) : string := if b then "true"%string else "false"%string.

(** ** [float64] *)

Definition float64 : Type := spec_float.
Definition fadd : float64 -> float64 -> float64 := SFadd 53 1024.
Definition fsub : float64 -> float64 -> float64 := SFsub 53 1024.
Definition fdiv : float64 -> float64 -> float64 := SFdiv 53 1024.
Definition f_of_Z (z : Z) : float64 := binary_normalize 53 1024 z 0 false.
Definition fzero : float64 := S754_zero false.
Definition flt (a b : float64) : bool := SFltb a b.
Definition fle (a b : float64) : bool := SFleb a b.
Definition feq (a b : float64) : bool := SFeqb a b.
Definition IsNaN (f : float64) : bool := match f with S754_nan => true | _ => false end.
Definition IsInf (f : float64) : bool := match f with S754_infinity _ => true | _ => false end.
Definition finite (f : float64) : bool := negb (IsNaN f || IsInf f).

(** [time.Duration.Seconds] *)
Definition Seconds (d : Z) : float64 :=
  fadd (f_of_Z (Z.quot d second)) (fdiv (f_of_Z (Z.rem d second)) (f_of_Z second)).

(** Shortest decimal text of a [float64] ([strconv.FormatFloat(f, 'g', -1, 64)])
    and its parser, with the round trip the [strconv] documentation states for
    precision -1. *)
Class FloatText := {
  FormatFloat : float64 -> string;
  ParseFloat : string -> option float64;
}.
Class FloatTextLaws `{FloatText} := {
  ParseFloat_FormatFloat f : finite f = true -> ParseFloat (FormatFloat f) = Some f;
}.

(** ** [time]: the proleptic Gregorian calendar *)

Definition is_leap (y : Z) : bool := (y mod 4 =? 0) && (negb (y mod 100 =? 0) || (y mod 400 =? 0)).

Definition month_lengths (y : Z) : list Z :=
  [31; if is_leap y then 29 else 28; 31; 30; 31; 30; 31; 31; 30; 31; 30; 31].

(** Days from January 1 of year 1 to January 1 of year [y]. *)
Definition days_before_year (y : Z) : Z :=
  365 * (y - 1) + (y - 1) / 4 - (y - 1) / 100 + (y - 1) / 400.

Definition year_of_day (d : Z) : Z :=
  let y := 400 * d / 146097 + 1 in
  if d <? days_before_year y then y - 1
  else if days_before_year (y + 1) <=? d then y + 1 else y.

Fixpoint month_of (lens : list Z) (m : Z) (doy : Z) : Z * Z :=
  match lens with
  | [] => (m, doy + 1)
  | l :: rest => if doy <? l then (m, doy + 1) else month_of rest (m + 1) (doy - l)
  end.

Definition civil_of_days (d : Z) : Z * Z * Z :=
  let y := year_of_day d in
  let '(m, day) := month_of (month_lengths y) 1 (d - days_before_year y) in (y, m, day).

Definition sum_Z (l : list Z) : Z := foldr Z.add 0 l.

Definition days_of_civil (y m day : Z) : Z :=
  days_before_year y + sum_Z (take (Z.to_nat (m - 1)) (month_lengths y)) + (day - 1).

Definition daysIn (y m : Z) : Z := default 0 (month_lengths y !! Z.to_nat (m - 1)).

Definition day_ns : Z := 24 * hour.

(** ** [Format(time.RFC3339Nano)] of a UTC time *)

Fixpoint digits (w : nat) (n : Z) : list Z :=
  match w with O => [] | S w' => (n / 10 ^ Z.of_nat w') mod 10 :: digits w' n end.

Definition digit_char (d : Z) : Ascii.ascii := Ascii.ascii_of_N (Z.to_N (d + 48)).

Fixpoint digit_string (l : list Z) (tail : string) : string :=
  match l with [] => tail | d :: rest => String (digit_char d) (digit_string rest tail) end.

Fixpoint trim_zeros (l : list Z) : list Z :=
  match l with
  | [] => []
  | d :: rest => match trim_zeros rest with
                 | [] => if d =? 0 then [] else [d]
                 | r => d :: r
                 end
  end.

(** [appendInt(year, 4)]: at least four digits, with a sign when negative. *)
Definition format_year (y : Z) (tail : string) : string :=
  if (0 <=? y) && (y <=? 9999) then digit_string (digits 4 y) tail
  else if y <? 0 then
    if y <? -9999 then (Itoa y +:+ tail)%string else String "-"%char (digit_string (digits 4 (- y)) tail)
  else (Itoa y +:+ tail)%string.

(** The fraction of the second without trailing zeros, and the zone. *)
Definition zone_text (ns : Z) : string :=
  match trim_zeros (digits 9 ns) with [] => "Z"%string | l => String "."%char (digit_string l "Z"%string) end.

Definition FormatRFC3339Nano (t : time) : string :=
  let d := instant t / day_ns in
  let ns := instant t mod day_ns in
  let '(y, m, day) := civil_of_days d in
  let clock := digit_string (digits 2 (ns / hour)) (String ":"%char
    (digit_string (digits 2 (ns / minute mod 60)) (String ":"%char
    (digit_string (digits 2 (ns / second mod 60)) (zone_text (ns mod second)))))) in
  format_year y (String "-"%char (digit_string (digits 2 m) (String "-"%char
    (digit_string (digits 2 day) (String "T"%char clock))))).

(** ** [time.Parse(time.RFC3339Nano, s)] *)

(** [getnum]: two digits, or one when not [fixed]. *)
Definition getnum (fixed : bool) (s : string) : option (Z * string) :=
  match s with
  | EmptyString => None
  | String a rest =>
      match digit_val a with
      | None => None
      | Some x =>
          match rest with
          | String b rest' => match digit_val b with
                              | Some y => Some (10 * x + y, rest')
                              | None => if fixed then None else Some (x, rest)
                              end
          | EmptyString => if fixed then None else Some (x, rest)
          end
      end
  end.

Definition expect (c : Ascii.ascii) (s : string) : option string :=
  match s with String a rest => if Ascii.eqb a c then Some rest else None | EmptyString => None end.

Definition in_range (lo hi : Z) (x : Z) : option Z := if (lo <=? x) && (x <=? hi) then Some x else None.

Fixpoint span_digits (s : string) : list Z * string :=
  match s with
  | EmptyString => ([], s)
  | String a rest => match digit_val a with
                     | Some d => let '(ds, rest') := span_digits rest in (d :: ds, rest')
                     | None => ([], s)
                     end
  end.

(** The first [w] digits as a fraction of [10 ^ w]. *)
Fixpoint fraction (w : nat) (ds : list Z) : Z :=
  match w, ds with
  | S w', d :: rest => d * 10 ^ Z.of_nat w' + fraction w' rest
  | _, _ => 0
  end.

(** The optional fraction of the second: a point or a comma and digits. *)
Definition parse_fraction (s : string) : Z * string :=
  match s with
  | String a rest =>
      if Ascii.eqb a "."%char || Ascii.eqb a ","%char then
        match span_digits rest with
        | ([], _) => (0, s)
        | (ds, rest') => (fraction 9 ds, rest')
        end
      else (0, s)
  | EmptyString => (0, s)
  end.

(** [Z], or an offset [+hh:mm] or [-hh:mm]; the seconds to subtract. *)
Definition parse_zone (s : string) : option (Z * string) :=
  match s with
  | String a rest =>
      if Ascii.eqb a "Z"%char then Some (0, rest)
      else
        '(hr, r1) ← getnum true rest;
        r2 ← expect ":"%char r1;
        '(mm, r3) ← getnum true r2;
        _ ← in_range 0 24 hr; _ ← in_range 0 60 mm;
        if Ascii.eqb a "+"%char then Some (60 * (60 * hr + mm), r3)
        else if Ascii.eqb a "-"%char then Some (- (60 * (60 * hr + mm)), r3) else None
  | EmptyString => None
  end.

Definition ParseRFC3339 (s : string) : option time :=
  '(yy, r1) ← getnum true s; '(yl, r2) ← getnum true r1;
  r3 ← expect "-"%char r2; '(m, r4) ← getnum true r3; _ ← in_range 1 12 m;
  r5 ← expect "-"%char r4; '(day, r6) ← getnum true r5;
  r7 ← expect "T"%char r6; '(h, r8) ← getnum false r7; _ ← in_range 0 23 h;
  r9 ← expect ":"%char r8; '(mi, r10) ← getnum true r9; _ ← in_range 0 59 mi;
  r11 ← expect ":"%char r10; '(sec, r12) ← getnum true r11; _ ← in_range 0 59 sec;
  let '(ns, r13) := parse_fraction r12 in
  '(off, r14) ← parse_zone r13;
  let y := 100 * yy + yl in
  if negb (empty_string r14) then None
  else if (day <? 1) || (daysIn y m <? day) then None
  else Some (Time (days_of_civil y m day * day_ns + h * hour + mi * minute + (sec - off) * second + ns)
                  (match r13 with String "Z"%char _ => true | _ => false end)).

(** [time.Parse("15:04", s)]: minutes since midnight *)
Definition ParseClock (s : string) : option Z :=
  '(h, r1) ← getnum false s; _ ← in_range 0 23 h;
  r2 ← expect ":"%char r1; '(mi, r3) ← getnum true r2; _ ← in_range 0 59 mi;
  if empty_string r3 then Some (60 * h + mi) else None.

(** [t.UTC().Hour()*60 + t.UTC().Minute()] *)
Definition minute_of_day (t : time) : Z := instant t mod day_ns / minute.

(** ** A UTC time survives formatting and parsing *)

#[local] Ltac Zify.zify_post_hook ::= Z.to_euclidean_division_equations.

(** Years 1 to 9999, the range in which [time.Time] has an RFC 3339 text. *)
Definition rfc3339_range (t : time) : Prop := 0 <= instant t < days_before_year 10000 * day_ns.

Lemma days_before_year_step y : days_before_year (y + 1) = days_before_year y + sum_Z (month_lengths y).
Proof.
  unfold days_before_year, month_lengths, is_leap, sum_Z. cbn [foldr].
  destruct (y mod 4 =? 0) eqn:E4, (y mod 100 =? 0) eqn:E100, (y mod 400 =? 0) eqn:E400;
    cbn [andb orb negb]; bool_simpl; lia.
Qed.

Lemma year_of_day_spec d : days_before_year (year_of_day d) <= d < days_before_year (year_of_day d + 1).
Proof.
  unfold year_of_day. cbv zeta. set (y := 400 * d / 146097 + 1).
  assert (Hy : days_before_year (y - 1) <= d < days_before_year (y + 2)).
  { unfold days_before_year, y. lia. }
  destruct (d <? days_before_year y) eqn:E1; bool_simpl.
  - replace (y - 1 + 1) with y by lia. lia.
  - destruct (days_before_year (y + 1) <=? d) eqn:E2; bool_simpl; [|lia].
    replace (y + 1 + 1) with (y + 2) by lia. lia.
Qed.

Lemma month_of_spec lens m0 doy : Forall (fun l => 0 < l) lens -> 0 <= doy < sum_Z lens ->
  exists k, fst (month_of lens m0 doy) = m0 + Z.of_nat k /\ (k < length lens)%nat /\
    1 <= snd (month_of lens m0 doy) <= default 0 (lens !! k) /\
    sum_Z (take k lens) + snd (month_of lens m0 doy) - 1 = doy.
Proof.
  intros Hpos. revert m0 doy. induction Hpos as [|l lens Hl _ IH]; intros m0 doy Hd; [cbn in Hd; lia|].
  change (sum_Z (l :: lens)) with (l + sum_Z lens) in Hd. cbn [month_of]. destruct (doy <? l) eqn:E; bool_simpl.
  - exists 0%nat. cbn [fst snd length take]. change ((l :: lens) !! 0%nat) with (Some l). cbn. split_and!; lia.
  - destruct (IH (m0 + 1) (doy - l)) as (k & H1 & H2 & H3 & H4); [lia|].
    exists (S k). rewrite H1. change ((l :: lens) !! S k) with (lens !! k).
    change (sum_Z (take (S k) (l :: lens))) with (l + sum_Z (take k lens)). cbn [length]. split_and!; lia.
Qed.

Lemma month_lengths_pos y : Forall (fun l => 0 < l) (month_lengths y).
Proof. unfold month_lengths. repeat constructor. by destruct (is_leap y). Qed.

Lemma civil_of_days_spec d y m day : civil_of_days d = (y, m, day) ->
  y = year_of_day d /\ 1 <= m <= 12 /\ 1 <= day <= daysIn y m /\ days_of_civil y m day = d.
Proof.
  unfold civil_of_days. cbv zeta. intros H.
  destruct (month_of (month_lengths (year_of_day d)) 1 (d - days_before_year (year_of_day d))) as [m' day'] eqn:E.
  injection H as <- <- <-. pose proof (year_of_day_spec d) as Hy. rewrite days_before_year_step in Hy.
  destruct (month_of_spec (month_lengths (year_of_day d)) 1 (d - days_before_year (year_of_day d))) as (k & H1 & H2 & H3 & H4);
    [apply month_lengths_pos|lia|].
  rewrite E in H1, H3, H4. cbn [fst snd] in *. change (length _) with 12%nat in H2. subst m'.
  unfold daysIn, days_of_civil. replace (Z.to_nat (1 + Z.of_nat k - 1)) with k by lia. lia.
Qed.

Lemma daysIn_bound y m : daysIn y m <= 31.
Proof.
  unfold daysIn. destruct (month_lengths y !! Z.to_nat (m - 1)) as [x|] eqn:E; cbn; [|lia].
  revert x E. generalize (Z.to_nat (m - 1)). intros n x Hx.
  apply list_elem_of_lookup_2 in Hx. unfold month_lengths in Hx.
  destruct (is_leap y); set_unfold in Hx; lia.
Qed.

Lemma digit_val_char d : 0 <= d < 10 -> digit_val (digit_char d) = Some d.
Proof.
  intros H. assert (Hc : d ∈ seqZ 0 10) by (apply elem_of_seqZ; lia). clear H. revert d Hc.
  apply Forall_forall. apply (bool_decide_eq_true_1 (Forall _ _)). vm_compute. reflexivity.
Qed.

Lemma getnum_digits fixed n tail : 0 <= n < 100 -> getnum fixed (digit_string (digits 2 n) tail) = Some (n, tail).
Proof.
  intros H. cbn [digits digit_string getnum]. change (10 ^ Z.of_nat 1) with 10. change (10 ^ Z.of_nat 0) with 1.
  rewrite !digit_val_char by (apply Z.mod_pos_bound; lia). repeat f_equal. lia.
Qed.

Lemma getnum_year y tail : 0 <= y <= 9999 ->
  exists hi lo mid, getnum true (format_year y tail) = Some (hi, mid) /\ getnum true mid = Some (lo, tail) /\ 100 * hi + lo = y.
Proof.
  intros H. unfold format_year. rewrite (proj2 (andb_true_iff _ _)) by (split; apply Z.leb_le; lia).
  exists (y / 100), (y mod 100), (digit_string (digits 2 y) tail). split_and!; [| |lia].
  - cbn [digits digit_string getnum].
    change (10 ^ Z.of_nat 3) with 1000. change (10 ^ Z.of_nat 2) with 100. change (10 ^ Z.of_nat 1) with 10. change (10 ^ Z.of_nat 0) with 1.
    rewrite !digit_val_char by (apply Z.mod_pos_bound; lia). repeat f_equal. lia.
  - replace (digits 2 y) with (digits 2 (y mod 100)); [apply getnum_digits; lia|].
    cbn [digits]. change (10 ^ Z.of_nat 1) with 10. change (10 ^ Z.of_nat 0) with 1. f_equal; [|f_equal]; lia.
Qed.

Lemma expect_hit c s : expect c (String c s) = Some s.
Proof. cbn. by rewrite Ascii.eqb_refl. Qed.

Lemma in_range_hit lo hi x : lo <= x <= hi -> in_range lo hi x = Some x.
Proof. intros H. unfold in_range. rewrite (proj2 (andb_true_iff _ _)); [done|]. split; apply Z.leb_le; lia. Qed.

Lemma fraction_trim_zeros w l : fraction w (trim_zeros l) = fraction w l.
Proof.
  revert w. induction l as [|d l IH]; intros [|w]; cbn [trim_zeros fraction]; try done.
  - rewrite <- (IH w). destruct (trim_zeros l) as [|x r]; [|done].
    destruct (Z.eqb_spec d 0) as [->|]; cbn; by destruct w.
Qed.

Lemma fraction_digits w n : 0 <= n -> fraction w (digits w n) = n mod 10 ^ Z.of_nat w.
Proof.
  intros Hn. induction w as [|w IH]; [by rewrite Z.mod_1_r|]. cbn [digits fraction]. rewrite IH.
  rewrite Nat2Z.inj_succ, Z.pow_succ_r by lia. rewrite (Z.mul_comm 10), Z.rem_mul_r by (try apply Z.pow_nonzero; lia). ring.
Qed.

Lemma span_digit_string l tail : Forall (fun d => 0 <= d < 10) l -> span_digits tail = ([], tail) ->
  span_digits (digit_string l tail) = (l, tail).
Proof.
  intros Hl Ht. induction Hl as [|d l Hd _ IH]; [done|]. cbn [digit_string span_digits].
  by rewrite digit_val_char, IH by done.
Qed.

Lemma digits_range w n : Forall (fun d => 0 <= d < 10) (digits w n).
Proof. induction w; constructor; [apply Z.mod_pos_bound; lia|done]. Qed.

Lemma trim_zeros_range l : Forall (fun d => 0 <= d < 10) l -> Forall (fun d => 0 <= d < 10) (trim_zeros l).
Proof.
  induction 1 as [|d l Hd _ IH]; [constructor|]. cbn [trim_zeros].
  destruct (trim_zeros l); [|by constructor]. destruct (d =? 0); repeat constructor; lia.
Qed.

Lemma parse_fraction_zone ns : 0 <= ns < second -> parse_fraction (zone_text ns) = (ns, "Z"%string).
Proof.
  intros H. unfold zone_text.
  assert (Hf : fraction 9 (trim_zeros (digits 9 ns)) = ns).
  { rewrite fraction_trim_zeros, fraction_digits by lia. apply Z.mod_small. exact H. }
  pose proof (trim_zeros_range _ (digits_range 9 ns)) as Hr.
  destruct (trim_zeros (digits 9 ns)) as [|d l] eqn:E; [by rewrite <- Hf|].
  cbn [parse_fraction]. change (Ascii.eqb "." ".") with true. cbn [orb].
  rewrite span_digit_string by done. by rewrite Hf.
Qed.

(** The clock reading of a time of day. *)
Lemma clock_reading ns : 0 <= ns < day_ns ->
  0 <= ns / hour <= 23 /\ 0 <= ns / minute mod 60 <= 59 /\ 0 <= ns / second mod 60 <= 59 /\
  ns / hour * hour + ns / minute mod 60 * minute + ns / second mod 60 * second + ns mod second = ns.
Proof. unfold day_ns, hour, minute, second. intros H. lia. Qed.

Lemma year_of_day_range t : rfc3339_range t -> 0 <= year_of_day (instant t / day_ns) <= 9999.
Proof.
  intros [H1 H2]. pose proof (year_of_day_spec (instant t / day_ns)) as Hy.
  assert (Hd : 0 <= instant t / day_ns < days_before_year 10000).
  { split; [apply Z.div_pos; [done|reflexivity]|apply Z.div_lt_upper_bound; [reflexivity|lia]]. }
  revert Hy Hd. generalize (year_of_day (instant t / day_ns)), (instant t / day_ns).
  intros y d. unfold days_before_year. lia.
Qed.

(** One step of the parser over formatted text. *)
#[local] Ltac parse_step :=
  first [rewrite expect_hit | rewrite getnum_digits by lia | rewrite in_range_hit by lia]; cbn [mbind option_bind].

Lemma timestamp_parts D ns h mi s f i : h * hour + mi * minute + s * second + f = ns -> i = day_ns * D + ns ->
  D * day_ns + h * hour + mi * minute + (s - 0) * second + f = i.
Proof. intros <- ->. ring. Qed.

Lemma ParseRFC3339_Format t : rfc3339_range t -> ParseRFC3339 (FormatRFC3339Nano t) = Some (UTC t).
Proof.
  intros Hr. pose proof (year_of_day_range t Hr) as Hy. unfold FormatRFC3339Nano. cbv zeta.
  assert (Hns : 0 <= instant t mod day_ns < day_ns) by (apply Z.mod_pos_bound; reflexivity).
  destruct (civil_of_days (instant t / day_ns)) as [[y m] day] eqn:E.
  destruct (civil_of_days_spec _ _ _ _ E) as (-> & Hm & Hday & Hd). pose proof (daysIn_bound (year_of_day (instant t / day_ns)) m) as Hb.
  destruct (clock_reading _ Hns) as (Hh & Hmi & Hs & Hsum).
  match goal with |- ParseRFC3339 (format_year ?y ?tl) = _ => destruct (getnum_year y tl Hy) as (hi & lo & mid & G1 & G2 & G3) end.
  unfold ParseRFC3339. rewrite G1. cbn [mbind option_bind]. rewrite G2. cbn [mbind option_bind].
  repeat parse_step.
  rewrite parse_fraction_zone by (apply Z.mod_pos_bound; reflexivity). cbn [parse_zone]. change (Ascii.eqb "Z" "Z") with true. cbn [mbind option_bind].
  change (negb (empty_string "")) with false. cbv iota. rewrite G3.
  rewrite (proj2 (orb_false_iff _ _)) by (split; apply Z.ltb_ge; lia). unfold UTC. do 2 f_equal.
  rewrite Hd. apply (timestamp_parts _ _ _ _ _ _ _ Hsum). apply Z.div_mod. discriminate.
Qed.

(** ** Printable ASCII text *)

Definition plain_text (s : string) : bool := forallb (fun b => (32 <=? b) && (b <=? 126)) (bytes_of s).

Lemma plain_text_cons a s : plain_text (String a s) = ((32 <=? byte_of a) && (byte_of a <=? 126)) && plain_text s.
Proof. reflexivity. Qed.

Lemma digit_char_plain d : 0 <= d < 10 -> ((32 <=? byte_of (digit_char d)) && (byte_of (digit_char d) <=? 126)) = true.
Proof.
  intros H. assert (Hc : d ∈ seqZ 0 10) by (apply elem_of_seqZ; lia). clear H. revert d Hc.
  apply Forall_forall. apply (bool_decide_eq_true_1 (Forall _ _)). vm_compute. reflexivity.
Qed.

Lemma digit_string_plain l tail : Forall (fun d => 0 <= d < 10) l -> plain_text tail = true -> plain_text (digit_string l tail) = true.
Proof.
  intros Hl Ht. induction Hl as [|d l Hd _ IH]; [done|]. cbn [digit_string]. by rewrite plain_text_cons, digit_char_plain, IH.
Qed.

Lemma zone_text_plain ns : plain_text (zone_text ns) = true.
Proof.
  unfold zone_text. pose proof (trim_zeros_range _ (digits_range 9 ns)) as Hr. destruct (trim_zeros (digits 9 ns)) as [|d l]; [done|].
  rewrite plain_text_cons. apply andb_true_iff. split; [reflexivity|]. by apply digit_string_plain.
Qed.

Lemma FormatRFC3339Nano_plain t : rfc3339_range t -> plain_text (FormatRFC3339Nano t) = true.
Proof.
  intros Hr. pose proof (year_of_day_range t Hr) as Hy. unfold FormatRFC3339Nano. cbv zeta.
  destruct (civil_of_days (instant t / day_ns)) as [[y m] day] eqn:E. destruct (civil_of_days_spec _ _ _ _ E) as (-> & _).
  unfold format_year. rewrite (proj2 (andb_true_iff _ _)) by (split; apply Z.leb_le; lia).
  repeat first [apply digit_string_plain; [apply digits_range|] | apply zone_text_plain | rewrite plain_text_cons; apply andb_true_iff; split; [reflexivity|]].
Qed.
