(* ===== verification/JobModel.v ===== *)
(** * The durable job state machine

    Translation of [backend/internal/job/model.go]: the job and target-result
    data, [ApplyTransition] with every guard and early return, the aggregation
    of target rows into progress counters and outcome, and the target-set
    invariant [ValidateTargets].  The [nil] slices the code tests for
    ([transition.TargetResults], [transition.Artifacts]) are options. *)

From S2P Require Import Prelude.

(** ** Data *)

Inductive JobError := ErrNotFound | ErrConflict | ErrInvalidTransition | ErrAmbiguousCommit.

Definition MaximumTargetsPerJob : Z := 10000%Z.

(** [Status] is a string type: the declared constants and any other string. *)
Inductive Status :=
| StatusQueued | StatusDispatched | StatusRunning | StatusSucceeded | StatusFailed
| StatusCancelling | StatusCancelled | StatusTimedOut
| StatusOther (s : string).

Inductive Outcome := OutcomeComplete | OutcomePartial | OutcomeNone.

Inductive TargetStatus :=
| TargetQueued | TargetRunning | TargetSucceeded | TargetFailed | TargetSkipped
| TargetCancelled | TargetTimedOut
| TargetOther (s : string).

#[global] Instance Status_eq_dec : EqDecision Status.
Proof. solve_decision. Defined.
#[global] Instance Outcome_eq_dec : EqDecision Outcome.
Proof. solve_decision. Defined.
#[global] Instance TargetStatus_eq_dec : EqDecision TargetStatus.
Proof. solve_decision. Defined.

Record Progress := {
  TotalTargets : Z;
  CompletedTargets : Z;
  FailedTargets : Z;
  SkippedTargets : Z
}.

#[global] Instance Progress_eq_dec : EqDecision Progress.
Proof. solve_decision. Defined.

Record ResourceReference := { ResourceType : string; ResourceID : string }.
Record ArtifactReference := { ArtifactID : string; ArtifactKind : string }.

Record TargetResult := {
  TargetID : string;
  tr_Status : TargetStatus;
  tr_ErrorSummary : string;
  tr_ResultSummary : string;
  tr_Artifacts : list ArtifactReference;
  tr_FinishedAt : option time
}.

Record JobScope := { TenantID : string; ProjectID : string }.

Record Job := {
  j_ID : string;
  j_Type : string;
  j_Scope : JobScope;
  j_Status : Status;
  j_Outcome : Outcome;
  j_InstanceID : string;
  j_TargetResourceIDs : list string;
  j_InitiatedBy : string;
  j_SourceResource : ResourceReference;
  j_IdempotencyKey : string;
  j_Version : Z;
  j_Progress : Progress;
  j_TargetResults : list TargetResult;
  j_ErrorSummary : string;
  j_ResultSummary : string;
  j_Artifacts : list ArtifactReference;
  j_CreatedAt : time;
  j_DispatchedAt : option time;
  j_StartedAt : option time;
  j_FinishedAt : option time;
  j_TimeoutAt : option time;
  j_MaxConcurrency : Z;
  j_TargetTimeout : Z;
  j_CancelRequestedBy : string;
  j_CancelRequestedAt : option time;
  j_RequestID : string;
  j_TraceID : string
}.

Record Transition := {
  t_Scope : JobScope;
  t_JobID : string;
  t_CurrentVersion : Z;
  t_To : Status;
  t_Progress : option Progress;
  t_TargetResults : option (list TargetResult);
  t_ErrorSummary : string;
  t_ResultSummary : string;
  t_Artifacts : option (list ArtifactReference);
  t_Actor : string;
  t_At : time
}.

(** ** Status predicates *)

Definition allowedTransition (from to : Status) : bool :=
  match from with
  | StatusQueued => bool_decide (to = StatusDispatched) || bool_decide (to = StatusCancelling)
  | StatusDispatched => bool_decide (to = StatusRunning) || bool_decide (to = StatusCancelling)
  | StatusRunning =>
      bool_decide (to = StatusRunning) || bool_decide (to = StatusSucceeded)
      || bool_decide (to = StatusFailed) || bool_decide (to = StatusTimedOut)
      || bool_decide (to = StatusCancelling)
  | StatusCancelling =>
      bool_decide (to = StatusCancelling) || bool_decide (to = StatusSucceeded)
      || bool_decide (to = StatusFailed) || bool_decide (to = StatusCancelled)
      || bool_decide (to = StatusTimedOut)
  | _ => false
  end.

Definition isTerminal (status : Status) : bool :=
  match status with
  | StatusSucceeded | StatusFailed | StatusCancelled | StatusTimedOut => true
  | _ => false
  end.

Definition isTerminalTarget (status : TargetStatus) : bool :=
  match status with
  | TargetSucceeded | TargetFailed | TargetSkipped | TargetCancelled | TargetTimedOut => true
  | _ => false
  end.

Definition validTargetStatus (status : TargetStatus) : bool :=
  bool_decide (status = TargetQueued) || bool_decide (status = TargetRunning)
  || isTerminalTarget status.

Definition allowedTargetTransition (from to : TargetStatus) : bool :=
  if isTerminalTarget from then false
  else match from with
       | TargetQueued =>
           bool_decide (to = TargetQueued) || bool_decide (to = TargetRunning) || isTerminalTarget to
       | TargetRunning => bool_decide (to = TargetRunning) || isTerminalTarget to
       | _ => false
       end.

(** ** Aggregation of target rows *)

(** The loop of [AggregateOutcome] with its two counters; [None] is the early
    [return OutcomeNone] on a target that is not terminal. *)
Fixpoint count_outcomes (results : list TargetResult) (succeeded other : nat) : option (nat * nat) :=
  match results with
  | [] => Some (succeeded, other)
  | r :: rest =>
      match tr_Status r with
      | TargetSucceeded => count_outcomes rest (S succeeded) other
      | TargetFailed | TargetSkipped | TargetCancelled | TargetTimedOut =>
          count_outcomes rest succeeded (S other)
      | _ => None
      end
  end.

Definition AggregateOutcome (results : list TargetResult) : Outcome :=
  match count_outcomes results 0 0 with
  | None => OutcomeNone
  | Some (succeeded, other) =>
      if (0 <? succeeded) && (0 <? other) then OutcomePartial
      else if (0 <? succeeded) && (other =? 0) then OutcomeComplete
      else OutcomeNone
  end%nat.

Definition bump_progress (p : Progress) (r : TargetResult) : Progress :=
  match tr_Status r with
  | TargetSucceeded =>
      {| TotalTargets := TotalTargets p; CompletedTargets := CompletedTargets p + 1;
         FailedTargets := FailedTargets p; SkippedTargets := SkippedTargets p |}
  | TargetFailed | TargetCancelled | TargetTimedOut =>
      {| TotalTargets := TotalTargets p; CompletedTargets := CompletedTargets p;
         FailedTargets := FailedTargets p + 1; SkippedTargets := SkippedTargets p |}
  | TargetSkipped =>
      {| TotalTargets := TotalTargets p; CompletedTargets := CompletedTargets p;
         FailedTargets := FailedTargets p; SkippedTargets := SkippedTargets p + 1 |}
  | _ => p
  end%Z.

Definition AggregateProgress (results : list TargetResult) : Progress :=
  fold_left bump_progress results
    {| TotalTargets := Z.of_nat (length results); CompletedTargets := 0;
       FailedTargets := 0; SkippedTargets := 0 |}.

Definition AggregateProgressForTargets (expected : list string) (results : list TargetResult) : Progress :=
  let progress := AggregateProgress results in
  {| TotalTargets := Z.of_nat (length expected); CompletedTargets := CompletedTargets progress;
     FailedTargets := FailedTargets progress; SkippedTargets := SkippedTargets progress |}.

Definition outcomeFromProgress (progress : Progress) : Outcome :=
  if ((0 <? CompletedTargets progress) && (0 <? FailedTargets progress + SkippedTargets progress))%Z
  then OutcomePartial
  else if ((0 <? TotalTargets progress) && (CompletedTargets progress =? TotalTargets progress))%Z
  then OutcomeComplete
  else OutcomeNone.

(** ** Guards *)

Definition validateExecutionLimits (value : Job) : result JobError unit :=
  if ((j_MaxConcurrency value =? 0) && (j_TargetTimeout value =? 0))%Z then
    if bool_decide (j_Type value = "inspection.collect"%string) then Err ErrInvalidTransition else Ok tt
  else if ((j_MaxConcurrency value <? 1) || (1000 <? j_MaxConcurrency value)
           || (j_TargetTimeout value <? second) || (hour <? j_TargetTimeout value))%Z
  then Err ErrInvalidTransition
  else Ok tt.

(** The loop that fills [expected] and rejects empty and repeated ids. *)
Fixpoint collect_expected (ids : list string) (expected : gset string) : option (gset string) :=
  match ids with
  | [] => Some expected
  | id :: rest =>
      if empty_string id then None
      else if bool_decide (id ∈ expected) then None
      else collect_expected rest ({[id]} ∪ expected)
  end.

(** The loop that rejects unknown targets, unknown statuses and repeats. *)
Fixpoint check_results (expected seen : gset string) (results : list TargetResult) : bool :=
  match results with
  | [] => true
  | r :: rest =>
      if negb (bool_decide (TargetID r ∈ expected)) || negb (validTargetStatus (tr_Status r)) then false
      else if bool_decide (TargetID r ∈ seen) then false
      else check_results expected ({[TargetID r]} ∪ seen) rest
  end.

Definition ValidateTargets (value : Job) : result JobError unit :=
  match validateExecutionLimits value with
  | Err e => Err e
  | Ok _ =>
      if (MaximumTargetsPerJob <? Z.of_nat (length (j_TargetResourceIDs value)))%Z
         || negb (TotalTargets (j_Progress value) =? Z.of_nat (length (j_TargetResourceIDs value)))%Z
      then Err ErrInvalidTransition
      else match collect_expected (j_TargetResourceIDs value) ∅ with
           | None => Err ErrInvalidTransition
           | Some expected =>
               if negb (check_results expected ∅ (j_TargetResults value)) then Err ErrInvalidTransition
               else if bool_decide (j_Progress value =
                      AggregateProgressForTargets (j_TargetResourceIDs value) (j_TargetResults value))
               then Ok tt
               else Err ErrInvalidTransition
           end
  end.

(** [states[result.TargetID] = result.Status] over the current rows. *)
Definition target_states (results : list TargetResult) : gmap string TargetStatus :=
  fold_left (fun m r => <[TargetID r := tr_Status r]> m) results ∅.

(** [from := states[id]; if from == "" { from = TargetQueued }]: a missing row
    and a row with the empty status both read as queued. *)
Definition status_from (states : gmap string TargetStatus) (id : string) : TargetStatus :=
  match states !! id with
  | None => TargetQueued
  | Some (TargetOther EmptyString) => TargetQueued
  | Some s => s
  end.

Fixpoint check_updates (expected : gset string) (states : gmap string TargetStatus)
    (seen : gset string) (updates : list TargetResult) : bool :=
  match updates with
  | [] => true
  | u :: rest =>
      if negb (bool_decide (TargetID u ∈ expected)) || negb (validTargetStatus (tr_Status u)) then false
      else if bool_decide (TargetID u ∈ seen) then false
      else if negb (allowedTargetTransition (status_from states (TargetID u)) (tr_Status u)) then false
      else check_updates expected states ({[TargetID u]} ∪ seen) rest
  end.

Definition validTargetUpdates (current : Job) (updates : option (list TargetResult)) : bool :=
  match updates with
  | None => true
  | Some us =>
      check_updates (list_to_set (j_TargetResourceIDs current))
        (target_states (j_TargetResults current)) ∅ us
  end.

Definition validProgressChange (current next : Progress) : bool :=
  if (negb (TotalTargets current =? TotalTargets next) || (TotalTargets next <? 0)
      || (CompletedTargets next <? CompletedTargets current)
      || (FailedTargets next <? FailedTargets current)
      || (SkippedTargets next <? SkippedTargets current))%Z
  then false
  else (CompletedTargets next + FailedTargets next + SkippedTargets next <=? TotalTargets next)%Z.

Definition validSucceededJob (value : Job) : bool :=
  if bool_decide (length (j_TargetResourceIDs value) = 0)
     || negb (bool_decide (length (j_TargetResults value) = length (j_TargetResourceIDs value)))
  then false
  else if negb (forallb (fun r => isTerminalTarget (tr_Status r)) (j_TargetResults value)) then false
  else
    let p := j_Progress value in
    ((CompletedTargets p + FailedTargets p + SkippedTargets p =? TotalTargets p)%Z)
    && (bool_decide (j_Outcome value = OutcomeComplete) || bool_decide (j_Outcome value = OutcomePartial)).

(** ** Normalisation and merging *)

Definition utcPointer (value : option time) : option time := UTC <$> value.

Definition normalizeTargetResult (r : TargetResult) : TargetResult :=
  {| TargetID := TargetID r; tr_Status := tr_Status r; tr_ErrorSummary := tr_ErrorSummary r;
     tr_ResultSummary := tr_ResultSummary r; tr_Artifacts := tr_Artifacts r;
     tr_FinishedAt := utcPointer (tr_FinishedAt r) |}.

Definition normalizeTargetResultsUTC (results : list TargetResult) : list TargetResult :=
  normalizeTargetResult <$> results.

Definition normalizeJobUTC (value : Job) : Job :=
  {| j_ID := j_ID value; j_Type := j_Type value; j_Scope := j_Scope value;
     j_Status := j_Status value; j_Outcome := j_Outcome value; j_InstanceID := j_InstanceID value;
     j_TargetResourceIDs := j_TargetResourceIDs value; j_InitiatedBy := j_InitiatedBy value;
     j_SourceResource := j_SourceResource value; j_IdempotencyKey := j_IdempotencyKey value;
     j_Version := j_Version value; j_Progress := j_Progress value;
     j_TargetResults := normalizeTargetResultsUTC (j_TargetResults value);
     j_ErrorSummary := j_ErrorSummary value; j_ResultSummary := j_ResultSummary value;
     j_Artifacts := j_Artifacts value; j_CreatedAt := UTC (j_CreatedAt value);
     j_DispatchedAt := utcPointer (j_DispatchedAt value);
     j_StartedAt := utcPointer (j_StartedAt value);
     j_FinishedAt := utcPointer (j_FinishedAt value);
     j_TimeoutAt := utcPointer (j_TimeoutAt value);
     j_MaxConcurrency := j_MaxConcurrency value; j_TargetTimeout := j_TargetTimeout value;
     j_CancelRequestedBy := j_CancelRequestedBy value;
     j_CancelRequestedAt := utcPointer (j_CancelRequestedAt value);
     j_RequestID := j_RequestID value; j_TraceID := j_TraceID value |}.

(** [positions[merged[index].TargetID] = index] *)
Definition result_positions (merged : list TargetResult) : gmap string nat :=
  fold_left (fun m '(i, r) => <[TargetID r := i]> m) (imap (fun i r => (i, r)) merged) ∅.

(** One iteration of the update loop: overwrite in place, or append. *)
Definition merge_step (acc : gmap string nat * list TargetResult) (update : TargetResult)
    : gmap string nat * list TargetResult :=
  let '(positions, merged) := acc in
  match positions !! TargetID update with
  | Some index => (positions, <[index := update]> merged)
  | None => (<[TargetID update := length merged]> positions, merged ++ [update])
  end.

Definition mergeTargetResults (current updates : list TargetResult) : list TargetResult :=
  let merged := normalizeTargetResultsUTC current in
  snd (fold_left merge_step (normalizeTargetResultsUTC updates) (result_positions merged, merged)).

(** ** The transition *)

Definition nonempty_or (s old : string) : string := if empty_string s then old else s.

(** The rows of the next job: [current] merged with the updates, when there are any. *)
Definition next_results (current : Job) (transition : Transition) : list TargetResult :=
  let base := normalizeJobUTC current in
  match t_TargetResults transition with
  | None => j_TargetResults base
  | Some updates => mergeTargetResults (j_TargetResults base) updates
  end.

Definition reconciled_progress (current : Job) (transition : Transition) : Progress :=
  AggregateProgressForTargets (j_TargetResourceIDs (normalizeJobUTC current)) (next_results current transition).

(** The assignments to [next], after the guards. *)
Definition advance (current : Job) (transition : Transition) : Job :=
  let base := normalizeJobUTC current in
  let at_utc := UTC (t_At transition) in
  let to := t_To transition in
  let results := next_results current transition in
  let reconciled := reconciled_progress current transition in
  let first_cancel := bool_decide (to = StatusCancelling) && negb (bool_decide (j_Status current = StatusCancelling)) in
  {| j_ID := j_ID base; j_Type := j_Type base; j_Scope := j_Scope base;
     j_Status := to;
     j_Outcome := if isTerminal to
                  then match results with
                       | [] => outcomeFromProgress reconciled
                       | _ => AggregateOutcome results
                       end
                  else OutcomeNone;
     j_InstanceID := j_InstanceID base;
     j_TargetResourceIDs := j_TargetResourceIDs base;
     j_InitiatedBy := j_InitiatedBy base;
     j_SourceResource := j_SourceResource base;
     j_IdempotencyKey := j_IdempotencyKey base;
     j_Version := int64 (j_Version base + 1);
     j_Progress := reconciled;
     j_TargetResults := results;
     j_ErrorSummary := nonempty_or (t_ErrorSummary transition) (j_ErrorSummary base);
     j_ResultSummary := nonempty_or (t_ResultSummary transition) (j_ResultSummary base);
     j_Artifacts := default (j_Artifacts base) (t_Artifacts transition);
     j_CreatedAt := j_CreatedAt base;
     j_DispatchedAt := if bool_decide (to = StatusDispatched) then Some at_utc else j_DispatchedAt base;
     j_StartedAt := if bool_decide (to = StatusRunning) && bool_decide (j_Status current = StatusDispatched)
                    then Some at_utc else j_StartedAt base;
     j_FinishedAt := if isTerminal to then Some at_utc else j_FinishedAt base;
     j_TimeoutAt := j_TimeoutAt base;
     j_MaxConcurrency := j_MaxConcurrency base; j_TargetTimeout := j_TargetTimeout base;
     j_CancelRequestedBy := if first_cancel then t_Actor transition else j_CancelRequestedBy base;
     j_CancelRequestedAt := if first_cancel then Some at_utc else j_CancelRequestedAt base;
     j_RequestID := j_RequestID base; j_TraceID := j_TraceID base |}.

Definition ApplyTransition (current : Job) (transition : Transition) : result JobError Job :=
  if (negb (t_CurrentVersion transition =? 0) && negb (t_CurrentVersion transition =? j_Version current))%Z
  then Err ErrConflict
  else match ValidateTargets current with
  | Err e => Err e
  | Ok _ =>
  if IsZero (t_At transition) || negb (allowedTransition (j_Status current) (t_To transition))
  then Err ErrInvalidTransition
  else if bool_decide (t_To transition = StatusCancelling) && empty_string (t_Actor transition)
  then Err ErrInvalidTransition
  else if bool_decide (j_Status current = StatusCancelling) && bool_decide (t_To transition = StatusCancelling)
          && bool_decide (length (default [] (t_TargetResults transition)) = 0)
  then Err ErrInvalidTransition
  else if negb (validTargetUpdates current (t_TargetResults transition))
  then Err ErrInvalidTransition
  else
  let reconciled := reconciled_progress current transition in
  if match t_Progress transition with
     | None => false
     | Some p => negb (bool_decide (p = reconciled))
     end
  then Err ErrInvalidTransition
  else if negb (validProgressChange (j_Progress current) reconciled)
  then Err ErrInvalidTransition
  else
  let next := advance current transition in
  if bool_decide (t_To transition = StatusSucceeded) && negb (validSucceededJob next)
  then Err ErrInvalidTransition
  else Ok next
  end.

(** ** The loops as predicates *)

Definition ids (l : list TargetResult) : list string := TargetID <$> l.

Lemma collect_expected_spec l : forall acc e,
  collect_expected l acc = Some e <->
  NoDup l /\ Forall (fun x => x <> EmptyString) l /\ (forall x, x ∈ l -> x ∉ acc)
  /\ e = list_to_set l ∪ acc.
Proof.
  induction l as [|x l IH]; intros acc e; cbn.
  { split; [intros [= <-] | intros (_ & _ & _ & ->)]; [|f_equal; set_solver].
    repeat split; [constructor|constructor|set_solver|set_solver]. }
  unfold empty_string. case_bool_decide as Hx.
  { subst. split; [done|]. intros (_ & Hf & _). inversion Hf; done. }
  case_bool_decide as Hin.
  { split; [done|]. intros (_ & _ & Hd & _). exfalso. apply (Hd x); [left|done]. }
  rewrite IH, NoDup_cons, Forall_cons. split.
  - intros (Hnd & Hf & Hd & ->). repeat split; try done; [set_solver..|].
    apply leibniz_equiv. set_solver.
  - intros ([Hx' Hnd] & [_ Hf] & Hd & ->). repeat split; try done; [set_solver|].
    apply leibniz_equiv. set_solver.
Qed.

Lemma check_results_spec expected l : forall seen,
  check_results expected seen l = true <->
  NoDup (ids l) /\ (forall r, r ∈ l -> TargetID r ∈ expected /\ validTargetStatus (tr_Status r) = true)
  /\ (forall x, x ∈ ids l -> x ∉ seen).
Proof.
  induction l as [|r l IH]; intros seen; cbn.
  { split; [intros _|done]. repeat split; [constructor|set_solver..]. }
  case_bool_decide as He; cbn; [|split; [done|]; intros (_ & H & _); destruct (H r); [left|done]].
  destruct (validTargetStatus (tr_Status r)) eqn:Hv; cbn;
    [|split; [done|]; intros (_ & H & _); destruct (H r); [left|congruence]].
  case_bool_decide as Hin.
  { split; [done|]. intros (_ & _ & H). exfalso. apply (H (TargetID r)); [left|done]. }
  rewrite IH, NoDup_cons. split.
  - intros (Hnd & Hf & Hd). repeat split; [set_solver|done|..].
    + apply elem_of_cons in H as [->|H]; [done|by apply Hf].
    + apply elem_of_cons in H as [->|H]; [done|by apply Hf].
    + set_solver.
  - intros ([Hx' Hnd] & Hf & Hd). repeat split; [done|..]; [apply Hf; by right..|set_solver].
Qed.

Lemma check_updates_spec expected states l : forall seen,
  check_updates expected states seen l = true ->
  NoDup (ids l) /\ (forall x, x ∈ ids l -> x ∉ seen) /\
  (forall u, u ∈ l -> TargetID u ∈ expected /\ validTargetStatus (tr_Status u) = true
     /\ allowedTargetTransition (status_from states (TargetID u)) (tr_Status u) = true).
Proof.
  induction l as [|u l IH]; intros seen H; cbn in H.
  { repeat split; [constructor|set_solver..]. }
  run H. bool_simpl. apply IH in H as (Hnd & Hs & Hall). cbn. split; [|split].
  - apply NoDup_cons. split; [set_solver|done].
  - set_solver.
  - intros v [->|Hv]%elem_of_cons; auto.
Qed.

(** ** The invariant as a proposition *)

Record targets_ok (expected : list string) (results : list TargetResult) : Prop := {
  tok_expected_nodup : NoDup expected;
  tok_expected_nonempty : Forall (fun x => x <> EmptyString) expected;
  tok_bound : (Z.of_nat (length expected) <= MaximumTargetsPerJob)%Z;
  tok_nodup : NoDup (ids results);
  tok_known : forall r, r ∈ results -> TargetID r ∈ expected;
  tok_valid : forall r, r ∈ results -> validTargetStatus (tr_Status r) = true
}.

Lemma ValidateTargets_iff j :
  ValidateTargets j = Ok tt <->
  validateExecutionLimits j = Ok tt /\ targets_ok (j_TargetResourceIDs j) (j_TargetResults j) /\
  j_Progress j = AggregateProgressForTargets (j_TargetResourceIDs j) (j_TargetResults j).
Proof.
  unfold ValidateTargets. split.
  - intros H. run H. bool_simpl.
    match goal with H : collect_expected _ _ = _ |- _ =>
      apply collect_expected_spec in H as (Hnd & Hne & _ & ->) end.
    match goal with H : check_results _ _ _ = _ |- _ => apply check_results_spec in H as (Hr & Hk & _) end.
    split; [by destruct a|]. split; [|done].
    constructor; try done; try lia; intros r Hin; destruct (Hk r Hin); set_solver.
  - intros (-> & [] & Hp).
    replace (MaximumTargetsPerJob <? _)%Z with false by (symmetry; apply Z.ltb_ge; lia).
    rewrite Hp at 1. cbn [TotalTargets AggregateProgressForTargets]. rewrite Z.eqb_refl. cbn.
    rewrite (proj2 (collect_expected_spec _ ∅ (list_to_set (j_TargetResourceIDs j) ∪ ∅)));
      [|repeat split; try done; set_solver].
    rewrite (proj2 (check_results_spec _ _ ∅)); cbn.
    + by rewrite bool_decide_true.
    + repeat split; [done| |by apply tok_valid0|set_solver].
      set_unfold. left. by apply tok_known0.
Qed.

(** ** Counters as counts *)

Definition count_status (P : TargetStatus -> bool) (l : list TargetResult) : nat :=
  length (filter (fun r => P (tr_Status r) = true) l).

Definition is_succeeded (s : TargetStatus) : bool :=
  match s with TargetSucceeded => true | _ => false end.
Definition is_failed (s : TargetStatus) : bool :=
  match s with TargetFailed | TargetCancelled | TargetTimedOut => true | _ => false end.
Definition is_skipped (s : TargetStatus) : bool :=
  match s with TargetSkipped => true | _ => false end.

Lemma count_status_cons P r l :
  count_status P (r :: l) = ((if P (tr_Status r) then 1 else 0) + count_status P l)%nat.
Proof. unfold count_status. rewrite filter_cons. destruct (P (tr_Status r)); reflexivity. Qed.

Lemma count_status_app P l k : count_status P (l ++ k) = count_status P l + count_status P k.
Proof. unfold count_status. by rewrite filter_app, length_app. Qed.

Lemma fold_bump_progress l : forall p,
  fold_left bump_progress l p =
  {| TotalTargets := TotalTargets p;
     CompletedTargets := CompletedTargets p + Z.of_nat (count_status is_succeeded l);
     FailedTargets := FailedTargets p + Z.of_nat (count_status is_failed l);
     SkippedTargets := SkippedTargets p + Z.of_nat (count_status is_skipped l) |}.
Proof.
  induction l as [|r l IH]; intros p; cbn [fold_left].
  - destruct p; cbn. f_equal; lia.
  - rewrite IH, !count_status_cons. unfold bump_progress.
    destruct (tr_Status r); cbn; f_equal; lia.
Qed.

Lemma AggregateProgressForTargets_counts expected l :
  AggregateProgressForTargets expected l =
  {| TotalTargets := Z.of_nat (length expected);
     CompletedTargets := Z.of_nat (count_status is_succeeded l);
     FailedTargets := Z.of_nat (count_status is_failed l);
     SkippedTargets := Z.of_nat (count_status is_skipped l) |}.
Proof. unfold AggregateProgressForTargets, AggregateProgress. by rewrite fold_bump_progress. Qed.

Lemma count_terminal_split l :
  count_status is_succeeded l + count_status is_failed l + count_status is_skipped l
  = count_status isTerminalTarget l.
Proof.
  induction l as [|r l IH]; [done|]. rewrite !count_status_cons.
  destruct (tr_Status r); cbn; lia.
Qed.

Lemma count_status_le P l : count_status P l <= length l.
Proof. apply length_filter. Qed.

Lemma count_status_all P l :
  count_status P l = length l <-> (forall r, r ∈ l -> P (tr_Status r) = true).
Proof.
  induction l as [|r l IH]; [split; [set_solver|done]|].
  rewrite count_status_cons. cbn. pose proof (count_status_le P l). split.
  - intros Hc. destruct (P (tr_Status r)) eqn:E; [|lia].
    intros v [->|Hv]%elem_of_cons; [done|]. apply IH; [lia|done].
  - intros Hall. rewrite (Hall r) by left. apply f_equal, IH. intros; apply Hall; by right.
Qed.

Lemma count_outcomes_counts l : forall s o,
  count_outcomes l s o =
  if bool_decide (count_status isTerminalTarget l = length l)
  then Some (s + count_status is_succeeded l, o + (count_status is_failed l + count_status is_skipped l))
  else None.
Proof.
  induction l as [|r l IH]; intros s o; cbn [count_outcomes].
  { unfold count_status. cbn. f_equal. f_equal; lia. }
  pose proof (count_status_le isTerminalTarget l). rewrite !count_status_cons.
  destruct (tr_Status r); cbn; rewrite ?IH; repeat case_bool_decide; try lia; try done;
    do 2 f_equal; lia.
Qed.

(** ** Merging *)

Lemma ids_normalize l : ids (normalizeTargetResultsUTC l) = ids l.
Proof. unfold ids, normalizeTargetResultsUTC. by rewrite <- list_fmap_compose. Qed.

Lemma normalize_idemp l :
  normalizeTargetResultsUTC (normalizeTargetResultsUTC l) = normalizeTargetResultsUTC l.
Proof.
  unfold normalizeTargetResultsUTC. rewrite <- list_fmap_compose.
  apply list_fmap_ext. intros i [? ? ? ? ? []] _; reflexivity.
Qed.

Lemma count_status_normalize P l :
  count_status P (normalizeTargetResultsUTC l) = count_status P l.
Proof.
  induction l as [|r l IH]; [done|]. unfold normalizeTargetResultsUTC in *.
  rewrite fmap_cons, !count_status_cons, IH. reflexivity.
Qed.

Definition find_id (id : string) (l : list TargetResult) : option TargetResult :=
  List.find (fun r => bool_decide (TargetID r = id)) l.

(** The reference description of a merge: every current row is replaced by the
    update with its id, and updates for new ids follow in order. *)
Definition merge_spec (current updates : list TargetResult) : list TargetResult :=
  ((fun r => default r (find_id (TargetID r) updates)) <$> current)
  ++ filter (fun u => TargetID u ∉ ids current) updates.

Definition positions_ok (pos : gmap string nat) (l : list TargetResult) : Prop :=
  forall id i, pos !! id = Some i <-> ids l !! i = Some id.

Lemma result_positions_ok l : NoDup (ids l) -> positions_ok (result_positions l) l.
Proof.
  unfold result_positions, positions_ok.
  induction l as [|r l IH] using rev_ind; intros Hnd id i; cbn.
  { by rewrite lookup_empty. }
  unfold ids in *. rewrite fmap_app in Hnd. cbn in Hnd. apply NoDup_app in Hnd as (Hnd & Hdis & _).
  rewrite imap_app, fold_left_app, fmap_app. cbn. rewrite Nat.add_0_r.
  destruct (decide (id = TargetID r)) as [->|Hne].
  - rewrite lookup_insert_eq. split.
    + intros [= <-]. rewrite lookup_app_r, length_fmap, Nat.sub_diag; [done|].
      by rewrite length_fmap.
    + intros H. destruct (decide (i < length l)) as [Hi|Hi].
      * rewrite lookup_app_l in H by (by rewrite length_fmap).
        apply list_elem_of_lookup_2 in H. destruct (Hdis _ H). left.
      * apply lookup_app_Some in H as [H|[_ H]];
          [apply lookup_lt_Some in H; rewrite length_fmap in H; lia|].
        rewrite length_fmap in H. destruct (i - length l) eqn:E; [|done]. f_equal. lia.
  - rewrite lookup_insert_ne by done. rewrite (IH Hnd). split.
    + intros H. by apply lookup_app_l_Some.
    + intros [H|[_ H]]%lookup_app_Some; [done|].
      destruct (i - _); cbn in H; [congruence|done].
Qed.

Lemma find_id_Some id l u : find_id id l = Some u -> TargetID u = id /\ u ∈ l.
Proof.
  intros [Hin Hd]%List.find_some. apply bool_decide_eq_true in Hd.
  split; [done|]. by apply list_elem_of_In.
Qed.

Lemma find_id_None id l : find_id id l = None <-> id ∉ ids l.
Proof.
  unfold find_id, ids. induction l as [|r l IH]; cbn; [split; [set_solver|done]|].
  case_bool_decide as Hd; [split; [done|set_solver]|]. rewrite IH. set_solver.
Qed.

Lemma find_id_snoc_other id l u : TargetID u <> id -> find_id id (l ++ [u]) = find_id id l.
Proof.
  intros Hne. unfold find_id. induction l as [|r l IH]; cbn.
  - by rewrite bool_decide_false.
  - by rewrite IH.
Qed.

Lemma find_id_snoc_new l u : TargetID u ∉ ids l -> find_id (TargetID u) (l ++ [u]) = Some u.
Proof.
  intros Hni. unfold find_id, ids in *. induction l as [|r l IH]; cbn.
  - by rewrite bool_decide_true.
  - rewrite bool_decide_false by set_solver. apply IH. set_solver.
Qed.

Lemma find_id_In u l : NoDup (ids l) -> u ∈ l -> find_id (TargetID u) l = Some u.
Proof.
  intros Hnd Hin. destruct (find_id (TargetID u) l) as [v|] eqn:E.
  - apply find_id_Some in E as [Hid Hv]. f_equal. unfold ids in Hnd.
    apply list_elem_of_lookup in Hin as [i Hi], Hv as [j Hj].
    assert (i = j) as ->; [|congruence].
    eapply NoDup_lookup; [done|by rewrite list_lookup_fmap, Hi|].
    rewrite list_lookup_fmap, Hj. cbn. by rewrite Hid.
  - apply find_id_None in E. destruct E. by apply list_elem_of_fmap_2.
Qed.

Lemma ids_merge_spec c us : ids (merge_spec c us) = ids c ++ ids (filter (fun u => TargetID u ∉ ids c) us).
Proof.
  unfold merge_spec, ids. rewrite fmap_app. f_equal. rewrite <- list_fmap_compose.
  apply list_fmap_ext. intros i r _. cbn.
  unfold compose. destruct (find_id (TargetID r) us) eqn:E; [|done]. by apply find_id_Some in E as [? _].
Qed.

Lemma merge_spec_snoc_existing c us u i :
  NoDup (ids c) -> TargetID u ∉ ids us -> ids c !! i = Some (TargetID u) ->
  <[i := u]> (merge_spec c us) = merge_spec c (us ++ [u]).
Proof.
  intros Hnd Hni Hi. unfold merge_spec.
  assert (i < length c) as Hlt. { apply lookup_lt_Some in Hi. unfold ids in Hi. by rewrite length_fmap in Hi. }
  rewrite insert_app_l by (by rewrite length_fmap).
  rewrite filter_app, (filter_cons_False _ u) by (apply list_elem_of_lookup_2 in Hi; tauto).
  rewrite filter_nil, app_nil_r. f_equal.
  apply list_eq. intros k. destruct (decide (k = i)) as [->|Hk].
  - rewrite list_lookup_insert_eq by (by rewrite length_fmap).
    unfold ids in Hi. rewrite list_lookup_fmap in Hi. rewrite list_lookup_fmap.
    destruct (c !! i) as [r|]; cbn in *; [|done]. injection Hi as Hid.
    by rewrite Hid, find_id_snoc_new.
  - rewrite list_lookup_insert_ne by done. rewrite !list_lookup_fmap.
    destruct (c !! k) as [r|] eqn:Hr; cbn; [|done]. rewrite find_id_snoc_other; [done|].
    intros Heq. apply Hk. eapply NoDup_lookup; [exact Hnd| |exact Hi].
    unfold ids. rewrite list_lookup_fmap, Hr. cbn. by rewrite Heq.
Qed.

Lemma merge_spec_snoc_new c us u :
  TargetID u ∉ ids c -> merge_spec c us ++ [u] = merge_spec c (us ++ [u]).
Proof.
  intros Hni. unfold merge_spec. rewrite filter_app, filter_cons_True, filter_nil by done.
  rewrite <- app_assoc. f_equal. apply list_fmap_ext. intros k r Hr.
  rewrite find_id_snoc_other; [done|]. intros Heq. apply Hni. rewrite Heq.
  apply list_elem_of_fmap_2. by eapply list_elem_of_lookup_2.
Qed.

Lemma merge_fold c us :
  NoDup (ids c) -> NoDup (ids us) ->
  let st := fold_left merge_step us (result_positions c, c) in
  positions_ok (fst st) (snd st) /\ snd st = merge_spec c us.
Proof.
  intros Hc. induction us as [|u us IH] using rev_ind; intros Hnd; cbn.
  { split; [by apply result_positions_ok|]. unfold merge_spec. rewrite filter_nil, app_nil_r.
    by rewrite <- (list_fmap_id c) at 1. }
  unfold ids in Hnd. rewrite fmap_app in Hnd. apply NoDup_app in Hnd as (Hnd & Hdis & _).
  specialize (IH Hnd). rewrite fold_left_app. cbn.
  destruct (fold_left merge_step us _) as [pos m]. cbn in IH |- *. destruct IH as [Hpos ->].
  assert (Hu : TargetID u ∉ ids us) by (intros H; apply (Hdis _ H); left).
  destruct (pos !! TargetID u) as [i|] eqn:E; cbn.
  - apply Hpos in E. assert (Hi : ids c !! i = Some (TargetID u)).
    { rewrite ids_merge_spec in E. apply lookup_app_Some in E as [E|[_ E]]; [done|].
      destruct Hu. apply list_elem_of_lookup_2, list_elem_of_fmap in E as (v & -> & Hv).
      apply list_elem_of_fmap_2. by apply list_elem_of_filter in Hv as [_ ?]. }
    split; [|by apply merge_spec_snoc_existing].
    intros id k. rewrite (Hpos id k). rewrite (merge_spec_snoc_existing c us u i Hc Hu Hi).
    rewrite !ids_merge_spec, filter_app, (filter_cons_False _ u), filter_nil, app_nil_r; [done|].
    apply list_elem_of_lookup_2 in Hi. tauto.
  - assert (Hni : TargetID u ∉ ids c).
    { intros Hin. apply list_elem_of_lookup in Hin as [i Hi].
      assert (pos !! TargetID u = Some i); [|congruence]. apply Hpos.
      rewrite ids_merge_spec. by apply lookup_app_l_Some. }
    split; [|by apply merge_spec_snoc_new].
    intros id k. unfold ids. rewrite fmap_app. cbn.
    destruct (decide (id = TargetID u)) as [->|Hne].
    + rewrite lookup_insert_eq, lookup_app_Some. split.
      * intros [= <-]. right. rewrite length_fmap, Nat.sub_diag. split; [lia|done].
      * intros [H|[Hl H]].
        { apply Hpos in H. congruence. }
        rewrite length_fmap in *. destruct (k - _) eqn:Ek; [|done]. f_equal. lia.
    + rewrite lookup_insert_ne by done. rewrite (Hpos id k), lookup_app_Some. unfold ids. split; [by left|].
      intros [H|[_ H]]; [done|]. destruct (k - _); cbn in H; [congruence|done].
Qed.

Lemma mergeTargetResults_merge_spec c us :
  NoDup (ids c) -> NoDup (ids us) ->
  mergeTargetResults c us = merge_spec (normalizeTargetResultsUTC c) (normalizeTargetResultsUTC us).
Proof.
  intros Hc Hu. unfold mergeTargetResults.
  destruct (merge_fold (normalizeTargetResultsUTC c) (normalizeTargetResultsUTC us)) as [_ H];
    rewrite ?ids_normalize; done.
Qed.

(** ** Target updates *)

Lemma target_states_lookup l r : NoDup (ids l) -> r ∈ l -> target_states l !! TargetID r = Some (tr_Status r).
Proof.
  unfold target_states. induction l as [|x l IH] using rev_ind; [set_solver|].
  unfold ids. rewrite fmap_app, fold_left_app. cbn. intros (Hnd & Hdis & _)%NoDup_app Hin.
  apply elem_of_app in Hin as [Hin| ->%list_elem_of_singleton]; [|by rewrite lookup_insert_eq].
  rewrite lookup_insert_ne; [by apply IH|].
  intros Heq. apply (Hdis (TargetID r)); [by apply list_elem_of_fmap_2|]. rewrite <- Heq. left.
Qed.

Record updates_ok (expected : list string) (cur us : list TargetResult) : Prop := {
  uok_nodup : NoDup (ids us);
  uok_known : forall u, u ∈ us -> TargetID u ∈ expected;
  uok_valid : forall u, u ∈ us -> validTargetStatus (tr_Status u) = true;
  uok_step : forall r u, r ∈ cur -> u ∈ us -> TargetID r = TargetID u ->
               allowedTargetTransition (tr_Status r) (tr_Status u) = true
}.

Lemma validTargetUpdates_ok c us :
  targets_ok (j_TargetResourceIDs c) (j_TargetResults c) ->
  validTargetUpdates c (Some us) = true ->
  updates_ok (j_TargetResourceIDs c) (j_TargetResults c) us.
Proof.
  intros Hok (Hnd & _ & Hall)%check_updates_spec. constructor; [done|..].
  - intros u Hu. destruct (Hall u Hu) as (H & _). set_solver.
  - intros u Hu. by destruct (Hall u Hu) as (_ & ? & _).
  - intros r u Hr Hu Hid. destruct (Hall u Hu) as (_ & _ & H).
    unfold status_from in H. rewrite <- Hid, (target_states_lookup _ r (tok_nodup _ _ Hok) Hr) in H.
    pose proof (tok_valid _ _ Hok r Hr) as Hv. destruct (tr_Status r) as [| | | | | | |[|]]; done.
Qed.

Lemma updates_ok_normalize expected c us :
  updates_ok expected c us ->
  updates_ok expected (normalizeTargetResultsUTC c) (normalizeTargetResultsUTC us).
Proof.
  intros [H1 H2 H3 H4]. constructor.
  - by rewrite ids_normalize.
  - intros u (v & -> & Hv)%list_elem_of_fmap. apply (H2 v Hv).
  - intros u (v & -> & Hv)%list_elem_of_fmap. apply (H3 v Hv).
  - intros r u (r' & -> & Hr)%list_elem_of_fmap (v & -> & Hv)%list_elem_of_fmap Hid. by apply (H4 r' v).
Qed.

Lemma targets_ok_normalize expected c :
  targets_ok expected c -> targets_ok expected (normalizeTargetResultsUTC c).
Proof.
  intros []. constructor; try done; rewrite ?ids_normalize; try done;
    intros r (r' & -> & Hr)%list_elem_of_fmap; cbn; auto.
Qed.

Lemma merge_spec_elem c us r :
  r ∈ merge_spec c us -> r ∈ us \/ (r ∈ c /\ TargetID r ∉ ids us).
Proof.
  unfold merge_spec. intros [(x & -> & Hx)%list_elem_of_fmap|[_ H]%list_elem_of_filter]%elem_of_app; [|by left].
  destruct (find_id (TargetID x) us) as [u|] eqn:E; cbn.
  - apply find_id_Some in E as [_ ?]. by left.
  - apply find_id_None in E. by right.
Qed.

Lemma merge_spec_targets_ok expected c us :
  targets_ok expected c -> updates_ok expected c us -> targets_ok expected (merge_spec c us).
Proof.
  intros [] []. constructor; try done.
  - rewrite ids_merge_spec. apply NoDup_app. split; [done|]. split.
    + intros x Hx (u & -> & [Hu _]%list_elem_of_filter)%list_elem_of_fmap. done.
    + unfold ids in *. eapply sublist_NoDup; [done|]. apply fmap_sublist, sublist_filter.
  - intros r [H|[H _]]%merge_spec_elem; auto.
  - intros r [H|[H _]]%merge_spec_elem; auto.
Qed.

Lemma allowed_not_terminal s s' : allowedTargetTransition s s' = true -> isTerminalTarget s = false.
Proof. unfold allowedTargetTransition. by destruct (isTerminalTarget s). Qed.

(** A finished row is not touched by a merge. *)
Lemma merge_spec_keeps expected c us r :
  updates_ok expected c us -> r ∈ c -> isTerminalTarget (tr_Status r) = true -> r ∈ merge_spec c us.
Proof.
  intros Hu Hr Ht. unfold merge_spec. apply elem_of_app. left.
  apply list_elem_of_fmap. exists r. split; [|done].
  destruct (find_id (TargetID r) us) as [u|] eqn:E; [|done].
  apply find_id_Some in E as [Hid Hin].
  pose proof (uok_step _ _ _ Hu r u Hr Hin (eq_sym Hid)) as Hs.
  apply allowed_not_terminal in Hs. congruence.
Qed.

Lemma count_merge_ge expected c us P :
  (forall s, P s = true -> isTerminalTarget s = true) ->
  updates_ok expected c us -> count_status P c <= count_status P (merge_spec c us).
Proof.
  intros HP Hu. unfold merge_spec. rewrite count_status_app.
  enough (H : forall l, l ⊆ c ->
    count_status P l <= count_status P ((fun r => default r (find_id (TargetID r) us)) <$> l)).
  { specialize (H c). set_unfold. specialize (H ltac:(auto)). lia. }
  induction l as [|r l IH]; intros Hl; [done|]. rewrite fmap_cons, !count_status_cons.
  specialize (IH ltac:(set_solver)). destruct (P (tr_Status r)) eqn:EP; [|lia].
  destruct (find_id (TargetID r) us) as [u|] eqn:E; cbn; [|rewrite EP; lia].
  apply find_id_Some in E as [Hid Hin].
  pose proof (uok_step _ _ _ Hu r u ltac:(set_solver) Hin (eq_sym Hid)) as Hs.
  apply allowed_not_terminal in Hs. apply HP in EP. congruence.
Qed.

(** ** What a successful transition went through *)

Lemma ApplyTransition_inv c t n :
  ApplyTransition c t = Ok n ->
  (t_CurrentVersion t = 0 \/ t_CurrentVersion t = j_Version c)%Z
  /\ ValidateTargets c = Ok tt /\ IsZero (t_At t) = false
  /\ allowedTransition (j_Status c) (t_To t) = true
  /\ (t_To t = StatusCancelling -> t_Actor t <> EmptyString)
  /\ validTargetUpdates c (t_TargetResults t) = true
  /\ (t_To t = StatusSucceeded -> validSucceededJob (advance c t) = true)
  /\ n = advance c t.
Proof.
  unfold ApplyTransition. intros H.
  destruct (negb _ && negb _) eqn:Ev in H; [done|].
  destruct (ValidateTargets c) as [[]|] eqn:E1; [|done].
  repeat match type of H with (if ?b then _ else _) = _ => let E := fresh "E" in destruct b eqn:E; [done|] end.
  injection H as <-. apply orb_false_iff in E as [? ?%negb_false_iff]. split_and!; try done.
  - apply andb_false_iff in Ev. destruct Ev as [Ev|Ev]; apply negb_false_iff, Z.eqb_eq in Ev; auto.
  - intros Hto Ha. rewrite bool_decide_true in E0 by done. cbn in E0. unfold empty_string in E0.
    by rewrite bool_decide_true in E0.
  - by apply negb_false_iff.
  - intros Hto. rewrite bool_decide_true in E6 by done. cbn in E6. by apply negb_false_iff.
Qed.

Lemma next_results_ok c t :
  targets_ok (j_TargetResourceIDs c) (j_TargetResults c) ->
  validTargetUpdates c (t_TargetResults t) = true ->
  targets_ok (j_TargetResourceIDs c) (next_results c t)
  /\ (forall P, (forall s, P s = true -> isTerminalTarget s = true) ->
        count_status P (j_TargetResults c) <= count_status P (next_results c t))
  /\ (forall r, r ∈ j_TargetResults c -> isTerminalTarget (tr_Status r) = true ->
        normalizeTargetResult r ∈ next_results c t).
Proof.
  intros Hok Hup. unfold next_results. cbn.
  destruct (t_TargetResults t) as [us|].
  - pose proof (validTargetUpdates_ok _ _ Hok Hup) as Hu%updates_ok_normalize.
    rewrite mergeTargetResults_merge_spec, normalize_idemp;
      [|rewrite ids_normalize; apply (tok_nodup _ _ Hok)|rewrite <- ids_normalize; apply (uok_nodup _ _ _ Hu)].
    split; [|split].
    + by apply merge_spec_targets_ok; [apply targets_ok_normalize|].
    + intros P HP. rewrite <- (count_status_normalize P (j_TargetResults c)).
      by apply (count_merge_ge (j_TargetResourceIDs c)).
    + intros r Hr Ht. eapply merge_spec_keeps; [done| |done]. by apply list_elem_of_fmap_2.
  - split; [by apply targets_ok_normalize|]. split.
    + intros P _. by rewrite count_status_normalize.
    + intros r Hr _. by apply list_elem_of_fmap_2.
Qed.

Lemma targets_ok_length expected l : targets_ok expected l -> length l <= length expected.
Proof. intros []. by eapply (NoDup_fmap_subset_length TargetID). Qed.

Lemma progress_change_valid c t :
  ValidateTargets c = Ok tt -> validTargetUpdates c (t_TargetResults t) = true ->
  validProgressChange (j_Progress c) (reconciled_progress c t) = true.
Proof.
  intros (_ & Hok & ->)%ValidateTargets_iff Hup.
  destruct (next_results_ok c t Hok Hup) as (Hn & Hmono & _).
  pose proof (Hmono is_succeeded ltac:(by intros [])) as Hs.
  pose proof (Hmono is_failed ltac:(by intros [])) as Hf.
  pose proof (Hmono is_skipped ltac:(by intros [])) as Hk.
  unfold validProgressChange, reconciled_progress.
  rewrite !AggregateProgressForTargets_counts. cbn.
  pose proof (count_terminal_split (next_results c t)) as Hsum.
  pose proof (count_status_le isTerminalTarget (next_results c t)).
  apply targets_ok_length in Hn. rewrite Z.eqb_refl. cbn.
  repeat match goal with |- context [(?a <? ?b)%Z] =>
    replace (a <? b)%Z with false by (symmetry; apply Z.ltb_ge; lia) end.
  cbn. apply Z.leb_le. lia.
Qed.

Lemma advance_validates c t :
  ValidateTargets c = Ok tt -> validTargetUpdates c (t_TargetResults t) = true ->
  ValidateTargets (advance c t) = Ok tt.
Proof.
  intros Hv Hup. pose proof Hv as (Hlim & Hok & _)%ValidateTargets_iff.
  apply ValidateTargets_iff. split; [exact Hlim|]. split; [|done].
  apply (next_results_ok c t Hok Hup).
Qed.

Lemma count_status_pos P l : 0 < count_status P l <-> exists r, r ∈ l /\ P (tr_Status r) = true.
Proof.
  unfold count_status. split.
  - destruct (filter _ l) as [|r k] eqn:E; [cbn; lia|]. intros _. exists r.
    assert (r ∈ filter (fun r => P (tr_Status r) = true) l) as [? ?]%list_elem_of_filter; [|done].
    rewrite E. left.
  - intros (r & Hr & HP). assert (H : r ∈ filter (fun r => P (tr_Status r) = true) l).
    { by apply list_elem_of_filter. }
    destruct (filter _ l); [by apply elem_of_nil in H|cbn; lia].
Qed.

Lemma is_succeeded_spec s : is_succeeded s = true <-> s = TargetSucceeded.
Proof. by destruct s. Qed.

Lemma AggregateOutcome_complete l :
  AggregateOutcome l = OutcomeComplete <->
  l <> [] /\ forall r, r ∈ l -> tr_Status r = TargetSucceeded.
Proof.
  unfold AggregateOutcome. rewrite count_outcomes_counts.
  pose proof (count_terminal_split l) as Hs. pose proof (count_status_le is_succeeded l).
  assert (Hall : count_status is_succeeded l = length l <-> forall r, r ∈ l -> tr_Status r = TargetSucceeded).
  { rewrite count_status_all. split; intros H' r Hr; by apply is_succeeded_spec, H'. }
  assert (Hn : l <> [] <-> 0 < length l) by (destruct l; cbn; split; (lia || done)).
  rewrite Hn, <- Hall. case_bool_decide as Ht; cbn -[Nat.ltb Nat.eqb].
  - repeat case_goal; split; try done; rewrite ?andb_true_iff, ?andb_false_iff,
      ?Nat.ltb_lt, ?Nat.ltb_ge, ?Nat.eqb_eq, ?Nat.eqb_neq in *; (lia || (intros; exfalso; lia)).
  - split; [done|]. intros [? ?]. pose proof (count_status_le isTerminalTarget l). exfalso. lia.
Qed.

Lemma AggregateOutcome_partial l :
  AggregateOutcome l = OutcomePartial <->
  (forall r, r ∈ l -> isTerminalTarget (tr_Status r) = true)
  /\ (exists r, r ∈ l /\ tr_Status r = TargetSucceeded)
  /\ (exists r, r ∈ l /\ tr_Status r <> TargetSucceeded).
Proof.
  unfold AggregateOutcome. rewrite count_outcomes_counts.
  pose proof (count_terminal_split l) as Hs.
  assert (Hsome : (exists r, r ∈ l /\ tr_Status r = TargetSucceeded) <-> 0 < count_status is_succeeded l).
  { rewrite count_status_pos. by setoid_rewrite is_succeeded_spec. }
  assert (Hother : (exists r, r ∈ l /\ tr_Status r <> TargetSucceeded) <-> count_status is_succeeded l <> length l).
  { rewrite count_status_all. split.
    - intros (r & Hr & Hne) H. by apply Hne, is_succeeded_spec, H.
    - intros H. destruct (decide (Exists (fun r => tr_Status r <> TargetSucceeded) l)) as [He|He].
      + by apply Exists_exists in He.
      + exfalso. apply H. intros r Hr. apply is_succeeded_spec.
        destruct (decide (tr_Status r = TargetSucceeded)); [done|].
        destruct He. apply Exists_exists. eauto. }
  rewrite <- count_status_all, Hsome, Hother. pose proof (count_status_le is_succeeded l).
  case_bool_decide as Ht; cbn -[Nat.ltb Nat.eqb]; [|split; [done|tauto]].
  repeat case_goal; split; try done; rewrite ?andb_true_iff, ?andb_false_iff,
    ?Nat.ltb_lt, ?Nat.ltb_ge, ?Nat.eqb_eq, ?Nat.eqb_neq in *; (lia || (intros; exfalso; lia)).
Qed.

(** ** Reachable jobs *)

Definition job_step (c n : Job) : Prop := exists t, ApplyTransition c t = Ok n.

(** A job as the creation path writes it: queued, with no timestamps of later stages. *)
Definition fresh_job (j : Job) : Prop :=
  j_Status j = StatusQueued /\ j_Outcome j = OutcomeNone /\ j_DispatchedAt j = None
  /\ j_StartedAt j = None /\ j_FinishedAt j = None /\ j_CancelRequestedAt j = None.

Definition cancel_recorded (j : Job) : Prop :=
  is_Some (j_CancelRequestedAt j) /\ j_CancelRequestedBy j <> EmptyString.

Definition lifecycle_ok (j : Job) : Prop :=
  match j_Status j with
  | StatusQueued => fresh_job j
  | StatusDispatched =>
      is_Some (j_DispatchedAt j) /\ j_StartedAt j = None /\ j_FinishedAt j = None
      /\ j_CancelRequestedAt j = None /\ j_Outcome j = OutcomeNone
  | StatusRunning =>
      is_Some (j_DispatchedAt j) /\ is_Some (j_StartedAt j) /\ j_FinishedAt j = None
      /\ j_CancelRequestedAt j = None /\ j_Outcome j = OutcomeNone
  | StatusCancelling => cancel_recorded j /\ j_FinishedAt j = None /\ j_Outcome j = OutcomeNone
  | StatusCancelled => cancel_recorded j /\ is_Some (j_FinishedAt j)
  | StatusSucceeded | StatusFailed | StatusTimedOut =>
      is_Some (j_FinishedAt j)
      /\ (cancel_recorded j \/ (is_Some (j_DispatchedAt j) /\ is_Some (j_StartedAt j)))
  | StatusOther _ => False
  end.

Lemma lifecycle_step c n : job_step c n -> lifecycle_ok c -> lifecycle_ok n.
Proof.
  intros [t H] Hl. apply ApplyTransition_inv in H as (_ & _ & _ & Hal & Hact & _ & _ & ->).
  unfold lifecycle_ok, fresh_job, cancel_recorded in *. cbn.
  unfold allowedTransition in Hal.
  destruct (j_Status c), (t_To t); try discriminate Hal; cbn in *; unfold utcPointer;
    repeat case_bool_decide; try done; cbn; rewrite ?fmap_is_Some, ?fmap_None; naive_solver.
Qed.

(** ** Properties *)

(** a transition that succeeds leaves a job that satisfies the target-set
    invariant again: distinct known targets, one valid row per target, counters
    equal to the rows, execution limits in range. *)
Theorem ApplyTransition_preserves_ValidateTargets c t n :
  ApplyTransition c t = Ok n -> ValidateTargets n = Ok tt.
Proof.
  intros H. apply ApplyTransition_inv in H as (_ & Hv & _ & _ & _ & Hup & _ & ->).
  by apply advance_validates.
Qed.

(** a target that reached a terminal status keeps its row (status, summaries,
    artifacts; the finish time only changes location to UTC) under every later transition. *)
Theorem terminal_target_rows_are_kept c t n r :
  ApplyTransition c t = Ok n -> r ∈ j_TargetResults c -> isTerminalTarget (tr_Status r) = true ->
  normalizeTargetResult r ∈ j_TargetResults n.
Proof.
  intros H Hr Ht. apply ApplyTransition_inv in H as (_ & Hv & _ & _ & _ & Hup & _ & ->).
  apply ValidateTargets_iff in Hv as (_ & Hok & _). by apply (next_results_ok c t Hok Hup).
Qed.

(** C22: a job marked succeeded has a terminal row for each of its targets and at
    least one success; its outcome is complete exactly when every target succeeded. *)
Theorem succeeded_job_accounts_for_every_target c t n :
  ApplyTransition c t = Ok n -> j_Status n = StatusSucceeded ->
  (forall id, id ∈ j_TargetResourceIDs n ->
     exists r, r ∈ j_TargetResults n /\ TargetID r = id /\ isTerminalTarget (tr_Status r) = true)
  /\ (exists r, r ∈ j_TargetResults n /\ tr_Status r = TargetSucceeded)
  /\ (j_Outcome n = OutcomeComplete <-> forall r, r ∈ j_TargetResults n -> tr_Status r = TargetSucceeded).
Proof.
  intros H Hs. pose proof (ApplyTransition_inv _ _ _ H) as (_ & Hv & _ & _ & _ & Hup & Hvs & ->).
  pose proof (advance_validates c t Hv Hup) as (_ & Hok & _)%ValidateTargets_iff.
  specialize (Hvs Hs). unfold validSucceededJob in Hvs.
  destruct (_ || _) eqn:E in Hvs; [done|]. destruct (negb _) eqn:E1 in Hvs; [done|]. bool_simpl.
  destruct (j_TargetResults (advance c t)) as [|r0 l] eqn:Hres; [cbn in *; lia|].
  assert (Hout : j_Outcome (advance c t) = AggregateOutcome (r0 :: l)).
  { rewrite <- Hres. cbn in Hres, Hs |- *. rewrite Hs. cbn. by rewrite Hres. }
  rewrite forallb_forall in E1.
  assert (Hterm : forall r, r ∈ r0 :: l -> isTerminalTarget (tr_Status r) = true).
  { intros r Hr%list_elem_of_In. by apply E1. }
  split; [|split].
  - intros id Hid. destruct Hok.
    destruct (NoDup_fmap_subset_full TargetID (r0 :: l) (j_TargetResourceIDs (advance c t))
                tok_nodup0 tok_known0 ltac:(lia) id Hid) as (r & Hr & <-).
    exists r. auto.
  - destruct (bool_decide_reflect (j_Outcome (advance c t) = OutcomeComplete)) as [Hc|_].
    + rewrite Hout, AggregateOutcome_complete in Hc. exists r0. split; [left|]. apply Hc. left.
    + apply orb_true_iff in H1 as [?|Hp]; [done|]. apply bool_decide_eq_true in Hp.
      rewrite Hout in Hp. by apply AggregateOutcome_partial in Hp as (_ & ? & _).
  - rewrite Hout, AggregateOutcome_complete. split; [by intros [_ ?]|done].
Qed.

(** Optimistic concurrency: once a transition succeeded, every transition
    that still carries the version it was based on is refused as a conflict,
    also when the 64-bit version counter wraps around. *)
Theorem stale_version_is_a_conflict c t n t' :
  ApplyTransition c t = Ok n -> t_CurrentVersion t' = j_Version c -> j_Version c <> 0%Z ->
  (int64_min <= j_Version c <= int64_max)%Z ->
  ApplyTransition n t' = Err ErrConflict.
Proof.
  intros H Hv Hnz Hr. apply ApplyTransition_inv in H as (_ & _ & _ & _ & _ & _ & _ & ->).
  unfold ApplyTransition. rewrite Hv.
  replace (j_Version c =? 0)%Z with false by (symmetry; by apply Z.eqb_neq).
  replace (j_Version c =? j_Version (advance c t))%Z with false; [done|].
  symmetry. apply Z.eqb_neq. cbn. unfold int64, int64_min, int64_max in *. intros Heq.
  destruct (Z.eq_dec (j_Version c) (2 ^ 63 - 1)) as [Hmax|Hne].
  { rewrite Hmax in Heq. by vm_compute in Heq. }
  rewrite Z.mod_small in Heq; lia.
Qed.

(** every job reachable from a freshly created one has timestamps, cancel
    request and outcome consistent with its status: no running job without dispatch
    and start times, no finished job without finish time, no cancelled job without a
    recorded actor. *)
Theorem reachable_jobs_follow_the_lifecycle j n :
  fresh_job j -> rtc job_step j n -> lifecycle_ok n.
Proof.
  intros Hf Hr. assert (Hl : lifecycle_ok j).
  { unfold lifecycle_ok. by rewrite (proj1 Hf). }
  clear Hf. induction Hr as [|x y z Hs _ IH]; [done|]. apply IH. by eapply lifecycle_step.
Qed.

(** the in-place merge with its position table computes the reference merge:
    each current row replaced by the update for its target, new targets appended in order. *)
Theorem mergeTargetResults_equals_reference c us :
  NoDup (ids c) -> NoDup (ids us) ->
  mergeTargetResults c us = merge_spec (normalizeTargetResultsUTC c) (normalizeTargetResultsUTC us).
Proof. apply mergeTargetResults_merge_spec. Qed.

(** A terminal job accepts no transition at all. *)
Theorem terminal_jobs_are_absorbing c t :
  isTerminal (j_Status c) = true -> forall n, ApplyTransition c t <> Ok n.
Proof.
  intros Ht n H. apply ApplyTransition_inv in H as (_ & _ & _ & Hal & _).
  unfold allowedTransition in Hal. by destruct (j_Status c).
Qed.

(** The counter guard of [ApplyTransition] cannot refuse a transition whose
    other guards passed: counters never decrease and never exceed the total. *)
Theorem progress_guard_never_fires c t :
  ValidateTargets c = Ok tt -> validTargetUpdates c (t_TargetResults t) = true ->
  validProgressChange (j_Progress c) (reconciled_progress c t) = true.
Proof. apply progress_change_valid. Qed.

(** ** Witnesses *)

Definition demo_time : time := Time (unix_epoch + 1000) true.
Definition demo_row (status : TargetStatus) : TargetResult :=
  {| TargetID := "host-1"; tr_Status := status; tr_ErrorSummary := ""; tr_ResultSummary := "";
     tr_Artifacts := []; tr_FinishedAt := Some demo_time |}.
Definition demo_job (status : Status) (rows : list TargetResult) : Job :=
  {| j_ID := "job-1"; j_Type := "inspection.collect"; j_Scope := {| TenantID := "t"; ProjectID := "p" |};
     j_Status := status; j_Outcome := OutcomeNone; j_InstanceID := "";
     j_TargetResourceIDs := ["host-1"; "host-2"]; j_InitiatedBy := "ops";
     j_SourceResource := {| ResourceType := "inspection"; ResourceID := "i-1" |};
     j_IdempotencyKey := ""; j_Version := 3;
     j_Progress := AggregateProgressForTargets ["host-1"; "host-2"] rows;
     j_TargetResults := rows; j_ErrorSummary := ""; j_ResultSummary := ""; j_Artifacts := [];
     j_CreatedAt := demo_time; j_DispatchedAt := None; j_StartedAt := None; j_FinishedAt := None;
     j_TimeoutAt := None; j_MaxConcurrency := 4; j_TargetTimeout := minute;
     j_CancelRequestedBy := ""; j_CancelRequestedAt := None; j_RequestID := "r"; j_TraceID := "x" |}%string.
Definition demo_row2 : TargetResult :=
  {| TargetID := "host-2"; tr_Status := TargetFailed; tr_ErrorSummary := "unreachable";
     tr_ResultSummary := ""; tr_Artifacts := []; tr_FinishedAt := Some demo_time |}%string.
Definition demo_transition (to : Status) (rows : option (list TargetResult)) : Transition :=
  {| t_Scope := {| TenantID := "t"; ProjectID := "p" |}; t_JobID := "job-1"; t_CurrentVersion := 3;
     t_To := to; t_Progress := None; t_TargetResults := rows; t_ErrorSummary := ""; t_ResultSummary := "";
     t_Artifacts := None; t_Actor := "ops"; t_At := demo_time |}%string.
Definition demo_running : Job := demo_job StatusRunning [demo_row TargetSucceeded].
Definition demo_finish : Transition := demo_transition StatusSucceeded (Some [demo_row2]).

Lemma ApplyTransition_preserves_ValidateTargets_witness :
  ApplyTransition demo_running demo_finish = Ok (advance demo_running demo_finish)
  /\ ValidateTargets (advance demo_running demo_finish) = Ok tt.
Proof.
  split; [vm_compute; reflexivity|].
  apply (ApplyTransition_preserves_ValidateTargets demo_running demo_finish). vm_compute. reflexivity.
Defined.

Lemma terminal_target_rows_are_kept_witness :
  normalizeTargetResult (demo_row TargetSucceeded) ∈ j_TargetResults (advance demo_running demo_finish).
Proof.
  apply (terminal_target_rows_are_kept demo_running demo_finish);
    [vm_compute; reflexivity|left|reflexivity].
Defined.

Lemma succeeded_job_accounts_for_every_target_witness :
  exists r, r ∈ j_TargetResults (advance demo_running demo_finish) /\ tr_Status r = TargetSucceeded.
Proof.
  apply (succeeded_job_accounts_for_every_target demo_running demo_finish);
    vm_compute; reflexivity.
Defined.

Lemma stale_version_is_a_conflict_witness :
  ApplyTransition (advance demo_running demo_finish) demo_finish = Err ErrConflict.
Proof.
  apply (stale_version_is_a_conflict demo_running demo_finish);
    [vm_compute; reflexivity|reflexivity|discriminate|vm_compute; split; discriminate].
Defined.

Lemma reachable_jobs_follow_the_lifecycle_witness :
  lifecycle_ok (advance (demo_job StatusQueued []) (demo_transition StatusCancelling None)).
Proof.
  apply (reachable_jobs_follow_the_lifecycle (demo_job StatusQueued [])).
  - vm_compute. repeat split.
  - apply rtc_once. exists (demo_transition StatusCancelling None). vm_compute. reflexivity.
Defined.

Lemma mergeTargetResults_equals_reference_witness :
  mergeTargetResults [demo_row TargetRunning] [demo_row2; demo_row TargetSucceeded]
  = [normalizeTargetResult (demo_row TargetSucceeded); normalizeTargetResult demo_row2].
Proof.
  rewrite (mergeTargetResults_equals_reference [demo_row TargetRunning] [demo_row2; demo_row TargetSucceeded]);
    [vm_compute; reflexivity| |];
    apply (bool_decide_eq_true_1 (NoDup _)); vm_compute; reflexivity.
Defined.

Lemma terminal_jobs_are_absorbing_witness :
  isTerminal (j_Status (demo_job StatusFailed [])) = true
  /\ ApplyTransition (demo_job StatusFailed []) demo_finish <> Ok demo_running.
Proof.
  split; [reflexivity|]. apply (terminal_jobs_are_absorbing (demo_job StatusFailed [])). reflexivity.
Defined.

Lemma progress_guard_never_fires_witness :
  validProgressChange (j_Progress demo_running) (reconciled_progress demo_running demo_finish) = true.
Proof.
  apply (progress_guard_never_fires demo_running demo_finish); vm_compute; reflexivity.
Defined.
