(* ===== verification/JobRepository.v ===== *)
(** * The job and command repository

    [job/postgres.go] with the data of [job/model.go] it stores: jobs, their
    target rows and the command outbox as tables, and the transactions on them.
    A command goes through the phases pending, preparing, prepared,
    start_authorized, running, cancelling and the terminal ones; the repository
    is the authority for every step, and [CommandLifecycle] of
    [job/dispatcher.go] only calls it.

    A transaction is a function from tables to a result: an error leaves the
    tables alone.  Three calls read a column outside their transaction (the
    job of a command, or the row after an update that did not apply); the call
    is one step here, since these columns never change once they are set.  [perform] adds what the database can do to it: fail, commit,
    or commit and lose the reply. *)

From S2P Require Import Prelude GoText JobModel.

Open Scope Z_scope.
Open Scope update_scope.

(** ** Data *)

Abbreviation bytes := (list Z).
Definition sha256_Size : nat := 32.

(** Errors of the package; [ErrExternal] is any other error of the database. *)
Inductive CommandError := JobErr (e : JobError) | ErrInvalidCommandPayload | ErrCommandAgentMismatch | ErrExternal.
Coercion JobErr : JobError >-> CommandError.
Abbreviation outcome := (result CommandError).

#[global] Instance JobError_eq_dec : EqDecision JobError.
Proof. solve_decision. Defined.
#[global] Instance CommandError_eq_dec : EqDecision CommandError.
Proof. solve_decision. Defined.
#[global] Instance JobScope_eq_dec : EqDecision JobScope.
Proof. solve_decision. Defined.
#[global] Instance JobScope_countable : Countable JobScope.
Proof.
  refine (inj_countable' (fun s => (TenantID s, ProjectID s)) (fun '(t, p) => {| TenantID := t; ProjectID := p |}) _). by intros [].
Defined.
#[global] Instance ArtifactReference_eq_dec : EqDecision ArtifactReference.
Proof. solve_decision. Defined.

(** [platformscope.Scope.Validate] *)
Definition Scope_Validate (s : JobScope) : bool :=
  negb (empty_string (TenantID s) || empty_string (ProjectID s) || negb (trimmed (TenantID s)) || negb (trimmed (ProjectID s))).

(** String types with their constants; [Unset] is the empty string. *)
Inductive CommandStatus :=
| CommandUnset | CommandPending | CommandActive | CommandSucceeded | CommandFailed | CommandCancelled | CommandTimedOut | CommandRejected.
Inductive CommandPhase :=
| CommandPhaseUnset | CommandPhasePending | CommandPhasePreparing | CommandPhasePrepared | CommandPhaseStartAuthorized | CommandPhaseRunning
| CommandPhaseCancelling | CommandPhaseSucceeded | CommandPhaseFailed | CommandPhaseCancelled | CommandPhaseTimedOut | CommandPhaseRejected.

#[global] Instance CommandStatus_eq_dec : EqDecision CommandStatus.
Proof. solve_decision. Defined.
#[global] Instance CommandPhase_eq_dec : EqDecision CommandPhase.
Proof. solve_decision. Defined.

(** The values the code puts into a [map[string]any]. *)
Inductive AuditValue := AText (s : string) | ANumber (z : Z) | ABool (b : bool) | ATime (t : time).
Abbreviation AuditDetail := (gmap string AuditValue).

Definition TargetUnset : TargetStatus := TargetOther EmptyString.

(** A null byte column and a null revision are read as the empty slice and as zero. *)
Record OutboxMessage := MkOutboxMessage {
  o_ID : string; o_Scope : JobScope; o_JobID : string; o_TargetID : string; o_Type : string; o_Payload : bytes; o_PreparedEnvelope : bytes;
  o_AvailableAt : time; o_CreatedAt : time; o_LeasedUntil : option time; o_PublishedAt : option time; o_Attempts : Z;
  o_CommandStatus : CommandStatus; o_AcknowledgedAt : option time; o_ExecutionDeadline : option time; o_LastHeartbeatAt : option time;
  o_RecoveryLeasedUntil : option time; o_CancellationRequestedAt : option time; o_CancellationReason : string; o_CancellationAvailableAt : option time;
  o_CancellationLeasedUntil : option time; o_CancellationAttempts : Z; o_Phase : CommandPhase; o_PrepareDigest : bytes; o_PreparedAt : option time;
  o_ExecutionTokenHash : bytes; o_ExecutionTokenCiphertext : bytes; o_ExecutionRevision : Z; o_RecoveryRevision : Z; o_StartDeadline : option time;
  o_StartEnqueuedAt : option time; o_RecoveryClaimToken : bytes; o_RecoveryClaimedDeadline : option time; o_RecoveryClaimedRevision : Z;
  o_TerminalResultDigest : bytes; o_TerminalAt : option time; o_TerminalAuditPending : bool; o_TerminalAuditDedupeKey : string;
  o_TerminalAuditAction : string; o_TerminalAuditResult : string; o_TerminalAuditDetail : AuditDetail; o_TerminalAuditLeasedUntil : option time;
  o_TerminalAuditAttempts : Z; o_TerminalAuditRecordedAt : option time; o_TerminalTargetStatus : TargetStatus; o_TerminalTargetError : string;
  o_TerminalTargetResult : string; o_TerminalTargetArtifacts : list ArtifactReference; o_TerminalReconcilePending : bool;
}.

#[global] Instance OutboxMessage_eta : Eta OutboxMessage := fun m => MkOutboxMessage
  (o_ID m) (o_Scope m) (o_JobID m) (o_TargetID m) (o_Type m) (o_Payload m) (o_PreparedEnvelope m) (o_AvailableAt m) (o_CreatedAt m) (o_LeasedUntil m)
  (o_PublishedAt m) (o_Attempts m) (o_CommandStatus m) (o_AcknowledgedAt m) (o_ExecutionDeadline m) (o_LastHeartbeatAt m) (o_RecoveryLeasedUntil m)
  (o_CancellationRequestedAt m) (o_CancellationReason m) (o_CancellationAvailableAt m) (o_CancellationLeasedUntil m) (o_CancellationAttempts m)
  (o_Phase m) (o_PrepareDigest m) (o_PreparedAt m) (o_ExecutionTokenHash m) (o_ExecutionTokenCiphertext m) (o_ExecutionRevision m) (o_RecoveryRevision m)
  (o_StartDeadline m) (o_StartEnqueuedAt m) (o_RecoveryClaimToken m) (o_RecoveryClaimedDeadline m) (o_RecoveryClaimedRevision m) (o_TerminalResultDigest m)
  (o_TerminalAt m) (o_TerminalAuditPending m) (o_TerminalAuditDedupeKey m) (o_TerminalAuditAction m) (o_TerminalAuditResult m) (o_TerminalAuditDetail m)
  (o_TerminalAuditLeasedUntil m) (o_TerminalAuditAttempts m) (o_TerminalAuditRecordedAt m) (o_TerminalTargetStatus m) (o_TerminalTargetError m)
  (o_TerminalTargetResult m) (o_TerminalTargetArtifacts m) (o_TerminalReconcilePending m).

#[global] Instance Job_eta : Eta Job := fun j => Build_Job
  (j_ID j) (j_Type j) (j_Scope j) (j_Status j) (j_Outcome j) (j_InstanceID j) (j_TargetResourceIDs j) (j_InitiatedBy j) (j_SourceResource j)
  (j_IdempotencyKey j) (j_Version j) (j_Progress j) (j_TargetResults j) (j_ErrorSummary j) (j_ResultSummary j) (j_Artifacts j) (j_CreatedAt j)
  (j_DispatchedAt j) (j_StartedAt j) (j_FinishedAt j) (j_TimeoutAt j) (j_MaxConcurrency j) (j_TargetTimeout j) (j_CancelRequestedBy j)
  (j_CancelRequestedAt j) (j_RequestID j) (j_TraceID j).

#[global] Instance TargetResult_eta : Eta TargetResult := fun r => Build_TargetResult
  (TargetID r) (tr_Status r) (tr_ErrorSummary r) (tr_ResultSummary r) (tr_Artifacts r) (tr_FinishedAt r).

(** A row of [command_outbox]: the message and the columns only the reconciler reads. *)
Record outboxRow := MkRow {
  message : OutboxMessage; reconcile_available_at : option time; reconcile_lease_expires_at : option time; reconcile_claim_token : bytes;
  reconcile_attempts : Z; reconcile_quarantined_at : option time; reconcile_quarantine_reason : string;
}.
#[global] Instance outboxRow_eta : Eta outboxRow := fun r => MkRow (message r) (reconcile_available_at r) (reconcile_lease_expires_at r)
  (reconcile_claim_token r) (reconcile_attempts r) (reconcile_quarantined_at r) (reconcile_quarantine_reason r).

Record StartGrant := {
  g_CommandID : string; g_TokenHash : bytes; g_TokenCiphertext : bytes; g_ExecutionRevision : Z; g_RecoveryRevision : Z; g_StartDeadline : time;
}.

Record RecoveryClaim := {
  c_Scope : JobScope; c_CommandID : string; c_JobID : string; c_TargetID : string; c_ClaimToken : bytes; c_ClaimedDeadline : time;
  c_ClaimedRecoveryRevision : Z;
}.

Record TerminalAudit := { a_DedupeKey : string; a_Action : string; a_Result : string; a_Detail : AuditDetail }.

Record TerminalCommand := {
  tc_Scope : JobScope; tc_CommandID : string; tc_Status : CommandStatus; tc_Target : TargetResult; tc_Audit : TerminalAudit; tc_At : time;
}.

Record TerminalResultCAS := {
  cas_Scope : JobScope; cas_CommandID : string; cas_TokenHash : bytes; cas_ExpectedExecutionRevision : Z; cas_Status : CommandStatus;
  cas_ResultDigest : bytes; cas_AllowTimedOutDigestAttach : bool; cas_Target : TargetResult; cas_Audit : TerminalAudit; cas_At : time;
}.

Record TerminalResultOutcome := {
  out_CommandID : string; out_JobID : string; out_TargetID : string; out_Status : CommandStatus; out_ResultDigest : bytes; out_Persisted : bool;
  out_Duplicate : bool; out_Conflict : bool;
}.

Record terminalReconcileClaim := { rc_scope : JobScope; rc_jobID : string; rc_commandID : string; rc_token : bytes; rc_leaseExpiresAt : time }.

(** The command envelope of the agent protocol; the commands are kept as their encoding. *)
Inductive Command :=
| CollectDatabaseMetrics (trial : bool) (body : bytes)
| ValidateDatabaseInstance (body : bytes)
| OtherCommand (kind : string) (body : bytes).
Record Timestamp := { AsTime : time; IsValid : bool }.
Record CommandEnvelope := MkEnvelope {
  e_CommandId : string; e_JobId : string; e_AgentId : string; e_IssuedAt : option Timestamp; e_ExpiresAt : option Timestamp; e_Nonce : bytes;
  e_Signature : bytes; e_LeaseSeconds : Z; e_Command : option Command;
}.
#[global] Instance Envelope_eta : Eta CommandEnvelope := fun e => MkEnvelope (e_CommandId e) (e_JobId e) (e_AgentId e) (e_IssuedAt e) (e_ExpiresAt e)
  (e_Nonce e) (e_Signature e) (e_LeaseSeconds e) (e_Command e).

(** ** Status predicates *)

Definition DefaultOutboxLease : Z := 30 * second.
Definition DefaultCancellationRetry : Z := 30 * second.
Definition terminalReconcileLease : Z := 30 * second.
Definition terminalReconcileMaxAttempts : Z := 8.
Definition commandOutboxType : string := "agent.command".
Definition maximumInlineResultSummary : nat := 4096.
Definition MaximumTimeoutSeconds : Z := 24 * 60 * 60.

Definition terminalCommandStatus (status : CommandStatus) : bool :=
  match status with CommandSucceeded | CommandFailed | CommandCancelled | CommandTimedOut | CommandRejected => true | _ => false end.

Definition activePreparePhase (phase : CommandPhase) : bool :=
  match phase with
  | CommandPhasePreparing | CommandPhasePrepared | CommandPhaseStartAuthorized | CommandPhaseRunning | CommandPhaseCancelling => true
  | _ => false
  end.

(** [command_phase IN ('start_authorized', 'running', 'cancelling')] *)
Definition started_phase (phase : CommandPhase) : bool :=
  match phase with CommandPhaseStartAuthorized | CommandPhaseRunning | CommandPhaseCancelling => true | _ => false end.

Definition terminal_phase (phase : CommandPhase) : bool :=
  match phase with
  | CommandPhaseSucceeded | CommandPhaseFailed | CommandPhaseCancelled | CommandPhaseTimedOut | CommandPhaseRejected => true
  | _ => false
  end.

(** [message.Phase == ""] or a phase before the start. *)
Definition prestart_phase (phase : CommandPhase) : bool :=
  match phase with CommandPhaseUnset | CommandPhasePending | CommandPhasePreparing | CommandPhasePrepared => true | _ => false end.

Definition phaseForCommandStatus (status : CommandStatus) : CommandPhase :=
  match status with
  | CommandSucceeded => CommandPhaseSucceeded | CommandFailed => CommandPhaseFailed | CommandCancelled => CommandPhaseCancelled
  | CommandTimedOut => CommandPhaseTimedOut | CommandRejected => CommandPhaseRejected | _ => CommandPhasePending
  end.

Definition terminalTargetMatchesCommand (target : TargetStatus) (command : CommandStatus) : bool :=
  match command with
  | CommandSucceeded => bool_decide (target = TargetSucceeded)
  | CommandCancelled => bool_decide (target = TargetCancelled)
  | CommandTimedOut => bool_decide (target = TargetTimedOut)
  | CommandFailed | CommandRejected => bool_decide (target = TargetFailed)
  | _ => false
  end.

Definition hasTimedOutTarget (results : list TargetResult) : bool := existsb (fun r => bool_decide (tr_Status r = TargetTimedOut)) results.

Definition allTargetsCancelled (results : list TargetResult) : bool :=
  negb (bool_decide (results = [] )) && forallb (fun r => bool_decide (tr_Status r = TargetCancelled)) results.

Definition containsTarget (targets : list string) (target : string) : bool := existsb (fun value => bool_decide (value = target)) targets.

Fixpoint targetFor (results : list TargetResult) (target : string) : option TargetResult :=
  match results with
  | [] => None
  | r :: rest => if bool_decide (TargetID r = target) then Some r else targetFor rest target
  end.

Definition allTargetsTerminal (value : Job) : bool :=
  if bool_decide (length (j_TargetResourceIDs value) = 0%nat) || negb (bool_decide (length (j_TargetResults value) = length (j_TargetResourceIDs value))) then false
  else forallb (fun r => isTerminalTarget (tr_Status r)) (j_TargetResults value).

Definition collectArtifacts (results : list TargetResult) : list ArtifactReference := concat (tr_Artifacts <$> results).

(** The status of a job whose targets have all finished. *)
Definition terminalJobStatus (value : Job) : Status :=
  if 0 <? CompletedTargets (j_Progress value) then StatusSucceeded
  else if allTargetsCancelled (j_TargetResults value) then StatusCancelled
  else if hasTimedOutTarget (j_TargetResults value) then StatusTimedOut
  else StatusFailed.

Definition artifactReferencesEqual (left right : list ArtifactReference) : bool := bool_decide (left = right).

Definition matchingTerminalTarget (stored incoming : TargetResult) : bool :=
  bool_decide (TargetID stored = TargetID incoming) && bool_decide (tr_Status stored = tr_Status incoming)
  && bool_decide (tr_ErrorSummary stored = tr_ErrorSummary incoming) && bool_decide (tr_ResultSummary stored = tr_ResultSummary incoming)
  && artifactReferencesEqual (tr_Artifacts stored) (tr_Artifacts incoming).

(** [strings.ContainsAny(s, "\r\n\t")] *)
Definition has_control (s : string) : bool := existsb (fun c => (c =? 13) || (c =? 10) || (c =? 9)) (bytes_of s).

Definition validateTerminalCommand (input : TerminalCommand) : bool :=
  Scope_Validate (tc_Scope input) && negb (blank (tc_CommandID input)) && terminalCommandStatus (tc_Status input) && negb (IsZero (tc_At input))
  && negb (empty_string (TargetID (tc_Target input))) && isTerminalTarget (tr_Status (tc_Target input))
  && terminalTargetMatchesCommand (tr_Status (tc_Target input)) (tc_Status input)
  && negb (blank (a_DedupeKey (tc_Audit input))) && negb (blank (a_Action (tc_Audit input)))
  && (bool_decide (a_Result (tc_Audit input) = "success"%string) || bool_decide (a_Result (tc_Audit input) = "failure"%string))
  && forallb (fun value => (String.length value <=? maximumInlineResultSummary)%nat && negb (has_control value))
       [tr_ErrorSummary (tc_Target input); tr_ResultSummary (tc_Target input)]
  && forallb (fun value => (String.length value <=? 512)%nat && negb (has_control value)) [a_DedupeKey (tc_Audit input); a_Action (tc_Audit input)]
  && forallb (fun artifact => negb (blank (ArtifactID artifact)) && negb (blank (ArtifactKind artifact))) (tr_Artifacts (tc_Target input)).

(** ** The database *)

(** What PostgreSQL and the encoders do to values: timestamps are rounded; JSON columns give the value back or refuse it;
    identifiers have an order; the envelope has an encoding. *)
Class JobDatabase := {
  pg_time : time -> time;
  artifacts_jsonb : list ArtifactReference -> option (list ArtifactReference);
  detail_jsonb : AuditDetail -> option AuditDetail;
  detail_text : AuditDetail -> string;                                  (* [json.Marshal] *)
  collate : string -> string -> bool;
  Unmarshal : bytes -> option (CommandEnvelope * bytes);                (* with the unknown fields *)
  Marshal : CommandEnvelope -> bytes;                                   (* deterministic *)
  ValidateShape : CommandEnvelope -> bool;                              (* [commandvalidation.ValidateShape] *)
}.

Record tables := Tables {
  jobs : gmap (JobScope * string) Job;                        (* without the target rows *)
  targets : gmap (JobScope * string * string) TargetResult;
  outbox : gmap string outboxRow;                             (* the identifier is unique across scopes *)
}.

(** The checks of the tables. *)
Definition job_check (j : Job) : bool :=
  let p := j_Progress j in
  (1 <=? j_Version j) && (0 <=? TotalTargets p) && (TotalTargets p <=? 10000) && (0 <=? CompletedTargets p) && (0 <=? FailedTargets p) && (0 <=? SkippedTargets p)
  && (CompletedTargets p + FailedTargets p + SkippedTargets p <=? TotalTargets p)
  && negb (match j_Status j with StatusOther _ => true | _ => false end)
  && ((j_MaxConcurrency j =? 0) || (1 <=? j_MaxConcurrency j) && (j_MaxConcurrency j <=? 1000))
  && ((j_TargetTimeout j =? 0) || (second <=? j_TargetTimeout j) && (j_TargetTimeout j <=? hour))
  && (negb (bool_decide (j_Type j = "inspection.collect"%string)) || negb (j_MaxConcurrency j =? 0) && negb (j_TargetTimeout j =? 0)).

Definition target_check (r : TargetResult) : bool := validTargetStatus (tr_Status r).

Definition null {A} (o : option A) : bool := bool_decide (~ is_Some o).
Definition null_bytes (b : bytes) : bool := bool_decide (b = []).
Definition null_or_length (n : nat) (b : bytes) : bool := null_bytes b || (length b =? n)%nat.

(** The largest INTEGER. *)
Definition int32_max : Z := 2 ^ 31 - 1.

Definition row_check (r : outboxRow) : bool :=
  let m := message r in
  let phase := o_Phase m in
  negb (bool_decide (phase = CommandPhaseUnset)) && negb (bool_decide (o_CommandStatus m = CommandUnset)) && (0 <=? o_Attempts m) && (o_Attempts m <=? int32_max)
  && (0 <=? o_CancellationAttempts m) && (o_CancellationAttempts m <=? int32_max) && (o_RecoveryRevision m <=? int64_max)
  && null_or_length 32 (o_PrepareDigest m) && null_or_length 32 (o_ExecutionTokenHash m) && null_or_length 32 (o_TerminalResultDigest m)
  && (0 <=? o_ExecutionRevision m) && (0 <=? o_RecoveryRevision m)
  && (null (o_StartEnqueuedAt m) || (0 <? o_ExecutionRevision m))
  && eqb (null_bytes (o_PrepareDigest m)) (null (o_PreparedAt m))
  && ((o_ExecutionRevision m =? 0) && (o_RecoveryRevision m =? 0) && null_bytes (o_ExecutionTokenHash m) && null_bytes (o_ExecutionTokenCiphertext m)
        && null (o_StartDeadline m)
      || (0 <? o_ExecutionRevision m) && (0 <? o_RecoveryRevision m) && negb (null_bytes (o_ExecutionTokenHash m))
        && negb (null_bytes (o_ExecutionTokenCiphertext m)) && negb (null (o_StartDeadline m)))
  && (negb (bool_decide (phase = CommandPhasePrepared) || started_phase phase) || negb (null_bytes (o_PrepareDigest m)) && negb (null (o_PreparedAt m)))
  && (negb (started_phase phase)
      || negb (null_bytes (o_ExecutionTokenHash m)) && negb (null_bytes (o_ExecutionTokenCiphertext m)) && (0 <? o_ExecutionRevision m)
         && (0 <? o_RecoveryRevision m) && negb (null (o_StartDeadline m)) && negb (null (o_ExecutionDeadline m)))
  && (null_bytes (o_RecoveryClaimToken m) && null (o_RecoveryClaimedDeadline m) && (o_RecoveryClaimedRevision m =? 0)
      || (length (o_RecoveryClaimToken m) =? 32)%nat && negb (null (o_RecoveryClaimedDeadline m)) && (0 <? o_RecoveryClaimedRevision m) && started_phase phase)
  && (negb (terminal_phase phase) || negb (null (o_TerminalAt m)))
  && (null_bytes (o_TerminalResultDigest m) || terminal_phase phase && negb (bool_decide (phase = CommandPhaseRejected)))
  && (negb (o_TerminalAuditPending m)
      || terminal_phase phase && negb (empty_string (o_TerminalAuditDedupeKey m)) && negb (empty_string (o_TerminalAuditAction m))
         && negb (empty_string (o_TerminalAuditResult m)) && null (o_TerminalAuditRecordedAt m))
  && (0 <=? o_TerminalAuditAttempts m) && (o_TerminalAuditAttempts m <=? int32_max)
  && (bool_decide (o_TerminalTargetStatus m = TargetUnset) || isTerminalTarget (o_TerminalTargetStatus m))
  && (negb (o_TerminalReconcilePending m)
      || terminal_phase phase && negb (bool_decide (o_TerminalTargetStatus m = TargetUnset)) && negb (null (o_TerminalAt m)))
  && (0 <=? reconcile_attempts r) && (reconcile_attempts r <=? int32_max)
  && eqb (null (reconcile_quarantined_at r)) (empty_string (reconcile_quarantine_reason r))
  && (null_bytes (reconcile_claim_token r) && null (reconcile_lease_expires_at r)
      || (length (reconcile_claim_token r) =? 32)%nat && negb (null (reconcile_lease_expires_at r))).

(** ** Transactions *)

Definition Tx (A : Type) : Type := tables -> outcome (A * tables).
#[global] Instance Tx_ret : MRet Tx := fun _ a t => Ok (a, t).
#[global] Instance Tx_bind : MBind Tx := fun _ _ f m t => match m t with Ok (a, t') => f a t' | Err e => Err e end.
Definition rollback {A} (e : CommandError) : Tx A := fun _ => Err e.
Definition read {A} (f : tables -> A) : Tx A := fun t => Ok (f t, t).
Definition require (ok : bool) (e : CommandError) : Tx unit := if ok then mret tt else rollback e.
Definition found {A} (o : option A) (e : CommandError) : Tx A := match o with Some a => mret a | None => rollback e end.
Definition lift {A} (r : result JobError A) : Tx A := match r with Ok a => mret a | Err e => rollback e end.
Definition write (f : tables -> tables) : Tx unit := fun t => Ok (tt, f t).

(** How the database ends a transaction; [lost] is the error for a commit whose reply is lost. *)
Definition perform {A} (lost : CommandError) (body : Tx A) (v : verdict) (t : tables) : outcome A * tables :=
  match v with
  | TxFail => (Err ErrExternal, t)
  | _ => match body t with
         | Err e => (Err e, t)
         | Ok (a, t') => (match v with TxLost => Err lost | _ => Ok a end, t')
         end
  end.

Section repository.
Context `{JobDatabase}.

Definition stored_time (t : time) : time := UTC (pg_time t).
Definition stored_pointer (o : option time) : option time := stored_time <$> o.

(** *** Outbox rows *)

Definition write_row (row : outboxRow) : Tx unit :=
  _ ← require (row_check row) ErrExternal;
  write (fun t => Tables (jobs t) (targets t) (<[o_ID (message row) := row]> (outbox t))).

(** [WHERE tenant_id = .. AND project_id = .. AND id = ..] *)
Definition scoped_row (scope : JobScope) (id : string) (t : tables) : option outboxRow :=
  match outbox t !! id with Some row => if bool_decide (o_Scope (message row) = scope) then Some row else None | None => None end.

(** An update of at most one row: whether it applied. *)
Definition update_scoped (scope : JobScope) (id : string) (guard : OutboxMessage -> bool) (f : OutboxMessage -> OutboxMessage) : Tx bool :=
  row ← read (scoped_row scope id);
  match row with
  | Some r => if guard (message r) then _ ← write_row (r <| message := f (message r) |>); mret true else mret false
  | None => mret false
  end.

(** [execScopedCommand] *)
Definition execScopedCommand (scope : JobScope) (id : string) (guard : OutboxMessage -> bool) (f : OutboxMessage -> OutboxMessage) : Tx unit :=
  updated ← update_scoped scope id guard f;
  require updated ErrNotFound.

(** *** Jobs and target rows *)

Definition target_le (a b : TargetResult) : Prop := collate (TargetID a) (TargetID b) = true.
#[local] Instance target_le_dec a b : Decision (target_le a b) := decide (collate (TargetID a) (TargetID b) = true).

(** [getTargetsFrom] *)
Definition getTargetsFrom (scope : JobScope) (id : string) (t : tables) : list TargetResult :=
  merge_sort target_le (snd <$> filter (fun kv : JobScope * string * string * TargetResult => fst kv.1 = (scope, id)) (map_to_list (targets t))).

Definition with_targets (value : Job) (results : list TargetResult) : Job :=
  value <| j_TargetResults := results |> <| j_TargetResourceIDs := TargetID <$> results |>.

(** [scanJob] on the row, then its target rows. *)
Definition load_job (scope : JobScope) (id : string) : Tx Job :=
  row ← read (fun t => jobs t !! (scope, id));
  value ← found row ErrNotFound;
  _ ← lift (validateExecutionLimits value);
  results ← read (getTargetsFrom scope id);
  mret (with_targets value results).

Definition Get (scope : JobScope) (id : string) : Tx Job :=
  _ ← require (Scope_Validate scope) ErrExternal;
  _ ← require (negb (blank id)) ErrNotFound;
  value ← load_job scope id;
  _ ← lift (ValidateTargets (normalizeJobUTC value));
  mret (normalizeJobUTC value).

Definition stored_target (r : TargetResult) (artifacts : list ArtifactReference) : TargetResult :=
  r <| tr_Artifacts := artifacts |> <| tr_FinishedAt := stored_pointer (tr_FinishedAt r) |>.

(** [upsertTargetSQL]; an insert of a row that is there is the same statement without its conflict clause. *)
Definition upsert_target (scope : JobScope) (id : string) (r : TargetResult) : Tx unit :=
  artifacts ← found (artifacts_jsonb (tr_Artifacts r)) ErrExternal;
  _ ← require (target_check r) ErrExternal;
  write (fun t => Tables (jobs t) (<[(scope, id, TargetID r) := stored_target r artifacts]> (targets t)) (outbox t)).

Fixpoint upsert_targets (scope : JobScope) (id : string) (l : list TargetResult) : Tx unit :=
  match l with
  | [] => mret tt
  | r :: rest => _ ← upsert_target scope id r; upsert_targets scope id rest
  end.

(** [updateJobSQL]: the columns it sets. *)
Definition updated_job (row next : Job) (artifacts : list ArtifactReference) : Job :=
  row <| j_Status := j_Status next |> <| j_Outcome := j_Outcome next |> <| j_Version := j_Version next |>
      <| j_Progress := {| TotalTargets := TotalTargets (j_Progress row); CompletedTargets := CompletedTargets (j_Progress next);
                          FailedTargets := FailedTargets (j_Progress next); SkippedTargets := SkippedTargets (j_Progress next) |} |>
      <| j_ErrorSummary := j_ErrorSummary next |> <| j_ResultSummary := j_ResultSummary next |> <| j_Artifacts := artifacts |>
      <| j_DispatchedAt := stored_pointer (j_DispatchedAt next) |> <| j_StartedAt := stored_pointer (j_StartedAt next) |>
      <| j_FinishedAt := stored_pointer (j_FinishedAt next) |> <| j_CancelRequestedBy := j_CancelRequestedBy next |>
      <| j_CancelRequestedAt := stored_pointer (j_CancelRequestedAt next) |>.

Definition transitionInTx (transition : Transition) : Tx Job :=
  let scope := t_Scope transition in
  let id := t_JobID transition in
  current ← load_job scope id;
  let transition := if t_CurrentVersion transition =? 0
    then {| t_Scope := scope; t_JobID := id; t_CurrentVersion := j_Version current; t_To := t_To transition; t_Progress := t_Progress transition;
            t_TargetResults := t_TargetResults transition; t_ErrorSummary := t_ErrorSummary transition; t_ResultSummary := t_ResultSummary transition;
            t_Artifacts := t_Artifacts transition; t_Actor := t_Actor transition; t_At := t_At transition |}
    else transition in
  next ← lift (ApplyTransition current transition);
  artifacts ← found (artifacts_jsonb (j_Artifacts next)) ErrExternal;
  row ← read (fun t => jobs t !! (scope, id));
  stored ← found row ErrConflict;
  _ ← require (j_Version stored =? j_Version current) ErrConflict;
  let row' := updated_job stored next artifacts in
  _ ← require (job_check row') ErrExternal;
  _ ← write (fun t => Tables (<[(scope, id) := row']> (jobs t)) (targets t) (outbox t));
  _ ← upsert_targets (j_Scope next) (j_ID next) (normalizeTargetResultsUTC (default [] (t_TargetResults transition)));
  mret next.

Definition Repository_Transition (transition : Transition) : Tx Job :=
  _ ← require (Scope_Validate (t_Scope transition)) ErrExternal;
  transitionInTx transition.

(** *** Creation *)

Definition validateNewJob (value : Job) : outcome unit :=
  if negb (Scope_Validate (j_Scope value)) then Err ErrExternal
  else if blank (j_ID value) || blank (j_Type value) || blank (j_IdempotencyKey value) || negb (bool_decide (j_Status value = StatusQueued))
          || negb (bool_decide (j_Outcome value = OutcomeNone)) || (j_Version value <? 1) || IsZero (j_CreatedAt value)
          || negb (validProgressChange (j_Progress value) (j_Progress value)) then Err (JobErr ErrInvalidTransition)
  else match ValidateTargets value with Ok _ => Ok tt | Err e => Err (JobErr e) end.

(** A message that no statement has touched. *)
Definition untouched (m : OutboxMessage) : bool :=
  null_bytes (o_PreparedEnvelope m) && null (o_LeasedUntil m) && null (o_PublishedAt m) && (o_Attempts m =? 0)
  && bool_decide (o_CommandStatus m = CommandUnset) && null (o_AcknowledgedAt m) && null (o_ExecutionDeadline m) && null (o_LastHeartbeatAt m)
  && null (o_RecoveryLeasedUntil m) && null (o_CancellationRequestedAt m) && empty_string (o_CancellationReason m) && null (o_CancellationAvailableAt m)
  && null (o_CancellationLeasedUntil m) && (o_CancellationAttempts m =? 0) && bool_decide (o_Phase m = CommandPhaseUnset) && null_bytes (o_PrepareDigest m)
  && null (o_PreparedAt m) && null_bytes (o_ExecutionTokenHash m) && null_bytes (o_ExecutionTokenCiphertext m) && (o_ExecutionRevision m =? 0)
  && (o_RecoveryRevision m =? 0) && null (o_StartDeadline m) && null (o_StartEnqueuedAt m) && null_bytes (o_RecoveryClaimToken m)
  && null (o_RecoveryClaimedDeadline m) && (o_RecoveryClaimedRevision m =? 0) && null_bytes (o_TerminalResultDigest m) && null (o_TerminalAt m)
  && negb (o_TerminalAuditPending m) && empty_string (o_TerminalAuditDedupeKey m) && empty_string (o_TerminalAuditAction m)
  && empty_string (o_TerminalAuditResult m) && bool_decide (o_TerminalAuditDetail m = ∅) && null (o_TerminalAuditLeasedUntil m)
  && (o_TerminalAuditAttempts m =? 0) && null (o_TerminalAuditRecordedAt m) && bool_decide (o_TerminalTargetStatus m = TargetUnset)
  && empty_string (o_TerminalTargetError m) && empty_string (o_TerminalTargetResult m) && bool_decide (o_TerminalTargetArtifacts m = [])
  && negb (o_TerminalReconcilePending m).

(** The fields the dispatcher fills in are empty, and the command has a lease within bounds. *)
Definition unsigned_envelope (e : CommandEnvelope) (target : string) : bool :=
  empty_string (e_CommandId e) && empty_string (e_JobId e) && null (e_IssuedAt e) && null (e_ExpiresAt e) && null_bytes (e_Nonce e) && null_bytes (e_Signature e)
  && bool_decide (e_AgentId e = target) && negb (e_LeaseSeconds e =? 0) && (e_LeaseSeconds e <=? MaximumTimeoutSeconds).

(** [authorized] is the answer of the target authorizer. *)
Definition validateOutboxMessage (authorized : bool) (value : Job) (m : OutboxMessage) : bool :=
  negb (blank (o_ID m)) && trimmed (o_ID m) && bool_decide (o_Type m = commandOutboxType) && bool_decide (o_JobID m = j_ID value)
  && bool_decide (o_Scope m = j_Scope value) && containsTarget (j_TargetResourceIDs value) (o_TargetID m) && negb (IsZero (o_CreatedAt m))
  && negb (IsZero (o_AvailableAt m)) && negb (null_bytes (o_Payload m)) && untouched m
  && match Unmarshal (o_Payload m) with
     | Some (envelope, []) => bool_decide (Marshal envelope = o_Payload m) && unsigned_envelope envelope (o_TargetID m) && ValidateShape envelope && authorized
     | _ => false
     end.

Definition normalizeOutboxMessage (value : Job) (m : OutboxMessage) : OutboxMessage :=
  let m := if bool_decide (o_Scope m = {| TenantID := EmptyString; ProjectID := EmptyString |}) then m <| o_Scope := j_Scope value |> else m in
  let m := if empty_string (o_JobID m) then m <| o_JobID := j_ID value |> else m in
  let m := if IsZero (o_CreatedAt m) then m <| o_CreatedAt := j_CreatedAt value |> else m in
  let m := if IsZero (o_AvailableAt m) then m <| o_AvailableAt := o_CreatedAt m |> else m in
  m <| o_CreatedAt := UTC (o_CreatedAt m) |> <| o_AvailableAt := UTC (o_AvailableAt m) |>
    <| o_LeasedUntil ::= utcPointer |> <| o_PublishedAt ::= utcPointer |> <| o_AcknowledgedAt ::= utcPointer |> <| o_ExecutionDeadline ::= utcPointer |>
    <| o_LastHeartbeatAt ::= utcPointer |> <| o_RecoveryLeasedUntil ::= utcPointer |> <| o_CancellationRequestedAt ::= utcPointer |>
    <| o_CancellationAvailableAt ::= utcPointer |> <| o_CancellationLeasedUntil ::= utcPointer |>.

Definition initialTargets (value : Job) : list TargetResult :=
  (fun id => default {| TargetID := id; tr_Status := TargetQueued; tr_ErrorSummary := EmptyString; tr_ResultSummary := EmptyString; tr_Artifacts := [];
                        tr_FinishedAt := None |}
               (foldl (fun m r => <[TargetID r := r]> m) (∅ : gmap string TargetResult) (j_TargetResults value) !! id)) <$> j_TargetResourceIDs value.

(** The row as [insertJobSQL] writes it. *)
Definition inserted_job (value : Job) (artifacts : list ArtifactReference) : Job :=
  value <| j_Artifacts := artifacts |> <| j_TargetResults := [] |> <| j_TargetResourceIDs := [] |> <| j_CreatedAt := stored_time (j_CreatedAt value) |>
        <| j_DispatchedAt := stored_pointer (j_DispatchedAt value) |> <| j_StartedAt := stored_pointer (j_StartedAt value) |>
        <| j_FinishedAt := stored_pointer (j_FinishedAt value) |> <| j_TimeoutAt := stored_pointer (j_TimeoutAt value) |>
        <| j_CancelRequestedAt := stored_pointer (j_CancelRequestedAt value) |>
        <| j_MaxConcurrency := Z.max 0 (j_MaxConcurrency value) |> <| j_TargetTimeout := Z.max 0 (Z.quot (j_TargetTimeout value) second) * second |>.

(** The row as [insertOutboxSQL] and the column defaults make it. *)
Definition inserted_row (m : OutboxMessage) : outboxRow :=
  MkRow (m <| o_AvailableAt := stored_time (o_AvailableAt m) |> <| o_CreatedAt := stored_time (o_CreatedAt m) |>
           <| o_LeasedUntil := stored_pointer (o_LeasedUntil m) |> <| o_PublishedAt := stored_pointer (o_PublishedAt m) |>
           <| o_CommandStatus := CommandPending |> <| o_Phase := CommandPhasePending |>)
    None None [] 0 None EmptyString.

(** The job's primary key and its unique idempotency key. *)
Definition job_taken (value : Job) (t : tables) : bool :=
  bool_decide (is_Some (jobs t !! (j_Scope value, j_ID value)))
  || existsb (fun kv : JobScope * string * Job => bool_decide (fst kv.1 = j_Scope value) && bool_decide (j_IdempotencyKey kv.2 = j_IdempotencyKey value)
                            && bool_decide (j_Type kv.2 = j_Type value)) (map_to_list (jobs t)).

Fixpoint insert_messages (l : list OutboxMessage) : Tx unit :=
  match l with
  | [] => mret tt
  | m :: rest =>
      taken ← read (fun t => bool_decide (is_Some (outbox t !! o_ID m)));
      _ ← require (negb taken) ErrConflict;
      _ ← write_row (inserted_row m);
      insert_messages rest
  end.

Definition CreateInTx (authorized : OutboxMessage -> bool) (value : Job) (messages : list OutboxMessage) : Tx unit :=
  let value := normalizeJobUTC value in
  _ ← match validateNewJob value with Ok _ => mret tt | Err e => rollback e end;
  let normalized := normalizeOutboxMessage value <$> messages in
  _ ← require (forallb (fun m => validateOutboxMessage (authorized m) value m) normalized) ErrInvalidCommandPayload;
  artifacts ← found (artifacts_jsonb (j_Artifacts value)) ErrExternal;
  taken ← read (job_taken value);
  _ ← require (negb taken) ErrConflict;
  let row := inserted_job value artifacts in
  _ ← require (job_check row) ErrExternal;
  _ ← write (fun t => Tables (<[(j_Scope value, j_ID value) := row]> (jobs t)) (targets t) (outbox t));
  _ ← upsert_targets (j_Scope value) (j_ID value) (initialTargets value);
  insert_messages normalized.

(** *** Claims: the first rows that qualify and that no other transaction holds *)

Definition time_le (a b : time) : bool := instant a <=? instant b.
(** A null timestamp sorts last. *)
Definition key_lt (a b : option time) : bool := match a, b with Some x, Some y => instant x <? instant y | Some _, None => true | None, _ => false end.
Definition key_eq (a b : option time) : bool := negb (key_lt a b) && negb (key_lt b a).

Fixpoint lexicographic (keys : list (outboxRow -> option time)) (a b : outboxRow) : bool :=
  match keys with
  | [] => collate (o_ID (message a)) (o_ID (message b))
  | k :: rest => key_lt (k a) (k b) || key_eq (k a) (k b) && lexicographic rest a b
  end.
Definition row_le (keys : list (outboxRow -> option time)) (a b : outboxRow) : Prop := lexicographic keys a b = true.
#[local] Instance row_le_dec keys a b : Decision (row_le keys a b) := decide (lexicographic keys a b = true).

Definition by_created (r : outboxRow) : option time := Some (o_CreatedAt (message r)).
Definition by_prepared (r : outboxRow) : option time := o_PreparedAt (message r).
Definition by_terminal (r : outboxRow) : option time := o_TerminalAt (message r).
Definition by_deadline (r : outboxRow) : option time := o_ExecutionDeadline (message r).

Definition candidates (pred : outboxRow -> bool) (keys : list (outboxRow -> option time)) (limit : Z) (locked : gset string) (t : tables) : list outboxRow :=
  take (Z.to_nat limit) (merge_sort (row_le keys)
    (filter (fun r => pred r = true /\ o_ID (message r) ∉ locked) (snd <$> map_to_list (outbox t)))).

Fixpoint write_rows (l : list outboxRow) : Tx unit :=
  match l with [] => mret tt | r :: rest => _ ← write_row r; write_rows rest end.

(** [claimCommands]; [locked] are the rows other transactions hold. *)
Definition claimCommands (pred : outboxRow -> bool) (keys : list (outboxRow -> option time)) (f : OutboxMessage -> OutboxMessage) (limit : Z) (at_ : time)
    (locked : gset string) : Tx (list OutboxMessage) :=
  _ ← require (negb ((limit <=? 0) || IsZero at_)) ErrInvalidCommandPayload;
  rows ← read (candidates pred keys limit locked);
  let claimed := (fun r => r <| message ::= f |>) <$> rows in
  _ ← write_rows claimed;
  mret (message <$> claimed).

(** A lease column that is null or over. *)
Definition lease_free (lease : option time) (at_ : time) : bool := match lease with None => true | Some l => time_le l (pg_time at_) end.
Definition due (o : option time) (at_ : time) : bool := match o with Some x => time_le x (pg_time at_) | None => false end.
Definition lease_until (at_ : time) : option time := Some (stored_time (AddDuration (UTC at_) DefaultOutboxLease)).

Definition claimable (at_ : time) (r : outboxRow) : bool :=
  let m := message r in
  null (o_PublishedAt m) && null (o_CancellationRequestedAt m) && bool_decide (o_CommandStatus m = CommandPending) && time_le (o_AvailableAt m) (pg_time at_)
  && lease_free (o_LeasedUntil m) at_.

Definition leased (at_ : time) (m : OutboxMessage) : OutboxMessage := m <| o_LeasedUntil := lease_until at_ |> <| o_Attempts ::= Z.succ |>.

Definition ClaimOutbox (limit : Z) (at_ : time) (locked : gset string) : Tx (list OutboxMessage) :=
  _ ← require (negb ((limit <=? 0) || IsZero at_)) ErrExternal;
  claimCommands (claimable at_) [by_created] (leased at_) limit at_ locked.

Definition ClaimPreparedCommands (limit : Z) (at_ : time) : gset string -> Tx (list OutboxMessage) :=
  claimCommands (fun r => (bool_decide (o_Phase (message r) = CommandPhasePrepared) || bool_decide (o_Phase (message r) = CommandPhaseStartAuthorized))
                          && lease_free (o_LeasedUntil (message r)) at_)
    [by_prepared; by_created] (leased at_) limit at_.

Definition ClaimPendingTerminalAudits (limit : Z) (at_ : time) : gset string -> Tx (list OutboxMessage) :=
  claimCommands (fun r => o_TerminalAuditPending (message r) && lease_free (o_TerminalAuditLeasedUntil (message r)) at_) [by_terminal]
    (fun m => m <| o_TerminalAuditLeasedUntil := lease_until at_ |> <| o_TerminalAuditAttempts ::= Z.succ |>) limit at_.

Definition open_phase (phase : CommandPhase) : bool := bool_decide (phase = CommandPhasePending) || activePreparePhase phase.

Definition ClaimPendingCancellations (limit : Z) (at_ : time) : gset string -> Tx (list OutboxMessage) :=
  claimCommands (fun r => let m := message r in negb (null (o_CancellationRequestedAt m)) && open_phase (o_Phase m) && due (o_CancellationAvailableAt m) at_
                          && lease_free (o_CancellationLeasedUntil m) at_)
    [by_created] (fun m => m <| o_CancellationLeasedUntil := lease_until at_ |> <| o_CancellationAttempts ::= Z.succ |>) limit at_.

Definition open_status (status : CommandStatus) : bool := bool_decide (status = CommandPending) || bool_decide (status = CommandActive).

Definition ClaimExpiredCommands (limit : Z) (at_ : time) : gset string -> Tx (list OutboxMessage) :=
  claimCommands (fun r => let m := message r in negb (null (o_PublishedAt m)) && open_status (o_CommandStatus m) && due (o_ExecutionDeadline m) at_
                          && lease_free (o_RecoveryLeasedUntil m) at_)
    [by_deadline] (fun m => m <| o_RecoveryLeasedUntil := lease_until at_ |>) limit at_.

(** *** Preparation *)

(** [SELECT count( * ) ... command_phase IN ('preparing', ...)] *)
Definition active_commands (scope : JobScope) (jobID : string) (t : tables) : nat :=
  length (filter (fun kv : string * outboxRow => let m := message kv.2 in
                    (bool_decide (o_Scope m = scope) && bool_decide (o_JobID m = jobID) && activePreparePhase (o_Phase m)) = true) (map_to_list (outbox t))).

Definition ReservePrepareSlot (scope : JobScope) (commandID : string) (at_ : time) : Tx bool :=
  _ ← require (Scope_Validate scope && negb (blank commandID) && negb (IsZero at_)) ErrInvalidCommandPayload;
  found_row ← read (scoped_row scope commandID);
  row ← found found_row ErrNotFound;
  let m := message row in
  let phase := o_Phase m in
  _ ← require (null (o_CancellationRequestedAt m)) ErrConflict;
  found_job ← read (fun t => jobs t !! (scope, o_JobID m));
  value ← found found_job ErrNotFound;
  let maxConcurrency := j_MaxConcurrency value in
  if maxConcurrency =? 0 then mret true
  else if (maxConcurrency <? 1) || (1000 <? maxConcurrency) then rollback ErrInvalidTransition
  else if activePreparePhase phase then mret true
  else if negb (bool_decide (phase = CommandPhaseUnset)) && negb (bool_decide (phase = CommandPhasePending)) then rollback ErrConflict
  else
    active ← read (active_commands scope (o_JobID m));
    if maxConcurrency <=? Z.of_nat active then
      _ ← update_scoped scope commandID (fun m => bool_decide (o_Phase m = CommandPhasePending))
            (fun m => let next := stored_time (AddDuration (UTC at_) second) in
                      m <| o_LeasedUntil := None |> <| o_AvailableAt := if Before (o_AvailableAt m) next then next else o_AvailableAt m |>);
      mret false
    else
      updated ← update_scoped scope commandID (fun m => bool_decide (o_Phase m = CommandPhasePending) && null (o_CancellationRequestedAt m))
                  (fun m => m <| o_Phase := CommandPhasePreparing |>);
      _ ← require updated ErrConflict;
      mret true.

Definition LookupCommand (commandID : string) : Tx OutboxMessage :=
  _ ← require (negb (blank commandID)) ErrNotFound;
  row ← read (fun t => outbox t !! commandID);
  r ← found row ErrNotFound;
  mret (message r).

(** [prepareCommandEnvelopeSQL] *)
Definition PrepareCommandEnvelope (scope : JobScope) (commandID : string) (proposed : bytes) : Tx bytes :=
  _ ← require (Scope_Validate scope && negb (blank commandID) && negb (null_bytes proposed)) ErrInvalidCommandPayload;
  _ ← execScopedCommand scope commandID
        (fun m => null (o_CancellationRequestedAt m) && (bool_decide (o_Phase m = CommandPhasePending) || bool_decide (o_Phase m = CommandPhasePreparing)))
        (fun m => m <| o_PreparedEnvelope := if null_bytes (o_PreparedEnvelope m) then proposed else o_PreparedEnvelope m |>
                    <| o_Phase := if bool_decide (o_Phase m = CommandPhasePending) then CommandPhasePreparing else o_Phase m |>);
  row ← read (scoped_row scope commandID);
  r ← found row ErrNotFound;
  _ ← require (negb (null_bytes (o_PreparedEnvelope (message r)))) ErrInvalidCommandPayload;
  mret (o_PreparedEnvelope (message r)).

(** [COALESCE(column, value)] *)
Definition or_else (o : option time) (t : time) : option time := match o with Some x => Some x | None => Some (stored_time t) end.

Definition prepared_message (digest : bytes) (at_ : time) (m : OutboxMessage) : OutboxMessage :=
  m <| o_Phase := CommandPhasePrepared |> <| o_PrepareDigest := if null_bytes (o_PrepareDigest m) then digest else o_PrepareDigest m |>
    <| o_PreparedAt := or_else (o_PreparedAt m) (UTC at_) |> <| o_PublishedAt := or_else (o_PublishedAt m) (UTC at_) |> <| o_LeasedUntil := None |>.

Definition MarkPrepared (scope : JobScope) (commandID : string) (digest : bytes) (at_ : time) : Tx unit :=
  _ ← require (Scope_Validate scope && negb (blank commandID) && negb (IsZero at_)) ErrInvalidCommandPayload;
  updated ← update_scoped scope commandID
    (fun m => null (o_CancellationRequestedAt m) && prestart_phase (o_Phase m) && negb (bool_decide (o_Phase m = CommandPhaseUnset))
              && (null_bytes (o_PrepareDigest m) || bool_decide (o_PrepareDigest m = digest)))
    (prepared_message digest at_);
  if (updated : bool) then mret tt
  else
    row ← read (scoped_row scope commandID);
    r ← found row ErrNotFound;
    require (bool_decide (o_PrepareDigest (message r) = digest)
             && (bool_decide (o_Phase (message r) = CommandPhasePrepared) || started_phase (o_Phase (message r)))) ErrConflict.

(** *** The start of an execution *)

Definition startGrantFromStored (commandID : string) (m : OutboxMessage) : outcome StartGrant :=
  match o_StartDeadline m with
  | Some deadline =>
      if negb (length (o_ExecutionTokenHash m) =? sha256_Size)%nat || null_bytes (o_ExecutionTokenCiphertext m) || (o_ExecutionRevision m =? 0)
         || (o_RecoveryRevision m =? 0) then Err ErrInvalidCommandPayload
      else Ok {| g_CommandID := commandID; g_TokenHash := o_ExecutionTokenHash m; g_TokenCiphertext := o_ExecutionTokenCiphertext m;
                 g_ExecutionRevision := o_ExecutionRevision m; g_RecoveryRevision := o_RecoveryRevision m; g_StartDeadline := UTC deadline |}
  | None => Err ErrInvalidCommandPayload
  end.

Definition clear_recovery (m : OutboxMessage) : OutboxMessage :=
  m <| o_RecoveryClaimToken := [] |> <| o_RecoveryClaimedDeadline := None |> <| o_RecoveryClaimedRevision := 0 |> <| o_RecoveryLeasedUntil := None |>.

Definition authorized_message (tokenHash ciphertext : bytes) (at_ deadline : time) (m : OutboxMessage) : OutboxMessage :=
  clear_recovery (m <| o_Phase := CommandPhaseStartAuthorized |> <| o_CommandStatus := CommandActive |> <| o_ExecutionTokenHash := tokenHash |>
    <| o_ExecutionTokenCiphertext := ciphertext |> <| o_ExecutionRevision := 1 |> <| o_RecoveryRevision := 1 |>
    <| o_StartDeadline := Some (stored_time (UTC deadline)) |> <| o_ExecutionDeadline := Some (stored_time (UTC deadline)) |>
    <| o_LastHeartbeatAt := Some (stored_time (UTC at_)) |>).

Definition AuthorizeStart (scope : JobScope) (commandID : string) (expectedDigest tokenHash tokenCiphertext : bytes) (at_ deadline : time) : Tx StartGrant :=
  _ ← require (Scope_Validate scope && negb (blank commandID) && negb (null_bytes tokenCiphertext) && negb (IsZero at_) && After deadline at_) ErrInvalidCommandPayload;
  found_row ← read (scoped_row scope commandID);
  row ← found found_row ErrNotFound;
  let m := message row in
  found_job ← read (fun t => jobs t !! (scope, o_JobID m));
  value ← found found_job ErrNotFound;
  found_target ← read (fun t => targets t !! (scope, o_JobID m, o_TargetID m));
  target ← found found_target ErrNotFound;
  _ ← require (negb (isTerminalTarget (tr_Status target))) ErrConflict;
  _ ← require (bool_decide (o_PrepareDigest m = expectedDigest)) ErrConflict;
  if started_phase (o_Phase m) then
    match startGrantFromStored commandID m with Ok grant => mret grant | Err e => rollback e end
  else if bool_decide (j_Status value = StatusCancelling) || isTerminal (j_Status value) || negb (null (o_CancellationRequestedAt m)) then rollback ErrConflict
  else if negb (bool_decide (o_Phase m = CommandPhasePrepared)) then rollback ErrConflict
  else
    updated ← update_scoped scope commandID
      (fun m => bool_decide (o_Phase m = CommandPhasePrepared) && null (o_CancellationRequestedAt m) && bool_decide (o_PrepareDigest m = expectedDigest))
      (authorized_message tokenHash tokenCiphertext at_ deadline);
    _ ← require updated ErrConflict;
    mret {| g_CommandID := commandID; g_TokenHash := tokenHash; g_TokenCiphertext := tokenCiphertext; g_ExecutionRevision := 1; g_RecoveryRevision := 1;
            g_StartDeadline := UTC deadline |}.

Definition MarkStartEnqueued (scope : JobScope) (commandID : string) (executionRevision : Z) (at_ : time) : Tx unit :=
  _ ← require (Scope_Validate scope && negb (blank commandID) && negb (executionRevision =? 0) && negb (IsZero at_)) ErrInvalidCommandPayload;
  updated ← update_scoped scope commandID
    (fun m => (o_ExecutionRevision m =? executionRevision)
              && (started_phase (o_Phase m) || terminal_phase (o_Phase m) && negb (bool_decide (o_Phase m = CommandPhaseRejected))))
    (fun m => m <| o_StartEnqueuedAt := or_else (o_StartEnqueuedAt m) (UTC at_) |>);
  require updated ErrConflict.

Definition renewed_message (at_ deadline : time) (m : OutboxMessage) : OutboxMessage :=
  clear_recovery (m <| o_Phase := if bool_decide (o_Phase m = CommandPhaseStartAuthorized) then CommandPhaseRunning else o_Phase m |>
    <| o_RecoveryRevision ::= Z.succ |> <| o_LastHeartbeatAt := Some (stored_time (UTC at_)) |> <| o_ExecutionDeadline := Some (stored_time (UTC deadline)) |>
    <| o_StartEnqueuedAt := or_else (o_StartEnqueuedAt m) (UTC at_) |>).

Definition RenewExecutionLease (scope : JobScope) (commandID : string) (tokenHash : bytes) (expectedExecutionRevision : Z) (at_ deadline : time) : Tx Z :=
  _ ← require (Scope_Validate scope && negb (blank commandID) && negb (expectedExecutionRevision =? 0) && negb (IsZero at_) && After deadline at_) ErrInvalidCommandPayload;
  updated ← update_scoped scope commandID
    (fun m => started_phase (o_Phase m) && bool_decide (o_ExecutionTokenHash m = tokenHash) && (o_ExecutionRevision m =? expectedExecutionRevision))
    (renewed_message at_ deadline);
  _ ← require updated ErrConflict;
  row ← read (scoped_row scope commandID);
  r ← found row ErrConflict;
  mret (o_RecoveryRevision (message r)).

(** *** Cancellation *)

(** [requestCommandCancellationSQL] on one row. *)
Definition cancellation_requested (at_ : time) (reason : string) (m : OutboxMessage) : OutboxMessage :=
  m <| o_CancellationReason := if null (o_CancellationRequestedAt m) then reason else o_CancellationReason m |>
    <| o_CancellationRequestedAt := or_else (o_CancellationRequestedAt m) at_ |>
    <| o_CancellationAvailableAt := or_else (o_CancellationAvailableAt m) at_ |> <| o_LeasedUntil := None |>
    <| o_Phase := if started_phase (o_Phase m) then CommandPhaseCancelling else o_Phase m |>.

Definition open_commands (scope : JobScope) (jobID : string) (t : tables) : list outboxRow :=
  filter (fun r => (bool_decide (o_Scope (message r) = scope) && bool_decide (o_JobID (message r) = jobID) && open_status (o_CommandStatus (message r))) = true)
    (snd <$> map_to_list (outbox t)).

(** [requestCancel] without a response snapshot. *)
Definition RequestCancel (scope : JobScope) (id actor : string) (currentVersion : Z) (at_ : time) : Tx Job :=
  _ ← require (Scope_Validate scope && negb (blank id) && negb (blank actor) && negb (currentVersion <? 1) && negb (IsZero at_)) ErrInvalidTransition;
  next ← transitionInTx {| t_Scope := scope; t_JobID := id; t_CurrentVersion := currentVersion; t_To := StatusCancelling; t_Progress := None;
                           t_TargetResults := None; t_ErrorSummary := EmptyString; t_ResultSummary := EmptyString; t_Artifacts := None; t_Actor := actor;
                           t_At := UTC at_ |};
  rows ← read (open_commands scope id);
  _ ← write_rows ((fun r => r <| message ::= cancellation_requested (UTC at_) "job cancellation requested" |>) <$> rows);
  mret next.

Definition DeferCancellation (scope : JobScope) (id : string) (availableAt : time) : Tx unit :=
  execScopedCommand scope id (fun m => negb (null (o_CancellationRequestedAt m)) && open_status (o_CommandStatus m))
    (fun m => m <| o_CancellationAvailableAt := Some (stored_time (UTC availableAt)) |> <| o_CancellationLeasedUntil := None |>).

Definition RenewCommandLease (scope : JobScope) (id : string) (at_ deadline : time) : Tx unit :=
  _ ← require (negb (IsZero at_) && After deadline at_) ErrInvalidCommandPayload;
  execScopedCommand scope id (fun m => bool_decide (o_CommandStatus m = CommandActive))
    (fun m => m <| o_LastHeartbeatAt := Some (stored_time (UTC at_)) |> <| o_ExecutionDeadline := Some (stored_time (UTC deadline)) |> <| o_RecoveryLeasedUntil := None |>).

Definition MarkOutboxPublished (scope : JobScope) (id : string) (at_ : time) : Tx unit :=
  _ ← require (Scope_Validate scope) ErrExternal;
  _ ← require (negb (blank id) && negb (IsZero at_)) ErrNotFound;
  execScopedCommand scope id (fun _ => true) (fun m => m <| o_PublishedAt := or_else (o_PublishedAt m) (UTC at_) |> <| o_LeasedUntil := None |>).

(** *** Terminal commands *)

(** The lease and deadline columns a terminal command gives up. *)
Definition clear_leases (m : OutboxMessage) : OutboxMessage := clear_recovery m <| o_ExecutionDeadline := None |> <| o_CancellationLeasedUntil := None |>.

Definition MarkCommandTerminal (scope : JobScope) (id : string) (status : CommandStatus) (at_ : time) : Tx unit :=
  _ ← require (terminalCommandStatus status && negb (IsZero at_)) ErrInvalidCommandPayload;
  execScopedCommand scope id
    (fun m => open_status (o_CommandStatus m) || bool_decide (o_CommandStatus m = CommandRejected) || bool_decide (o_CommandStatus m = status))
    (fun m => clear_leases (m <| o_CommandStatus := status |> <| o_Phase := phaseForCommandStatus status |> <| o_TerminalAt := or_else (o_TerminalAt m) (UTC at_) |>
                              <| o_PublishedAt := or_else (o_PublishedAt m) (UTC at_) |> <| o_LeasedUntil := None |>)).

Definition terminalAuditDetailsEqual (left right : AuditDetail) : bool := bool_decide (detail_text left = detail_text right).

Definition terminalEvidenceCompatible (m : OutboxMessage) (input : TerminalCommand) : bool :=
  let target := tc_Target input in
  let audit := tc_Audit input in
  (bool_decide (o_TerminalTargetStatus m = TargetUnset)
   || bool_decide (o_TerminalTargetStatus m = tr_Status target) && bool_decide (o_TerminalTargetError m = tr_ErrorSummary target)
      && bool_decide (o_TerminalTargetResult m = tr_ResultSummary target) && artifactReferencesEqual (o_TerminalTargetArtifacts m) (tr_Artifacts target))
  && (empty_string (o_TerminalAuditDedupeKey m)
      || bool_decide (o_TerminalAuditDedupeKey m = a_DedupeKey audit) && bool_decide (o_TerminalAuditAction m = a_Action audit)
         && bool_decide (o_TerminalAuditResult m = a_Result audit) && terminalAuditDetailsEqual (o_TerminalAuditDetail m) (a_Detail audit)).

(** The target and audit columns of a terminal command. *)
Definition evidence (input : TerminalCommand) (artifacts : list ArtifactReference) (detail : AuditDetail) (m : OutboxMessage) : OutboxMessage :=
  m <| o_TerminalTargetStatus := tr_Status (tc_Target input) |> <| o_TerminalTargetError := tr_ErrorSummary (tc_Target input) |>
    <| o_TerminalTargetResult := tr_ResultSummary (tc_Target input) |> <| o_TerminalTargetArtifacts := artifacts |> <| o_TerminalReconcilePending := true |>
    <| o_TerminalAuditPending := null (o_TerminalAuditRecordedAt m) |> <| o_TerminalAuditDedupeKey := a_DedupeKey (tc_Audit input) |>
    <| o_TerminalAuditAction := a_Action (tc_Audit input) |> <| o_TerminalAuditResult := a_Result (tc_Audit input) |> <| o_TerminalAuditDetail := detail |>
    <| o_TerminalAuditLeasedUntil := if null (o_TerminalAuditRecordedAt m) then None else o_TerminalAuditLeasedUntil m |>.

(** The checks of [PersistTerminalCommand] on the locked row. *)
Definition terminal_admissible (m : OutboxMessage) (input : TerminalCommand) : bool :=
  if terminalCommandStatus (o_CommandStatus m) then bool_decide (o_CommandStatus m = tc_Status input)
  else negb (bool_decide (tc_Status input = CommandRejected)) || null (o_CancellationRequestedAt m) && prestart_phase (o_Phase m).

Definition terminal_message (input : TerminalCommand) (artifacts : list ArtifactReference) (detail : AuditDetail) (m : OutboxMessage) : OutboxMessage :=
  evidence input artifacts detail
    (clear_leases (m <| o_CommandStatus := tc_Status input |> <| o_Phase := phaseForCommandStatus (tc_Status input) |>
       <| o_TerminalAt := or_else (o_TerminalAt m) (UTC (tc_At input)) |> <| o_PublishedAt := or_else (o_PublishedAt m) (UTC (tc_At input)) |>
       <| o_AcknowledgedAt := if bool_decide (tc_Status input = CommandRejected) then or_else (o_AcknowledgedAt m) (UTC (tc_At input)) else o_AcknowledgedAt m |>
       <| o_LeasedUntil := None |>)).

Definition PersistTerminalCommand (input : TerminalCommand) : Tx unit :=
  _ ← require (validateTerminalCommand input) ErrInvalidCommandPayload;
  found_row ← read (scoped_row (tc_Scope input) (tc_CommandID input));
  row ← found found_row ErrNotFound;
  let m := message row in
  found_job ← read (fun t => jobs t !! (tc_Scope input, o_JobID m));
  _ ← found found_job ErrNotFound;
  _ ← require (bool_decide (o_TargetID m = TargetID (tc_Target input))) ErrConflict;
  _ ← require (terminalEvidenceCompatible m input) ErrConflict;
  _ ← require (terminal_admissible m input) ErrConflict;
  artifacts ← found (artifacts_jsonb (tr_Artifacts (tc_Target input))) ErrExternal;
  detail ← found (detail_jsonb (a_Detail (tc_Audit input))) ErrExternal;
  updated ← update_scoped (tc_Scope input) (tc_CommandID input) (fun _ => true) (terminal_message input artifacts detail);
  require updated ErrConflict.

Definition persistTerminalEvidenceTx (input : TerminalCommand) : Tx unit :=
  artifacts ← found (artifacts_jsonb (tr_Artifacts (tc_Target input))) ErrExternal;
  detail ← found (detail_jsonb (a_Detail (tc_Audit input))) ErrExternal;
  updated ← update_scoped (tc_Scope input) (tc_CommandID input)
    (fun m => bool_decide (o_CommandStatus m = tc_Status input) && negb (null (o_TerminalAt m))) (evidence input artifacts detail);
  require updated ErrConflict.

Definition terminal_input (input : TerminalResultCAS) : TerminalCommand :=
  {| tc_Scope := cas_Scope input; tc_CommandID := cas_CommandID input; tc_Status := cas_Status input; tc_Target := cas_Target input;
     tc_Audit := cas_Audit input; tc_At := cas_At input |}.

Definition result_message (input : TerminalResultCAS) (m : OutboxMessage) : OutboxMessage :=
  clear_leases (m <| o_Phase := phaseForCommandStatus (cas_Status input) |> <| o_CommandStatus := cas_Status input |>
    <| o_TerminalResultDigest := cas_ResultDigest input |> <| o_TerminalAt := Some (stored_time (UTC (cas_At input))) |>).

Definition fence_matches (input : TerminalResultCAS) (m : OutboxMessage) : bool :=
  (length (o_ExecutionTokenHash m) =? sha256_Size)%nat && bool_decide (o_ExecutionTokenHash m = cas_TokenHash input)
  && (o_ExecutionRevision m =? cas_ExpectedExecutionRevision input).

(** An interrupted execution that timed out before its result arrived. *)
Definition attaches_digest (input : TerminalResultCAS) (m : OutboxMessage) : bool :=
  bool_decide (o_Phase m = CommandPhaseTimedOut) && bool_decide (o_CommandStatus m = CommandTimedOut) && null_bytes (o_TerminalResultDigest m)
  && cas_AllowTimedOutDigestAttach input.

(** The answer for a command that already is terminal. *)
Definition terminal_result_again (input : TerminalResultCAS) (m : OutboxMessage) : Tx TerminalResultOutcome :=
  let stored_digest := if (length (o_TerminalResultDigest m) =? sha256_Size)%nat then o_TerminalResultDigest m else replicate sha256_Size 0 in
  let base digest persisted duplicate conflict := {| out_CommandID := cas_CommandID input; out_JobID := o_JobID m; out_TargetID := o_TargetID m;
    out_Status := o_CommandStatus m; out_ResultDigest := digest; out_Persisted := persisted; out_Duplicate := duplicate; out_Conflict := conflict |} in
  _ ← require (fence_matches input m) ErrConflict;
  if attaches_digest input m then
    updated ← update_scoped (cas_Scope input) (cas_CommandID input)
      (fun m => bool_decide (o_Phase m = CommandPhaseTimedOut) && bool_decide (o_CommandStatus m = CommandTimedOut) && null_bytes (o_TerminalResultDigest m)
                && bool_decide (o_ExecutionTokenHash m = cas_TokenHash input) && (o_ExecutionRevision m =? cas_ExpectedExecutionRevision input))
      (fun m => m <| o_TerminalResultDigest := cas_ResultDigest input |>);
    _ ← require updated ErrConflict;
    mret (base (cas_ResultDigest input) true true false)
  else if bool_decide (o_CommandStatus m = cas_Status input) && (length (o_TerminalResultDigest m) =? sha256_Size)%nat
          && bool_decide (o_TerminalResultDigest m = cas_ResultDigest input) then
    _ ← require (terminalEvidenceCompatible m (terminal_input input)) ErrConflict;
    _ ← persistTerminalEvidenceTx (terminal_input input);
    mret (base stored_digest true true false)
  else mret (base stored_digest false false true).

Definition PersistTerminalResult (input : TerminalResultCAS) : Tx TerminalResultOutcome :=
  _ ← require (negb (cas_ExpectedExecutionRevision input =? 0) && negb (bool_decide (cas_Status input = CommandRejected))
               && negb (cas_AllowTimedOutDigestAttach input && negb (bool_decide (cas_Status input = CommandTimedOut)))
               && validateTerminalCommand (terminal_input input)) ErrInvalidCommandPayload;
  found_row ← read (scoped_row (cas_Scope input) (cas_CommandID input));
  row ← found found_row ErrNotFound;
  let m := message row in
  found_job ← read (fun t => jobs t !! (cas_Scope input, o_JobID m));
  _ ← found found_job ErrNotFound;
  _ ← require (bool_decide (o_TargetID m = TargetID (cas_Target input))) ErrConflict;
  if terminal_phase (o_Phase m) then terminal_result_again input m
  else
    _ ← require (fence_matches input m && started_phase (o_Phase m)) ErrConflict;
    updated ← update_scoped (cas_Scope input) (cas_CommandID input)
      (fun m => started_phase (o_Phase m) && bool_decide (o_ExecutionTokenHash m = cas_TokenHash input)
                && (o_ExecutionRevision m =? cas_ExpectedExecutionRevision input))
      (result_message input);
    _ ← require updated ErrConflict;
    _ ← persistTerminalEvidenceTx (terminal_input input);
    mret {| out_CommandID := cas_CommandID input; out_JobID := o_JobID m; out_TargetID := o_TargetID m; out_Status := cas_Status input;
            out_ResultDigest := cas_ResultDigest input; out_Persisted := true; out_Duplicate := false; out_Conflict := false |}.

Definition MarkTerminalAuditRecorded (scope : JobScope) (commandID dedupeKey : string) (at_ : time) : Tx unit :=
  _ ← require (Scope_Validate scope && negb (blank commandID) && negb (blank dedupeKey) && negb (IsZero at_)) ErrInvalidCommandPayload;
  execScopedCommand scope commandID (fun m => bool_decide (o_TerminalAuditDedupeKey m = dedupeKey))
    (fun m => m <| o_TerminalAuditPending := false |> <| o_TerminalAuditLeasedUntil := None |>
                <| o_TerminalAuditRecordedAt := or_else (o_TerminalAuditRecordedAt m) (UTC at_) |>).

(** *** Expired executions *)

Definition matchingRecoveryClaim (m : OutboxMessage) (claim : RecoveryClaim) : bool :=
  started_phase (o_Phase m)
  && match o_ExecutionDeadline m with Some d => TimeEqual d (c_ClaimedDeadline claim) | None => false end
  && match o_RecoveryClaimedDeadline m with Some d => TimeEqual d (c_ClaimedDeadline claim) | None => false end
  && (o_RecoveryRevision m =? c_ClaimedRecoveryRevision claim) && (o_RecoveryClaimedRevision m =? c_ClaimedRecoveryRevision claim)
  && bool_decide (o_RecoveryClaimToken m = c_ClaimToken claim).

Definition expired_execution (at_ : time) (r : outboxRow) : bool :=
  let m := message r in
  started_phase (o_Phase m) && due (o_ExecutionDeadline m) at_
  && (null_bytes (o_RecoveryClaimToken m) || match o_RecoveryLeasedUntil m with Some l => time_le l (pg_time at_) | None => false end).

Definition recovery_claim (token : bytes) (m : OutboxMessage) : RecoveryClaim :=
  {| c_Scope := o_Scope m; c_CommandID := o_ID m; c_JobID := o_JobID m; c_TargetID := o_TargetID m; c_ClaimToken := token;
     c_ClaimedDeadline := UTC (default zero_time (o_ExecutionDeadline m)); c_ClaimedRecoveryRevision := o_RecoveryRevision m |}.

Definition claim_recovery (claim : RecoveryClaim) (at_ : time) (m : OutboxMessage) : OutboxMessage :=
  m <| o_RecoveryClaimToken := c_ClaimToken claim |> <| o_RecoveryClaimedDeadline := Some (stored_time (c_ClaimedDeadline claim)) |>
    <| o_RecoveryClaimedRevision := c_ClaimedRecoveryRevision claim |> <| o_RecoveryLeasedUntil := lease_until at_ |>.

(** The guards of the update compare the row that was just read and locked. *)
Fixpoint claim_executions (at_ : time) (rows : list outboxRow) (tokens : list bytes) : Tx (list RecoveryClaim) :=
  match rows, tokens with
  | [], _ => mret []
  | _, [] => rollback ErrExternal
  | r :: rest, token :: tokens =>
      let claim := recovery_claim token (message r) in
      _ ← write_row (r <| message ::= claim_recovery claim at_ |>);
      claims ← claim_executions at_ rest tokens;
      mret (claim :: claims)
  end.

(** [tokens] are the values of the random source. *)
Definition ClaimExpiredExecution (limit : Z) (at_ : time) (tokens : list bytes) (locked : gset string) : Tx (list RecoveryClaim) :=
  _ ← require (negb ((limit <=? 0) || IsZero at_)) ErrInvalidCommandPayload;
  rows ← read (candidates (expired_execution at_) [by_deadline] limit locked);
  claim_executions at_ rows tokens.

Definition plain_transition (value : Job) (to : Status) (actor : string) (updates : option (list TargetResult)) (at_ : time) : Transition :=
  {| t_Scope := j_Scope value; t_JobID := j_ID value; t_CurrentVersion := j_Version value; t_To := to; t_Progress := None; t_TargetResults := updates;
     t_ErrorSummary := EmptyString; t_ResultSummary := EmptyString; t_Artifacts := None; t_Actor := actor; t_At := at_ |}.

Definition finish_transition (value : Job) (at_ : time) : Transition :=
  {| t_Scope := j_Scope value; t_JobID := j_ID value; t_CurrentVersion := j_Version value; t_To := terminalJobStatus value; t_Progress := None;
     t_TargetResults := None; t_ErrorSummary := EmptyString; t_ResultSummary := "Agent commands completed";
     t_Artifacts := Some (collectArtifacts (j_TargetResults value)); t_Actor := EmptyString; t_At := at_ |}.

Definition timed_out_target (target : string) (at_ : time) : TargetResult :=
  {| TargetID := target; tr_Status := TargetTimedOut; tr_ErrorSummary := "execution lease expired"; tr_ResultSummary := EmptyString; tr_Artifacts := [];
     tr_FinishedAt := Some at_ |}.

(** A job that is being cancelled stays so while its targets finish. *)
Definition record_status (value : Job) : Status * string :=
  if bool_decide (j_Status value = StatusCancelling) then (StatusCancelling, j_CancelRequestedBy value) else (StatusRunning, EmptyString).

Definition timeoutJobTargetInTx (current : Job) (m : OutboxMessage) (at_ : time) : Tx Job :=
  _ ← require (bool_decide (j_ID current = o_JobID m) && bool_decide (j_Scope current = o_Scope m)
               && containsTarget (j_TargetResourceIDs current) (o_TargetID m)) ErrInvalidCommandPayload;
  if isTerminal (j_Status current) then
    if bool_decide (j_Status current = StatusTimedOut)
       && match targetFor (j_TargetResults current) (o_TargetID m) with Some r => bool_decide (tr_Status r = TargetTimedOut) | None => false end
    then mret current else rollback ErrConflict
  else
    current ← (if bool_decide (j_Status current = StatusQueued) then transitionInTx (plain_transition current StatusDispatched EmptyString None at_)
               else mret current);
    let existing := targetFor (j_TargetResults current) (o_TargetID m) in
    current ← match existing with
              | Some r => if isTerminalTarget (tr_Status r) then (if bool_decide (tr_Status r = TargetTimedOut) then mret current else rollback ErrConflict)
                          else transitionInTx (plain_transition current (fst (record_status current)) (snd (record_status current))
                                                 (Some [timed_out_target (o_TargetID m) at_]) at_)
              | None => transitionInTx (plain_transition current (fst (record_status current)) (snd (record_status current))
                                          (Some [timed_out_target (o_TargetID m) at_]) at_)
              end;
    if allTargetsTerminal current then transitionInTx (finish_transition current at_) else mret current.

(** The columns both kinds of timeout write. *)
Definition timed_out_message (key action : string) (detail : AuditDetail) (at_ : time) (m : OutboxMessage) : OutboxMessage :=
  m <| o_Phase := CommandPhaseTimedOut |> <| o_CommandStatus := CommandTimedOut |> <| o_TerminalAt := Some (stored_time at_) |>
    <| o_ExecutionDeadline := None |> <| o_RecoveryLeasedUntil := None |> <| o_CancellationLeasedUntil := None |> <| o_TerminalAuditPending := true |>
    <| o_TerminalAuditDedupeKey := key |> <| o_TerminalAuditAction := action |> <| o_TerminalAuditResult := "failure" |> <| o_TerminalAuditDetail := detail |>
    <| o_TerminalAuditLeasedUntil := None |> <| o_TerminalAuditAttempts := 0 |> <| o_TerminalAuditRecordedAt := None |>
    <| o_TerminalTargetStatus := TargetTimedOut |> <| o_TerminalTargetError := "execution lease expired" |> <| o_TerminalTargetResult := EmptyString |>
    <| o_TerminalTargetArtifacts := [] |> <| o_TerminalReconcilePending := false |>.

Definition FinalizeExpiredExecution (claim : RecoveryClaim) (at_ : time) : Tx unit :=
  _ ← require (Scope_Validate (c_Scope claim) && negb (blank (c_CommandID claim)) && negb (blank (c_JobID claim)) && negb (blank (c_TargetID claim))
               && negb (IsZero (c_ClaimedDeadline claim)) && negb (c_ClaimedRecoveryRevision claim =? 0) && negb (IsZero at_)) ErrInvalidCommandPayload;
  let at_ := UTC at_ in
  value ← load_job (c_Scope claim) (c_JobID claim);
  found_row ← read (scoped_row (c_Scope claim) (c_CommandID claim));
  row ← found found_row ErrNotFound;
  let m := message row in
  _ ← require (bool_decide (o_JobID m = c_JobID claim) && bool_decide (o_TargetID m = c_TargetID claim) && matchingRecoveryClaim m claim) ErrConflict;
  _ ← timeoutJobTargetInTx value m at_;
  detail ← found (detail_jsonb {[ "reason"%string := AText "execution_deadline" ]}) ErrExternal;
  updated ← update_scoped (c_Scope claim) (c_CommandID claim) (fun m => matchingRecoveryClaim m claim)
    (fun m => clear_recovery (timed_out_message ("command.execution_timed_out:" +:+ o_ID m) "command.execution_timed_out" detail at_ m));
  require updated ErrConflict.

Definition FinalizeExpiredPrepared (scope : JobScope) (commandID : string) (expectedDigest : bytes) (expiresAt at_ : time) : Tx unit :=
  _ ← require (Scope_Validate scope && negb (blank commandID) && negb (IsZero expiresAt) && negb (IsZero at_) && negb (After expiresAt at_)) ErrInvalidCommandPayload;
  let at_ := UTC at_ in
  found_row ← read (scoped_row scope commandID);
  row ← found found_row ErrNotFound;
  let m := message row in
  value ← load_job scope (o_JobID m);
  _ ← require ((length (o_PrepareDigest m) =? sha256_Size)%nat && bool_decide (o_PrepareDigest m = expectedDigest)) ErrConflict;
  if bool_decide (o_Phase m = CommandPhaseTimedOut) then
    require match targetFor (j_TargetResults value) (o_TargetID m) with Some r => bool_decide (tr_Status r = TargetTimedOut) | None => false end ErrConflict
  else
    _ ← require (bool_decide (o_Phase m = CommandPhasePrepared)) ErrConflict;
    _ ← timeoutJobTargetInTx value m at_;
    detail ← found (detail_jsonb {[ "reason"%string := AText "prepare_envelope_expiry"; "expires_at"%string := ATime (UTC expiresAt) ]}) ErrExternal;
    updated ← update_scoped scope commandID (fun m => bool_decide (o_Phase m = CommandPhasePrepared) && bool_decide (o_PrepareDigest m = expectedDigest))
      (fun m => timed_out_message ("command.prepared_envelope_expired:" +:+ o_ID m) "command.prepared_envelope_expired" detail at_ m <| o_LeasedUntil := None |>);
    require updated ErrConflict.

(** *** Reconciliation of terminal commands with their jobs *)

Definition terminalTargetFromOutbox (m : OutboxMessage) : outcome (TargetResult * bool) :=
  match o_TerminalAt m with
  | Some terminal =>
      if negb (terminalCommandStatus (o_CommandStatus m)) then Err ErrInvalidCommandPayload
      else
        let described := negb (bool_decide (o_TerminalTargetStatus m = TargetUnset)) in
        let base status error summary := {| TargetID := o_TargetID m; tr_Status := status; tr_ErrorSummary := error; tr_ResultSummary := summary;
          tr_Artifacts := o_TerminalTargetArtifacts m; tr_FinishedAt := Some (UTC terminal) |} in
        let target :=
          if described then base (o_TerminalTargetStatus m) (o_TerminalTargetError m) (o_TerminalTargetResult m)
          else match o_CommandStatus m with
               | CommandSucceeded => base TargetSucceeded (o_TerminalTargetError m) "Agent command succeeded"%string
               | CommandCancelled => base TargetCancelled (o_TerminalTargetError m) "Agent command cancelled"%string
               | CommandTimedOut => base TargetTimedOut "command_timed_out"%string "Agent command failed"%string
               | CommandRejected => base TargetFailed "command_rejected"%string "Agent command failed"%string
               | _ => base TargetFailed "command_failed"%string "Agent command failed"%string
               end in
        if negb (isTerminalTarget (tr_Status target)) || negb (terminalTargetMatchesCommand (tr_Status target) (o_CommandStatus m)) then Err (JobErr ErrConflict)
        else Ok (target, described)
  | None => Err ErrInvalidCommandPayload
  end.

(** [COALESCE(terminal_reconcile_available_at, terminal_at, created_at)] *)
Definition reconcile_key (r : outboxRow) : option time :=
  match reconcile_available_at r, o_TerminalAt (message r) with Some a, _ => Some a | None, Some a => Some a | None, None => Some (o_CreatedAt (message r)) end.

Definition reconcilable (t : tables) (at_ : time) (r : outboxRow) : bool :=
  let m := message r in
  match jobs t !! (o_Scope m, o_JobID m), targets t !! (o_Scope m, o_JobID m, o_TargetID m) with
  | Some value, Some target =>
      terminalCommandStatus (o_CommandStatus m) && null (reconcile_quarantined_at r) && due (reconcile_key r) at_
      && lease_free (reconcile_lease_expires_at r) at_
      && (o_TerminalReconcilePending m || negb (isTerminal (j_Status value)) || negb (isTerminalTarget (tr_Status target)))
  | _, _ => false
  end.

(** [claimTerminalCommands]; one random [token] for all rows. *)
Definition claimTerminalCommands (limit : Z) (at_ : time) (token : bytes) (locked : gset string) : Tx (list terminalReconcileClaim) :=
  _ ← require (negb ((limit <? 1) || (1024 <? limit) || IsZero at_)) ErrInvalidCommandPayload;
  rows ← (fun t => Ok (candidates (reconcilable t at_) [reconcile_key; by_terminal; by_created] limit locked t, t));
  let lease := stored_time (AddDuration (UTC at_) terminalReconcileLease) in
  _ ← write_rows ((fun r => r <| reconcile_lease_expires_at := Some lease |> <| reconcile_claim_token := token |> <| reconcile_attempts ::= Z.succ |>) <$> rows);
  mret ((fun r => {| rc_scope := o_Scope (message r); rc_jobID := o_JobID (message r); rc_commandID := o_ID (message r); rc_token := token;
                     rc_leaseExpiresAt := lease |}) <$> merge_sort (row_le [reconcile_key]) rows).

Definition owns_reconciliation (claim : terminalReconcileClaim) (r : outboxRow) : bool :=
  (length (rc_token claim) =? sha256_Size)%nat && bool_decide (reconcile_claim_token r = rc_token claim)
  && match reconcile_lease_expires_at r with Some l => TimeEqual l (rc_leaseExpiresAt claim) | None => false end.

Definition reconciled_row (target : TargetResult) (artifacts : list ArtifactReference) (r : outboxRow) : outboxRow :=
  r <| message ::= (fun m => m <| o_TerminalTargetStatus := tr_Status target |> <| o_TerminalTargetError := tr_ErrorSummary target |>
         <| o_TerminalTargetResult := tr_ResultSummary target |> <| o_TerminalTargetArtifacts := artifacts |> <| o_TerminalReconcilePending := false |>) |>
    <| reconcile_available_at := None |> <| reconcile_lease_expires_at := None |> <| reconcile_claim_token := [] |> <| reconcile_quarantined_at := None |>
    <| reconcile_quarantine_reason := EmptyString |>.

Definition operation_row (scope : JobScope) (jobID commandID : string) (t : tables) : option outboxRow :=
  match scoped_row scope commandID t with Some r => if bool_decide (o_JobID (message r) = jobID) then Some r else None | None => None end.

(** The target row of a command whose job is open, after the job has been dispatched. *)
Definition record_target (at_ : time) (current : Job) (target : TargetResult) : Tx (Job * TargetResult) :=
  current ← (if bool_decide (j_Status current = StatusQueued) then transitionInTx (plain_transition current StatusDispatched EmptyString None at_)
             else mret current);
  current ← transitionInTx (plain_transition current (fst (record_status current)) (snd (record_status current)) (Some [target]) at_);
  mret (current, target).

Definition reconcileTerminalCommand (claim : terminalReconcileClaim) (at_ : time) : Tx unit :=
  current ← load_job (rc_scope claim) (rc_jobID claim);
  found_row ← read (operation_row (rc_scope claim) (rc_jobID claim) (rc_commandID claim));
  row ← found found_row ErrNotFound;
  let m := message row in
  _ ← require (owns_reconciliation claim row) ErrConflict;
  _ ← require (terminalCommandStatus (o_CommandStatus m) && negb (null (o_TerminalAt m)) && containsTarget (j_TargetResourceIDs current) (o_TargetID m)) ErrConflict;
  described ← match terminalTargetFromOutbox m with Ok x => mret x | Err e => rollback e end;
  let target := fst described in
  outcome ← match targetFor (j_TargetResults current) (o_TargetID m) with
            | Some existing =>
                if isTerminalTarget (tr_Status existing) then
                  if negb (bool_decide (tr_Status existing = tr_Status target)) || snd described && negb (matchingTerminalTarget existing target)
                  then rollback ErrConflict else mret (current, existing)
                else if isTerminal (j_Status current) then rollback ErrConflict
                else record_target at_ current target
            | None => if isTerminal (j_Status current) then rollback ErrConflict else record_target at_ current target
            end;
  let current := fst outcome in
  let target := snd outcome in
  current ← (if allTargetsTerminal current && negb (isTerminal (j_Status current)) then transitionInTx (finish_transition current at_) else mret current);
  _ ← require (negb (isTerminal (j_Status current) && negb (bool_decide (j_Status current = terminalJobStatus current)))) ErrConflict;
  artifacts ← found (artifacts_jsonb (tr_Artifacts target)) ErrExternal;
  latest ← read (operation_row (rc_scope claim) (rc_jobID claim) (rc_commandID claim));
  r ← found latest ErrConflict;
  _ ← require (bool_decide (o_CommandStatus (message r) = o_CommandStatus m) && owns_reconciliation claim r) ErrConflict;
  write_row (reconciled_row target artifacts r).

(** [recordTerminalReconcileFailure]; a conflict or an invalid state is final, other failures are retried with a growing delay. *)
Definition failure_reason (cause : CommandError) : string :=
  match cause with
  | JobErr ErrConflict => "terminal_state_conflict"
  | ErrInvalidCommandPayload | JobErr ErrNotFound => "invalid_terminal_state"
  | _ => EmptyString
  end.

Definition failed_row (reason : string) (at_ : time) (r : outboxRow) : outboxRow :=
  let final := negb (empty_string reason) || (terminalReconcileMaxAttempts <=? reconcile_attempts r) in
  r <| reconcile_lease_expires_at := None |> <| reconcile_claim_token := [] |>
    <| reconcile_available_at := if final then reconcile_available_at r
                                 else Some (AddDuration (stored_time at_) (Z.min (reconcile_attempts r) 60 * second)) |>
    <| reconcile_quarantined_at := if final then or_else (reconcile_quarantined_at r) at_ else None |>
    <| reconcile_quarantine_reason := if negb (empty_string reason) then reason
                                      else if terminalReconcileMaxAttempts <=? reconcile_attempts r then "retry_exhausted" else EmptyString |>.

Definition recordTerminalReconcileFailure (claim : terminalReconcileClaim) (at_ : time) (cause : CommandError) : Tx unit :=
  row ← read (scoped_row (rc_scope claim) (rc_commandID claim));
  r ← found row ErrConflict;
  _ ← require (terminalCommandStatus (o_CommandStatus (message r)) && bool_decide (reconcile_claim_token r = rc_token claim)
               && match reconcile_lease_expires_at r with Some l => TimeEqual l (rc_leaseExpiresAt claim) | None => false end) ErrConflict;
  write_row (failed_row (failure_reason cause) at_ r).

(** *** Commands of an agent *)

Definition listed (pred : OutboxMessage -> bool) (keys : list (outboxRow -> option time)) (limit : Z) (t : tables) : list OutboxMessage :=
  message <$> take (Z.to_nat limit) (merge_sort (row_le keys) (filter (fun r => pred (message r) = true) (snd <$> map_to_list (outbox t)))).

Definition agent_query (agentID : string) (limit : Z) (pred : OutboxMessage -> bool) (keys : list (outboxRow -> option time)) : Tx (list OutboxMessage) :=
  _ ← require (negb (blank agentID) && (0 <? limit)) ErrInvalidCommandPayload;
  read (listed (fun m => bool_decide (o_TargetID m = agentID) && pred m) keys limit).

Definition PendingCancellationsForAgent (agentID : string) (limit : Z) : Tx (list OutboxMessage) :=
  agent_query agentID limit (fun m => negb (null (o_CancellationRequestedAt m)) && open_phase (o_Phase m)) [by_created].
Definition PreparedCommandsForAgent (agentID : string) (limit : Z) : Tx (list OutboxMessage) :=
  agent_query agentID limit (fun m => bool_decide (o_Phase m = CommandPhasePrepared) || bool_decide (o_Phase m = CommandPhaseStartAuthorized)) [by_prepared; by_created].
Definition PendingTerminalAuditsForAgent (agentID : string) (limit : Z) : Tx (list OutboxMessage) :=
  agent_query agentID limit o_TerminalAuditPending [by_terminal].
End repository.

(** ** The interface of the repository *)

(** The calls of [Repository] and [DispatchRepository], by the type of their result. *)
Inductive repo_call : Type -> Type :=
  | RCreate (authorized : OutboxMessage -> bool) (value : Job) (messages : list OutboxMessage) : repo_call unit
  | RGet (scope : JobScope) (id : string) : repo_call Job
  | RTransition (transition : Transition) : repo_call Job
  | RRequestCancel (scope : JobScope) (id actor : string) (currentVersion : Z) (at_ : time) : repo_call Job
  | RClaimOutbox (limit : Z) (at_ : time) : repo_call (list OutboxMessage)
  | RReservePrepareSlot (scope : JobScope) (id : string) (at_ : time) : repo_call bool
  | RLookupCommand (id : string) : repo_call OutboxMessage
  | RPrepareCommandEnvelope (scope : JobScope) (id : string) (proposed : bytes) : repo_call bytes
  | RClaimPreparedCommands (limit : Z) (at_ : time) : repo_call (list OutboxMessage)
  | RPreparedCommandsForAgent (agentID : string) (limit : Z) : repo_call (list OutboxMessage)
  | RMarkPrepared (scope : JobScope) (id : string) (digest : bytes) (at_ : time) : repo_call unit
  | RAuthorizeStart (scope : JobScope) (id : string) (digest tokenHash ciphertext : bytes) (at_ deadline : time) : repo_call StartGrant
  | RMarkStartEnqueued (scope : JobScope) (id : string) (revision : Z) (at_ : time) : repo_call unit
  | RRenewExecutionLease (scope : JobScope) (id : string) (tokenHash : bytes) (revision : Z) (at_ deadline : time) : repo_call Z
  | RClaimExpiredExecution (limit : Z) (at_ : time) : repo_call (list RecoveryClaim)
  | RFinalizeExpiredExecution (claim : RecoveryClaim) (at_ : time) : repo_call unit
  | RFinalizeExpiredPrepared (scope : JobScope) (id : string) (digest : bytes) (expiresAt at_ : time) : repo_call unit
  | RClaimPendingTerminalAudits (limit : Z) (at_ : time) : repo_call (list OutboxMessage)
  | RPendingTerminalAuditsForAgent (agentID : string) (limit : Z) : repo_call (list OutboxMessage)
  | RMarkTerminalAuditRecorded (scope : JobScope) (id key : string) (at_ : time) : repo_call unit
  | RPersistTerminalResult (input : TerminalResultCAS) : repo_call TerminalResultOutcome
  | RClaimPendingCancellations (limit : Z) (at_ : time) : repo_call (list OutboxMessage)
  | RDeferCancellation (scope : JobScope) (id : string) (availableAt : time) : repo_call unit
  | RRenewCommandLease (scope : JobScope) (id : string) (at_ deadline : time) : repo_call unit
  | RClaimExpiredCommands (limit : Z) (at_ : time) : repo_call (list OutboxMessage)
  | RPersistTerminalCommand (input : TerminalCommand) : repo_call unit
  | RMarkCommandTerminal (scope : JobScope) (id : string) (status : CommandStatus) (at_ : time) : repo_call unit
  | RMarkOutboxPublished (scope : JobScope) (id : string) (at_ : time) : repo_call unit
  | RPendingCancellationsForAgent (agentID : string) (limit : Z) : repo_call (list OutboxMessage)
  | RClaimTerminalCommands (limit : Z) (at_ : time) : repo_call (list terminalReconcileClaim)
  | RReconcileTerminalCommand (claim : terminalReconcileClaim) (at_ : time) : repo_call unit
  | RRecordTerminalReconcileFailure (claim : terminalReconcileClaim) (at_ : time) (cause : CommandError) : repo_call unit.

(** What one call meets: how its transaction ends, the rows others hold, and the random values it draws. *)
Record circumstance := { ends : verdict; locked_rows : gset string; draws : list bytes }.

Section interface.
Context `{JobDatabase}.

Definition body {A} (c : repo_call A) (x : circumstance) : Tx A :=
  match c in repo_call A return Tx A with
  | RCreate authorized value messages => CreateInTx authorized value messages
  | RGet scope id => Get scope id
  | RTransition transition => Repository_Transition transition
  | RRequestCancel scope id actor version at_ => RequestCancel scope id actor version at_
  | RClaimOutbox limit at_ => ClaimOutbox limit at_ (locked_rows x)
  | RReservePrepareSlot scope id at_ => ReservePrepareSlot scope id at_
  | RLookupCommand id => LookupCommand id
  | RPrepareCommandEnvelope scope id proposed => PrepareCommandEnvelope scope id proposed
  | RClaimPreparedCommands limit at_ => ClaimPreparedCommands limit at_ (locked_rows x)
  | RPreparedCommandsForAgent agentID limit => PreparedCommandsForAgent agentID limit
  | RMarkPrepared scope id digest at_ => MarkPrepared scope id digest at_
  | RAuthorizeStart scope id digest hash ciphertext at_ deadline => AuthorizeStart scope id digest hash ciphertext at_ deadline
  | RMarkStartEnqueued scope id revision at_ => MarkStartEnqueued scope id revision at_
  | RRenewExecutionLease scope id hash revision at_ deadline => RenewExecutionLease scope id hash revision at_ deadline
  | RClaimExpiredExecution limit at_ => ClaimExpiredExecution limit at_ (draws x) (locked_rows x)
  | RFinalizeExpiredExecution claim at_ => FinalizeExpiredExecution claim at_
  | RFinalizeExpiredPrepared scope id digest expiresAt at_ => FinalizeExpiredPrepared scope id digest expiresAt at_
  | RClaimPendingTerminalAudits limit at_ => ClaimPendingTerminalAudits limit at_ (locked_rows x)
  | RPendingTerminalAuditsForAgent agentID limit => PendingTerminalAuditsForAgent agentID limit
  | RMarkTerminalAuditRecorded scope id key at_ => MarkTerminalAuditRecorded scope id key at_
  | RPersistTerminalResult input => PersistTerminalResult input
  | RClaimPendingCancellations limit at_ => ClaimPendingCancellations limit at_ (locked_rows x)
  | RDeferCancellation scope id availableAt => DeferCancellation scope id availableAt
  | RRenewCommandLease scope id at_ deadline => RenewCommandLease scope id at_ deadline
  | RClaimExpiredCommands limit at_ => ClaimExpiredCommands limit at_ (locked_rows x)
  | RPersistTerminalCommand input => PersistTerminalCommand input
  | RMarkCommandTerminal scope id status at_ => MarkCommandTerminal scope id status at_
  | RMarkOutboxPublished scope id at_ => MarkOutboxPublished scope id at_
  | RPendingCancellationsForAgent agentID limit => PendingCancellationsForAgent agentID limit
  | RClaimTerminalCommands limit at_ => claimTerminalCommands limit at_ (hd [] (draws x)) (locked_rows x)
  | RReconcileTerminalCommand claim at_ => reconcileTerminalCommand claim at_
  | RRecordTerminalReconcileFailure claim at_ cause => recordTerminalReconcileFailure claim at_ cause
  end.

(** The calls that report a lost commit as ambiguous; the answers to repeated calls are not. *)
Definition lost_error {A} (c : repo_call A) (t : tables) : CommandError :=
  let unless repeated scope id := match scoped_row scope id t with
    | Some r => if (repeated (message r) : bool) then ErrExternal else JobErr ErrAmbiguousCommit
    | None => JobErr ErrAmbiguousCommit
    end in
  match c with
  | RTransition _ | RRequestCancel _ _ _ _ _ | RFinalizeExpiredExecution _ _ | RPersistTerminalCommand _ => JobErr ErrAmbiguousCommit
  | RAuthorizeStart scope id _ _ _ _ _ => unless (fun m => started_phase (o_Phase m)) scope id
  | RFinalizeExpiredPrepared scope id _ _ _ => unless (fun m => bool_decide (o_Phase m = CommandPhaseTimedOut)) scope id
  | RPersistTerminalResult input => unless (fun m => terminal_phase (o_Phase m) && negb (attaches_digest input m)) (cas_Scope input) (cas_CommandID input)
  | _ => ErrExternal
  end.

Definition exec {A} (c : repo_call A) (x : circumstance) (t : tables) : outcome A * tables := perform (lost_error c t) (body c x) (ends x) t.
End interface.
