(* ===== verification/CommandPhases.v ===== *)
(** * The life of a command in the repository

    What [JobRepository] promises to its callers about one command, whatever
    calls are made in whatever order, by how many control planes, and however
    the database ends their transactions.

    - The phases refine an abstract machine: pending, preparing, prepared,
      start authorized, running, cancelling, terminal; terminal phases are
      final, except that a rejection can be replaced.
    - The execution fence (token, revision, start deadline), the prepared
      envelope with its digest, the result digest and the request for
      cancellation are written once.
    - A command whose cancellation was requested before its start is never
      started. *)

From S2P Require Import Prelude GoText JobModel JobRepository.

Open Scope Z_scope.
Open Scope update_scope.

(** ** The abstract machine *)

Inductive phase_edge : CommandPhase -> CommandPhase -> Prop :=
  | edge_prepare : phase_edge CommandPhasePending CommandPhasePreparing
  | edge_prepared : phase_edge CommandPhasePreparing CommandPhasePrepared
  | edge_start : phase_edge CommandPhasePrepared CommandPhaseStartAuthorized
  | edge_run : phase_edge CommandPhaseStartAuthorized CommandPhaseRunning
  | edge_cancel p : started_phase p = true -> phase_edge p CommandPhaseCancelling
  | edge_finish p q : open_phase p = true -> terminal_phase q = true -> phase_edge p q
  | edge_replace q : terminal_phase q = true -> phase_edge CommandPhaseRejected q.

Definition phase_path : CommandPhase -> CommandPhase -> Prop := rtc phase_edge.

Definition status_of_phase (phase : CommandPhase) : CommandStatus :=
  match phase with
  | CommandPhaseUnset => CommandUnset
  | CommandPhasePending | CommandPhasePreparing | CommandPhasePrepared => CommandPending
  | CommandPhaseStartAuthorized | CommandPhaseRunning | CommandPhaseCancelling => CommandActive
  | CommandPhaseSucceeded => CommandSucceeded | CommandPhaseFailed => CommandFailed | CommandPhaseCancelled => CommandCancelled
  | CommandPhaseTimedOut => CommandTimedOut | CommandPhaseRejected => CommandRejected
  end.

(** A row the repository can have written. *)
Record row_ok (id : string) (r : outboxRow) : Prop := {
  ok_id : o_ID (message r) = id;
  ok_check : row_check r = true;
  ok_status : o_CommandStatus (message r) = status_of_phase (o_Phase (message r));
  ok_unfenced : prestart_phase (o_Phase (message r)) = true -> o_ExecutionRevision (message r) = 0;
}.

(** The execution fence of a started command. *)
Definition fence (m : OutboxMessage) : bytes * bytes * Z * option time :=
  (o_ExecutionTokenHash m, o_ExecutionTokenCiphertext m, o_ExecutionRevision m, o_StartDeadline m).

(** How a row may change. *)
Record advances (m m' : OutboxMessage) : Prop := {
  adv_identity : (o_ID m', o_Scope m', o_JobID m', o_TargetID m', o_Type m', o_Payload m') = (o_ID m, o_Scope m, o_JobID m, o_TargetID m, o_Type m, o_Payload m);
  adv_phase : phase_path (o_Phase m) (o_Phase m');
  adv_fence : 0 < o_ExecutionRevision m -> fence m' = fence m;
  adv_envelope : o_PreparedEnvelope m <> [] -> o_PreparedEnvelope m' = o_PreparedEnvelope m;
  adv_digest : o_PrepareDigest m <> [] -> o_PrepareDigest m' = o_PrepareDigest m;
  adv_result : o_TerminalResultDigest m <> [] -> o_TerminalResultDigest m' = o_TerminalResultDigest m;
  adv_cancelled : is_Some (o_CancellationRequestedAt m) -> o_CancellationRequestedAt m' = o_CancellationRequestedAt m;
  adv_unstarted : is_Some (o_CancellationRequestedAt m) -> started_phase (o_Phase m) = false -> started_phase (o_Phase m') = false;
  adv_unfenced : is_Some (o_CancellationRequestedAt m) -> o_ExecutionRevision m = 0 -> o_ExecutionRevision m' = 0;
}.

#[global] Instance advances_preorder : PreOrder advances.
Proof.
  split.
  - intros m. by split.
  - intros m1 m2 m3 A B. destruct A, B. split.
    + congruence.
    + by etrans.
    + intros Hr. specialize (adv_fence0 Hr). rewrite <- adv_fence0. apply adv_fence1. injection adv_fence0 as _ _ -> _. done.
    + intros E. rewrite adv_envelope1; [auto|]. by rewrite adv_envelope0.
    + intros E. rewrite adv_digest1; [auto|]. by rewrite adv_digest0.
    + intros E. rewrite adv_result1; [auto|]. by rewrite adv_result0.
    + intros E. rewrite adv_cancelled1; [auto|]. by rewrite adv_cancelled0.
    + intros E Hs. apply adv_unstarted1; [by rewrite adv_cancelled0|auto].
    + intros E Hs. apply adv_unfenced1; [by rewrite adv_cancelled0|auto].
Qed.

(** ** A logic for transactions *)

(** Rows stay well formed and advance; new rows are well formed. *)
Definition evolves (t t' : tables) : Prop :=
  forall id,
    (forall r, outbox t !! id = Some r -> row_ok id r -> exists r', outbox t' !! id = Some r' /\ row_ok id r' /\ advances (message r) (message r')) /\
    (forall r', outbox t !! id = None -> outbox t' !! id = Some r' -> row_ok id r').

#[global] Instance evolves_refl : Reflexive evolves.
Proof. intros t id. split; [intros r Hr Hok; by exists r|congruence]. Qed.

Lemma evolves_trans t1 t2 t3 : map_Forall row_ok (outbox t1) -> evolves t1 t2 -> evolves t2 t3 -> evolves t1 t3.
Proof.
  intros Hok A B id. split.
  - intros r Hr Hro. destruct (proj1 (A id) r Hr Hro) as (r2 & H2 & Ho2 & Ha2). destruct (proj1 (B id) r2 H2 Ho2) as (r3 & H3 & Ho3 & Ha3).
    exists r3. split_and!; [done..|by etrans].
  - intros r' Hn Hr'. destruct (outbox t2 !! id) as [r2|] eqn:E2.
    + pose proof (proj2 (A id) r2 Hn E2) as Ho2. destruct (proj1 (B id) r2 E2 Ho2) as (r3 & H3 & Ho3 & _). congruence.
    + by apply (proj2 (B id)).
Qed.

Lemma evolves_ok t t' : map_Forall row_ok (outbox t) -> evolves t t' -> map_Forall row_ok (outbox t').
Proof.
  intros Hok A id r' Hr'. destruct (outbox t !! id) as [r|] eqn:E.
  - destruct (proj1 (A id) r E (Hok _ _ E)) as (r2 & H2 & Ho2 & _). congruence.
  - by apply (proj2 (A id)).
Qed.

Definition sound {A} (m : Tx A) : Prop := forall t a t', map_Forall row_ok (outbox t) -> m t = Ok (a, t') -> evolves t t'.
Definition silent {A} (m : Tx A) : Prop := forall t a t', m t = Ok (a, t') -> outbox t' = outbox t.

Lemma tx_bind_Ok {A B} (m : Tx A) (f : A -> Tx B) t b t' : (m ≫= f) t = Ok (b, t') -> exists a t1, m t = Ok (a, t1) /\ f a t1 = Ok (b, t').
Proof. unfold mbind, Tx_bind. destruct (m t) as [[a t1]|e]; [eauto|done]. Qed.

Lemma sound_ret {A} (a : A) : sound (mret a).
Proof. intros t b t' _ [= <- <-]. reflexivity. Qed.
Lemma sound_bind {A B} (m : Tx A) (f : A -> Tx B) : sound m -> (forall a, sound (f a)) -> sound (m ≫= f).
Proof.
  intros Hm Hf t b t' Hok (a & t1 & H1 & H2)%tx_bind_Ok. pose proof (Hm _ _ _ Hok H1) as E1.
  eapply evolves_trans; [done|exact E1|]. eapply Hf; [|exact H2]. by eapply evolves_ok.
Qed.
Lemma sound_silent {A} (m : Tx A) : silent m -> sound m.
Proof. intros Hm t a t' Hok Ht. pose proof (Hm _ _ _ Ht) as E. intros id. rewrite E. apply evolves_refl. Qed.
Lemma sound_rollback {A} e : sound (rollback (A := A) e).
Proof. intros t a t' _ [=]. Qed.
Lemma quiet_ret {A} (a : A) : silent (mret a).
Proof. by intros t b t' [= <- <-]. Qed.
Lemma silent_rollback {A} e : silent (rollback (A := A) e).
Proof. by intros t a t' [=]. Qed.
Lemma silent_read {A} (f : tables -> A) : silent (read f).
Proof. by intros t a t' [= <- <-]. Qed.
Lemma quiet_require ok e : silent (require ok e).
Proof. destruct ok; [apply quiet_ret|apply silent_rollback]. Qed.
Lemma silent_found {A} (o : option A) e : silent (found o e).
Proof. destruct o; [apply quiet_ret|apply silent_rollback]. Qed.
Lemma quiet_lift {A} (r : result JobError A) : silent (lift r).
Proof. destruct r; [apply quiet_ret|apply silent_rollback]. Qed.
Lemma quiet_bind {A B} (m : Tx A) (f : A -> Tx B) : silent m -> (forall a, silent (f a)) -> silent (m ≫= f).
Proof. intros Hm Hf t b t' (a & t1 & H1 & H2)%tx_bind_Ok. rewrite (Hf _ _ _ _ H2). by eapply Hm. Qed.
Lemma silent_write f : (forall t, outbox (f t) = outbox t) -> silent (write f).
Proof. intros Hf t a t' [= <- <-]. apply Hf. Qed.

Lemma sound_guard {A} ok e (f : unit -> Tx A) : (ok = true -> sound (f tt)) -> sound (require ok e ≫= f).
Proof. intros Hf. destruct ok; [|intros t a t' _ [=]]. intros t a t1 Hok Ht. exact (Hf eq_refl t a t1 Hok Ht). Qed.

Create HintDb outbox.
#[global] Hint Resolve sound_ret sound_rollback quiet_ret silent_rollback silent_read quiet_require silent_found quiet_lift : outbox.

(** Walk through a transaction. *)
Ltac sound_step :=
  match goal with
  | |- sound (_ ≫= _) => apply sound_bind; [|intros ?]
  | |- silent (_ ≫= _) => apply quiet_bind; [|intros ?]
  | |- sound (let x := _ in _) => cbv zeta
  | |- silent (let x := _ in _) => cbv zeta
  | |- sound (match ?x with _ => _ end) => destruct x
  | |- silent (match ?x with _ => _ end) => destruct x
  | |- sound (if ?x then _ else _) => destruct x
  | |- silent (if ?x then _ else _) => destruct x
  end.
Ltac sound_auto := repeat (first [progress eauto with outbox | solve [apply sound_silent; eauto with outbox] | sound_step]).

(** Drop the reads at the head of a transaction that succeeded. *)
Ltac tx_step H :=
  let a := fresh "a" in let t := fresh "t" in let E := fresh "E" in
  apply tx_bind_Ok in H as (a & t & E & H); cbv beta zeta in H;
  first [ injection E as <- <-
        | unfold require in E; case_hyp E; injection E as <- <-
        | unfold found in E; case_hyp E; injection E as <- <- ].

(** ** Writing rows *)

(** A change of rows the machine admits, when the table's checks accept it. *)
Definition admissible (guard : outboxRow -> Prop) (f : outboxRow -> outboxRow) : Prop :=
  forall id r, row_ok id r -> guard r -> row_check (f r) = true -> row_ok id (f r) /\ advances (message r) (message (f r)).

(** A guarded change of the message. *)
Definition changes (guard : OutboxMessage -> bool) (f : OutboxMessage -> OutboxMessage) : Prop :=
  admissible (fun r => guard (message r) = true) (fun r => r <| message := f (message r) |>).

Lemma evolves_insert t id r r' : outbox t !! id = Some r -> row_ok id r' -> advances (message r) (message r') ->
  evolves t (Tables (jobs t) (targets t) (<[id := r']> (outbox t))).
Proof.
  intros Hr Hok Ha id'. cbn. destruct (decide (id = id')) as [<-|Hne].
  - rewrite lookup_insert_eq. split; [intros x Hx _; exists r'; rewrite Hr in Hx; by simplify_eq|congruence].
  - rewrite lookup_insert_ne by done. apply evolves_refl.
Qed.

Lemma write_row_Ok row t a t' : write_row row t = Ok (a, t') ->
  row_check row = true /\ t' = Tables (jobs t) (targets t) (<[o_ID (message row) := row]> (outbox t)).
Proof.
  unfold write_row. intros (u & t1 & H1 & H2)%tx_bind_Ok. destruct (row_check row); [|discriminate H1]. injection H1 as _ <-. by injection H2 as _ <-.
Qed.

Lemma write_row_evolves (guard : outboxRow -> Prop) f id r t a t' : admissible guard f -> outbox t !! id = Some r -> row_ok id r -> guard r ->
  write_row (f r) t = Ok (a, t') -> evolves t t' /\ outbox t' = <[id := f r]> (outbox t).
Proof.
  intros Hf Hr Hok Hg [Hc ->]%write_row_Ok. destruct (Hf _ _ Hok Hg Hc) as [Hok' Ha]. rewrite (ok_id _ _ Hok'). split; [|done]. by eapply evolves_insert.
Qed.

Lemma scoped_row_Some scope id t r : scoped_row scope id t = Some r -> outbox t !! id = Some r /\ o_Scope (message r) = scope.
Proof. unfold scoped_row. destruct (outbox t !! id) as [x|]; [|done]. case_bool_decide; [|done]. by intros [= <-]. Qed.

Lemma update_scoped_sound scope id guard f : changes guard f ->
  sound (update_scoped scope id guard f).
Proof.
  intros Hf t b t' Hok (o & t1 & H1 & H2)%tx_bind_Ok. injection H1 as <- <-. destruct (scoped_row scope id t) as [r|] eqn:E; [|injection H2 as <- <-; reflexivity].
  destruct (guard (message r)) eqn:Hg; [|injection H2 as <- <-; reflexivity]. apply scoped_row_Some in E as [E _].
  apply tx_bind_Ok in H2 as (u & t2 & H2 & H3). injection H3 as <- <-. apply (write_row_evolves _ _ _ _ _ _ _ Hf E (Hok _ _ E) Hg H2).
Qed.

Lemma execScopedCommand_sound scope id guard f : changes guard f ->
  sound (execScopedCommand scope id guard f).
Proof. intros Hf. unfold execScopedCommand. apply sound_bind; [by apply update_scoped_sound|]. intros b. apply sound_silent, quiet_require. Qed.

(** Several rows, each with its own identifier. *)
Lemma write_rows_evolves (guard : outboxRow -> Prop) f l t a t' : admissible guard f -> map_Forall row_ok (outbox t) ->
  NoDup ((fun r => o_ID (message r)) <$> l) -> (forall r, r ∈ l -> outbox t !! o_ID (message r) = Some r /\ guard r) ->
  write_rows (f <$> l) t = Ok (a, t') -> evolves t t'.
Proof.
  intros Hf. revert t. induction l as [|r l IH]; intros t Hok Hnd Hl; cbn [fmap list_fmap write_rows]; [intros [= <- <-]; reflexivity|].
  intros (u & t1 & H1 & H2)%tx_bind_Ok. destruct (Hl r) as [Hr Hg]; [by left|]. cbn in Hnd. apply NoDup_cons in Hnd as [Hni Hnd].
  destruct (write_row_evolves _ _ _ _ _ _ _ Hf Hr (Hok _ _ Hr) Hg H1) as [He Ho].
  eapply evolves_trans; [done|exact He|]. eapply IH; [by eapply evolves_ok|done| |exact H2].
  intros x Hx. destruct (Hl x) as [Hxr Hxg]; [by right|]. split; [|done]. rewrite Ho, lookup_insert_ne; [done|].
  intros E. apply Hni. rewrite E. apply list_elem_of_fmap. eauto.
Qed.

(** Rows are filed under their identifier. *)
Definition filed (t : tables) : Prop := forall id r, outbox t !! id = Some r -> o_ID (message r) = id.
Lemma filed_ok t : map_Forall row_ok (outbox t) -> filed t.
Proof. intros Hok id r Hr. exact (ok_id _ _ (Hok _ _ Hr)). Qed.

Lemma rows_of_table t : filed t ->
  NoDup ((fun r => o_ID (message r)) <$> (snd <$> map_to_list (outbox t))) /\ forall r, r ∈ (snd <$> map_to_list (outbox t)) -> outbox t !! o_ID (message r) = Some r.
Proof.
  intros Hid. assert (He : (fun r => o_ID (message r)) <$> (snd <$> map_to_list (outbox t)) = (map_to_list (outbox t)).*1).
  { rewrite <- list_fmap_compose. apply list_fmap_ext. intros i [id r] Hi. cbn. apply list_elem_of_lookup_2, elem_of_map_to_list in Hi. by apply Hid. }
  split; [rewrite He; apply NoDup_fst_map_to_list|]. intros r ([id x] & -> & Hx%elem_of_map_to_list)%list_elem_of_fmap. cbn. by rewrite (Hid _ _ Hx).
Qed.

(** Part of the rows of the table. *)
Lemma selected_rows t (l : list outboxRow) : filed t -> l ⊆+ (snd <$> map_to_list (outbox t)) ->
  NoDup ((fun r => o_ID (message r)) <$> l) /\ forall r, r ∈ l -> outbox t !! o_ID (message r) = Some r.
Proof.
  intros Hok Hl. destruct (rows_of_table t Hok) as [Hnd Hr]. split.
  - assert (Hs : ((fun r => o_ID (message r)) <$> l) ⊆+ ((fun r => o_ID (message r)) <$> (snd <$> map_to_list (outbox t)))) by by apply fmap_submseteq.
    apply submseteq_Permutation in Hs as (k & Hp). rewrite Hp in Hnd. by apply NoDup_app in Hnd as [? _].
  - intros r Hin. apply Hr. by eapply elem_of_submseteq.
Qed.

Lemma candidates_selected `{JobDatabase} pred keys limit locked t : candidates pred keys limit locked t ⊆+ (snd <$> map_to_list (outbox t)).
Proof.
  unfold candidates. etrans; [apply submseteq_take|]. rewrite merge_sort_Permutation. apply sublist_submseteq, sublist_filter.
Qed.

Lemma candidates_spec `{JobDatabase} pred keys limit locked t r : r ∈ candidates pred keys limit locked t -> pred r = true.
Proof.
  unfold candidates. intros Hin. eapply elem_of_submseteq in Hin; [|apply submseteq_take].
  rewrite merge_sort_Permutation in Hin. by apply list_elem_of_filter in Hin as [[? _] _].
Qed.

(** What leases, claims and audits leave alone. *)
Definition kept (m : OutboxMessage) :=
  ((o_ID m, o_Scope m, o_JobID m, o_TargetID m, o_Type m, o_Payload m), (o_PreparedEnvelope m, o_CommandStatus m, o_Phase m, o_PrepareDigest m),
   (fence m, o_TerminalResultDigest m, o_CancellationRequestedAt m)).

Lemma kept_admissible guard f : (forall r, guard r -> kept (message (f r)) = kept (message r)) -> admissible guard f.
Proof.
  intros Hk id r Hok Hg Hc. specialize (Hk r Hg). destruct Hok as [Hid _ Hst Hun]. unfold kept, fence in Hk. injection Hk as Ei Es Ej Et Ety Ep Ee Ecs Eph Ed Eh Ec Er Esd Erd Eca.
  split.
  - split; [congruence|done|congruence|]. rewrite Eph, Er. done.
  - split; try congruence.
    + rewrite Eph. apply rtc_refl.
    + intros _. unfold fence. congruence.
Qed.

Section operations.
Context `{JobDatabase}.

Lemma claimCommands_sound pred keys f limit at_ locked : (forall m, kept (f m) = kept m) -> sound (claimCommands pred keys f limit at_ locked).
Proof.
  intros Hf. unfold claimCommands. apply sound_bind; [apply sound_silent, quiet_require|]. intros _ t a t' Hok (rows & t1 & H1 & H2)%tx_bind_Ok. injection H1 as <- <-.
  cbv zeta in H2. apply tx_bind_Ok in H2 as (u & t2 & H2 & H3). injection H3 as <- <-.
  destruct (selected_rows t _ (filed_ok _ Hok) (candidates_selected pred keys limit locked t)) as [Hnd Hin].
  apply (write_rows_evolves (fun _ => True) (fun r => r <| message ::= f |>) _ _ _ _) in H2; [done| |done|done|].
  - apply kept_admissible. intros r _. apply Hf.
  - intros r Hr. split; [by apply Hin|done].
Qed.

Lemma update_kept scope id guard f : (forall m, kept (f m) = kept m) -> sound (update_scoped scope id guard f).
Proof. intros Hf. apply update_scoped_sound, kept_admissible. intros r _. apply Hf. Qed.
Lemma exec_kept scope id guard f : (forall m, kept (f m) = kept m) -> sound (execScopedCommand scope id guard f).
Proof. intros Hf. apply execScopedCommand_sound, kept_admissible. intros r _. apply Hf. Qed.

(** Jobs and target rows are other tables. *)
Lemma upsert_targets_silent scope id l : silent (upsert_targets scope id l).
Proof. induction l as [|r l IH]; cbn [upsert_targets]; [apply quiet_ret|]. apply quiet_bind; [|intros; apply IH]. unfold upsert_target. sound_auto. by apply silent_write. Qed.
#[local] Hint Resolve upsert_targets_silent : outbox.
Lemma load_job_silent scope id : silent (load_job scope id).
Proof. unfold load_job. sound_auto. Qed.
#[local] Hint Resolve load_job_silent : outbox.
Lemma transitionInTx_silent tr : silent (transitionInTx tr).
Proof. unfold transitionInTx. sound_auto. by apply silent_write. Qed.
#[local] Hint Resolve transitionInTx_silent : outbox.
Lemma timeoutJobTargetInTx_silent value m at_ : silent (timeoutJobTargetInTx value m at_).
Proof. unfold timeoutJobTargetInTx. sound_auto. Qed.
Lemma record_target_silent at_ value target : silent (record_target at_ value target).
Proof. unfold record_target. sound_auto. Qed.
#[local] Hint Resolve timeoutJobTargetInTx_silent record_target_silent : outbox.

(** A change of phase, with the fields it may set. *)
Lemma change_admissible guard (f : OutboxMessage -> OutboxMessage) :
  (forall m, (o_ID (f m), o_Scope (f m), o_JobID (f m), o_TargetID (f m), o_Type (f m), o_Payload (f m)) = (o_ID m, o_Scope m, o_JobID m, o_TargetID m, o_Type m, o_Payload m)) ->
  (forall id r, row_ok id r -> guard (message r) = true -> let m := message r in let m' := f m in
     o_CommandStatus m' = status_of_phase (o_Phase m') /\ (prestart_phase (o_Phase m') = true -> o_ExecutionRevision m' = 0) /\
     phase_path (o_Phase m) (o_Phase m') /\ (0 < o_ExecutionRevision m -> fence m' = fence m) /\
     (o_PreparedEnvelope m <> [] -> o_PreparedEnvelope m' = o_PreparedEnvelope m) /\ (o_PrepareDigest m <> [] -> o_PrepareDigest m' = o_PrepareDigest m) /\
     (o_TerminalResultDigest m <> [] -> o_TerminalResultDigest m' = o_TerminalResultDigest m) /\
     (is_Some (o_CancellationRequestedAt m) -> o_CancellationRequestedAt m' = o_CancellationRequestedAt m) /\
     (is_Some (o_CancellationRequestedAt m) -> started_phase (o_Phase m) = false -> started_phase (o_Phase m') = false) /\
     (is_Some (o_CancellationRequestedAt m) -> o_ExecutionRevision m = 0 -> o_ExecutionRevision m' = 0)) ->
  changes guard f.
Proof.
  intros Hid Hf id r Hok Hg Hc. destruct (Hf id r Hok Hg) as (H1 & H2 & H3 & H4 & H5 & H6 & H7 & H8 & H9 & H10). pose proof (Hid (message r)) as Hi.
  split; [|by split]. split; [|done|done|done]. cbn. injection Hi as -> _. apply (ok_id _ _ Hok).
Qed.

Lemma path_edge p q : phase_edge p q -> phase_path p q.
Proof. apply rtc_once. Qed.

Lemma null_None {A} (o : option A) : null o = true <-> o = None.
Proof. unfold null. rewrite bool_decide_eq_true, <- eq_None_not_Some. done. Qed.
Lemma null_bytes_nil b : null_bytes b = true <-> b = [].
Proof. apply bool_decide_eq_true. Qed.

(** What the checks of the table say about a row. *)
Lemma row_ok_revision id r : row_ok id r -> 0 <= o_ExecutionRevision (message r).
Proof. intros [_ Hc _ _]. unfold row_check in Hc. rewrite !andb_true_iff in Hc. destruct_and?. bool_simpl. lia. Qed.

Lemma row_ok_result id r : row_ok id r -> terminal_phase (o_Phase (message r)) = false -> o_TerminalResultDigest (message r) = [].
Proof.
  intros [_ Hc _ _] Ht. unfold row_check in Hc. rewrite !andb_true_iff in Hc. destruct_and?. rewrite Ht in *.
  repeat match goal with Hx : (_ || false && _) = true |- _ => rewrite orb_false_r in Hx end. by apply null_bytes_nil.
Qed.

Lemma row_ok_phase id r : row_ok id r -> open_phase (o_Phase (message r)) = false -> terminal_phase (o_Phase (message r)) = true.
Proof.
  intros [_ Hc _ _]. unfold row_check in Hc. rewrite !andb_true_iff in Hc. destruct_and?. bool_simpl. by destruct (o_Phase (message r)).
Qed.

Lemma row_ok_set id r : row_ok id r -> o_CommandStatus (message r) <> CommandUnset.
Proof. intros [_ Hc _ _]. unfold row_check in Hc. rewrite !andb_true_iff in Hc. destruct_and?. by bool_simpl. Qed.

Ltac change_row :=
  apply change_admissible; [done|]; intros id r Hok Hg m m'; pose proof (row_ok_revision _ _ Hok) as Hrev; pose proof (row_ok_result _ _ Hok) as Hres;
  pose proof (row_ok_phase _ _ Hok) as Hopen; destruct Hok as [_ _ Hst Hun]; subst m'; fold m in Hst, Hun, Hrev, Hres, Hopen, Hg; cbn beta in Hg.

Lemma reserve_changes :
  changes (fun m => bool_decide (o_Phase m = CommandPhasePending) && null (o_CancellationRequestedAt m)) (fun m => m <| o_Phase := CommandPhasePreparing |>).
Proof.
  change_row. bool_simpl. rewrite H0 in *. apply null_None in H1. cbn. rewrite ?H0, H1, Hst. split_and!; try done; by apply path_edge; constructor.
Qed.

Lemma envelope_changes proposed :
  changes (fun m => null (o_CancellationRequestedAt m) && (bool_decide (o_Phase m = CommandPhasePending) || bool_decide (o_Phase m = CommandPhasePreparing)))
    (fun m => m <| o_PreparedEnvelope := if null_bytes (o_PreparedEnvelope m) then proposed else o_PreparedEnvelope m |>
                <| o_Phase := if bool_decide (o_Phase m = CommandPhasePending) then CommandPhasePreparing else o_Phase m |>).
Proof.
  change_row. apply andb_true_iff in Hg as [Hc%null_None Hp]. cbn. rewrite Hc, Hst.
  assert (He : o_PreparedEnvelope m <> [] -> (if null_bytes (o_PreparedEnvelope m) then proposed else o_PreparedEnvelope m) = o_PreparedEnvelope m).
  { intros Hne. destruct (null_bytes _) eqn:E; [by apply null_bytes_nil in E|done]. }
  destruct (bool_decide (o_Phase m = CommandPhasePending)) eqn:E; bool_simpl.
  - rewrite E in *. split_and!; try done. by apply path_edge; constructor.
  - assert (Hp' : o_Phase m = CommandPhasePreparing) by by apply bool_decide_eq_true in Hp. rewrite Hp' in *. by split_and!.
Qed.

Lemma prepared_changes digest at_ :
  changes (fun m => null (o_CancellationRequestedAt m) && prestart_phase (o_Phase m) && negb (bool_decide (o_Phase m = CommandPhaseUnset))
                    && (null_bytes (o_PrepareDigest m) || bool_decide (o_PrepareDigest m = digest)))
    (prepared_message digest at_).
Proof.
  change_row. rewrite !andb_true_iff in Hg. destruct Hg as [[[Hc%null_None Hp] Hu] _]. bool_simpl. cbn. rewrite Hc.
  assert (Hs : o_CommandStatus m = CommandPending) by (rewrite Hst; by destruct (o_Phase m)).
  rewrite Hs. split_and!; try done; [by auto| | ].
  - destruct (o_Phase m); try done; [eapply rtc_l; [constructor|]|]; apply path_edge; constructor.
  - intros Hne. destruct (null_bytes _) eqn:E; [by apply null_bytes_nil in E|done].
Qed.

Lemma authorized_changes digest hash ciphertext at_ deadline :
  changes (fun m => bool_decide (o_Phase m = CommandPhasePrepared) && null (o_CancellationRequestedAt m) && bool_decide (o_PrepareDigest m = digest))
    (authorized_message hash ciphertext at_ deadline).
Proof.
  change_row. rewrite !andb_true_iff in Hg. destruct Hg as [[Hp Hc%null_None] _]. bool_simpl. rewrite Hp in *. cbn. rewrite Hc. split_and!; try done.
  - apply path_edge. constructor.
  - rewrite Hun by done. lia.
Qed.

Lemma renewed_changes hash revision at_ deadline :
  changes (fun m => started_phase (o_Phase m) && bool_decide (o_ExecutionTokenHash m = hash) && (o_ExecutionRevision m =? revision)) (renewed_message at_ deadline).
Proof.
  change_row. rewrite !andb_true_iff in Hg. destruct Hg as [[Hp _] _]. cbn. destruct (bool_decide (o_Phase m = CommandPhaseStartAuthorized)) eqn:E; bool_simpl.
  - rewrite E in *. split_and!; try done. apply path_edge. constructor.
  - split_and!; try done.
Qed.

Lemma cancellation_changes at_ reason : changes (fun m => open_status (o_CommandStatus m)) (cancellation_requested at_ reason).
Proof.
  change_row. cbn. destruct (started_phase (o_Phase m)) eqn:E.
  - assert (Hs : o_CommandStatus m = CommandActive) by (rewrite Hst; by destruct (o_Phase m)). rewrite Hs. split_and!; try done; [by apply path_edge; constructor|].
    by intros [x ->].
  - split_and!; try done. by intros [x ->].
Qed.

(** Any open phase and a rejection can become terminal. *)
Lemma finish_path p q : open_phase p = true \/ p = CommandPhaseRejected -> terminal_phase q = true -> phase_path p q.
Proof. intros [Hp| ->] Hq; apply path_edge; by constructor. Qed.

Lemma phaseFor_spec status : terminalCommandStatus status = true -> terminal_phase (phaseForCommandStatus status) = true /\ status_of_phase (phaseForCommandStatus status) = status.
Proof. by destruct status. Qed.

(** A message that becomes terminal with a status. *)
Lemma finish_changes guard f status : terminalCommandStatus status = true ->
  (forall m, o_Phase (f m) = phaseForCommandStatus status /\ o_CommandStatus (f m) = status) ->
  (forall m, (o_ID (f m), o_Scope (f m), o_JobID (f m), o_TargetID (f m), o_Type (f m), o_Payload (f m)) = (o_ID m, o_Scope m, o_JobID m, o_TargetID m, o_Type m, o_Payload m)) ->
  (forall m, (fence (f m), o_PreparedEnvelope (f m), o_PrepareDigest (f m), o_CancellationRequestedAt (f m)) = (fence m, o_PreparedEnvelope m, o_PrepareDigest m, o_CancellationRequestedAt m)) ->
  (forall m, guard m = true -> o_TerminalResultDigest (f m) = o_TerminalResultDigest m \/ terminal_phase (o_Phase m) = false) ->
  (forall m, guard m = true -> o_CommandStatus m = status_of_phase (o_Phase m) -> o_CommandStatus m <> CommandUnset -> open_status (o_CommandStatus m) = true \/ o_CommandStatus m = CommandRejected \/ o_CommandStatus m = status) ->
  changes guard f.
Proof.
  intros Hs Hf Hid Hk Hd Hg'. apply change_admissible; [done|]. intros id r Hok Hg. cbv zeta. set (m := message r) in *. destruct (phaseFor_spec status Hs) as [Ht Hsp].
  destruct (Hf m) as [Hp Hcs]. pose proof (Hk m) as [= Hh Hc Hr Hd' He Hdg Hca]. destruct (Hg' m Hg (ok_status _ _ Hok) (row_ok_set _ _ Hok)) as [Ho|Ho].
  all: rewrite Hp, Hcs, Hca; unfold fence; rewrite ?Hh, ?Hc, ?Hr, ?Hd', ?He, ?Hdg.
  all: assert (Hns : started_phase (phaseForCommandStatus status) = false) by (by destruct status).
  all: assert (Hnp : prestart_phase (phaseForCommandStatus status) = false) by (by destruct status).
  all: subst m; split_and!; try done; try (by rewrite Hnp).
  - apply finish_path; [left|done]. rewrite (ok_status _ _ Hok) in Ho. by destruct (o_Phase (message r)).
  - intros Hne. destruct (Hd _ Hg) as [->|Hx]; [done|]. by rewrite (row_ok_result _ _ Hok) in Hne.
  - destruct Ho as [Ho|Ho]; rewrite (ok_status _ _ Hok) in Ho.
    + apply finish_path; [right|done]. by destruct (o_Phase (message r)).
    + rewrite <- Ho in Hs |- *. destruct (o_Phase (message r)); try discriminate Hs; apply rtc_refl.
  - intros Hne. destruct (Hd _ Hg) as [->|Hx]; [done|]. by rewrite (row_ok_result _ _ Hok) in Hne.
Qed.

(** ** The operations *)

#[local] Hint Resolve reserve_changes envelope_changes prepared_changes authorized_changes renewed_changes cancellation_changes : outbox.
#[local] Hint Extern 1 (sound (update_scoped _ _ _ _)) => apply update_scoped_sound : outbox.
#[local] Hint Extern 1 (sound (execScopedCommand _ _ _ _)) => apply execScopedCommand_sound : outbox.

Lemma insert_messages_sound l : Forall (fun m => o_ExecutionRevision m = 0) l -> sound (insert_messages l).
Proof.
  induction 1 as [|m l Hm Hl IH]; cbn [insert_messages]; [apply sound_ret|]. intros t a t' Hok (taken & t1 & H1 & H2)%tx_bind_Ok. injection H1 as <- <-.
  apply tx_bind_Ok in H2 as (u & t2 & H2 & H3). destruct (bool_decide (is_Some (outbox t !! o_ID m))) eqn:E; [discriminate H2|]. injection H2 as _ <-.
  apply tx_bind_Ok in H3 as (u' & t3 & [Hc ->]%write_row_Ok & H4). bool_simpl. apply eq_None_not_Some in E.
  set (t3 := Tables _ _ _) in H4. assert (He : evolves t t3).
  { intros id. subst t3. cbn. destruct (decide (o_ID m = id)) as [<-|Hne]; [|rewrite lookup_insert_ne by done; apply evolves_refl].
    rewrite lookup_insert_eq, E. split; [done|]. intros r' _ [= <-]. by split. }
  eapply evolves_trans; [done|exact He|]. eapply IH; [by eapply evolves_ok|exact H4].
Qed.

Lemma CreateInTx_sound authorized value messages : sound (CreateInTx authorized value messages).
Proof.
  unfold CreateInTx. cbv zeta. apply sound_bind; [sound_auto|]. intros _. apply sound_guard. intros E.
  apply sound_bind; [sound_auto|]. intros artifacts. apply sound_bind; [sound_auto|]. intros taken. apply sound_guard. intros _. apply sound_guard. intros _.
  apply sound_bind; [by apply sound_silent, silent_write|]. intros _. apply sound_bind; [sound_auto|]. intros _.
  apply insert_messages_sound. apply Forall_forall. intros m Hm. rewrite forallb_forall in E. apply list_elem_of_In, E in Hm.
  unfold validateOutboxMessage in Hm. rewrite !andb_true_iff in Hm. destruct_and?. unfold untouched in *.
  repeat match goal with Hx : (_ && _) = true |- _ => apply andb_true_iff in Hx as [Hx ?] end. by bool_simpl.
Qed.

Lemma ReservePrepareSlot_sound scope id at_ : sound (ReservePrepareSlot scope id at_).
Proof.
  unfold ReservePrepareSlot. sound_auto.
  by apply update_kept.
Qed.

Lemma PrepareCommandEnvelope_sound scope id proposed : sound (PrepareCommandEnvelope scope id proposed).
Proof. unfold PrepareCommandEnvelope. sound_auto. Qed.

Lemma MarkPrepared_sound scope id digest at_ : sound (MarkPrepared scope id digest at_).
Proof. unfold MarkPrepared. sound_auto. Qed.

Lemma AuthorizeStart_sound scope id digest hash ciphertext at_ deadline : sound (AuthorizeStart scope id digest hash ciphertext at_ deadline).
Proof. unfold AuthorizeStart. sound_auto. Qed.

Lemma RenewExecutionLease_sound scope id hash revision at_ deadline : sound (RenewExecutionLease scope id hash revision at_ deadline).
Proof. unfold RenewExecutionLease. sound_auto. Qed.

Lemma RequestCancel_sound scope id actor version at_ : sound (RequestCancel scope id actor version at_).
Proof.
  unfold RequestCancel. apply sound_bind; [sound_auto|]. intros _. apply sound_bind; [sound_auto|]. intros next t a t' Hok (rows & t1 & H1 & H2)%tx_bind_Ok. injection H1 as <- <-.
  apply tx_bind_Ok in H2 as (u & t2 & H2 & H3). injection H3 as <- <-.
  assert (Hsel : open_commands scope id t ⊆+ (snd <$> map_to_list (outbox t))) by apply sublist_submseteq, sublist_filter.
  destruct (selected_rows t _ (filed_ok _ Hok) Hsel) as [Hnd Hin].
  apply (write_rows_evolves _ _ _ _ _ _ (cancellation_changes (UTC at_) "job cancellation requested")) in H2; [done|done|done|].
  intros r Hr. split; [by apply Hin|]. unfold open_commands in Hr. apply list_elem_of_filter in Hr as [Hr _]. by apply andb_true_iff in Hr as [_ ?].
Qed.

Lemma MarkCommandTerminal_sound scope id status at_ : sound (MarkCommandTerminal scope id status at_).
Proof.
  unfold MarkCommandTerminal. apply sound_guard. intros [Hs _]%andb_true_iff. apply execScopedCommand_sound, (finish_changes _ _ status); try done; [by intros; left|].
  intros m Hg _ _. rewrite !orb_true_iff, !bool_decide_eq_true in Hg. tauto.
Qed.

(** An update of a row that the transaction has read. *)
Lemma update_known scope id guard guard' f t r a t' : changes guard' f -> map_Forall row_ok (outbox t) -> scoped_row scope id t = Some r -> guard' (message r) = true ->
  update_scoped scope id guard f t = Ok (a, t') -> evolves t t'.
Proof.
  intros Hf Hok Hr Hg (o & t1 & H1 & H2)%tx_bind_Ok. injection H1 as <- <-. rewrite Hr in H2. apply scoped_row_Some in Hr as [E _].
  destruct (guard (message r)); [|injection H2 as <- <-; reflexivity]. apply tx_bind_Ok in H2 as (u & t2 & H2 & H3). injection H3 as <- <-.
  apply (write_row_evolves _ _ _ _ _ _ _ Hf E (Hok _ _ E) Hg H2).
Qed.

Lemma terminal_changes input artifacts detail : terminalCommandStatus (tc_Status input) = true ->
  changes (fun m => terminal_admissible m input) (terminal_message input artifacts detail).
Proof.
  intros Hs. apply (finish_changes _ _ (tc_Status input)); try done; [by intros; left|]. intros m Hg _ Hu. unfold terminal_admissible in Hg.
  destruct (o_CommandStatus m); cbn in *; try (by left); try done; bool_simpl; by right; right.
Qed.

Lemma validateTerminalCommand_status input : validateTerminalCommand input = true -> terminalCommandStatus (tc_Status input) = true.
Proof. unfold validateTerminalCommand. intros Hv. rewrite !andb_true_iff in Hv. by destruct_and?. Qed.

Lemma PersistTerminalCommand_sound input : sound (PersistTerminalCommand input).
Proof.
  unfold PersistTerminalCommand. apply sound_guard. intros Hv%validateTerminalCommand_status t u t' Hok Ht. do 9 tx_step Ht.
  apply tx_bind_Ok in Ht as (b & t1 & Hu & Ht). unfold require in Ht. case_hyp Ht. injection Ht as _ <-.
  eapply (update_known _ _ _ (fun m => terminal_admissible m input)); [by apply terminal_changes|done|eassumption|done|exact Hu].
Qed.

Lemma evidence_kept input artifacts detail m : kept (evidence input artifacts detail m) = kept m.
Proof. done. Qed.

Lemma persistTerminalEvidenceTx_sound input : sound (persistTerminalEvidenceTx input).
Proof. unfold persistTerminalEvidenceTx. sound_auto. by apply update_kept. Qed.
#[local] Hint Resolve persistTerminalEvidenceTx_sound : outbox.

Lemma result_changes input : terminalCommandStatus (cas_Status input) = true ->
  changes (fun m => started_phase (o_Phase m) && bool_decide (o_ExecutionTokenHash m = cas_TokenHash input) && (o_ExecutionRevision m =? cas_ExpectedExecutionRevision input))
    (result_message input).
Proof.
  intros Hs. apply (finish_changes _ _ (cas_Status input)); try done.
  - intros m Hg. right. rewrite !andb_true_iff in Hg. destruct Hg as [[Hp _] _]. by destruct (o_Phase m).
  - intros m Hg -> _. rewrite !andb_true_iff in Hg. destruct Hg as [[Hp _] _]. left. by destruct (o_Phase m).
Qed.

Lemma attach_changes input :
  changes (fun m => bool_decide (o_Phase m = CommandPhaseTimedOut) && bool_decide (o_CommandStatus m = CommandTimedOut) && null_bytes (o_TerminalResultDigest m)
                    && bool_decide (o_ExecutionTokenHash m = cas_TokenHash input) && (o_ExecutionRevision m =? cas_ExpectedExecutionRevision input))
    (fun m => m <| o_TerminalResultDigest := cas_ResultDigest input |>).
Proof.
  change_row. rewrite !andb_true_iff in Hg. destruct Hg as [[[[_ _] Hd%null_bytes_nil] _] _]. cbn. by split_and!.
Qed.
#[local] Hint Resolve result_changes attach_changes : outbox.

Lemma terminal_result_again_sound input m : sound (terminal_result_again input m).
Proof.
  unfold terminal_result_again. cbv zeta. apply sound_guard. intros _. destruct (attaches_digest input m).
  - apply sound_bind; [apply update_scoped_sound, attach_changes|]. intros updated. apply sound_guard. intros _. apply sound_ret.
  - destruct (_ && _); [|apply sound_ret]. apply sound_guard. intros _. apply sound_bind; [apply persistTerminalEvidenceTx_sound|]. intros _. apply sound_ret.
Qed.

Lemma PersistTerminalResult_sound input : sound (PersistTerminalResult input).
Proof.
  unfold PersistTerminalResult. apply sound_guard. intros [_ Hv%validateTerminalCommand_status]%andb_true_iff.
  apply sound_bind; [apply sound_silent, silent_read|]. intros found_row. apply sound_bind; [apply sound_silent, silent_found|]. intros row. cbv zeta.
  apply sound_bind; [apply sound_silent, silent_read|]. intros found_job. apply sound_bind; [apply sound_silent, silent_found|]. intros value.
  apply sound_guard. intros _. destruct (terminal_phase _); [apply terminal_result_again_sound|]. apply sound_guard. intros _.
  apply sound_bind; [by apply update_scoped_sound, result_changes|]. intros updated. apply sound_guard. intros _.
  apply sound_bind; [apply persistTerminalEvidenceTx_sound|]. intros _. apply sound_ret.
Qed.

Lemma write_kept r f t u t' : (forall r, kept (message (f r)) = kept (message r)) -> map_Forall row_ok (outbox t) -> outbox t !! o_ID (message r) = Some r ->
  write_row (f r) t = Ok (u, t') -> evolves t t'.
Proof.
  intros Hf Hok Hr Hw. assert (Ha : admissible (fun _ => True) f) by (apply kept_admissible; auto). by apply (write_row_evolves _ _ _ _ _ _ _ Ha Hr (Hok _ _ Hr) I Hw).
Qed.

Lemma claim_executions_evolves at_ rows : forall tokens t a t', map_Forall row_ok (outbox t) -> NoDup ((fun r => o_ID (message r)) <$> rows) ->
  (forall r, r ∈ rows -> outbox t !! o_ID (message r) = Some r) -> claim_executions at_ rows tokens t = Ok (a, t') -> evolves t t'.
Proof.
  induction rows as [|r rows IH]; intros tokens t a t' Hok Hnd Hin Ht; cbn [claim_executions] in Ht; [injection Ht as _ <-; reflexivity|].
  destruct tokens as [|token tokens]; [discriminate Ht|]. cbv zeta in Ht. apply tx_bind_Ok in Ht as (u & t1 & Hw & Ht). apply tx_bind_Ok in Ht as (claims & t2 & Hc & Ht). injection Ht as _ <-.
  cbn in Hnd. apply NoDup_cons in Hnd as [Hni Hnd]. assert (Hr : outbox t !! o_ID (message r) = Some r) by (apply Hin; by left).
  assert (Ho : outbox t1 = <[o_ID (message r) := r <| message ::= claim_recovery (recovery_claim token (message r)) at_ |>]> (outbox t)) by by apply write_row_Ok in Hw as [_ ->].
  assert (He : evolves t t1).
  { by apply (write_kept r (fun x => x <| message ::= claim_recovery (recovery_claim token (message r)) at_ |>) t u t1). }
  eapply evolves_trans; [done|exact He|]. eapply IH; [by eapply evolves_ok|done| |exact Hc]. intros x Hx. rewrite Ho, lookup_insert_ne; [apply Hin; by right|].
  intros E. apply Hni. rewrite E. apply list_elem_of_fmap. eauto.
Qed.

Lemma ClaimExpiredExecution_sound limit at_ tokens locked : sound (ClaimExpiredExecution limit at_ tokens locked).
Proof.
  unfold ClaimExpiredExecution. apply sound_guard. intros _ t a t' Hok Ht. tx_step Ht.
  destruct (selected_rows t _ (filed_ok _ Hok) (candidates_selected (expired_execution at_) [by_deadline] limit locked t)) as [Hnd Hin]. by eapply claim_executions_evolves.
Qed.

Lemma timeout_changes (guard : OutboxMessage -> bool) f : (forall m, guard m = true -> o_CommandStatus m = status_of_phase (o_Phase m) -> open_status (o_CommandStatus m) = true) ->
  (forall m, (o_Phase (f m), o_CommandStatus (f m)) = (CommandPhaseTimedOut, CommandTimedOut)) ->
  (forall m, (o_ID (f m), o_Scope (f m), o_JobID (f m), o_TargetID (f m), o_Type (f m), o_Payload (f m)) = (o_ID m, o_Scope m, o_JobID m, o_TargetID m, o_Type m, o_Payload m)) ->
  (forall m, (fence (f m), o_PreparedEnvelope (f m), o_PrepareDigest (f m), o_CancellationRequestedAt (f m)) = (fence m, o_PreparedEnvelope m, o_PrepareDigest m, o_CancellationRequestedAt m)) ->
  (forall m, o_TerminalResultDigest (f m) = o_TerminalResultDigest m) -> changes guard f.
Proof.
  intros Hg Hp Hid Hk Hd. apply (finish_changes _ _ CommandTimedOut); try done; [|by auto|by auto]. intros m. by pose proof (Hp m) as [= -> ->].
Qed.

Lemma FinalizeExpiredExecution_sound claim at_ : sound (FinalizeExpiredExecution claim at_).
Proof.
  unfold FinalizeExpiredExecution. sound_auto. apply update_scoped_sound, timeout_changes; try done. intros m Hg ->. unfold matchingRecoveryClaim in Hg.
  rewrite !andb_true_iff in Hg. destruct_and?. by destruct (o_Phase m).
Qed.

Lemma FinalizeExpiredPrepared_sound scope id digest expiresAt at_ : sound (FinalizeExpiredPrepared scope id digest expiresAt at_).
Proof.
  unfold FinalizeExpiredPrepared. sound_auto. all: apply update_scoped_sound, timeout_changes; try done. intros m Hg ->. bool_simpl. by rewrite H0.
Qed.

Lemma claimTerminalCommands_sound limit at_ token locked : sound (claimTerminalCommands limit at_ token locked).
Proof.
  unfold claimTerminalCommands. apply sound_guard. intros _ t a t' Hok (rows & t1 & H1 & H2)%tx_bind_Ok. injection H1 as <- <-. cbv zeta in H2.
  apply tx_bind_Ok in H2 as (u & t2 & H2 & H3). injection H3 as <- <-.
  destruct (selected_rows t _ (filed_ok _ Hok) (candidates_selected (reconcilable t at_) [reconcile_key; by_terminal; by_created] limit locked t)) as [Hnd Hin].
  refine (write_rows_evolves (fun _ => True) _ _ _ _ _ _ Hok Hnd _ H2); [by apply kept_admissible|]. intros r Hr. split; [by apply Hin|done].
Qed.

Lemma operation_row_Some scope jobID id t r : operation_row scope jobID id t = Some r -> outbox t !! id = Some r.
Proof. unfold operation_row. destruct (scoped_row scope id t) eqn:E; [|done]. case_bool_decide; [|done]. intros [= <-]. by apply scoped_row_Some in E as [? _]. Qed.

(** The last step of a reconciliation writes the row as it stands. *)
Lemma complete_reconciliation_sound claim target artifacts status :
  sound (latest ← read (operation_row (rc_scope claim) (rc_jobID claim) (rc_commandID claim)); r ← found latest ErrConflict;
         _ ← require (bool_decide (o_CommandStatus (message r) = status) && owns_reconciliation claim r) ErrConflict; write_row (reconciled_row target artifacts r)).
Proof.
  intros t u t' Hok Ht. tx_step Ht. apply tx_bind_Ok in Ht as (r & t1 & Hr & Ht). unfold found in Hr. case_hyp Hr. injection Hr as <- <-.
  apply tx_bind_Ok in Ht as ([] & t1 & Hq & Ht). unfold require in Hq. case_hyp Hq. injection Hq as <-.
  apply operation_row_Some in E. eapply (write_kept _ (reconciled_row target artifacts)); [done|done| |exact Ht].
  by rewrite (ok_id _ _ (Hok _ _ E)).
Qed.

Lemma reconcileTerminalCommand_sound claim at_ : sound (reconcileTerminalCommand claim at_).
Proof.
  unfold reconcileTerminalCommand. apply sound_bind; [apply sound_silent, load_job_silent|]. intros current.
  apply sound_bind; [apply sound_silent, silent_read|]. intros found_row. apply sound_bind; [apply sound_silent, silent_found|]. intros row. cbv zeta.
  apply sound_guard. intros _. apply sound_guard. intros _. apply sound_bind; [destruct (terminalTargetFromOutbox _); [apply sound_ret|apply sound_rollback]|]. intros described.
  apply sound_bind; [apply sound_silent; sound_auto|]. intros result. apply sound_bind; [apply sound_silent; sound_auto|]. intros final.
  apply sound_guard. intros _. apply sound_bind; [apply sound_silent, silent_found|]. intros artifacts. apply complete_reconciliation_sound.
Qed.

Lemma recordTerminalReconcileFailure_sound claim at_ cause : sound (recordTerminalReconcileFailure claim at_ cause).
Proof.
  unfold recordTerminalReconcileFailure. intros t u t' Hok Ht. tx_step Ht. apply tx_bind_Ok in Ht as (r & t1 & Hr & Ht). unfold found in Hr. case_hyp Hr. injection Hr as <- <-.
  apply tx_bind_Ok in Ht as ([] & t1 & Hq & Ht). unfold require in Hq. case_hyp Hq. injection Hq as <-.
  apply scoped_row_Some in E as [E _]. eapply (write_kept _ (failed_row (failure_reason cause) at_)); [done|done| |exact Ht]. by rewrite (ok_id _ _ (Hok _ _ E)).
Qed.

Lemma agent_query_silent agentID limit pred keys : silent (agent_query agentID limit pred keys).
Proof. unfold agent_query. sound_auto. Qed.

Lemma body_sound {A} (c : repo_call A) x : sound (body c x).
Proof.
  destruct c; cbn [body].
  - apply CreateInTx_sound.
  - apply sound_silent. unfold Get. sound_auto.
  - apply sound_silent. unfold Repository_Transition. sound_auto.
  - apply RequestCancel_sound.
  - unfold ClaimOutbox. apply sound_guard. intros _. by apply claimCommands_sound.
  - apply ReservePrepareSlot_sound.
  - apply sound_silent. unfold LookupCommand. sound_auto.
  - apply PrepareCommandEnvelope_sound.
  - by apply claimCommands_sound.
  - apply sound_silent, agent_query_silent.
  - apply MarkPrepared_sound.
  - apply AuthorizeStart_sound.
  - unfold MarkStartEnqueued. apply sound_guard. intros _. apply sound_bind; [by apply update_kept|]. intros b. apply sound_silent, quiet_require.
  - apply RenewExecutionLease_sound.
  - apply ClaimExpiredExecution_sound.
  - apply FinalizeExpiredExecution_sound.
  - apply FinalizeExpiredPrepared_sound.
  - by apply claimCommands_sound.
  - apply sound_silent, agent_query_silent.
  - unfold MarkTerminalAuditRecorded. apply sound_guard. intros _. by apply exec_kept.
  - apply PersistTerminalResult_sound.
  - by apply claimCommands_sound.
  - by apply exec_kept.
  - unfold RenewCommandLease. apply sound_guard. intros _. by apply exec_kept.
  - by apply claimCommands_sound.
  - apply PersistTerminalCommand_sound.
  - apply MarkCommandTerminal_sound.
  - unfold MarkOutboxPublished. apply sound_guard. intros _. apply sound_guard. intros _. by apply exec_kept.
  - apply sound_silent, agent_query_silent.
  - apply claimTerminalCommands_sound.
  - apply reconcileTerminalCommand_sound.
  - apply recordTerminalReconcileFailure_sound.
Qed.

(** ** Histories *)

(** One call, however it ends. *)
Definition db_step (t t' : tables) : Prop := exists A (c : repo_call A) x r, exec c x t = (r, t').

Lemma exec_cases {A} (c : repo_call A) x t r t' : exec c x t = (r, t') -> t' = t \/ exists a, body c x t = Ok (a, t').
Proof.
  unfold exec, perform. destruct (ends x).
  - destruct (body c x t) as [[a t1]|e]; intros [= <- <-]; eauto.
  - intros [= <- <-]. by left.
  - destruct (body c x t) as [[a t1]|e]; intros [= <- <-]; eauto.
Qed.

Lemma step_evolves t t' : map_Forall row_ok (outbox t) -> db_step t t' -> evolves t t'.
Proof. intros Hok (A & c & x & r & [->|[a Ha]]%exec_cases); [reflexivity|]. by eapply body_sound. Qed.

Lemma steps_evolve t t' : map_Forall row_ok (outbox t) -> rtc db_step t t' -> map_Forall row_ok (outbox t') /\ evolves t t'.
Proof.
  intros Hok Hs. induction Hs as [t|t1 t2 t3 Hs _ IH]; [split; [done|reflexivity]|].
  pose proof (step_evolves _ _ Hok Hs) as E. pose proof (evolves_ok _ _ Hok E) as Hok2. destruct (IH Hok2) as [Hok3 E3]. split; [done|]. by eapply evolves_trans.
Qed.

Lemma call_db_step {A} (c : repo_call A) x t r t' : exec c x t = (r, t') -> db_step t t'.
Proof. intros Hx. by exists A, c, x, r. Qed.

(** Tables reachable from an empty outbox. *)
Definition reachable (t : tables) : Prop := exists t0, outbox t0 = ∅ /\ rtc db_step t0 t.

Lemma reachable_ok t : reachable t -> map_Forall row_ok (outbox t).
Proof. intros (t0 & H0 & Hs). apply (steps_evolve t0 t); [rewrite H0; apply map_Forall_empty|done]. Qed.

Lemma phase_path_terminal p q : phase_path p q -> terminal_phase p = true -> p <> CommandPhaseRejected -> q = p.
Proof. intros Hp. induction Hp as [|p q r He _ IH]; [done|]. intros Ht Hn. destruct He; try done; by destruct p. Qed.

Lemma phase_path_started p q : phase_path p q -> started_phase p = true \/ terminal_phase p = true -> started_phase q = true \/ terminal_phase q = true.
Proof. intros Hp. induction Hp as [|p q r He _ IH]; [done|]. intros Hs. apply IH. destruct He; cbn; auto; destruct Hs; done. Qed.
End operations.

(** ** Theorems *)

Section theorems.
Context `{JobDatabase}.

Lemma later_row t t' id r : reachable t -> rtc db_step t t' -> outbox t !! id = Some r ->
  exists r', outbox t' !! id = Some r' /\ row_ok id r /\ row_ok id r' /\ advances (message r) (message r').
Proof.
  intros Hr Hs E. pose proof (reachable_ok _ Hr) as Hok. destruct (steps_evolve _ _ Hok Hs) as [_ He].
  destruct (proj1 (He id) r E (Hok _ _ E)) as (r' & E' & Hok' & Ha). exists r'. split_and!; auto.
Qed.

Lemma started_revision id r : row_ok id r -> started_phase (o_Phase (message r)) = true -> 0 < o_ExecutionRevision (message r).
Proof.
  intros [_ Hc _ _] Hs. unfold row_check in Hc. rewrite !andb_true_iff in Hc. destruct_and?. rewrite Hs in *. cbn [negb orb] in *.
  repeat match goal with Hx : (_ && _) = true |- _ => apply andb_true_iff in Hx as [? ?] end. by bool_simpl.
Qed.

(** A successful authorisation: the row before and after, and the grant. *)
Lemma AuthorizeStart_Ok scope id digest hash ciphertext at_ deadline x t g t' : map_Forall row_ok (outbox t) ->
  exec (RAuthorizeStart scope id digest hash ciphertext at_ deadline) x t = (Ok g, t') ->
  exists r r', outbox t !! id = Some r /\ outbox t' !! id = Some r' /\ (started_phase (o_Phase (message r)) = true \/ o_CancellationRequestedAt (message r) = None) /\
    started_phase (o_Phase (message r')) = true /\
    g_TokenHash g = o_ExecutionTokenHash (message r') /\ g_TokenCiphertext g = o_ExecutionTokenCiphertext (message r') /\ g_ExecutionRevision g = o_ExecutionRevision (message r').
Proof.
  unfold exec, perform. cbn [body]. intros Hok Hx. assert (Hb : AuthorizeStart scope id digest hash ciphertext at_ deadline t = Ok (g, t')).
  { destruct (ends x); [|done|]; destruct (AuthorizeStart _ _ _ _ _ _ _ t) as [[a t1]|e]; [by injection Hx as -> ->|discriminate Hx..]. }
  clear Hx. unfold AuthorizeStart in Hb. do 9 tx_step Hb. apply scoped_row_Some in E1 as [Er Es].
  destruct (started_phase (o_Phase (message o))) eqn:Hs.
  - unfold startGrantFromStored in Hb. destruct (o_StartDeadline (message o)); [|discriminate Hb].
    destruct (_ || _); [discriminate Hb|]. injection Hb as <- <-. exists o, o. split_and!; auto.
  - case_hyp Hb. case_hyp Hb. bool_simpl. apply tx_bind_Ok in Hb as (b & t2 & Hu & Hb). tx_step Hb. injection Hb as <- <-.
    unfold update_scoped in Hu. tx_step Hu. unfold scoped_row in Hu. rewrite Er, bool_decide_true in Hu by done. case_hyp Hu.
    apply tx_bind_Ok in Hu as (u & t3 & [_ ->]%write_row_Ok & Hu). injection Hu as <-.
    exists o, (o <| message := authorized_message hash ciphertext at_ deadline (message o) |>). cbn. split_and!; try done; [|right; by apply null_None].
    rewrite (ok_id _ _ (Hok _ _ Er)). apply lookup_insert_eq.
Qed.

(** C23: commands refine the abstract machine.  After any calls, by any number of control planes and with any outcome of
    their transactions, a command is still there with its identity and payload, its phase has moved along the machine and
    its status is the one of its phase; a started command never returns to a phase before the start; a terminal status
    other than a rejection, and a recorded result digest, never change. *)
Theorem commands_follow_their_machine t t' id r : reachable t -> rtc db_step t t' -> outbox t !! id = Some r ->
  exists r', outbox t' !! id = Some r' /\ let m := message r in let m' := message r' in
    (o_ID m', o_Scope m', o_JobID m', o_TargetID m', o_Payload m') = (id, o_Scope m, o_JobID m, o_TargetID m, o_Payload m) /\
    phase_path (o_Phase m) (o_Phase m') /\ o_CommandStatus m' = status_of_phase (o_Phase m') /\
    (started_phase (o_Phase m) = true -> started_phase (o_Phase m') = true \/ terminal_phase (o_Phase m') = true) /\
    (terminalCommandStatus (o_CommandStatus m) = true -> o_CommandStatus m <> CommandRejected -> o_CommandStatus m' = o_CommandStatus m) /\
    (o_TerminalResultDigest m <> [] -> o_TerminalResultDigest m' = o_TerminalResultDigest m).
Proof.
  intros Hr Hs E. destruct (later_row _ _ _ _ Hr Hs E) as (r' & E' & Hok & Hok' & Ha). exists r'. split; [done|]. cbv zeta. pose proof (adv_phase _ _ Ha) as Hp.
  split_and!; [|done|apply Hok'|intros; by eapply phase_path_started; [|left]| |apply Ha].
  - pose proof (adv_identity _ _ Ha) as Hi. rewrite <- (ok_id _ _ Hok'). congruence.
  - intros Ht Hn. rewrite (ok_status _ _ Hok), (ok_status _ _ Hok') in *. assert (Hq : o_Phase (message r') = o_Phase (message r)); [|by rewrite Hq].
    apply (phase_path_terminal _ _ Hp); [by destruct (o_Phase (message r))|]. intros Hq. by rewrite Hq in Hn.
Qed.

(** a command has one execution fence.  All authorisations to start a command that ever succeed grant the same token
    hash, the same protected token and the same revision, so that every agent and every control plane sees one execution;
    the fence of a started command is never changed by any call. *)
Theorem execution_fence_is_unique t id t1 t2 t3 s s' d d' h h' c c' a a' l l' x x' g g' :
  reachable t -> exec (RAuthorizeStart s id d h c a l) x t = (Ok g, t1) -> rtc db_step t1 t2 -> exec (RAuthorizeStart s' id d' h' c' a' l') x' t2 = (Ok g', t3) ->
  (g_TokenHash g', g_TokenCiphertext g', g_ExecutionRevision g') = (g_TokenHash g, g_TokenCiphertext g, g_ExecutionRevision g) /\
  forall r3, outbox t3 !! id = Some r3 -> fence (message r3) = (g_TokenHash g, g_TokenCiphertext g, g_ExecutionRevision g, o_StartDeadline (message r3)).
Proof.
  intros Hr H1 Hs H2. pose proof (reachable_ok _ Hr) as Hok. destruct (AuthorizeStart_Ok _ _ _ _ _ _ _ _ _ _ _ Hok H1) as (r & r1 & E & E1 & _ & Hst & Hh & Hc & Hv).
  assert (Hr1 : reachable t1). { destruct Hr as (t0 & H0 & Hr). exists t0. split; [done|]. eapply rtc_r; [exact Hr|]. repeat eexists. exact H1. }
  assert (Hs3 : rtc db_step t1 t3). { eapply rtc_r; [exact Hs|]. repeat eexists. exact H2. }
  assert (Hok2 : map_Forall row_ok (outbox t2)) by by apply (steps_evolve t1 t2 (reachable_ok _ Hr1) Hs).
  destruct (AuthorizeStart_Ok _ _ _ _ _ _ _ _ _ _ _ Hok2 H2) as (r2 & r3 & E2 & E3 & _ & Hst3 & Hh3 & Hc3 & Hv3).
  destruct (later_row _ _ _ _ Hr1 Hs3 E1) as (r3' & E3' & Hok1 & _ & Ha). rewrite E3 in E3'. injection E3' as <-.
  pose proof (adv_fence _ _ Ha (started_revision _ _ Hok1 Hst)) as Hf. pose proof Hf as [= F1 F2 F3 F4]. split; [congruence|].
  intros r4 E4. rewrite E3 in E4. injection E4 as <-. unfold fence. congruence.
Qed.

(** a cancellation before the start is final.  Once the cancellation of a command that has not started is recorded,
    no call ever starts it: it stays unstarted, and every later authorisation to start fails. *)
Theorem cancellation_before_start_is_final t t' id r s d h c a l x : reachable t -> rtc db_step t t' -> outbox t !! id = Some r ->
  is_Some (o_CancellationRequestedAt (message r)) -> started_phase (o_Phase (message r)) = false ->
  (exists r', outbox t' !! id = Some r' /\ started_phase (o_Phase (message r')) = false /\ o_CancellationRequestedAt (message r') = o_CancellationRequestedAt (message r)) /\
  is_ok (fst (exec (RAuthorizeStart s id d h c a l) x t')) = false.
Proof.
  intros Hr Hs E Hc Hn. destruct (later_row _ _ _ _ Hr Hs E) as (r' & E' & Hok & Hok' & Ha). pose proof (adv_unstarted _ _ Ha Hc Hn) as Hn'. pose proof (adv_cancelled _ _ Ha Hc) as Hc'.
  split; [by exists r'|]. destruct (exec _ x t') as [[g|e] t2] eqn:Ex; [|done]. exfalso.
  assert (Hok2 : map_Forall row_ok (outbox t')) by by apply (steps_evolve t t' (reachable_ok _ Hr) Hs).
  destruct (AuthorizeStart_Ok _ _ _ _ _ _ _ _ _ _ _ Hok2 Ex) as (r2 & r3 & E2 & _ & [Hst|Hcn] & _); [congruence|]. rewrite E' in E2. injection E2 as <-.
  rewrite Hc', Hcn in *. by destruct Hc.
Qed.
End theorems.

(** ** Witnesses *)
Module PhaseDemo.

(** A database that keeps microseconds, and an envelope encoded as one byte. *)
Definition envelope : CommandEnvelope := MkEnvelope "" "" "host-1" None None [] [] 60 (Some (OtherCommand "collect_now" [])).
#[export] Instance demo_database : JobDatabase := {
  pg_time t := Time (instant t / 1000 * 1000) false;
  artifacts_jsonb l := Some l;
  detail_jsonb d := Some d;
  detail_text d := EmptyString;
  collate := string_leb;
  Unmarshal b := if bool_decide (b = [1]) then Some (envelope, []) else None;
  Marshal _ := [1];
  ValidateShape _ := true;
}.

Definition at_second (s : Z) : time := Time (unix_epoch + s * second) true.
Definition scope : JobScope := {| TenantID := "t"; ProjectID := "p" |}.
Definition job : Job :=
  demo_job StatusQueued [] <| j_IdempotencyKey := "key-1"%string |> <| j_Version := 1 |> <| j_TargetResourceIDs := ["host-1"%string] |>
    <| j_Progress := {| TotalTargets := 1; CompletedTargets := 0; FailedTargets := 0; SkippedTargets := 0 |} |>.
Definition command : OutboxMessage :=
  MkOutboxMessage "command-1" scope "job-1" "host-1" commandOutboxType [1] [] (at_second 1) (at_second 1) None None 0 CommandUnset None None None None None "" None None 0
    CommandPhaseUnset [] None [] [] 0 0 None None [] None 0 [] None false "" "" "" ∅ None 0 None TargetUnset "" "" [] false.

Definition commit : circumstance := {| ends := TxCommit; locked_rows := ∅; draws := [] |}.
Definition call {A} (c : repo_call A) (t : tables) : tables := snd (exec c commit t).
Definition digest : bytes := replicate 32 7.
Definition hash (n : Z) : bytes := replicate 32 n.

Definition empty : tables := Tables ∅ ∅ ∅.
Definition created : tables := call (RCreate (fun _ => true) job [command]) empty.
Definition prepared : tables :=
  call (RMarkPrepared scope "command-1" digest (at_second 4))
    (call (RPrepareCommandEnvelope scope "command-1" [9]) (call (RReservePrepareSlot scope "command-1" (at_second 3)) created)).
Definition authorize (n : Z) : repo_call StartGrant := RAuthorizeStart scope "command-1" digest (hash n) [n] (at_second 5) (at_second 60).
Definition started : tables := call (authorize 1) prepared.
Definition cancelled : tables := call (RRequestCancel scope "job-1" "ops" 1 (at_second 2)) created.

Lemma call_steps {A} (c : repo_call A) t : rtc db_step t (call c t).
Proof. apply rtc_once. exists A, c, commit, (fst (exec c commit t)). unfold call. by destruct (exec c commit t). Qed.
Lemma from_empty t : rtc db_step empty t -> reachable t.
Proof. intros Hs. by exists empty. Qed.
Lemma prepared_reachable : reachable prepared.
Proof. apply from_empty. unfold prepared, created. do 4 (etrans; [|apply call_steps]). reflexivity. Qed.

Definition phase_of (t : tables) : option CommandPhase := (fun r => o_Phase (message r)) <$> outbox t !! "command-1"%string.

Lemma commands_follow_their_machine_witness : exists r', outbox started !! "command-1"%string = Some r' /\ phase_path CommandPhasePrepared (o_Phase (message r')) /\
  phase_of started = Some CommandPhaseStartAuthorized.
Proof.
  assert (E : exists r, outbox prepared !! "command-1"%string = Some r /\ o_Phase (message r) = CommandPhasePrepared) by (eexists; split; vm_compute; reflexivity).
  destruct E as (r & E & Hp). destruct (commands_follow_their_machine prepared started "command-1" r prepared_reachable (call_steps _ _) E) as (r' & E' & Hrest).
  exists r'. split; [exact E'|]. split; [|vm_compute; reflexivity]. rewrite <- Hp. exact (proj1 (proj2 Hrest)).
Defined.

Lemma execution_fence_is_unique_witness : exists g g', fst (exec (authorize 1) commit prepared) = Ok g /\ fst (exec (authorize 2) commit started) = Ok g' /\
  (g_TokenHash g', g_TokenCiphertext g', g_ExecutionRevision g') = (g_TokenHash g, g_TokenCiphertext g, g_ExecutionRevision g).
Proof.
  destruct (exec (authorize 1) commit prepared) as [[g|e] t1] eqn:E1; [|exfalso; revert E1; vm_compute; discriminate].
  destruct (exec (authorize 2) commit started) as [[g'|e] t3] eqn:E3; [|exfalso; revert E3; vm_compute; discriminate].
  exists g, g'. split; [reflexivity|]. split; [reflexivity|].
  assert (Ht : started = t1) by (unfold started, call; by rewrite E1). rewrite Ht in E3.
  exact (proj1 (execution_fence_is_unique prepared "command-1" t1 t1 t3 _ _ _ _ _ _ _ _ _ _ _ _ commit commit g g' prepared_reachable E1 (rtc_refl _ _) E3)).
Defined.

Lemma cancellation_before_start_is_final_witness :
  is_ok (fst (exec (authorize 1) commit (call (RMarkPrepared scope "command-1" digest (at_second 4)) cancelled))) = false.
Proof.
  assert (E : exists r, outbox cancelled !! "command-1"%string = Some r /\ is_Some (o_CancellationRequestedAt (message r)) /\ started_phase (o_Phase (message r)) = false).
  { eexists. split; [vm_compute; reflexivity|]. split; [eexists; reflexivity|reflexivity]. }
  destruct E as (r & E & Hc & Hn).
  refine (proj2 (cancellation_before_start_is_final cancelled _ "command-1" r _ _ _ _ _ _ commit _ (call_steps _ _) E Hc Hn)).
  apply from_empty. unfold cancelled, created. do 2 (etrans; [|apply call_steps]). reflexivity.
Defined.

End PhaseDemo.
