(* ===== verification/CommandSlots.v ===== *)
(** * Prepare slots

    A job may limit how many of its commands are prepared or executed at a
    time ([MaxConcurrency]).  [ReservePrepareSlot] counts the active commands of
    the job under a lock; this file shows what every other call of the
    repository does to that count, and which calls may only be made for a
    command that holds a slot. *)

From S2P Require Import Prelude GoText JobModel JobRepository CommandPhases.

Open Scope Z_scope.
Open Scope update_scope.

Definition job_of (r : outboxRow) : JobScope * string := (o_Scope (message r), o_JobID (message r)).
Definition active (r : outboxRow) : bool := activePreparePhase (o_Phase (message r)).

(** A command that is still pending although it has a prepared envelope; no call makes one. *)
Definition half_prepared (r : outboxRow) : Prop := o_Phase (message r) = CommandPhasePending /\ o_PreparedEnvelope (message r) <> [].

(** What calls leave alone: the limits of jobs, the job of a command, and, for [strict] calls, which commands are active. *)
Record steady (strict : bool) (t t' : tables) : Prop := {
  steady_limits k j : jobs t !! k = Some j -> exists j', jobs t' !! k = Some j' /\ j_MaxConcurrency j' = j_MaxConcurrency j;
  steady_created k j' : jobs t' !! k = Some j' -> jobs t !! k = None -> 0 <= j_MaxConcurrency j';
  steady_rows id r' : outbox t' !! id = Some r' -> (exists r, outbox t !! id = Some r /\ job_of r' = job_of r) \/ is_Some (jobs t' !! job_of r');
  steady_envelopes id r' : outbox t' !! id = Some r' -> half_prepared r' -> exists r, outbox t !! id = Some r /\ half_prepared r;
  steady_active id r' : strict = true -> outbox t' !! id = Some r' -> active r' = true -> exists r, outbox t !! id = Some r /\ active r = true /\ job_of r' = job_of r;
}.

#[global] Instance steady_preorder strict : PreOrder (steady strict).
Proof.
  split.
  - intros t. split; eauto; congruence.
  - intros t1 t2 t3 [L1 C1 R1 E1 A1] [L2 C2 R2 E2 A2]. split.
    + intros k j Hj. destruct (L1 k j Hj) as (j2 & H2 & M2). destruct (L2 k j2 H2) as (j3 & H3 & M3). exists j3. split; [done|congruence].
    + intros k j3 H3 H1. destruct (jobs t2 !! k) as [j2|] eqn:H2; [|eauto]. destruct (L2 k j2 H2) as (j3' & H3' & M3). rewrite H3 in H3'. injection H3' as <-. rewrite M3. eauto.
    + intros id r3 H3. destruct (R2 id r3 H3) as [(r2 & H2 & J2)|]; [|by right]. destruct (R1 id r2 H2) as [(r1 & H1 & J1)|[j Hj]].
      * left. exists r1. split; [done|congruence].
      * right. rewrite J2. destruct (L2 _ _ Hj) as (j' & Hj' & _). by exists j'.
    + intros id r3 H3 Hh. destruct (E2 id r3 H3 Hh) as (r2 & H2 & Hh2). eauto.
    + intros id r3 Hs H3 Ha. destruct (A2 id r3 Hs H3 Ha) as (r2 & H2 & Ha2 & J2). destruct (A1 id r2 Hs H2 Ha2) as (r1 & H1 & Ha1 & J1).
      exists r1. split_and!; [done..|congruence].
Qed.

Lemma steady_lax strict t t' : steady strict t t' -> steady false t t'.
Proof. intros []. by split. Qed.

(** ** A logic for transactions *)

Definition keeps (strict : bool) {A} (m : Tx A) : Prop := forall t a t', filed t -> m t = Ok (a, t') -> steady strict t t' /\ filed t'.

Section logic.
Context {strict : bool}.

Lemma keeps_bind {A B} (m : Tx A) (f : A -> Tx B) : keeps strict m -> (forall a, keeps strict (f a)) -> keeps strict (m ≫= f).
Proof.
  intros Hm Hf t b t' Hi (a & t1 & H1 & H2)%tx_bind_Ok. destruct (Hm _ _ _ Hi H1) as [S1 Hi1]. destruct (Hf _ _ _ _ Hi1 H2) as [S2 Hi2]. split; [by etrans|done].
Qed.
Lemma keeps_ret {A} (a : A) : keeps strict (mret a).
Proof. intros t b t' Hi [= <- <-]. split; [reflexivity|done]. Qed.
Lemma keeps_rollback {A} e : keeps strict (rollback (A := A) e).
Proof. by intros t a t' Hi [=]. Qed.
Lemma keeps_read {A} (f : tables -> A) : keeps strict (read f).
Proof. intros t b t' Hi [= <- <-]. split; [reflexivity|done]. Qed.
Lemma keeps_require ok e : keeps strict (require ok e).
Proof. destruct ok; [apply keeps_ret|apply keeps_rollback]. Qed.
Lemma keeps_found {A} (o : option A) e : keeps strict (found o e).
Proof. destruct o; [apply keeps_ret|apply keeps_rollback]. Qed.
Lemma keeps_lift {A} (r : result JobError A) : keeps strict (lift r).
Proof. destruct r; [apply keeps_ret|apply keeps_rollback]. Qed.
Lemma keeps_guard {A} ok e (f : unit -> Tx A) : (ok = true -> keeps strict (f tt)) -> keeps strict (require ok e ≫= f).
Proof. intros Hf. destruct ok; [|intros t a t' _ [=]]. intros t a t1 Hi Ht. exact (Hf eq_refl t a t1 Hi Ht). Qed.

(** A write that leaves jobs and commands alone. *)
Lemma keeps_targets (g : tables -> gmap (JobScope * string * string) TargetResult) : keeps strict (write (fun t => Tables (jobs t) (g t) (outbox t))).
Proof. intros t a t' Hi [= <- <-]. split; [|done]. split; eauto; cbn; congruence. Qed.

(** A change of a row that keeps its job, does not prepare it halfway and, in strict calls, does not make it active. *)
Definition calm (guard : outboxRow -> Prop) (f : outboxRow -> outboxRow) : Prop :=
  forall r, guard r -> o_ID (message (f r)) = o_ID (message r) /\ job_of (f r) = job_of r /\ (half_prepared (f r) -> half_prepared r) /\
            (strict = true -> active (f r) = true -> active r = true).

Lemma write_row_keeps (guard : outboxRow -> Prop) f id r t a t' : calm guard f -> filed t -> outbox t !! id = Some r -> guard r ->
  write_row (f r) t = Ok (a, t') -> (steady strict t t' /\ filed t') /\ outbox t' = <[id := f r]> (outbox t).
Proof.
  intros Hf Hi Hr Hg [_ ->]%write_row_Ok. destruct (Hf r Hg) as (H1 & H2 & H3 & H4). rewrite H1, (Hi _ _ Hr). split; [|done]. split.
  - split; cbn; [eauto|congruence|..].
    + intros id' x. rewrite lookup_insert_Some. intros [[<- <-]|[_ Hx]]; eauto.
    + intros id' x. rewrite lookup_insert_Some. intros [[<- <-]|[_ Hx]]; eauto.
    + intros id' x Hs. rewrite lookup_insert_Some. intros [[<- <-]|[_ Hx]]; eauto.
  - intros id' x. cbn. rewrite lookup_insert_Some. intros [[<- <-]|[_ Hx]]; [|by apply Hi]. rewrite H1. by apply Hi.
Qed.

Lemma update_scoped_keeps scope id guard f :
  calm (fun r => guard (message r) = true) (fun r => r <| message := f (message r) |>) -> keeps strict (update_scoped scope id guard f).
Proof.
  intros Hf t b t' Hi (o & t1 & H1 & H2)%tx_bind_Ok. injection H1 as <- <-. destruct (scoped_row scope id t) as [r|] eqn:E; [|injection H2 as <- <-; split; [reflexivity|done]].
  destruct (guard (message r)) eqn:Hg; [|injection H2 as <- <-; split; [reflexivity|done]]. apply scoped_row_Some in E as [E _].
  apply tx_bind_Ok in H2 as (u & t2 & H2 & H3). injection H3 as <- <-. apply (write_row_keeps _ _ _ _ _ _ _ Hf Hi E Hg H2).
Qed.

Lemma execScopedCommand_keeps scope id guard f :
  calm (fun r => guard (message r) = true) (fun r => r <| message := f (message r) |>) -> keeps strict (execScopedCommand scope id guard f).
Proof. intros Hf. unfold execScopedCommand. apply keeps_bind; [by apply update_scoped_keeps|]. intros b. apply keeps_require. Qed.

Lemma write_rows_keeps (guard : outboxRow -> Prop) f l t a t' : calm guard f -> filed t -> NoDup ((fun r => o_ID (message r)) <$> l) ->
  (forall r, r ∈ l -> outbox t !! o_ID (message r) = Some r /\ guard r) -> write_rows (f <$> l) t = Ok (a, t') -> steady strict t t' /\ filed t'.
Proof.
  intros Hf. revert t. induction l as [|r l IH]; intros t Hi Hnd Hl; cbn [fmap list_fmap write_rows]; [intros [= <- <-]; split; [reflexivity|done]|].
  intros (u & t1 & H1 & H2)%tx_bind_Ok. destruct (Hl r) as [Hr Hg]; [by left|]. cbn in Hnd. apply NoDup_cons in Hnd as [Hni Hnd].
  destruct (write_row_keeps _ _ _ _ _ _ _ Hf Hi Hr Hg H1) as [[S1 Hi1] Ho].
  destruct (IH t1 Hi1 Hnd) as [S2 Hi2]; [|exact H2|split; [by etrans|done]].
  intros x Hx. destruct (Hl x) as [Hxr Hxg]; [by right|]. split; [|done]. rewrite Ho, lookup_insert_ne; [done|].
  intros E. apply Hni. rewrite E. apply list_elem_of_fmap. eauto.
Qed.
End logic.

Create HintDb slots.
#[export] Hint Resolve keeps_ret keeps_rollback keeps_read keeps_require keeps_found keeps_lift keeps_targets : slots.

(** Walk through a transaction; the guards of its updates are left. *)
Ltac keeps_step :=
  match goal with
  | |- keeps _ (_ ≫= _) => apply keeps_bind; [|intros ?]
  | |- keeps _ (let x := _ in _) => cbv zeta
  | |- keeps _ (match ?x with _ => _ end) => destruct x
  | |- keeps _ (if ?x then _ else _) => destruct x
  | |- keeps _ (update_scoped _ _ _ _) => apply update_scoped_keeps
  | |- keeps _ (execScopedCommand _ _ _ _) => apply execScopedCommand_keeps
  end.
Ltac keeps_auto := repeat first [solve [eauto with slots] | keeps_step].

Section operations.
Context `{JobDatabase} {strict : bool}.

(** A change of the message that keeps phase and envelope. *)
Lemma calm_kept (guard : outboxRow -> Prop) f : (forall r, guard r -> kept (message (f r)) = kept (message r)) -> calm (strict := strict) guard f.
Proof.
  intros Hk r Hg. pose proof (Hk r Hg) as Hr. unfold kept in Hr. injection Hr as Ei Es Ej _ _ _ Ee _ Ep _ _ _ _.
  unfold job_of, half_prepared, active. rewrite Ei, Es, Ej, Ee, Ep. by split_and!.
Qed.

(** A change to a phase that is terminal, or from one that is active. *)
Lemma calm_phase (guard : outboxRow -> Prop) f :
  (forall r, guard r -> o_ID (message (f r)) = o_ID (message r) /\ job_of (f r) = job_of r /\
     (terminal_phase (o_Phase (message (f r))) = true \/ active r = true /\ o_Phase (message (f r)) <> CommandPhasePending)) ->
  calm (strict := strict) guard f.
Proof.
  intros Hf r Hg. destruct (Hf r Hg) as (H1 & H2 & H3). split_and!; [done..| |].
  - intros [Hp He]. rewrite Hp in H3. by destruct H3 as [|[_ ?]].
  - intros _ Ha. destruct H3 as [H3|[H3 _]]; [|done]. unfold active in Ha. by destruct (o_Phase (message (f r))).
Qed.

Lemma upsert_targets_keeps scope id l : keeps strict (upsert_targets scope id l).
Proof.
  induction l as [|r l IH]; cbn [upsert_targets]; [apply keeps_ret|]. apply keeps_bind; [|done]. unfold upsert_target. keeps_auto.
Qed.
#[local] Hint Resolve upsert_targets_keeps : slots.

Lemma load_job_keeps scope id : keeps strict (load_job scope id).
Proof. unfold load_job. keeps_auto. Qed.
#[local] Hint Resolve load_job_keeps : slots.

(** A job row that is rewritten with its limit. *)
Lemma write_job_keeps scope id stored row' t a t' : filed t -> jobs t !! (scope, id) = Some stored -> j_MaxConcurrency row' = j_MaxConcurrency stored ->
  write (fun t => Tables (<[(scope, id) := row']> (jobs t)) (targets t) (outbox t)) t = Ok (a, t') -> steady strict t t' /\ filed t'.
Proof.
  intros Hi Hj Hm [= <- <-]. split; [|done]. split; cbn; eauto.
  - intros k j Hk. destruct (decide (k = (scope, id))) as [->|Hne]; [|rewrite lookup_insert_ne by done; eauto].
    exists row'. rewrite lookup_insert_eq. split; [done|]. congruence.
  - intros k j'. rewrite lookup_insert_Some. intros [[<- <-]|[_ Hx]]; congruence.
Qed.

Lemma updated_job_limit row next artifacts : j_MaxConcurrency (updated_job row next artifacts) = j_MaxConcurrency row.
Proof. done. Qed.

(** Read a job row, check it, and rewrite it with its limit. *)
Lemma rewrite_job_keeps scope id (check : Job -> bool) e e' (check' : Job -> bool) (f : Job -> Job) : (forall j, j_MaxConcurrency (f j) = j_MaxConcurrency j) ->
  forall A (k : Job -> Tx A), (forall j, keeps strict (k j)) ->
  keeps strict (row ← read (fun t => jobs t !! (scope, id)); stored ← found row ErrConflict; _ ← require (check stored) e; _ ← require (check' stored) e';
                _ ← write (fun t => Tables (<[(scope, id) := f stored]> (jobs t)) (targets t) (outbox t)); k stored).
Proof.
  intros Hf A k Hk t a t' Hi Ht. do 4 tx_step Ht. apply tx_bind_Ok in Ht as (u & t1 & Hw & Ht).
  destruct (write_job_keeps scope id j (f j) t u t1 Hi E0 (Hf j) Hw) as [S1 F1]. destruct (Hk j t1 a t' F1 Ht) as [S2 F2]. split; [by etrans|done].
Qed.

Lemma transitionInTx_keeps tr : keeps strict (transitionInTx tr).
Proof.
  unfold transitionInTx. apply keeps_bind; [apply load_job_keeps|]. intros current. cbv zeta. apply keeps_bind; [apply keeps_lift|]. intros next.
  apply keeps_bind; [apply keeps_found|]. intros artifacts.
  refine (rewrite_job_keeps _ _ (fun stored => j_Version stored =? j_Version current) _ _ (fun stored => job_check (updated_job stored next artifacts))
            (fun stored => updated_job stored next artifacts) (fun j => updated_job_limit j next artifacts) _ (fun _ => _) _).
  intros j. keeps_auto.
Qed.
#[local] Hint Resolve transitionInTx_keeps : slots.

Lemma timeoutJobTargetInTx_keeps value m at_ : keeps strict (timeoutJobTargetInTx value m at_).
Proof. unfold timeoutJobTargetInTx. keeps_auto. Qed.
Lemma record_target_keeps at_ value target : keeps strict (record_target at_ value target).
Proof. unfold record_target. keeps_auto. Qed.
#[local] Hint Resolve timeoutJobTargetInTx_keeps record_target_keeps : slots.

(** *** Creation *)

Lemma insert_messages_keeps l : forall t a t', filed t -> (forall m, m ∈ l -> is_Some (jobs t !! (o_Scope m, o_JobID m)) /\ o_PreparedEnvelope m = []) ->
  insert_messages l t = Ok (a, t') -> steady strict t t' /\ filed t'.
Proof.
  induction l as [|m l IH]; intros t a t' Hi Hl Ht; cbn [insert_messages] in Ht; [injection Ht as _ <-; split; [reflexivity|done]|].
  tx_step Ht. tx_step Ht. apply tx_bind_Ok in Ht as (u & t1 & [_ ->]%write_row_Ok & Ht). bool_simpl. apply eq_None_not_Some in E0.
  destruct (Hl m) as [Hj He]; [by left|]. set (t1 := Tables _ _ _) in Ht.
  assert (S1 : steady strict t t1).
  { subst t1. split; cbn; [eauto|congruence|..].
    - intros id' x. rewrite lookup_insert_Some. intros [[<- <-]|[_ Hx]]; [by right|eauto].
    - intros id' x. rewrite lookup_insert_Some. intros [[<- <-]|[_ Hx]]; [|eauto]. by intros [_ Hp].
    - intros id' x Hs. rewrite lookup_insert_Some. intros [[<- <-]|[_ Hx]]; [done|eauto]. }
  assert (F1 : filed t1). { intros id' x. subst t1. cbn. rewrite lookup_insert_Some. intros [[<- <-]|[_ Hx]]; [done|by apply Hi]. }
  destruct (IH t1 a t' F1) as [S2 F2]; [|exact Ht|split; [by etrans|done]]. intros m' Hm'. apply Hl. by right.
Qed.

Lemma valid_message authorized value m : validateOutboxMessage authorized value m = true ->
  (o_Scope m, o_JobID m) = (j_Scope value, j_ID value) /\ o_PreparedEnvelope m = [].
Proof.
  unfold validateOutboxMessage. rewrite !andb_true_iff. intros Hv. destruct_and?. unfold untouched in *. split; [by bool_simpl; f_equal|].
  repeat match goal with Hx : (_ && _) = true |- _ => apply andb_true_iff in Hx as [Hx ?] end. by apply null_bytes_nil.
Qed.

Lemma job_taken_false value t : job_taken value t = false -> jobs t !! (j_Scope value, j_ID value) = None.
Proof. unfold job_taken. intros [Ht _]%orb_false_iff. apply bool_decide_eq_false in Ht. by apply eq_None_not_Some. Qed.

(** A new job with its target rows and messages. *)
Lemma insert_job_keeps value (check : bool) e e' row rows messages : 0 <= j_MaxConcurrency row ->
  (forall m, m ∈ messages -> (o_Scope m, o_JobID m) = (j_Scope value, j_ID value) /\ o_PreparedEnvelope m = []) ->
  keeps strict (taken ← read (job_taken value); _ ← require (negb taken) e; _ ← require check e';
                _ ← write (fun t => Tables (<[(j_Scope value, j_ID value) := row]> (jobs t)) (targets t) (outbox t));
                _ ← upsert_targets (j_Scope value) (j_ID value) rows; insert_messages messages).
Proof.
  intros Hrow Hm t a t' Hi Ht. do 3 tx_step Ht. apply negb_true_iff, job_taken_false in E0.
  apply tx_bind_Ok in Ht as (u & t1 & Hw & Ht). injection Hw as _ <-. set (t1 := Tables _ _ _) in Ht.
  assert (S1 : steady strict t t1).
  { subst t1. split; cbn; eauto.
    - intros k j Hk. destruct (decide (k = (j_Scope value, j_ID value))) as [->|Hne]; [congruence|]. rewrite lookup_insert_ne by done. eauto.
    - intros k j'. rewrite lookup_insert_Some. intros [[<- <-]|[_ Hx]]; [done|congruence]. }
  apply tx_bind_Ok in Ht as (u' & t2 & Hu & Ht). assert (F1 : filed t1) by done. destruct (upsert_targets_keeps _ _ _ _ _ _ F1 Hu) as [S2 F2].
  assert (Hl : forall m, m ∈ messages -> is_Some (jobs t2 !! (o_Scope m, o_JobID m)) /\ o_PreparedEnvelope m = []).
  { intros m [Hk He]%Hm. split; [|done]. rewrite Hk.
    destruct (steady_limits _ _ _ S2 (j_Scope value, j_ID value) row) as (j' & Hj' & _); [apply lookup_insert_eq|by exists j']. }
  destruct (insert_messages_keeps _ _ _ _ F2 Hl Ht) as [S3 F3]. split; [etrans; [exact S1|by etrans]|done].
Qed.

Lemma inserted_job_limit value artifacts : 0 <= j_MaxConcurrency (inserted_job value artifacts).
Proof. cbn. lia. Qed.

Lemma CreateInTx_keeps authorized value messages : keeps strict (CreateInTx authorized value messages).
Proof.
  unfold CreateInTx. cbv zeta. apply keeps_bind; [keeps_auto|]. intros _. apply keeps_guard. intros Hv. apply keeps_bind; [keeps_auto|]. intros artifacts.
  apply insert_job_keeps; [apply inserted_job_limit|]. intros m Hm. rewrite forallb_forall in Hv. by eapply valid_message, Hv, list_elem_of_In.
Qed.

(** *** Claims and updates *)

Lemma selected_keeps (rows : list outboxRow) f t a t' : (forall r, kept (message (f r)) = kept (message r)) -> filed t -> rows ⊆+ (snd <$> map_to_list (outbox t)) ->
  write_rows (f <$> rows) t = Ok (a, t') -> steady strict t t' /\ filed t'.
Proof.
  intros Hf Hi Hs Hw. destruct (selected_rows t _ Hi Hs) as [Hnd Hin]. refine (write_rows_keeps (fun _ => True) f _ _ _ _ (calm_kept _ f (fun r _ => Hf r)) Hi Hnd _ Hw).
  intros r Hr. split; [by apply Hin|done].
Qed.

Lemma claimCommands_keeps pred keys f limit at_ locked : (forall m, kept (f m) = kept m) -> keeps strict (claimCommands pred keys f limit at_ locked).
Proof.
  intros Hf. unfold claimCommands. apply keeps_guard. intros _ t a t' Hi Ht. tx_step Ht. apply tx_bind_Ok in Ht as (u & t2 & Hw & Ht). injection Ht as _ <-.
  exact (selected_keeps _ (fun r => r <| message ::= f |>) _ _ _ (fun r => Hf (message r)) Hi (candidates_selected _ _ _ _ _) Hw).
Qed.

Lemma update_kept_keeps scope id guard f : (forall m, kept (f m) = kept m) -> keeps strict (update_scoped scope id guard f).
Proof. intros Hf. apply update_scoped_keeps, calm_kept. intros r _. apply Hf. Qed.
Lemma exec_kept_keeps scope id guard f : (forall m, kept (f m) = kept m) -> keeps strict (execScopedCommand scope id guard f).
Proof. intros Hf. apply execScopedCommand_keeps, calm_kept. intros r _. apply Hf. Qed.

Lemma claim_executions_keeps at_ rows : forall tokens t a t', filed t -> NoDup ((fun r => o_ID (message r)) <$> rows) ->
  (forall r, r ∈ rows -> outbox t !! o_ID (message r) = Some r) -> claim_executions at_ rows tokens t = Ok (a, t') -> steady strict t t' /\ filed t'.
Proof.
  induction rows as [|r rows IH]; intros tokens t a t' Hi Hnd Hin Ht; cbn [claim_executions] in Ht; [injection Ht as _ <-; split; [reflexivity|done]|].
  destruct tokens as [|token tokens]; [discriminate Ht|]. cbv zeta in Ht. apply tx_bind_Ok in Ht as (u & t1 & Hw & Ht). apply tx_bind_Ok in Ht as (claims & t2 & Hc & Ht). injection Ht as _ <-.
  cbn in Hnd. apply NoDup_cons in Hnd as [Hni Hnd]. assert (Hr : outbox t !! o_ID (message r) = Some r) by (apply Hin; by left).
  set (f := fun x : outboxRow => x <| message ::= claim_recovery (recovery_claim token (message r)) at_ |>).
  destruct (write_row_keeps (strict := strict) (fun _ => True) f _ _ _ _ _ (calm_kept _ f (fun _ _ => eq_refl)) Hi Hr I Hw) as [[S1 F1] Ho].
  destruct (IH tokens t1 claims t2 F1 Hnd) as [S2 F2]; [|exact Hc|split; [by etrans|done]]. intros x Hx. rewrite Ho, lookup_insert_ne; [apply Hin; by right|].
  intros E. apply Hni. rewrite E. apply list_elem_of_fmap. eauto.
Qed.

(** The row a transaction has read and now writes. *)
Lemma written_keeps f r id t a t' : filed t -> outbox t !! id = Some r -> (forall r, kept (message (f r)) = kept (message r)) -> write_row (f r) t = Ok (a, t') ->
  steady strict t t' /\ filed t'.
Proof. intros Hi Hr Hf Hw. apply (write_row_keeps (fun _ => True) f _ _ _ _ _ (calm_kept _ f (fun r _ => Hf r)) Hi Hr I Hw). Qed.

(** *** Single operations *)

(** A guarded change of the message from an active phase, or to a terminal one. *)
Lemma update_phase_keeps scope id guard f :
  (forall m, guard m = true -> (o_ID (f m), o_Scope (f m), o_JobID (f m)) = (o_ID m, o_Scope m, o_JobID m) /\
     (terminal_phase (o_Phase (f m)) = true \/ activePreparePhase (o_Phase m) = true /\ o_Phase (f m) <> CommandPhasePending)) ->
  keeps strict (update_scoped scope id guard f).
Proof.
  intros Hf. apply update_scoped_keeps, calm_phase. intros r Hg. destruct (Hf (message r) Hg) as [Hk Hp]. injection Hk as Hi Hs Hj. unfold job_of. cbn. by rewrite Hi, Hs, Hj.
Qed.

Lemma AuthorizeStart_keeps scope id digest hash ciphertext at_ deadline : keeps strict (AuthorizeStart scope id digest hash ciphertext at_ deadline).
Proof.
  unfold AuthorizeStart. keeps_auto. apply calm_phase. intros r Hg. bool_simpl. cbn. split_and!; [done..|]. right. unfold active. by rewrite H0.
Qed.

Lemma RenewExecutionLease_keeps scope id hash revision at_ deadline : keeps strict (RenewExecutionLease scope id hash revision at_ deadline).
Proof.
  unfold RenewExecutionLease. keeps_auto. apply calm_phase. intros r Hg. rewrite !andb_true_iff in Hg. destruct Hg as [[Hp _] _]. cbn. split_and!; [done..|]. right.
  unfold active. destruct (o_Phase (message r)); try discriminate Hp; by case_bool_decide.
Qed.

Lemma RequestCancel_keeps scope id actor version at_ : keeps strict (RequestCancel scope id actor version at_).
Proof.
  unfold RequestCancel. apply keeps_guard. intros _. apply keeps_bind; [apply transitionInTx_keeps|]. intros next t a t' Hi Ht. tx_step Ht.
  apply tx_bind_Ok in Ht as (u & t2 & Hw & Ht). injection Ht as _ <-. set (f := fun r : outboxRow => r <| message ::= cancellation_requested (UTC at_) "job cancellation requested" |>) in Hw.
  assert (Hf : calm (strict := strict) (fun _ => True) f).
  { intros r _. unfold job_of, half_prepared, active. cbn. split_and!; [done..| |].
    - intros [Hp He]. split; [|done]. by destruct (o_Phase (message r)).
    - by destruct (o_Phase (message r)). }
  assert (Hsel : open_commands scope id t ⊆+ (snd <$> map_to_list (outbox t))) by apply sublist_submseteq, sublist_filter.
  destruct (selected_rows t _ Hi Hsel) as [Hnd Hin]. refine (write_rows_keeps _ f _ _ _ _ Hf Hi Hnd _ Hw). intros r Hr. split; [by apply Hin|done].
Qed.

Lemma MarkCommandTerminal_keeps scope id status at_ : keeps strict (MarkCommandTerminal scope id status at_).
Proof.
  unfold MarkCommandTerminal. apply keeps_guard. intros [Hs _]%andb_true_iff. unfold execScopedCommand. apply keeps_bind; [|intros b; apply keeps_require].
  apply update_phase_keeps. intros m _. split; [done|]. left. by destruct status.
Qed.

Lemma terminal_message_keeps scope id input artifacts detail : terminalCommandStatus (tc_Status input) = true ->
  keeps strict (update_scoped scope id (fun _ => true) (terminal_message input artifacts detail)).
Proof. intros Hs. apply update_phase_keeps. intros m _. split; [done|]. left. cbn. by destruct (tc_Status input). Qed.

Lemma PersistTerminalCommand_keeps input : keeps strict (PersistTerminalCommand input).
Proof.
  unfold PersistTerminalCommand. apply keeps_guard. intros Hv%validateTerminalCommand_status. repeat (apply keeps_bind; [solve [eauto with slots]|]; intros ?; cbv zeta).
  apply keeps_bind; [by apply terminal_message_keeps|]. intros b. apply keeps_require.
Qed.

Lemma persistTerminalEvidenceTx_keeps input : keeps strict (persistTerminalEvidenceTx input).
Proof. unfold persistTerminalEvidenceTx. repeat (apply keeps_bind; [first [solve [eauto with slots]|by apply update_kept_keeps]|]; intros ?). apply keeps_require. Qed.

Lemma PersistTerminalResult_keeps input : keeps strict (PersistTerminalResult input).
Proof.
  unfold PersistTerminalResult. apply keeps_guard. intros [_ Hv%validateTerminalCommand_status]%andb_true_iff. repeat (apply keeps_bind; [solve [eauto with slots]|]; intros ?; cbv zeta).
  destruct (terminal_phase _).
  - unfold terminal_result_again. cbv zeta. apply keeps_guard. intros _. destruct (attaches_digest _ _).
    + apply keeps_bind; [|intros b; apply keeps_guard; intros _; apply keeps_ret]. apply update_phase_keeps. intros m Hg. split; [done|]. left. bool_simpl. cbn. by rewrite H0.
    + destruct (_ && _); [|apply keeps_ret]. apply keeps_guard. intros _. apply keeps_bind; [apply persistTerminalEvidenceTx_keeps|]. intros ?. apply keeps_ret.
  - apply keeps_guard. intros _. apply keeps_bind.
    + apply update_phase_keeps. intros m _. split; [done|]. left. cbn in *. by destruct (cas_Status input).
    + intros b. apply keeps_guard. intros _. apply keeps_bind; [apply persistTerminalEvidenceTx_keeps|]. intros ?. apply keeps_ret.
Qed.

Lemma ClaimExpiredExecution_keeps limit at_ tokens locked : keeps strict (ClaimExpiredExecution limit at_ tokens locked).
Proof.
  unfold ClaimExpiredExecution. apply keeps_guard. intros _ t a t' Hi Ht. tx_step Ht.
  destruct (selected_rows t _ Hi (candidates_selected (expired_execution at_) [by_deadline] limit locked t)) as [Hnd Hin]. by eapply claim_executions_keeps.
Qed.

Lemma FinalizeExpiredExecution_keeps claim at_ : keeps strict (FinalizeExpiredExecution claim at_).
Proof.
  unfold FinalizeExpiredExecution. repeat (apply keeps_bind; [solve [eauto with slots]|]; intros ?; cbv zeta).
  apply keeps_bind; [|intros b; apply keeps_require]. apply update_phase_keeps. intros m _. split; [done|]. by left.
Qed.

Lemma FinalizeExpiredPrepared_keeps scope id digest expiresAt at_ : keeps strict (FinalizeExpiredPrepared scope id digest expiresAt at_).
Proof.
  unfold FinalizeExpiredPrepared. repeat (apply keeps_bind; [solve [eauto with slots]|]; intros ?; cbv zeta). destruct (bool_decide _); [apply keeps_require|].
  repeat (apply keeps_bind; [solve [eauto with slots]|]; intros ?; cbv zeta). apply keeps_bind; [|intros b; apply keeps_require].
  apply update_phase_keeps. intros m _. split; [done|]. by left.
Qed.

Lemma claimTerminalCommands_keeps limit at_ token locked : keeps strict (claimTerminalCommands limit at_ token locked).
Proof.
  unfold claimTerminalCommands. apply keeps_guard. intros _ t a t' Hi (rows & t1 & H1 & H2)%tx_bind_Ok. injection H1 as <- <-. cbv zeta in H2.
  apply tx_bind_Ok in H2 as (u & t2 & H2 & H3). injection H3 as _ <-.
  refine (selected_keeps _ _ _ _ _ _ Hi (candidates_selected _ _ _ _ _) H2). done.
Qed.

Lemma reconcileTerminalCommand_keeps claim at_ : keeps strict (reconcileTerminalCommand claim at_).
Proof.
  unfold reconcileTerminalCommand. repeat (apply keeps_bind; [solve [eauto with slots]|]; intros ?; cbv zeta).
  apply keeps_bind; [destruct (terminalTargetFromOutbox _); eauto with slots|]. intros described. apply keeps_bind; [keeps_auto|]. intros result.
  apply keeps_bind; [keeps_auto|]. intros final. apply keeps_guard. intros _. apply keeps_bind; [apply keeps_found|]. intros artifacts t u t' Hi Ht.
  do 3 tx_step Ht. apply operation_row_Some in E0. by eapply (written_keeps (reconciled_row _ _)).
Qed.

Lemma recordTerminalReconcileFailure_keeps claim at_ cause : keeps strict (recordTerminalReconcileFailure claim at_ cause).
Proof.
  unfold recordTerminalReconcileFailure. intros t u t' Hi Ht. do 3 tx_step Ht. apply scoped_row_Some in E0 as [E0 _]. by eapply (written_keeps (failed_row _ _)).
Qed.

Lemma agent_query_keeps agentID limit pred keys : keeps strict (agent_query agentID limit pred keys).
Proof. unfold agent_query. keeps_auto. Qed.
End operations.

(** ** Calls *)

Section calls.
Context `{JobDatabase}.

(** The calls that move a command from pending to an active phase. *)
Definition takes_slot {A} (c : repo_call A) : bool :=
  match c with RReservePrepareSlot _ _ _ | RPrepareCommandEnvelope _ _ _ | RMarkPrepared _ _ _ _ => true | _ => false end.

Lemma ReservePrepareSlot_lax scope id at_ : keeps false (ReservePrepareSlot scope id at_).
Proof.
  unfold ReservePrepareSlot. keeps_auto.
  - by apply calm_kept.
  - intros r Hg. bool_simpl. cbn. split_and!; [done..| |done]. by intros [Hp _].
Qed.

Lemma PrepareCommandEnvelope_lax scope id proposed : keeps false (PrepareCommandEnvelope scope id proposed).
Proof.
  unfold PrepareCommandEnvelope. keeps_auto. intros r Hg. apply andb_true_iff in Hg as [_ Hp]. cbn. split_and!; [done..| |done]. intros [Hx _]. cbn in Hx.
  destruct (bool_decide (o_Phase (message r) = CommandPhasePending)) eqn:E; [discriminate Hx|]. bool_simpl. congruence.
Qed.

Lemma MarkPrepared_lax scope id digest at_ : keeps false (MarkPrepared scope id digest at_).
Proof. unfold MarkPrepared. keeps_auto. intros r Hg. cbn. split_and!; [done..| |done]. by intros [Hp _]. Qed.

Lemma body_keeps {A} (c : repo_call A) x : keeps (negb (takes_slot c)) (body c x).
Proof.
  destruct c; cbn [body takes_slot negb]; unfold ClaimOutbox, ClaimPreparedCommands, ClaimPendingTerminalAudits, ClaimPendingCancellations, ClaimExpiredCommands,
    PendingCancellationsForAgent, PreparedCommandsForAgent, PendingTerminalAuditsForAgent, MarkStartEnqueued, MarkTerminalAuditRecorded, DeferCancellation,
    RenewCommandLease, MarkOutboxPublished, Get, Repository_Transition, LookupCommand;
  repeat first
    [ solve [eauto using CreateInTx_keeps, RequestCancel_keeps, ReservePrepareSlot_lax, PrepareCommandEnvelope_lax, MarkPrepared_lax, AuthorizeStart_keeps,
        RenewExecutionLease_keeps, ClaimExpiredExecution_keeps, FinalizeExpiredExecution_keeps, FinalizeExpiredPrepared_keeps, PersistTerminalResult_keeps,
        PersistTerminalCommand_keeps, MarkCommandTerminal_keeps, claimTerminalCommands_keeps, reconcileTerminalCommand_keeps, recordTerminalReconcileFailure_keeps,
        agent_query_keeps, load_job_keeps, transitionInTx_keeps with slots]
    | solve [by apply claimCommands_keeps] | solve [by apply update_kept_keeps] | solve [by apply exec_kept_keeps] | keeps_step ].
Qed.

(** ** The limit *)

(** Every command has its job, no command is prepared halfway, and no job has more active commands than it allows; zero is no limit. *)
Record slots_ok (t : tables) : Prop := {
  slots_jobs id r : outbox t !! id = Some r -> is_Some (jobs t !! job_of r);
  slots_envelopes id r : outbox t !! id = Some r -> ~ half_prepared r;
  slots_positive k j : jobs t !! k = Some j -> 0 <= j_MaxConcurrency j;
  slots_bound scope id j : jobs t !! (scope, id) = Some j -> j_MaxConcurrency j = 0 \/ Z.of_nat (active_commands scope id t) <= j_MaxConcurrency j;
}.

(** The identifiers of the active commands of a job. *)
Definition active_ids (scope : JobScope) (jobID : string) (t : tables) : list string :=
  (filter (fun kv : string * outboxRow => let m := message kv.2 in
             (bool_decide (o_Scope m = scope) && bool_decide (o_JobID m = jobID) && activePreparePhase (o_Phase m)) = true) (map_to_list (outbox t))).*1.

Lemma active_ids_length scope jobID t : length (active_ids scope jobID t) = active_commands scope jobID t.
Proof. apply length_fmap. Qed.

Lemma active_ids_NoDup scope jobID t : NoDup (active_ids scope jobID t).
Proof. unfold active_ids. eapply sublist_NoDup; [apply (NoDup_fst_map_to_list (outbox t))|]. apply fmap_sublist, sublist_filter. Qed.

Lemma elem_of_active_ids scope jobID t id : id ∈ active_ids scope jobID t <-> exists r, outbox t !! id = Some r /\ job_of r = (scope, jobID) /\ active r = true.
Proof.
  unfold active_ids, active, job_of. rewrite list_elem_of_fmap. setoid_rewrite list_elem_of_filter. split.
  - intros ([id' r] & -> & Hp & Hr%elem_of_map_to_list). cbn in *. exists r. bool_simpl. by subst.
  - intros (r & Hr & [= <- <-] & Ha). exists (id, r). cbn. rewrite !bool_decide_true, Ha by done. by rewrite elem_of_map_to_list.
Qed.

Lemma active_commands_le scope jobID t t' (extra : list string) : (forall id, id ∈ active_ids scope jobID t' -> id ∈ active_ids scope jobID t ++ extra) ->
  (active_commands scope jobID t' <= active_commands scope jobID t + length extra)%nat.
Proof.
  intros Hs. rewrite <- !active_ids_length, <- length_app. apply submseteq_length, NoDup_submseteq; [apply active_ids_NoDup|done].
Qed.

(** The limit from a bound on the active commands of the jobs that were there. *)
Lemma slots_frame strict t t' : slots_ok t -> steady strict t t' ->
  (forall scope id j, jobs t !! (scope, id) = Some j -> j_MaxConcurrency j = 0 \/ Z.of_nat (active_commands scope id t') <= j_MaxConcurrency j) ->
  (forall id r', outbox t' !! id = Some r' -> active r' = true -> is_Some (jobs t !! job_of r')) -> slots_ok t'.
Proof.
  intros [J E P B] S Hb Hj. split.
  - intros id r' Hr. destruct (steady_rows _ _ _ S id r' Hr) as [(r & H0 & ->)|]; [|done]. destruct (J id r H0) as [j Hk].
    destruct (steady_limits _ _ _ S _ _ Hk) as (j' & Hj' & _). by exists j'.
  - intros id r' Hr Hh. destruct (steady_envelopes _ _ _ S id r' Hr Hh) as (r & H0 & Hr0). by apply (E id r).
  - intros k j' Hj'. destruct (jobs t !! k) as [j|] eqn:Hk; [|by eapply steady_created].
    destruct (steady_limits _ _ _ S _ _ Hk) as (j'' & Hj'' & Hm). rewrite Hj' in Hj''. injection Hj'' as <-. rewrite Hm. eauto.
  - intros scope id j' Hj'. destruct (jobs t !! (scope, id)) as [j|] eqn:Hk.
    + destruct (steady_limits _ _ _ S _ _ Hk) as (j'' & Hj'' & Hm). rewrite Hj' in Hj''. injection Hj'' as <-. rewrite Hm. by apply Hb.
    + right. assert (Hz : active_commands scope id t' = 0%nat).
      { rewrite <- active_ids_length. destruct (active_ids scope id t') as [|x l] eqn:El; [done|]. exfalso.
        assert (Hx : x ∈ active_ids scope id t') by (rewrite El; by left). apply elem_of_active_ids in Hx as (r & H0 & Hkr & Ha).
        destruct (Hj _ _ H0 Ha) as [j Hx]. rewrite Hkr in Hx. congruence. }
      pose proof (steady_created _ _ _ S _ _ Hj' Hk). lia.
Qed.

(** Calls that leave the active commands alone keep the limit. *)
Lemma steady_slots t t' : slots_ok t -> steady true t t' -> slots_ok t'.
Proof.
  intros Hs S. apply (slots_frame true t); [done..| |].
  - intros scope id j Hj. assert (Hle : (active_commands scope id t' <= active_commands scope id t + length (A := string) [])%nat).
    { apply active_commands_le. intros x (r' & Hr & Hk & Ha)%elem_of_active_ids. rewrite app_nil_r.
      destruct (steady_active _ _ _ S x r' eq_refl Hr Ha) as (r & H0 & Ha0 & Hk0). apply elem_of_active_ids. exists r. split_and!; [done|congruence|done]. }
    cbn in Hle. destruct (slots_bound _ Hs scope id j Hj); [by left|right; lia].
  - intros id r' Hr Ha. destruct (steady_active _ _ _ S id r' eq_refl Hr Ha) as (r & H0 & _ & ->). by eapply slots_jobs.
Qed.

(** A command may become active: it is, or its job has a free slot. *)
Definition may_activate (t : tables) (r : outboxRow) : Prop :=
  active r = true \/
  forall j, jobs t !! job_of r = Some j -> j_MaxConcurrency j = 0 \/ Z.of_nat (active_commands (job_of r).1 (job_of r).2 t) + 1 <= j_MaxConcurrency j.

Lemma update_scoped_slots scope id guard f t b t' : slots_ok t -> filed t -> keeps false (update_scoped scope id guard f) ->
  (forall r, outbox t !! id = Some r -> o_Scope (message r) = scope -> guard (message r) = true ->
             may_activate t r /\ o_ID (f (message r)) = o_ID (message r) /\ job_of (r <| message := f (message r) |>) = job_of r) ->
  update_scoped scope id guard f t = Ok (b, t') -> slots_ok t'.
Proof.
  intros Hs Hi Hk Hr Hu. destruct (Hk _ _ _ Hi Hu) as [S _]. apply tx_bind_Ok in Hu as (o & t1 & H1 & Hu). injection H1 as <- <-.
  destruct (scoped_row scope id t) as [r|] eqn:E; [|by injection Hu as _ <-]. apply scoped_row_Some in E as [E Hsc].
  destruct (guard (message r)) eqn:Hg; [|by injection Hu as _ <-]. destruct (Hr r E Hsc Hg) as (Hm & Hid & Hj).
  apply tx_bind_Ok in Hu as (u & t2 & [_ Hw]%write_row_Ok & Hu). injection Hu as _ <-. set (r' := r <| message := f (message r) |>) in *.
  assert (Hid' : o_ID (message r') = id) by (etrans; [exact Hid|]; by apply Hi). rewrite Hid' in Hw. destruct (slots_jobs _ Hs _ _ E) as [jr Hjr].
  apply (slots_frame false t); [done..| |].
  - intros scope' jobID j Hjob. destruct (slots_bound _ Hs _ _ _ Hjob) as [|Hb]; [by left|].
    assert (Hle : forall extra, (job_of r = (scope', jobID) -> active r = true \/ id ∈ extra) -> (active_commands scope' jobID t2 <= active_commands scope' jobID t + length extra)%nat).
    { intros extra Hx. apply active_commands_le. intros x (y & Hy & Hky & Hay)%elem_of_active_ids. rewrite elem_of_app. rewrite Hw in Hy. cbn in Hy. apply lookup_insert_Some in Hy as [[<- <-]|[Hne Hy]].
      - rewrite Hj in Hky. destruct (Hx Hky); [left; apply elem_of_active_ids; eauto|by right].
      - left. apply elem_of_active_ids. eauto. }
    destruct (decide (job_of r = (scope', jobID))) as [Hjr'|Hne].
    + destruct Hm as [Ha|Hfree]; [right; specialize (Hle [] (fun _ => or_introl Ha)); cbn in Hle; lia|]. rewrite Hjr' in Hfree. destruct (Hfree j Hjob) as [|Hf]; [by left|right].
      assert (Hx : job_of r = (scope', jobID) -> active r = true \/ id ∈ [id]) by (intros _; right; by left). specialize (Hle [id] Hx). cbn in Hle, Hf. lia.
    + right. assert (Hx : job_of r = (scope', jobID) -> active r = true \/ id ∈ []) by done. specialize (Hle [] Hx). cbn in Hle. lia.
  - intros x y Hy Ha. rewrite Hw in Hy. cbn in Hy. apply lookup_insert_Some in Hy as [[<- <-]|[Hne Hy]]; [|by eapply slots_jobs]. rewrite Hj. by exists jr.
Qed.

(** ** The calls that take a slot *)

Lemma ReservePrepareSlot_slots scope id at_ t b t' : slots_ok t -> filed t -> ReservePrepareSlot scope id at_ t = Ok (b, t') -> slots_ok t'.
Proof.
  intros Hs Hi Hr. unfold ReservePrepareSlot in Hr. do 6 tx_step Hr.
  clear E0. apply scoped_row_Some in E1 as [E1 Hsc].
  destruct (_ =? 0); [by injection Hr as _ <-|]. destruct (_ || _); [done|]. destruct (activePreparePhase _) eqn:Ha; [by injection Hr as _ <-|]. destruct (_ && _); [done|].
  tx_step Hr. destruct (_ <=? _) eqn:Hfull.
  - apply tx_bind_Ok in Hr as (u & t2 & Hu & Hr). injection Hr as _ <-. apply (steady_slots t _ Hs). refine (proj1 (update_kept_keeps _ _ _ _ _ _ _ _ Hi Hu)). done.
  - apply tx_bind_Ok in Hr as (u & t2 & Hu & Hr). tx_step Hr. injection Hr as _ <-. revert Hu. apply update_scoped_slots; [done..| |].
    + apply update_scoped_keeps. intros r Hg. bool_simpl. cbn. split_and!; [done..| |done]. by intros [Hp _].
    + intros r Hr _ _. split_and!; [|done..]. right. assert (o = r) as -> by congruence. unfold job_of. rewrite Hsc, E3. intros j' [= <-]. right. cbn. lia.
Qed.

(** A command that is past pending, or whose job has no limit: it may be prepared. *)
Definition has_slot (id : string) (t : tables) : Prop :=
  exists r, outbox t !! id = Some r /\ (o_Phase (message r) <> CommandPhasePending \/ exists j, jobs t !! job_of r = Some j /\ j_MaxConcurrency j = 0).

Lemma has_slot_may id t r : has_slot id t -> outbox t !! id = Some r -> prestart_phase (o_Phase (message r)) = true -> o_Phase (message r) <> CommandPhaseUnset -> may_activate t r.
Proof.
  intros (r0 & H0 & Hp) Hr Hpre Hu. rewrite Hr in H0. injection H0 as <-. destruct Hp as [Hp|(j & Hj & Hz)].
  - left. unfold active. by destruct (o_Phase (message r)).
  - right. intros j' Hj'. left. congruence.
Qed.

Lemma PrepareCommandEnvelope_slots scope id proposed t b t' : slots_ok t -> filed t -> has_slot id t -> PrepareCommandEnvelope scope id proposed t = Ok (b, t') -> slots_ok t'.
Proof.
  intros Hs Hi Hh Hr. unfold PrepareCommandEnvelope in Hr. tx_step Hr. apply tx_bind_Ok in Hr as (u & t2 & Hu & Hr). do 3 tx_step Hr. injection Hr as _ <-.
  apply tx_bind_Ok in Hu as (b0 & t3 & Hu & Hq). tx_step Hq || (unfold require in Hq; destruct b0; [injection Hq as _ <-|done]). revert Hu. apply update_scoped_slots; [done..| |].
  - apply update_scoped_keeps. intros r Hg. apply andb_true_iff in Hg as [_ Hp]. cbn. split_and!; [done..| |done]. intros [Hx _]. cbn in Hx.
    destruct (bool_decide (o_Phase (message r) = CommandPhasePending)) eqn:Ep; [discriminate Hx|]. bool_simpl. congruence.
  - intros r Hr _ Hg. split_and!; [|done..]. apply andb_true_iff in Hg as [_ Hp]. apply (has_slot_may id); [done..| |]; destruct (o_Phase (message r)); by cbn in Hp.
Qed.

Lemma MarkPrepared_slots scope id digest at_ t b t' : slots_ok t -> filed t -> has_slot id t -> MarkPrepared scope id digest at_ t = Ok (b, t') -> slots_ok t'.
Proof.
  intros Hs Hi Hh Hr. unfold MarkPrepared in Hr. tx_step Hr. apply tx_bind_Ok in Hr as (u & t2 & Hu & Hr). assert (t' = t2) as ->.
  { destruct u; [by injection Hr|]. do 2 tx_step Hr. unfold require in Hr. case_hyp Hr. by injection Hr. }
  clear Hr. revert Hu. apply update_scoped_slots; [done..| |].
  - apply update_scoped_keeps. intros r Hg. cbn. split_and!; [done..| |done]. by intros [Hp _].
  - intros r Hr _ Hg. bool_simpl. split_and!; [|done..]. by apply (has_slot_may id).
Qed.

(** What the caller of a call has to know. *)
Definition permitted {A} (c : repo_call A) (t : tables) : Prop :=
  match c with RPrepareCommandEnvelope _ id _ | RMarkPrepared _ id _ _ => has_slot id t | _ => True end.

Lemma body_slots {A} (c : repo_call A) x t a t' : slots_ok t -> filed t -> permitted c t -> body c x t = Ok (a, t') -> slots_ok t'.
Proof.
  intros Hs Hi Hp Hb. destruct (takes_slot c) eqn:Ht.
  - destruct c; try discriminate Ht; cbn in Hp, Hb; eauto using ReservePrepareSlot_slots, PrepareCommandEnvelope_slots, MarkPrepared_slots.
  - apply (steady_slots t _ Hs). pose proof (body_keeps c x) as Hk. rewrite Ht in Hk. by apply (Hk _ _ _ Hi Hb).
Qed.

Lemma exec_slots {A} (c : repo_call A) x t r t' : slots_ok t -> filed t -> permitted c t -> exec c x t = (r, t') -> slots_ok t'.
Proof. intros Hs Hi Hp [->|[a Ha]]%exec_cases; [done|by eapply body_slots]. Qed.

Lemma exec_steady {A} (c : repo_call A) x t r t' : filed t -> exec c x t = (r, t') -> steady false t t'.
Proof. intros Hi [->|[a Ha]]%exec_cases; [reflexivity|]. apply (steady_lax _ _ _ (proj1 (body_keeps c x _ _ _ Hi Ha))). Qed.
End calls.
