(* ===== verification/CommandLifecycle.v ===== *)
(** * The command dispatcher

    [CommandLifecycle] of [job/dispatcher.go]: the worker that takes commands
    from the outbox, prepares and signs their envelopes, hands them to the agent
    sessions, authorises starts, cancels, expires and reconciles; and the
    observer that handles what agents report.

    Every handler is a program over its calls: the job repository
    ([JobRepository.repo_call]), the agent sessions, the audit log, the clock,
    random sources, the signer, the token protector and the recorders of typed
    results.  The mutex stripes of [lockCommandTransition] are left out: they
    order some handlers of one process and nothing between processes, so that a
    program here has every interleaving the code has, and more. *)

From S2P Require Import Prelude Programs GoText JobModel JobRepository.

Open Scope Z_scope.
Open Scope update_scope.
Open Scope prog_scope.

(** ** Messages of the agent protocol *)

Inductive CommandResultState :=
| RESULT_UNSPECIFIED | RESULT_SUCCEEDED | RESULT_FAILED | RESULT_CANCELLED | RESULT_TIMED_OUT | RESULT_INTERRUPTED | RESULT_OTHER (n : Z).
Inductive CommandAcknowledgementState := ACK_UNSPECIFIED | ACK_ACCEPTED | ACK_REJECTED | ACK_DUPLICATE | ACK_OTHER (n : Z).
Inductive CommandExecutionState :=
| EXECUTION_UNSPECIFIED | EXECUTION_ACCEPTED | EXECUTION_RUNNING | EXECUTION_COMPLETED | EXECUTION_PREPARED | EXECUTION_START_AUTHORIZED
| EXECUTION_INTERRUPTED | EXECUTION_OTHER (n : Z).

#[global] Instance CommandResultState_eq_dec : EqDecision CommandResultState.
Proof. solve_decision. Defined.
#[global] Instance CommandAcknowledgementState_eq_dec : EqDecision CommandAcknowledgementState.
Proof. solve_decision. Defined.
#[global] Instance CommandExecutionState_eq_dec : EqDecision CommandExecutionState.
Proof. solve_decision. Defined.
#[global] Instance Command_eq_dec : EqDecision Command.
Proof. solve_decision. Defined.
#[global] Instance Timestamp_eq_dec : EqDecision Timestamp.
Proof. solve_decision. Defined.
#[global] Instance CommandEnvelope_eq_dec : EqDecision CommandEnvelope.
Proof. solve_decision. Defined.

Record CommandResult := MkCommandResult {
  r_CommandId : string; r_State : CommandResultState; r_Summary : string; r_Artifacts : list ArtifactReference; r_ErrorCode : string;
  r_ExecutionToken : bytes; r_LeaseRevision : Z; r_MetricTemplateTrialResult : option bytes;
}.
Record CommandStart := { s_CommandId : string; s_ExecutionToken : bytes; s_LeaseRevision : Z; s_LeaseSeconds : Z; s_StartDeadline : Timestamp }.
Record CommandPrepared := { p_CommandId : string; p_EnvelopeDigest : bytes }.
Record CommandAcknowledgement := { k_CommandId : string; k_State : CommandAcknowledgementState; k_ReasonCode : string }.
Record CommandProgress := { g_ProgressCommandId : string; g_Percent : Z; g_ExecutionToken : bytes; g_LeaseRevision : Z }.

(** A command in a heartbeat or in the greeting of a session. *)
Record ActiveCommand := { ac_CommandId : string; ac_State : CommandExecutionState; ac_ExecutionToken : bytes; ac_LeaseRevision : Z }.
Record executionLeaseFence := { f_commandID : string; f_token : bytes; f_executionRevision : Z }.

(** [agentcontrol.ResultPersistence]; [Retryable] is set by the session. *)
Record ResultPersistence := { rp_CommandID : string; rp_ResultDigest : bytes; rp_Persisted : bool; rp_ReasonCode : string }.

Record AuditEvent := {
  ev_Scope : JobScope; ev_OccurredAt : time; ev_Action : string; ev_ActorType : string; ev_ActorID : string; ev_ResourceType : string; ev_ResourceID : string;
  ev_Result : string; ev_RequestID : string; ev_TraceID : string; ev_JobID : string; ev_CommandID : string; ev_DedupeKey : string; ev_Detail : AuditDetail;
}.

(** ** Texts *)

Definition phase_text (phase : CommandPhase) : string :=
  match phase with
  | CommandPhaseUnset => EmptyString | CommandPhasePending => "pending" | CommandPhasePreparing => "preparing" | CommandPhasePrepared => "prepared"
  | CommandPhaseStartAuthorized => "start_authorized" | CommandPhaseRunning => "running" | CommandPhaseCancelling => "cancelling"
  | CommandPhaseSucceeded => "succeeded" | CommandPhaseFailed => "failed" | CommandPhaseCancelled => "cancelled" | CommandPhaseTimedOut => "timed_out"
  | CommandPhaseRejected => "rejected"
  end.

Definition command_status_text (status : CommandStatus) : string :=
  match status with
  | CommandUnset => EmptyString | CommandPending => "pending" | CommandActive => "active" | CommandSucceeded => "succeeded" | CommandFailed => "failed"
  | CommandCancelled => "cancelled" | CommandTimedOut => "timed_out" | CommandRejected => "rejected"
  end.

Definition job_status_text (status : Status) : string :=
  match status with
  | StatusQueued => "queued" | StatusDispatched => "dispatched" | StatusRunning => "running" | StatusCancelling => "cancelling"
  | StatusSucceeded => "succeeded" | StatusFailed => "failed" | StatusCancelled => "cancelled" | StatusTimedOut => "timed_out" | StatusOther s => s
  end.

(** The name of an enum value; an unknown one is its number. *)
Definition result_state_text (state : CommandResultState) : string :=
  match state with
  | RESULT_UNSPECIFIED => "COMMAND_RESULT_STATE_UNSPECIFIED" | RESULT_SUCCEEDED => "COMMAND_RESULT_STATE_SUCCEEDED"
  | RESULT_FAILED => "COMMAND_RESULT_STATE_FAILED" | RESULT_CANCELLED => "COMMAND_RESULT_STATE_CANCELLED"
  | RESULT_TIMED_OUT => "COMMAND_RESULT_STATE_TIMED_OUT" | RESULT_INTERRUPTED => "COMMAND_RESULT_STATE_INTERRUPTED" | RESULT_OTHER n => Itoa n
  end.

(** [timestamppb.New]; a timestamp is valid in the years 1 to 9999. *)
Definition Timestamp_New (t : time) : Timestamp :=
  {| AsTime := UTC t; IsValid := (0 <=? instant t) && (instant t <? (253402300800 + 62135596800) * second) |}.

(** [commandvalidation.validIdentifier]: [^[A-Za-z0-9][A-Za-z0-9_.:-]{0,127}$] *)
Definition validIdentifier (s : string) : bool :=
  let alnum c := is_digit c || is_letter c in
  match bytes_of s with
  | [] => false
  | c :: rest => alnum c && (length rest <=? 127)%nat && forallb (fun c => alnum c || existsb (Z.eqb c) [95; 46; 58; 45]) rest
  end.

Definition ValidateAcknowledgement (a : CommandAcknowledgement) : bool :=
  validIdentifier (k_CommandId a) && (empty_string (k_ReasonCode a) || validIdentifier (k_ReasonCode a)).

(** ** Calls *)

Inductive call : Type -> Type :=
  | CRepo {A : Type} (c : repo_call A) : call (outcome A)
  (* agentcontrol.Dispatcher *)
  | CDispatch (agentID : string) (envelope : CommandEnvelope) : call (outcome unit)
  | CStart (agentID : string) (start : CommandStart) : call (outcome unit)
  | CReplayStart (agentID : string) (start : CommandStart) : call (outcome unit)
  | CCancelPrepared (agentID commandID reason : string) : call (outcome unit)
  | CCancelExecution (agentID commandID : string) (token : bytes) (revision : Z) (reason : string) : call (outcome unit)
  (* audit log, errors, clock, random sources *)
  | CRecord (event : AuditEvent) : call (outcome unit)
  | CRecordOnce (event : AuditEvent) : call (outcome unit)
  | COnError (errors : list CommandError) : call unit
  | CNow : call time
  | CNonce : call (outcome bytes)
  | CToken : call (outcome bytes)
  (* signer, token protector, commandvalidation.Validate with the target authorizer *)
  | CSign (envelope : CommandEnvelope) : call (outcome bytes)
  | CProtect (token : bytes) : call (outcome bytes)
  | CUnprotect (ciphertext : bytes) : call (outcome bytes)
  | CAuthorize (envelope : CommandEnvelope) : call bool
  (* recorders of typed results *)
  | CClassifyTrial (scope : JobScope) (jobID : string) (command : Command) (r : CommandResult) : call (outcome bool)
  | CRecordTrial (scope : JobScope) (jobID commandID : string) (command : Command) (r : CommandResult) (at_ : time) : call (outcome unit)
  | CValidationProgress (scope : JobScope) (jobID commandID : string) (command : Command) (at_ : time) : call (outcome unit)
  | CFinalizeValidation (scope : JobScope) (jobID commandID : string) (command : Command) (r : CommandResult) (at_ : time) : call (outcome CommandResult)
  | CPersistValidation (scope : JobScope) (jobID commandID : string) (command : Command) (r : CommandResult) (input : TerminalResultCAS) :
      call (outcome (CommandResult * TerminalResultOutcome))
  | CReconcileValidations (at_ : time) (limit : Z) : call (outcome unit).

Abbreviation prog := (Programs.prog call).
Notation fail e := (Return (Err (e : CommandError))).

(** [lifecycle.onError] *)
Definition onError (e : CommandError) : prog unit := let* _u := COnError [e] in Return tt.

(** SHA-256 and the deterministic encoding of a result. *)
Class ResultCodec := { sha256 : bytes -> bytes; MarshalResult : CommandResult -> bytes; sha256_length b : length (sha256 b) = sha256_Size }.

Record CommandLifecycle := {
  claimLimit : Z;
  typedResultRecorder : bool;          (* not nil *)
  databaseInstanceResults : bool;      (* not nil *)
}.

Definition defaultCommandClaimLimit : Z := 64.
Definition commandTransitionAttempts : nat := 8.
Definition commandNonceBytes : nat := 32.
Definition ed25519_SignatureSize : nat := 64.
Definition DefaultCommandDeliveryTTL : Z := 24 * hour.

(** [NewCommandLifecycle] with all required dependencies. *)
Definition NewCommandLifecycle (limit : Z) (typed instances : bool) : option CommandLifecycle :=
  if limit <? 0 then None
  else Some {| claimLimit := if limit =? 0 then defaultCommandClaimLimit else limit; typedResultRecorder := typed; databaseInstanceResults := instances |}.

(** ** Helpers *)

Definition executionDeadline (value : Job) (leaseSeconds : Z) (at_ : time) : time :=
  let deadline := AddDuration (UTC at_) (leaseSeconds * second) in
  match j_TimeoutAt value with Some t => if Before t deadline then UTC t else deadline | None => deadline end.

Definition commandStatusForJob (status : Status) : CommandStatus :=
  match status with
  | StatusSucceeded => CommandSucceeded | StatusCancelled => CommandCancelled | StatusTimedOut => CommandTimedOut | _ => CommandFailed
  end.

Definition auditEvent (value : Job) (m : OutboxMessage) (action result : string) (detail : AuditDetail) (at_ : time) (dedupeKey : string) : AuditEvent :=
  {| ev_Scope := o_Scope m; ev_OccurredAt := UTC at_; ev_Action := action; ev_ActorType := "system"; ev_ActorID := "agent-control";
     ev_ResourceType := "job_target"; ev_ResourceID := o_TargetID m; ev_Result := result; ev_RequestID := j_RequestID value; ev_TraceID := j_TraceID value;
     ev_JobID := o_JobID m; ev_CommandID := o_ID m; ev_DedupeKey := dedupeKey; ev_Detail := detail |}.

Definition currentTime : prog time := let* now := CNow in Return (UTC now).

Definition recordAudit (value : Job) (m : OutboxMessage) (action result : string) (detail : AuditDetail) : prog (outcome unit) :=
  let- at_ := currentTime in
  let* r := CRecord (auditEvent value m action result detail at_ EmptyString) in Return r.

Definition recordTerminalAudit (value : Job) (m : OutboxMessage) (action result : string) (detail : AuditDetail) (at_ : time) (dedupeKey : string) : prog (outcome unit) :=
  let! _u := CRecordOnce (auditEvent value m action result detail at_ dedupeKey) in
  let* r := CRepo (RMarkTerminalAuditRecorded (o_Scope m) (o_ID m) dedupeKey at_) in Return r.

Definition isValidateCommand (c : option Command) : bool := match c with Some (ValidateDatabaseInstance _) => true | _ => false end.

Section handlers.
Context `{JobDatabase} `{ResultCodec} (lifecycle : CommandLifecycle).

(** *** Stored envelopes *)

Definition decodeUnsignedCommandShape (m : OutboxMessage) : outcome CommandEnvelope :=
  if negb (Scope_Validate (o_Scope m)) || blank (o_ID m) || blank (o_JobID m) || negb (bool_decide (o_Type m = commandOutboxType)) || blank (o_TargetID m)
     || null_bytes (o_Payload m) then Err ErrInvalidCommandPayload
  else match Unmarshal (o_Payload m) with
       | Some (e, []) =>
           if negb (empty_string (e_CommandId e)) || negb (empty_string (e_JobId e)) || negb (null (e_IssuedAt e)) || negb (null (e_ExpiresAt e))
              || negb (null_bytes (e_Nonce e)) || negb (null_bytes (e_Signature e)) then Err ErrInvalidCommandPayload
           else if null (e_Command e) || (e_LeaseSeconds e =? 0) || (MaximumTimeoutSeconds <? e_LeaseSeconds e) || blank (e_AgentId e)
                   || negb (bool_decide (e_AgentId e = o_TargetID m)) then Err ErrInvalidCommandPayload
           else if negb (ValidateShape e) then Err ErrInvalidCommandPayload
           else Ok e
       | _ => Err ErrInvalidCommandPayload
       end.

Definition decodeUnsignedCommand (m : OutboxMessage) : prog (outcome CommandEnvelope) :=
  match decodeUnsignedCommandShape m with
  | Err e => fail e
  | Ok e => let* authorized := CAuthorize e in if (authorized : bool) then Return (Ok e) else fail ErrInvalidCommandPayload
  end.

(** The envelope without what the dispatcher adds. *)
Definition unprepared (e : CommandEnvelope) : CommandEnvelope :=
  e <| e_CommandId := EmptyString |> <| e_JobId := EmptyString |> <| e_IssuedAt := None |> <| e_ExpiresAt := None |> <| e_Nonce := [] |> <| e_Signature := [] |>.

Definition decodePreparedCommand (m : OutboxMessage) (unsigned : CommandEnvelope) (stored : bytes) : outcome CommandEnvelope :=
  if null_bytes stored then Err ErrInvalidCommandPayload
  else match Unmarshal stored with
       | Some (e, []) =>
           if negb (bool_decide (Marshal e = stored)) then Err ErrInvalidCommandPayload
           else match e_IssuedAt e, e_ExpiresAt e with
                | Some issued, Some expires =>
                    if negb (bool_decide (e_CommandId e = o_ID m)) || negb (bool_decide (e_JobId e = o_JobID m)) || negb (bool_decide (e_AgentId e = o_TargetID m))
                       || negb (IsValid issued) || negb (IsValid expires) || negb (After (AsTime expires) (AsTime issued))
                       || negb (length (e_Nonce e) =? commandNonceBytes)%nat || negb (length (e_Signature e) =? ed25519_SignatureSize)%nat
                    then Err ErrInvalidCommandPayload
                    else if negb (bool_decide (unprepared e = unsigned)) then Err ErrInvalidCommandPayload
                    else Ok e
                | _, _ => Err ErrInvalidCommandPayload
                end
       | _ => Err ErrInvalidCommandPayload
       end.

(** [envelope.GetExpiresAt().AsTime()]; a missing timestamp is the Unix epoch. *)
Definition expires_at (e : CommandEnvelope) : time := match e_ExpiresAt e with Some t => AsTime t | None => Time unix_epoch true end.

(** *** Typed results of database validations *)

Definition validDatabaseInstanceValidationResult (r : CommandResult) : bool :=
  if negb (bool_decide (r_Artifacts r = [])) || negb (null (r_MetricTemplateTrialResult r)) then false
  else match r_State r with
       | RESULT_SUCCEEDED | RESULT_CANCELLED | RESULT_TIMED_OUT => empty_string (r_ErrorCode r)
       | RESULT_FAILED => bool_decide (r_ErrorCode r ∈ ["instance_authentication_failed"; "instance_tls_failed"; "instance_unreachable";
                                                          "database_version_unsupported"; "plugin_failed"]%string)
       | RESULT_INTERRUPTED => empty_string (r_ErrorCode r) || bool_decide (r_ErrorCode r = "EXECUTION_INTERRUPTED"%string)
       | _ => false
       end.

Definition canonicalDatabaseInstanceValidationResult (r : CommandResult) : CommandResult :=
  let canonical summary code := MkCommandResult (r_CommandId r) (r_State r) summary [] code (r_ExecutionToken r) (r_LeaseRevision r) None in
  match r_State r with
  | RESULT_SUCCEEDED => canonical "database instance connection validation succeeded"%string (r_ErrorCode r)
  | RESULT_FAILED => canonical "database instance connection validation failed"%string (r_ErrorCode r)
  | RESULT_CANCELLED => canonical "database instance connection validation cancelled"%string EmptyString
  | RESULT_TIMED_OUT | RESULT_INTERRUPTED => canonical "database instance connection validation timed out"%string EmptyString
  | _ => canonical EmptyString (r_ErrorCode r)
  end.

Definition databaseInstanceValidationTarget (targetID : string) (r : CommandResult) (at_ : time) : TargetResult :=
  let target status error := {| TargetID := targetID; tr_Status := status; tr_ErrorSummary := error; tr_ResultSummary := r_Summary r; tr_Artifacts := [];
                                tr_FinishedAt := Some at_ |} in
  match r_State r with
  | RESULT_SUCCEEDED => target TargetSucceeded EmptyString
  | RESULT_FAILED => target TargetFailed (r_ErrorCode r)
  | RESULT_CANCELLED => target TargetCancelled EmptyString
  | _ => target TargetTimedOut EmptyString
  end.

Definition fixedDatabaseInstanceValidationError (value : string) : string :=
  if bool_decide (value ∈ ["instance_authentication_failed"; "instance_tls_failed"; "instance_unreachable"; "database_version_unsupported"; "plugin_failed"]%string)
  then value else "plugin_failed".

Definition finalizeDatabaseInstanceValidationTarget (m : OutboxMessage) (target : TargetResult) (at_ : time) : prog (outcome TargetResult) :=
  if negb (isTerminalTarget (tr_Status target)) then Return (Ok target)
  else match decodeUnsignedCommandShape m with
       | Err e => fail e
       | Ok envelope =>
           match e_Command envelope with
           | Some (ValidateDatabaseInstance body as command) =>
               if negb (databaseInstanceResults lifecycle) then fail ErrInvalidCommandPayload
               else
                 let state := match tr_Status target with
                              | TargetSucceeded => RESULT_SUCCEEDED | TargetFailed => RESULT_FAILED | TargetCancelled => RESULT_CANCELLED
                              | TargetTimedOut => RESULT_TIMED_OUT | _ => RESULT_UNSPECIFIED
                              end in
                 let code := if bool_decide (state = RESULT_FAILED) then fixedDatabaseInstanceValidationError (tr_ErrorSummary target) else EmptyString in
                 let result := canonicalDatabaseInstanceValidationResult (MkCommandResult (o_ID m) state EmptyString [] code [] 0 None) in
                 let! effective := CFinalizeValidation (o_Scope m) (o_JobID m) (o_ID m) command result at_ in
                 Return (Ok (databaseInstanceValidationTarget (o_TargetID m) effective at_))
           | _ => Return (Ok target)
           end
       end.

(** *** Target rows and the job's end *)

(** [finalize]: [known] is the job on the first attempt. *)
Fixpoint finalize_loop (attempts : nat) (scope : JobScope) (id : string) (known : option Job) (at_ : time) : prog (outcome (Job * bool)) :=
  match attempts with
  | O => fail ErrConflict
  | S rest =>
      let? current := (match known with Some value => Return (Ok value) | None => let* r := CRepo (RGet scope id) in Return r end) in
      if isTerminal (j_Status current) then Return (Ok (current, false))
      else if negb (allTargetsTerminal current) then Return (Ok (current, false))
      else
        let* next := CRepo (RTransition (finish_transition current at_)) in
        match next with
        | Ok value => Return (Ok (value, true))
        | Err e => if bool_decide (e = JobErr ErrConflict) then finalize_loop rest scope id None at_ else fail e
        end
  end.

Definition finalize (candidate : Job) (at_ : time) : prog (outcome (Job * bool)) :=
  finalize_loop commandTransitionAttempts (j_Scope candidate) (j_ID candidate) (Some candidate) at_.

(** The end of an attempt of [applyTargetWithProjection]; [again] is the next attempt. *)
Definition write_target (again : bool -> prog (outcome (Job * bool))) (mutated : bool) (current : Job) (target : TargetResult) (at_ : time) : prog (outcome (Job * bool)) :=
  if negb (bool_decide (j_Status current = StatusDispatched)) && negb (bool_decide (j_Status current = StatusRunning))
     && negb (bool_decide (j_Status current = StatusCancelling)) then fail ErrInvalidTransition
  else
    let* r := CRepo (RTransition (plain_transition current (fst (record_status current)) (snd (record_status current)) (Some [target]) at_)) in
    match r with
    | Err e => if bool_decide (e = JobErr ErrConflict) then again mutated else fail e
    | Ok next =>
        if negb (isTerminalTarget (tr_Status target)) then Return (Ok (next, true))
        else let? final := finalize next at_ in Return (Ok (fst final, true))
    end.

(** The loop of [applyTargetWithProjection]. *)
Fixpoint apply_loop (attempts : nat) (mutated : bool) (m : OutboxMessage) (target : TargetResult) (at_ : time) : prog (outcome (Job * bool)) :=
  match attempts with
  | O => fail ErrConflict
  | S rest =>
      let again mutated := apply_loop rest mutated m target at_ in
      let! current := CRepo (RGet (o_Scope m) (o_JobID m)) in
      if negb (bool_decide (j_ID current = o_JobID m)) || negb (bool_decide (j_Scope current = o_Scope m))
         || negb (containsTarget (j_TargetResourceIDs current) (o_TargetID m)) then fail ErrInvalidCommandPayload
      else if isTerminal (j_Status current) then Return (Ok (current, mutated))
      else if bool_decide (j_Status current = StatusQueued) then
        let* r := CRepo (RTransition (plain_transition current StatusDispatched EmptyString None at_)) in
        match r with
        | Ok _ => again true
        | Err e => if bool_decide (e = JobErr ErrConflict) then again mutated else fail e
        end
      else match targetFor (j_TargetResults current) (o_TargetID m) with
           | Some row =>
               if isTerminalTarget (tr_Status row) then
                 if isTerminalTarget (tr_Status target) then
                   let? final := finalize current at_ in Return (Ok (fst final, mutated || snd final))
                 else Return (Ok (current, mutated))
               else if bool_decide (tr_Status row = TargetRunning) && bool_decide (tr_Status target = TargetRunning) then Return (Ok (current, mutated))
               else write_target again mutated current target at_
           | None => write_target again mutated current target at_
           end
  end.

Definition applyTargetWithProjection (m : OutboxMessage) (target : TargetResult) (at_ : time) (finalizeProjection : bool) : prog (outcome (Job * bool)) :=
  let? target := (if finalizeProjection then finalizeDatabaseInstanceValidationTarget m target at_ else Return (Ok target)) in
  apply_loop commandTransitionAttempts false m target at_.

Definition applyTarget (m : OutboxMessage) (target : TargetResult) (at_ : time) : prog (outcome (Job * bool)) := applyTargetWithProjection m target at_ true.
Definition applyEffectiveTarget (m : OutboxMessage) (target : TargetResult) (at_ : time) : prog (outcome (Job * bool)) := applyTargetWithProjection m target at_ false.

Fixpoint ensure_loop (attempts : nat) (m : OutboxMessage) (at_ : time) : prog (outcome Job) :=
  match attempts with
  | O => fail ErrConflict
  | S rest =>
      let! value := CRepo (RGet (o_Scope m) (o_JobID m)) in
      match j_Status value with
      | StatusQueued =>
          let* r := CRepo (RTransition {| t_Scope := o_Scope m; t_JobID := o_JobID m; t_CurrentVersion := j_Version value; t_To := StatusDispatched;
                                          t_Progress := None; t_TargetResults := None; t_ErrorSummary := EmptyString; t_ResultSummary := EmptyString;
                                          t_Artifacts := None; t_Actor := EmptyString; t_At := at_ |}) in
          match r with
          | Err e => if bool_decide (e = JobErr ErrConflict) then ensure_loop rest m at_ else fail e
          | Ok next => Return (Ok next)
          end
      | StatusOther _ => fail ErrInvalidTransition
      | _ => Return (Ok value)
      end
  end.
Definition ensureDispatched (m : OutboxMessage) (at_ : time) : prog (outcome Job) := ensure_loop commandTransitionAttempts m at_.

(** *** Commands that end before their execution *)

(** A terminal command with its target row and audit record, as five handlers write them. *)
Definition terminalize (m : OutboxMessage) (status : CommandStatus) (target : TargetResult) (action result : string) (detail : AuditDetail) (at_ : time) : prog (outcome unit) :=
  let key := (action +:+ ":" +:+ o_ID m)%string in
  let! _u := CRepo (RPersistTerminalCommand {| tc_Scope := o_Scope m; tc_CommandID := o_ID m; tc_Status := status; tc_Target := target;
                      tc_Audit := {| a_DedupeKey := key; a_Action := action; a_Result := result; a_Detail := detail |}; tc_At := at_ |}) in
  let? applied := applyTarget m target at_ in
  recordTerminalAudit (fst applied) m action result detail at_ key.

Definition ended_target (m : OutboxMessage) (status : TargetStatus) (error summary : string) (at_ : time) : TargetResult :=
  {| TargetID := o_TargetID m; tr_Status := status; tr_ErrorSummary := error; tr_ResultSummary := summary; tr_Artifacts := []; tr_FinishedAt := Some at_ |}.

Definition timeoutUndelivered (m : OutboxMessage) (at_ : time) : prog (outcome unit) :=
  terminalize m CommandTimedOut (ended_target m TargetTimedOut "Job timeout elapsed before delivery" EmptyString at_) "command.undelivered_timed_out" "failure"
    {[ "phase"%string := AText (phase_text (o_Phase m)) ]} at_.

Definition cancelUndelivered (m : OutboxMessage) (at_ : time) : prog (outcome unit) :=
  terminalize m CommandCancelled (ended_target m TargetCancelled EmptyString "cancelled before Agent execution" at_) "command.cancelled_before_dispatch" "success"
    {[ "reason"%string := AText "job_cancellation" ]} at_.

Definition expireDelivery (m : OutboxMessage) (at_ : time) : prog (outcome unit) :=
  terminalize m CommandTimedOut (ended_target m TargetTimedOut "delivery deadline exceeded" EmptyString at_) "command.delivery_timed_out" "failure"
    {[ "reason"%string := AText "delivery_deadline" ]} at_.

Definition terminalizePreparedCommand (m : OutboxMessage) (cancelled : bool) (at_ : time) : prog (outcome unit) :=
  let* sent := CCancelPrepared (o_TargetID m) (o_ID m) (o_CancellationReason m) in
  let- _e := (match sent with Ok _ => Return tt | Err e => onError e end) in
  let detail : AuditDetail := {[ "phase"%string := AText (phase_text (o_Phase m)) ]} in
  if cancelled then
    terminalize m CommandCancelled (ended_target m TargetCancelled EmptyString "prepared command cancelled before Start" at_) "command.cancelled_before_start" "success" detail at_
  else
    terminalize m CommandTimedOut (ended_target m TargetTimedOut "Job timeout elapsed before Start" "prepared command timed out before Start" at_)
      "command.prepared_timed_out" "failure" detail at_.

(** *** Terminal audit records *)

Definition repairTerminalAuditMessage (at_ : time) (m : OutboxMessage) : prog (option CommandError) :=
  match o_TerminalAt m with
  | Some terminal =>
      if negb (o_TerminalAuditPending m) || blank (o_TerminalAuditDedupeKey m) || blank (o_TerminalAuditAction m) || blank (o_TerminalAuditResult m)
      then Return (Some ErrInvalidCommandPayload)
      else
        let* found := CRepo (RGet (o_Scope m) (o_JobID m)) in
        match found with
        | Err e => Return (Some e)
        | Ok value =>
            let* recorded := CRecordOnce (auditEvent value m (o_TerminalAuditAction m) (o_TerminalAuditResult m) (o_TerminalAuditDetail m) (UTC terminal)
                                            (o_TerminalAuditDedupeKey m)) in
            match recorded with
            | Err e => Return (Some e)
            | Ok _ =>
                let* marked := CRepo (RMarkTerminalAuditRecorded (o_Scope m) (o_ID m) (o_TerminalAuditDedupeKey m) at_) in
                Return (match marked with Ok _ => None | Err e => Some e end)
            end
        end
  | None => Return (Some ErrInvalidCommandPayload)
  end.

(** The joined errors. *)
Definition errors_of (l : list (option CommandError)) : list CommandError := omap id l.

Definition repairTerminalAuditMessages (messages : list OutboxMessage) (at_ : time) : prog (list CommandError) :=
  let- errors := for_each (repairTerminalAuditMessage at_) messages in Return (errors_of errors).

Definition repairPendingTerminalAudits (at_ : time) : prog (list CommandError) :=
  let* claimed := CRepo (RClaimPendingTerminalAudits (claimLimit lifecycle) at_) in
  match claimed with Err e => Return [e] | Ok messages => repairTerminalAuditMessages messages at_ end.

(** *** Starting a prepared command *)

Definition persistedCommandStart (m : OutboxMessage) : prog (outcome (CommandStart * bytes)) :=
  match o_StartDeadline m with
  | Some deadline =>
      if (o_ExecutionRevision m =? 0) || negb (length (o_ExecutionTokenHash m) =? sha256_Size)%nat || null_bytes (o_ExecutionTokenCiphertext m)
      then fail ErrInvalidCommandPayload
      else
        let? unsigned := decodeUnsignedCommand m in
        let! token := CUnprotect (o_ExecutionTokenCiphertext m) in
        if negb (bool_decide (sha256 token = o_ExecutionTokenHash m)) then fail ErrInvalidCommandPayload
        else Return (Ok ({| s_CommandId := o_ID m; s_ExecutionToken := token; s_LeaseRevision := o_ExecutionRevision m; s_LeaseSeconds := e_LeaseSeconds unsigned;
                            s_StartDeadline := Timestamp_New (UTC deadline) |}, token))
  | None => fail ErrInvalidCommandPayload
  end.

(** The joined errors of the repair of one message. *)
Definition joined (errors : list CommandError) : outcome unit := match errors with [] => Ok tt | e :: _ => Err e end.

Definition expirePreparedEnvelopeLocked (m : OutboxMessage) (expiresAt at_ : time) : prog (outcome unit) :=
  if negb (length (o_PrepareDigest m) =? sha256_Size)%nat || IsZero expiresAt || After expiresAt at_ then fail ErrInvalidCommandPayload
  else
    let* finalized := CRepo (RFinalizeExpiredPrepared (o_Scope m) (o_ID m) (o_PrepareDigest m) expiresAt at_) in
    match finalized with
    | Err e => if bool_decide (e = JobErr ErrConflict) then Return (Ok tt) else fail e
    | Ok _ =>
        let* sent := CCancelPrepared (o_TargetID m) (o_ID m) "prepared envelope expired" in
        let- _e := (match sent with Ok _ => Return tt | Err e => onError e end) in
        let! terminal := CRepo (RLookupCommand (o_ID m)) in
        let- errors := repairTerminalAuditMessages [terminal] at_ in
        Return (joined errors)
    end.

(** The end of [startOrReplayCommandLocked]: send the start and note that it was sent. *)
Definition sendStart (fresh : bool) (m : OutboxMessage) : prog (outcome unit) :=
  if negb (started_phase (o_Phase m)) then Return (Ok tt)
  else
    let? persisted := persistedCommandStart m in
    let! _u := (if fresh then CStart (o_TargetID m) (fst persisted) else CReplayStart (o_TargetID m) (fst persisted)) in
    let- now := currentTime in
    let* r := CRepo (RMarkStartEnqueued (o_Scope m) (o_ID m) (o_ExecutionRevision m) now) in Return r.

Definition startOrReplayCommandLocked (m : OutboxMessage) (at_ : time) : prog (outcome unit) :=
  if bool_decide (o_Phase m = CommandPhasePrepared) then
    let? unsigned := decodeUnsignedCommand m in
    match decodePreparedCommand m unsigned (o_PreparedEnvelope m) with
    | Err e => fail e
    | Ok prepared =>
        if negb (After (expires_at prepared) (UTC at_)) then expirePreparedEnvelopeLocked m (UTC (expires_at prepared)) (UTC at_)
        else
          let! value := CRepo (RGet (o_Scope m) (o_JobID m)) in
          let deadline := executionDeadline value (e_LeaseSeconds unsigned) at_ in
          if negb (After deadline at_) then Return (Ok tt)
          else if negb (length (o_PrepareDigest m) =? sha256_Size)%nat then fail ErrInvalidCommandPayload
          else
            let! token := CToken in
            let! ciphertext := CProtect token in
            let* authorized := CRepo (RAuthorizeStart (o_Scope m) (o_ID m) (o_PrepareDigest m) (sha256 token) ciphertext at_ deadline) in
            match authorized with
            | Err e => if bool_decide (e = JobErr ErrConflict) then Return (Ok tt) else fail e
            | Ok _ => let! started := CRepo (RLookupCommand (o_ID m)) in sendStart true started
            end
    end
  else sendStart false m.

Definition Prepared (agentID : string) (prepared : CommandPrepared) : prog (outcome unit) :=
  if blank (p_CommandId prepared) || negb (length (p_EnvelopeDigest prepared) =? sha256_Size)%nat then fail ErrInvalidCommandPayload
  else
    let! m := CRepo (RLookupCommand (p_CommandId prepared)) in
    if negb (bool_decide (o_TargetID m = agentID)) then fail ErrCommandAgentMismatch
    else if null_bytes (o_PreparedEnvelope m) then fail ErrInvalidCommandPayload
    else if negb (bool_decide (sha256 (o_PreparedEnvelope m) = p_EnvelopeDigest prepared)) then fail ErrConflict
    else
      let- at_ := currentTime in
      let* marked := CRepo (RMarkPrepared (o_Scope m) (o_ID m) (p_EnvelopeDigest prepared) at_) in
      match marked with
      | Err e =>
          if bool_decide (e = JobErr ErrConflict) then let* r := CCancelPrepared (o_TargetID m) (o_ID m) (o_CancellationReason m) in Return r
          else fail e
      | Ok _ => let! latest := CRepo (RLookupCommand (o_ID m)) in startOrReplayCommandLocked latest at_
      end.

Definition recoverPreparedCommand (at_ : time) (commandID : string) : prog (outcome unit) :=
  let! m := CRepo (RLookupCommand commandID) in
  let! value := CRepo (RGet (o_Scope m) (o_JobID m)) in
  let status := j_Status value in
  let cancelled := bool_decide (status = StatusCancelled)
                   || negb (isTerminal status) && (negb (null (o_CancellationRequestedAt m)) || bool_decide (status = StatusCancelling)) in
  let timedOut := bool_decide (status = StatusTimedOut)
                  || negb (isTerminal status) && match j_TimeoutAt value with Some t => negb (After t at_) | None => false end in
  if bool_decide (o_Phase m = CommandPhasePrepared) then
    if cancelled || timedOut then terminalizePreparedCommand m cancelled at_
    else if isTerminal status then
      let* sent := CCancelPrepared (o_TargetID m) (o_ID m) "Job is already terminal" in
      let- _e := (match sent with Ok _ => Return tt | Err e => onError e end) in
      let! _u := CRecordOnce (auditEvent value m "command.prepared_terminal_job" "success" {[ "job_status"%string := AText (job_status_text status) ]} at_
                                ("command.prepared_terminal_job:" +:+ o_ID m)) in
      let* r := CRepo (RMarkCommandTerminal (o_Scope m) (o_ID m) (commandStatusForJob status) at_) in Return r
    else startOrReplayCommandLocked m at_
  else startOrReplayCommandLocked m at_.

Definition error_of {A} (r : outcome A) : option CommandError := match r with Ok _ => None | Err e => Some e end.

Definition recoverPreparedCommands (at_ : time) : prog (list CommandError) :=
  let* claimed := CRepo (RClaimPreparedCommands (claimLimit lifecycle) at_) in
  match claimed with
  | Err e => Return [e]
  | Ok messages =>
      let- errors := for_each (fun m => let- r := recoverPreparedCommand at_ (o_ID m) in Return (error_of r)) messages in
      Return (errors_of errors)
  end.

(** *** Cancellation of commands that may have reached their agent *)

Definition dispatchCancellation (m : OutboxMessage) : prog (outcome unit) :=
  if negb (started_phase (o_Phase m)) then let* r := CCancelPrepared (o_TargetID m) (o_ID m) (o_CancellationReason m) in Return r
  else
    let? persisted := persistedCommandStart m in
    let! _u := CReplayStart (o_TargetID m) (fst persisted) in
    let- now := currentTime in
    let* marked := CRepo (RMarkStartEnqueued (o_Scope m) (o_ID m) (o_ExecutionRevision m) now) in
    let- _e := (match marked with Ok _ => Return tt | Err e => onError e end) in
    let* r := CCancelExecution (o_TargetID m) (o_ID m) (snd persisted) (o_ExecutionRevision m) (o_CancellationReason m) in Return r.

Definition cancelClaimed (at_ : time) (m : OutboxMessage) : prog (option CommandError) :=
  let preStart := prestart_phase (o_Phase m) in
  if preStart && null (o_PublishedAt m) && null (o_PreparedAt m) then
    let- r := cancelUndelivered m at_ in Return (error_of r)
  else
    let- sent := dispatchCancellation m in
    match sent with
    | Err e => Return (Some e)
    | Ok _ =>
        if preStart then let- r := cancelUndelivered m at_ in Return (error_of r)
        else
          let* deferred := CRepo (RDeferCancellation (o_Scope m) (o_ID m) (AddDuration at_ DefaultCancellationRetry)) in
          Return (match deferred with Err e => if bool_decide (e = JobErr ErrNotFound) then None else Some e | Ok _ => None end)
    end.

Definition dispatchCancellations (at_ : time) : prog (list CommandError) :=
  let* claimed := CRepo (RClaimPendingCancellations (claimLimit lifecycle) at_) in
  match claimed with
  | Err e => Return [e]
  | Ok messages => let- errors := for_each (cancelClaimed at_) messages in Return (errors_of errors)
  end.

(** *** Expired executions *)

Definition expireClaimed (at_ : time) (claim : RecoveryClaim) : prog (option CommandError) :=
  let* finalized := CRepo (RFinalizeExpiredExecution claim at_) in
  match finalized with
  | Err e => Return (if bool_decide (e = JobErr ErrConflict) || bool_decide (e = JobErr ErrNotFound) then None else Some e)
  | Ok _ =>
      let* looked := CRepo (RLookupCommand (c_CommandID claim)) in
      match looked with
      | Err e => Return (Some e)
      | Ok m =>
          let- r := finalizeDatabaseInstanceValidationTarget m
                      {| TargetID := o_TargetID m; tr_Status := TargetTimedOut; tr_ErrorSummary := EmptyString; tr_ResultSummary := EmptyString;
                         tr_Artifacts := []; tr_FinishedAt := None |} at_ in
          Return (error_of r)
      end
  end.

Definition expireExecutions (at_ : time) : prog (list CommandError) :=
  let* claimed := CRepo (RClaimExpiredExecution (claimLimit lifecycle) at_) in
  match claimed with
  | Err e => Return [e]
  | Ok claims =>
      let- errors := for_each (expireClaimed at_) claims in
      let- repaired := repairPendingTerminalAudits at_ in
      Return (errors_of errors ++ repaired)
  end.

(** *** Reconciliation of terminal commands: [PostgresRepository.ReconcileTerminalCommands] *)

Definition reconcileClaim (at_ : time) (claim : terminalReconcileClaim) : prog (option CommandError) :=
  let* reconciled := CRepo (RReconcileTerminalCommand claim (UTC at_)) in
  match reconciled with
  | Ok _ => Return None
  | Err e => let* _released := CRepo (RRecordTerminalReconcileFailure claim (UTC at_) e) in Return (Some e)
  end.

Definition ReconcileTerminalCommands (limit : Z) (at_ : time) : prog (outcome (Z * list CommandError)) :=
  if (limit <? 1) || (1024 <? limit) || IsZero at_ then fail ErrInvalidCommandPayload
  else
    let! claims := CRepo (RClaimTerminalCommands limit (UTC at_)) in
    let- errors := for_each (reconcileClaim at_) claims in
    Return (Ok (Z.of_nat (length claims) - Z.of_nat (length (errors_of errors)), errors_of errors)).

(** *** Dispatch *)

(** The envelope proposed for a command that has none: signed, with a nonce and the delivery period. *)
Definition proposeEnvelope (m : OutboxMessage) (unsigned : CommandEnvelope) (at_ : time) : prog (outcome bytes) :=
  let! nonce := CNonce in
  let envelope := unsigned <| e_CommandId := o_ID m |> <| e_JobId := o_JobID m |> <| e_IssuedAt := Some (Timestamp_New at_) |>
                    <| e_ExpiresAt := Some (Timestamp_New (AddDuration at_ DefaultCommandDeliveryTTL)) |> <| e_Nonce := nonce |> in
  let! signature := CSign envelope in
  Return (Ok (Marshal (envelope <| e_Signature := signature |>))).

(** A job that has ended: the command is skipped. *)
Definition skipTerminalJob (current : Job) (m : OutboxMessage) (at_ : time) : prog (outcome bool) :=
  let! _u := CRecordOnce (auditEvent current m "command.skipped_terminal_job" "success" {[ "job_status"%string := AText (job_status_text (j_Status current)) ]} at_
                            ("command.skipped_terminal_job:" +:+ o_ID m)) in
  let! _m := CRepo (RMarkCommandTerminal (o_Scope m) (o_ID m) (commandStatusForJob (j_Status current)) at_) in
  Return (Ok false).

(** Prepare the envelope and hand it to the agent's session. *)
Definition deliver (m : OutboxMessage) (unsigned : CommandEnvelope) (at_ : time) : prog (outcome bool) :=
  let? proposed := (if null_bytes (o_PreparedEnvelope m) then proposeEnvelope m unsigned at_ else Return (Ok (o_PreparedEnvelope m))) in
  let! stored := CRepo (RPrepareCommandEnvelope (o_Scope m) (o_ID m) proposed) in
  match decodePreparedCommand m unsigned stored with
  | Err e => fail e
  | Ok envelope =>
      if negb (After (expires_at envelope) at_) then let? _u := expireDelivery m at_ in Return (Ok false)
      else
        let! _u := CDispatch (e_AgentId envelope) envelope in
        let? value := ensureDispatched m at_ in
        let? _a := recordAudit value m "command.dispatched" "success" {[ "state"%string := AText "dispatched" ]} in
        Return (Ok true)
  end.

Definition dispatchOne (m : OutboxMessage) (at_ : time) : prog (outcome bool) :=
  let! current := CRepo (RGet (o_Scope m) (o_JobID m)) in
  if bool_decide (j_Status current = StatusCancelling) || bool_decide (j_Status current = StatusCancelled) || negb (null (o_CancellationRequestedAt m)) then
    let? _u := cancelUndelivered m at_ in Return (Ok false)
  else if match j_TimeoutAt current with Some t => negb (After t at_) | None => false end then
    let? _u := timeoutUndelivered m at_ in Return (Ok false)
  else if isTerminal (j_Status current) then
    if null_bytes (o_PreparedEnvelope m) then skipTerminalJob current m at_
    else
      let? unsigned := decodeUnsignedCommand m in
      match decodePreparedCommand m unsigned (o_PreparedEnvelope m) with
      | Err e => fail e
      | Ok prepared =>
          if negb (After (expires_at prepared) at_) then let? _u := expireDelivery m at_ in Return (Ok false)
          else skipTerminalJob current m at_
      end
  else
    let? unsigned := decodeUnsignedCommand m in
    let! reserved := CRepo (RReservePrepareSlot (o_Scope m) (o_ID m) at_) in
    if negb reserved then Return (Ok false) else deliver m unsigned at_.

Definition was_dispatched (r : outcome bool) : bool := match r with Ok b => b | Err _ => false end.

(** The number of dispatched commands and the errors. *)
Definition DispatchPending (at_ : time) : prog (outcome (Z * list CommandError)) :=
  if IsZero at_ then fail ErrExternal
  else
    let at_ := UTC at_ in
    let- recovered := recoverPreparedCommands at_ in
    let- cancelled := dispatchCancellations at_ in
    let- expired := expireExecutions at_ in
    let- validations := (if databaseInstanceResults lifecycle then let* r := CReconcileValidations at_ (claimLimit lifecycle) in Return (errors_of [error_of r])
                         else Return []) in
    let- reconciled := ReconcileTerminalCommands (claimLimit lifecycle) at_ in
    let- repaired := repairPendingTerminalAudits at_ in
    let maintenance := recovered ++ cancelled ++ expired ++ validations ++ match reconciled with Err e => [e] | Ok r => snd r end ++ repaired in
    let* claimed := CRepo (RClaimOutbox (claimLimit lifecycle) at_) in
    match claimed with
    | Err e => Return (Ok (0, maintenance ++ [e]))
    | Ok messages =>
        let- results := for_each (fun m => dispatchOne m at_) messages in
        Return (Ok (Z.of_nat (length (List.filter was_dispatched results)), maintenance ++ errors_of (error_of <$> results)))
    end.

(** *** What agents report *)

Definition renewExecutionLease (agentID : string) (at_ : time) (command : executionLeaseFence) : prog unit :=
  let* looked := CRepo (RLookupCommand (f_commandID command)) in
  match looked with
  | Err e => onError e
  | Ok m =>
      if negb (bool_decide (o_TargetID m = agentID)) then onError ErrCommandAgentMismatch
      else
        let- decoded := decodeUnsignedCommand m in
        match decoded with
        | Err e => onError e
        | Ok envelope =>
            let* got := CRepo (RGet (o_Scope m) (o_JobID m)) in
            match got with
            | Err e => onError e
            | Ok value =>
                let deadline := executionDeadline value (e_LeaseSeconds envelope) at_ in
                if negb (After deadline at_) then Return tt
                else
                  let* renewed := CRepo (RRenewExecutionLease (o_Scope m) (o_ID m) (sha256 (f_token command)) (f_executionRevision command) at_ deadline) in
                  match renewed with
                  | Err e => if bool_decide (e = JobErr ErrNotFound) then Return tt else onError e
                  | Ok _ => Return tt
                  end
            end
        end
  end.

Definition valid_fence (command : executionLeaseFence) : bool :=
  negb (blank (f_commandID command)) && (length (f_token command) =? sha256_Size)%nat && negb (f_executionRevision command =? 0).

(** The valid fences, the first one of every command. *)
Fixpoint distinct_fences (seen : list string) (commands : list executionLeaseFence) : list executionLeaseFence :=
  match commands with
  | [] => []
  | c :: rest =>
      if negb (valid_fence c) || bool_decide (f_commandID c ∈ seen) then distinct_fences seen rest
      else c :: distinct_fences (f_commandID c :: seen) rest
  end.

Definition renewExecutionLeases (agentID : string) (commands : list executionLeaseFence) (at_ : time) : prog unit :=
  let- _u := for_each (renewExecutionLease agentID at_) (distinct_fences [] commands) in Return tt.

Definition fence_of (c : ActiveCommand) : executionLeaseFence :=
  {| f_commandID := ac_CommandId c; f_token := ac_ExecutionToken c; f_executionRevision := ac_LeaseRevision c |}.

Definition Heartbeat (agentID heartbeatAgentID : string) (active : list ActiveCommand) : prog unit :=
  if negb (bool_decide (heartbeatAgentID = agentID)) then onError ErrCommandAgentMismatch
  else let- now := currentTime in renewExecutionLeases agentID (fence_of <$> active) now.

Definition executing (c : ActiveCommand) : bool :=
  negb (blank (ac_CommandId c)) && (bool_decide (ac_State c = EXECUTION_ACCEPTED) || bool_decide (ac_State c = EXECUTION_RUNNING)).

(** The last part of [Connected]: cancellations the agent has not been told. *)
Definition replayCancellations (agentID : string) : prog unit :=
  let* pending := CRepo (RPendingCancellationsForAgent agentID (claimLimit lifecycle)) in
  match pending with
  | Err e => onError e
  | Ok messages =>
      let- _r := for_each (fun m => let- r := dispatchCancellation m in match r with Ok _ => Return tt | Err e => onError e end) messages in
      Return tt
  end.

Definition Connected (agentID : string) (active : list ActiveCommand) : prog unit :=
  let- now := currentTime in
  let- _renewed := renewExecutionLeases agentID (fence_of <$> List.filter executing active) now in
  let* audits := CRepo (RPendingTerminalAuditsForAgent agentID (claimLimit lifecycle)) in
  let- _repaired := (match audits with
                     | Err e => onError e
                     | Ok messages =>
                         let- now := currentTime in
                         let- errors := repairTerminalAuditMessages messages now in
                         match errors with [] => Return tt | _ => let* _u := COnError errors in Return tt end
                     end) in
  let* prepared := CRepo (RPreparedCommandsForAgent agentID (claimLimit lifecycle)) in
  match prepared with
  | Err e => onError e
  | Ok messages =>
      let- _recovered := for_each (fun m => let- now := currentTime in let- r := recoverPreparedCommand now (o_ID m) in
                                            match r with Ok _ => Return tt | Err e => onError e end) messages in
      replayCancellations agentID
  end.

(** A report of another agent: audited, and an error. *)
Definition rejectMismatch (value : Job) (m : OutboxMessage) : prog (list CommandError) :=
  let- recorded := recordAudit value m "command.rejected" "failure" {[ "reason"%string := AText "agent_mismatch" ]} in
  Return (ErrCommandAgentMismatch :: errors_of [error_of recorded]).

(** The rejection of a command by its agent. *)
Definition rejectCommand (acknowledgement : CommandAcknowledgement) (envelope : CommandEnvelope) (m : OutboxMessage) : prog unit :=
  let- at_ := currentTime in
  if negb (bool_decide (k_State acknowledgement = ACK_REJECTED)) then onError ErrInvalidCommandPayload
  else if negb (null (o_CancellationRequestedAt m)) then Return tt
  else if negb (prestart_phase (o_Phase m)) then onError ErrConflict
  else
    let validation := isValidateCommand (e_Command envelope) in
    let reasonCode := (if validation then "plugin_failed"
                       else if empty_string (k_ReasonCode acknowledgement) then "command_rejected" else k_ReasonCode acknowledgement)%string in
    let summary := (if validation then "database instance connection validation failed" else EmptyString)%string in
    let- r := terminalize m CommandRejected (ended_target m TargetFailed reasonCode summary at_) "command.acknowledged" "failure"
                {[ "state"%string := AText "rejected"; "reason_code"%string := AText reasonCode ]} at_ in
    match r with Ok _ => Return tt | Err e => onError e end.

Definition Acknowledged (agentID : string) (acknowledgement : CommandAcknowledgement) : prog unit :=
  if negb (ValidateAcknowledgement acknowledgement) then onError ErrInvalidCommandPayload
  else
    let* looked := CRepo (RLookupCommand (k_CommandId acknowledgement)) in
    match looked with
    | Err e => onError e
    | Ok m =>
        match decodeUnsignedCommandShape m with
        | Err e => onError e
        | Ok envelope =>
            if negb (bool_decide (e_AgentId envelope = agentID)) || negb (bool_decide (o_TargetID m = agentID)) then
              let* got := CRepo (RGet (o_Scope m) (o_JobID m)) in
              match got with
              | Err e => onError e
              | Ok value => let- errors := rejectMismatch value m in let* _u := COnError errors in Return tt
              end
            else if bool_decide (k_State acknowledgement = ACK_ACCEPTED) || bool_decide (k_State acknowledgement = ACK_DUPLICATE) then
              let* got := CRepo (RGet (o_Scope m) (o_JobID m)) in
              match got with
              | Err e => onError e
              | Ok value =>
                  let- now := currentTime in
                  let* recorded := CRecordOnce (auditEvent value m "command.acknowledgement_ignored" "success"
                    {[ "reason"%string := AText "Prepared and fenced execution messages own state" ]} now ("command.acknowledgement_ignored:" +:+ o_ID m)) in
                  match recorded with Ok _ => Return tt | Err e => onError e end
              end
            else
              let* latest := CRepo (RLookupCommand (o_ID m)) in
              match latest with Err e => onError e | Ok m => rejectCommand acknowledgement envelope m end
        end
    end.

Definition observe (agentID commandID action result : string) (status : TargetStatus) (detail : AuditDetail) : prog unit :=
  let* looked := CRepo (RLookupCommand commandID) in
  match looked with
  | Err e => onError e
  | Ok m =>
      let- decoded := decodeUnsignedCommand m in
      match decoded with
      | Err e => onError e
      | Ok envelope =>
          let* got := CRepo (RGet (o_Scope m) (o_JobID m)) in
          match got with
          | Err e => onError e
          | Ok value =>
              if negb (bool_decide (e_AgentId envelope = agentID)) || negb (bool_decide (o_TargetID m = agentID)) then
                let- errors := rejectMismatch value m in let* _u := COnError errors in Return tt
              else
                let- at_ := currentTime in
                let- applied := applyTarget m {| TargetID := o_TargetID m; tr_Status := status; tr_ErrorSummary := EmptyString; tr_ResultSummary := EmptyString;
                                                 tr_Artifacts := []; tr_FinishedAt := None |} at_ in
                match applied with
                | Err e => onError e
                | Ok (value, mutated) =>
                    let- recorded := (if (mutated : bool) then recordAudit value m action result detail
                                      else recordAudit value m action "duplicate" (<["duplicate"%string := ABool true]> detail)) in
                    match recorded with Ok _ => Return tt | Err e => onError e end
                end
          end
      end
  end.

(** The fence of a progress report. *)
Definition progress_fenced (m : OutboxMessage) (progress : CommandProgress) : bool :=
  bool_decide (o_Phase m = CommandPhaseUnset)
  || started_phase (o_Phase m) && (length (g_ExecutionToken progress) =? sha256_Size)%nat && (g_LeaseRevision progress =? o_ExecutionRevision m)
     && negb (o_ExecutionRevision m =? 0) && (length (o_ExecutionTokenHash m) =? sha256_Size)%nat
     && bool_decide (sha256 (g_ExecutionToken progress) = o_ExecutionTokenHash m).

Definition Progress (agentID : string) (progress : CommandProgress) : prog unit :=
  if blank (g_ProgressCommandId progress) || (100 <? g_Percent progress) then onError ErrInvalidCommandPayload
  else
    let* looked := CRepo (RLookupCommand (g_ProgressCommandId progress)) in
    match looked with
    | Err e => onError e
    | Ok m =>
        if negb (progress_fenced m progress) then onError ErrConflict
        else
          let- decoded := decodeUnsignedCommand m in
          match decoded with
          | Err e => onError e
          | Ok envelope =>
              if negb (bool_decide (e_AgentId envelope = agentID)) || negb (bool_decide (o_TargetID m = agentID)) then onError ErrCommandAgentMismatch
              else
                let- recorded := (match e_Command envelope with
                                  | Some (ValidateDatabaseInstance body as command) =>
                                      if negb (databaseInstanceResults lifecycle) then fail ErrInvalidCommandPayload
                                      else let- now := currentTime in
                                           let* r := CValidationProgress (o_Scope m) (o_JobID m) (o_ID m) command now in Return r
                                  | _ => Return (Ok tt)
                                  end) in
                match recorded with
                | Err e => onError e
                | Ok _ => observe agentID (g_ProgressCommandId progress) "command.progress" "success" TargetRunning {[ "percent"%string := ANumber (g_Percent progress) ]}
                end
          end
    end.

(** *** Results *)

(** What a result says: the target row, the result of the audit record and the status of the command. *)
Record report := MkReport { rep_target : TargetResult; rep_audit : string; rep_status : CommandStatus }.

Definition reported (r : CommandResult) (finished : time) : option report :=
  let target status error := {| TargetID := EmptyString; tr_Status := status; tr_ErrorSummary := error; tr_ResultSummary := r_Summary r; tr_Artifacts := r_Artifacts r;
                                tr_FinishedAt := Some finished |} in
  match r_State r with
  | RESULT_SUCCEEDED => Some (MkReport (target TargetSucceeded EmptyString) "success" CommandSucceeded)
  | RESULT_FAILED => Some (MkReport (target TargetFailed (r_ErrorCode r)) "failure" CommandFailed)
  | RESULT_CANCELLED => Some (MkReport (target TargetCancelled EmptyString) "failure" CommandCancelled)
  | RESULT_TIMED_OUT => Some (MkReport (target TargetTimedOut EmptyString) "failure" CommandTimedOut)
  | RESULT_INTERRUPTED => Some (MkReport (target TargetTimedOut (r_ErrorCode r)) "failure" CommandTimedOut)
  | _ => None
  end.

Definition resultDigest (r : CommandResult) : bytes := sha256 (MarshalResult r).

Abbreviation answer := (ResultPersistence * option CommandError)%type.
Definition no_persistence : ResultPersistence := {| rp_CommandID := EmptyString; rp_ResultDigest := []; rp_Persisted := false; rp_ReasonCode := EmptyString |}.
Definition unpersisted (r : CommandResult) (e : CommandError) : answer :=
  ({| rp_CommandID := r_CommandId r; rp_ResultDigest := resultDigest r; rp_Persisted := false; rp_ReasonCode := EmptyString |}, Some e).
Definition persisted (r : CommandResult) : answer :=
  ({| rp_CommandID := r_CommandId r; rp_ResultDigest := resultDigest r; rp_Persisted := true; rp_ReasonCode := "PERSISTED" |}, None).

(** Another result of the command is stored: audit the conflict and tell the agent to drop its result. *)
Definition resultConflict (m : OutboxMessage) (r : CommandResult) (stored incoming : CommandStatus) (at_ : time) : prog answer :=
  let* got := CRepo (RGet (o_Scope m) (o_JobID m)) in
  match got with
  | Err e => Return (unpersisted r e)
  | Ok value =>
      let* recorded := CRecordOnce (auditEvent value m "command.result_conflict" "failure"
        {[ "stored_status"%string := AText (command_status_text stored); "incoming_status"%string := AText (command_status_text incoming) ]} at_
        ("command.result_conflict:" +:+ o_ID m +:+ ":" +:+ hex_encode (resultDigest r))) in
      match recorded with
      | Err e => Return (unpersisted r e)
      | Ok _ => Return ({| rp_CommandID := r_CommandId r; rp_ResultDigest := resultDigest r; rp_Persisted := false; rp_ReasonCode := "RESULT_CONFLICT" |}, None)
      end
  end.

(** A repeated interruption of a command that timed out. *)
Definition interruptedAgain (m : OutboxMessage) (r : CommandResult) (at_ : time) : prog answer :=
  let* got := CRepo (RGet (o_Scope m) (o_JobID m)) in
  match got with
  | Err e => Return (unpersisted r e)
  | Ok value =>
      match targetFor (j_TargetResults value) (o_TargetID m) with
      | Some row =>
          if negb (bool_decide (tr_Status row = TargetTimedOut)) then Return (unpersisted r ErrConflict)
          else
            let* recorded := CRecordOnce (auditEvent value m "command.execution_interrupted" "failure"
              {[ "state"%string := AText (result_state_text (r_State r)) ]} at_ ("command.execution_interrupted:" +:+ o_ID m)) in
            Return (match recorded with Err e => unpersisted r e | Ok _ => persisted r end)
      | None => Return (unpersisted r ErrConflict)
      end
  end.

(** The result is stored: record the target row and the audit record. *)
Definition settleResult (m : OutboxMessage) (r effective : CommandResult) (validation : bool) (target : TargetResult) (auditResult : string) (at_ : time) : prog answer :=
  let- applied := (if validation then applyEffectiveTarget m target at_ else applyTarget m target at_) in
  match applied with
  | Err e => Return (unpersisted r e)
  | Ok (value, _) =>
      match targetFor (j_TargetResults value) (o_TargetID m) with
      | Some row =>
          if negb (matchingTerminalTarget row target) then Return (unpersisted r ErrConflict)
          else
            let state := if validation then r_State effective else r_State r in
            let detail : AuditDetail := {[ "artifact_count"%string := ANumber (Z.of_nat (length (tr_Artifacts target))) ]} in
            let detail := if validation && negb (bool_decide (state = r_State r)) then <["incoming_state"%string := AText (result_state_text (r_State r))]> detail
                          else detail in
            let- recorded := recordTerminalAudit value m "command.result" auditResult (<["state"%string := AText (result_state_text state)]> detail) at_
                               ("command.result:" +:+ o_ID m) in
            Return (match recorded with Err e => unpersisted r e | Ok _ => persisted r end)
      | None => Return (unpersisted r ErrConflict)
      end
  end.

(** The fenced compare-and-set of a result, and what follows it. *)
Definition persistResult (m : OutboxMessage) (envelope : CommandEnvelope) (r : CommandResult) (rep : report) (at_ : time) : prog answer :=
  let validation := isValidateCommand (e_Command envelope) in
  let canonical := if validation then canonicalDatabaseInstanceValidationResult r else r in
  let input := {| cas_Scope := o_Scope m; cas_CommandID := o_ID m; cas_TokenHash := sha256 (r_ExecutionToken r); cas_ExpectedExecutionRevision := r_LeaseRevision r;
                  cas_Status := rep_status rep; cas_ResultDigest := resultDigest r;
                  cas_AllowTimedOutDigestAttach := bool_decide (r_State r = RESULT_INTERRUPTED); cas_Target := rep_target rep;
                  cas_Audit := {| a_DedupeKey := "command.result:" +:+ o_ID m; a_Action := "command.result"; a_Result := rep_audit rep;
                                  a_Detail := {[ "artifact_count"%string := ANumber (Z.of_nat (length (tr_Artifacts (rep_target rep))));
                                                 "state"%string := AText (result_state_text (r_State r)) ]} |};
                  cas_At := at_ |} in
  let- stored := (match e_Command envelope with
                  | Some (ValidateDatabaseInstance body as command) =>
                      let* s := CPersistValidation (o_Scope m) (o_JobID m) (o_ID m) command canonical input in Return s
                  | _ => let! terminal := CRepo (RPersistTerminalResult input) in Return (Ok (r, terminal))
                  end) in
  match stored with
  | Err e => Return (unpersisted r e)
  | Ok (effective, terminal) =>
      if out_Conflict terminal then resultConflict m r (out_Status terminal) (rep_status rep) at_
      else
        let target := if validation then databaseInstanceValidationTarget (o_TargetID m) effective at_ else rep_target rep in
        let auditResult := (if validation then (if bool_decide (tr_Status target = TargetSucceeded) then "success" else "failure") else rep_audit rep)%string in
        let- recorded := (match e_Command envelope with
                          | Some (CollectDatabaseMetrics true body as command) =>
                              let* s := CRecordTrial (o_Scope m) (o_JobID m) (o_ID m) command r at_ in Return s
                          | _ => Return (Ok tt)
                          end) in
        match recorded with
        | Err e => Return (unpersisted r e)
        | Ok _ =>
            if out_Duplicate terminal && bool_decide (out_Status terminal = CommandTimedOut) && bool_decide (r_State r = RESULT_INTERRUPTED)
            then interruptedAgain m r at_
            else settleResult m r effective validation target auditResult at_
        end
  end.

(** The part of [Result] between the lookup and the compare-and-set. *)
Definition classifyResult (m : OutboxMessage) (envelope : CommandEnvelope) (r : CommandResult) (rep : report) : prog answer :=
  if negb (length (r_ExecutionToken r) =? sha256_Size)%nat || (r_LeaseRevision r =? 0) then Return (unpersisted r ErrInvalidCommandPayload)
  else
    let- at_ := currentTime in
    let validation := isValidateCommand (e_Command envelope) in
    if validation && (negb (databaseInstanceResults lifecycle) || negb (validDatabaseInstanceValidationResult r)) then Return (unpersisted r ErrInvalidCommandPayload)
    else
      let target := if validation then databaseInstanceValidationTarget (o_TargetID m) (canonicalDatabaseInstanceValidationResult r) at_
                    else rep_target rep <| TargetID := o_TargetID m |> in
      let rep := MkReport target (rep_audit rep) (rep_status rep) in
      match e_Command envelope with
      | Some (CollectDatabaseMetrics true body as command) =>
          if negb (typedResultRecorder lifecycle) then Return (unpersisted r ErrInvalidCommandPayload)
          else
            let* classified := CClassifyTrial (o_Scope m) (o_JobID m) command r in
            match classified with
            | Err e => Return (unpersisted r e)
            | Ok succeeded =>
                if bool_decide (r_State r = RESULT_SUCCEEDED) && negb succeeded then
                  persistResult m envelope r
                    (MkReport (target <| tr_Status := TargetFailed |> <| tr_ErrorSummary := "metric_template_trial_invalid_result"%string |>) "failure" CommandFailed) at_
                else persistResult m envelope r rep at_
            end
      | _ =>
          if negb (null (r_MetricTemplateTrialResult r)) then Return (unpersisted r ErrInvalidCommandPayload)
          else persistResult m envelope r rep at_
      end.

Definition Result (agentID : string) (r : CommandResult) : prog answer :=
  if blank (r_CommandId r) || (maximumInlineResultSummary <? String.length (r_Summary r))%nat then Return (no_persistence, Some ErrInvalidCommandPayload)
  else
    let- finished := currentTime in
    match reported r finished with
    | None => Return (no_persistence, Some ErrInvalidCommandPayload)
    | Some rep =>
        if existsb (fun a => blank (ArtifactID a) || blank (ArtifactKind a)) (r_Artifacts r) then Return (no_persistence, Some ErrInvalidCommandPayload)
        else
          let* looked := CRepo (RLookupCommand (r_CommandId r)) in
          match looked with
          | Err e => Return (unpersisted r e)
          | Ok m =>
              match decodeUnsignedCommandShape m with
              | Err e => Return (unpersisted r e)
              | Ok envelope =>
                  if negb (bool_decide (e_AgentId envelope = agentID)) || negb (bool_decide (o_TargetID m = agentID)) then
                    let* got := CRepo (RGet (o_Scope m) (o_JobID m)) in
                    match got with
                    | Err e => Return (unpersisted r e)
                    | Ok value => let- _errors := rejectMismatch value m in Return (unpersisted r ErrCommandAgentMismatch)
                    end
                  else classifyResult m envelope r rep
              end
          end
    end.
End handlers.
