(* ===== verification/Encodings.v ===== *)
(** * Encodings for runs

    Concrete encodings of envelopes and results, one number per field, with
    their round trips.  The executable runs of the development take them for the
    deterministic protobuf encoding, which is a parameter elsewhere. *)

From S2P Require Import Prelude JobModel JobRepository CommandLifecycle.

#[global] Instance time_countable : Countable time.
Proof. apply (inj_countable' (fun t => (instant t, in_utc t)) (fun p => Time p.1 p.2)). by intros []. Defined.
#[global] Instance Timestamp_countable : Countable Timestamp.
Proof. apply (inj_countable' (fun t => (AsTime t, IsValid t)) (fun p => {| AsTime := p.1; IsValid := p.2 |})). by intros []. Defined.
#[global] Instance Command_countable : Countable Command.
Proof.
  apply (inj_countable'
    (fun c => match c with CollectDatabaseMetrics t b => inl (t, b) | ValidateDatabaseInstance b => inr (inl b) | OtherCommand k b => inr (inr (k, b)) end)
    (fun x => match x with inl (t, b) => CollectDatabaseMetrics t b | inr (inl b) => ValidateDatabaseInstance b | inr (inr (k, b)) => OtherCommand k b end)). by intros [].
Defined.
#[global] Instance CommandResultState_countable : Countable CommandResultState.
Proof.
  apply (inj_countable'
    (fun s => match s with RESULT_UNSPECIFIED => inr 0%nat | RESULT_SUCCEEDED => inr 1%nat | RESULT_FAILED => inr 2%nat | RESULT_CANCELLED => inr 3%nat
              | RESULT_TIMED_OUT => inr 4%nat | RESULT_INTERRUPTED => inr 5%nat | RESULT_OTHER c => inl c end)
    (fun o => match o with inr 0%nat => RESULT_UNSPECIFIED | inr 1%nat => RESULT_SUCCEEDED | inr 2%nat => RESULT_FAILED | inr 3%nat => RESULT_CANCELLED
              | inr 4%nat => RESULT_TIMED_OUT | inr _ => RESULT_INTERRUPTED | inl c => RESULT_OTHER c end)). by intros [].
Defined.
#[global] Instance ArtifactReference_countable : Countable ArtifactReference.
Proof. apply (inj_countable' (fun a => (ArtifactID a, ArtifactKind a)) (fun p => {| ArtifactID := p.1; ArtifactKind := p.2 |})). by intros []. Defined.
(** A codec that writes one number per field. *)
Class DemoCodec (A : Type) := { to_fields : A -> list Z; of_fields : list Z -> option A; fields_roundtrip a : of_fields (to_fields a) = Some a }.
Definition field {A} `{Countable A} (a : A) : Z := Z.pos (encode a).
Definition read {A} `{Countable A} (z : Z) : option A := match z with Z.pos p => countable.decode p | _ => None end.
Lemma read_field {A} `{Countable A} (a : A) : read (field a) = Some a.
Proof. apply decode_encode. Qed.
#[global] Instance envelope_demo : DemoCodec CommandEnvelope.
Proof.
  refine {| to_fields v := [field (e_CommandId v); field (e_JobId v); field (e_AgentId v); field (e_IssuedAt v); field (e_ExpiresAt v); field (e_Nonce v); field (e_Signature v);
                            field (e_LeaseSeconds v); field (e_Command v)];
            of_fields l := match l with
                           | [a; b; c; d; e; f; g; h; i] =>
                               a ← read a; b ← read b; c ← read c; d ← read d; e ← read e; f ← read f; g ← read g; h ← read h; i ← read i; Some (MkEnvelope a b c d e f g h i)
                           | _ => None
                           end |}. intros []. cbn -[read field]. by rewrite !read_field.
Defined.
#[global] Instance result_demo : DemoCodec CommandResult.
Proof.
  refine {| to_fields r := [field (r_CommandId r); field (r_State r); field (r_Summary r); field (r_Artifacts r); field (r_ErrorCode r); field (r_ExecutionToken r);
                            field (r_LeaseRevision r); field (r_MetricTemplateTrialResult r)];
            of_fields l := match l with
                           | [a; b; c; d; e; f; g; h] => a ← read a; b ← read b; c ← read c; d ← read d; e ← read e; f ← read f; g ← read g; h ← read h; Some (MkCommandResult a b c d e f g h)
                           | _ => None
                           end |}. intros []. cbn -[read field]. by rewrite !read_field.
Defined.
