(* ===== verification/CommandWorld.v ===== *)
(** * Control planes around one database

    Handlers of the dispatcher run call by call, in any number of control
    planes, on one database.  This file says what a call may do to the tables
    and which messages it hands to the agent sessions, what every handler may
    rely on while others run, what it learns from a reply, and a logic for
    programs: [safe] programs keep the tables sound and only hand over messages
    that the tables justify. *)

From S2P Require Import Prelude Programs GoText JobModel JobRepository CommandPhases CommandSlots CommandLifecycle.

Open Scope Z_scope.
Open Scope update_scope.
Open Scope prog_scope.

(** ** What calls do *)

(** Messages handed to agent sessions. *)
Inductive sent :=
  | SentEnvelope (agentID : string) (envelope : CommandEnvelope)
  | SentStart (agentID : string) (start : CommandStart)
  | SentCancelPrepared (agentID commandID : string)
  | SentCancelExecution (agentID commandID : string) (token : bytes) (revision : Z).

(** What the token protector opens, and what the recorders of typed results do to the tables. *)
Class Surroundings := {
  opens : bytes -> option bytes;
  recorder : forall A, call A -> tables -> A -> tables -> Prop;
}.
Arguments recorder {_} A.

Definition emits {A} (c : call A) : list sent :=
  match c with
  | CDispatch agentID envelope => [SentEnvelope agentID envelope]
  | CStart agentID start | CReplayStart agentID start => [SentStart agentID start]
  | CCancelPrepared agentID commandID _ => [SentCancelPrepared agentID commandID]
  | CCancelExecution agentID commandID token revision _ => [SentCancelExecution agentID commandID token revision]
  | _ => []
  end.

Section world.
Context {database : JobDatabase} {codec : ResultCodec} {surroundings : Surroundings}.

(** A call on the tables, with any reply its callee may give. *)
Definition table_step {A} (c : call A) (t : tables) (b : A) (t' : tables) : Prop :=
  match c in call A return A -> Prop with
  | CRepo c => fun b => exists x, exec c x t = (b, t')
  | CUnprotect ciphertext => fun b => t' = t /\ match b with Ok token => opens ciphertext = Some token | Err _ => True end
  | CClassifyTrial scope jobID command r => fun b => recorder _ (CClassifyTrial scope jobID command r) t b t'
  | CRecordTrial scope jobID id command r at_ => fun b => recorder _ (CRecordTrial scope jobID id command r at_) t b t'
  | CValidationProgress scope jobID id command at_ => fun b => recorder _ (CValidationProgress scope jobID id command at_) t b t'
  | CFinalizeValidation scope jobID id command r at_ => fun b => recorder _ (CFinalizeValidation scope jobID id command r at_) t b t'
  | CPersistValidation scope jobID id command r input => fun b => recorder _ (CPersistValidation scope jobID id command r input) t b t'
  | CReconcileValidations at_ limit => fun b => recorder _ (CReconcileValidations at_ limit) t b t'
  | _ => fun _ => t' = t
  end b.

(** ** What handlers rely on *)

Definition tables_ok (t : tables) : Prop := map_Forall row_ok (outbox t) /\ slots_ok t.

(** The recorders of typed results change commands only as the repository does, and never make one active. *)
Class RecorderContract : Prop := {
  recorder_sound {A} (c : call A) t b t' : tables_ok t -> recorder A c t b t' -> evolves t t' /\ steady true t t';
}.

Record later (t t' : tables) : Prop := { later_ok : tables_ok t'; later_evolves : evolves t t'; later_steady : steady false t t' }.

Lemma later_refl t : tables_ok t -> later t t.
Proof. intros Hok. split; [done|reflexivity..]. Qed.
Lemma later_trans t1 t2 t3 : tables_ok t1 -> later t1 t2 -> later t2 t3 -> later t1 t3.
Proof. intros [Hok _] [_ E1 S1] [O2 E2 S2]. split; [done|by eapply evolves_trans|by etrans]. Qed.

Lemma row_later t t' id r : tables_ok t -> later t t' -> outbox t !! id = Some r ->
  exists r', outbox t' !! id = Some r' /\ row_ok id r' /\ advances (message r) (message r').
Proof. intros [Hok _] [_ He _] Hr. exact (proj1 (He id) r Hr (Hok _ _ Hr)). Qed.

(** A message that was read from the table. *)
Definition known (m : OutboxMessage) (t : tables) : Prop :=
  exists r0 r, message r0 = m /\ row_ok (o_ID m) r0 /\ ~ half_prepared r0 /\ outbox t !! o_ID m = Some r /\ advances m (message r).

Lemma known_row t id r : tables_ok t -> outbox t !! id = Some r -> known (message r) t.
Proof.
  intros [Hok Hs] Hr. pose proof (Hok _ _ Hr) as Hro. exists r, r. rewrite (ok_id _ _ Hro). split_and!; [done..| |done|reflexivity]. by eapply slots_envelopes.
Qed.

Definition stable (P : tables -> Prop) : Prop := forall t t', tables_ok t -> later t t' -> P t -> P t'.

Lemma known_stable m : stable (known m).
Proof.
  intros t t' Hok Hl (r0 & r & H1 & H2 & H3 & H4 & H5). destruct (row_later _ _ _ _ Hok Hl H4) as (r' & H6 & _ & H7).
  exists r0, r'. split_and!; [done..|by etrans].
Qed.

Lemma path_pending p q : phase_path p q -> q = CommandPhasePending -> p = CommandPhasePending.
Proof. intros Hp Eq. induction Hp as [|p p' q He _ IH]; [done|]. specialize (IH Eq). subst. by inversion He; subst. Qed.

Lemma has_slot_stable id : stable (has_slot id).
Proof.
  intros t t' Hok Hl (r & Hr & Hp). destruct (row_later _ _ _ _ Hok Hl Hr) as (r' & Hr' & _ & Ha). exists r'. split; [done|]. destruct Hp as [Hp|(j & Hj & Hz)].
  - left. intros Hq. by apply Hp, (path_pending _ _ (adv_phase _ _ Ha)).
  - right. destruct (steady_limits _ _ _ (later_steady _ _ Hl) _ _ Hj) as (j' & Hj' & Hm). exists j'. split; [|congruence].
    pose proof (adv_identity _ _ Ha) as [= _ Es Ej _ _ _]. unfold job_of in *. by rewrite Es, Ej.
Qed.

(** A command with an envelope is past pending. *)
Lemma known_prepared m t : known m t -> o_PreparedEnvelope m <> [] -> has_slot (o_ID m) t.
Proof.
  intros (r0 & r & <- & _ & Hh & Hr & Ha) He. exists r. split; [done|]. left. intros Hq. apply Hh. split; [|done]. by apply (path_pending _ _ (adv_phase _ _ Ha)).
Qed.

(** ** Messages that the tables justify *)

(** The start message of a started command. *)
Definition start_of (m : OutboxMessage) (s : CommandStart) : Prop :=
  s_LeaseRevision s = o_ExecutionRevision m /\ opens (o_ExecutionTokenCiphertext m) = Some (s_ExecutionToken s) /\ sha256 (s_ExecutionToken s) = o_ExecutionTokenHash m /\
  (exists deadline, o_StartDeadline m = Some deadline /\ s_StartDeadline s = Timestamp_New (UTC deadline)) /\
  exists u, Unmarshal (o_Payload m) = Some (u, []) /\ s_LeaseSeconds s = e_LeaseSeconds u.

Definition justified (e : sent) (t : tables) : Prop :=
  match e with
  | SentEnvelope agentID envelope => exists r, outbox t !! e_CommandId envelope = Some r /\ o_TargetID (message r) = agentID /\ e_AgentId envelope = agentID /\
      o_PreparedEnvelope (message r) <> [] /\ Unmarshal (o_PreparedEnvelope (message r)) = Some (envelope, [])
  | SentStart agentID start => exists r, outbox t !! s_CommandId start = Some r /\ o_TargetID (message r) = agentID /\ 0 < o_ExecutionRevision (message r) /\ start_of (message r) start
  | SentCancelPrepared agentID id => exists r, outbox t !! id = Some r /\ o_TargetID (message r) = agentID
  | SentCancelExecution agentID id token revision => exists r, outbox t !! id = Some r /\ o_TargetID (message r) = agentID /\ is_Some (o_CancellationRequestedAt (message r)) /\
      0 < revision /\ o_ExecutionRevision (message r) = revision /\ opens (o_ExecutionTokenCiphertext (message r)) = Some token
  end.

Lemma advances_target m m' : advances m m' -> o_TargetID m' = o_TargetID m.
Proof. intros Ha. by pose proof (adv_identity _ _ Ha) as [= _ _ _ -> _ _]. Qed.

Lemma start_of_advances m m' s : advances m m' -> 0 < o_ExecutionRevision m -> start_of m s -> start_of m' s /\ 0 < o_ExecutionRevision m'.
Proof.
  intros Ha Hr. pose proof (adv_fence _ _ Ha Hr) as [= F1 F2 F3 F4]. pose proof (adv_identity _ _ Ha) as [= _ _ _ _ _ Ep]. unfold start_of. by rewrite F1, F2, F3, F4, Ep.
Qed.

Lemma justified_stable e : stable (justified e).
Proof.
  intros t t' Hok Hl. destruct e; cbn; intros (r & Hr & Hx); destruct (row_later _ _ _ _ Hok Hl Hr) as (r' & Hr' & _ & Ha); exists r'; (split; [done|]); rewrite (advances_target _ _ Ha).
  - destruct Hx as (H1 & H2 & H3 & H4). by rewrite (adv_envelope _ _ Ha H3).
  - destruct Hx as (H1 & H2 & H3). by destruct (start_of_advances _ _ _ Ha H2 H3).
  - done.
  - destruct Hx as (H1 & H2 & H3 & H4 & H5). subst revision. pose proof (adv_fence _ _ Ha H3) as [= F1 F2 F3 F4]. by rewrite (adv_cancelled _ _ Ha H2), F2, F3.
Qed.

(** ** What handlers learn *)

Definition repo_learned {A} (c : repo_call A) (a : A) (t : tables) : Prop :=
  match c in repo_call A return A -> Prop with
  | RLookupCommand id => fun m => known m t /\ o_ID m = id
  | RClaimOutbox _ _ => Forall (fun m => known m t)
  | RClaimPendingCancellations _ _ | RPendingCancellationsForAgent _ _ => Forall (fun m => known m t /\ is_Some (o_CancellationRequestedAt m))
  | RReservePrepareSlot _ id _ => fun reserved => reserved = true -> has_slot id t
  | RPrepareCommandEnvelope _ id _ => fun stored => exists r, outbox t !! id = Some r /\ o_PreparedEnvelope (message r) = stored /\ stored <> []
  | RPersistTerminalResult input => fun outcome => exists r, outbox t !! cas_CommandID input = Some r /\ terminal_phase (o_Phase (message r)) = true /\
      (out_Conflict outcome = false -> o_TerminalResultDigest (message r) = cas_ResultDigest input)
  | _ => fun _ => True
  end a.

Lemma write_rows_lookup l : forall t a t', NoDup ((fun r => o_ID (message r)) <$> l) -> write_rows l t = Ok (a, t') ->
  (forall r, r ∈ l -> outbox t' !! o_ID (message r) = Some r) /\ (forall id, id ∉ ((fun r => o_ID (message r)) <$> l) -> outbox t' !! id = outbox t !! id).
Proof.
  induction l as [|r l IH]; intros t a t' Hnd Hw; cbn [write_rows] in Hw.
  - injection Hw as _ <-. split; [intros r Hr; by apply elem_of_nil in Hr|done].
  - apply tx_bind_Ok in Hw as (u & t1 & [_ H1]%write_row_Ok & H2). cbn in Hnd. apply NoDup_cons in Hnd as [Hni Hnd]. destruct (IH _ _ _ Hnd H2) as [Hin Hout]. split.
    + intros x [->|Hx]%elem_of_cons; [|by apply Hin]. rewrite (Hout _ Hni), H1. apply lookup_insert_eq.
    + intros id Hid. cbn in Hid. rewrite not_elem_of_cons in Hid. destruct Hid as [Hne Hid]. rewrite (Hout _ Hid), H1. by apply lookup_insert_ne.
Qed.

(** Claimed rows are in the table as they are returned. *)
Lemma claimCommands_rows pred keys f limit at_ locked t l t' : filed t -> (forall m, o_ID (f m) = o_ID m) -> claimCommands pred keys f limit at_ locked t = Ok (l, t') ->
  Forall (fun m => exists r r0, outbox t' !! o_ID m = Some r /\ message r = m /\ pred r0 = true /\ m = f (message r0)) l.
Proof.
  intros Hi Hf Hc. unfold claimCommands in Hc. tx_step Hc. apply tx_bind_Ok in Hc as (rows & t1 & Hrd & Hc). injection Hrd as <- <-. cbv zeta in Hc.
  apply tx_bind_Ok in Hc as (u & t2 & Hw & Hc). injection Hc as <- <-.
  destruct (selected_rows t _ Hi (candidates_selected pred keys limit locked t)) as [Hnd _].
  set (g := fun r : outboxRow => r <| message ::= f |>) in *.
  assert (Hnd' : NoDup ((fun r => o_ID (message r)) <$> (g <$> candidates pred keys limit locked t))).
  { rewrite <- list_fmap_compose. erewrite list_fmap_ext; [exact Hnd|]. intros i r _. apply Hf. }
  destruct (write_rows_lookup _ _ _ _ Hnd' Hw) as [Hin _]. apply Forall_forall. intros m (r & -> & Hr)%list_elem_of_fmap. pose proof Hr as (r0 & -> & Hr0)%list_elem_of_fmap.
  exists (g r0), r0. split_and!; [by apply Hin|done|by eapply candidates_spec|done].
Qed.

Lemma agent_query_rows agentID limit pred keys t l t' : filed t -> agent_query agentID limit pred keys t = Ok (l, t') ->
  t' = t /\ Forall (fun m => (exists r, outbox t !! o_ID m = Some r /\ message r = m) /\ pred m = true) l.
Proof.
  intros Hi Hq. unfold agent_query in Hq. tx_step Hq. injection Hq as <- <-. split; [done|]. apply Forall_forall. intros m (r & -> & Hr)%list_elem_of_fmap.
  apply elem_of_take in Hr as (i & Hr & _). apply list_elem_of_lookup_2 in Hr. rewrite merge_sort_Permutation in Hr. apply list_elem_of_filter in Hr as [Hp Hr].
  apply list_elem_of_fmap in Hr as ([id r'] & -> & Hr%elem_of_map_to_list). cbn in *. apply andb_true_iff in Hp as [_ Hp]. split; [|done]. rewrite (Hi _ _ Hr). eauto.
Qed.

Lemma LookupCommand_row id t m t' : LookupCommand id t = Ok (m, t') -> t' = t /\ exists r, outbox t !! id = Some r /\ message r = m.
Proof. unfold LookupCommand. intros Hl. do 3 tx_step Hl. injection Hl as <- <-. eauto. Qed.

Lemma ReservePrepareSlot_slot scope id at_ t t' : filed t -> ReservePrepareSlot scope id at_ t = Ok (true, t') -> has_slot id t'.
Proof.
  intros Hi Hr. unfold ReservePrepareSlot in Hr. do 6 tx_step Hr. clear E0. apply scoped_row_Some in E1 as [E1 Hsc].
  destruct (_ =? 0) eqn:Hz. { injection Hr as <-. exists o. split; [done|]. right. exists j. unfold job_of. rewrite Hsc. split; [done|lia]. }
  destruct (_ || _); [done|]. destruct (activePreparePhase _) eqn:Ha. { injection Hr as <-. exists o. split; [done|]. left. intros Hp. by rewrite Hp in Ha. }
  destruct (_ && _); [done|]. tx_step Hr. destruct (_ <=? _); [apply tx_bind_Ok in Hr as (u & t2 & Hu & Hr); discriminate Hr|].
  apply tx_bind_Ok in Hr as (u & t2 & Hu & Hr). tx_step Hr. injection Hr as <-. unfold update_scoped in Hu. tx_step Hu. unfold scoped_row in Hu. rewrite E1, bool_decide_true in Hu by done.
  case_hyp Hu. apply tx_bind_Ok in Hu as (v & t3 & [_ ->]%write_row_Ok & Hu). injection Hu as <-. eexists. cbn. rewrite (Hi _ _ E1), lookup_insert_eq. split; [done|]. by left.
Qed.

Lemma PrepareCommandEnvelope_row scope id proposed t stored t' : PrepareCommandEnvelope scope id proposed t = Ok (stored, t') ->
  exists r, outbox t' !! id = Some r /\ o_PreparedEnvelope (message r) = stored /\ stored <> [].
Proof.
  unfold PrepareCommandEnvelope. intros Hp. tx_step Hp. apply tx_bind_Ok in Hp as (u & t2 & _ & Hp). do 3 tx_step Hp. injection Hp as <- <-.
  apply scoped_row_Some in E1 as [E1 _]. exists o. split_and!; [done..|]. intros He. apply negb_true_iff in E2. rewrite He in E2. discriminate E2.
Qed.

Lemma not_null {A} (o : option A) : negb (null o) = true -> is_Some o.
Proof. by destruct o. Qed.

(** An update that applied. *)
Lemma update_scoped_row scope id guard f t t' : filed t -> (forall m, o_ID (f m) = o_ID m) -> update_scoped scope id guard f t = Ok (true, t') ->
  exists r, outbox t !! id = Some r /\ guard (message r) = true /\ outbox t' !! id = Some (r <| message := f (message r) |>) /\ filed t'.
Proof.
  intros Hi Hf Hu. unfold update_scoped in Hu. tx_step Hu. destruct (scoped_row scope id t) as [r|] eqn:E; [|done]. apply scoped_row_Some in E as [E _].
  destruct (guard (message r)) eqn:Hg; [|done]. apply tx_bind_Ok in Hu as (u & t2 & [_ ->]%write_row_Ok & Hu). injection Hu as <-. exists r. cbn. rewrite Hf, (Hi _ _ E), lookup_insert_eq.
  split_and!; [done..|]. intros id' r'. cbn. rewrite lookup_insert_Some. intros [[<- <-]|[_ Hx]]; [|by apply Hi]. cbn. rewrite Hf. by apply Hi.
Qed.

Lemma persistTerminalEvidenceTx_row input t u t' : filed t -> persistTerminalEvidenceTx input t = Ok (u, t') ->
  exists r r', outbox t !! tc_CommandID input = Some r /\ outbox t' !! tc_CommandID input = Some r' /\ kept (message r') = kept (message r).
Proof.
  intros Hi Hp. unfold persistTerminalEvidenceTx in Hp. do 2 tx_step Hp. apply tx_bind_Ok in Hp as (b & t2 & Hu & Hp). unfold require in Hp. destruct b; [|done]. injection Hp as _ <-.
  apply update_scoped_row in Hu as (r & Hr & _ & Hr' & _); [|done..]. exists r. eexists. split_and!; [done..|]. apply evidence_kept.
Qed.

Lemma PersistTerminalResult_row input t outcome t' : map_Forall row_ok (outbox t) -> PersistTerminalResult input t = Ok (outcome, t') ->
  exists r, outbox t' !! cas_CommandID input = Some r /\ terminal_phase (o_Phase (message r)) = true /\
    (out_Conflict outcome = false -> o_TerminalResultDigest (message r) = cas_ResultDigest input).
Proof.
  intros Hok Hp. pose proof (filed_ok _ Hok) as Hi. unfold PersistTerminalResult in Hp. apply tx_bind_Ok in Hp as (u & t1 & Hq & Hp). unfold require in Hq. destruct (_ && validateTerminalCommand _) eqn:Hv; [|done].
  injection Hq as _ <-. apply andb_true_iff in Hv as [_ Hv%validateTerminalCommand_status]. do 5 tx_step Hp. apply scoped_row_Some in E0 as [Er _].
  assert (Hafter : forall x r1 t1 u1, outbox t1 !! cas_CommandID input = Some r1 -> filed t1 -> terminal_phase (o_Phase (message r1)) = true -> o_TerminalResultDigest (message r1) = cas_ResultDigest input ->
    persistTerminalEvidenceTx (terminal_input input) t1 = Ok (u1, t') -> exists r, outbox t' !! cas_CommandID input = Some r /\ terminal_phase (o_Phase (message r)) = true /\
    (x = false -> o_TerminalResultDigest (message r) = cas_ResultDigest input)).
  { intros x r1 t1 u1 Hr1 Hi1 Ht1 Hd1 (r & r' & Hr & Hr' & Hk)%persistTerminalEvidenceTx_row; [|done]. cbn in *. rewrite Hr1 in Hr. injection Hr as <-. exists r'.
    unfold kept, fence in Hk. injection Hk as _ _ _ _ _ _ _ _ Eph _ _ _ _ _ Ed _. rewrite Eph, Ed. done. }
  destruct (terminal_phase (o_Phase (message o))) eqn:Ht.
  - unfold terminal_result_again in Hp. cbv zeta in Hp. tx_step Hp. destruct (attaches_digest input (message o)).
    + apply tx_bind_Ok in Hp as (b & t2 & Hu & Hp). tx_step Hp. injection Hp as <- <-. apply update_scoped_row in Hu as (r & Hr & Hg & Hr' & _); [|done..].
      exists (r <| message := message r <| o_TerminalResultDigest := cas_ResultDigest input |> |>). cbn. rewrite !andb_true_iff in Hg. destruct Hg as [[[[Hph _] _] _] _]. bool_simpl. by rewrite Hph.
    + destruct (_ && _) eqn:Hd; [|injection Hp as <- <-; exists o; by split_and!]. tx_step Hp. apply tx_bind_Ok in Hp as (u2 & t2 & Hu & Hp). injection Hp as <- <-.
      bool_simpl. by eapply (Hafter false o t).
  - tx_step Hp. apply tx_bind_Ok in Hp as (b & t2 & Hu & Hp). tx_step Hp. apply tx_bind_Ok in Hp as (u2 & t3 & Hev & Hp). injection Hp as <- <-.
    apply update_scoped_row in Hu as (r & Hr & Hg & Hr' & Hi2); [|done..]. eapply (Hafter _ _ _ _ Hr' Hi2); [|done|exact Hev]. cbn in *. by destruct (cas_Status input).
Qed.

(** Replies of the repository. *)
Lemma exec_learned {A} (c : repo_call A) x t a t' : tables_ok t -> tables_ok t' -> exec c x t = (Ok a, t') -> repo_learned c a t'.
Proof.
  intros [Hok Hs] Hok' Hx. assert (Hb : body c x t = Ok (a, t')).
  { unfold exec, perform in Hx. destruct (ends x); [|done|]; destruct (body c x t) as [[b t1]|e]; try discriminate Hx. by injection Hx as -> ->. }
  pose proof (filed_ok _ Hok) as Hi. assert (Hin : forall m, (exists r, outbox t' !! o_ID m = Some r /\ message r = m) -> known m t') by (intros m (r & Hr & <-); by eapply known_row).
  destruct c; cbn in *; try done.
  - unfold ClaimOutbox in Hb. tx_step Hb. apply claimCommands_rows in Hb; [|done..]. eapply Forall_impl; [exact Hb|]. intros m (r & _ & Hr & Hm & _). cbn. eauto.
  - intros ->. by eapply ReservePrepareSlot_slot.
  - apply LookupCommand_row in Hb as (-> & r & Hr & <-). split; [by eapply known_row|by apply Hi].
  - by eapply PrepareCommandEnvelope_row.
  - by eapply PersistTerminalResult_row.
  - unfold ClaimPendingCancellations in Hb. apply claimCommands_rows in Hb; [|done..]. eapply Forall_impl; [exact Hb|]. intros m (r & r0 & Hr & Hm & Hp & Hf). cbn. split; [eauto|].
    rewrite Hf. cbn. rewrite !andb_true_iff in Hp. destruct Hp as [[[Hp _] _] _]. by apply not_null.
  - unfold PendingCancellationsForAgent in Hb. apply agent_query_rows in Hb as [-> Hl]; [|done]. eapply Forall_impl; [exact Hl|]. intros m ((r & Hr & Hm) & Hp). cbn. split; [eauto|].
    apply andb_true_iff in Hp as [Hp _]. by apply not_null.
Qed.

(** ** A logic for programs *)

Definition allowed {A} (c : call A) (t : tables) : Prop :=
  match c with CRepo c => permitted c t | _ => True end /\ Forall (fun e => justified e t) (emits c).

Definition learned {A} (c : call A) (b : A) (t : tables) : Prop :=
  match c in call A return A -> Prop with
  | CRepo c => fun b => match b with Ok a => repo_learned c a t | Err _ => True end
  | CUnprotect ciphertext => fun b => match b with Ok token => opens ciphertext = Some token | Err _ => True end
  | _ => fun _ => True
  end b.

Lemma permitted_stable {A} (c : repo_call A) : stable (permitted c).
Proof. destruct c; cbn; try done; apply has_slot_stable. Qed.

Context {contract : RecorderContract}.

Lemma exec_later {A} (c : repo_call A) x t r t' : tables_ok t -> permitted c t -> exec c x t = (r, t') -> later t t'.
Proof.
  intros [Hok Hs] Hp Hx. pose proof (filed_ok _ Hok) as Hi. pose proof (step_evolves _ _ Hok (call_db_step _ _ _ _ _ Hx)) as He.
  split; [split; [by eapply evolves_ok|by eapply exec_slots]|done|by eapply exec_steady].
Qed.

Lemma recorder_later {A} (c : call A) t b t' : tables_ok t -> recorder A c t b t' -> later t t'.
Proof.
  intros Hok Hr. destruct (recorder_sound c t b t' Hok Hr) as [He Hst]. destruct Hok as [Hok Hs].
  split; [split; [by eapply evolves_ok|by eapply steady_slots]|done|by eapply steady_lax].
Qed.

Lemma step_later {A} (c : call A) t b t' : tables_ok t -> allowed c t -> table_step c t b t' -> later t t' /\ learned c b t'.
Proof.
  intros Hok [Hp _] Hst. destruct c; cbn [table_step learned] in *;
    try (split; [by eapply recorder_later|exact I]); try (subst t'; split; [by apply later_refl|exact I]).
  - destruct Hst as (x & Hx). assert (Hl : later t t') by by eapply exec_later. split; [done|]. destruct b as [a|e]; [|done]. eapply exec_learned; [done|apply Hl|exact Hx].
  - destruct Hst as [-> Hb]. split; [by apply later_refl|]. by destruct b.
Qed.

(** The program keeps to what is allowed, whatever others do between its calls, and ends with [Q]. *)
Fixpoint safe {A} (p : prog A) (Q : A -> tables -> Prop) (t : tables) : Prop :=
  match p with
  | Return a => forall t', later t t' -> Q a t'
  | Call c k => forall t1, later t t1 -> allowed c t1 /\ forall b t2, table_step c t1 b t2 -> safe (k b) Q t2
  end.

Lemma safe_later {A} (p : prog A) Q t t' : tables_ok t -> later t t' -> safe p Q t -> safe p Q t'.
Proof. destruct p; cbn; intros Hok Hl Hs; [intros t2 Hl2|intros t2 Hl2]; apply Hs; by eapply later_trans. Qed.

Lemma safe_mono {A} (p : prog A) Q Q' t : (forall a t', Q a t' -> Q' a t') -> safe p Q t -> safe p Q' t.
Proof.
  intros HQ. revert t. induction p as [a|B c k IH]; cbn; intros t Hs; [auto|]. intros t1 Hl. destruct (Hs t1 Hl) as [Ha Hk]. split; [done|]. intros b t2 Hst. apply IH; auto.
Qed.

Lemma safe_ret {A} (a : A) Q t : tables_ok t -> stable (Q a) -> Q a t -> safe (Return a) Q t.
Proof. intros Hok Hst Hq t' Hl. by apply (Hst t). Qed.

Lemma safe_call {A B} (c : call B) (k : B -> prog A) Q t : tables_ok t -> (forall t1, later t t1 -> allowed c t1) ->
  (forall b t2, later t t2 -> learned c b t2 -> safe (k b) Q t2) -> safe (Call c k) Q t.
Proof.
  intros Hok Ha Hk t1 Hl. split; [by apply Ha|]. intros b t2 Hst. destruct (step_later _ _ _ _ (later_ok _ _ Hl) (Ha _ Hl) Hst) as [Hl2 Hb].
  apply Hk; [by eapply later_trans|done].
Qed.

(** Where a program ends is later than where it began. *)
Lemma safe_since {A} (p : prog A) Q t0 t : tables_ok t0 -> later t0 t -> safe p Q t -> safe p (fun a t' => Q a t' /\ later t0 t') t.
Proof.
  intros H0. revert t. induction p as [a|B c k IH]; cbn; intros t Hl Hs.
  - intros t' Hl'. split; [by apply Hs|by eapply later_trans].
  - intros t1 Hl1. destruct (Hs t1 Hl1) as [Ha Hk]. split; [done|]. intros b t2 Hst. apply IH; [|by apply Hk].
    destruct (step_later _ _ _ _ (later_ok _ _ Hl1) Ha Hst) as [Hl2 _]. assert (H01 : later t0 t1) by by eapply later_trans. by eapply later_trans.
Qed.

Lemma safe_seq {A B} (f : A -> prog B) (p : prog A) Q t : tables_ok t -> safe p (fun a t' => safe (f a) Q t') t -> safe (prog_bind f p) Q t.
Proof.
  revert t. induction p as [a|C c k IH]; cbn; intros t Hok Hs; [by apply Hs, later_refl|].
  intros t1 Hl. destruct (Hs t1 Hl) as [Ha Hk]. split; [done|]. intros b t2 Hst. apply IH; [|by apply Hk].
  destruct (step_later _ _ _ _ (later_ok _ _ Hl) Ha Hst) as [Hl2 _]. apply Hl2.
Qed.

Lemma safe_bind {A B} (f : A -> prog B) (p : prog A) Q R t : tables_ok t -> safe p R t -> (forall a t', later t t' -> R a t' -> safe (f a) Q t') -> safe (prog_bind f p) Q t.
Proof.
  intros Hok Hp Hf. apply safe_seq; [done|]. eapply safe_mono; [|apply (safe_since p R t t Hok (later_refl _ Hok) Hp)]. intros a t' [HR Hl]. by apply Hf.
Qed.

Lemma safe_for_each {A B} (f : A -> prog B) l t : tables_ok t -> (forall x t', x ∈ l -> later t t' -> safe (f x) (fun _ _ => True) t') -> safe (for_each f l) (fun _ _ => True) t.
Proof.
  revert t. induction l as [|x l IH]; intros t Hok Hf; cbn [for_each]; [done|]. eapply safe_bind; [done|apply Hf; [by left|by apply later_refl]|].
  intros y t1 Hl1 _. pose proof (later_ok _ _ Hl1) as Hok1. eapply safe_bind; [done| |by intros ys t2 Hl2 _].
  apply IH; [done|]. intros z t2 Hz Hl2. apply Hf; [by right|by eapply later_trans].
Qed.

(** *** Programs that need to know nothing *)

Definition harmless {A} (c : call A) : bool :=
  match c with
  | CRepo (RPrepareCommandEnvelope _ _ _) | CRepo (RMarkPrepared _ _ _ _) | CDispatch _ _ | CStart _ _ | CReplayStart _ _ | CCancelPrepared _ _ _ | CCancelExecution _ _ _ _ _ => false
  | _ => true
  end.

Lemma harmless_allowed {A} (c : call A) t : harmless c = true -> allowed c t.
Proof. intros Hh. destruct c; try discriminate Hh; (split; [|by constructor]); try exact I. by destruct c. Qed.

(** Only harmless calls, and every result satisfies [P]. *)
Fixpoint gentle {A} (P : A -> Prop) (p : prog A) : Prop :=
  match p with Return a => P a | Call c k => harmless c = true /\ forall b, gentle P (k b) end.

Lemma gentle_safe {A} (P : A -> Prop) (D : tables -> Prop) (p : prog A) t : tables_ok t -> stable D -> D t -> gentle P p -> safe p (fun a t' => P a /\ D t') t.
Proof.
  intros Hok HD. revert t Hok. induction p as [a|B c k IH]; cbn; intros t Hok Hd Hg.
  - intros t' Hl. split; [done|by apply (HD t)].
  - destruct Hg as [Hh Hk]. apply safe_call; [done|intros; by apply harmless_allowed|]. intros b t2 Hl _. apply IH; [apply Hl|by apply (HD t)|apply Hk].
Qed.

Lemma gentle_any {A} (P : A -> Prop) (p : prog A) t : tables_ok t -> gentle P p -> safe p (fun _ _ => True) t.
Proof. intros Hok Hg. eapply safe_mono; [|apply (gentle_safe P (fun _ => True)); done]. done. Qed.

Lemma gentle_bind {A B} (P : A -> Prop) (Q : B -> Prop) (f : A -> prog B) (p : prog A) : gentle P p -> (forall a, P a -> gentle Q (f a)) -> gentle Q (prog_bind f p).
Proof. intros Hp Hf. induction p as [a|C c k IH]; cbn in *; [by apply Hf|]. destruct Hp as [Hh Hk]. split; [done|]. intros b. by apply IH. Qed.

Lemma gentle_mono {A} (P Q : A -> Prop) (p : prog A) : (forall a, P a -> Q a) -> gentle P p -> gentle Q p.
Proof. intros HP. induction p as [a|C c k IH]; cbn; [apply HP|]. intros [Hh Hk]. split; [done|]. intros b. by apply IH. Qed.

Lemma gentle_for_each {A B} (f : A -> prog B) l : (forall x, gentle (fun _ => True) (f x)) -> gentle (fun _ => True) (for_each f l).
Proof. intros Hf. induction l as [|x l IH]; cbn; [done|]. eapply gentle_bind; [apply Hf|]. intros y _. eapply gentle_bind; [apply IH|]. by intros ys _. Qed.
End world.
