(* ===== verification/CommandDelivery.v ===== *)
(** * Delivery of commands

    The handlers of the dispatcher, run by any number of control planes call by
    call on one database: every handler is safe ([CommandWorld.safe]), and so
    every system they can reach keeps the limits of jobs, hands every agent one
    consistent story about each command, and acknowledges results only when
    they are stored. *)

From S2P Require Import Prelude Programs GoText JobModel JobRepository CommandPhases CommandSlots CommandLifecycle Encodings CommandWorld.

Open Scope Z_scope.
Open Scope update_scope.
Open Scope prog_scope.

Abbreviation answer := (ResultPersistence * option CommandError)%type.

Create HintDb gentle.

(** Walk through a program that makes harmless calls only. *)
Ltac gentle_step :=
  match goal with
  | |- gentle _ (Return _) => exact I
  | |- gentle _ (prog_bind _ _) => apply (gentle_bind (fun _ => True)); [|intros ? _]
  | |- gentle _ (Call _ _) => split; [reflexivity|intros ?]
  | |- gentle _ (match ?x with _ => _ end) => destruct x
  | |- gentle _ (let _ := _ in _) => cbv zeta
  | |- gentle _ (for_each _ _) => apply gentle_for_each; intros ?
  end.
Ltac gentle_auto := repeat first [solve [eauto with gentle nocore] | gentle_step].

Section handlers.
Context {database : JobDatabase} {codec : ResultCodec} {surroundings : Surroundings} (lifecycle : CommandLifecycle).
Abbreviation any := (fun _ => True).

(** ** Harmless parts *)

Lemma onError_gentle e : gentle any (onError e).
Proof. unfold onError. gentle_auto. Qed.
Lemma currentTime_gentle : gentle any currentTime.
Proof. unfold currentTime. gentle_auto. Qed.
#[local] Hint Resolve onError_gentle currentTime_gentle : gentle.
Lemma recordAudit_gentle value m action result detail : gentle any (recordAudit value m action result detail).
Proof. unfold recordAudit. gentle_auto. Qed.
Lemma recordTerminalAudit_gentle value m action result detail at_ key : gentle any (recordTerminalAudit value m action result detail at_ key).
Proof. unfold recordTerminalAudit. gentle_auto. Qed.
Lemma decodeUnsignedCommand_gentle m : gentle any (decodeUnsignedCommand m).
Proof. unfold decodeUnsignedCommand. gentle_auto. Qed.
Lemma finalizeDatabaseInstanceValidationTarget_gentle m target at_ : gentle any (finalizeDatabaseInstanceValidationTarget lifecycle m target at_).
Proof. unfold finalizeDatabaseInstanceValidationTarget. gentle_auto. Qed.
#[local] Hint Resolve recordAudit_gentle recordTerminalAudit_gentle decodeUnsignedCommand_gentle finalizeDatabaseInstanceValidationTarget_gentle : gentle.

Lemma finalize_gentle candidate at_ : gentle any (finalize candidate at_).
Proof.
  unfold finalize. generalize commandTransitionAttempts, (Some candidate). intros attempts. induction attempts as [|attempts IH]; intros known; cbn [finalize_loop]; gentle_auto.
Qed.
#[local] Hint Resolve finalize_gentle : gentle.
Lemma write_target_gentle again mutated current target at_ : (forall mutated, gentle any (again mutated)) -> gentle any (write_target again mutated current target at_).
Proof. intros Ha. unfold write_target. gentle_auto. Qed.
#[local] Hint Resolve write_target_gentle : gentle.
Lemma apply_loop_gentle attempts mutated m target at_ : gentle any (apply_loop attempts mutated m target at_).
Proof. revert mutated. induction attempts as [|attempts IH]; intros mutated; cbn [apply_loop]; cbv zeta; gentle_auto. Qed.
#[local] Hint Resolve apply_loop_gentle : gentle.
Lemma applyTargetWithProjection_gentle m target at_ projection : gentle any (applyTargetWithProjection lifecycle m target at_ projection).
Proof. unfold applyTargetWithProjection. gentle_auto. Qed.
#[local] Hint Resolve applyTargetWithProjection_gentle : gentle.
Lemma ensureDispatched_gentle m at_ : gentle any (ensureDispatched m at_).
Proof. unfold ensureDispatched. generalize commandTransitionAttempts. intros attempts. induction attempts as [|attempts IH]; cbn [ensure_loop]; gentle_auto. Qed.
Lemma terminalize_gentle m status target action result detail at_ : gentle any (terminalize lifecycle m status target action result detail at_).
Proof. unfold terminalize, applyTarget. gentle_auto. Qed.
#[local] Hint Resolve ensureDispatched_gentle terminalize_gentle : gentle.
Lemma timeoutUndelivered_gentle m at_ : gentle any (timeoutUndelivered lifecycle m at_).
Proof. apply terminalize_gentle. Qed.
Lemma cancelUndelivered_gentle m at_ : gentle any (cancelUndelivered lifecycle m at_).
Proof. apply terminalize_gentle. Qed.
Lemma expireDelivery_gentle m at_ : gentle any (expireDelivery lifecycle m at_).
Proof. apply terminalize_gentle. Qed.
Lemma repairTerminalAuditMessages_gentle messages at_ : gentle any (repairTerminalAuditMessages messages at_).
Proof. unfold repairTerminalAuditMessages. gentle_auto. unfold repairTerminalAuditMessage. gentle_auto. Qed.
#[local] Hint Resolve timeoutUndelivered_gentle cancelUndelivered_gentle expireDelivery_gentle repairTerminalAuditMessages_gentle : gentle.
Lemma repairPendingTerminalAudits_gentle at_ : gentle any (repairPendingTerminalAudits lifecycle at_).
Proof. unfold repairPendingTerminalAudits. gentle_auto. Qed.
#[local] Hint Resolve repairPendingTerminalAudits_gentle : gentle.
Lemma expireExecutions_gentle at_ : gentle any (expireExecutions lifecycle at_).
Proof. unfold expireExecutions. gentle_auto. unfold expireClaimed. gentle_auto. Qed.
Lemma ReconcileTerminalCommands_gentle limit at_ : gentle any (ReconcileTerminalCommands limit at_).
Proof. unfold ReconcileTerminalCommands. gentle_auto. unfold reconcileClaim. gentle_auto. Qed.
Lemma proposeEnvelope_gentle m unsigned at_ : gentle any (proposeEnvelope m unsigned at_).
Proof. unfold proposeEnvelope. gentle_auto. Qed.
Lemma skipTerminalJob_gentle current m at_ : gentle any (skipTerminalJob current m at_).
Proof. unfold skipTerminalJob. gentle_auto. Qed.
Lemma renewExecutionLeases_gentle agentID commands at_ : gentle any (renewExecutionLeases agentID commands at_).
Proof. unfold renewExecutionLeases. gentle_auto. unfold renewExecutionLease. gentle_auto. Qed.
#[local] Hint Resolve expireExecutions_gentle ReconcileTerminalCommands_gentle proposeEnvelope_gentle skipTerminalJob_gentle renewExecutionLeases_gentle : gentle.
Lemma Heartbeat_gentle agentID heartbeatAgentID active : gentle any (Heartbeat agentID heartbeatAgentID active).
Proof. unfold Heartbeat. gentle_auto. Qed.
Lemma rejectMismatch_gentle value m : gentle any (rejectMismatch value m).
Proof. unfold rejectMismatch. gentle_auto. Qed.
#[local] Hint Resolve rejectMismatch_gentle : gentle.
Lemma Acknowledged_gentle agentID acknowledgement : gentle any (Acknowledged lifecycle agentID acknowledgement).
Proof. unfold Acknowledged. gentle_auto. unfold rejectCommand. gentle_auto. Qed.
Lemma observe_gentle agentID id action result status detail : gentle any (observe lifecycle agentID id action result status detail).
Proof. unfold observe, applyTarget. gentle_auto. Qed.
#[local] Hint Resolve observe_gentle : gentle.
Lemma Progress_gentle agentID progress : gentle any (Progress lifecycle agentID progress).
Proof. unfold Progress. gentle_auto. Qed.

(** ** Parts that send messages *)

Context {contract : RecorderContract}.
Abbreviation ends_well p t := (safe p (fun _ _ => True) t).

(** Carry what is known to the later tables. *)
Ltac advance Hl :=
  match type of Hl with later ?t ?t' =>
    match goal with Hok : tables_ok t |- _ =>
      repeat match goal with
      | Hm : known ?m t |- _ => apply (known_stable m t t' Hok Hl) in Hm
      | Hm : has_slot ?id t |- _ => apply (has_slot_stable id t t' Hok Hl) in Hm
      | Hm : justified ?e t |- _ => apply (justified_stable e t t' Hok Hl) in Hm
      end;
      clear Hok; apply later_ok in Hl; rename Hl into Hok
    end
  end.

Lemma safe_pure {A} (a : A) (P : A -> Prop) t : P a -> safe (Return a) (fun a _ => P a) t.
Proof. by intros Hp t' _. Qed.

Lemma safe_harmless {A B} (c : call B) (k : B -> prog A) Q t : tables_ok t -> harmless c = true ->
  (forall b t2, later t t2 -> learned c b t2 -> safe (k b) Q t2) -> safe (Call c k) Q t.
Proof. intros Hok Hh. apply safe_call; [done|]. intros. by apply harmless_allowed. Qed.

Lemma safe_gentle_bind {A B} (P : A -> Prop) (f : A -> prog B) (p : prog A) Q t : tables_ok t -> gentle P p ->
  (forall a t', later t t' -> P a -> safe (f a) Q t') -> safe (prog_bind f p) Q t.
Proof.
  intros Hok Hp Hf. eapply safe_bind; [done|apply (gentle_safe P (fun _ => True)); done|]. intros a t' Hl [Ha _]. by apply Hf.
Qed.

Lemma known_agent m t : known m t -> exists r, outbox t !! o_ID m = Some r /\ o_TargetID (message r) = o_TargetID m.
Proof. intros (r0 & r & _ & _ & _ & Hr & Ha). exists r. split; [done|by apply advances_target]. Qed.

Lemma known_revision m t : known m t -> 0 <= o_ExecutionRevision m.
Proof. intros (r0 & r & <- & Hok & _). by eapply row_ok_revision. Qed.

(** A call that tells an agent to drop a prepared command. *)
Lemma safe_cancelPrepared {A} m reason (k : outcome unit -> prog A) Q t : tables_ok t -> known m t -> (forall b t2, later t t2 -> safe (k b) Q t2) ->
  safe (Call (CCancelPrepared (o_TargetID m) (o_ID m) reason) k) Q t.
Proof.
  intros Hok Hm Hk. apply safe_call; [done| |by intros b t2 Hl _; apply Hk]. intros t1 Hl. split; [done|]. constructor; [|constructor].
  apply known_agent. by eapply known_stable.
Qed.

Lemma decodeUnsignedCommand_payload m : gentle (fun r => match r with Ok u => Unmarshal (o_Payload m) = Some (u, []) | Err _ => True end) (decodeUnsignedCommand m).
Proof.
  unfold decodeUnsignedCommand. destruct (decodeUnsignedCommandShape m) as [u|e] eqn:E; [|exact I]. split; [done|]. intros [|]; [|exact I]. cbn.
  unfold decodeUnsignedCommandShape in E. case_hyp E. destruct (Unmarshal (o_Payload m)) as [[u' [|]]|]; [|done..]. repeat case_hyp E. by injection E as ->.
Qed.

Lemma persistedCommandStart_safe m t : tables_ok t ->
  safe (persistedCommandStart m) (fun r _ => match r with Ok (s, token) => s_CommandId s = o_ID m /\ start_of m s /\ o_ExecutionRevision m <> 0 /\ token = s_ExecutionToken s | Err _ => True end) t.
Proof.
  intros Hok. unfold persistedCommandStart. destruct (o_StartDeadline m) as [deadline|] eqn:Ed; [|by apply safe_pure]. destruct (_ || _) eqn:Eb; [by apply safe_pure|].
  apply (safe_gentle_bind _ _ _ _ _ Hok (decodeUnsignedCommand_payload m)). intros [u|e] t1 Hl Hu; [|by apply safe_pure].
  apply safe_harmless; [apply Hl|done|]. intros [token|e] t2 Hl2 Ht; [|by apply safe_pure]. destruct (bool_decide (sha256 token = _)) eqn:Eh; cbn [negb]; [|by apply safe_pure]. apply safe_pure. bool_simpl.
  split_and!; [done| |done|done]. unfold start_of. cbn. split_and!; [done..|by exists deadline|by exists u].
Qed.

(** A start of a known command is justified. *)
Lemma start_justified m s t : known m t -> s_CommandId s = o_ID m -> start_of m s -> o_ExecutionRevision m <> 0 -> justified (SentStart (o_TargetID m) s) t.
Proof.
  intros Hm Hid Hs Hr. pose proof (known_revision _ _ Hm) as Hn. destruct Hm as (r0 & r & _ & _ & _ & Hrow & Ha). exists r. rewrite Hid. split; [done|].
  split; [by apply advances_target|]. destruct (start_of_advances _ _ _ Ha ltac:(lia) Hs). done.
Qed.

Lemma safe_start {A} (fresh : bool) m s (k : outcome unit -> prog A) Q t : tables_ok t -> known m t -> s_CommandId s = o_ID m -> start_of m s -> o_ExecutionRevision m <> 0 ->
  (forall b t2, later t t2 -> safe (k b) Q t2) -> safe (Call (if fresh then CStart (o_TargetID m) s else CReplayStart (o_TargetID m) s) k) Q t.
Proof.
  intros Hok Hm Hid Hs Hr Hk. apply safe_call; [done| |by intros b t2 Hl _; apply Hk]. intros t1 Hl.
  assert (Hj : justified (SentStart (o_TargetID m) s) t1) by (apply start_justified; [by eapply known_stable|done..]). by destruct fresh; (split; [done|]; constructor).
Qed.

Lemma sendStart_safe fresh m t : tables_ok t -> known m t -> ends_well (sendStart fresh m) t.
Proof.
  intros Hok Hm. unfold sendStart. destruct (started_phase _); [|done]. eapply safe_bind; [done|by apply persistedCommandStart_safe|].
  intros [[s token]|e] t1 Hl Hs; [|done]. advance Hl. destruct Hs as (Hid & Hs & Hr & _). cbn [fst]. apply safe_start; [done..|].
  intros b t2 Hl. advance Hl. apply (gentle_any any); [done|]. gentle_auto.
Qed.

(** The cancellation of a known execution is justified. *)
Lemma cancel_justified m s t : known m t -> is_Some (o_CancellationRequestedAt m) -> start_of m s -> o_ExecutionRevision m <> 0 ->
  justified (SentCancelExecution (o_TargetID m) (o_ID m) (s_ExecutionToken s) (o_ExecutionRevision m)) t.
Proof.
  intros Hm Hc Hs Hr. pose proof (known_revision _ _ Hm) as Hn. destruct Hm as (r0 & r & _ & _ & _ & Hrow & Ha). exists r. split; [done|].
  pose proof (adv_fence _ _ Ha ltac:(lia)) as [= F1 F2 F3 F4]. rewrite (adv_cancelled _ _ Ha Hc), F2, F3. destruct Hs as (_ & Ho & _).
  split_and!; [by apply advances_target|done|lia|done|done].
Qed.

Lemma dispatchCancellation_safe m t : tables_ok t -> known m t -> is_Some (o_CancellationRequestedAt m) -> ends_well (dispatchCancellation m) t.
Proof.
  intros Hok Hm Hc. unfold dispatchCancellation. destruct (started_phase _); cbn [negb]; [|by apply safe_cancelPrepared]. eapply safe_bind; [done|by apply persistedCommandStart_safe|].
  intros [[s token]|e] t1 Hl Hs; [|done]. advance Hl. destruct Hs as (Hid & Hs & Hr & ->). cbn [fst snd].
  apply (safe_start false); [done..|]. intros [u|e] t2 Hl; [|done]. advance Hl.
  apply (safe_gentle_bind any); [done|gentle_auto|]. intros now t3 Hl _. advance Hl. apply safe_harmless; [done..|]. intros marked t4 Hl _. advance Hl.
  apply (safe_gentle_bind any); [done|gentle_auto|]. intros u5 t5 Hl _. advance Hl. apply safe_call; [done| |done]. intros t6 Hl. advance Hl. split; [done|].
  constructor; [by apply cancel_justified|constructor].
Qed.

(** Programs whose calls are harmless, or tell the agent of a known command to drop it. *)
Lemma expirePreparedEnvelopeLocked_safe m expiresAt at_ t : tables_ok t -> known m t -> ends_well (expirePreparedEnvelopeLocked m expiresAt at_) t.
Proof.
  intros Hok Hm. unfold expirePreparedEnvelopeLocked. destruct (_ || _); [done|]. apply safe_harmless; [done..|]. intros [u|e] t1 Hl _; advance Hl; [|by destruct (bool_decide _)].
  apply safe_cancelPrepared; [done..|]. intros sent t2 Hl. advance Hl. apply (gentle_any any); [done|]. gentle_auto.
Qed.

Lemma startOrReplayCommandLocked_safe m at_ t : tables_ok t -> known m t -> ends_well (startOrReplayCommandLocked m at_) t.
Proof.
  intros Hok Hm. unfold startOrReplayCommandLocked. destruct (bool_decide _); [|by apply sendStart_safe]. apply (safe_gentle_bind any); [done|gentle_auto|]. intros [unsigned|e] t1 Hl _; [|done]. advance Hl.
  destruct (decodePreparedCommand _ _ _) as [prepared|e]; [|done]. destruct (negb _); [by apply expirePreparedEnvelopeLocked_safe|].
  apply safe_harmless; [done..|]. intros [value|e] t2 Hl _; [|done]. advance Hl. cbv zeta. destruct (negb _); [done|]. destruct (negb _); [done|].
  apply safe_harmless; [done..|]. intros [token|e] t3 Hl _; [|done]. advance Hl. apply safe_harmless; [done..|]. intros [ciphertext|e] t4 Hl _; [|done]. advance Hl.
  apply safe_harmless; [done..|]. intros [grant|e] t5 Hl _; advance Hl; [|by destruct (bool_decide _)]. apply safe_harmless; [done..|]. intros [started|e] t6 Hl Hs; [|done]. advance Hl.
  destruct Hs as [Hk _]. by apply sendStart_safe.
Qed.

Lemma Prepared_safe agentID prepared t : tables_ok t -> ends_well (Prepared agentID prepared) t.
Proof.
  intros Hok. unfold Prepared. destruct (_ || _); [done|]. apply safe_harmless; [done..|]. intros [m|e] t1 Hl Hm; [|done]. advance Hl. destruct Hm as [Hm _].
  destruct (negb _); [done|]. destruct (null_bytes (o_PreparedEnvelope m)) eqn:He; [done|]. destruct (negb _); [done|].
  assert (Hs : has_slot (o_ID m) t1) by (apply known_prepared; [done|]; intros Hx; by rewrite Hx in He).
  apply (safe_gentle_bind any); [done|gentle_auto|]. intros at_ t2 Hl _. advance Hl.
  apply safe_call; [done| |]. { intros t3 Hl. advance Hl. split; [exact Hs|constructor]. }
  intros [u|e] t3 Hl _; advance Hl; [|destruct (bool_decide _); [by apply safe_cancelPrepared|done]].
  apply safe_harmless; [done..|]. intros [latest|e] t4 Hl Hk; [|done]. advance Hl. destruct Hk as [Hk _]. by apply startOrReplayCommandLocked_safe.
Qed.

Lemma recoverPreparedCommand_safe at_ id t : tables_ok t -> ends_well (recoverPreparedCommand lifecycle at_ id) t.
Proof.
  intros Hok. unfold recoverPreparedCommand. apply safe_harmless; [done..|]. intros [m|e] t1 Hl Hm; [|done]. advance Hl. destruct Hm as [Hm _].
  apply safe_harmless; [done..|]. intros [value|e] t2 Hl _; [|done]. advance Hl. cbv zeta. destruct (bool_decide (o_Phase m = _)); [|by apply startOrReplayCommandLocked_safe].
  destruct (_ || _ || _).
  { unfold terminalizePreparedCommand. apply safe_cancelPrepared; [done..|]. intros sent t3 Hl. advance Hl. apply (gentle_any any); [done|]. gentle_auto. }
  destruct (isTerminal _); [|by apply startOrReplayCommandLocked_safe].
  apply safe_cancelPrepared; [done..|]. intros sent t3 Hl. advance Hl. apply (gentle_any any); [done|]. gentle_auto.
Qed.

(** A loop over programs that are safe wherever they start. *)
Lemma safe_each {A B} (f : A -> prog B) l t : tables_ok t -> (forall x t', x ∈ l -> tables_ok t' -> later t t' -> ends_well (f x) t') -> ends_well (for_each f l) t.
Proof. intros Hok Hf. apply safe_for_each; [done|]. intros x t' Hx Hl. apply Hf; [done|apply Hl|done]. Qed.

(** A program whose result is not used, or only reported. *)
Lemma safe_then {A B} (f : A -> prog B) (p : prog A) t : tables_ok t -> ends_well p t -> (forall a t', tables_ok t' -> later t t' -> ends_well (f a) t') -> ends_well (prog_bind f p) t.
Proof. intros Hok Hp Hf. eapply safe_bind; [done|exact Hp|]. intros a t' Hl _. apply Hf; [apply Hl|done]. Qed.

Lemma recoverPreparedCommands_safe at_ t : tables_ok t -> ends_well (recoverPreparedCommands lifecycle at_) t.
Proof.
  intros Hok. unfold recoverPreparedCommands. apply safe_harmless; [done..|]. intros [l|e] t1 Hl _; [|done]. advance Hl. apply safe_then; [done| |done].
  apply safe_each; [done|]. intros m t2 _ Hok2 _. apply safe_then; [done| |done]. by apply recoverPreparedCommand_safe.
Qed.

Lemma cancelClaimed_safe at_ m t : tables_ok t -> known m t -> is_Some (o_CancellationRequestedAt m) -> ends_well (cancelClaimed lifecycle at_ m) t.
Proof.
  intros Hok Hm Hc. unfold cancelClaimed. cbv zeta. destruct (_ && _ && _); [apply (gentle_any any); [done|gentle_auto]|].
  apply safe_then; [done|by apply dispatchCancellation_safe|]. intros sent t1 Hok1 _. apply (gentle_any any); [done|gentle_auto].
Qed.

Lemma dispatchCancellations_safe at_ t : tables_ok t -> ends_well (dispatchCancellations lifecycle at_) t.
Proof.
  intros Hok. unfold dispatchCancellations. apply safe_harmless; [done..|]. intros [l|e] t1 Hl Hk; [|done]. advance Hl. cbn in Hk. rewrite Forall_forall in Hk.
  apply safe_then; [done| |done]. apply safe_each; [done|]. intros m t2 [Hm Hc]%Hk Hok2 Hl. apply cancelClaimed_safe; [done| |done]. by apply (known_stable m t1).
Qed.

Lemma decodePreparedCommand_Ok m unsigned stored e : decodePreparedCommand m unsigned stored = Ok e ->
  Unmarshal stored = Some (e, []) /\ e_CommandId e = o_ID m /\ e_AgentId e = o_TargetID m.
Proof.
  unfold decodePreparedCommand. intros E. destruct (null_bytes stored); [done|]. destruct (Unmarshal stored) as [[e' [|]]|]; [|done..].
  case_hyp E. destruct (e_IssuedAt e'), (e_ExpiresAt e'); try done. case_hyp E. case_hyp E. injection E as ->. by bool_simpl.
Qed.

Lemma deliver_safe m unsigned at_ t : tables_ok t -> known m t -> has_slot (o_ID m) t -> ends_well (deliver lifecycle m unsigned at_) t.
Proof.
  intros Hok Hm Hs. unfold deliver. apply (safe_gentle_bind any); [done|gentle_auto|]. intros [proposed|e] t1 Hl _; [|done]. advance Hl.
  apply safe_call; [done| |]. { intros t2 Hl. advance Hl. split; [exact Hs|constructor]. }
  intros [stored|e] t2 Hl Hst; [|done]. advance Hl. cbn in Hst. destruct Hst as (r & Hr & He & Hne).
  destruct (decodePreparedCommand m unsigned stored) as [envelope|e] eqn:Ed; [|done]. apply decodePreparedCommand_Ok in Ed as (Hu & Hid & Hag).
  assert (Hj : justified (SentEnvelope (e_AgentId envelope) envelope) t2).
  { destruct (known_agent _ _ Hm) as (r' & Hr' & Ht). rewrite Hr in Hr'. injection Hr' as <-. exists r. rewrite Hid, Hag, He. done. }
  destruct (negb _); [apply (gentle_any any); [done|gentle_auto]|].
  apply safe_call; [done| |]. { intros t3 Hl. advance Hl. split; [done|]. by constructor. }
  intros b t3 Hl _. advance Hl. apply (gentle_any any); [done|gentle_auto].
Qed.

Lemma dispatchOne_safe m at_ t : tables_ok t -> known m t -> ends_well (dispatchOne lifecycle m at_) t.
Proof.
  intros Hok Hm. unfold dispatchOne. apply safe_harmless; [done..|]. intros [current|e] t1 Hl _; [|done]. advance Hl.
  destruct (_ || _); [apply (gentle_any any); [done|gentle_auto]|]. match goal with |- context [if ?b then _ else _] => destruct b end; [apply (gentle_any any); [done|gentle_auto]|].
  destruct (isTerminal _); [apply (gentle_any any); [done|gentle_auto]|]. apply (safe_gentle_bind any); [done|gentle_auto|]. intros [unsigned|e] t2 Hl _; [|done]. advance Hl.
  apply safe_harmless; [done..|]. intros [[|]|e] t3 Hl Hs; [|done..]. advance Hl. apply deliver_safe; [done..|]. by apply Hs.
Qed.

Lemma DispatchPending_safe at_ t : tables_ok t -> ends_well (DispatchPending lifecycle at_) t.
Proof.
  intros Hok. unfold DispatchPending. destruct (IsZero at_); [done|]. cbv zeta. apply safe_then; [done|by apply recoverPreparedCommands_safe|]. intros recovered t1 Hok1 _.
  apply safe_then; [done|by apply dispatchCancellations_safe|]. intros cancelled t2 Hok2 _. apply safe_then; [done|apply (gentle_any any); [done|gentle_auto]|]. intros expired t3 Hok3 _.
  apply safe_then; [done|apply (gentle_any any); [done|gentle_auto]|]. intros validations t4 Hok4 _. apply safe_then; [done|apply (gentle_any any); [done|gentle_auto]|]. intros reconciled t5 Hok5 _.
  apply safe_then; [done|apply (gentle_any any); [done|gentle_auto]|]. intros repaired t6 Hok6 _. apply safe_harmless; [done..|]. intros [l|e] t7 Hl Hk; [|done]. advance Hl.
  cbn in Hk. rewrite Forall_forall in Hk. apply safe_then; [done| |done]. apply safe_each; [done|]. intros m t8 Hm%Hk Hok8 Hl. apply dispatchOne_safe; [done|]. by apply (known_stable m t7).
Qed.

Lemma Connected_safe agentID active t : tables_ok t -> ends_well (Connected lifecycle agentID active) t.
Proof.
  intros Hok. unfold Connected. apply safe_then; [done|apply (gentle_any any); [done|gentle_auto]|]. intros now t1 Hok1 _.
  apply safe_then; [done|apply (gentle_any any); [done|gentle_auto]|]. intros renewed t2 Hok2 _. apply safe_harmless; [done..|]. intros audits t3 Hl _. advance Hl.
  apply safe_then; [done|apply (gentle_any any); [done|gentle_auto]|]. intros repaired t4 Hok4 _. apply safe_harmless; [done..|].
  intros [prepared|e] t5 Hl _; advance Hl; [|apply (gentle_any any); [done|gentle_auto]]. apply safe_then; [done| |].
  - apply safe_each; [done|]. intros m t6 _ Hok6 _. apply safe_then; [done|apply (gentle_any any); [done|gentle_auto]|]. intros at_ t7 Hok7 _.
    apply safe_then; [done|by apply recoverPreparedCommand_safe|]. intros r t8 Hok8 _. apply (gentle_any any); [done|gentle_auto].
  - intros recovered t6 Hok6 _. unfold replayCancellations. apply safe_harmless; [done..|]. intros [l|e] t7 Hl Hk; advance Hl; [|apply (gentle_any any); [done|gentle_auto]].
    cbn in Hk. rewrite Forall_forall in Hk. apply safe_then; [done| |done]. apply safe_each; [done|]. intros m t8 [Hm Hc]%Hk Hok8 Hl.
    apply safe_then; [done|apply dispatchCancellation_safe; [done|by apply (known_stable m t7)|done]|]. intros r t9 Hok9 _. apply (gentle_any any); [done|gentle_auto].
Qed.

(** ** Results *)

(** The command is a validation of a database instance, whose results another component stores. *)
Definition validates (id : string) (t : tables) : Prop :=
  exists row e, outbox t !! id = Some row /\ decodeUnsignedCommandShape (message row) = Ok e /\ isValidateCommand (e_Command e) = true.

Definition result_stored (agentID : string) (r : CommandResult) (t : tables) : Prop :=
  exists row, outbox t !! r_CommandId r = Some row /\ o_TargetID (message row) = agentID /\ o_TerminalResultDigest (message row) = resultDigest r.

Definition command_ended (agentID id : string) (t : tables) : Prop :=
  exists row, outbox t !! id = Some row /\ o_TargetID (message row) = agentID /\ terminal_phase (o_Phase (message row)) = true.

(** What the answer to a result says is true, and an answer without an error says one of both. *)
Definition truthful (agentID : string) (r : CommandResult) (a : answer) (t : tables) : Prop :=
  validates (r_CommandId r) t \/
  (rp_Persisted (fst a) = true -> result_stored agentID r t) /\ (rp_ReasonCode (fst a) = "RESULT_CONFLICT"%string -> command_ended agentID (r_CommandId r) t) /\
  (snd a = None -> rp_Persisted (fst a) = true \/ rp_ReasonCode (fst a) = "RESULT_CONFLICT"%string).

Lemma decodeUnsignedCommandShape_advances m m' : advances m m' -> decodeUnsignedCommandShape m' = decodeUnsignedCommandShape m.
Proof. intros Ha. pose proof (adv_identity _ _ Ha) as [= E1 E2 E3 E4 E5 E6]. unfold decodeUnsignedCommandShape. by rewrite E1, E2, E3, E4, E5, E6. Qed.

Lemma validates_stable id : stable (validates id).
Proof.
  intros t t' Hok Hl (row & e & Hr & Hd & Hv). destruct (row_later _ _ _ _ Hok Hl Hr) as (r' & Hr' & _ & Ha). exists r', e. by rewrite (decodeUnsignedCommandShape_advances _ _ Ha).
Qed.

Lemma result_stored_stable agentID r : stable (result_stored agentID r).
Proof.
  intros t t' Hok Hl (row & Hr & Ht & Hd). destruct (row_later _ _ _ _ Hok Hl Hr) as (r' & Hr' & _ & Ha). exists r'. rewrite (advances_target _ _ Ha), (adv_result _ _ Ha); [done|].
  rewrite Hd. intros He. pose proof (sha256_length (MarshalResult r)) as Hlen. unfold resultDigest in He. by rewrite He in Hlen.
Qed.

Lemma path_terminal p q : phase_path p q -> terminal_phase p = true -> terminal_phase q = true.
Proof. intros Hp. induction Hp as [|p p' q He _ IH]; [done|]. intros Ht. apply IH. destruct He; try done; by destruct p. Qed.

Lemma command_ended_stable agentID id : stable (command_ended agentID id).
Proof.
  intros t t' Hok Hl (row & Hr & Ht & Hd). destruct (row_later _ _ _ _ Hok Hl Hr) as (r' & Hr' & _ & Ha). exists r'. rewrite (advances_target _ _ Ha).
  split_and!; [done..|]. by eapply path_terminal; [apply (adv_phase _ _ Ha)|].
Qed.

Lemma truthful_stable agentID r a : stable (truthful agentID r a).
Proof.
  intros t t' Hok Hl [Hv|(H1 & H2 & H3)]; [left; by apply (validates_stable _ t)|]. right. split_and!; [|by intros Hc; apply (command_ended_stable _ _ t), H2|done].
  intros Hp. by apply (result_stored_stable _ _ t), H1.
Qed.

Lemma unpersisted_truthful agentID r e t : safe (Return (unpersisted r e)) (truthful agentID r) t.
Proof. intros t' _. by right. Qed.

Lemma no_persistence_truthful agentID r e t : safe (Return (no_persistence, Some e)) (truthful agentID r) t.
Proof. intros t' _. by right. Qed.

(** Answers of the branches that only make harmless calls. *)
Abbreviation conflicts := (fun a : answer => rp_Persisted (fst a) = false /\ (snd a = None -> rp_ReasonCode (fst a) = "RESULT_CONFLICT"%string)).
Abbreviation settles := (fun a : answer => rp_ReasonCode (fst a) <> "RESULT_CONFLICT"%string /\ (snd a = None -> rp_Persisted (fst a) = true)).

Lemma resultConflict_gentle m r stored incoming at_ : gentle conflicts (resultConflict m r stored incoming at_).
Proof. unfold resultConflict. split; [done|]. intros [value|e]; [|done]. split; [done|]. by intros [u|e]. Qed.

Lemma interruptedAgain_gentle m r at_ : gentle settles (interruptedAgain m r at_).
Proof.
  unfold interruptedAgain. split; [done|]. intros [value|e]; [|done]. destruct (targetFor _ _) as [row|]; [|done]. destruct (negb _); [done|]. split; [done|]. by intros [u|e].
Qed.

Lemma settleResult_gentle m r effective validation target auditResult at_ : gentle settles (settleResult lifecycle m r effective validation target auditResult at_).
Proof.
  unfold settleResult. apply (gentle_bind any); [destruct validation; apply applyTargetWithProjection_gentle|]. intros [[value b]|e] _; [|done].
  destruct (targetFor _ _) as [row|]; [|done]. destruct (negb _); [done|]. cbv zeta. apply (gentle_bind any); [apply recordTerminalAudit_gentle|]. by intros [u|e] _.
Qed.

(** Every call of the last part of [Result] is harmless. *)
Lemma persistResult_gentle m envelope r rep at_ : gentle any (persistResult lifecycle m envelope r rep at_).
Proof.
  assert (H1 : forall stored incoming, gentle any (resultConflict m r stored incoming at_)) by (intros; eapply gentle_mono; [|apply resultConflict_gentle]; done).
  assert (H2 : gentle any (interruptedAgain m r at_)) by (eapply gentle_mono; [|apply interruptedAgain_gentle]; done).
  assert (H3 : forall e v target a, gentle any (settleResult lifecycle m r e v target a at_)) by (intros; eapply gentle_mono; [|apply settleResult_gentle]; done).
  unfold persistResult. gentle_auto.
Qed.

(** The compare-and-set of a result that is not a validation's. *)
Lemma storeResult_safe {A} agentID m r input (x : A) t : tables_ok t -> known m t -> o_ID m = r_CommandId r -> o_TargetID m = agentID ->
  cas_CommandID input = o_ID m -> cas_ResultDigest input = resultDigest r ->
  safe (let! terminal := CRepo (RPersistTerminalResult input) in Return (Ok (x, terminal)))
    (fun stored t' => match stored with
                      | Ok (_, terminal) => command_ended agentID (r_CommandId r) t' /\ (out_Conflict terminal = false -> result_stored agentID r t')
                      | Err _ => True
                      end) t.
Proof.
  intros Hok Hm Hid Hag Hc Hd. apply safe_harmless; [done..|]. intros [terminal|e] t1 Hl Hx; [|by intros t' _]. advance Hl. cbn in Hx. destruct Hx as (row & Hr & Ht & Hs).
  rewrite Hc in Hr. destruct (known_agent _ _ Hm) as (row' & Hr' & Htg). rewrite Hr in Hr'. injection Hr' as <-.
  assert (He : command_ended agentID (r_CommandId r) t1) by (exists row; rewrite <- Hid; split_and!; congruence).
  intros t' Hl. split; [by apply (command_ended_stable _ _ t1)|]. intros Hf. apply (result_stored_stable _ _ t1); [done..|]. exists row. rewrite <- Hid, (Hs Hf). split_and!; congruence.
Qed.

Lemma persistResult_safe agentID m envelope r rep at_ t : tables_ok t -> known m t -> o_ID m = r_CommandId r -> o_TargetID m = agentID -> decodeUnsignedCommandShape m = Ok envelope ->
  safe (persistResult lifecycle m envelope r rep at_) (truthful agentID r) t.
Proof.
  intros Hok Hm Hid Hag Hd. destruct (isValidateCommand (e_Command envelope)) eqn:Hv.
  { eapply safe_mono; [|apply (gentle_safe any (validates (r_CommandId r))); [done|apply validates_stable| |apply persistResult_gentle]].
    - intros a t' [_ Hx]. by left.
    - destruct Hm as (r0 & row & _ & _ & _ & Hr & Ha). exists row, envelope. rewrite <- Hid, (decodeUnsignedCommandShape_advances _ _ Ha). done. }
  unfold persistResult. cbv zeta. eapply safe_bind; [done| |].
  - destruct (e_Command envelope) as [[]|]; try discriminate Hv; by apply (storeResult_safe agentID m r).
  - intros [[effective terminal]|e] t1 Hl Hx; [|apply unpersisted_truthful]. advance Hl. destruct Hx as [He Hs]. destruct (out_Conflict terminal).
    { eapply safe_mono; [|apply (gentle_safe conflicts (command_ended agentID (r_CommandId r))); [done|apply command_ended_stable|done|apply resultConflict_gentle]].
      intros a t' [[Hp Hc] Hx]. right. split_and!; [by rewrite Hp|done|by right; apply Hc]. }
    specialize (Hs eq_refl). apply (safe_gentle_bind any); [done|gentle_auto|]. intros [u|e] t2 Hl _; [|apply unpersisted_truthful].
    apply (result_stored_stable _ _ _ _ Hok Hl) in Hs. advance Hl. assert (Hset : forall p, gentle settles p -> safe p (truthful agentID r) t2).
    { intros p Hp. eapply safe_mono; [|apply (gentle_safe settles (result_stored agentID r)); [done|apply result_stored_stable|done|exact Hp]].
      intros a t' [[Hn Hc] Hx]. right. split_and!; [done|by intros|by left; apply Hc]. }
    destruct (_ && _); apply Hset; [apply interruptedAgain_gentle|apply settleResult_gentle].
Qed.

Lemma classifyResult_safe agentID m envelope r rep t : tables_ok t -> known m t -> o_ID m = r_CommandId r -> o_TargetID m = agentID -> decodeUnsignedCommandShape m = Ok envelope ->
  safe (classifyResult lifecycle m envelope r rep) (truthful agentID r) t.
Proof.
  intros Hok Hm Hid Hag Hd. unfold classifyResult. destruct (_ || _); [apply unpersisted_truthful|]. apply (safe_gentle_bind any); [done|gentle_auto|]. intros at_ t1 Hl _. advance Hl.
  cbv zeta. destruct (_ && _); [apply unpersisted_truthful|].
  assert (Hper : forall rep t', tables_ok t' -> known m t' -> safe (persistResult lifecycle m envelope r rep at_) (truthful agentID r) t') by (intros; by apply persistResult_safe).
  assert (Hrest : forall rep, safe (if negb (null (r_MetricTemplateTrialResult r)) then Return (unpersisted r ErrInvalidCommandPayload) else persistResult lifecycle m envelope r rep at_) (truthful agentID r) t1).
  { intros rep'. destruct (negb _); [apply unpersisted_truthful|by apply Hper]. }
  destruct (e_Command envelope) as [[]|]; try apply Hrest.
  destruct trial; [|apply Hrest]. clear Hrest. destruct (typedResultRecorder lifecycle); cbn [negb]; [|apply unpersisted_truthful]. apply safe_harmless; [done..|]. intros [succeeded|e] t2 Hl _; [|apply unpersisted_truthful]. advance Hl.
  destruct (_ && _); by apply Hper.
Qed.

Lemma Result_safe agentID r t : tables_ok t -> safe (Result lifecycle agentID r) (truthful agentID r) t.
Proof.
  intros Hok. unfold Result. destruct (_ || _); [apply no_persistence_truthful|]. apply (safe_gentle_bind any); [done|gentle_auto|]. intros finished t1 Hl _. advance Hl.
  destruct (reported r finished) as [rep|]; [|apply no_persistence_truthful]. destruct (existsb _ _); [apply no_persistence_truthful|].
  apply safe_harmless; [done..|]. intros [m|e] t2 Hl Hm; [|apply unpersisted_truthful]. advance Hl. destruct Hm as [Hm Hid].
  destruct (decodeUnsignedCommandShape m) as [envelope|e] eqn:Hd; [|apply unpersisted_truthful]. destruct (negb _ || negb _) eqn:Hag.
  - apply safe_harmless; [done..|]. intros [value|e] t3 Hl _; [|apply unpersisted_truthful]. advance Hl. apply (safe_gentle_bind any); [done|gentle_auto|]. intros errors t4 Hl _. apply unpersisted_truthful.
  - bool_simpl. by apply classifyResult_safe.
Qed.
End handlers.

(** ** Systems *)

(** What starts a handler: the periodic dispatch, the reports of agents, and the API. *)
Inductive handler : Type -> Type :=
  | HDispatchPending (at_ : time) : handler (outcome (Z * list CommandError))
  | HPrepared (agentID : string) (prepared : CommandPrepared) : handler (outcome unit)
  | HConnected (agentID : string) (active : list ActiveCommand) : handler unit
  | HHeartbeat (agentID heartbeatAgentID : string) (active : list ActiveCommand) : handler unit
  | HAcknowledged (agentID : string) (acknowledgement : CommandAcknowledgement) : handler unit
  | HProgress (agentID : string) (progress : CommandProgress) : handler unit
  | HResult (agentID : string) (r : CommandResult) : handler answer
  | HCreate (authorized : OutboxMessage -> bool) (value : Job) (messages : list OutboxMessage) : handler (outcome unit)
  | HRequestCancel (scope : JobScope) (id actor : string) (currentVersion : Z) (at_ : time) : handler (outcome Job).

Record process := Process { result_type : Type; started_by : handler result_type; rest : prog result_type }.

(** One database, the messages handed to agent sessions so far, and the handlers that run, of all control planes. *)
Record system := System { db : tables; handed : list sent; processes : list process }.

Section systems.
Context {database : JobDatabase} {codec : ResultCodec} {surroundings : Surroundings}.

Definition handle (lifecycle : CommandLifecycle) {A} (h : handler A) : prog A :=
  match h in handler A return prog A with
  | HDispatchPending at_ => DispatchPending lifecycle at_
  | HPrepared agentID prepared => Prepared agentID prepared
  | HConnected agentID active => Connected lifecycle agentID active
  | HHeartbeat agentID heartbeatAgentID active => Heartbeat agentID heartbeatAgentID active
  | HAcknowledged agentID acknowledgement => Acknowledged lifecycle agentID acknowledgement
  | HProgress agentID progress => Progress lifecycle agentID progress
  | HResult agentID r => Result lifecycle agentID r
  | HCreate authorized value messages => Call (CRepo (RCreate authorized value messages)) Return
  | HRequestCancel scope id actor version at_ => Call (CRepo (RRequestCancel scope id actor version at_)) Return
  end.

Inductive system_step : system -> system -> Prop :=
  (* a handler starts, in a control plane with any configuration *)
  | step_start t out before after lifecycle A (h : handler A) :
      system_step (System t out (before ++ after)) (System t out (before ++ Process A h (handle lifecycle h) :: after))
  (* a handler makes its next call *)
  | step_call t out before after A (h : handler A) B (c : call B) k b t' : table_step c t b t' ->
      system_step (System t out (before ++ Process A h (Call c k) :: after)) (System t' (out ++ emits c) (before ++ Process A h (k b) :: after))
  (* a control plane crashes *)
  | step_crash t out before after p : system_step (System t out (before ++ p :: after)) (System t out (before ++ after)).

Definition initial : system := System (Tables ∅ ∅ ∅) [] [].
Definition reachable_system (s : system) : Prop := rtc system_step initial s.

Context {contract : RecorderContract}.

Definition post {A} (h : handler A) : A -> tables -> Prop :=
  match h in handler A return A -> tables -> Prop with HResult agentID r => truthful agentID r | _ => fun _ _ => True end.

Lemma handle_safe lifecycle {A} (h : handler A) t : tables_ok t -> safe (handle lifecycle h) (post h) t.
Proof.
  intros Hok. destruct h; cbn [handle post]; auto using DispatchPending_safe, Prepared_safe, Connected_safe, Result_safe;
    apply (gentle_any (fun _ => True)); auto using Heartbeat_gentle, Acknowledged_gentle, Progress_gentle; done.
Qed.

Record sound_system (s : system) : Prop := {
  sound_tables : tables_ok (db s);
  sound_messages : Forall (fun e => justified e (db s)) (handed s);
  sound_processes : Forall (fun p => safe (rest p) (post (started_by p)) (db s)) (processes s);
}.

Lemma sound_initial : sound_system initial.
Proof.
  split; [|by constructor..]. split; [apply map_Forall_empty|]. split.
  1-3: intros ? ? Hx; discriminate Hx.
  intros ? ? ? Hx. discriminate Hx.
Qed.

(** One step: what came before stays true of the later tables. *)
Lemma sound_step s s' : sound_system s -> system_step s s' -> sound_system s' /\ later (db s) (db s').
Proof.
  intros [Hok Hm Hp] Hst. destruct Hst as [t out before after lifecycle A h|t out before after A h B c k b t' Hc|t out before after p]; cbn in *.
  - split; [|by apply later_refl]. split; [done..|]. cbn. apply Forall_app in Hp as [Hb Ha]. apply Forall_app. split; [done|]. constructor; [|done]. by apply handle_safe.
  - apply Forall_app in Hp as [Hb [Hx Ha]%Forall_cons]. cbn in Hx. destruct (Hx t (later_refl _ Hok)) as [Hal Hk].
    destruct (step_later _ _ _ _ Hok Hal Hc) as [Hl _]. split; [|done].
    assert (Hrest : forall l, Forall (fun p => safe (rest p) (post (started_by p)) t) l -> Forall (fun p => safe (rest p) (post (started_by p)) t') l).
    { intros l Hl'. eapply Forall_impl; [exact Hl'|]. intros p Hs. by apply (safe_later _ _ t). }
    split; cbn; [apply Hl| |].
    + assert (Hj : forall l, Forall (fun e => justified e t) l -> Forall (fun e => justified e t') l).
      { intros l Hl'. eapply Forall_impl; [exact Hl'|]. intros e He. by apply (justified_stable e t). }
      apply Forall_app. split; apply Hj; [exact Hm|apply Hal].
    + apply Forall_app. split; [by apply Hrest|]. constructor; [cbn; by apply Hk|by apply Hrest].
  - split; [|by apply later_refl]. split; [done..|]. cbn. apply Forall_app in Hp as [Hb [_ Ha]%Forall_cons]. by apply Forall_app.
Qed.

Lemma sound_steps s s' : sound_system s -> rtc system_step s s' -> sound_system s' /\ later (db s) (db s').
Proof.
  intros Hs Hst. induction Hst as [s|s s1 s' H1 _ IH]; [split; [done|apply later_refl, Hs]|].
  destruct (sound_step _ _ Hs H1) as [Hs1 Hl1]. destruct (IH Hs1) as [Hs' Hl']. split; [done|]. eapply later_trans; [apply Hs|done..].
Qed.

Lemma reachable_sound s : reachable_system s -> sound_system s.
Proof. intros Hr. by apply (sound_steps _ _ sound_initial). Qed.

(** ** Theorems *)

Definition command_of (e : sent) : string :=
  match e with SentEnvelope _ envelope => e_CommandId envelope | SentStart _ start => s_CommandId start | SentCancelPrepared _ id | SentCancelExecution _ id _ _ => id end.
Definition agent_of (e : sent) : string :=
  match e with SentEnvelope agentID _ | SentStart agentID _ | SentCancelPrepared agentID _ | SentCancelExecution agentID _ _ _ => agentID end.

(** Two messages about one command that an agent can both believe. *)
Definition agree (e e' : sent) : Prop :=
  match e, e' with
  | SentEnvelope _ envelope, SentEnvelope _ envelope' => envelope = envelope'
  | SentStart _ start, SentStart _ start' => start = start'
  | SentStart _ start, SentCancelExecution _ _ token revision => (token, revision) = (s_ExecutionToken start, s_LeaseRevision start)
  | SentCancelExecution _ _ token revision, SentCancelExecution _ _ token' revision' => (token, revision) = (token', revision')
  | _, _ => True
  end.

Lemma justified_row e t : justified e t -> exists r, outbox t !! command_of e = Some r /\ o_TargetID (message r) = agent_of e.
Proof. destruct e; cbn; intros (r & Hr & Hx); exists r; tauto. Qed.

Lemma starts_agree m s s' : s_CommandId s = s_CommandId s' -> start_of m s -> start_of m s' -> s = s'.
Proof.
  intros Hid (A1 & A2 & _ & (d & A3 & A4) & (u & A5 & A6)) (B1 & B2 & _ & (d' & B3 & B4) & (u' & B5 & B6)). destruct s, s'. cbn in *. congruence.
Qed.

Lemma justified_agree e e' t : justified e t -> justified e' t -> command_of e = command_of e' -> agree e e'.
Proof.
  destruct e, e'; cbn; try done; intros (r & Hr & Hx) (r' & Hr' & Hx') Heq; rewrite Heq, Hr' in Hr; injection Hr as ->.
  - destruct Hx as (_ & _ & _ & Hu), Hx' as (_ & _ & _ & Hu'). congruence.
  - eapply (starts_agree (message r)); [done|apply Hx|apply Hx'].
  - destruct Hx as (_ & _ & H1 & H2 & _), Hx' as (_ & _ & _ & H3 & H4). congruence.
  - destruct Hx as (_ & _ & _ & H1 & H2), Hx' as (_ & _ & _ & H3 & H4). congruence.
Qed.

(** every agent hears one story.  However many control planes dispatch, recover, cancel and crash, and however their
    calls interleave and fail, all messages they ever hand over about a command go to the same agent, all its envelopes are
    the same signed envelope, all its start messages are the same start, and every cancellation of its execution carries
    the token and the revision of that start. *)
Theorem agents_hear_one_story s e e' : reachable_system s -> e ∈ handed s -> e' ∈ handed s -> command_of e = command_of e' -> agent_of e = agent_of e' /\ agree e e'.
Proof.
  intros Hr He He' Heq. destruct (reachable_sound _ Hr) as [_ Hm _]. rewrite Forall_forall in Hm. apply Hm in He, He'. split; [|by eapply justified_agree].
  destruct (justified_row _ _ He) as (r & H1 & <-), (justified_row _ _ He') as (r' & H2 & <-). rewrite Heq, H2 in H1. by injection H1 as ->.
Qed.

(** a command cancelled before its start never starts.  Once the cancellation of a command without an execution is
    recorded, no handler that runs then or later, in any control plane and with any knowledge from before, hands over a
    start message for it, and none was handed over before. *)
Theorem no_start_after_cancellation s s' id r agentID start : reachable_system s -> rtc system_step s s' -> outbox (db s) !! id = Some r ->
  is_Some (o_CancellationRequestedAt (message r)) -> o_ExecutionRevision (message r) = 0 -> SentStart agentID start ∈ handed s' -> s_CommandId start <> id.
Proof.
  intros Hr Hst Hrow Hc Hz Hin Hid. pose proof (reachable_sound _ Hr) as Hs. destruct (sound_steps _ _ Hs Hst) as [[_ Hm _] Hl]. rewrite Forall_forall in Hm.
  destruct (Hm _ Hin) as (r' & Hr' & _ & Hrev & _). rewrite Hid in Hr'. destruct (row_later _ _ _ _ (sound_tables _ Hs) Hl Hrow) as (r2 & Hr2 & _ & Ha).
  rewrite Hr' in Hr2. injection Hr2 as <-. rewrite (adv_unfenced _ _ Ha Hc Hz) in Hrev. lia.
Qed.

(** answers to results are true.  When a control plane answers an agent that its result is persisted, the digest of that
    very result is stored for a command of that agent, and stays; when it answers that another result won, the command has
    ended; and an answer without an error says one of the two.  (Results of database validations are stored by another
    component.) *)
Theorem results_are_answered_truthfully s agentID r a : reachable_system s -> Process answer (HResult agentID r) (Return a) ∈ processes s -> truthful agentID r a (db s).
Proof.
  intros Hr Hin. destruct (reachable_sound _ Hr) as [Hok _ Hp]. rewrite Forall_forall in Hp. apply (Hp _ Hin). by apply later_refl.
Qed.

(** C12: jobs keep their limit.  Whatever runs, a job with a concurrency limit never has more commands between reservation
    and end than the limit. *)
Theorem jobs_keep_their_limit s scope id j : reachable_system s -> jobs (db s) !! (scope, id) = Some j -> j_MaxConcurrency j <> 0 ->
  Z.of_nat (active_commands scope id (db s)) <= j_MaxConcurrency j.
Proof.
  intros Hr Hj Hn. destruct (reachable_sound _ Hr) as [[_ Hs] _ _]. by destruct (slots_bound _ Hs _ _ _ Hj).
Qed.
End systems.

(** ** Runs *)
Module DeliveryDemo.
Import PhaseDemo.

(** The envelope of [PhaseDemo] and the signed one are encoded as one byte, others by their fields. *)
Definition signed : CommandEnvelope :=
  envelope <| e_CommandId := "command-1"%string |> <| e_JobId := "job-1"%string |> <| e_IssuedAt := Some (Timestamp_New (at_second 10)) |>
    <| e_ExpiresAt := Some (Timestamp_New (AddDuration (at_second 10) DefaultCommandDeliveryTTL)) |> <| e_Nonce := replicate 32 3 |> <| e_Signature := replicate 64 2 |>.

#[export] Instance delivery_database : JobDatabase := {
  pg_time := pg_time (JobDatabase := demo_database);
  artifacts_jsonb l := Some l;
  detail_jsonb d := Some d;
  detail_text d := EmptyString;
  collate := string_leb;
  Unmarshal b := match b with [1] => Some (envelope, []) | [2] => Some (signed, []) | 3 :: fields => (fun e => (e, [])) <$> of_fields fields | _ => None end;
  Marshal e := if bool_decide (e = envelope) then [1] else if bool_decide (e = signed) then [2] else 3 :: to_fields e;
  ValidateShape _ := true;
}.

(** A hash that keeps the first bytes, a protector that hides nothing, and recorders that may answer anything but change no command. *)
#[export] Instance delivery_codec : ResultCodec.
Proof.
  refine {| sha256 b := take 32 (((fun x => x mod 256) <$> b) ++ replicate 32 0); MarshalResult := to_fields |}.
  intros b. rewrite length_take, length_app, length_fmap, length_replicate. unfold sha256_Size. lia.
Defined.
#[export] Instance delivery_surroundings : Surroundings := { opens b := Some b; recorder A c t b t' := t' = t }.
#[export] Instance delivery_contract : RecorderContract.
Proof. split. intros A c t b t' _ ->. split; reflexivity. Qed.

Definition lifecycle : CommandLifecycle := {| claimLimit := 64; typedResultRecorder := true; databaseInstanceResults := false |}.

(** Replies at second [now]: calls of the repository commit, sessions and the audit log accept. *)
Definition reply_at (now : Z) {A} (c : CommandLifecycle.call A) (t : tables) : A * tables :=
  match c in CommandLifecycle.call A return A * tables with
  | CRepo c => exec c {| ends := TxCommit; locked_rows := ∅; draws := [replicate 32 8; replicate 32 9] |} t
  | CNow => (at_second now, t)
  | CNonce => (Ok (replicate 32 3), t)
  | CToken => (Ok (replicate 32 5), t)
  | CSign _ => (Ok (replicate 64 2), t)
  | CProtect token => (Ok token, t)
  | CUnprotect ciphertext => (Ok ciphertext, t)
  | CAuthorize _ => (true, t)
  | COnError _ => (tt, t)
  | CDispatch _ _ | CStart _ _ | CReplayStart _ _ | CCancelPrepared _ _ _ | CCancelExecution _ _ _ _ _ | CRecord _ | CRecordOnce _ => (Ok tt, t)
  | CClassifyTrial _ _ _ _ => (Err ErrExternal, t)
  | CRecordTrial _ _ _ _ _ _ => (Err ErrExternal, t)
  | CValidationProgress _ _ _ _ _ => (Err ErrExternal, t)
  | CFinalizeValidation _ _ _ _ _ _ => (Err ErrExternal, t)
  | CPersistValidation _ _ _ _ _ _ => (Err ErrExternal, t)
  | CReconcileValidations _ _ => (Err ErrExternal, t)
  end.

Lemma reply_step now {A} (c : CommandLifecycle.call A) t : table_step c t (fst (reply_at now c t)) (snd (reply_at now c t)).
Proof. destruct c; try reflexivity; [|by split]. eexists. apply surjective_pairing. Qed.

(** At most [n] calls of a program. *)
Fixpoint play (now : Z) (n : nat) {A} (p : prog A) (t : tables) (out : list sent) : prog A * tables * list sent :=
  match n, p with
  | S n, Call c k => play now n (k (fst (reply_at now c t))) (snd (reply_at now c t)) (out ++ emits c)
  | _, _ => (p, t, out)
  end.

(** Process [i] makes at most [n] calls; a handler starts. *)
Definition run (now : Z) (i n : nat) (s : system) : system :=
  match processes s !! i with
  | Some (Process A h p) => let '(p', t, out) := play now n p (db s) (handed s) in System t out (<[i := Process A h p']> (processes s))
  | None => s
  end.
Definition start {A} (h : handler A) (s : system) : system := System (db s) (handed s) (processes s ++ [Process A h (handle lifecycle h)]).

Lemma play_steps now n {A} (h : handler A) before after : forall p t out, let '(p', t', out') := play now n p t out in
  rtc system_step (System t out (before ++ Process A h p :: after)) (System t' out' (before ++ Process A h p' :: after)).
Proof.
  induction n as [|n IH]; intros p t out; cbn; [done|]. destruct p as [a|B c k]; [done|]. specialize (IH (k (fst (reply_at now c t))) (snd (reply_at now c t)) (out ++ emits c)).
  destruct (play _ _ _ _ _) as [[p' t'] out']. eapply rtc_l; [|exact IH]. apply step_call, reply_step.
Qed.

Lemma run_steps now i n s : rtc system_step s (run now i n s).
Proof.
  unfold run. destruct (processes s !! i) as [[A h p]|] eqn:E; [|done]. destruct s as [t out ps]. cbn in *. pose proof (play_steps now n h (take i ps) (drop (S i) ps) p t out) as Hp.
  destruct (play now n p t out) as [[p' t'] out']. rewrite (take_drop_middle _ _ _ E) in Hp. by rewrite insert_take_drop by (by eapply lookup_lt_Some).
Qed.

Lemma start_steps {A} (h : handler A) s : rtc system_step s (start h s).
Proof. destruct s as [t out ps]. apply rtc_once. pose proof (step_start t out ps [] lifecycle A h) as Hs. by rewrite app_nil_r in Hs. Qed.

Lemma runs_reachable now i n s : reachable_system s -> reachable_system (run now i n s).
Proof. unfold reachable_system. intros Hr. etrans; [exact Hr|apply run_steps]. Qed.
Lemma start_reachable {A} (h : handler A) s : reachable_system s -> reachable_system (start h s).
Proof. unfold reachable_system. intros Hr. etrans; [exact Hr|apply start_steps]. Qed.

(** A command from its creation to its result: created, dispatched, prepared twice by its agent, and finished. *)
Definition report_prepared : handler (outcome unit) := HPrepared "host-1" {| p_CommandId := "command-1"; p_EnvelopeDigest := sha256 [2] |}.
Definition finished : CommandResult := MkCommandResult "command-1" RESULT_SUCCEEDED "done" [] "" (replicate 32 5) 1 None.
Definition with_job (value : Job) (messages : list OutboxMessage) : system := run 2 0 5 (start (HCreate (fun _ => true) value messages) initial).
Definition dispatched : system := run 10 1 100 (start (HDispatchPending (at_second 10)) (with_job job [command])).
Definition prepared_twice : system := run 12 3 100 (start report_prepared (run 11 2 100 (start report_prepared dispatched))).
Definition done : system := run 20 4 100 (start (HResult "host-1" finished) prepared_twice).

Definition phase_in (s : system) : option CommandPhase := phase_of (db s).
Definition job_in (s : system) : option Status := j_Status <$> jobs (db s) !! (PhaseDemo.scope, "job-1"%string).
Definition answer_of (i : nat) (s : system) : option answer := match processes s !! i with Some (Process A (HResult _ _) (Return a)) => Some a | _ => None end.

Lemma with_job_reachable value messages : reachable_system (with_job value messages).
Proof. apply runs_reachable, start_reachable. apply rtc_refl. Qed.
Lemma dispatched_reachable : reachable_system dispatched.
Proof. apply runs_reachable, start_reachable, with_job_reachable. Qed.
Lemma prepared_twice_reachable : reachable_system prepared_twice.
Proof. apply runs_reachable, start_reachable, runs_reachable, start_reachable, dispatched_reachable. Qed.
Lemma done_reachable : reachable_system done.
Proof. apply runs_reachable, start_reachable, prepared_twice_reachable. Qed.

Lemma agents_hear_one_story_witness : exists start start', handed prepared_twice = [SentEnvelope "host-1" signed; SentStart "host-1" start; SentStart "host-1" start'] /\ start = start' /\
  phase_in done = Some CommandPhaseSucceeded /\ job_in done = Some StatusSucceeded.
Proof.
  assert (E : exists start start', handed prepared_twice = [SentEnvelope "host-1" signed; SentStart "host-1" start; SentStart "host-1" start'] /\ s_CommandId start = s_CommandId start')
    by (do 2 eexists; split; vm_compute; reflexivity).
  destruct E as (x & y & E & Hid). exists x, y. split; [exact E|]. split; [|split; vm_compute; reflexivity].
  refine (proj2 (agents_hear_one_story prepared_twice (SentStart "host-1" x) (SentStart "host-1" y) prepared_twice_reachable _ _ Hid)); rewrite E.
  - by right; left.
  - by right; right; left.
Defined.

(** A job cancelled before its command is dispatched. *)
Definition cancelled_early : system := run 3 1 5 (start (HRequestCancel PhaseDemo.scope "job-1" "ops" 1 (at_second 3)) (with_job job [command])).
Definition dispatched_late : system := run 10 2 100 (start (HDispatchPending (at_second 10)) cancelled_early).

Lemma no_start_after_cancellation_witness : phase_in dispatched_late = Some CommandPhaseCancelled /\ job_in dispatched_late = Some StatusCancelled /\
  forall agentID start, SentStart agentID start ∈ handed dispatched_late -> s_CommandId start <> "command-1"%string.
Proof.
  split; [vm_compute; reflexivity|]. split; [vm_compute; reflexivity|]. intros agentID start.
  assert (E : exists r, outbox (db cancelled_early) !! "command-1"%string = Some r /\ is_Some (o_CancellationRequestedAt (message r)) /\ o_ExecutionRevision (message r) = 0).
  { eexists. split; [vm_compute; reflexivity|]. split; [eexists; reflexivity|reflexivity]. }
  destruct E as (r & E & Hc & Hz). refine (no_start_after_cancellation cancelled_early dispatched_late "command-1" r agentID start _ _ E Hc Hz).
  - apply runs_reachable, start_reachable, with_job_reachable.
  - unfold dispatched_late. etrans; [|apply run_steps]. apply start_steps.
Defined.

Lemma results_are_answered_truthfully_witness : exists a, answer_of 4 done = Some a /\ rp_Persisted (fst a) = true /\ truthful "host-1" finished a (db done).
Proof.
  assert (E : exists a, processes done !! 4%nat = Some (Process answer (HResult "host-1" finished) (Return a)) /\ rp_Persisted (fst a) = true) by (eexists; split; vm_compute; reflexivity).
  destruct E as (a & E & Hp). exists a. split; [unfold answer_of; by rewrite E|]. split; [exact Hp|].
  exact (results_are_answered_truthfully done "host-1" finished a done_reachable (list_elem_of_lookup_2 _ _ _ E)).
Defined.

(** A job with two commands of which one may run at a time. *)
Definition limited : system :=
  run 10 1 200 (start (HDispatchPending (at_second 10)) (with_job (job <| j_MaxConcurrency := 1 |>) [command; command <| o_ID := "command-2"%string |>])).

Lemma jobs_keep_their_limit_witness : phase_in limited = Some CommandPhasePreparing /\ active_commands PhaseDemo.scope "job-1" (db limited) = 1%nat /\
  Z.of_nat (active_commands PhaseDemo.scope "job-1" (db limited)) <= 1.
Proof.
  split; [vm_compute; reflexivity|]. split; [vm_compute; reflexivity|].
  assert (E : exists j, jobs (db limited) !! (PhaseDemo.scope, "job-1"%string) = Some j /\ j_MaxConcurrency j = 1) by (eexists; split; vm_compute; reflexivity).
  destruct E as (j & E & Hj). rewrite <- Hj. refine (jobs_keep_their_limit limited PhaseDemo.scope "job-1" j _ E _); [|rewrite Hj; lia].
  apply runs_reachable, start_reachable, with_job_reachable.
Defined.


End DeliveryDemo.
