(* ===== verification/SessionRegistry.v ===== *)
(** * The registry of agent sessions

    [Registry] of [agentcontrol/registry.go] with the checks of agent messages
    in [commandvalidation/validation.go]: the live session of every agent, its
    bounded send queue, and the execution leases that start messages open and
    heartbeats renew.

    Sessions are objects with an address ([heap]); the registry maps an agent to
    the address of its live session.  Every operation runs under the registry's
    mutex and is one function here.  Secrets of lease responses are byte arrays
    in a [memory] of their own, because clearing a message overwrites the array
    it shares with others. *)

From S2P Require Import Prelude Programs GoText JobModel JobRepository CommandLifecycle.

Open Scope Z_scope.
Open Scope update_scope.

(** ** Messages to agents *)

Record CommandCancellation := { x_CommandId : string; x_Reason : string; x_ExecutionToken : bytes; x_LeaseRevision : Z }.
Record CommandResultAcknowledgement := { ra_CommandId : string; ra_ResultDigest : bytes; ra_Persisted : bool; ra_Retryable : bool; ra_ReasonCode : string }.
Record DiscoveryReportAcknowledgement := {
  da_HostId : string; da_AgentId : string; da_ObservationRevision : Z; da_ReportDigest : bytes; da_Persisted : bool; da_Retryable : bool; da_ReasonCode : string;
}.

(** Byte arrays of secrets, by address; a slice has the address and the length of its array, [None] is nil. *)
Abbreviation memory := (list bytes).
Record slice := Slice { base : nat; len : nat }.
Definition slice_len (x : option slice) : Z := match x with Some x => Z.of_nat (len x) | None => 0 end.

Record CredentialMaterial := MkMaterial { Username : string; SecretBytes : option slice }.
Record CredentialLeaseResponse := MkCredentialLease {
  cl_RequestNonce : bytes; cl_LeaseId : string; cl_InstanceId : string; cl_AssignmentId : string; cl_CredentialRevision : Z; cl_ExpiresAt : option Timestamp;
  cl_Credential : option CredentialMaterial; cl_DatabaseFamily : string; cl_ConfigurationRevision : Z; cl_OperationRevision : Z; cl_ValidForSeconds : Z;
}.
Record MetricTemplateDefinition := MkDefinition {
  md_Revision : Z; md_QueryKind : string; md_ReadOnlyStatement : option slice; md_CollectionIntervalSeconds : Z; md_TimeoutSeconds : Z; md_MaxRows : Z; md_MaxColumns : Z;
  md_CardinalityLimit : Z; md_ValueMappings : list bytes; md_LabelMappings : list bytes;
}.
Record MetricTemplateLeaseResponse := MkTemplateLease {
  ml_RequestNonce : bytes; ml_LeaseId : string; ml_CommandId : string; ml_AssignmentId : string; ml_InstanceId : string; ml_ConfigurationRevision : Z;
  ml_OperationRevision : Z; ml_RevisionId : string; ml_QueryDigest : bytes; ml_ExpiresAt : option Timestamp; ml_Definition : option MetricTemplateDefinition;
  ml_ValidForSeconds : Z; ml_TemplateId : string;
}.
Record PluginArtifactLeaseResponse := { al_RequestNonce : bytes; al_Body : bytes }.

Inductive server_payload :=
  | HelloAck (protocolVersion : string) (capabilities : list string) (serverTime : time)
  | ServerCommand (envelope : CommandEnvelope)
  | ServerCommandStart (start : CommandStart)
  | ServerCommandCancellation (cancellation : CommandCancellation)
  | ServerResultAcknowledgement (acknowledgement : CommandResultAcknowledgement)
  | ServerDiscoveryAcknowledgement (acknowledgement : DiscoveryReportAcknowledgement)
  | ServerPluginArtifactLease (response : PluginArtifactLeaseResponse)
  | ServerCredentialLease (response : CredentialLeaseResponse)
  | ServerMetricTemplateLease (response : MetricTemplateLeaseResponse).
Record ServerMessage := MkServerMessage { MessageId : string; SentAt : option time; Payload : server_payload }.
Definition server_message (id : string) (p : server_payload) : ServerMessage := MkServerMessage id None p.

(** *** Clearing of secrets *)

(** [for index := range x { x[index] = 0 }] *)
Definition wipe (x : option slice) (mem : memory) : memory :=
  match x with Some x => alter (fun b => replicate (len x `min` length b) 0 ++ drop (len x) b) (base x) mem | None => mem end.

Definition clearCredentialLeaseResponse (r : CredentialLeaseResponse) (mem : memory) : memory :=
  match cl_Credential r with None => mem | Some material => wipe (SecretBytes material) mem end.
Definition clearMetricTemplateLeaseResponse (r : MetricTemplateLeaseResponse) (mem : memory) : memory :=
  match ml_Definition r with None => mem | Some definition => wipe (md_ReadOnlyStatement definition) mem end.

(** Both calls on [message.Get...()], which is nil for other messages. *)
Definition clear_message (m : ServerMessage) (mem : memory) : memory :=
  match Payload m with
  | ServerCredentialLease r => clearCredentialLeaseResponse r mem
  | ServerMetricTemplateLease r => clearMetricTemplateLeaseResponse r mem
  | _ => mem
  end.

(** The slice of secrets that a payload reaches. *)
Definition payload_secret (p : server_payload) : option slice :=
  match p with
  | ServerCredentialLease r => cl_Credential r ≫= SecretBytes
  | ServerMetricTemplateLease r => ml_Definition r ≫= md_ReadOnlyStatement
  | _ => None
  end.

(** ** Checks of messages *)

Definition validExecutionFence (commandID : string) (executionToken : bytes) (leaseRevision : Z) : bool :=
  validIdentifier commandID && (length executionToken =? sha256_Size)%nat && (0 <? leaseRevision).

Definition ValidateStartShape (s : CommandStart) : bool :=
  validIdentifier (s_CommandId s) && (length (s_ExecutionToken s) =? sha256_Size)%nat && negb (s_LeaseRevision s =? 0) && negb (s_LeaseSeconds s =? 0)
  && negb (MaximumTimeoutSeconds <? s_LeaseSeconds s) && IsValid (s_StartDeadline s).
Definition ValidateStart (s : CommandStart) (at_ : time) : bool := ValidateStartShape s && After (AsTime (s_StartDeadline s)) (UTC at_).

Definition ValidatePrepared (p : CommandPrepared) : bool := validIdentifier (p_CommandId p) && (length (p_EnvelopeDigest p) =? sha256_Size)%nat.
Definition ValidateProgress (p : CommandProgress) : bool :=
  negb (100 <? g_Percent p) && validExecutionFence (g_ProgressCommandId p) (g_ExecutionToken p) (g_LeaseRevision p).

Definition ValidateCancellation (c : CommandCancellation) : bool :=
  validIdentifier (x_CommandId c)
  && ((length (x_ExecutionToken c) =? 0)%nat && (x_LeaseRevision c =? 0) || validExecutionFence (x_CommandId c) (x_ExecutionToken c) (x_LeaseRevision c)).

Definition ValidateResultAcknowledgement (a : CommandResultAcknowledgement) : bool :=
  validIdentifier (ra_CommandId a) && (length (ra_ResultDigest a) =? sha256_Size)%nat && negb (ra_Persisted a && ra_Retryable a)
  && (ra_Persisted a || validIdentifier (ra_ReasonCode a)).

(** The typed result of a metric template trial. *)
Record TrialMetric := { tm_MetricName : string; tm_Unit : string; tm_Value : float64; tm_Labels : gmap string string }.
Record MetricTemplateTrialResult := {
  tt_RevisionId : string; tt_QueryDigest : bytes; tt_StatusCode : string; tt_MetricCount : Z; tt_RowCount : Z; tt_ColumnCount : Z; tt_DurationMillis : Z;
  tt_CandidateMetrics : list TrialMetric;
}.

(** The body of a command, as far as its capabilities depend on it. *)
Inductive PluginDesiredState := DESIRED_UNSPECIFIED | DESIRED_ABSENT | DESIRED_INSTALLED | DESIRED_RUNNING | DESIRED_STOPPED | DESIRED_OTHER (n : Z).
#[global] Instance PluginDesiredState_eq_dec : EqDecision PluginDesiredState.
Proof. solve_decision. Defined.

Inductive command_body :=
  | CollectNowBody | InspectInstanceBody | ExecuteSqlBody | ExecuteRegisteredProcessBody | CollectDiagnosticBody | DiscoverDatabasesBody
  | ReconcilePluginBody (instanceDescriptors : nat) (desiredState : PluginDesiredState) (templateRevisions instanceTemplateRevisions : nat)
  | ApplyPluginConfigurationBody | ValidateDatabaseInstanceBody | DrainPluginBody
  | CollectDatabaseMetricsBody (templateRevisions : nat)
  | UnknownBody.

(** Generated code: decoded bodies and trial results, and the encoding of reports; [utf8.ValidString]; the size of encoded responses. *)
Class AgentCodec := {
  body_of : Command -> command_body;
  trial_of : bytes -> MetricTemplateTrialResult;
  ReportBytes : Type;
  MarshalReport : ReportBytes -> bytes;
  ValidUTF8 : string -> bool;
  size_of : server_payload -> Z;
}.

Section registry.
Context `{AgentCodec}.

Definition forbidden_byte (c : Z) : bool := (c =? 0) || (c =? 13) || (c =? 10).

Definition validTrialMetric (m : TrialMetric) : bool :=
  validIdentifier (tm_MetricName m) && negb (empty_string (tm_Unit m)) && (String.length (tm_Unit m) <=? 32)%nat && finite (tm_Value m) && (size (tm_Labels m) <=? 16)%nat
  && forallb (fun '(name, label) => validIdentifier name && ValidUTF8 label && (String.length label <=? 128)%nat && negb (existsb forbidden_byte (bytes_of label)))
       (map_to_list (tm_Labels m)).

Definition validMetricTemplateTrialResult (v : MetricTemplateTrialResult) : bool :=
  validIdentifier (tt_RevisionId v) && (length (tt_QueryDigest v) =? sha256_Size)%nat && validIdentifier (tt_StatusCode v)
  && (tt_MetricCount v =? uint32 (Z.of_nat (length (tt_CandidateMetrics v)))) && (tt_RowCount v <=? 100) && (tt_ColumnCount v <=? 32) && (tt_MetricCount v <=? 3200)
  && (tt_DurationMillis v <=? 30000) && forallb validTrialMetric (tt_CandidateMetrics v).

Definition ValidateResult (r : CommandResult) : bool :=
  validExecutionFence (r_CommandId r) (r_ExecutionToken r) (r_LeaseRevision r)
  && match r_MetricTemplateTrialResult r with Some b => validMetricTemplateTrialResult (trial_of b) | None => true end
  && match r_State r with
     | RESULT_SUCCEEDED | RESULT_FAILED | RESULT_CANCELLED | RESULT_TIMED_OUT | RESULT_INTERRUPTED => true
     | _ => false
     end.

(** [commandCapabilities] *)
Definition commandCapabilities (e : CommandEnvelope) : list string :=
  match body_of <$> e_Command e with
  | Some CollectNowBody => ["collect_now"]
  | Some InspectInstanceBody => ["inspect_instance"]
  | Some ExecuteSqlBody => ["execute_sql"]
  | Some ExecuteRegisteredProcessBody => ["execute_registered_process"]
  | Some CollectDiagnosticBody => ["collect_diagnostic"]
  | Some DiscoverDatabasesBody => ["discover_databases"]
  | Some (ReconcilePluginBody descriptors state templates instanceTemplates) =>
      (["plugin.reconcile.v1"]
      ++ (if (0 <? descriptors)%nat || bool_decide (state = DESIRED_RUNNING) || bool_decide (state = DESIRED_INSTALLED) then ["plugin_reconcile.instance_descriptors.v1"] else [])
      ++ (if bool_decide (state = DESIRED_RUNNING) && ((0 <? templates)%nat || (0 <? instanceTemplates)%nat) then ["metric_template_lease.v1"] else []))%list
  | Some ApplyPluginConfigurationBody => ["plugin.configuration.apply.v1"]
  | Some ValidateDatabaseInstanceBody => ["plugin.instance.validate.v1"]
  | Some DrainPluginBody => ["plugin.drain.v1"]
  | Some (CollectDatabaseMetricsBody templates) => (["plugin.metrics.collect.v1"] ++ (if (0 <? templates)%nat then ["metric_template_lease.v1"] else []))%list
  | Some UnknownBody | None => []
  end%string.
End registry.

(** ** Sessions *)

Record session := MkSession {
  ss_sessionID : string; ss_agentID : string; ss_credentialLeaf : bytes; ss_credentialSerial : string; ss_capabilities : gset string; ss_capabilityList : list string;
  ss_active : list ActiveCommand; ss_send : list ServerMessage; ss_cancelled : bool; ss_lastHeartbeat : time; ss_leaseDurations : gmap string Z;
  ss_leases : gmap string time; ss_executionTokens : gmap string bytes; ss_leaseRevisions : gmap string Z;
}.
#[global] Instance session_eta : Eta session := fun s => MkSession (ss_sessionID s) (ss_agentID s) (ss_credentialLeaf s) (ss_credentialSerial s) (ss_capabilities s)
  (ss_capabilityList s) (ss_active s) (ss_send s) (ss_cancelled s) (ss_lastHeartbeat s) (ss_leaseDurations s) (ss_leases s) (ss_executionTokens s) (ss_leaseRevisions s).

Record SessionInfo := {
  si_SessionID : string; si_AgentID : string; si_Capabilities : list string; si_ActiveCommands : list ActiveCommand; si_LastHeartbeat : time;
  si_Leases : gmap string time; si_LeaseRevisions : gmap string Z;
}.

Record Registry := MkRegistry { queueCapacity : nat; sessions : gmap string nat; sessionSequence : Z; heap : list session }.
#[global] Instance Registry_eta : Eta Registry := fun r => MkRegistry (queueCapacity r) (sessions r) (sessionSequence r) (heap r).

Inductive session_error :=
  | ErrAgentUnavailable | ErrSessionQueueFull | ErrCapabilityNotAdvertised (capability : string) | ErrCommandExpired | ErrAgentMismatch | ErrInvalidCommand
  | ErrDuplicateSession | ErrContext.
Record dispatchError := { err : session_error; retryable : bool }.
Abbreviation reply := (result dispatchError unit).
Definition refuse (e : session_error) : reply := Err {| err := e; retryable := false |}.
Definition try_again (e : session_error) : reply := Err {| err := e; retryable := true |}.

Definition IsRetryableDispatchError (e : dispatchError) : bool := retryable e.

Definition NewRegistry (capacity : Z) : Registry :=
  {| queueCapacity := Z.to_nat (if capacity <=? 0 then 1 else capacity); sessions := ∅; sessionSequence := 0; heap := [] |}.

(** The live session of an agent, with its address. *)
Definition liveSession (agentID : string) (r : Registry) : option (nat * session) :=
  match sessions r !! agentID with Some a => pair a <$> heap r !! a | None => None end.

Definition update_session (a : nat) (f : session -> session) (r : Registry) : Registry := r <| heap ::= alter f a |>.

(** [select { case current.send <- message: ...; default: ... }] *)
Definition has_room (r : Registry) (s : session) : bool := (length (ss_send s) <? queueCapacity r)%nat.
Definition push (m : ServerMessage) (s : session) : session := s <| ss_send ::= fun q => q ++ [m] |>.

(** *** Registration *)

Definition advertised (capabilities : list string) : gset string :=
  list_to_set (List.filter (fun c => negb (empty_string c)) (TrimSpace <$> capabilities)).

Definition new_session (r : Registry) (agentID : string) (capabilities : list string) (active : list ActiveCommand) (fingerprint : bytes) (serial : string) : session :=
  {| ss_sessionID := "session-" +:+ Itoa (uint64 (sessionSequence r + 1)); ss_agentID := agentID; ss_credentialLeaf := fingerprint; ss_credentialSerial := serial;
     ss_capabilities := advertised capabilities; ss_capabilityList := merge_sort string_leb (elements (advertised capabilities));
     ss_active := active; ss_send := []; ss_cancelled := false; ss_lastHeartbeat := zero_time; ss_leaseDurations := ∅; ss_leases := ∅; ss_executionTokens := ∅;
     ss_leaseRevisions := ∅ |}.

Definition registerCredential (agentID : string) (capabilities : list string) (active : list ActiveCommand) (fingerprint : bytes) (serial : string) (r : Registry) :
  result session_error nat * Registry :=
  match sessions r !! agentID with
  | Some _ => (Err ErrDuplicateSession, r)
  | None =>
      (Ok (length (heap r)),
       r <| sessionSequence := uint64 (sessionSequence r + 1) |> <| sessions ::= <[agentID := length (heap r)]> |>
         <| heap ::= fun h => h ++ [new_session r agentID capabilities active fingerprint serial] |>)
  end.

(** *** Removal: the queue is emptied and its secrets are cleared under the lock *)

Definition clear_messages (l : list ServerMessage) (mem : memory) : memory := fold_left (fun mem m => clear_message m mem) l mem.

Definition remove_session (agentID : string) (a : nat) (s : session) (r : Registry) (mem : memory) : Registry * memory :=
  (update_session a (fun s => s <| ss_send := [] |>) (r <| sessions ::= delete agentID |>), clear_messages (ss_send s) mem).

(** Removal when the live session has a property; the address is that of the session to cancel. *)
Definition remove_if (test : nat -> session -> bool) (agentID : string) (r : Registry) (mem : memory) : option nat * Registry * memory :=
  match liveSession agentID r with
  | Some (a, s) => if test a s then let '(r', mem') := remove_session agentID a s r mem in (Some a, r', mem') else (None, r, mem)
  | None => (None, r, mem)
  end.

Definition unregister (agentID : string) (expected : nat) (r : Registry) (mem : memory) : Registry * memory :=
  let '(_, r', mem') := remove_if (fun a _ => (a =? expected)%nat) agentID r mem in (r', mem').

Definition Terminate (agentID : string) (r : Registry) (mem : memory) : option nat * Registry * memory :=
  if blank agentID then (None, r, mem) else remove_if (fun _ _ => true) agentID r mem.

Definition zero_fingerprint : bytes := replicate sha256_Size 0.

Definition TerminateCredential (agentID : string) (fingerprint : bytes) (serial : string) (r : Registry) (mem : memory) : option nat * Registry * memory :=
  if blank agentID || bool_decide (fingerprint = zero_fingerprint) || empty_string serial then (None, r, mem)
  else remove_if (fun _ s => bool_decide (ss_credentialLeaf s = fingerprint) && bool_decide (ss_credentialSerial s = serial)) agentID r mem.

Definition terminateSession (agentID : string) (expected : nat) (r : Registry) (mem : memory) : option nat * Registry * memory :=
  remove_if (fun a _ => (a =? expected)%nat) agentID r mem.

(** [session.cancel()] *)
Definition cancel_session (a : nat) (r : Registry) : Registry := update_session a (fun s => s <| ss_cancelled := true |>) r.

(** *** Snapshots *)

Definition session_info (s : session) : SessionInfo :=
  {| si_SessionID := ss_sessionID s; si_AgentID := ss_agentID s; si_Capabilities := ss_capabilityList s; si_ActiveCommands := ss_active s;
     si_LastHeartbeat := ss_lastHeartbeat s; si_Leases := ss_leases s; si_LeaseRevisions := ss_leaseRevisions s |}.

Definition Session (agentID : string) (r : Registry) : option SessionInfo := session_info ∘ snd <$> liveSession agentID r.

Definition snapshot (agentID : string) (expected : nat) (r : Registry) : option SessionInfo :=
  match liveSession agentID r with Some (a, s) => if (a =? expected)%nat then Some (session_info s) else None | None => None end.

Definition Supports (agentID : string) (required : list string) (r : Registry) : bool :=
  match liveSession agentID r with Some (_, s) => forallb (fun c => bool_decide (c ∈ ss_capabilities s)) required | None => false end.

Definition lease_of (s : session) (id : string) : time := default zero_time (ss_leases s !! id).
Definition revision_of (s : session) (id : string) : Z := default 0 (ss_leaseRevisions s !! id).
Definition token_of (s : session) (id : string) : bytes := default [] (ss_executionTokens s !! id).
Definition duration_of (s : session) (id : string) : Z := default 0 (ss_leaseDurations s !! id).

Definition ExecutionLeaseActive (agentID commandID : string) (at_ : time) (r : Registry) : bool :=
  if empty_string agentID || empty_string commandID || IsZero at_ then false
  else match liveSession agentID r with
       | Some (_, s) => After (lease_of s commandID) (UTC at_) && negb (revision_of s commandID =? 0) && (length (token_of s commandID) =? sha256_Size)%nat
       | None => false
       end.

(** *** Queueing *)

Definition enqueue (agentID : string) (m : ServerMessage) (r : Registry) : reply * Registry :=
  match liveSession agentID r with
  | None => (try_again ErrAgentUnavailable, r)
  | Some (a, s) => if has_room r s then (Ok tt, update_session a (push m) r) else (try_again ErrSessionQueueFull, r)
  end.

Definition discovery_message (acknowledgement : DiscoveryReportAcknowledgement) : ServerMessage :=
  server_message ("discovery-ack-" +:+ da_HostId acknowledgement) (ServerDiscoveryAcknowledgement acknowledgement).
Definition AcknowledgeDiscovery (agentID : string) (acknowledgement : DiscoveryReportAcknowledgement) (r : Registry) : reply * Registry :=
  enqueue agentID (discovery_message acknowledgement) r.

Definition command_message (e : CommandEnvelope) : ServerMessage := server_message (e_CommandId e) (ServerCommand e).

Definition Dispatch `{AgentCodec} (cancelled : bool) (now : time) (agentID : string) (e : CommandEnvelope) (r : Registry) : reply * Registry :=
  if cancelled then (refuse ErrContext, r)
  else if blank (e_CommandId e) || bool_decide (e_Command e = None) then (refuse ErrInvalidCommand, r)
  else if negb (bool_decide (e_AgentId e = agentID)) then (refuse ErrAgentMismatch, r)
  else if negb (match e_ExpiresAt e with Some t => IsValid t && After (AsTime t) now | None => false end) then (refuse ErrCommandExpired, r)
  else match commandCapabilities e with
       | [] => (refuse ErrInvalidCommand, r)
       | capabilities =>
           match liveSession agentID r with
           | None => (try_again ErrAgentUnavailable, r)
           | Some (a, s) =>
               match List.find (fun c => negb (bool_decide (c ∈ ss_capabilities s))) capabilities with
               | Some missing => (refuse (ErrCapabilityNotAdvertised missing), r)
               | None => if has_room r s then (Ok tt, update_session a (push (command_message e)) r) else (try_again ErrSessionQueueFull, r)
               end
           end
       end.

Definition start_message (s : CommandStart) : ServerMessage := server_message ("start-" +:+ s_CommandId s) (ServerCommandStart s).

(** The execution lease that a start opens. *)
Definition open_lease (start : CommandStart) (now : time) (s : session) : session :=
  let id := s_CommandId start in
  s <| ss_executionTokens ::= <[id := s_ExecutionToken start]> |> <| ss_leaseRevisions ::= <[id := s_LeaseRevision start]> |>
    <| ss_leaseDurations ::= <[id := s_LeaseSeconds start * second]> |> <| ss_leases ::= <[id := AddDuration now (s_LeaseSeconds start * second)]> |>.

Definition enqueueStart (now : time) (agentID : string) (start : CommandStart) (r : Registry) : reply * Registry :=
  match liveSession agentID r with
  | None => (try_again ErrAgentUnavailable, r)
  | Some (a, s) =>
      if has_room r s then (Ok tt, update_session a (fun s => open_lease start now (push (start_message start) s)) r)
      else (try_again ErrSessionQueueFull, r)
  end.

(** [Start] reads the clock for its check and, under the lock, for the lease. *)
Definition Start (cancelled : bool) (now now' : time) (agentID : string) (start : CommandStart) (r : Registry) : reply * Registry :=
  if cancelled then (refuse ErrContext, r)
  else if negb (ValidateStart start now) then (refuse ErrInvalidCommand, r)
  else enqueueStart now' agentID start r.

Definition ReplayStart (cancelled : bool) (now : time) (agentID : string) (start : CommandStart) (r : Registry) : reply * Registry :=
  if cancelled then (refuse ErrContext, r)
  else if negb (ValidateStartShape start) then (refuse ErrInvalidCommand, r)
  else enqueueStart now agentID start r.

Definition enqueueCancellation (a : nat) (s : session) (commandID : string) (c : CommandCancellation) (r : Registry) : reply * Registry :=
  if has_room r s then (Ok tt, update_session a (push (server_message commandID (ServerCommandCancellation c))) r) else (try_again ErrSessionQueueFull, r).

(** The guards that the three forms of cancellation share; [make] builds the message for the session. *)
Definition send_cancellation (cancelled valid : bool) (agentID commandID : string) (make : session -> CommandCancellation) (r : Registry) : reply * Registry :=
  if cancelled then (refuse ErrContext, r)
  else if negb valid then (refuse ErrInvalidCommand, r)
  else match liveSession agentID r with
       | None => (try_again ErrAgentUnavailable, r)
       | Some (a, s) => enqueueCancellation a s commandID (make s) r
       end.

Definition Cancel (cancelled : bool) (agentID commandID : string) (r : Registry) : reply * Registry :=
  send_cancellation cancelled (negb (blank commandID)) agentID commandID
    (fun s => if (length (token_of s commandID) =? sha256_Size)%nat && (0 <? revision_of s commandID)
              then {| x_CommandId := commandID; x_Reason := EmptyString; x_ExecutionToken := token_of s commandID; x_LeaseRevision := revision_of s commandID |}
              else {| x_CommandId := commandID; x_Reason := EmptyString; x_ExecutionToken := []; x_LeaseRevision := 0 |}) r.

Definition CancelPrepared (cancelled : bool) (agentID commandID reason : string) (r : Registry) : reply * Registry :=
  send_cancellation cancelled (negb (blank commandID)) agentID commandID
    (fun _ => {| x_CommandId := commandID; x_Reason := reason; x_ExecutionToken := []; x_LeaseRevision := 0 |}) r.

Definition CancelExecution (cancelled : bool) (agentID commandID : string) (executionToken : bytes) (executionRevision : Z) (reason : string) (r : Registry) :
  reply * Registry :=
  send_cancellation cancelled (negb (blank commandID || negb (length executionToken =? sha256_Size)%nat || (executionRevision =? 0))) agentID commandID
    (fun _ => {| x_CommandId := commandID; x_Reason := reason; x_ExecutionToken := executionToken; x_LeaseRevision := executionRevision |}) r.

(** *** Heartbeats *)

Definition matchingExecutionToken (left_ right_ : bytes) : bool :=
  (length left_ =? sha256_Size)%nat && (length right_ =? sha256_Size)%nat && bool_decide (left_ = right_).

Definition renew_command (at_ : time) (s : session) (active : ActiveCommand) : session :=
  let id := ac_CommandId active in
  if negb (matchingExecutionToken (token_of s id) (ac_ExecutionToken active)) || negb (revision_of s id =? ac_LeaseRevision active) then s
  else if 0 <? duration_of s id then s <| ss_leases ::= <[id := AddDuration at_ (duration_of s id)]> |> else s.

Definition renew (agentID : string) (active : list ActiveCommand) (at_ : time) (r : Registry) : Registry :=
  match liveSession agentID r with
  | None => r
  | Some (a, _) => update_session a (fun s => fold_left (renew_command at_) active (s <| ss_lastHeartbeat := at_ |>)) r
  end.

(** ** Properties of the registry *)

(** An array without secrets. *)
Definition clean (mem : memory) (i : nat) : Prop := forall b, mem !! i = Some b -> Forall (eq 0) b.
(** A slice covers its array. *)
Definition covers (mem : memory) (x : slice) : Prop := forall b, mem !! base x = Some b -> length b = len x.

Lemma clear_message_wipe m mem : clear_message m mem = wipe (payload_secret (Payload m)) mem.
Proof.
  destruct m as [id at_ []]; cbn; try done.
  - unfold clearCredentialLeaseResponse. by destruct (cl_Credential response).
  - unfold clearMetricTemplateLeaseResponse. by destruct (ml_Definition response).
Qed.

Lemma wipe_clean mem x : covers mem x -> clean (wipe (Some x) mem) (base x).
Proof.
  intros Hc b Hb. cbn in Hb. rewrite list_lookup_alter_eq in Hb. destruct (mem !! base x) as [b0|] eqn:E; [|done]. injection Hb as <-.
  rewrite drop_ge, app_nil_r by (specialize (Hc _ E); lia). by apply Forall_replicate.
Qed.

Lemma wipe_keeps_clean x mem i : clean mem i -> clean (wipe x mem) i.
Proof.
  intros Hc b Hb. destruct x as [x|]; cbn in Hb; [|by apply Hc]. destruct (decide (i = base x)) as [->|Hne]; [|rewrite list_lookup_alter_ne in Hb by done; by apply Hc].
  rewrite list_lookup_alter_eq in Hb. destruct (mem !! base x) as [b0|] eqn:E; [|done]. injection Hb as <-. apply Forall_app. split; [by apply Forall_replicate|].
  apply Forall_drop. by apply Hc.
Qed.

Lemma wipe_covers y x mem : covers mem x -> covers (wipe y mem) x.
Proof.
  intros Hx b Hb. destruct y as [y|]; [|by apply Hx]. cbn in Hb. destruct (decide (base x = base y)) as [Heq|Hne]; [|rewrite list_lookup_alter_ne in Hb by done; by apply Hx].
  rewrite Heq, list_lookup_alter_eq in Hb. destruct (mem !! base y) as [b0|] eqn:E; [|done]. injection Hb as <-. rewrite <- Heq in E. specialize (Hx _ E).
  rewrite length_app, length_replicate, length_drop. lia.
Qed.

Lemma clear_messages_keeps_clean l : forall mem i, clean mem i -> clean (clear_messages l mem) i.
Proof. induction l as [|m l IH]; intros mem i Hc; [done|]. apply IH. rewrite clear_message_wipe. by apply wipe_keeps_clean. Qed.

(** The registry: agents map to their own sessions, removed sessions have nothing left to send, queues keep their bound. *)
Definition live (r : Registry) (a : nat) (s : session) : Prop := sessions r !! ss_agentID s = Some a.
#[global] Instance live_dec r a s : Decision (live r a s).
Proof. unfold live. apply _. Defined.

Record registry_ok (r : Registry) : Prop := {
  reg_live id a : sessions r !! id = Some a -> exists s, heap r !! a = Some s /\ ss_agentID s = id;
  reg_drained a s : heap r !! a = Some s -> ~ live r a s -> ss_send s = [];
  reg_bound a s : heap r !! a = Some s -> (length (ss_send s) <= queueCapacity r)%nat;
}.

Lemma liveSession_Some agentID r a s : liveSession agentID r = Some (a, s) <-> sessions r !! agentID = Some a /\ heap r !! a = Some s.
Proof.
  unfold liveSession. destruct (sessions r !! agentID) as [a'|]; [|naive_solver]. destruct (heap r !! a') as [s'|] eqn:E; cbn; naive_solver.
Qed.

Lemma liveSession_agent agentID r a s : registry_ok r -> liveSession agentID r = Some (a, s) -> ss_agentID s = agentID /\ live r a s.
Proof. intros Hok [H1 H2]%liveSession_Some. destruct (reg_live _ Hok _ _ H1) as (s' & H3 & H4). simplify_eq. by split. Qed.

Lemma update_session_lookup r a f i : heap (update_session a f r) !! i = (if decide (i = a) then f else id) <$> heap r !! i.
Proof.
  unfold update_session. cbn. case_decide as Hd.
  - subst i. apply list_lookup_alter_eq.
  - rewrite list_lookup_alter_ne by done. by destruct (heap r !! i).
Qed.

Lemma update_session_ok r a f : registry_ok r ->
  (forall s, heap r !! a = Some s -> ss_agentID (f s) = ss_agentID s /\ (length (ss_send (f s)) <= queueCapacity r)%nat /\ (~ live r a s -> ss_send (f s) = [])) ->
  registry_ok (update_session a f r).
Proof.
  intros [Hl Hd Hb] Hf. split.
  - intros id b Hs. destruct (Hl _ _ Hs) as (s & H1 & H2). rewrite update_session_lookup, H1. case_decide; [|by exists s].
    subst. exists (f s). split; [done|]. apply (Hf _ H1).
  - intros b s Hs Hn. rewrite update_session_lookup in Hs. destruct (heap r !! b) as [s0|] eqn:E; [|done]. case_decide; cbn in Hs; injection Hs as <-; [|by apply (Hd b)].
    subst. destruct (Hf _ E) as (H1 & _ & H3). apply H3. unfold live in *. cbn in Hn. by rewrite H1 in Hn.
  - intros b s Hs. rewrite update_session_lookup in Hs. destruct (heap r !! b) as [s0|] eqn:E; [|done]. case_decide; cbn in Hs; injection Hs as <-; [|by apply (Hb b)].
    subst. apply (Hf _ E).
Qed.

Lemma NewRegistry_ok capacity : registry_ok (NewRegistry capacity).
Proof. split; intros ? ?; cbn; by rewrite ?lookup_empty. Qed.

Lemma registerCredential_ok agentID capabilities active fingerprint serial r :
  registry_ok r -> registry_ok (snd (registerCredential agentID capabilities active fingerprint serial r)).
Proof.
  intros [Hl Hd Hb]. unfold registerCredential. destruct (sessions r !! agentID) eqn:E; [done|]. set (s0 := new_session _ _ _ _ _ _). split.
  - intros id a Hs. cbn in Hs. rewrite lookup_insert_Some in Hs. destruct Hs as [[<- <-]|[Hne Hs]].
    + exists s0. split; [|done]. cbn. by rewrite list_lookup_middle.
    + destruct (Hl _ _ Hs) as (s & H1 & H2). exists s. split; [|done]. cbn. by apply lookup_app_l_Some.
  - intros a s Hs Hn. cbn in Hs. apply lookup_app_Some in Hs as [Hs|[Hlen Hs]].
    + apply (Hd a s Hs). intros Hv. apply Hn. unfold live in *. cbn. rewrite lookup_insert_ne; [done|]. congruence.
    + destruct (a - length (heap r))%nat eqn:Ea; [|done]. injection Hs as <-. done.
  - intros a s Hs. cbn in Hs. apply lookup_app_Some in Hs as [Hs|[Hlen Hs]]; [by apply (Hb a)|]. destruct (a - length (heap r))%nat; [|done]. injection Hs as <-. cbn. lia.
Qed.

Lemma remove_session_ok agentID a s r mem : registry_ok r -> liveSession agentID r = Some (a, s) -> registry_ok (fst (remove_session agentID a s r mem)).
Proof.
  intros Hok Hs. destruct (liveSession_agent _ _ _ _ Hok Hs) as [Hid _]. apply liveSession_Some in Hs as [Hm Hh]. destruct Hok as [Hl Hd Hb]. cbn. split.
  - intros id b Hx. cbn in Hx. rewrite lookup_delete_Some in Hx. destruct Hx as [Hne Hx]. destruct (Hl _ _ Hx) as (s' & H1 & H2). exists s'. split; [|done].
    rewrite update_session_lookup. cbn. rewrite H1. case_decide; [|done]. subst. simplify_eq.
  - intros b s' Hx Hn. rewrite update_session_lookup in Hx. cbn in Hx. destruct (heap r !! b) as [s0|] eqn:E; [|done]. case_decide; cbn in Hx; injection Hx as <-; [done|].
    apply (Hd b s0 E). intros Hv. apply Hn. unfold live in *. cbn. rewrite lookup_delete_ne; [done|]. intros Heq. congruence.
  - intros b s' Hx. rewrite update_session_lookup in Hx. cbn in Hx. destruct (heap r !! b) as [s0|] eqn:E; [|done]. case_decide; cbn in Hx; injection Hx as <-; [cbn; lia|by apply (Hb b)].
Qed.
