(* ===== verification/AgentServer.v ===== *)
(** * The server of agent streams

    [Server] of [agentcontrol/server.go] with the identities of
    [agentcontrol/identity.go]: how a stream is opened, what is done with each
    message of an agent, and how a stream ends.

    The bodies of [Connect] and [handleAgentMessage] are programs over their
    calls; the local variables [agentID] and [current] of [Connect] belong to the
    stream, so that calls on the agent's own session do not repeat them.  The
    texts of gRPC statuses are left out. *)

From S2P Require Import Prelude Programs GoText JobModel JobRepository CommandPhases CommandSlots CommandLifecycle CommandWorld CommandDelivery SessionRegistry.

Open Scope Z_scope.
Open Scope update_scope.
Open Scope prog_scope.

(** ** Identities *)

(** What TLS hands over: certificates with their URI names. *)
Record URL := { u_Scheme : string; u_Host : string; u_HasUser : bool; u_RawQuery : string; u_Fragment : string; u_Path : string }.
Record Certificate := { URIs : list URL; Raw : bytes; SerialNumber : option Z }.
Record ConnectionState := { VerifiedChains : nat; PeerCertificates : list Certificate }.

Definition spiffeTrustDomain : string := "dbpilot.local".
Definition agent_prefix : string := "/agent/".

(** The scheme of a parsed URL is ASCII, for which [EqualFold] compares lower cases. *)
Definition is_spiffe (u : URL) : bool := bool_decide (ToLower (u_Scheme u) = "spiffe"%string).

Definition spiffeAgentFromTLS (state : ConnectionState) : option string :=
  match VerifiedChains state, PeerCertificates state with
  | S _, leaf :: _ =>
      match List.filter is_spiffe (URIs leaf) with
      | [identity] =>
          if negb (bool_decide (u_Host identity = spiffeTrustDomain)) || u_HasUser identity || negb (empty_string (u_RawQuery identity))
             || negb (empty_string (u_Fragment identity)) then None
          else if negb (HasPrefix agent_prefix (u_Path identity)) then None
          else let agentID := TrimPrefix agent_prefix (u_Path identity) in
               if empty_string agentID || negb (trimmed agentID) || Contains "/" agentID then None else Some agentID
      | _ => None
      end
  | _, _ => None
  end.

(** [None] is a connection without TLS information. *)
Definition verifiedAgentID (peer : option ConnectionState) : option string := peer ≫= spiffeAgentFromTLS.

(** [big.Int.Text(16)] of a positive number *)
Fixpoint hex_text (fuel : nat) (n : Z) (tail : string) : string :=
  match fuel with
  | O => tail
  | S fuel => if n =? 0 then tail else hex_text fuel (n / 16) (String (hex_digit (n mod 16)) tail)
  end.
Definition Text16 (n : Z) : string := hex_text (S (Z.to_nat (Z.log2 n))) n EmptyString.

Definition credentialFromTLSState `{ResultCodec} (state : ConnectionState) (expectedAgentID : string) : option (bytes * string) :=
  match PeerCertificates state, spiffeAgentFromTLS state with
  | leaf :: _, Some agentID =>
      if negb (bool_decide (agentID = expectedAgentID)) || bool_decide (Raw leaf = []) then None
      else match SerialNumber leaf with Some n => if n <=? 0 then None else Some (sha256 (Raw leaf), Text16 n) | None => None end
  | _, _ => None
  end.

Definition verifiedAgentCredential `{ResultCodec} (peer : option ConnectionState) (expectedAgentID : string) : option (bytes * string) :=
  peer ≫= fun state => credentialFromTLSState state expectedAgentID.

(** ** Messages of agents *)

Record Hello := { hello_ProtocolVersion : string; hello_AgentId : string; hello_Capabilities : list string; hello_ActiveCommands : list ActiveCommand }.
Record HeartbeatMessage := { hb_AgentId : string; hb_ActiveCommands : list ActiveCommand }.
Record CredentialLeaseRequest := {
  cr_RequestNonce : bytes; cr_InstanceId : string; cr_AssignmentId : string; cr_ConfigurationRevision : Z; cr_DatabaseFamily : string; cr_OperationRevision : Z;
}.
Record MetricTemplateLeaseRequest := {
  mr_RequestNonce : bytes; mr_CommandId : string; mr_AssignmentId : string; mr_InstanceId : string; mr_ConfigurationRevision : Z; mr_OperationRevision : Z;
  mr_RevisionId : string; mr_QueryDigest : bytes; mr_TemplateId : string;
}.
Record PluginArtifactLeaseRequest := { ar_RequestNonce : bytes; ar_AssignmentId : string; ar_ArtifactId : string; ar_OperationRevision : Z }.
Record Observation := { ob_AgentId : string; ob_Body : bytes }.
Record DiscoveryReport `{AgentCodec} := { dr_AgentId : string; dr_HostId : string; dr_ObservationRevision : Z; dr_Bytes : ReportBytes }.

Inductive AgentMessage `{AgentCodec} :=
  | AgentHello (hello : Hello)
  | AgentHeartbeat (heartbeat : HeartbeatMessage)
  | AgentInventory
  | AgentCommandAcknowledgement (acknowledgement : CommandAcknowledgement)
  | AgentCommandProgress (progress : CommandProgress)
  | AgentCommandResult (r : CommandResult)
  | AgentCommandPrepared (prepared : CommandPrepared)
  | AgentHostObservation (observation : Observation)
  | AgentDiscoveryReport (report : DiscoveryReport)
  | AgentPluginObservation (observation : Observation)
  | AgentPluginArtifactLeaseRequest (request : PluginArtifactLeaseRequest)
  | AgentCredentialLeaseRequest (request : CredentialLeaseRequest)
  | AgentMetricTemplateLeaseRequest (request : MetricTemplateLeaseRequest)
  | AgentUnknown.

(** ** Ends and stages of a stream *)

Inductive status_code := Unauthenticated | InvalidArgument | PermissionDenied | FailedPrecondition | AlreadyExists | Internal | Unavailable | ResourceExhausted.
Inductive stream_end := EndNil | EndStatus (code : status_code) | EndTransport | EndContext.

(** Where a program of a stream leaves it: in the loop, on the way out through the deferred calls, or out. *)
Inductive stage := Serve | Close (e : stream_end) | Ended (e : stream_end).

(** ** Calls *)

(** Observations go to dispatchers that answer at once. *)
Inductive submission `{AgentCodec} :=
  | SubmitHello (at_ : time) | SubmitObservation (o : Observation) | SubmitDiscovery (report : DiscoveryReport) | SubmitPlugin (o : Observation).
Inductive submitted := SubmitOk | SubmitInvalid | SubmitCapacity | SubmitFailed.

Inductive stream_call `{AgentCodec} : Type -> Type :=
  | SNow : stream_call time
  | SAuthorizeAgentCredential (agentID : string) (fingerprint : bytes) (serial : string) : stream_call bool
  | SRecv : stream_call (option AgentMessage)
  | SRegister (capabilities : list string) (active : list ActiveCommand) (fingerprint : bytes) (serial : string) : stream_call (result session_error unit)
  | STerminateSession : stream_call bool
  | SCancel : stream_call unit
  | SSendHelloAck (ack : ServerMessage) : stream_call bool
  | SReceive : stream_call unit                                   (* starts the receiving goroutine *)
  | SSnapshot : stream_call (option SessionInfo)
  | SSession : stream_call (option SessionInfo)
  | SSupports (required : list string) : stream_call bool
  | SSubmit (what : submission) : stream_call submitted
  | SObserve {A : Type} (h : handler A) : stream_call A
  | SEnqueue (m : ServerMessage) : stream_call reply
  | SIssueArtifact (request : PluginArtifactLeaseRequest) : stream_call (option PluginArtifactLeaseResponse)
  | SIssueCredential (sessionID : string) (request : CredentialLeaseRequest) : stream_call (option CredentialLeaseResponse * bool)     (* true is an error *)
  | SIssueTemplate (sessionID : string) (request : MetricTemplateLeaseRequest) : stream_call (option MetricTemplateLeaseResponse * bool)
  | SClear (p : server_payload) : stream_call unit.

Abbreviation sprog := (Programs.prog stream_call).

Definition ProtocolVersion : string := "1".
Definition CapabilityDiscoveryReportACKV1 : string := "discovery_report_ack_v1".
Definition CapabilityDiscoveryPolicyAttestationV1 : string := "discovery_policy_attestation_v1".
Definition CapabilityDiscoverySourceResultsV1 : string := "discovery_source_results_v1".

Definition hello_ack (now : time) : server_payload :=
  HelloAck ProtocolVersion [CapabilityDiscoveryPolicyAttestationV1; CapabilityDiscoveryReportACKV1; CapabilityDiscoverySourceResultsV1] now.

(** ** Lease responses *)

Definition MinimumLeaseSeconds : Z := 5.
Definition MaximumLeaseSeconds : Z := 300.
Definition RequestNonceBytes : nat := 32.
Definition MaximumUsernameBytes : nat := 256.
Definition MaximumSecretBytes : Z := 64 * 1024.

Section server.
Context `{AgentCodec} `{ResultCodec}.

Definition validCredentialLeaseResponse (r : CredentialLeaseResponse) (q : CredentialLeaseRequest) : bool :=
  (length (cl_RequestNonce r) =? RequestNonceBytes)%nat && bool_decide (cl_RequestNonce r = cr_RequestNonce q)
  && negb (empty_string (cl_LeaseId r)) && (String.length (cl_LeaseId r) <=? 128)%nat && bool_decide (cl_InstanceId r = cr_InstanceId q)
  && bool_decide (cl_AssignmentId r = cr_AssignmentId q) && bool_decide (cl_DatabaseFamily r = cr_DatabaseFamily q)
  && (cl_ConfigurationRevision r =? cr_ConfigurationRevision q) && (cl_OperationRevision r =? cr_OperationRevision q)
  && (MinimumLeaseSeconds <=? cl_ValidForSeconds r) && (cl_ValidForSeconds r <=? MaximumLeaseSeconds) && negb (cl_CredentialRevision r =? 0)
  && match cl_ExpiresAt r with Some t => IsValid t | None => false end
  && match cl_Credential r with
     | Some m => (String.length (Username m) <=? MaximumUsernameBytes)%nat && (0 <? slice_len (SecretBytes m)) && (slice_len (SecretBytes m) <=? MaximumSecretBytes)
     | None => false
     end
  && (size_of (ServerCredentialLease r) <=? MaximumSecretBytes + 4 * 1024).

Definition validMetricTemplateDefinition (d : MetricTemplateDefinition) : bool :=
  (0 <? md_Revision d) && bool_decide (md_QueryKind d = "sql"%string) && (0 <? slice_len (md_ReadOnlyStatement d)) && (slice_len (md_ReadOnlyStatement d) <=? 32768)
  && (10 <=? md_CollectionIntervalSeconds d) && (md_CollectionIntervalSeconds d <=? 86400) && (0 <? md_TimeoutSeconds d) && (md_TimeoutSeconds d <=? 30)
  && (0 <? md_MaxRows d) && (md_MaxRows d <=? 100) && (0 <? md_MaxColumns d) && (md_MaxColumns d <=? 32) && (0 <? md_CardinalityLimit d)
  && (md_CardinalityLimit d <=? 10000) && (0 <? length (md_ValueMappings d))%nat && (length (md_ValueMappings d) <=? 32)%nat && (length (md_LabelMappings d) <=? 16)%nat.

Definition validMetricTemplateLeaseResponse (r : MetricTemplateLeaseResponse) (q : MetricTemplateLeaseRequest) (now : time) : bool :=
  (length (ml_RequestNonce r) =? sha256_Size)%nat && bool_decide (ml_RequestNonce r = mr_RequestNonce q) && negb (empty_string (ml_LeaseId r))
  && (String.length (ml_LeaseId r) <=? 128)%nat && bool_decide (ml_CommandId r = mr_CommandId q) && bool_decide (ml_AssignmentId r = mr_AssignmentId q)
  && bool_decide (ml_InstanceId r = mr_InstanceId q) && (ml_ConfigurationRevision r =? mr_ConfigurationRevision q) && (ml_OperationRevision r =? mr_OperationRevision q)
  && bool_decide (ml_TemplateId r = mr_TemplateId q) && bool_decide (ml_RevisionId r = mr_RevisionId q) && bool_decide (ml_QueryDigest r = mr_QueryDigest q)
  && (5 <=? ml_ValidForSeconds r) && (ml_ValidForSeconds r <=? 60)
  && match ml_ExpiresAt r with
     | Some t => IsValid t && After (AsTime t) (UTC now) && negb (After (AsTime t) (AddDuration (UTC now) (ml_ValidForSeconds r * second + 2 * second)))
     | None => false
     end
  && match ml_Definition r with Some d => validMetricTemplateDefinition d | None => false end
  && (size_of (ServerMetricTemplateLease r) <=? 40 * 1024).

(** ** Handling of messages *)

Definition serve : sprog stage := Return Serve.
Definition refuse_stream (code : status_code) : sprog stage := Return (Close (EndStatus code)).

(** Queue the answer; the stream ends when that fails. *)
Definition answer_with (m : ServerMessage) : sprog stage :=
  let* queued := SEnqueue m in match queued with Ok _ => serve | Err _ => refuse_stream Unavailable end.

(** The same for an answer with a secret, which is cleared when it cannot be queued. *)
Definition answer_with_secret (id : string) (p : server_payload) : sprog stage :=
  let* queued := SEnqueue (server_message id p) in
  match queued with Ok _ => serve | Err _ => let* _u := SClear p in refuse_stream Unavailable end.

(** What [Result] makes of the observer's answer. *)
Definition result_acknowledgement (r : CommandResult) (a : answer) : option CommandResultAcknowledgement :=
  let digest := resultDigest r in
  let '(outcome, retry) := match snd a with
                           | Some _ => ({| rp_CommandID := r_CommandId r; rp_ResultDigest := digest; rp_Persisted := false; rp_ReasonCode := "PERSISTENCE_RETRY" |}, true)
                           | None => (fst a, false)
                           end in
  if negb (bool_decide (rp_CommandID outcome = r_CommandId r)) then None
  else
    let digestMatches := (length (rp_ResultDigest outcome) =? sha256_Size)%nat && bool_decide (rp_ResultDigest outcome = digest) in
    let persisted := rp_Persisted outcome && digestMatches in
    Some {| ra_CommandId := rp_CommandID outcome; ra_ResultDigest := digest; ra_Persisted := persisted;
            ra_Retryable := if digestMatches then retry && negb persisted else false;
            ra_ReasonCode := if digestMatches then rp_ReasonCode outcome else "RESULT_DIGEST_MISMATCH" |}.

Definition handleResult (agentID : string) (r : CommandResult) : sprog stage :=
  if negb (ValidateResult r) then refuse_stream InvalidArgument
  else
    let* a := SObserve (HResult agentID r) in
    match result_acknowledgement r a with
    | None => refuse_stream Internal
    | Some ack => answer_with (server_message ("result-ack-" +:+ ra_CommandId ack) (ServerResultAcknowledgement ack))
    end.

Definition rejectDiscoveryReport (agentID : string) (report : DiscoveryReport) (reason : string) : sprog stage :=
  if (dr_ObservationRevision report =? 0) || empty_string (dr_HostId report) then serve
  else
    let ack := {| da_HostId := dr_HostId report; da_AgentId := agentID; da_ObservationRevision := dr_ObservationRevision report;
                  da_ReportDigest := sha256 (MarshalReport (dr_Bytes report)); da_Persisted := false; da_Retryable := false; da_ReasonCode := reason |} in
    let* _ignored := SEnqueue (discovery_message ack) in serve.

Definition handleDiscoveryReport (agentID : string) (report : DiscoveryReport) : sprog stage :=
  let* supported := SSupports [CapabilityDiscoveryReportACKV1; CapabilityDiscoveryPolicyAttestationV1] in
  if negb (supported : bool) then serve
  else if negb (bool_decide (dr_AgentId report = agentID)) then rejectDiscoveryReport agentID report "REPORT_IDENTITY_REJECTED"
  else
    let* r := SSubmit (SubmitDiscovery report) in
    match r with
    | SubmitOk => serve
    | SubmitInvalid => rejectDiscoveryReport agentID report "REPORT_INVALID"
    | SubmitCapacity => refuse_stream ResourceExhausted
    | SubmitFailed => refuse_stream Unavailable
    end.

Definition handleArtifactRequest (request : PluginArtifactLeaseRequest) : sprog stage :=
  if negb (length (ar_RequestNonce request) =? sha256_Size)%nat then refuse_stream InvalidArgument
  else
    let* supported := SSupports ["plugin.reconcile.v1"; "plugin_reconcile.instance_descriptors.v1"]%string in
    if negb (supported : bool) then refuse_stream InvalidArgument
    else
      let* issued := SIssueArtifact request in
      let response := match issued with Some response => response | None => {| al_RequestNonce := ar_RequestNonce request; al_Body := [] |} end in
      if negb (bool_decide (al_RequestNonce response = ar_RequestNonce request)) then refuse_stream Internal
      else answer_with (server_message "plugin-artifact-lease" (ServerPluginArtifactLease response)).

(** The response that stands for a refusal: it only repeats the request. *)
Definition refused_credential (q : CredentialLeaseRequest) : CredentialLeaseResponse :=
  {| cl_RequestNonce := cr_RequestNonce q; cl_LeaseId := EmptyString; cl_InstanceId := cr_InstanceId q; cl_AssignmentId := cr_AssignmentId q; cl_CredentialRevision := 0;
     cl_ExpiresAt := None; cl_Credential := None; cl_DatabaseFamily := EmptyString; cl_ConfigurationRevision := 0; cl_OperationRevision := 0; cl_ValidForSeconds := 0 |}.

Definition handleCredentialRequest (q : CredentialLeaseRequest) : sprog stage :=
  if negb (length (cr_RequestNonce q) =? RequestNonceBytes)%nat || empty_string (cr_DatabaseFamily q) || (cr_OperationRevision q =? 0) then refuse_stream InvalidArgument
  else
    let* supported := SSupports ["plugin.reconcile.v1"; "plugin_reconcile.instance_descriptors.v1"; "credential_lease.v1"]%string in
    if negb (supported : bool) then refuse_stream InvalidArgument
    else
      let* session := SSession in
      match session with
      | None => refuse_stream Unauthenticated
      | Some info =>
          if empty_string (si_SessionID info) then refuse_stream Unauthenticated
          else
            let* issued := SIssueCredential (si_SessionID info) q in
            match issued with
            | (Some response, failed) =>
                if (failed : bool) || negb (validCredentialLeaseResponse response q) then
                  let* _u := SClear (ServerCredentialLease response) in answer_with_secret "credential-lease" (ServerCredentialLease (refused_credential q))
                else answer_with_secret "credential-lease" (ServerCredentialLease response)
            | (None, _) => answer_with_secret "credential-lease" (ServerCredentialLease (refused_credential q))
            end
      end.

Definition refused_template (q : MetricTemplateLeaseRequest) : MetricTemplateLeaseResponse :=
  {| ml_RequestNonce := mr_RequestNonce q; ml_LeaseId := EmptyString; ml_CommandId := mr_CommandId q; ml_AssignmentId := mr_AssignmentId q;
     ml_InstanceId := mr_InstanceId q; ml_ConfigurationRevision := 0; ml_OperationRevision := 0; ml_RevisionId := mr_RevisionId q; ml_QueryDigest := mr_QueryDigest q;
     ml_ExpiresAt := None; ml_Definition := None; ml_ValidForSeconds := 0; ml_TemplateId := mr_TemplateId q |}.

Definition handleTemplateRequest (q : MetricTemplateLeaseRequest) : sprog stage :=
  if negb (length (mr_RequestNonce q) =? sha256_Size)%nat || negb (length (mr_QueryDigest q) =? sha256_Size)%nat || empty_string (mr_CommandId q)
     || empty_string (mr_AssignmentId q) || empty_string (mr_InstanceId q) || (mr_ConfigurationRevision q =? 0) || (mr_OperationRevision q =? 0)
     || empty_string (mr_TemplateId q) || empty_string (mr_RevisionId q) then refuse_stream InvalidArgument
  else
    let* supported := SSupports ["metric_template_lease.v1"]%string in
    if negb (supported : bool) then refuse_stream InvalidArgument
    else
      let* session := SSession in
      match session with
      | None => refuse_stream Unauthenticated
      | Some info =>
          if empty_string (si_SessionID info) then refuse_stream Unauthenticated
          else
            let* issued := SIssueTemplate (si_SessionID info) q in
            match issued with
            | (Some response, true) =>
                let* _u := SClear (ServerMetricTemplateLease response) in answer_with_secret "metric-template-lease" (ServerMetricTemplateLease (refused_template q))
            | (Some response, false) =>
                let* now := SNow in
                if negb (validMetricTemplateLeaseResponse response q now) then
                  let* _u := SClear (ServerMetricTemplateLease response) in answer_with_secret "metric-template-lease" (ServerMetricTemplateLease (refused_template q))
                else answer_with_secret "metric-template-lease" (ServerMetricTemplateLease response)
            | (None, _) => answer_with_secret "metric-template-lease" (ServerMetricTemplateLease (refused_template q))
            end
      end.

Definition handleAgentMessage (agentID : string) (message : AgentMessage) : sprog stage :=
  match message with
  | AgentHeartbeat hb => let* _u := SObserve (HHeartbeat agentID (hb_AgentId hb) (hb_ActiveCommands hb)) in serve
  | AgentCommandAcknowledgement a =>
      if negb (ValidateAcknowledgement a) then refuse_stream InvalidArgument else let* _u := SObserve (HAcknowledged agentID a) in serve
  | AgentCommandPrepared p =>
      (* the dispatcher queues the start itself and returns none *)
      if negb (ValidatePrepared p) then refuse_stream InvalidArgument
      else let* r := SObserve (HPrepared agentID p) in match r with Ok _ => serve | Err _ => refuse_stream Unavailable end
  | AgentCommandProgress p => if negb (ValidateProgress p) then refuse_stream InvalidArgument else let* _u := SObserve (HProgress agentID p) in serve
  | AgentCommandResult r => handleResult agentID r
  | AgentInventory => serve
  | AgentHostObservation o =>
      if negb (bool_decide (ob_AgentId o = agentID)) then refuse_stream PermissionDenied
      else let* r := SSubmit (SubmitObservation o) in match r with SubmitInvalid => refuse_stream InvalidArgument | _ => serve end
  | AgentDiscoveryReport report => handleDiscoveryReport agentID report
  | AgentPluginObservation o =>
      if negb (bool_decide (ob_AgentId o = agentID)) then refuse_stream PermissionDenied
      else let* r := SSubmit (SubmitPlugin o) in match r with SubmitInvalid => refuse_stream InvalidArgument | _ => serve end
  | AgentPluginArtifactLeaseRequest q => handleArtifactRequest q
  | AgentCredentialLeaseRequest q => handleCredentialRequest q
  | AgentMetricTemplateLeaseRequest q => handleTemplateRequest q
  | AgentHello _ | AgentUnknown => refuse_stream InvalidArgument
  end.

(** ** Opening of a stream *)

Record Server := { credentialsAuthorizer : bool }.     (* not nil *)

Definition reject (code : status_code) : sprog stage := Return (Ended (EndStatus code)).

(** The certificate of the stream, checked when an authorizer is configured. *)
Definition authorize_credential (s : Server) (peer : option ConnectionState) (agentID : string) : sprog (option (bytes * string)) :=
  if credentialsAuthorizer s then
    match verifiedAgentCredential peer agentID with
    | None => Return None
    | Some (fingerprint, serial) =>
        let* ok := SAuthorizeAgentCredential agentID fingerprint serial in Return (if (ok : bool) then Some (fingerprint, serial) else None)
    end
  else Return (Some (zero_fingerprint, EmptyString)).

(** After the registration: authorize once more, greet, start receiving, tell the observer. *)
Definition establish (s : Server) (agentID : string) (fingerprint : bytes) (serial : string) : sprog stage :=
  let- authorized := (if credentialsAuthorizer s then let* ok := SAuthorizeAgentCredential agentID fingerprint serial in Return ok else Return true) in
  if negb (authorized : bool) then
    let* removed := STerminateSession in
    let- _u := (if (removed : bool) then let* _u := SCancel in Return tt else Return tt) in reject Unauthenticated
  else
    let* now := SNow in
    let* sentAt := SNow in
    let* serverTime := SNow in
    let* sent := SSendHelloAck (MkServerMessage ("hello-ack-" +:+ Itoa (UnixNano now)) (Some sentAt) (hello_ack serverTime)) in
    if negb (sent : bool) then Return (Close EndTransport)
    else
      let* at_ := SNow in
      let* _u := SSubmit (SubmitHello (UTC at_)) in
      let* _r := SReceive in
      let* info := SSnapshot in
      match info with
      | Some info => let* _o := SObserve (HConnected (si_AgentID info) (si_ActiveCommands info)) in serve
      | None => serve
      end.

(** From the first message on. *)
Definition greet (s : Server) (agentID : string) (fingerprint : bytes) (serial : string) : sprog stage :=
  let* first := SRecv in
  match first with
  | Some (AgentHello hello) =>
      if empty_string (hello_AgentId hello) then reject InvalidArgument
      else if negb (bool_decide (agentID = hello_AgentId hello)) then reject PermissionDenied
      else if negb (bool_decide (hello_ProtocolVersion hello = ProtocolVersion)) then reject FailedPrecondition
      else
        let* registered := SRegister (hello_Capabilities hello) (hello_ActiveCommands hello) fingerprint serial in
        match registered with
        | Err ErrDuplicateSession => reject AlreadyExists
        | Err _ => reject Internal
        | Ok _ => establish s agentID fingerprint serial
        end
  | _ => reject InvalidArgument
  end.

Definition Connect (s : Server) (peer : option ConnectionState) : sprog stage :=
  match verifiedAgentID peer with
  | None => reject Unauthenticated
  | Some agentID =>
      let- credential := authorize_credential s peer agentID in
      match credential with
      | None => reject Unauthenticated
      | Some (fingerprint, serial) => greet s agentID fingerprint serial
      end
  end.
End server.
