(* ===== verification/AgentSessions.v ===== *)
(** * Control planes with their agent streams

    The processes of a control plane step by step: the dispatcher's workers, one
    [Connect] per stream with its receiving goroutine, and the removal of
    sessions by the host and enrollment services.  All share the registry
    ([SessionRegistry]) of their control plane and, with the other control
    planes, the database ([CommandDelivery]).  Calls of the dispatcher on agent
    sessions are operations of the registry here.

    [pl_accepted], [st_delivered], [st_lost] and [w_wire] record history: the
    messages that entered a queue, that a stream sent, that a stream failed to
    send, and everything that was sent to agents.  A control plane that crashes
    loses all its sessions; what it sent stays sent. *)

From S2P Require Import Prelude Programs GoText JobModel JobRepository CommandPhases CommandSlots CommandLifecycle CommandWorld CommandDelivery SessionRegistry AgentServer.

Open Scope Z_scope.
Open Scope update_scope.
Open Scope prog_scope.

(** ** Calls of the dispatcher on sessions *)

Inductive delivery :=
  | DDispatch (agentID : string) (envelope : CommandEnvelope)
  | DStart (agentID : string) (start : CommandStart)
  | DReplayStart (agentID : string) (start : CommandStart)
  | DCancelPrepared (agentID commandID reason : string)
  | DCancelExecution (agentID commandID : string) (token : bytes) (revision : Z) (reason : string)
  (* not by the dispatcher: answers of streams and acknowledgements of discovery reports *)
  | DEnqueue (agentID : string) (m : ServerMessage).

(** Whether the caller's context is over, and the two readings of the clock. *)
Record circumstance := { context_over : bool; clock : time; clock' : time }.

Definition deliver `{AgentCodec} (d : delivery) (x : circumstance) (r : Registry) : reply * Registry :=
  match d with
  | DDispatch agentID e => Dispatch (context_over x) (clock x) agentID e r
  | DStart agentID s => Start (context_over x) (clock x) (clock' x) agentID s r
  | DReplayStart agentID s => ReplayStart (context_over x) (clock x) agentID s r
  | DCancelPrepared agentID id reason => CancelPrepared (context_over x) agentID id reason r
  | DCancelExecution agentID id token revision reason => CancelExecution (context_over x) agentID id token revision reason r
  | DEnqueue agentID m => enqueue agentID m r
  end.

Definition delivery_agent (d : delivery) : string :=
  match d with DDispatch a _ | DStart a _ | DReplayStart a _ | DCancelPrepared a _ _ | DCancelExecution a _ _ _ _ | DEnqueue a _ => a end.

Definition delivery_message (d : delivery) : ServerMessage :=
  match d with
  | DDispatch _ e => command_message e
  | DStart _ s | DReplayStart _ s => start_message s
  | DCancelPrepared _ id reason => server_message id (ServerCommandCancellation {| x_CommandId := id; x_Reason := reason; x_ExecutionToken := []; x_LeaseRevision := 0 |})
  | DCancelExecution _ id token revision reason =>
      server_message id (ServerCommandCancellation {| x_CommandId := id; x_Reason := reason; x_ExecutionToken := token; x_LeaseRevision := revision |})
  | DEnqueue _ m => m
  end.

Definition delivery_of {A} (c : call A) : option delivery :=
  match c with
  | CDispatch agentID e => Some (DDispatch agentID e)
  | CStart agentID s => Some (DStart agentID s)
  | CReplayStart agentID s => Some (DReplayStart agentID s)
  | CCancelPrepared agentID id reason => Some (DCancelPrepared agentID id reason)
  | CCancelExecution agentID id token revision reason => Some (DCancelExecution agentID id token revision reason)
  | _ => None
  end.

Definition to_outcome (r : reply) : outcome unit := match r with Ok _ => Ok tt | Err _ => Err ErrExternal end.

(** The dispatcher sees the registry's reply. *)
Definition replied {A} (c : call A) (b : A) (r : reply) : Prop :=
  match c in call A return A -> Prop with
  | CDispatch _ _ | CStart _ _ | CReplayStart _ _ | CCancelPrepared _ _ _ | CCancelExecution _ _ _ _ _ => fun b => b = to_outcome r
  | _ => fun _ => True
  end b.

(** ** Streams and control planes *)

(** What the streams and workers of a control plane share. *)
Record shared := MkShared { registry : Registry; secrets : memory; accepted : list (nat * ServerMessage) }.
#[global] Instance shared_eta : Eta shared := fun x => MkShared (registry x) (secrets x) (accepted x).

Section planes.
Context {database : JobDatabase} {codec : ResultCodec} {surroundings : Surroundings} {agents : AgentCodec}.

(** A delivery; [accepted] notes the message when it enters a queue. *)
Definition delivers (d : delivery) (x : circumstance) (sh : shared) (rep : reply) (sh' : shared) : Prop :=
  rep = fst (deliver d x (registry sh)) /\
  sh' = sh <| registry := snd (deliver d x (registry sh)) |>
           <| accepted := accepted sh ++ match rep, sessions (registry sh) !! delivery_agent d with Ok _, Some a => [(a, delivery_message d)] | _, _ => [] end |>.

(** A call of the dispatcher on the sessions of its control plane. *)
Definition on_sessions {A} (c : call A) (sh : shared) (b : A) (sh' : shared) : Prop :=
  match delivery_of c with
  | Some d => exists x rep, delivers d x sh rep sh' /\ replied c b rep
  | None => sh' = sh
  end.

(** What the receiving goroutine hands to the loop. *)
Inductive item := ItemMessage (m : AgentMessage) | ItemError (e : stream_end).
Inductive receiver := NotReceiving | Receiving | Offering (i : item) | ReceiverDone.

Inductive activity :=
  | Working (p : sprog stage)
  | Observing {A : Type} (h : handler A) (q : prog A) (k : A -> sprog stage)      (* a method of the observer runs *)
  | Sending (m : ServerMessage)                                                    (* taken from the queue *)
  | Cancelling (e : stream_end) | Unregistering (e : stream_end)                   (* the deferred calls *)
  | Finished (e : stream_end).

Record stream := MkStream {
  st_peer : option ConnectionState; st_session : option nat; st_activity : activity; st_receiver : receiver; st_received : option item;
  st_delivered : list ServerMessage; st_lost : option ServerMessage;
}.
#[global] Instance stream_eta : Eta stream := fun s => MkStream (st_peer s) (st_session s) (st_activity s) (st_receiver s) (st_received s) (st_delivered s) (st_lost s).

(** [agentID] of [Connect] *)
Definition stream_agent (st : stream) : string := default EmptyString (verifiedAgentID (st_peer st)).

Record plane := MkPlane {
  pl_server : Server; pl_lifecycle : CommandLifecycle; pl_shared : shared; pl_streams : list stream; pl_workers : list process; pl_cancelling : list nat;
}.
#[global] Instance plane_eta : Eta plane := fun p => MkPlane (pl_server p) (pl_lifecycle p) (pl_shared p) (pl_streams p) (pl_workers p) (pl_cancelling p).

(** *** Calls of streams *)

(** Issued secrets are fresh arrays. *)
Definition issues (secret : option slice) (mem mem' : memory) : Prop :=
  match secret with
  | None => mem' = mem
  | Some x => exists b, mem' = mem ++ [b] /\ base x = length mem /\ len x = length b
  end.

(** A call by a stream: its reply, and what it does to the stream, to the shared state, and to the wire. *)
Definition performs {A} (c : stream_call A) (st : stream) (sh : shared) (b : A) (st' : stream) (sh' : shared) (sent_now : list ServerMessage) : Prop :=
  match c in stream_call A return A -> Prop with
  | SNow | SAuthorizeAgentCredential _ _ _ | SRecv | SSubmit _ | SIssueArtifact _ => fun _ => st' = st /\ sh' = sh /\ sent_now = []
  | SRegister capabilities active fingerprint serial => fun b =>
      let '(res, r') := registerCredential (stream_agent st) capabilities active fingerprint serial (registry sh) in
      sh' = sh <| registry := r' |> /\ sent_now = [] /\
      match res with Ok a => b = Ok tt /\ st' = st <| st_session := Some a |> | Err e => b = Err e /\ st' = st end
  | STerminateSession => fun b =>
      match st_session st with
      | Some a =>
          let '(removed, r', mem') := terminateSession (stream_agent st) a (registry sh) (secrets sh) in
          b = negb (null removed) /\ st' = st /\ sh' = sh <| registry := r' |> <| secrets := mem' |> /\ sent_now = []
      | None => b = false /\ st' = st /\ sh' = sh /\ sent_now = []
      end
  | SCancel => fun _ => st' = st /\ sent_now = [] /\ sh' = match st_session st with Some a => sh <| registry ::= cancel_session a |> | None => sh end
  | SSendHelloAck ack => fun b => st' = st /\ sh' = sh /\ (b = false /\ sent_now = [] \/ sent_now = [ack])
  | SReceive => fun _ => st' = st <| st_receiver := Receiving |> /\ sh' = sh /\ sent_now = []
  | SSnapshot => fun b => b = (st_session st ≫= fun a => snapshot (stream_agent st) a (registry sh)) /\ st' = st /\ sh' = sh /\ sent_now = []
  | SSession => fun b => b = Session (stream_agent st) (registry sh) /\ st' = st /\ sh' = sh /\ sent_now = []
  | SSupports required => fun b => b = Supports (stream_agent st) required (registry sh) /\ st' = st /\ sh' = sh /\ sent_now = []
  | SObserve _ => fun _ => False
  | SEnqueue m => fun b => st' = st /\ sent_now = [] /\ exists x, delivers (DEnqueue (stream_agent st) m) x sh b sh'
  | SIssueCredential _ _ => fun b =>
      st' = st /\ sent_now = [] /\
      exists mem', issues (match fst b with Some r => payload_secret (ServerCredentialLease r) | None => None end) (secrets sh) mem' /\ sh' = sh <| secrets := mem' |>
  | SIssueTemplate _ _ => fun b =>
      st' = st /\ sent_now = [] /\
      exists mem', issues (match fst b with Some r => payload_secret (ServerMetricTemplateLease r) | None => None end) (secrets sh) mem' /\ sh' = sh <| secrets := mem' |>
  | SClear p => fun _ => st' = st /\ sent_now = [] /\ sh' = sh <| secrets ::= clear_message (server_message EmptyString p) |>
  end b.

(** [recordHeartbeat], at the time [at_]: [None] when the heartbeat is of another agent. *)
Definition recordHeartbeat (agentID : string) (hb : HeartbeatMessage) (at_ : time) (r : Registry) : option Registry :=
  if negb (bool_decide (agentID = hb_AgentId hb)) then None else Some (renew agentID (hb_ActiveCommands hb) (UTC at_) r).

(** *** Steps of a stream by itself *)

Definition doing (st : stream) (p : sprog stage) : stream := st <| st_activity := Working p |>.

Inductive stream_step : stream -> shared -> stream -> shared -> list ServerMessage -> Prop :=
  | stream_calls st sh A (c : stream_call A) k b st' sh' sent_now : st_activity st = Working (Call c k) -> performs c st sh b st' sh' sent_now ->
      stream_step st sh (doing st' (k b)) sh' sent_now
  (* the loop: [select] *)
  | stream_takes st sh a s m q : st_activity st = Working (Return Serve) -> st_session st = Some a -> heap (registry sh) !! a = Some s -> ss_send s = m :: q ->
      stream_step st sh (st <| st_activity := Sending m |>) (sh <| registry ::= update_session a (fun s => s <| ss_send := q |>) |>) []
  | stream_sends st sh m at_ : st_activity st = Sending m ->
      stream_step st sh (doing (st <| st_delivered ::= fun l => l ++ [m] |>) (Return Serve)) (sh <| secrets ::= clear_message m |>)
        [MkServerMessage (MessageId m) (Some at_) (Payload m)]
  (* a failed send may still have reached the agent *)
  | stream_fails st sh m at_ sent_now : st_activity st = Sending m -> sent_now = [] \/ sent_now = [MkServerMessage (MessageId m) (Some at_) (Payload m)] ->
      stream_step st sh (st <| st_activity := Cancelling EndTransport |> <| st_lost := Some m |>) (sh <| secrets ::= clear_message m |>) sent_now
  | stream_handles st sh m : st_activity st = Working (Return Serve) -> st_received st = Some (ItemMessage m) ->
      stream_step st sh (doing (st <| st_received := None |>) (handleAgentMessage (stream_agent st) m)) sh []
  | stream_ends st sh e : st_activity st = Working (Return Serve) -> st_received st = Some (ItemError e) ->
      stream_step st sh (st <| st_received := None |> <| st_activity := Cancelling e |>) sh []
  | stream_cancelled st sh : st_activity st = Working (Return Serve) -> stream_step st sh (st <| st_activity := Cancelling EndContext |>) sh []
  (* the way out *)
  | stream_closes st sh e : st_activity st = Working (Return (Close e)) -> stream_step st sh (st <| st_activity := Cancelling e |>) sh []
  | stream_returns st sh e : st_activity st = Working (Return (Ended e)) -> stream_step st sh (st <| st_activity := Finished e |>) sh []
  | stream_cancels st sh e : st_activity st = Cancelling e ->
      stream_step st sh (st <| st_activity := Unregistering e |>) (match st_session st with Some a => sh <| registry ::= cancel_session a |> | None => sh end) []
  | stream_unregisters st sh e : st_activity st = Unregistering e ->
      stream_step st sh (st <| st_activity := Finished e |>)
        (match st_session st with
         | Some a => let '(r', mem') := unregister (stream_agent st) a (registry sh) (secrets sh) in sh <| registry := r' |> <| secrets := mem' |>
         | None => sh
         end) []
  (* the receiving goroutine *)
  | stream_receives st sh m at_ : st_receiver st = Receiving ->
      stream_step st sh
        (match m with
         | AgentHeartbeat hb => if recordHeartbeat (stream_agent st) hb at_ (registry sh) then st <| st_receiver := Offering (ItemMessage m) |>
                                else st <| st_receiver := Offering (ItemError (EndStatus PermissionDenied)) |>
         | _ => st <| st_receiver := Offering (ItemMessage m) |>
         end)
        (match m with
         | AgentHeartbeat hb => match recordHeartbeat (stream_agent st) hb at_ (registry sh) with Some r' => sh <| registry := r' |> | None => sh end
         | _ => sh
         end) []
  | stream_receive_fails st sh e : st_receiver st = Receiving -> stream_step st sh (st <| st_receiver := Offering (ItemError e) |>) sh []
  | stream_offers st sh i : st_receiver st = Offering i -> st_received st = None ->
      stream_step st sh (st <| st_received := Some i |> <| st_receiver := match i with ItemMessage _ => Receiving | ItemError _ => ReceiverDone end |>) sh []
  | stream_receiver_stops st sh i : st_receiver st = Offering i -> stream_step st sh (st <| st_receiver := ReceiverDone |>) sh [].

(** *** Steps of a control plane *)

Definition new_stream (server : Server) (peer : option ConnectionState) : stream :=
  {| st_peer := peer; st_session := None; st_activity := Working (Connect server peer); st_receiver := NotReceiving; st_received := None; st_delivered := []; st_lost := None |}.

Abbreviation wire_log := (list (string * ServerMessage)).

(** A step on the tables [t]: the messages handed to sessions and sent to agents, and the plane after it. *)
Inductive plane_step : tables -> plane -> tables -> list sent -> wire_log -> plane -> Prop :=
  (* handlers of the dispatcher and of the job API *)
  | plane_starts t pl A (h : handler A) : plane_step t pl t [] [] (pl <| pl_workers ::= fun l => l ++ [Process A h (handle (pl_lifecycle pl) h)] |>)
  | plane_calls t pl before after A (h : handler A) B (c : call B) k b t' sh' : pl_workers pl = before ++ Process A h (Call c k) :: after ->
      table_step c t b t' -> on_sessions c (pl_shared pl) b sh' ->
      plane_step t pl t' (emits c) [] (pl <| pl_workers := before ++ Process A h (k b) :: after |> <| pl_shared := sh' |>)
  | plane_ends t pl before after p : pl_workers pl = before ++ p :: after -> plane_step t pl t [] [] (pl <| pl_workers := before ++ after |>)
  (* streams *)
  | plane_accepts t pl peer : plane_step t pl t [] [] (pl <| pl_streams ::= fun l => l ++ [new_stream (pl_server pl) peer] |>)
  | plane_stream t pl i st st' sh' sent_now : pl_streams pl !! i = Some st -> stream_step st (pl_shared pl) st' sh' sent_now ->
      plane_step t pl t [] (pair (stream_agent st) <$> sent_now) (pl <| pl_streams ::= <[i := st']> |> <| pl_shared := sh' |>)
  | plane_observes t pl i st A (h : handler A) k : pl_streams pl !! i = Some st -> st_activity st = Working (Call (SObserve h) k) ->
      plane_step t pl t [] [] (pl <| pl_streams ::= <[i := st <| st_activity := Observing h (handle (pl_lifecycle pl) h) k |>]> |>)
  | plane_observer_calls t pl i st A (h : handler A) B (c : call B) k' k b t' sh' : pl_streams pl !! i = Some st -> st_activity st = Observing h (Call c k') k ->
      table_step c t b t' -> on_sessions c (pl_shared pl) b sh' ->
      plane_step t pl t' (emits c) [] (pl <| pl_streams ::= <[i := st <| st_activity := Observing h (k' b) k |>]> |> <| pl_shared := sh' |>)
  | plane_observed t pl i st A (h : handler A) a k : pl_streams pl !! i = Some st -> st_activity st = Observing h (Return a) k ->
      plane_step t pl t [] [] (pl <| pl_streams ::= <[i := doing st (k a)]> |>)
  (* other services *)
  | plane_terminates t pl agentID a r' mem' : Terminate agentID (registry (pl_shared pl)) (secrets (pl_shared pl)) = (Some a, r', mem') ->
      plane_step t pl t [] [] (pl <| pl_shared ::= fun sh => sh <| registry := r' |> <| secrets := mem' |> |> <| pl_cancelling ::= fun l => l ++ [a] |>)
  | plane_terminates_credential t pl agentID fingerprint serial a r' mem' :
      TerminateCredential agentID fingerprint serial (registry (pl_shared pl)) (secrets (pl_shared pl)) = (Some a, r', mem') ->
      plane_step t pl t [] [] (pl <| pl_shared ::= fun sh => sh <| registry := r' |> <| secrets := mem' |> |> <| pl_cancelling ::= fun l => l ++ [a] |>)
  | plane_cancels t pl before a after : pl_cancelling pl = before ++ a :: after ->
      plane_step t pl t [] [] (pl <| pl_shared ::= fun sh => sh <| registry ::= cancel_session a |> |> <| pl_cancelling := before ++ after |>)
  | plane_acknowledges_discovery t pl agentID ack x rep sh' : delivers (DEnqueue agentID (discovery_message ack)) x (pl_shared pl) rep sh' ->
      plane_step t pl t [] [] (pl <| pl_shared := sh' |>).

(** ** Worlds: control planes on one database *)

Record world := World { w_db : tables; w_handed : list sent; w_wire : wire_log; w_planes : list plane }.

Definition fresh_plane (server : Server) (lifecycle : CommandLifecycle) (capacity : Z) : plane :=
  {| pl_server := server; pl_lifecycle := lifecycle; pl_shared := MkShared (NewRegistry capacity) [] []; pl_streams := []; pl_workers := []; pl_cancelling := [] |}.

Inductive world_step : world -> world -> Prop :=
  | world_boots t out wire ps server lifecycle capacity : world_step (World t out wire ps) (World t out wire (ps ++ [fresh_plane server lifecycle capacity]))
  | world_plane t out wire before pl after t' out' wire' pl' : plane_step t pl t' out' wire' pl' ->
      world_step (World t out wire (before ++ pl :: after)) (World t' (out ++ out') (wire ++ wire') (before ++ pl' :: after))
  | world_crashes t out wire before pl after : world_step (World t out wire (before ++ pl :: after)) (World t out wire (before ++ after)).

Definition initial_world : world := World (Tables ∅ ∅ ∅) [] [] [].
Definition reachable_world (w : world) : Prop := rtc world_step initial_world w.

(** ** The dispatchers inside a world *)

Definition observers (st : stream) : list process := match st_activity st with Observing h q _ => [Process _ h q] | _ => [] end.
Definition plane_processes (pl : plane) : list process := pl_workers pl ++ (pl_streams pl ≫= observers).
Definition dispatchers (w : world) : system := System (w_db w) (w_handed w) (w_planes w ≫= plane_processes).
End planes.
