(* ===== verification/SessionSteps.v ===== *)
(** * Steps of sessions and of the dispatchers

    Two views of the steps of a control plane ([AgentSessions]).  The dispatchers
    of a world take the steps of a system of [CommandDelivery]
    ([dispatchers_reachable]).  And the registry, whatever operation runs, treats
    every session in one of few ways ([shared_step]): it adds messages to its
    queue, opens or renews leases, or removes it and clears its secrets. *)

From S2P Require Import Prelude Programs GoText JobModel JobRepository CommandPhases CommandSlots CommandLifecycle CommandWorld CommandDelivery SessionRegistry AgentServer AgentSessions.

Open Scope Z_scope.
Open Scope update_scope.
Open Scope prog_scope.

Section worlds.
Context {database : JobDatabase} {codec : ResultCodec} {surroundings : Surroundings} {agents : AgentCodec}.

(** ** The dispatchers of a world form a system *)

Lemma stream_step_observers st sh st' sh' sent_now : stream_step st sh st' sh' sent_now -> observers st' = observers st.
Proof.
  unfold observers. destruct 1 as [st sh A c k b st' sh' sent_now Ha _|st sh a s m q Ha _ _ _|st sh m at_ Ha|st sh m at_ sent_now Ha _|st sh m Ha _|st sh e Ha _|st sh Ha
    |st sh e Ha|st sh e Ha|st sh e Ha|st sh e Ha|st sh m at_ _|st sh e _|st sh i _ _|st sh i _]; cbn; rewrite ?Ha; try done.
  destruct m; try done. by destruct (recordHeartbeat _ _ _ _).
Qed.

Lemma insert_bind {A B} (f : A -> list B) (l : list A) i x y : l !! i = Some x ->
  l ≫= f = (take i l ≫= f) ++ f x ++ (drop (S i) l ≫= f) /\ <[i := y]> l ≫= f = (take i l ≫= f) ++ f y ++ (drop (S i) l ≫= f).
Proof.
  intros Hi. split.
  - rewrite <- (take_drop_middle _ _ _ Hi) at 1. by rewrite bind_app, bind_cons.
  - rewrite insert_take_drop by (by eapply lookup_lt_Some). by rewrite bind_app, bind_cons.
Qed.

(** The observer of stream [i] among the processes. *)
Lemma observer_among (workers before after : list process) streams i st : streams !! i = Some st ->
  exists l r, forall st', before ++ (workers ++ (<[i := st']> streams ≫= observers)) ++ after = l ++ observers st' ++ r.
Proof.
  intros Hi. exists (before ++ workers ++ (take i streams ≫= observers)), ((drop (S i) streams ≫= observers) ++ after). intros st'.
  destruct (insert_bind observers _ _ _ st' Hi) as [_ ->]. by rewrite <- !app_assoc.
Qed.

Ltac at_observer Hi Ha :=
  match goal with
  | |- rtc _ (System _ _ (?before ++ (?workers ++ (?streams ≫= observers)) ++ ?after)) _ =>
      let Hx := fresh in let Hl := fresh in
      destruct (observer_among workers before after _ _ _ Hi) as (? & ? & Hx); rewrite Hx;
      match type of Hi with _ = Some ?st => pose proof (Hx st) as Hl end;
      rewrite list_insert_id in Hl by exact Hi; rewrite Hl; clear Hx Hl; unfold observers; cbn; rewrite ?Ha; cbn
  end.

(** A step of a control plane is at most one step of its dispatchers. *)
Lemma plane_simulates t pl t' out' wire' pl' : plane_step t pl t' out' wire' pl' -> forall out before after,
  rtc system_step (System t out (before ++ plane_processes pl ++ after)) (System t' (out ++ out') (before ++ plane_processes pl' ++ after)).
Proof.
  intros Hst out B0 A0. unfold plane_processes.
  destruct Hst as [t pl A h|t pl before after A h B c k b t' sh' Hw Hc _|t pl before after p Hw|t pl peer|t pl i st st' sh' sent_now Hi Hs|t pl i st A h k Hi Ha
    |t pl i st A h B c k' k b t' sh' Hi Ha Hc _|t pl i st A h a k Hi Ha|t pl agentID a r' mem' _|t pl agentID fp serial a r' mem' _|t pl before a after Hw|t pl agentID ack x rep sh' _];
    cbn [pl_workers pl_streams set_field]; cbn; rewrite ?app_nil_r; try apply rtc_refl.
  - rewrite <- !app_assoc. apply rtc_once. rewrite !(assoc_L app B0 (pl_workers pl)). cbn. apply step_start.
  - rewrite Hw. apply rtc_once. rewrite <- !app_assoc. cbn. rewrite !(assoc_L app B0 before). by constructor.
  - rewrite Hw. apply rtc_once. rewrite <- !app_assoc. cbn. rewrite !(assoc_L app B0 before). by constructor.
  - rewrite bind_app. cbn. rewrite app_nil_r. apply rtc_refl.
  - destruct (insert_bind observers _ _ _ st' Hi) as [-> ->]. rewrite (stream_step_observers _ _ _ _ _ Hs). apply rtc_refl.
  - at_observer Hi Ha. apply rtc_once, step_start.
  - at_observer Hi Ha. by apply rtc_once, step_call.
  - at_observer Hi Ha. apply rtc_once, step_crash.
Qed.

Lemma crash_all t out before l after : rtc system_step (System t out (before ++ l ++ after)) (System t out (before ++ after)).
Proof. induction l as [|p l IH]; [done|]. eapply rtc_l; [apply step_crash|exact IH]. Qed.

Lemma world_simulates w w' : world_step w w' -> rtc system_step (dispatchers w) (dispatchers w').
Proof.
  unfold dispatchers. destruct 1 as [t out wire ps server lifecycle capacity|t out wire before pl after t' out' wire' pl' Hp|t out wire before pl after]; cbn.
  - rewrite bind_app. cbn. by rewrite app_nil_r.
  - rewrite !bind_app, !bind_cons. by eapply plane_simulates.
  - rewrite !bind_app, bind_cons. apply crash_all.
Qed.

Lemma worlds_simulate w w' : rtc world_step w w' -> rtc system_step (dispatchers w) (dispatchers w').
Proof. induction 1 as [|w w1 w' H1 _ IH]; [done|]. etrans; [by apply world_simulates|done]. Qed.

Lemma dispatchers_reachable w : reachable_world w -> reachable_system (dispatchers w).
Proof. apply worlds_simulate. Qed.

(** ** Deliveries *)

(** What an accepted delivery does to the session. *)
Definition effect (d : delivery) (x : circumstance) (s : session) : session :=
  match d with
  | DStart _ start => open_lease start (clock' x) (push (start_message start) s)
  | DReplayStart _ start => open_lease start (clock x) (push (start_message start) s)
  | _ => push (delivery_message d) s
  end.

Definition admissible (d : delivery) : Prop :=
  match d with
  | DStart _ start | DReplayStart _ start => ValidateStartShape start = true
  | DCancelExecution _ _ token _ _ => length token = sha256_Size
  | _ => True
  end.

(** A delivery is accepted into the queue of the agent's live session, or changes nothing. *)
Definition delivered_or_not (d : delivery) (x : circumstance) (r : Registry) (rep : reply) (r' : Registry) : Prop :=
  match rep with
  | Ok _ => exists a s, liveSession (delivery_agent d) r = Some (a, s) /\ has_room r s = true /\ r' = update_session a (effect d x) r /\ admissible d
  | Err _ => r' = r
  end.

Lemma deliver_spec d x r : delivered_or_not d x r (fst (deliver d x r)) (snd (deliver d x r)).
Proof.
  unfold delivered_or_not. destruct d as [agentID e|agentID start|agentID start|agentID id reason|agentID id token revision reason|agentID m]; cbn [deliver].
  - unfold Dispatch. repeat (case_goal; try done); cbn; eauto 10.
  - unfold Start, ValidateStart, enqueueStart. repeat (case_goal; try done); cbn; subst. bool_simpl. eauto 10.
  - unfold ReplayStart, enqueueStart. repeat (case_goal; try done); cbn; subst. bool_simpl. eauto 10.
  - unfold CancelPrepared, send_cancellation, enqueueCancellation. repeat (case_goal; try done); cbn; eauto 10.
  - unfold CancelExecution, send_cancellation, enqueueCancellation. repeat (case_goal; try done); cbn; subst. bool_simpl. exists n, s. split_and!; [done..|]. by apply Nat.eqb_eq.
  - unfold enqueue. repeat (case_goal; try done); cbn; eauto 10.
Qed.

(** ** Steps of the shared state *)

(** Messages that entered the queue of a session. *)
Definition entries (a : nat) (log : list (nat * ServerMessage)) : list ServerMessage := snd <$> filter (fun e => fst e = a) log.
#[global] Arguments entries : simpl never.

Definition identity (s : session) := (ss_sessionID s, ss_agentID s, ss_credentialLeaf s, ss_credentialSerial s).
Definition fences (s : session) := (ss_executionTokens s, ss_leaseRevisions s, ss_leaseDurations s).

(** What others may do to a session: add messages with property [P] to its queue and to the record of accepted messages, open
    leases for starts with that property, or remove it, which clears the secrets in its queue. *)
Record session_step (P : string -> ServerMessage -> Prop) (sh sh' : shared) (a : nat) (s s' : session) : Prop := {
  kept_identity : identity s' = identity s;
  kept_order : exists new, Forall (P (ss_agentID s)) new /\ entries a (accepted sh') = entries a (accepted sh) ++ new /\
    (live (registry sh') a s' -> live (registry sh) a s /\ ss_send s' = ss_send s ++ new);
  kept_fences : fences s' = fences s \/
    exists start now, P (ss_agentID s) (start_message start) /\ ValidateStartShape start = true /\ fences s' = fences (open_lease start now s);
  kept_secrets m x : m ∈ ss_send s -> payload_secret (Payload m) = Some x -> covers (secrets sh) x -> m ∈ ss_send s' \/ clean (secrets sh') (base x);
}.

Record shared_step (P : string -> ServerMessage -> Prop) (sh sh' : shared) : Prop := {
  step_ok : registry_ok (registry sh) -> registry_ok (registry sh');
  step_capacity : queueCapacity (registry sh') = queueCapacity (registry sh);
  step_heap : length (heap (registry sh')) = length (heap (registry sh));
  step_session a s : heap (registry sh) !! a = Some s -> exists s', heap (registry sh') !! a = Some s' /\ session_step P sh sh' a s s';
  step_clean i : clean (secrets sh) i -> clean (secrets sh') i;
  step_covers x : covers (secrets sh) x -> covers (secrets sh') x;
  step_log : Forall (fun e => (fst e < length (heap (registry sh)))%nat) (accepted sh) -> Forall (fun e => (fst e < length (heap (registry sh)))%nat) (accepted sh');
}.

Lemma session_step_refl P sh sh' a s : accepted sh' = accepted sh -> (live (registry sh') a s -> live (registry sh) a s) -> session_step P sh sh' a s s.
Proof.
  intros Hl Hv. split; [done| |by left|by left]. exists []. rewrite Hl, !app_nil_r. split_and!; [done..|]. auto.
Qed.

Lemma shared_step_refl P sh : shared_step P sh sh.
Proof. split; auto. intros a s Hs. exists s. split; [done|]. by apply session_step_refl. Qed.

(** An update of one session that keeps its identity and its queue. *)
Lemma update_shared_step P sh a f : (forall s, identity (f s) = identity s /\ ss_send (f s) = ss_send s /\ fences (f s) = fences s) ->
  shared_step P sh (sh <| registry ::= update_session a f |>).
Proof.
  intros Hf. split; auto; cbn.
  - intros Hok. apply update_session_ok; [done|]. intros s Hs. destruct (Hf s) as ([= _ -> _ _] & -> & _). split_and!; [done|by eapply reg_bound|by eapply reg_drained].
  - apply length_alter.
  - intros b s Hs. pose proof (update_session_lookup (registry sh) a f b) as Hl. cbn in Hl. rewrite Hl, Hs. case_decide; [|exists s; split; [done|by apply session_step_refl]].
    subst b. exists (f s). split; [done|]. destruct (Hf s) as (Hi & Hq & Hx). split; [done| |by left|].
    + exists []. rewrite !app_nil_r. split_and!; [done..|]. injection Hi as _ E _ _. unfold live. cbn. by rewrite E, Hq.
    + rewrite Hq. by left.
Qed.

Lemma cancel_shared_step P sh a : shared_step P sh (sh <| registry ::= cancel_session a |>).
Proof. by apply update_shared_step. Qed.

Lemma renew_command_keeps at_ s c : identity (renew_command at_ s c) = identity s /\ ss_send (renew_command at_ s c) = ss_send s /\ fences (renew_command at_ s c) = fences s.
Proof. unfold renew_command. cbv zeta. repeat case_goal; done. Qed.

Lemma renew_commands_keep at_ l : forall s, identity (fold_left (renew_command at_) l s) = identity s /\ ss_send (fold_left (renew_command at_) l s) = ss_send s /\
  fences (fold_left (renew_command at_) l s) = fences s.
Proof.
  induction l as [|c l IH]; intros s; [done|]. cbn. destruct (IH (renew_command at_ s c)) as (-> & -> & ->). apply renew_command_keeps.
Qed.

Lemma renew_shared_step P sh agentID active at_ : shared_step P sh (sh <| registry := renew agentID active at_ (registry sh) |>).
Proof.
  unfold renew. destruct (liveSession agentID (registry sh)) as [[a s]|]; [|destruct sh; apply shared_step_refl].
  apply (update_shared_step P sh a (fun s => fold_left (renew_command at_) active (s <| ss_lastHeartbeat := at_ |>))).
  intros s'. destruct (renew_commands_keep at_ active (s' <| ss_lastHeartbeat := at_ |>)) as (-> & -> & ->). done.
Qed.

Lemma wipe_shared_step P sh x : shared_step P sh (sh <| secrets ::= wipe x |>).
Proof.
  split; auto; cbn.
  - intros a s Hs. exists s. split; [done|]. by apply session_step_refl.
  - intros i. apply wipe_keeps_clean.
  - intros y. apply wipe_covers.
Qed.

Lemma clear_is_wipe m sh : sh <| secrets ::= clear_message m |> = sh <| secrets ::= wipe (payload_secret (Payload m)) |>.
Proof. destruct sh as [r mem log]. exact (f_equal (fun mem => MkShared r mem log) (clear_message_wipe m mem)). Qed.

(** *** Deliveries *)

Lemma entries_app a log log' : entries a (log ++ log') = entries a log ++ entries a log'.
Proof. unfold entries. by rewrite filter_app, fmap_app. Qed.
Lemma entries_one a b m : entries a [(b, m)] = if decide (b = a) then [m] else [].
Proof. unfold entries. rewrite filter_cons. cbn. by case_decide. Qed.

Lemma effect_identity d x s : identity (effect d x s) = identity s.
Proof. by destruct d. Qed.
Lemma effect_send d x s : ss_send (effect d x s) = ss_send s ++ [delivery_message d].
Proof. by destruct d. Qed.

Lemma delivers_shared_step (P : string -> ServerMessage -> Prop) d x sh rep sh' : registry_ok (registry sh) -> (admissible d -> P (delivery_agent d) (delivery_message d)) ->
  delivers d x sh rep sh' -> shared_step P sh sh'.
Proof.
  intros Hok HP [-> ->]. pose proof (deliver_spec d x (registry sh)) as Hd. destruct (deliver d x (registry sh)) as [rep r']. cbn [fst snd] in *.
  destruct rep as [u|e]; cbn in Hd; [|subst r'; rewrite app_nil_r; destruct sh; apply shared_step_refl].
  destruct Hd as (a & s & Hl & Hroom & -> & Hadm). pose proof (liveSession_agent _ _ _ _ Hok Hl) as [Hid Hlive]. pose proof Hl as [Hm Hs]%liveSession_Some. rewrite Hm.
  split; auto; cbn.
  - intros _. apply update_session_ok; [done|]. intros s' Hs'. rewrite Hs' in Hs. injection Hs as ->. rewrite effect_send. pose proof (effect_identity d x s) as [= _ -> _ _]. split_and!; [done| |done].
    unfold has_room in Hroom. apply Nat.ltb_lt in Hroom. rewrite length_app. cbn. lia.
  - apply length_alter.
  - intros b s' Hs'. pose proof (update_session_lookup (registry sh) a (effect d x) b) as Hx. cbn in Hx. rewrite Hx, Hs'. case_decide as Hab; [subst b; rewrite Hs' in Hs; injection Hs as ->|].
    + eexists. split; [done|]. pose proof (effect_identity d x s) as He. split; [done| | |].
      * exists [delivery_message d]. cbn. rewrite entries_app, entries_one, decide_True by done. split_and!; [rewrite Hid; auto|done|]. rewrite effect_send. done.
      * destruct d; cbn; try (by left); right; exists start, (clock x); (split; [rewrite Hid; by apply HP|]); (split; [done|reflexivity]).
      * rewrite effect_send. intros m y Hin _ _. left. apply elem_of_app. by left.
    + exists s'. split; [done|]. split; [done| |by left|by left]. exists []. cbn. rewrite entries_app, entries_one, decide_False by done. rewrite !app_nil_r. done.
  - intros Hlog. apply Forall_app. split; [done|]. constructor; [|constructor]. by eapply lookup_lt_Some.
Qed.

(** *** Removal *)

Lemma clear_messages_covers l : forall mem x, covers mem x -> covers (clear_messages l mem) x.
Proof. induction l as [|m l IH]; intros mem x Hc; [done|]. cbn. rewrite clear_message_wipe. by apply IH, wipe_covers. Qed.

(** Clearing reaches every secret of the queue whose slice covers its array. *)
Lemma clear_messages_clean l : forall mem m x, m ∈ l -> payload_secret (Payload m) = Some x -> covers mem x -> clean (clear_messages l mem) (base x).
Proof.
  induction l as [|m' l IH]; intros mem m x Hin Hx Hc; [by apply not_elem_of_nil in Hin|]. cbn. rewrite clear_message_wipe.
  apply elem_of_cons in Hin as [->|Hin]; [rewrite Hx; by apply clear_messages_keeps_clean, wipe_clean|].
  eapply IH; [done..|]. by apply wipe_covers.
Qed.

Lemma remove_shared_step P agentID a s sh : registry_ok (registry sh) -> liveSession agentID (registry sh) = Some (a, s) ->
  shared_step P sh (sh <| registry := fst (remove_session agentID a s (registry sh) (secrets sh)) |> <| secrets := snd (remove_session agentID a s (registry sh) (secrets sh)) |>).
Proof.
  intros Hok Hl. pose proof (liveSession_agent _ _ _ _ Hok Hl) as [Hid Hlive]. pose proof Hl as [Hm Hs]%liveSession_Some. split; auto; cbn [registry secrets accepted set_field].
  - intros _. by apply (remove_session_ok agentID a s (registry sh) (secrets sh)).
  - apply length_alter.
  - intros b s' Hs'. pose proof (update_session_lookup (registry sh <| sessions ::= delete agentID |>) a (fun s => s <| ss_send := [] |>) b) as Hx. cbn in Hx. cbn. rewrite Hx, Hs'.
    case_decide as Hab; [subst b; rewrite Hs' in Hs; injection Hs as ->|].
    + eexists. split; [done|]. split; [done| |by left|].
      * exists []. rewrite app_nil_r. split_and!; [done..|]. unfold live. cbn. rewrite Hid, lookup_delete_eq. done.
      * cbn. intros m x Hin Hx' Hc. right. by eapply clear_messages_clean.
    + exists s'. split; [done|]. apply session_step_refl; [done|]. unfold live. cbn. intros [_ Hv]%lookup_delete_Some. done.
  - intros i. apply clear_messages_keeps_clean.
  - intros x. apply clear_messages_covers.
Qed.

Lemma remove_if_shared_step P test agentID sh : registry_ok (registry sh) ->
  shared_step P sh (let '(_, r', mem') := remove_if test agentID (registry sh) (secrets sh) in sh <| registry := r' |> <| secrets := mem' |>).
Proof.
  intros Hok. unfold remove_if. destruct (liveSession agentID (registry sh)) as [[a s]|] eqn:E; [|destruct sh; apply shared_step_refl].
  destruct (test a s); [|destruct sh; apply shared_step_refl]. by apply (remove_shared_step P agentID a s).
Qed.
End worlds.
