(* ===== verification/SessionLogic.v ===== *)
(** * A logic for streams

    Programs of streams ([AgentServer]) are checked by a small logic ([proper]):
    which messages they may queue for their agent, and whether they let go of
    every secret they hold.  Over it, the invariant of a control plane
    ([plane_ok]): what is in its queues and in the hands of its streams, in which
    order messages travel, where leases come from, and who holds a secret; it is
    kept by every step of [AgentSessions]. *)

From S2P Require Import Prelude Programs GoText JobModel JobRepository CommandPhases CommandSlots CommandLifecycle CommandWorld CommandDelivery SessionRegistry AgentServer AgentSessions SessionSteps.

Open Scope Z_scope.
Open Scope update_scope.
Open Scope prog_scope.

(** ** Answers to results, by the form of the program *)

(** Whatever its calls reply, a program returns only values with a property. *)
Fixpoint returns {A} (P : A -> Prop) (p : prog A) : Prop := match p with Return a => P a | Call c k => forall b, returns P (k b) end.

Lemma returns_bind {A B} (P : B -> Prop) (p : prog A) (f : A -> prog B) : (forall a, returns P (f a)) -> returns P (prog_bind f p).
Proof. intros Hf. induction p as [a|C c k IH]; cbn; [apply Hf|exact IH]. Qed.

Ltac returns_step :=
  match goal with
  | |- returns _ (prog_bind _ _) => apply returns_bind; intros ?
  | |- returns _ (Call _ _) => intros ?
  | |- returns _ (match ?x with _ => _ end) => destruct x
  | |- returns _ (let _ := _ in _) => cbv zeta
  | |- returns _ (Return (match ?x with _ => _ end)) => destruct x
  end.

Section worlds.
Context {database : JobDatabase} {codec : ResultCodec} {surroundings : Surroundings} {agents : AgentCodec}.

(** An answer without an error is about the result, and is one of two. *)
Definition answer_form (r : CommandResult) (a : answer) : Prop :=
  snd a = None -> rp_CommandID (fst a) = r_CommandId r /\ rp_ResultDigest (fst a) = resultDigest r /\
    (rp_Persisted (fst a) = true \/ rp_Persisted (fst a) = false /\ rp_ReasonCode (fst a) = "RESULT_CONFLICT"%string).

Lemma unpersisted_form r e : answer_form r (unpersisted r e).
Proof. intros [=]. Qed.
Lemma persisted_form r : answer_form r (persisted r).
Proof. intros _. cbn. auto. Qed.

Lemma Result_form lifecycle agentID r : returns (answer_form r) (Result lifecycle agentID r).
Proof.
  unfold Result, classifyResult, persistResult, settleResult, interruptedAgain, resultConflict.
  repeat first [exact (unpersisted_form r _) | exact (persisted_form r) | returns_step]; first [by intros [=] | by (intros _; cbn; auto)].
Qed.

Definition form {A} (h : handler A) : A -> Prop := match h in handler A return A -> Prop with HResult _ r => answer_form r | _ => fun _ => True end.

Lemma returns_any {A} (p : prog A) : returns (fun _ => True) p.
Proof. induction p as [|B c k IH]; cbn; auto. Qed.

Lemma handle_form lifecycle {A} (h : handler A) : returns (form h) (handle lifecycle h).
Proof. destruct h; cbn [form handle]; try apply returns_any. apply Result_form. Qed.

(** ** Messages *)

(** The message of a dispatcher that a payload carries. *)
Definition sent_of (agentID : string) (p : server_payload) : option sent :=
  match p with
  | ServerCommand e => Some (SentEnvelope agentID e)
  | ServerCommandStart s => Some (SentStart agentID s)
  | ServerCommandCancellation c =>
      Some (match x_ExecutionToken c with [] => SentCancelPrepared agentID (x_CommandId c) | _ => SentCancelExecution agentID (x_CommandId c) (x_ExecutionToken c) (x_LeaseRevision c) end)
  | _ => None
  end.

Definition digest_stored (agentID id : string) (digest : bytes) (t : tables) : Prop :=
  exists row, outbox t !! id = Some row /\ o_TargetID (message row) = agentID /\ o_TerminalResultDigest (message row) = digest.

(** An acknowledgement that the agent accepts and that is true. *)
Definition acknowledged (agentID : string) (a : CommandResultAcknowledgement) (t : tables) : Prop :=
  ValidateResultAcknowledgement a = true /\
  (validates (ra_CommandId a) t \/
   (ra_Persisted a = true -> digest_stored agentID (ra_CommandId a) (ra_ResultDigest a) t) /\
   (ra_Persisted a = false -> ra_Retryable a = false -> command_ended agentID (ra_CommandId a) t)).

Definition fit (out : list sent) (t : tables) (agentID : string) (m : ServerMessage) : Prop :=
  (forall e, sent_of agentID (Payload m) = Some e -> e ∈ out) /\ (forall a, Payload m = ServerResultAcknowledgement a -> acknowledged agentID a t).

Lemma digest_stored_stable agentID id digest : digest <> [] -> stable (digest_stored agentID id digest).
Proof.
  intros Hd t t' Hok Hl (row & H1 & H2 & H3). destruct (row_later _ _ _ _ Hok Hl H1) as (row' & H4 & _ & Ha). exists row'.
  rewrite (advances_target _ _ Ha), (adv_result _ _ Ha); [done|congruence].
Qed.

Lemma acknowledged_stable agentID a : stable (acknowledged agentID a).
Proof.
  intros t t' Hok Hl [Hv [Hx|[H1 H2]]]; (split; [done|]); [left; by apply (validates_stable _ t)|]. right. split.
  - intros Hp. apply (digest_stored_stable _ _ _) with t; auto. intros He. unfold ValidateResultAcknowledgement in Hv. rewrite He in Hv. bool_simpl. done.
  - intros Hp Hr. apply (command_ended_stable _ _ t); auto.
Qed.

Lemma fit_later out out' t t' agentID m : tables_ok t -> later t t' -> fit out t agentID m -> fit (out ++ out') t' agentID m.
Proof.
  intros Hok Hl [H1 H2]. split; [intros e He; apply elem_of_app; left; by apply H1|]. intros a Ha. by apply (acknowledged_stable _ _ t), H2.
Qed.

(** ** The logic of streams *)

(** The certificate of a stream, as [Connect] registers it. *)
Definition trusted (server : Server) (peer : option ConnectionState) (fingerprint : bytes) (serial : string) : Prop :=
  exists agentID, verifiedAgentID peer = Some agentID /\
    if credentialsAuthorizer server then verifiedAgentCredential peer agentID = Some (fingerprint, serial) else fingerprint = zero_fingerprint /\ serial = EmptyString.

(** Messages that streams may queue for their agent: no commands, and true acknowledgements. *)
Definition fair (agentID : string) (m : ServerMessage) (t : tables) : Prop :=
  sent_of agentID (Payload m) = None /\ forall a, Payload m = ServerResultAcknowledgement a -> acknowledged agentID a t.

Lemma fair_later agentID m t t' : tables_ok t -> later t t' -> fair agentID m t -> fair agentID m t'.
Proof. intros Hok Hl [H1 H2]. split; [done|]. intros a Ha. by apply (acknowledged_stable _ _ t), H2. Qed.

Definition peer_agent (peer : option ConnectionState) : string := default EmptyString (verifiedAgentID peer).

Section logic.
Context (server : Server) (peer : option ConnectionState).

(** [held] is the secret the program has to pass on or to clear; [registered] whether it has a session. *)
Definition call_pre {A} (c : stream_call A) (held : option slice) (registered : bool) (t : tables) : Prop :=
  match c with
  | SRegister _ _ fingerprint serial => trusted server peer fingerprint serial /\ registered = false
  | SEnqueue m => payload_secret (Payload m) = held /\ fair (peer_agent peer) m t
  | SSendHelloAck ack => fair (peer_agent peer) ack t
  | SIssueCredential _ _ | SIssueTemplate _ _ => held = None
  | SClear p => payload_secret p = held
  | _ => True
  end.

Definition call_post {A} (c : stream_call A) (b : A) (held : option slice) (registered : bool) (t : tables) (held' : option slice) (registered' : bool) : Prop :=
  match c in stream_call A return A -> Prop with
  | SRegister _ _ _ _ => fun b => held' = held /\ registered' = match b with Ok _ => true | Err _ => registered end
  | SEnqueue _ => fun b => held' = match b with Ok _ => None | Err _ => held end /\ registered' = registered
  | SIssueCredential _ _ => fun b => held' = match fst b with Some r => payload_secret (ServerCredentialLease r) | None => None end /\ registered' = registered
  | SIssueTemplate _ _ => fun b => held' = match fst b with Some r => payload_secret (ServerMetricTemplateLease r) | None => None end /\ registered' = registered
  | SClear _ => fun _ => held' = None /\ registered' = registered
  | SObserve h => fun b => held' = held /\ registered' = registered /\ form h b /\ post h b t
  | _ => fun _ => held' = held /\ registered' = registered
  end b.

Fixpoint proper (held : option slice) (registered : bool) (p : sprog stage) (t : tables) : Prop :=
  match p with
  | Return _ => held = None
  | Call c k => call_pre c held registered t /\
      forall t' b held' registered', later t t' -> call_post c b held registered t' held' registered' -> proper held' registered' (k b) t'
  end.

Lemma call_pre_later {A} (c : stream_call A) held registered t t' : tables_ok t -> later t t' -> call_pre c held registered t -> call_pre c held registered t'.
Proof.
  intros Hok Hl. destruct c; try done; [intros Hf; by eapply fair_later|]. intros [H1 Hf]. split; [done|]. by eapply fair_later.
Qed.

Lemma proper_later held registered p t t' : tables_ok t -> later t t' -> proper held registered p t -> proper held registered p t'.
Proof.
  intros Hok Hl. destruct p as [|A c k]; cbn; [done|]. intros [Hb Hk]. split; [by apply (call_pre_later c _ _ t)|]. intros t2 b held' registered' Hl2. apply Hk. by eapply later_trans.
Qed.

(** A call of a program. *)
Ltac proper_call := split; [try exact I|let Hl := fresh "Hl" in intros ?t ?b ?held ?registered Hl; cbn [call_post]].
Ltac proper_auto :=
  repeat first
    [ reflexivity
    | match goal with |- proper _ _ (match ?x with _ => _ end) _ => destruct x eqn:?; try done end
    | match goal with |- proper (match ?x with Ok _ => _ | Err _ => _ end) _ _ _ => destruct x end
    | match goal with |- proper _ _ (prog_bind _ (match ?x with _ => _ end)) _ => destruct x; cbn [prog_bind] end
    | match goal with |- proper _ _ (let _ := _ in _) _ => cbv zeta end
    | proper_call; [done|intros (-> & -> & _)]
    | proper_call; [done|intros (-> & ->)]
    | proper_call; [by (split; [done|]; split)|intros (-> & ->)]
    | proper_call; [by split|intros (-> & ->)]
    | proper_call; intros (-> & -> & _)
    | proper_call; intros (-> & ->) ].

Lemma handleCredentialRequest_proper q t reg : proper None reg (handleCredentialRequest q) t.
Proof. unfold handleCredentialRequest. proper_auto. Qed.

Lemma handleTemplateRequest_proper q t reg : proper None reg (handleTemplateRequest q) t.
Proof. unfold handleTemplateRequest. proper_auto. Qed.

Lemma handleDiscoveryReport_proper report t reg : proper None reg (handleDiscoveryReport (peer_agent peer) report) t.
Proof. unfold handleDiscoveryReport, rejectDiscoveryReport. proper_auto. Qed.

(** The acknowledgement of a result is true, and the agent accepts it. *)
Lemma result_acknowledgement_true r a ack t : ValidateResult r = true -> form (HResult (peer_agent peer) r) a -> post (HResult (peer_agent peer) r) a t ->
  result_acknowledgement r a = Some ack -> acknowledged (peer_agent peer) ack t.
Proof.
  intros Hv Hf Ht. unfold ValidateResult, validExecutionFence in Hv. bool_simpl. pose proof (sha256_length (MarshalResult r)) as Hlen. unfold result_acknowledgement, resultDigest in *.
  cbn in Hf, Ht. unfold answer_form, resultDigest in Hf. destruct a as [p [e|]]; cbn [fst snd] in *.
  - cbn. rewrite bool_decide_true, bool_decide_true, Hlen by done. cbn. intros [= <-]. split; [unfold ValidateResultAcknowledgement; cbn; by rewrite H, Hlen|]. by right.
  - destruct (Hf eq_refl) as (-> & -> & Hx). set (D := sha256 (MarshalResult r)) in *.
    rewrite !bool_decide_true, !Hlen by done. cbn [negb]. rewrite Nat.eqb_refl. cbn [andb]. rewrite andb_true_r. intros [= <-]. split.
    + unfold ValidateResultAcknowledgement. cbn. rewrite H, Hlen. destruct Hx as [->|[-> ->]]; done.
    + cbn. destruct Ht as [Hval|(H1' & H2' & _)]; [by left|]. right. split; [exact H1'|]. intros Hn _. destruct Hx as [Hx|[_ Hx]]; [congruence|]. by apply H2'.
Qed.

Lemma handleResult_proper r t reg : proper None reg (handleResult (peer_agent peer) r) t.
Proof.
  unfold handleResult, answer_with. destruct (negb (ValidateResult r)) eqn:Hv; [done|]. apply negb_false_iff in Hv. split; [done|]. intros t1 a held registered Hl (-> & -> & Hf & Hp).
  destruct (result_acknowledgement r a) as [ack|] eqn:E; [|done]. split.
  - split; [done|]. split; [done|]. intros ack' [= <-]. by eapply result_acknowledgement_true.
  - intros t2 b held registered Hl2 (-> & ->). by destruct b.
Qed.

Lemma handle_proper m t reg : proper None reg (handleAgentMessage (peer_agent peer) m) t.
Proof.
  destruct m; cbn [handleAgentMessage]; try (proper_auto; fail); [apply handleResult_proper|apply handleDiscoveryReport_proper| |apply handleCredentialRequest_proper
    |apply handleTemplateRequest_proper]. unfold handleArtifactRequest, answer_with. proper_auto.
Qed.

Lemma establish_proper id fp serial t : proper None true (establish server id fp serial) t.
Proof. unfold establish. destruct (credentialsAuthorizer server); cbn [prog_bind]; proper_auto. Qed.

Lemma greet_proper id fp serial t : trusted server peer fp serial -> proper None false (greet server id fp serial) t.
Proof.
  intros Ht. unfold greet. split; [done|]. intros t2 first held registered Hl2 (-> & ->). destruct first as [[]|]; try done. repeat (case_goal; try done). split; [done|].
  intros t3 b held registered Hl3 (-> & ->). destruct b as [u|[]]; try done. apply establish_proper.
Qed.

Lemma Connect_proper t : proper None false (Connect server peer) t.
Proof.
  unfold Connect, authorize_credential. destruct (verifiedAgentID peer) as [id|] eqn:E; [|done]. destruct (credentialsAuthorizer server) eqn:Ea.
  - destruct (verifiedAgentCredential peer id) as [[fp serial]|] eqn:Ec; [|done]. split; [done|]. intros t1 ok held registered Hl (-> & ->). destruct ok; [|done].
    apply greet_proper. exists id. by rewrite Ea.
  - apply greet_proper. exists id. by rewrite Ea.
Qed.
End logic.

(** ** Invariants *)

(** The messages a stream has taken from the queue of its session. *)
Definition hand (st : stream) : list ServerMessage := match st_activity st with Sending m => [m] | _ => [] end.
Definition past (st : stream) : list ServerMessage := st_delivered st ++ hand st ++ option_list (st_lost st).
#[local] Arguments past : simpl never.
Definition closing (st : stream) : Prop := match st_activity st with Cancelling _ | Unregistering _ | Finished _ => True | _ => False end.

Section streams.
Context (server : Server).
Implicit Types (st : stream) (sh : shared) (out : list sent) (t : tables) (pl : plane).

Definition registered (st : stream) : bool := negb (null (st_session st)).

Definition activity_ok out t st : Prop :=
  match st_activity st with
  | Working p => exists held, proper server (st_peer st) held (registered st) p t
  | Observing h q k => returns (form h) q /\
      exists held, forall t' a, later t t' -> form h a -> post h a t' -> proper server (st_peer st) held (registered st) (k a) t'
  | Sending m => fit out t (stream_agent st) m
  | _ => True
  end.

Record stream_ok out t sh st : Prop := {
  so_session a : st_session st = Some a -> exists s, heap (registry sh) !! a = Some s /\ ss_agentID s = stream_agent st /\
    trusted server (st_peer st) (ss_credentialLeaf s) (ss_credentialSerial s) /\
    past st `prefix_of` entries a (accepted sh) /\ (live (registry sh) a s -> entries a (accepted sh) = past st ++ ss_send s);
  so_fresh : st_session st = None -> past st = [];
  so_lost : st_lost st <> None -> closing st;
  so_activity : activity_ok out t st;
}.

(** Leases are those of starts that were handed over for the session's agent. *)
Definition leases_ok out (s : session) : Prop := forall id token, ss_executionTokens s !! id = Some token ->
  exists start, SentStart (ss_agentID s) start ∈ out /\ ValidateStartShape start = true /\ s_CommandId start = id /\ s_ExecutionToken start = token /\
    ss_leaseRevisions s !! id = Some (s_LeaseRevision start) /\ ss_leaseDurations s !! id = Some (s_LeaseSeconds start * second).

Record shared_ok out t sh : Prop := {
  sh_registry : registry_ok (registry sh);
  sh_queues a s : heap (registry sh) !! a = Some s -> Forall (fit out t (ss_agentID s)) (ss_send s);
  sh_leases a s : heap (registry sh) !! a = Some s -> leases_ok out s;
  sh_log : Forall (fun e => (fst e < length (heap (registry sh)))%nat) (accepted sh);
}.

(** A secret in the hands of a stream, or in a queue. *)
Definition holds t st (x : slice) : Prop :=
  match st_activity st with
  | Working p => proper server (st_peer st) (Some x) (registered st) p t
  | Observing h q k => returns (form h) q /\ forall t' a, later t t' -> form h a -> post h a t' -> proper server (st_peer st) (Some x) (registered st) (k a) t'
  | Sending m => payload_secret (Payload m) = Some x
  | _ => False
  end.
Definition queued sh (x : slice) : Prop := exists a s m, heap (registry sh) !! a = Some s /\ m ∈ ss_send s /\ payload_secret (Payload m) = Some x.

Definition secrets_ok t sh (streams : list stream) : Prop := forall i, ~ clean (secrets sh) i ->
  exists x, base x = i /\ covers (secrets sh) x /\ (queued sh x \/ exists j st, streams !! j = Some st /\ holds t st x).

(** No two streams have the same session. *)
Definition distinct (streams : list stream) : Prop :=
  forall i j st st' a, streams !! i = Some st -> streams !! j = Some st' -> st_session st = Some a -> st_session st' = Some a -> i = j.

(** Every session was opened by a stream. *)
Definition owned sh (streams : list stream) : Prop := forall a, (a < length (heap (registry sh)))%nat -> exists i st, streams !! i = Some st /\ st_session st = Some a.

Record plane_ok out t sh (streams : list stream) : Prop := {
  po_shared : shared_ok out t sh;
  po_streams i st : streams !! i = Some st -> stream_ok out t sh st;
  po_distinct : distinct streams;
  po_owned : owned sh streams;
  po_secrets : secrets_ok t sh streams;
}.

(** *** Under steps of others *)

Lemma session_before sh sh' P a s' : shared_step P sh sh' -> heap (registry sh') !! a = Some s' ->
  exists s, heap (registry sh) !! a = Some s /\ session_step P sh sh' a s s'.
Proof.
  intros Hst Hs'. pose proof (lookup_lt_Some _ _ _ Hs') as Hlt. rewrite (step_heap _ _ _ Hst) in Hlt. apply lookup_lt_is_Some in Hlt as [s Hs].
  destruct (step_session _ _ _ Hst _ _ Hs) as (s2 & H1 & H2). rewrite Hs' in H1. injection H1 as <-. eauto.
Qed.

Lemma leases_ok_more out out' s : leases_ok out s -> leases_ok (out ++ out') s.
Proof. intros Hl id tok Ht. destruct (Hl _ _ Ht) as (start & Hin & Hx). exists start. split; [apply elem_of_app; by left|done]. Qed.

Lemma leases_ok_fences out s s' : ss_agentID s' = ss_agentID s -> fences s' = fences s -> leases_ok out s -> leases_ok out s'.
Proof. intros He [= H1 H2 H3] Hl id tok. unfold leases_ok in Hl. rewrite H1, H2, H3, He. apply Hl. Qed.

Lemma open_lease_ok out start now s : SentStart (ss_agentID s) start ∈ out -> ValidateStartShape start = true -> leases_ok out s -> leases_ok out (open_lease start now s).
Proof.
  intros Hin Hv Hl id tok Ht. cbn in *. apply lookup_insert_Some in Ht as [[<- <-]|[Hne Ht]].
  - exists start. rewrite !lookup_insert_eq. split_and!; done.
  - rewrite !lookup_insert_ne by done. by apply Hl.
Qed.

Lemma shared_ok_step out out' t t' sh sh' : tables_ok t -> later t t' -> shared_step (fit (out ++ out') t') sh sh' -> shared_ok out t sh -> shared_ok (out ++ out') t' sh'.
Proof.
  intros Hok Hl Hst [Hr Hq Hle Hlog]. pose proof (step_ok _ _ _ Hst Hr) as Hr'. split; [done| | |rewrite (step_heap _ _ _ Hst); by apply (step_log _ _ _ Hst)].
  - intros a s' Hs'. destruct (session_before _ _ _ _ _ Hst Hs') as (s & Hs & [Hi (new & Hn & _ & Hlive) _ _]). injection Hi as _ Hid _ _.
    destruct (decide (live (registry sh') a s')) as [Hv|Hv]; [|by rewrite (reg_drained _ Hr' _ _ Hs' Hv)].
    destruct (Hlive Hv) as [_ ->]. rewrite Hid. apply Forall_app. split; [|done]. eapply Forall_impl; [by apply (Hq a)|]. intros m. by apply fit_later.
  - intros a s' Hs'. destruct (session_before _ _ _ _ _ Hst Hs') as (s & Hs & [Hi _ Hf _]). injection Hi as _ Hid _ _.
    pose proof (leases_ok_more out out' s (Hle _ _ Hs)) as Hls. destruct Hf as [Hf|(start & now & Hp & Hv & Hf)]; [by eapply leases_ok_fences|].
    eapply (leases_ok_fences _ (open_lease start now s)); [done..|]. apply open_lease_ok; [|done..]. by apply Hp.
Qed.

Lemma activity_ok_later out out' t t' st : tables_ok t -> later t t' -> activity_ok out t st -> activity_ok (out ++ out') t' st.
Proof.
  intros Hok Hl. unfold activity_ok. destruct (st_activity st) as [p|A h q k|m|e|e|e]; try done.
  - intros (held & Hp). exists held. by apply (proper_later _ _ _ _ _ t).
  - intros (Hr & held & Hk). split; [done|]. exists held. intros t2 a Hl2. apply Hk. by eapply later_trans.
  - by apply fit_later.
Qed.

Lemma stream_ok_step P out out' t t' sh sh' st : tables_ok t -> later t t' -> shared_step P sh sh' -> stream_ok out t sh st -> stream_ok (out ++ out') t' sh' st.
Proof.
  intros Hok Hl Hst [Hs Hf Hlost Ha]. split; [|done..|by apply (activity_ok_later out out' t)].
  intros a Hsa. destruct (Hs _ Hsa) as (s & Hh & Hid & Htr & Hpre & Heq). destruct (step_session _ _ _ Hst _ _ Hh) as (s' & Hh' & [Hi (new & _ & Hlog & Hlive) _ _]).
  injection Hi as _ E1 E2 E3. exists s'. rewrite E1, E2, E3, Hlog. split_and!; [done..| |].
  - by apply prefix_app_r.
  - intros Hv. destruct (Hlive Hv) as [Hv' ->]. by rewrite (Heq Hv'), <- app_assoc.
Qed.

Lemma holds_later t t' st x : tables_ok t -> later t t' -> holds t st x -> holds t' st x.
Proof.
  intros Hok Hl. unfold holds. destruct (st_activity st) as [p|A h q k|m|e|e|e]; try done; [by apply proper_later|].
  intros [Hr Hk]. split; [done|]. intros t2 a Hl2. apply Hk. by eapply later_trans.
Qed.

Lemma queued_step P sh sh' x : shared_step P sh sh' -> covers (secrets sh) x -> queued sh x -> queued sh' x \/ clean (secrets sh') (base x).
Proof.
  intros Hst Hc (a & s & m & Hs & Hin & Hx). destruct (step_session _ _ _ Hst _ _ Hs) as (s' & Hs' & [_ _ _ Hk]). destruct (Hk _ _ Hin Hx Hc); [|by right]. left. by exists a, s', m.
Qed.

Lemma clean_dec mem i : clean mem i \/ ~ clean mem i.
Proof.
  unfold clean. destruct (mem !! i) as [b|]; [|by left]. destruct (decide (Forall (eq 0) b)) as [Hd|Hd]; [left; by intros b' [= <-]|right; intros Hc; by apply Hd, Hc].
Qed.

Lemma distinct_insert streams i st st' : streams !! i = Some st -> st_session st' = st_session st -> distinct streams -> distinct (<[i := st']> streams).
Proof.
  intros Hi Hsame Hd j k sj sk a Hj Hk Hja Hka.
  assert (Hback : forall n sn, <[i := st']> streams !! n = Some sn -> st_session sn = Some a -> exists sn0, streams !! n = Some sn0 /\ st_session sn0 = Some a).
  { intros n sn Hn Hna. apply list_lookup_insert_Some in Hn as [(<- & <- & _)|[_ Hn]]; [exists st; by rewrite <- Hsame|eauto]. }
  destruct (Hback _ _ Hj Hja) as (? & ? & ?), (Hback _ _ Hk Hka) as (? & ? & ?). by eapply Hd.
Qed.

Lemma owned_insert sh sh' streams i st st' : streams !! i = Some st -> st_session st' = st_session st -> length (heap (registry sh')) = length (heap (registry sh)) ->
  owned sh streams -> owned sh' (<[i := st']> streams).
Proof.
  intros Hi Hsame Hlen Ho a Ha. rewrite Hlen in Ha. destruct (Ho _ Ha) as (j & sj & Hj & Hs). destruct (decide (i = j)) as [<-|Hne].
  - exists i, st'. rewrite Hi in Hj. injection Hj as <-. split; [apply list_lookup_insert_eq; by eapply lookup_lt_Some|congruence].
  - exists j, sj. by rewrite list_lookup_insert_ne.
Qed.

(** A step of the shared state in which one stream changes too; [i] is the stream that changes, if any. *)
Lemma plane_ok_step out out' t t' sh sh' streams i st st' : tables_ok t -> later t t' -> shared_step (fit (out ++ out') t') sh sh' -> plane_ok out t sh streams ->
  streams !! i = Some st -> st_session st' = st_session st -> stream_ok (out ++ out') t' sh' st' ->
  (forall x, covers (secrets sh) x -> holds t st x -> holds t' st' x \/ queued sh' x \/ clean (secrets sh') (base x)) ->
  plane_ok (out ++ out') t' sh' (<[i := st']> streams).
Proof.
  intros Hok Hl Hst [Hsh Hss Hd Ho Hsec] Hi Hsame Hst' Hmove. split.
  - by apply (shared_ok_step _ _ t _ sh).
  - intros j sj Hj. apply list_lookup_insert_Some in Hj as [(<- & <- & _)|[Hne Hj]]; [done|]. eapply stream_ok_step; [done..|]. by eapply Hss.
  - by eapply distinct_insert.
  - eapply owned_insert; [done..| |done]. apply (step_heap _ _ _ Hst).
  - intros n Hn. destruct (clean_dec (secrets sh) n) as [Hc|Hc]; [by apply (step_clean _ _ _ Hst) in Hc|]. destruct (Hsec _ Hc) as (x & <- & Hcov & Hown). exists x.
    split; [done|]. split; [by apply (step_covers _ _ _ Hst)|]. destruct Hown as [Hq|(j & sj & Hj & Hh)].
    + destruct (queued_step _ _ _ _ Hst Hcov Hq); [by left|done].
    + destruct (decide (i = j)) as [<-|Hne].
      * rewrite Hi in Hj. injection Hj as <-. destruct (Hmove _ Hcov Hh) as [Hh'|[Hq|Hcl]]; [|by left|done]. right. exists i, st'. split; [|done].
        apply list_lookup_insert_eq. by eapply lookup_lt_Some.
      * right. exists j, sj. rewrite list_lookup_insert_ne by done. split; [done|]. by apply (holds_later t).
Qed.

(** *** Steps of streams *)

Lemma stream_ok_change out t sh st st' : stream_ok out t sh st -> st_session st' = st_session st -> st_peer st' = st_peer st -> past st' = past st ->
  (st_lost st' <> None -> closing st') -> activity_ok out t st' -> stream_ok out t sh st'.
Proof.
  intros [Hs Hf _ _] Es Ep Eq Hl Ha. split; [|by rewrite Es, Eq|done..]. intros a Hsa. rewrite Es in Hsa. destruct (Hs _ Hsa) as (s & Hx). exists s. unfold stream_agent in *. by rewrite Ep, Eq.
Qed.

(** The usual step: the tables stay, the shared state takes a step, one stream goes on to another activity. *)
Lemma plane_ok_stream out t sh sh' streams i st st' : tables_ok t -> plane_ok out t sh streams -> streams !! i = Some st -> shared_step (fit out t) sh sh' ->
  st_session st' = st_session st -> st_peer st' = st_peer st -> past st' = past st -> (st_lost st' <> None -> closing st') -> activity_ok out t st' ->
  (forall x, covers (secrets sh) x -> holds t st x -> holds t st' x \/ queued sh' x \/ clean (secrets sh') (base x)) ->
  plane_ok out t sh' (<[i := st']> streams).
Proof.
  intros Hok Hpl Hi Hst Es Ep Eq Hl Ha Hm. rewrite <- (app_nil_r out). pose proof (later_refl _ Hok) as Hr. eapply plane_ok_step; try done; rewrite ?app_nil_r; [done|].
  eapply stream_ok_change; [|done..]. rewrite <- (app_nil_r out). eapply stream_ok_step; [done..|]. by eapply po_streams.
Qed.

Lemma open_lost out t sh st : stream_ok out t sh st -> ~ closing st -> st_lost st = None.
Proof. intros Hs Ha. destruct (st_lost st) eqn:E; [|done]. exfalso. apply Ha, (so_lost _ _ _ _ Hs). by rewrite E. Qed.
Lemma working_lost out t sh st p : stream_ok out t sh st -> st_activity st = Working p -> st_lost st = None.
Proof. intros Hs Ha. eapply open_lost; [exact Hs|]. unfold closing. rewrite Ha. intros []. Qed.

(** A call that keeps the session of its stream. *)
Lemma plane_ok_call out t sh sh' streams i st st' {A} (c : stream_call A) k b : tables_ok t -> plane_ok out t sh streams -> streams !! i = Some st ->
  st_activity st = Working (Call c k) -> shared_step (fit out t) sh sh' -> st_session st' = st_session st -> st_peer st' = st_peer st ->
  st_delivered st' = st_delivered st -> st_lost st' = st_lost st ->
  (forall held, call_pre server (st_peer st) c held (registered st) t -> exists held', call_post c b held (registered st) t held' (registered st) /\
    match held with Some x => covers (secrets sh) x -> held' = Some x \/ queued sh' x \/ clean (secrets sh') (base x) | None => True end) ->
  plane_ok out t sh' (<[i := doing st' (k b)]> streams).
Proof.
  intros Hok Hpl Hi Ha Hst Es Ep Ed El Hc. pose proof (po_streams _ _ _ _ Hpl _ _ Hi) as Hso. pose proof (later_refl _ Hok) as Hr.
  assert (Hreg : registered (doing st' (k b)) = registered st) by (unfold registered; cbn; by rewrite Es). eapply plane_ok_stream; try done.
  - unfold past, hand. cbn. by rewrite Ha, Ed, El.
  - cbn. rewrite El, (working_lost _ _ _ _ _ Hso Ha). done.
  - pose proof (so_activity _ _ _ _ Hso) as Hact. unfold activity_ok in *. rewrite Ha in Hact. destruct Hact as (held & Hpre & Hk). destruct (Hc held Hpre) as (held' & Hpost & _).
    cbn [doing st_activity set_field]. exists held'. rewrite Hreg. cbn. rewrite Ep. by apply (Hk t b).
  - intros x Hx Hh. unfold holds in Hh. rewrite Ha in Hh. destruct Hh as [Hpre Hk]. destruct (Hc (Some x) Hpre) as (held' & Hpost & Hmv). destruct (Hmv Hx) as [->|Hq]; [|by right].
    left. unfold holds. cbn [doing st_activity set_field]. cbn. rewrite Hreg, Ep. by apply (Hk t b).
Qed.

(** *** The calls and steps of other kinds: issued secrets, registration, taking a message *)

Lemma stream_ok_memory out t sh mem st : stream_ok out t sh st -> stream_ok out t (sh <| secrets := mem |>) st.
Proof. intros [H1 H2 H3 H4]. by split. Qed.

(** The program of a stream after a call. *)
Lemma working_next out t sh st {A} (c : stream_call A) k : stream_ok out t sh st -> st_activity st = Working (Call c k) -> tables_ok t ->
  exists held, call_pre server (st_peer st) c held (registered st) t /\
    forall b held' registered', call_post c b held (registered st) t held' registered' -> proper server (st_peer st) held' registered' (k b) t.
Proof.
  intros Hs Ha Hok. pose proof (so_activity _ _ _ _ Hs) as Hact. unfold activity_ok in Hact. rewrite Ha in Hact. destruct Hact as (held & Hp & Hk). exists held. split; [done|].
  intros b held' registered' Hx. apply (Hk t b); [by apply later_refl|done].
Qed.

Lemma plane_ok_issue out t sh streams i st {A} (c : stream_call A) k b secret mem' : tables_ok t -> plane_ok out t sh streams -> streams !! i = Some st ->
  st_activity st = Working (Call c k) -> (forall held reg, call_pre server (st_peer st) c held reg t -> held = None) ->
  call_post c b None (registered st) t secret (registered st) -> issues secret (secrets sh) mem' ->
  plane_ok out t (sh <| secrets := mem' |>) (<[i := doing st (k b)]> streams).
Proof.
  intros Hok Hpl Hi Ha Hpre Hpost Hiss. destruct (working_next _ _ _ _ c k (po_streams _ _ _ _ Hpl _ _ Hi) Ha Hok) as (held & Hp & Hk). pose proof (Hpre _ _ Hp) as ->.
  specialize (Hk b secret (registered st) Hpost). destruct Hpl as [Hsh Hss Hd Ho Hsec]. split.
  - destruct Hsh as [Q1 Q2 Q3 Q4]. by split.
  - intros j sj Hj. apply list_lookup_insert_Some in Hj as [(<- & <- & _)|[Hne Hj]]; [|by eapply stream_ok_memory, Hss]. eapply stream_ok_change; [by eapply stream_ok_memory, Hss|done..| | |].
    + unfold past, hand. cbn. by rewrite Ha.
    + cbn. by rewrite (working_lost _ _ _ _ _ (Hss _ _ Hi) Ha).
    + by exists secret.
  - by eapply distinct_insert.
  - by eapply owned_insert.
  - intros n Hn. cbn in Hn |- *. assert (Hold : (n < length (secrets sh))%nat -> ~ clean (secrets sh) n -> exists x, base x = n /\ covers (secrets sh) x /\
      (queued sh x \/ exists j sj, <[i := doing st (k b)]> streams !! j = Some sj /\ holds t sj x)).
    { intros Hlt Hn'. destruct (Hsec _ Hn') as (x & <- & Hcov & Hown). exists x. split_and!; [done..|]. destruct Hown as [Hq|(j & sj & Hj & Hh)]; [by left|right].
      destruct (decide (i = j)) as [<-|Hne]; [|exists j, sj; by rewrite list_lookup_insert_ne]. rewrite Hi in Hj. injection Hj as <-. unfold holds in Hh. rewrite Ha in Hh.
      destruct Hh as [Hh _]. by apply Hpre in Hh. }
    destruct secret as [x|]; cbn in Hiss; [|subst mem'; destruct (decide (n < length (secrets sh))%nat) as [Hlt|Hge]; [exact (Hold Hlt Hn)|]; exfalso; apply Hn; intros b' Hb'; by
      apply lookup_lt_Some in Hb'].
    destruct Hiss as (b0 & -> & Hb & Hlen). destruct (decide (n < length (secrets sh))%nat) as [Hlt|Hge].
    + destruct (Hold Hlt) as (y & Hy1 & Hy2 & Hy3). { intros Hc. apply Hn. intros b' Hb'. rewrite lookup_app_l in Hb' by done. by apply Hc. }
      exists y. split_and!; [done| |done]. intros b' Hb'. rewrite lookup_app_l in Hb' by lia. by apply Hy2.
    + assert (n = length (secrets sh)) as ->.
      { destruct (decide (n = length (secrets sh))); [done|]. exfalso. apply Hn. intros b' Hb'. apply lookup_lt_Some in Hb'. rewrite length_app in Hb'. cbn in Hb'. lia. }
      exists x. split_and!; [done| |].
      * intros b' Hb'. rewrite Hb, list_lookup_middle in Hb' by done. by injection Hb' as <-.
      * right. exists i, (doing st (k b)). split; [apply list_lookup_insert_eq; by eapply lookup_lt_Some|]. exact Hk.
Qed.

(** Sessions before a registration are the same after it. *)
Lemma register_keeps agentID capabilities active fp serial r a r' b s : registerCredential agentID capabilities active fp serial r = (Ok a, r') -> heap r !! b = Some s ->
  heap r' !! b = Some s /\ (live r' b s -> live r b s).
Proof.
  unfold registerCredential. intros Hr Hb. destruct (sessions r !! agentID) eqn:E; [done|]. injection Hr as <- <-. split; cbn; [by apply lookup_app_l_Some|].
  unfold live. cbn. rewrite lookup_insert_Some. intros [[_ <-]|[_ Hl]]; [|done]. apply lookup_lt_Some in Hb. lia.
Qed.

Lemma register_new agentID capabilities active fp serial r a r' : registerCredential agentID capabilities active fp serial r = (Ok a, r') ->
  a = length (heap r) /\ exists s, heap r' = heap r ++ [s] /\ ss_agentID s = agentID /\ ss_credentialLeaf s = fp /\ ss_credentialSerial s = serial /\ ss_send s = [] /\ ss_executionTokens s = ∅.
Proof. unfold registerCredential. destruct (sessions r !! agentID); [done|]. intros [= <- <-]. split; [done|]. eexists. cbn. split_and!; reflexivity. Qed.

Lemma entries_beyond a log (n : nat) : Forall (fun e => (fst e < n)%nat) log -> (n <= a)%nat -> entries a log = [].
Proof.
  intros Hl Ha. unfold entries. induction Hl as [|e log He _ IH]; [done|]. rewrite filter_cons, decide_False by lia. exact IH.
Qed.

Lemma plane_ok_register out t sh streams i st capabilities active fp serial k a r' : tables_ok t -> plane_ok out t sh streams -> streams !! i = Some st ->
  st_activity st = Working (Call (SRegister capabilities active fp serial) k) ->
  registerCredential (stream_agent st) capabilities active fp serial (registry sh) = (Ok a, r') ->
  plane_ok out t (sh <| registry := r' |>) (<[i := doing (st <| st_session := Some a |>) (k (Ok tt))]> streams).
Proof.
  intros Hok Hpl Hi Ha Hr. pose proof (po_streams _ _ _ _ Hpl _ _ Hi) as Hso. destruct (working_next _ _ _ _ _ k Hso Ha Hok) as (held & [Htr Hreg] & Hk).
  specialize (Hk (Ok tt) held true (conj eq_refl eq_refl)). assert (Hnone : st_session st = None) by (unfold registered in Hreg; by destruct (st_session st)).
  destruct (register_new _ _ _ _ _ _ _ _ Hr) as (-> & s & Hheap & Hs1 & Hs2 & Hs3 & Hs4 & Hs5). pose proof (fun b s => register_keeps _ _ _ _ _ _ _ _ b s Hr) as Hkeep.
  destruct Hpl as [[Q1 Q2 Q3 Q4] Hss Hd Ho Hsec]. set (st' := doing _ _). split.
  - split; cbn.
    + pose proof (registerCredential_ok (stream_agent st) capabilities active fp serial _ Q1) as Hx. by rewrite Hr in Hx.
    + rewrite Hheap. intros b sb [Hb|[_ Hb]]%lookup_app_Some; [by eapply Q2|]. apply list_lookup_singleton_Some in Hb as [_ <-]. by rewrite Hs4.
    + rewrite Hheap. intros b sb [Hb|[_ Hb]]%lookup_app_Some; [by eapply Q3|]. apply list_lookup_singleton_Some in Hb as [_ <-]. intros id tok. by rewrite Hs5, lookup_empty.
    + rewrite Hheap, length_app. cbn. eapply Forall_impl; [exact Q4|]. cbn. intros e He. lia.
  - intros j sj Hj. apply list_lookup_insert_Some in Hj as [(<- & <- & _)|[Hne Hj]].
    + assert (Hpast : past st' = []) by (pose proof (so_fresh _ _ _ _ Hso Hnone) as Hp; unfold past, hand in *; cbn; by rewrite Ha in Hp). split; [|done|..].
      * intros b [= <-]. exists s. cbn. rewrite Hheap, list_lookup_middle, Hs2, Hs3, Hs4, Hpast, (entries_beyond _ _ _ Q4) by done. split_and!; done.
      * cbn. by rewrite (working_lost _ _ _ _ _ Hso Ha).
      * by exists held.
    + destruct (Hss _ _ Hj) as [P1 P2 P3 P4]. split; [|done..]. intros b Hb. destruct (P1 _ Hb) as (sb & Hsb & R1 & R2 & R3 & R4). destruct (Hkeep _ _ Hsb) as [Hsb' Hlive].
      exists sb. split_and!; [done..|]. intros Hv. apply R4. by apply Hlive.
  - intros j n sj sn b Hj Hn Hjb Hnb.
    assert (Hold : forall m sm, streams !! m = Some sm -> st_session sm = Some b -> b <> length (heap (registry sh))).
    { intros m sm Hm Hmb ->. destruct (so_session _ _ _ _ (Hss _ _ Hm) _ Hmb) as (sb & Hx & _). apply lookup_lt_Some in Hx. lia. }
    apply list_lookup_insert_Some in Hj as [(<- & <- & _)|[Hnj Hj]]; apply list_lookup_insert_Some in Hn as [(<- & <- & _)|[Hnn Hn]]; [done|..].
    + injection Hjb as <-. by destruct (Hold _ _ Hn Hnb).
    + injection Hnb as <-. by destruct (Hold _ _ Hj Hjb).
    + by eapply Hd.
  - intros b Hb. cbn in Hb. rewrite Hheap, length_app in Hb. cbn in Hb. destruct (decide (b = length (heap (registry sh)))) as [->|Hne].
    + exists i, st'. split; [apply list_lookup_insert_eq; by eapply lookup_lt_Some|done].
    + destruct (Ho b ltac:(lia)) as (j & sj & Hj & Hsj). exists j, sj. split; [|done]. rewrite list_lookup_insert_ne; [done|]. intros <-. congruence.
  - intros n Hn. destruct (Hsec _ Hn) as (x & Hx & Hcov & Hown). exists x. split_and!; [done..|]. destruct Hown as [(b & sb & m & Hb & Hin & Hmx)|(j & sj & Hj & Hh)].
    + left. exists b, sb, m. split_and!; [|done..]. by apply Hkeep.
    + right. destruct (decide (i = j)) as [<-|Hne]; [|exists j, sj; by rewrite list_lookup_insert_ne]. rewrite Hi in Hj. injection Hj as <-. exists i, st'.
      split; [apply list_lookup_insert_eq; by eapply lookup_lt_Some|]. unfold holds in *. rewrite Ha in Hh. destruct Hh as [_ Hh].
      apply (Hh t (Ok tt) (Some x) true); [by apply later_refl|done].
Qed.

(** Taking a message from the own queue. *)
Lemma plane_ok_take out t sh streams i st a s m q : tables_ok t -> plane_ok out t sh streams -> streams !! i = Some st -> st_activity st = Working (Return Serve) ->
  st_session st = Some a -> heap (registry sh) !! a = Some s -> ss_send s = m :: q ->
  plane_ok out t (sh <| registry ::= update_session a (fun s => s <| ss_send := q |>) |>) (<[i := st <| st_activity := Sending m |>]> streams).
Proof.
  intros Hok [[Q1 Q2 Q3 Q4] Hss Hd Ho Hsec] Hi Ha Hsa Hs Hq. pose proof (Hss _ _ Hi) as Hso. set (f := fun s : session => s <| ss_send := q |>).
  assert (Hlive : live (registry sh) a s) by (destruct (decide (live (registry sh) a s)) as [|Hn]; [done|]; pose proof (reg_drained _ Q1 _ _ Hs Hn); congruence).
  assert (Hheap : forall b sb, heap (update_session a f (registry sh)) !! b = Some sb -> exists s0, heap (registry sh) !! b = Some s0 /\ ((b = a /\ sb = f s) \/ (b <> a /\ sb = s0))).
  { intros b sb. rewrite update_session_lookup. case_decide; [subst b; rewrite Hs; intros [= <-]; eauto|]. destruct (heap (registry sh) !! b); intros [= <-]; eauto. }
  destruct (so_session _ _ _ _ Hso _ Hsa) as (s0 & Hs0 & Hid & Htr & _ & Hent). rewrite Hs in Hs0. injection Hs0 as <-. specialize (Hent Hlive).
  pose proof (Q2 _ _ Hs) as Hfit. rewrite Hq in Hfit. apply Forall_cons in Hfit as [Hfm Hfq]. set (st' := st <| st_activity := Sending m |>). split.
  - split; cbn.
    + apply update_session_ok; [done|]. intros s1 Hs1. rewrite Hs in Hs1. injection Hs1 as <-. pose proof (reg_bound _ Q1 _ _ Hs) as Hb. rewrite Hq in Hb. cbn in Hb |- *. split_and!; [done|lia|done].
    + intros b sb (s1 & Hs1 & [(-> & ->)|(_ & ->)])%Hheap; [exact Hfq|by eapply Q2].
    + intros b sb (s1 & Hs1 & [(-> & ->)|(_ & ->)])%Hheap; [exact (Q3 _ _ Hs)|by eapply Q3].
    + by rewrite length_alter.
  - assert (Hin : heap (update_session a f (registry sh)) !! a = Some (f s)) by (by rewrite update_session_lookup, decide_True, Hs).
    assert (Hpast : past st' = past st ++ [m]).
    { unfold past, hand. cbn. rewrite Ha, (working_lost _ _ _ _ _ Hso Ha). cbn. by rewrite app_nil_r. }
    intros j sj Hj. apply list_lookup_insert_Some in Hj as [(<- & <- & _)|[Hne Hj]].
    + split; [|by cbn; rewrite Hsa|cbn; by rewrite (working_lost _ _ _ _ _ Hso Ha)|change (fit out t (stream_agent st) m); by rewrite <- Hid].
      intros b Hb. cbn in Hb. rewrite Hsa in Hb. injection Hb as <-. exists (f s). rewrite Hpast. split_and!; [done..| |].
      * cbn. rewrite Hent, Hq. exists q. by rewrite <- app_assoc.
      * cbn. intros _. by rewrite Hent, Hq, <- app_assoc.
    + destruct (Hss _ _ Hj) as [P1 P2 P3 P4]. split; [|done..]. intros b Hb. destruct (P1 _ Hb) as (sb & Hsb & R). exists sb. split; [|exact R]. change (heap (update_session a f (registry sh)) !! b = Some sb).
      assert (b <> a) as Hba by (intros ->; apply Hne; by eapply Hd). rewrite (update_session_lookup (registry sh) a f b), decide_False by done. by rewrite Hsb.
  - by eapply distinct_insert.
  - eapply owned_insert; [done..| |done]. apply length_alter.
  - assert (Hin : heap (update_session a f (registry sh)) !! a = Some (f s)) by (by rewrite update_session_lookup, decide_True, Hs).
    intros n Hn. destruct (Hsec _ Hn) as (x & Hx & Hcov & Hown). exists x. split_and!; [done..|].
    assert (Hown' : holds t st' x \/ queued (sh <| registry ::= update_session a f |>) x \/ exists j sj, i <> j /\ streams !! j = Some sj /\ holds t sj x).
    { destruct Hown as [(b & sb & m' & Hb & Hel & Hmx)|(j & sj & Hj & Hh)].
      - destruct (decide (b = a)) as [->|Hba].
        + rewrite Hs in Hb. injection Hb as <-. rewrite Hq in Hel. apply elem_of_cons in Hel as [->|Hel]; [by left|right; left]. by exists a, (f s), m'.
        + right; left. exists b, sb, m'. split; [|done]. change (heap (update_session a f (registry sh)) !! b = Some sb). by rewrite update_session_lookup, decide_False, Hb.
      - right; right. exists j, sj. split; [|done]. intros <-. rewrite Hi in Hj. injection Hj as <-. unfold holds in Hh. by rewrite Ha in Hh. }
    destruct Hown' as [Hh|[Hq'|(j & sj & Hne & Hj & Hh)]]; [right|by left|right; exists j, sj; by rewrite list_lookup_insert_ne].
    exists i, st'. split; [apply list_lookup_insert_eq; by eapply lookup_lt_Some|done].
Qed.

(** *** Every step of a stream *)

(** The goals of [plane_ok_call] for a call that neither takes nor gives secrets. *)
Ltac same_secret := let held := fresh "held" in let Hpre := fresh "Hpre" in intros held Hpre; exists held; split; [done|destruct held; [intros _; by left|done]].

Lemma fair_fit out t agentID m : fair agentID m t -> fit out t agentID m.
Proof. intros [H1 H2]. split; [|done]. intros e He. congruence. Qed.

(** The agent of an enqueued answer is the stream's own. *)
Lemma enqueue_ok out t sh sh' streams i st m k b x : tables_ok t -> plane_ok out t sh streams -> streams !! i = Some st -> st_activity st = Working (Call (SEnqueue m) k) ->
  delivers (DEnqueue (stream_agent st) m) x sh b sh' -> plane_ok out t sh' (<[i := doing st (k b)]> streams).
Proof.
  intros Hok Hpl Hi Ha Hd. pose proof (sh_registry _ _ _ (po_shared _ _ _ _ Hpl)) as Hreg. destruct (working_next _ _ _ _ _ k (po_streams _ _ _ _ Hpl _ _ Hi) Ha Hok) as (held0 & [_ Hfair] & _).
  eapply plane_ok_call; try done.
  - eapply delivers_shared_step; [done| |exact Hd]. intros _. by apply fair_fit.
  - intros held [Hs _]. exists (match b with Ok _ => None | Err _ => held end). split; [done|]. destruct held as [y|]; [|done]. intros _. destruct b as [u|e]; [|by left].
    right; left. destruct Hd as [Hrep ->]. pose proof (deliver_spec (DEnqueue (stream_agent st) m) x (registry sh)) as Hx. rewrite <- Hrep in Hx. destruct Hx as (a & s & Hl & _ & -> & _).
    apply liveSession_Some in Hl as [_ Hl]. exists a, (push m s), m. split_and!; [|cbn; apply elem_of_app; right; by apply list_elem_of_singleton|done].
    change (heap (update_session a (push m) (registry sh)) !! a = Some (push m s)). by rewrite update_session_lookup, decide_True, Hl.
Qed.

Lemma performs_ok out t sh sh' streams i st st' {A} (c : stream_call A) k b sent_now : tables_ok t -> plane_ok out t sh streams -> streams !! i = Some st ->
  st_activity st = Working (Call c k) -> performs c st sh b st' sh' sent_now ->
  plane_ok out t sh' (<[i := doing st' (k b)]> streams) /\ Forall (fit out t (stream_agent st)) sent_now.
Proof.
  intros Hok Hpl Hi Ha Hc. pose proof (sh_registry _ _ _ (po_shared _ _ _ _ Hpl)) as Hreg. pose proof (shared_step_refl (fit out t) sh) as Hsame.
  destruct c; cbn [performs] in Hc; try (destruct Hc as (-> & -> & ->); split; [|done]; eapply plane_ok_call; try done; same_secret).
  - destruct (registerCredential _ _ _ _ _ _) as [[a|e] r'] eqn:Er; destruct Hc as (-> & -> & -> & ->); (split; [|done]); [by eapply plane_ok_register|].
    assert (r' = registry sh) as -> by (unfold registerCredential in Er; destruct (sessions _ !! _); by simplify_eq). replace (sh <| registry := registry sh |>) with sh by (by destruct sh).
    eapply plane_ok_call; try done. same_secret.
  - destruct (st_session st) as [a|] eqn:Es; [|destruct Hc as (-> & -> & -> & ->); split; [|done]; eapply plane_ok_call; try done; same_secret].
    pose proof (remove_if_shared_step (fit out t) (fun b _ => (b =? a)%nat) (stream_agent st) sh Hreg) as Hrm. unfold terminateSession in Hc.
    destruct (remove_if _ _ _ _) as [[removed r'] mem']. destruct Hc as (-> & -> & -> & ->). split; [|done]. eapply plane_ok_call; try done. same_secret.
  - destruct Hc as (-> & -> & ->). split; [|done]. eapply plane_ok_call; try done; [destruct (st_session st); [apply cancel_shared_step|done]|same_secret].
  - destruct (working_next _ _ _ _ _ k (po_streams _ _ _ _ Hpl _ _ Hi) Ha Hok) as (held0 & Hfair & _).
    destruct Hc as (-> & -> & [[-> ->]| ->]); (split; [eapply plane_ok_call; try done; same_secret|]); [done|]. constructor; [by apply fair_fit|done].
  - destruct Hc as (-> & -> & -> & ->). split; [|done]. eapply plane_ok_call; try done. same_secret.
  - destruct Hc as (-> & -> & -> & ->). split; [|done]. eapply plane_ok_call; try done. same_secret.
  - destruct Hc as (-> & -> & -> & ->). split; [|done]. eapply plane_ok_call; try done. same_secret.
  - done.
  - destruct Hc as (-> & -> & x & Hd). split; [|done]. by eapply enqueue_ok.
  - destruct Hc as (-> & -> & mem' & Hiss & ->). split; [|done]. by eapply plane_ok_issue.
  - destruct Hc as (-> & -> & mem' & Hiss & ->). split; [|done]. by eapply plane_ok_issue.
  - destruct Hc as (-> & -> & ->). split; [|done]. rewrite clear_is_wipe. eapply plane_ok_call; try done; [apply wipe_shared_step|].
    intros held Hpre. exists None. split; [done|]. destruct held as [x|]; [|done]. intros Hcov. right; right. cbn in Hpre |- *. rewrite Hpre. by apply wipe_clean.
Qed.

(** Nothing is in the hands of a stream that only waits. *)
Lemma working_return_holds t st g x : st_activity st = Working (Return g) -> ~ holds t st x.
Proof. intros Ha Hh. unfold holds in Hh. by rewrite Ha in Hh. Qed.

Lemma stream_step_ok out t sh sh' streams i st st' sent_now : tables_ok t -> plane_ok out t sh streams -> streams !! i = Some st -> stream_step st sh st' sh' sent_now ->
  plane_ok out t sh' (<[i := st']> streams) /\ Forall (fit out t (stream_agent st)) sent_now.
Proof.
  intros Hok Hpl Hi Hst. pose proof (po_streams _ _ _ _ Hpl _ _ Hi) as Hso. pose proof (shared_step_refl (fit out t) sh) as Hsame.
  pose proof (sh_registry _ _ _ (po_shared _ _ _ _ Hpl)) as Hreg.
  destruct Hst as [st sh A c k b st' sh' sent_now Ha Hc|st sh a s m q Ha Hsa Hs Hq|st sh m at_ Ha|st sh m at_ sent_now Ha Hsent|st sh m Ha Hrc|st sh e Ha Hrc|st sh Ha
    |st sh e Ha|st sh e Ha|st sh e Ha|st sh e Ha|st sh m at_ Hrv|st sh e Hrv|st sh it Hrv Hrc|st sh it Hrv].
  - by eapply performs_ok.
  - split; [|done]. by eapply plane_ok_take.
  - pose proof (so_activity _ _ _ _ Hso) as Hf. unfold activity_ok in Hf. rewrite Ha in Hf. split; [|constructor; [exact Hf|done]]. rewrite clear_is_wipe.
    assert (Hlost : st_lost st = None) by (eapply open_lost; [exact Hso|]; unfold closing; rewrite Ha; intros []). eapply plane_ok_stream; try done; [apply wipe_shared_step| | |].
    + unfold past, hand. cbn. rewrite Ha, Hlost. cbn. by rewrite !app_nil_r.
    + by exists None.
    + intros x Hcov Hh. right; right. unfold holds in Hh. rewrite Ha in Hh. cbn. rewrite Hh. by apply wipe_clean.
  - pose proof (so_activity _ _ _ _ Hso) as Hf. unfold activity_ok in Hf. rewrite Ha in Hf. split; [|destruct Hsent as [->| ->]; [done|constructor; [exact Hf|done]]]. rewrite clear_is_wipe.
    eapply plane_ok_stream; try done; [apply wipe_shared_step| |].
    + unfold past, hand. cbn. rewrite Ha, (open_lost _ _ _ _ Hso); [done|]. unfold closing. rewrite Ha. intros [].
    + intros x Hcov Hh. right; right. unfold holds in Hh. rewrite Ha in Hh. cbn. rewrite Hh. by apply wipe_clean.
  - split; [|done]. eapply plane_ok_stream; try done.
    + unfold past, hand. cbn. by rewrite Ha.
    + cbn. by rewrite (working_lost _ _ _ _ _ Hso Ha).
    + exists None. apply handle_proper.
    + intros x _ Hh. destruct (working_return_holds _ _ _ _ Ha Hh).
  - split; [|done]. eapply plane_ok_stream; try done; [unfold past, hand; cbn; by rewrite Ha|]. intros x _ Hh. destruct (working_return_holds _ _ _ _ Ha Hh).
  - split; [|done]. eapply plane_ok_stream; try done; [unfold past, hand; cbn; by rewrite Ha|]. intros x _ Hh. destruct (working_return_holds _ _ _ _ Ha Hh).
  - split; [|done]. eapply plane_ok_stream; try done; [unfold past, hand; cbn; by rewrite Ha|]. intros x _ Hh. destruct (working_return_holds _ _ _ _ Ha Hh).
  - split; [|done]. eapply plane_ok_stream; try done; [unfold past, hand; cbn; by rewrite Ha|]. intros x _ Hh. destruct (working_return_holds _ _ _ _ Ha Hh).
  - split; [|done]. eapply plane_ok_stream; try done; [destruct (st_session st); [apply cancel_shared_step|done]|unfold past, hand; cbn; by rewrite Ha|].
    intros x _ Hh. unfold holds in Hh. by rewrite Ha in Hh.
  - split; [|done]. eapply plane_ok_stream; try done; [|unfold past, hand; cbn; by rewrite Ha|].
    + destruct (st_session st) as [a|]; [|done]. pose proof (remove_if_shared_step (fit out t) (fun b _ => (b =? a)%nat) (stream_agent st) sh Hreg) as Hrm. unfold unregister.
      by destruct (remove_if _ _ _ _) as [[removed r'] mem'].
    + intros x _ Hh. unfold holds in Hh. by rewrite Ha in Hh.
  - split; [|done]. assert (Hrec : forall sh' rv, shared_step (fit out t) sh sh' -> plane_ok out t sh' (<[i := st <| st_receiver := rv |>]> streams)).
    { intros sh' rv Hx. eapply plane_ok_stream; try done; [apply (so_lost _ _ _ _ Hso)|apply (so_activity _ _ _ _ Hso)|by left]. }
    destruct m as [|hb| | | | | | | | | | | |]; auto. unfold recordHeartbeat. destruct (negb _); [by apply Hrec|]. apply Hrec, renew_shared_step.
  - split; [|done]. eapply plane_ok_stream; try done; [apply (so_lost _ _ _ _ Hso)|apply (so_activity _ _ _ _ Hso)|by left].
  - split; [|done]. eapply plane_ok_stream; try done; [apply (so_lost _ _ _ _ Hso)|apply (so_activity _ _ _ _ Hso)|by left].
  - split; [|done]. eapply plane_ok_stream; try done; [apply (so_lost _ _ _ _ Hso)|apply (so_activity _ _ _ _ Hso)|by left].
Qed.

(** *** Steps in which no stream takes part *)

Lemma plane_ok_quiet out out' t t' sh sh' streams : tables_ok t -> later t t' -> shared_step (fit (out ++ out') t') sh sh' -> plane_ok out t sh streams ->
  plane_ok (out ++ out') t' sh' streams.
Proof.
  intros Hok Hl Hst [Hsh Hss Hd Ho Hsec]. split; [by apply (shared_ok_step _ _ t _ sh)| |done| |].
  - intros j sj Hj. eapply stream_ok_step; [done..|]. by eapply Hss.
  - intros a Ha. rewrite (step_heap _ _ _ Hst) in Ha. by apply Ho.
  - intros n Hn. destruct (clean_dec (secrets sh) n) as [Hc|Hc]; [by apply (step_clean _ _ _ Hst) in Hc|]. destruct (Hsec _ Hc) as (x & <- & Hcov & Hown). exists x.
    split; [done|]. split; [by apply (step_covers _ _ _ Hst)|]. destruct Hown as [Hq|(j & sj & Hj & Hh)].
    + destruct (queued_step _ _ _ _ Hst Hcov Hq); [by left|done].
    + right. exists j, sj. split; [done|]. by apply (holds_later t).
Qed.

Lemma plane_ok_later out out' t t' sh streams : tables_ok t -> later t t' -> plane_ok out t sh streams -> plane_ok (out ++ out') t' sh streams.
Proof. intros Hok Hl. apply plane_ok_quiet; [done..|]. apply shared_step_refl. Qed.

Lemma plane_ok_shared out t sh sh' streams : tables_ok t -> shared_step (fit out t) sh sh' -> plane_ok out t sh streams -> plane_ok out t sh' streams.
Proof. intros Hok Hst Hpl. rewrite <- (app_nil_r out). apply (plane_ok_quiet out [] t t sh); [done|by apply later_refl|by rewrite app_nil_r|done]. Qed.

(** The dispatchers' calls put only messages that they hand over into queues. *)
Lemma on_sessions_step out t sh sh' {A} (c : call A) b : registry_ok (registry sh) -> on_sessions c sh b sh' -> shared_step (fit (out ++ emits c) t) sh sh'.
Proof.
  intros Hreg Hc. unfold on_sessions in Hc. destruct (delivery_of c) as [d|] eqn:Ed; [|subst; apply shared_step_refl]. destruct Hc as (x & rep & Hd & _).
  eapply delivers_shared_step; [done| |exact Hd]. intros Hadm. split; [|intros a He; exfalso; destruct c; cbn in Ed; try discriminate Ed; injection Ed as <-; discriminate He].
  intros e He. apply elem_of_app. right. destruct c; cbn in Ed; try discriminate Ed; injection Ed as <-; cbn in He; try (injection He as <-; by left).
  cbn in Hadm. destruct token; [discriminate Hadm|]. injection He as <-. by left.
Qed.

Lemma plane_ok_arrives out t sh streams peer : plane_ok out t sh streams -> plane_ok out t sh (streams ++ [new_stream server peer]).
Proof.
  intros [Hsh Hss Hd Ho Hsec].
  assert (Hback : forall i st, (streams ++ [new_stream server peer]) !! i = Some st -> streams !! i = Some st \/ st = new_stream server peer).
  { intros i st [Hi|[_ Hi]]%lookup_app_Some; [by left|right]. by apply list_lookup_singleton_Some in Hi as [_ <-]. }
  split; [done|..].
  - intros i st [Hi| ->]%Hback; [by eapply Hss|]. split; [done..|]. exists None. apply Connect_proper.
  - intros i j st st' a [Hi| ->]%Hback [Hj| ->]%Hback; try done. by apply Hd.
  - intros a Ha. destruct (Ho _ Ha) as (i & st & Hi & Hs). exists i, st. split; [by apply lookup_app_l_Some|done].
  - intros n Hn. destruct (Hsec _ Hn) as (x & Hx & Hcov & [Hq|(j & sj & Hj & Hh)]); exists x; split_and!; auto. right. exists j, sj. split; [by apply lookup_app_l_Some|done].
Qed.

(** The observer runs, and returns. *)
Lemma plane_ok_observe out t sh streams i st {A} (h : handler A) q k : tables_ok t -> plane_ok out t sh streams -> streams !! i = Some st ->
  st_activity st = Working (Call (SObserve h) k) -> returns (form h) q -> plane_ok out t sh (<[i := st <| st_activity := Observing h q k |>]> streams).
Proof.
  intros Hok Hpl Hi Ha Hq. pose proof (po_streams _ _ _ _ Hpl _ _ Hi) as Hso. eapply plane_ok_stream; try done.
  - apply shared_step_refl.
  - unfold past, hand. cbn. by rewrite Ha.
  - cbn. by rewrite (working_lost _ _ _ _ _ Hso Ha).
  - pose proof (so_activity _ _ _ _ Hso) as Hact. unfold activity_ok in Hact. rewrite Ha in Hact. destruct Hact as (held & _ & Hk). split; [done|]. exists held.
    intros t' a Hl Hf Hp. by apply (Hk t' a).
  - intros x _ Hh. left. unfold holds in *. rewrite Ha in Hh. destruct Hh as [_ Hk]. split; [done|]. intros t' a Hl Hf Hp. by apply (Hk t' a).
Qed.

Lemma plane_ok_observing out out' t t' sh sh' streams i st {A} (h : handler A) q q' k : tables_ok t -> later t t' -> shared_step (fit (out ++ out') t') sh sh' ->
  plane_ok out t sh streams -> streams !! i = Some st -> st_activity st = Observing h q k -> (returns (form h) q -> returns (form h) q') ->
  plane_ok (out ++ out') t' sh' (<[i := st <| st_activity := Observing h q' k |>]> streams).
Proof.
  intros Hok Hl Hst Hpl Hi Ha Hq. pose proof (po_streams _ _ _ _ Hpl _ _ Hi) as Hso. pose proof (so_activity _ _ _ _ Hso) as Hact. unfold activity_ok in Hact. rewrite Ha in Hact.
  destruct Hact as (Hr & held & Hk). eapply plane_ok_step; try done.
  - eapply stream_ok_change; [by eapply stream_ok_step|done..| | |].
    + unfold past, hand. cbn. by rewrite Ha.
    + cbn. intros Hn. exfalso. apply Hn. eapply open_lost; [exact Hso|]. unfold closing. rewrite Ha. intros [].
    + split; [by apply Hq|]. exists held. intros t2 a Hl2. apply Hk. by eapply later_trans.
  - intros x _ Hh. left. unfold holds in *. rewrite Ha in Hh. destruct Hh as [_ Hh]. split; [by apply Hq|]. intros t2 a Hl2. apply Hh. by eapply later_trans.
Qed.

Lemma plane_ok_observed out t sh streams i st {A} (h : handler A) a k : tables_ok t -> plane_ok out t sh streams -> streams !! i = Some st ->
  st_activity st = Observing h (Return a) k -> post h a t -> plane_ok out t sh (<[i := doing st (k a)]> streams).
Proof.
  intros Hok Hpl Hi Ha Hp. pose proof (po_streams _ _ _ _ Hpl _ _ Hi) as Hso. pose proof (so_activity _ _ _ _ Hso) as Hact. unfold activity_ok in Hact. rewrite Ha in Hact.
  destruct Hact as (Hr & held & Hk). pose proof (later_refl _ Hok) as Hl. eapply plane_ok_stream; try done.
  - apply shared_step_refl.
  - unfold past, hand. cbn. by rewrite Ha.
  - cbn. intros Hn. exfalso. apply Hn. eapply open_lost; [exact Hso|]. unfold closing. rewrite Ha. intros [].
  - exists held. by apply Hk.
  - intros x _ Hh. left. unfold holds in *. rewrite Ha in Hh. destruct Hh as [_ Hh]. by apply Hh.
Qed.
End streams.
End worlds.
