(* ===== verification/AgentDelivery.v ===== *)
(** * What agents receive

    The composition of the dispatchers ([CommandDelivery]) with the sessions of
    their control planes ([AgentSessions]): what holds of the messages that
    dispatchers hand over holds of the messages on the wire, and the sessions
    add their own guarantees: order and bound of the queues, leases that follow
    starts, acknowledgements that are true and that the agent accepts, secrets
    that do not outlive their delivery. *)

From S2P Require Import Prelude Programs GoText JobModel JobRepository CommandPhases CommandSlots CommandLifecycle CommandWorld CommandDelivery SessionRegistry AgentServer AgentSessions SessionSteps SessionLogic.

Open Scope Z_scope.
Open Scope update_scope.
Open Scope prog_scope.

Section worlds.
Context {database : JobDatabase} {codec : ResultCodec} {surroundings : Surroundings} {agents : AgentCodec} {contract : RecorderContract}.

(** ** The invariant of worlds *)

Record world_ok (w : world) : Prop := {
  wo_sound : sound_system (dispatchers w);
  wo_planes : Forall (fun pl => plane_ok (pl_server pl) (w_handed w) (w_db w) (pl_shared pl) (pl_streams pl)) (w_planes w);
  wo_wire : Forall (fun e => fit (w_handed w) (w_db w) (fst e) (snd e)) (w_wire w);
}.

Lemma Terminate_remove agentID r mem : exists test, Terminate agentID r mem = remove_if test agentID r mem.
Proof.
  unfold Terminate. destruct (blank agentID); [|by exists (fun _ _ => true)]. exists (fun _ _ => false). unfold remove_if. by destruct (liveSession agentID r) as [[a s]|].
Qed.
Lemma TerminateCredential_remove agentID fp serial r mem : exists test, TerminateCredential agentID fp serial r mem = remove_if test agentID r mem.
Proof.
  unfold TerminateCredential. destruct (_ || _); [|by eexists]. exists (fun _ _ => false). unfold remove_if. by destruct (liveSession agentID r) as [[a s]|].
Qed.

(** A step of a control plane keeps its invariant; observers return what they promise. *)
Lemma plane_step_ok out t pl t' out' wire' pl' : tables_ok t -> later t t' -> (forall A (h : handler A) a, Process A h (Return a) ∈ plane_processes pl -> post h a t) ->
  plane_ok (pl_server pl) out t (pl_shared pl) (pl_streams pl) -> plane_step t pl t' out' wire' pl' ->
  plane_ok (pl_server pl') (out ++ out') t' (pl_shared pl') (pl_streams pl') /\ Forall (fun e => fit (out ++ out') t' (fst e) (snd e)) wire'.
Proof.
  intros Hok Hl Hpost Hpl Hst. pose proof (sh_registry _ _ _ (po_shared _ _ _ _ _ Hpl)) as Hreg.
  destruct Hst as [t pl A h|t pl before after A h B c k b t' sh' Hw Hc Hs|t pl before after p Hw|t pl peer|t pl i st st' sh' sent_now Hi Hs|t pl i st A h k Hi Ha
    |t pl i st A h B c k' k b t' sh' Hi Ha Hc Hs|t pl i st A h a k Hi Ha|t pl agentID a r' mem' Ht|t pl agentID fp serial a r' mem' Ht|t pl before a after Hw|t pl agentID ack x rep sh' Hd];
    cbn [pl_server pl_shared pl_streams pl_workers set_field]; rewrite ?app_nil_r.
  - by split.
  - split; [|done]. eapply plane_ok_quiet; [done..| |done]. by eapply on_sessions_step.
  - by split.
  - split; [|done]. by apply plane_ok_arrives.
  - destruct (stream_step_ok _ _ _ _ _ _ _ _ _ _ Hok Hpl Hi Hs) as [Hpl' Hsent]. split; [exact Hpl'|]. rewrite Forall_fmap. exact Hsent.
  - split; [|done]. eapply plane_ok_observe; [done..|]. apply handle_form.
  - split; [|done]. eapply plane_ok_observing; [done..| |done|done|done|]; [by eapply on_sessions_step|]. intros Hr. apply Hr.
  - split; [|done]. eapply plane_ok_observed; [done..|]. apply Hpost. unfold plane_processes. apply elem_of_app. right. apply list_elem_of_bind. exists st. unfold observers. rewrite Ha.
    split; [by left|]. by eapply list_elem_of_lookup_2.
  - split; [|done]. destruct (Terminate_remove agentID (registry (pl_shared pl)) (secrets (pl_shared pl))) as (test & E). rewrite E in Ht.
    pose proof (remove_if_shared_step (fit out t) test agentID (pl_shared pl) Hreg) as Hrm. rewrite Ht in Hrm. by eapply plane_ok_shared.
  - split; [|done]. destruct (TerminateCredential_remove agentID fp serial (registry (pl_shared pl)) (secrets (pl_shared pl))) as (test & E). rewrite E in Ht.
    pose proof (remove_if_shared_step (fit out t) test agentID (pl_shared pl) Hreg) as Hrm. rewrite Ht in Hrm. by eapply plane_ok_shared.
  - split; [|done]. eapply plane_ok_shared; [done| |done]. apply cancel_shared_step.
  - split; [|done]. eapply plane_ok_shared; [done| |done]. eapply delivers_shared_step; [done| |exact Hd]. intros _. by split.
Qed.

Lemma fresh_plane_ok server lifecycle capacity out t :
  let pl := fresh_plane server lifecycle capacity in plane_ok (pl_server pl) out t (pl_shared pl) (pl_streams pl).
Proof.
  split.
  - split; [apply NewRegistry_ok|done..|constructor].
  - done.
  - intros i j st st' a Hi. done.
  - intros a Ha. cbn in Ha. lia.
  - intros i Hi. exfalso. apply Hi. intros b Hb. done.
Qed.

(** What observers returned is true of the tables. *)
Lemma observers_truthful t out wire before pl after A (h : handler A) a : sound_system (dispatchers (World t out wire (before ++ pl :: after))) ->
  Process A h (Return a) ∈ plane_processes pl -> post h a t.
Proof.
  intros [Hok _ Hp] Hin. cbn in *. rewrite Forall_forall in Hp. refine (Hp (Process A h (Return a)) _ t (later_refl _ Hok)). rewrite bind_app, bind_cons. apply elem_of_app. right. apply elem_of_app. by left.
Qed.

Lemma world_step_ok w w' : world_ok w -> world_step w w' -> world_ok w' /\ later (w_db w) (w_db w').
Proof.
  intros [Hs Hp Hw] Hst. destruct (sound_steps _ _ Hs (world_simulates _ _ Hst)) as [Hs' Hl]. cbn in Hl. split; [|done]. pose proof (sound_tables _ Hs) as Hok. cbn in Hok.
  split; [done|..]; destruct Hst as [t out wire ps server lifecycle capacity|t out wire before pl after t' out' wire' pl' Hst|t out wire before pl after]; cbn in *; try done.
  - apply Forall_app. split; [done|]. constructor; [|done]. apply fresh_plane_ok.
  - apply Forall_app in Hp as [Hb [Hx Ha]%Forall_cons]. apply Forall_app. split; [|constructor].
    + eapply Forall_impl; [exact Hb|]. intros pl0. by apply plane_ok_later.
    + eapply plane_step_ok; [done..| |done|done]. intros A h a. by eapply observers_truthful.
    + eapply Forall_impl; [exact Ha|]. intros pl0. by apply plane_ok_later.
  - apply Forall_app in Hp as [Hb [_ Ha]%Forall_cons]. by apply Forall_app.
  - apply Forall_app in Hp as [Hb [Hx Ha]%Forall_cons]. apply Forall_app. split.
    + eapply Forall_impl; [exact Hw|]. intros e. by apply fit_later.
    + eapply plane_step_ok; [done..| |done|done]. intros A h a. by eapply observers_truthful.
Qed.

Lemma world_initial_ok : world_ok initial_world.
Proof. split; [apply sound_initial|constructor..]. Qed.

Lemma worlds_ok w w' : world_ok w -> rtc world_step w w' -> world_ok w' /\ later (w_db w) (w_db w').
Proof.
  intros Hw Hst. induction Hst as [w|w w1 w' H1 _ IH]; [split; [done|apply later_refl, (wo_sound _ Hw)]|].
  destruct (world_step_ok _ _ Hw H1) as [Hw1 Hl1]. destruct (IH Hw1) as [Hw' Hl']. split; [done|]. eapply later_trans; [apply (wo_sound _ Hw)|done..].
Qed.

Lemma reachable_world_ok w : reachable_world w -> world_ok w.
Proof. intros Hr. by apply (worlds_ok _ _ world_initial_ok). Qed.

(** ** Theorems *)

(** A payload that some control plane sent to the stream of an agent. *)
Definition on_wire (w : world) (agentID : string) (p : server_payload) : Prop := exists m, (agentID, m) ∈ w_wire w /\ Payload m = p.

Lemma on_wire_fit w agentID p : reachable_world w -> on_wire w agentID p -> exists m, Payload m = p /\ fit (w_handed w) (w_db w) agentID m.
Proof.
  intros Hr (m & Hin & Hp). destruct (reachable_world_ok _ Hr) as [_ _ Hw]. rewrite Forall_forall in Hw. exists m. split; [done|]. by apply (Hw (agentID, m)).
Qed.

Lemma on_wire_handed w agentID p e : reachable_world w -> on_wire w agentID p -> sent_of agentID p = Some e -> e ∈ w_handed w /\ justified e (w_db w) /\ agent_of e = agentID.
Proof.
  intros Hr Hw He. destruct (on_wire_fit _ _ _ Hr Hw) as (m & Hm & [Hf _]). rewrite Hm in Hf. pose proof (Hf _ He) as Hin. split; [done|]. split.
  - pose proof (sound_messages _ (wo_sound _ (reachable_world_ok _ Hr))) as Hj. cbn in Hj. rewrite Forall_forall in Hj. by apply Hj.
  - destruct p; cbn in He; simplify_eq; cbn; try done. by destruct (x_ExecutionToken cancellation).
Qed.

(** C6: Agents receive one story.  Commands, starts and cancellations that reach agents over any streams of any control planes,
    before and after crashes: all about one command reach the same agent, every envelope is the same, every start is the
    same start, and every cancellation of an execution carries its token and revision. *)
Theorem agents_receive_one_story w agentID p e agentID' p' e' : reachable_world w -> on_wire w agentID p -> on_wire w agentID' p' ->
  sent_of agentID p = Some e -> sent_of agentID' p' = Some e' -> command_of e = command_of e' -> agentID = agentID' /\ agree e e'.
Proof.
  intros Hr Hp Hp' He He' Hc. destruct (on_wire_handed _ _ _ _ Hr Hp He) as (_ & Hj & <-), (on_wire_handed _ _ _ _ Hr Hp' He') as (_ & Hj' & <-).
  split; [|by eapply justified_agree]. destruct (justified_row _ _ Hj) as (r & H1 & <-), (justified_row _ _ Hj') as (r' & H2 & <-). rewrite Hc, H2 in H1. by injection H1 as ->.
Qed.

(** No start reaches an agent after its command was cancelled unstarted.  If at some moment a command's cancellation is
    recorded and it has no execution, then no start of it ever reached or will reach any agent. *)
Theorem no_start_reaches_cancelled_commands w w' id r agentID start : reachable_world w -> rtc world_step w w' -> outbox (w_db w) !! id = Some r ->
  is_Some (o_CancellationRequestedAt (message r)) -> o_ExecutionRevision (message r) = 0 -> on_wire w' agentID (ServerCommandStart start) -> s_CommandId start <> id.
Proof.
  intros Hr Hst Hrow Hc Hz Hw Hid. pose proof (reachable_world_ok _ Hr) as Hok. destruct (worlds_ok _ _ Hok Hst) as [_ Hl].
  assert (Hr' : reachable_world w') by (unfold reachable_world in *; by etrans). destruct (on_wire_handed _ _ _ _ Hr' Hw eq_refl) as (_ & (r' & Hrow' & _ & Hrev & _) & _).
  rewrite Hid in Hrow'. destruct (row_later _ _ _ _ (sound_tables _ (wo_sound _ Hok)) Hl Hrow) as (r2 & Hr2 & _ & Ha). rewrite Hrow' in Hr2. injection Hr2 as <-.
  rewrite (adv_unfenced _ _ Ha Hc Hz) in Hrev. lia.
Qed.

(** C7: Acknowledgements of results are well formed and true.  Every acknowledgement that reaches an agent passes the check of
    the agent; one that says persisted is about a digest stored for a command of this agent; one that is neither persisted
    nor retryable, on which the agent drops its result, is about a command of this agent that has ended.  (Results of
    database validations are stored by another component.) *)
Theorem acknowledgements_are_true w agentID a : reachable_world w -> on_wire w agentID (ServerResultAcknowledgement a) -> acknowledged agentID a (w_db w).
Proof. intros Hr Hw. destruct (on_wire_fit _ _ _ Hr Hw) as (m & Hm & [_ Hf]). by apply Hf. Qed.

Lemma plane_of w pl : reachable_world w -> pl ∈ w_planes w -> plane_ok (pl_server pl) (w_handed w) (w_db w) (pl_shared pl) (pl_streams pl).
Proof. intros Hr Hin. destruct (reachable_world_ok _ Hr) as [_ Hp _]. rewrite Forall_forall in Hp. by apply Hp. Qed.

(** What was sent on a stream, against the messages that its session accepted. *)
Definition in_order (pl : plane) (st : stream) (a : nat) (s : session) : Prop :=
  let log := entries a (accepted (pl_shared pl)) in
  st_delivered st `prefix_of` log /\
  (live (registry (pl_shared pl)) a s -> st_activity st = Working (Return Serve) -> log = st_delivered st ++ ss_send s) /\
  (length (ss_send s) <= queueCapacity (registry (pl_shared pl)))%nat.

(** C8: Streams deliver in order.  What a stream has sent is an initial part of what its session accepted, without gaps,
    repetitions or messages of other sessions; while the session lives and the stream waits, everything else that was
    accepted is in the queue; and the queue never exceeds its capacity. *)
Theorem streams_deliver_in_order w pl st a s : reachable_world w -> pl ∈ w_planes w -> st ∈ pl_streams pl -> st_session st = Some a ->
  heap (registry (pl_shared pl)) !! a = Some s -> in_order pl st a s.
Proof.
  intros Hr Hpl Hst Ha Hs. pose proof (plane_of _ _ Hr Hpl) as Hok. apply list_elem_of_lookup in Hst as [i Hi]. pose proof (po_streams _ _ _ _ _ Hok _ _ Hi) as Hso.
  destruct (so_session _ _ _ _ _ Hso _ Ha) as (s' & Hs' & _ & _ & Hpre & Heq). rewrite Hs in Hs'. injection Hs' as <-. split; [|split].
  - unfold past in Hpre. etrans; [|exact Hpre]. apply prefix_app_r. done.
  - intros Hl Hact. rewrite (Heq Hl). unfold past, hand. rewrite Hact. assert (Hlost : st_lost st = None) by (by eapply working_lost). rewrite Hlost. cbn. by rewrite app_nil_r.
  - eapply reg_bound; [|done]. apply (sh_registry _ _ _ (po_shared _ _ _ _ _ Hok)).
Qed.

(** A live session of an agent that keeps the fence of an execution the database has for it. *)
Definition started_for (t : tables) (r : Registry) (agentID id : string) : Prop :=
  exists a s row, liveSession agentID r = Some (a, s) /\ outbox t !! id = Some row /\ o_TargetID (message row) = agentID /\
    0 < o_ExecutionRevision (message row) /\ revision_of s id = o_ExecutionRevision (message row) /\ sha256 (token_of s id) = o_ExecutionTokenHash (message row).

(** C9: Execution leases follow starts.  When the registry reports a live execution lease of an agent for a command, that
    command has been started for that very agent: its execution revision is the session's, and the hash of the token that
    the session compares with is the stored one. *)
Theorem leases_follow_starts w pl agentID id at_ : reachable_world w -> pl ∈ w_planes w -> ExecutionLeaseActive agentID id at_ (registry (pl_shared pl)) = true ->
  started_for (w_db w) (registry (pl_shared pl)) agentID id.
Proof.
  intros Hr Hpl Hx. pose proof (plane_of _ _ Hr Hpl) as Hok. unfold ExecutionLeaseActive, started_for in *. destruct (_ || _ || _); [done|].
  destruct (liveSession agentID (registry (pl_shared pl))) as [[a s]|] eqn:E; [|done]. bool_simpl. pose proof (po_shared _ _ _ _ _ Hok) as Hsh.
  destruct (liveSession_agent _ _ _ _ (sh_registry _ _ _ Hsh) E) as [Hid _]. pose proof E as [_ Hs]%liveSession_Some. unfold token_of in *.
  destruct (ss_executionTokens s !! id) as [token|] eqn:Et; [|done]. destruct (sh_leases _ _ _ Hsh _ _ Hs _ _ Et) as (start & Hin & _ & <- & <- & Hrev & _).
  pose proof (sound_messages _ (wo_sound _ (reachable_world_ok _ Hr))) as Hj. cbn in Hj. rewrite Forall_forall in Hj. destruct (Hj _ Hin) as (r & H1' & H2' & H3' & H4' & _ & H5' & _).
  exists a, s, r. unfold revision_of. rewrite Hrev, Et. split_and!; [done|done|congruence|done..].
Qed.

(** A secret that is still needed: in the queue of a live session, or with a stream that is sending or handling a message. *)
Definition in_hands (st : stream) (i : nat) : Prop :=
  match st_activity st with
  | Sending m => exists x, payload_secret (Payload m) = Some x /\ base x = i
  | Working (Call _ _) | Observing _ _ _ => True
  | _ => False
  end.
Definition in_use (pl : plane) (i : nat) : Prop :=
  (exists agentID a s m x, liveSession agentID (registry (pl_shared pl)) = Some (a, s) /\ m ∈ ss_send s /\ payload_secret (Payload m) = Some x /\ base x = i) \/
  exists st, st ∈ pl_streams pl /\ in_hands st i.

(** C10: Secrets are wiped.  An array with the secret of a lease that holds anything but zeros is in use: its response is in the
    queue of a live session, being sent, or in a handler that has not finished.  Streams that fail, sessions that are
    terminated or replaced, full queues and refused responses leave no secret behind. *)
Theorem secrets_are_wiped w pl i b : reachable_world w -> pl ∈ w_planes w -> secrets (pl_shared pl) !! i = Some b -> ~ Forall (eq 0) b -> in_use pl i.
Proof.
  intros Hr Hpl Hb Hn. pose proof (plane_of _ _ Hr Hpl) as Hok. destruct (po_secrets _ _ _ _ _ Hok i) as (x & Hx & _ & Hown). { intros Hc. by apply Hn, Hc. }
  pose proof (sh_registry _ _ _ (po_shared _ _ _ _ _ Hok)) as Hreg. destruct Hown as [(a & s & m & Hs & Hin & Hm)|(j & st & Hj & Hh)].
  - left. exists (ss_agentID s), a, s, m, x. split_and!; try done. apply liveSession_Some. split; [|done].
    destruct (decide (live (registry (pl_shared pl)) a s)) as [Hl|Hl]; [done|]. rewrite (reg_drained _ Hreg _ _ Hs Hl) in Hin. by apply not_elem_of_nil in Hin.
  - right. exists st. split; [by eapply list_elem_of_lookup_2|]. unfold in_hands, holds in *. destruct (st_activity st) as [[g|A c k]|A h q k|m|e|e|e]; try done. eauto.
Qed.

(** The stream of an agent's session: its certificate names the agent, and the session keeps what was authorized of it. *)
Definition authenticates (server : Server) (st : stream) (agentID : string) (s : session) : Prop :=
  verifiedAgentID (st_peer st) = Some agentID /\
  (credentialsAuthorizer server = true -> verifiedAgentCredential (st_peer st) agentID = Some (ss_credentialLeaf s, ss_credentialSerial s)).

(** C11: Sessions are authenticated.  The live session of an agent belongs to exactly one stream, whose verified certificate names
    that agent in its SPIFFE identity; with a credential authorizer, the session keeps the fingerprint and the serial
    number of that certificate. *)
Theorem sessions_are_authenticated w pl agentID a s : reachable_world w -> pl ∈ w_planes w -> liveSession agentID (registry (pl_shared pl)) = Some (a, s) ->
  exists i st, pl_streams pl !! i = Some st /\ st_session st = Some a /\ authenticates (pl_server pl) st agentID s /\
    forall j st', pl_streams pl !! j = Some st' -> st_session st' = Some a -> j = i.
Proof.
  intros Hr Hpl Hl. pose proof (plane_of _ _ Hr Hpl) as Hok. destruct (liveSession_agent _ _ _ _ (sh_registry _ _ _ (po_shared _ _ _ _ _ Hok)) Hl) as [Hid _].
  apply liveSession_Some in Hl as [_ Hs]. destruct (po_owned _ _ _ _ _ Hok a) as (i & st & Hi & Hsa); [by eapply lookup_lt_Some|].
  destruct (so_session _ _ _ _ _ (po_streams _ _ _ _ _ Hok _ _ Hi) _ Hsa) as (s' & Hs' & Hag & (id & Hv & Htr) & _). rewrite Hs in Hs'. injection Hs' as <-.
  assert (id = agentID) as -> by (unfold stream_agent in Hag; rewrite Hv in Hag; cbn in Hag; congruence). exists i, st. split_and!; [done..| |].
  - split; [done|]. intros Hc. by rewrite Hc in Htr.
  - intros j st' Hj Hsj. by eapply (po_distinct _ _ _ _ _ Hok).
Qed.
End worlds.

(** ** Runs *)
Module SessionDemo.
Import PhaseDemo DeliveryDemo.

#[export] Instance demo_agents : AgentCodec := {
  body_of _ := CollectNowBody;
  trial_of _ := {| tt_RevisionId := EmptyString; tt_QueryDigest := []; tt_StatusCode := EmptyString; tt_MetricCount := 0; tt_RowCount := 0; tt_ColumnCount := 0;
                   tt_DurationMillis := 0; tt_CandidateMetrics := [] |};
  ReportBytes := unit;
  MarshalReport _ := [];
  ValidUTF8 _ := true;
  size_of _ := 100;
}.

(** A verified certificate of an agent. *)
Definition certificate (id : string) (raw : bytes) : option ConnectionState :=
  Some {| VerifiedChains := 1;
          PeerCertificates := [{| URIs := [{| u_Scheme := "spiffe"; u_Host := "dbpilot.local"; u_HasUser := false; u_RawQuery := ""; u_Fragment := ""; u_Path := "/agent/" +:+ id |}];
                                  Raw := raw; SerialNumber := Some 2748 |}] |}.

Definition hello (id : string) : AgentMessage :=
  AgentHello {| hello_ProtocolVersion := "1"; hello_AgentId := id;
                hello_Capabilities := [" collect_now "; "plugin.reconcile.v1"; "plugin_reconcile.instance_descriptors.v1"; "credential_lease.v1"; ""]%string;
                hello_ActiveCommands := [] |}.

Definition hand_over (now : Z) (d : delivery) (sh : shared) : reply * shared :=
  let x := {| context_over := false; clock := at_second now; clock' := at_second now |} in
  let '(rep, r') := deliver d x (registry sh) in
  (rep, sh <| registry := r' |>
           <| accepted := accepted sh ++ match rep, sessions (registry sh) !! delivery_agent d with Ok _, Some a => [(a, delivery_message d)] | _, _ => [] end |>).

Lemma hand_over_delivers now d sh : exists x, delivers d x sh (fst (hand_over now d sh)) (snd (hand_over now d sh)).
Proof. eexists. unfold hand_over, delivers. destruct (deliver d _ (registry sh)) as [rep r'] eqn:E. rewrite E. by split. Qed.

(** A call of a handler of the dispatcher. *)
Definition answer_call (now : Z) {A} (c : CommandLifecycle.call A) (t : tables) (sh : shared) : A * tables * shared :=
  match c in CommandLifecycle.call A return A * tables * shared with
  | CDispatch agentID e => let '(rep, sh') := hand_over now (DDispatch agentID e) sh in (to_outcome rep, t, sh')
  | CStart agentID s => let '(rep, sh') := hand_over now (DStart agentID s) sh in (to_outcome rep, t, sh')
  | CReplayStart agentID s => let '(rep, sh') := hand_over now (DReplayStart agentID s) sh in (to_outcome rep, t, sh')
  | CCancelPrepared agentID id reason => let '(rep, sh') := hand_over now (DCancelPrepared agentID id reason) sh in (to_outcome rep, t, sh')
  | CCancelExecution agentID id token revision reason =>
      let '(rep, sh') := hand_over now (DCancelExecution agentID id token revision reason) sh in (to_outcome rep, t, sh')
  | c => (fst (reply_at now c t), snd (reply_at now c t), sh)
  end.

Lemma answer_call_step now {A} (c : CommandLifecycle.call A) t sh b t' sh' : answer_call now c t sh = (b, t', sh') -> table_step c t b t' /\ on_sessions c sh b sh'.
Proof.
  intros E. destruct c; cbn [answer_call] in E; try (injection E as <- <- <-; split; [apply (reply_step now)|reflexivity]);
    match type of E with context [hand_over now ?d sh] => destruct (hand_over_delivers now d sh) as [x Hd]; destruct (hand_over now d sh) as [rep sh2] end; injection E as <- <- <-;
    (split; [reflexivity|]); exists x, rep; (split; [exact Hd|reflexivity]).
Qed.

(** The secret of an issued credential. *)
Definition issued_secret : bytes := [115; 51; 99; 114; 51; 116].
Definition issued (mem : memory) (q : CredentialLeaseRequest) : CredentialLeaseResponse :=
  {| cl_RequestNonce := cr_RequestNonce q; cl_LeaseId := "lease-1"; cl_InstanceId := cr_InstanceId q; cl_AssignmentId := cr_AssignmentId q; cl_CredentialRevision := 1;
     cl_ExpiresAt := Some (Timestamp_New (at_second 300)); cl_Credential := Some {| Username := "monitor"; SecretBytes := Some (Slice (length mem) (length issued_secret)) |};
     cl_DatabaseFamily := cr_DatabaseFamily q; cl_ConfigurationRevision := cr_ConfigurationRevision q; cl_OperationRevision := cr_OperationRevision q; cl_ValidForSeconds := 60 |}.

(** A call of a stream; the first message of the agent is [first]. *)
Definition answer_stream (now : Z) (first : AgentMessage) {A} (c : stream_call A) (st : stream) (sh : shared) : option (A * stream * shared * list ServerMessage) :=
  match c in stream_call A return option (A * stream * shared * list ServerMessage) with
  | SNow => Some (at_second now, st, sh, [])
  | SAuthorizeAgentCredential _ _ _ => Some (true, st, sh, [])
  | SRecv => Some (Some first, st, sh, [])
  | SRegister capabilities active fp serial =>
      match registerCredential (stream_agent st) capabilities active fp serial (registry sh) with
      | (Ok a, r') => Some (Ok tt, st <| st_session := Some a |>, sh <| registry := r' |>, [])
      | (Err e, r') => Some (Err e, st, sh <| registry := r' |>, [])
      end
  | SSendHelloAck ack => Some (true, st, sh, [ack])
  | SReceive => Some (tt, st <| st_receiver := Receiving |>, sh, [])
  | SSnapshot => Some (st_session st ≫= fun a => snapshot (stream_agent st) a (registry sh), st, sh, [])
  | SSession => Some (Session (stream_agent st) (registry sh), st, sh, [])
  | SSupports required => Some (Supports (stream_agent st) required (registry sh), st, sh, [])
  | SSubmit _ => Some (SubmitOk, st, sh, [])
  | SEnqueue m => let '(rep, sh') := hand_over now (DEnqueue (stream_agent st) m) sh in Some (rep, st, sh', [])
  | SIssueCredential _ q => Some ((Some (issued (secrets sh) q), false), st, sh <| secrets := secrets sh ++ [issued_secret] |>, [])
  | SClear p => Some (tt, st, sh <| secrets ::= clear_message (server_message EmptyString p) |>, [])
  | _ => None
  end.

Lemma answer_stream_performs now first {A} (c : stream_call A) st sh b st' sh' l : answer_stream now first c st sh = Some (b, st', sh', l) -> performs c st sh b st' sh' l.
Proof.
  destruct c; cbn [answer_stream performs]; try discriminate; intros E; try (injection E as <- <- <- <-; done).
  - destruct (registerCredential _ _ _ _ _ _) as [[a|e] r']; injection E as <- <- <- <-; done.
  - injection E as <- <- <- <-. split_and!; [done..|]. by right.
  - destruct (hand_over_delivers now (DEnqueue (stream_agent st) m) sh) as [x Hd]. destruct (hand_over _ _ _) as [rep sh2]. injection E as <- <- <- <-. split_and!; [done..|]. by exists x.
  - injection E as <- <- <- <-. split_and!; [done..|]. eexists. split; [|reflexivity]. by exists issued_secret.
Qed.

(** The next step of a stream by itself: of its program, of the loop, or of its end. *)
Definition next_step (now : Z) (first : AgentMessage) (st : stream) (sh : shared) : option (stream * shared * list ServerMessage) :=
  match st_activity st with
  | Working (Call c k) => (fun '(b, st', sh', l) => (doing st' (k b), sh', l)) <$> answer_stream now first c st sh
  | Working (Return Serve) =>
      match st_session st with
      | Some a =>
          match ss_send <$> heap (registry sh) !! a, st_received st with
          | Some (m :: q), _ => Some (st <| st_activity := Sending m |>, sh <| registry ::= update_session a (fun s => s <| ss_send := q |>) |>, [])
          | _, Some (ItemMessage m) => Some (doing (st <| st_received := None |>) (handleAgentMessage (stream_agent st) m), sh, [])
          | _, _ => None
          end
      | None => None
      end
  | Working (Return (Close e)) => Some (st <| st_activity := Cancelling e |>, sh, [])
  | Working (Return (Ended e)) => Some (st <| st_activity := Finished e |>, sh, [])
  | Sending m => Some (doing (st <| st_delivered ::= fun l => l ++ [m] |>) (Return Serve), sh <| secrets ::= clear_message m |>,
                       [MkServerMessage (MessageId m) (Some (at_second now)) (Payload m)])
  | _ => None
  end.

Lemma next_step_step now first st sh st' sh' l : next_step now first st sh = Some (st', sh', l) -> stream_step st sh st' sh' l.
Proof.
  unfold next_step. destruct (st_activity st) as [[[|e|e]|A c k]|A h q k|m|e|e|e] eqn:Ha; try discriminate; intros E.
  - destruct (st_session st) as [a|] eqn:Es; [|done]. destruct (heap (registry sh) !! a) as [s|] eqn:Eh; cbn in E.
    + destruct (ss_send s) as [|m q] eqn:Eq; [|injection E as <- <- <-; by eapply stream_takes]. destruct (st_received st) as [[m|]|] eqn:Er; try discriminate. injection E as <- <- <-.
      by apply stream_handles.
    + destruct (st_received st) as [[m|]|] eqn:Er; try discriminate. injection E as <- <- <-. by apply stream_handles.
  - injection E as <- <- <-. by apply stream_closes.
  - injection E as <- <- <-. by apply stream_returns.
  - destruct (answer_stream now first c st sh) as [[[[b st2] sh2] l2]|] eqn:Ec; [|done]. injection E as <- <- <-. eapply stream_calls; [done|]. by eapply answer_stream_performs.
  - injection E as <- <- <-. by apply stream_sends.
Qed.

Definition server : Server := {| credentialsAuthorizer := true |}.

(** What happens to the only control plane of a world. *)
Inductive action :=
  | Work {A : Type} (h : handler A)              (* a worker starts *)
  | Call_ (i : nat)                              (* worker [i] makes a call *)
  | Accept (peer : option ConnectionState)       (* a stream arrives *)
  | Go (i : nat) (first : AgentMessage)          (* stream [i] or its observer takes a step *)
  | Hear (i : nat) (m : AgentMessage)            (* its agent sends a message *)
  | Offer (i : nat)                              (* which reaches the loop *)
  | Kill (agentID : string).                     (* the host service terminates a session *)

Definition change (pl : plane) (i : nat) (st : stream) (sh : shared) : plane := pl <| pl_streams ::= <[i := st]> |> <| pl_shared := sh |>.

(** A step of stream [i] by itself. *)
Definition step_alone (next : option (stream * shared * list ServerMessage)) (i : nat) (st : stream) (t : tables) (pl : plane) :
  option (tables * list sent * list (string * ServerMessage) * plane) :=
  match next with Some (st', sh', l) => Some (t, [], pair (stream_agent st) <$> l, change pl i st' sh') | None => None end.

Definition act_plane (now : Z) (a : action) (t : tables) (pl : plane) : option (tables * list sent * list (string * ServerMessage) * plane) :=
  match a with
  | Work h => Some (t, [], [], pl <| pl_workers ::= fun l => l ++ [Process _ h (handle (pl_lifecycle pl) h)] |>)
  | Call_ i =>
      match pl_workers pl !! i with
      | Some (Process A h (Call c k)) =>
          let '(b, t', sh') := answer_call now c t (pl_shared pl) in
          Some (t', emits c, [], pl <| pl_workers := take i (pl_workers pl) ++ Process A h (k b) :: drop (S i) (pl_workers pl) |> <| pl_shared := sh' |>)
      | _ => None
      end
  | Accept peer => Some (t, [], [], pl <| pl_streams ::= fun l => l ++ [new_stream (pl_server pl) peer] |>)
  | Go i first =>
      match pl_streams pl !! i with
      | Some st =>
          match st_activity st with
          | Working (Call (SObserve h) k) => Some (t, [], [], pl <| pl_streams ::= <[i := st <| st_activity := Observing h (handle (pl_lifecycle pl) h) k |>]> |>)
          | Observing h (Call c k') k =>
              let '(b, t', sh') := answer_call now c t (pl_shared pl) in
              Some (t', emits c, [], change pl i (st <| st_activity := Observing h (k' b) k |>) sh')
          | Observing h (Return a) k => Some (t, [], [], pl <| pl_streams ::= <[i := doing st (k a)]> |>)
          | _ => step_alone (next_step now first st (pl_shared pl)) i st t pl
          end
      | None => None
      end
  | Hear i m =>
      match pl_streams pl !! i with
      | Some st =>
          match st_receiver st, m with
          | Receiving, AgentHeartbeat hb =>
              match recordHeartbeat (stream_agent st) hb (at_second now) (registry (pl_shared pl)) with
              | Some r' => step_alone (Some (st <| st_receiver := Offering (ItemMessage m) |>, pl_shared pl <| registry := r' |>, [])) i st t pl
              | None => None
              end
          | Receiving, _ => step_alone (Some (st <| st_receiver := Offering (ItemMessage m) |>, pl_shared pl, [])) i st t pl
          | _, _ => None
          end
      | None => None
      end
  | Offer i =>
      match pl_streams pl !! i with
      | Some st =>
          match st_receiver st, st_received st with
          | Offering (ItemMessage m), None => step_alone (Some (st <| st_received := Some (ItemMessage m) |> <| st_receiver := Receiving |>, pl_shared pl, [])) i st t pl
          | _, _ => None
          end
      | None => None
      end
  | Kill agentID =>
      match Terminate agentID (registry (pl_shared pl)) (secrets (pl_shared pl)) with
      | (Some a, r', mem') => Some (t, [], [], pl <| pl_shared ::= fun sh => sh <| registry := r' |> <| secrets := mem' |> |> <| pl_cancelling ::= fun l => l ++ [a] |>)
      | _ => None
      end
  end.

Lemma step_alone_step next i st t pl t' out' wire' pl' : pl_streams pl !! i = Some st ->
  (forall st' sh' l, next = Some (st', sh', l) -> stream_step st (pl_shared pl) st' sh' l) -> step_alone next i st t pl = Some (t', out', wire', pl') -> plane_step t pl t' out' wire' pl'.
Proof. intros Hi Hn. unfold step_alone. destruct next as [[[st2 sh2] l]|]; [|done]. intros [= <- <- <- <-]. eapply plane_stream; [done|]. by apply Hn. Qed.

Lemma act_plane_step now a t pl t' out' wire' pl' : act_plane now a t pl = Some (t', out', wire', pl') -> plane_step t pl t' out' wire' pl'.
Proof.
  destruct a as [A h|i|peer|i first|i m|i|agentID]; cbn [act_plane]; intros E.
  - injection E as <- <- <- <-. apply plane_starts.
  - destruct (pl_workers pl !! i) as [[A h [a|B c k]]|] eqn:Ew; try discriminate. destruct (answer_call now c t (pl_shared pl)) as [[b t2] sh2] eqn:Ec. injection E as <- <- <- <-.
    destruct (answer_call_step _ _ _ _ _ _ _ Ec) as [H1 H2]. eapply plane_calls; [|done..]. by rewrite take_drop_middle.
  - injection E as <- <- <- <-. apply plane_accepts.
  - destruct (pl_streams pl !! i) as [st|] eqn:Ei; [|done].
    assert (Hnext : step_alone (next_step now first st (pl_shared pl)) i st t pl = Some (t', out', wire', pl') -> plane_step t pl t' out' wire' pl').
    { apply step_alone_step; [done|]. intros st2 sh2 l. apply next_step_step. }
    destruct (st_activity st) as [[|A c k]|A h [a|B c k'] k| | | |] eqn:Ha; auto.
    + destruct c; auto. injection E as <- <- <- <-. by apply plane_observes.
    + injection E as <- <- <- <-. by eapply plane_observed.
    + destruct (answer_call now c t (pl_shared pl)) as [[b t2] sh2] eqn:Ec. injection E as <- <- <- <-. destruct (answer_call_step _ _ _ _ _ _ _ Ec) as [H1 H2]. by eapply plane_observer_calls.
  - destruct (pl_streams pl !! i) as [st|] eqn:Ei; [|done]. destruct (st_receiver st) eqn:Er; try discriminate. pose proof (stream_receives st (pl_shared pl) m (at_second now) Er) as Hs.
    destruct m as [|hb| | | | | | | | | | | |]; try (eapply step_alone_step; [done| |exact E]; by intros ??? [= <- <- <-]).
    destruct (recordHeartbeat _ _ _ _); [|done]. eapply step_alone_step; [done| |exact E]. by intros ??? [= <- <- <-].
  - destruct (pl_streams pl !! i) as [st|] eqn:Ei; [|done]. destruct (st_receiver st) as [| |[m|]|] eqn:Er; try discriminate. destruct (st_received st) eqn:Ed; [done|].
    eapply step_alone_step; [done| |exact E]. intros ??? [= <- <- <-]. exact (stream_offers st (pl_shared pl) (ItemMessage m) Er Ed).
  - destruct (Terminate agentID _ _) as [[[a|] r'] mem'] eqn:Et; [|done]. injection E as <- <- <- <-. by eapply plane_terminates.
Qed.

(** An action on a world with one control plane; an action that is not possible changes nothing. *)
Definition act (now : Z) (w : world) (a : action) : world :=
  match w_planes w with
  | [pl] => match act_plane now a (w_db w) pl with
            | Some (t', out', wire', pl') => World t' (w_handed w ++ out') (w_wire w ++ wire') [pl']
            | None => w
            end
  | _ => w
  end.
Definition acts (now : Z) (l : list action) (w : world) : world := fold_left (act now) l w.

Lemma act_steps now w a : rtc world_step w (act now w a).
Proof.
  unfold act. destruct w as [t out wire [|pl [|]]]; cbn; try apply rtc_refl. destruct (act_plane now a t pl) as [[[[t' out'] wire'] pl']|] eqn:E; [|apply rtc_refl].
  apply rtc_once. apply (world_plane t out wire [] pl [] t' out' wire' pl'). by eapply act_plane_step.
Qed.
Lemma acts_steps now l : forall w, rtc world_step w (acts now l w).
Proof. induction l as [|a l IH]; intros w; [apply rtc_refl|]. etrans; [apply act_steps|apply IH]. Qed.

Definition booted : world := World (Tables ∅ ∅ ∅) [] [] [fresh_plane server lifecycle 4].
Lemma booted_reachable : reachable_world booted.
Proof. apply rtc_once. exact (world_boots (Tables ∅ ∅ ∅) [] [] [] server lifecycle 4). Qed.
Lemma acts_reachable now l w : reachable_world w -> reachable_world (acts now l w).
Proof. unfold reachable_world. intros Hr. etrans; [exact Hr|apply acts_steps]. Qed.

(** A job is created, its agent connects, the command is dispatched; the agent reports it prepared twice, and finishes it. *)
Definition go (i n : nat) : list action := replicate n (Go i (hello "host-1")).
Definition calls (i n : nat) : list action := replicate n (Call_ i).
Definition says (i : nat) (m : AgentMessage) (n : nat) : list action := Hear i m :: Offer i :: go i n.

Definition created : world := acts 2 (Work (HCreate (fun _ => true) job [command]) :: calls 0 1) booted.
Definition connected : world := acts 5 (Accept (certificate "host-1" [1; 2; 3]) :: go 0 40) created.
Definition waiting : world := acts 10 (Work (HDispatchPending (at_second 10)) :: calls 1 60) connected.
Definition prepared : AgentMessage := AgentCommandPrepared {| p_CommandId := "command-1"; p_EnvelopeDigest := sha256 [2] |}.
Definition started : world := acts 11 (go 0 2 ++ says 0 prepared 60) waiting.
Definition started_twice : world := acts 12 (says 0 prepared 60) started.
Definition ended : world := acts 20 (says 0 (AgentCommandResult finished) 60) started_twice.

Lemma created_reachable : reachable_world created.
Proof. apply acts_reachable, booted_reachable. Qed.
Lemma connected_reachable : reachable_world connected.
Proof. apply acts_reachable, created_reachable. Qed.
Lemma waiting_reachable : reachable_world waiting.
Proof. apply acts_reachable, connected_reachable. Qed.
Lemma started_reachable : reachable_world started.
Proof. apply acts_reachable, waiting_reachable. Qed.
Lemma started_twice_reachable : reachable_world started_twice.
Proof. apply acts_reachable, started_reachable. Qed.
Lemma ended_reachable : reachable_world ended.
Proof. apply acts_reachable, started_twice_reachable. Qed.

Definition payloads (w : world) : list server_payload := (fun e => Payload (snd e)) <$> w_wire w.
Definition only_plane (w : world) : plane := match w_planes w with [pl] => pl | _ => fresh_plane server lifecycle 1 end.

Lemma wire_lookup w i agentID m : w_wire w !! i = Some (agentID, m) -> on_wire w agentID (Payload m).
Proof. intros Hi. exists m. split; [|done]. by eapply list_elem_of_lookup_2. Qed.

Lemma agents_receive_one_story_witness : exists start start', tail (payloads started_twice) = [ServerCommand signed; ServerCommandStart start; ServerCommandStart start'] /\
  s_CommandId start = "command-1"%string /\ start = start'.
Proof.
  assert (E : exists m m' start start', w_wire started_twice !! 2%nat = Some ("host-1"%string, m) /\ w_wire started_twice !! 3%nat = Some ("host-1"%string, m') /\
    Payload m = ServerCommandStart start /\ Payload m' = ServerCommandStart start' /\ tail (payloads started_twice) = [ServerCommand signed; ServerCommandStart start; ServerCommandStart start'] /\
    s_CommandId start = "command-1"%string /\ s_CommandId start' = "command-1"%string).
  { do 4 eexists. split_and!; vm_compute; reflexivity. }
  destruct E as (m & m' & start & start' & E1 & E2 & P1 & P2 & E3 & E4 & E5). exists start, start'. split; [exact E3|]. split; [exact E4|].
  apply wire_lookup in E1, E2. rewrite P1 in E1. rewrite P2 in E2.
  refine (proj2 (agents_receive_one_story started_twice "host-1" _ (SentStart "host-1" start) "host-1" _ (SentStart "host-1" start') started_twice_reachable E1 E2 eq_refl eq_refl _)).
  cbn. congruence.
Defined.

(** The job is cancelled before its agent connects and its command is dispatched. *)
Definition called_off : world := acts 3 (Work (HRequestCancel PhaseDemo.scope "job-1" "ops" 1 (at_second 3)) :: calls 1 2) created.
Definition called_off_later : world := acts 10 (Accept (certificate "host-1" [1; 2; 3]) :: go 0 40 ++ Work (HDispatchPending (at_second 10)) :: calls 2 100 ++ go 0 20) called_off.

Lemma no_start_reaches_cancelled_commands_witness : phase_of (w_db called_off_later) = Some CommandPhaseCancelled /\ length (w_wire called_off_later) = 2%nat /\
  forall agentID start, on_wire called_off_later agentID (ServerCommandStart start) -> s_CommandId start <> "command-1"%string.
Proof.
  split; [vm_compute; reflexivity|]. split; [vm_compute; reflexivity|]. intros agentID start.
  assert (E : exists r, outbox (w_db called_off) !! "command-1"%string = Some r /\ is_Some (o_CancellationRequestedAt (message r)) /\ o_ExecutionRevision (message r) = 0).
  { eexists. split; [vm_compute; reflexivity|]. split; [eexists; reflexivity|reflexivity]. }
  destruct E as (r & E & Hc & Hz). refine (no_start_reaches_cancelled_commands called_off called_off_later "command-1" r agentID start _ _ E Hc Hz).
  - apply acts_reachable, created_reachable.
  - apply acts_steps.
Defined.

Lemma acknowledgements_are_true_witness : exists a, on_wire ended "host-1" (ServerResultAcknowledgement a) /\ ra_Persisted a = true /\ acknowledged "host-1" a (w_db ended).
Proof.
  assert (E : exists m a, w_wire ended !! 4%nat = Some ("host-1"%string, m) /\ Payload m = ServerResultAcknowledgement a /\ ra_Persisted a = true).
  { do 2 eexists. split_and!; vm_compute; reflexivity. }
  destruct E as (m & a & E & P & Hp). apply wire_lookup in E. rewrite P in E. exists a. split; [exact E|]. split; [exact Hp|].
  exact (acknowledgements_are_true ended "host-1" a ended_reachable E).
Defined.

Lemma streams_deliver_in_order_witness : exists st s, pl_streams (only_plane waiting) !! 0%nat = Some st /\ length (ss_send s) = 1%nat /\ in_order (only_plane waiting) st 0 s.
Proof.
  assert (E : exists st s, pl_streams (only_plane waiting) !! 0%nat = Some st /\ st_session st = Some 0%nat /\ heap (registry (pl_shared (only_plane waiting))) !! 0%nat = Some s /\
    length (ss_send s) = 1%nat /\ w_planes waiting = [only_plane waiting]).
  { do 2 eexists. split_and!; vm_compute; reflexivity. }
  destruct E as (st & s & E1 & E2 & E3 & E4 & E5). exists st, s. split; [exact E1|]. split; [exact E4|].
  refine (streams_deliver_in_order waiting (only_plane waiting) st 0 s waiting_reachable _ (list_elem_of_lookup_2 _ _ _ E1) E2 E3). rewrite E5. by left.
Defined.

Lemma leases_follow_starts_witness : ExecutionLeaseActive "host-1" "command-1" (at_second 30) (registry (pl_shared (only_plane started))) = true /\
  ExecutionLeaseActive "host-1" "command-1" (at_second 300) (registry (pl_shared (only_plane started))) = false /\
  exists a s r, liveSession "host-1" (registry (pl_shared (only_plane started))) = Some (a, s) /\ outbox (w_db started) !! "command-1"%string = Some r /\
    o_TargetID (message r) = "host-1"%string /\ 0 < o_ExecutionRevision (message r) /\ revision_of s "command-1" = o_ExecutionRevision (message r) /\
    sha256 (token_of s "command-1") = o_ExecutionTokenHash (message r).
Proof.
  assert (E : w_planes started = [only_plane started]) by (vm_compute; reflexivity). split; [vm_compute; reflexivity|]. split; [vm_compute; reflexivity|].
  refine (leases_follow_starts started (only_plane started) "host-1" "command-1" (at_second 30) started_reachable _ _); [rewrite E; by left|vm_compute; reflexivity].
Defined.

(** A credential is requested, queued and sent; or its session is terminated before it is sent. *)
Definition request : AgentMessage :=
  AgentCredentialLeaseRequest {| cr_RequestNonce := replicate 32 9; cr_InstanceId := "db-1"; cr_AssignmentId := "as-1"; cr_ConfigurationRevision := 3; cr_DatabaseFamily := "mysql";
                                 cr_OperationRevision := 4 |}.
Definition leased : world := acts 30 (says 0 request 5) connected.
Definition lease_sent : world := acts 31 (go 0 2) leased.
Definition lease_dropped : world := acts 31 [Kill "host-1"] leased.

Lemma secrets_are_wiped_witness : secrets (pl_shared (only_plane leased)) = [issued_secret] /\ in_use (only_plane leased) 0 /\
  secrets (pl_shared (only_plane lease_sent)) = [replicate 6 0] /\ secrets (pl_shared (only_plane lease_dropped)) = [replicate 6 0].
Proof.
  assert (E : w_planes leased = [only_plane leased] /\ secrets (pl_shared (only_plane leased)) = [issued_secret]) by (split; vm_compute; reflexivity). destruct E as [E1 E2].
  split; [exact E2|]. split; [|split; vm_compute; reflexivity].
  refine (secrets_are_wiped leased (only_plane leased) 0 issued_secret _ _ _ _).
  - apply acts_reachable, connected_reachable.
  - rewrite E1. by left.
  - by rewrite E2.
  - intros Hf. apply Forall_cons in Hf as [Hf _]. discriminate Hf.
Defined.

Lemma sessions_are_authenticated_witness : exists s, liveSession "host-1" (registry (pl_shared (only_plane connected))) = Some (0%nat, s) /\ ss_credentialSerial s = "abc"%string /\
  exists i st, pl_streams (only_plane connected) !! i = Some st /\ verifiedAgentCredential (st_peer st) "host-1" = Some (ss_credentialLeaf s, ss_credentialSerial s).
Proof.
  assert (E : exists s, w_planes connected = [only_plane connected] /\ liveSession "host-1" (registry (pl_shared (only_plane connected))) = Some (0%nat, s) /\
    ss_credentialSerial s = "abc"%string /\ credentialsAuthorizer (pl_server (only_plane connected)) = true) by (eexists; split_and!; vm_compute; reflexivity).
  destruct E as (s & E1 & E2 & E3 & E4). exists s. split; [exact E2|]. split; [exact E3|].
  assert (Hin : only_plane connected ∈ w_planes connected) by (rewrite E1; by left).
  destruct (sessions_are_authenticated connected (only_plane connected) "host-1" 0 s connected_reachable Hin E2) as (i & st & Hi & _ & [_ Hc] & _). exists i, st. split; [exact Hi|exact (Hc E4)].
Defined.
End SessionDemo.
