(* ===== verification/CommandJournal.v ===== *)
(** * The agent's command journal

    Translation of [backend/internal/agent/commandjournal/journal.go]: the
    bbolt-backed journal of the Prepare -> Start two-phase protocol.  The bbolt
    buckets are finite maps ([commands] by command id, [meta] by nonce digest);
    a bbolt [Update] whose closure fails leaves them unchanged.  SHA-256 and the
    deterministic protobuf encoding are parameters of the model.  The context
    checks, the commit and the fsync can fail: [Env] says which do. *)

From S2P Require Import Prelude JobModel JobRepository CommandLifecycle Encodings.

#[local] Close Scope Z_scope.

(** ** Data *)

Inductive JournalError :=
| ErrInvalidEnvelope | ErrCommandNotFound | ErrCommandExpired | ErrInvalidTransition
| ErrCommandIDConflict | ErrNonceReplay | ErrStartMismatch | ErrAlreadyRunning
| ErrStartConflict | ErrStartDeadlineExceeded | ErrResultDigestMismatch
| ErrResultFence      (** the unnamed error of [Complete] *)
| ErrInvalidDigest    (** "command journal digest is invalid" *)
| ErrInvalidFence     (** "running command journal entry has an invalid execution fence" *)
| ErrMarshal          (** the protobuf encoder refused the message *)
| ErrUnmarshal        (** the protobuf decoder refused the bytes *)
| ErrDecode           (** the JSON decoder refused the bucket value *)
| ErrContext | ErrCommit | ErrSync.

Inductive State :=
| StatePrepared | StateStartAuthorized | StateRunning | StateInterrupted
| StateCompleted | StateCancelled | StateResultConflicted.

#[global] Instance State_eq_dec : EqDecision State.
Proof. solve_decision. Defined.

Abbreviation bytes := (list Z).

Record storedEntry := {
  CommandID : string;
  st : State;
  Envelope : option bytes;
  EnvelopeDigestHex : string;
  ExpiresAtUnixNano : Z;
  PreparedAtUnixNano : Z;
  StartedAtUnixNano : Z;
  InterruptedAtUnixNano : Z;
  CompletedAtUnixNano : Z;
  ReportedAtUnixNano : Z;
  ExecutionToken : bytes;
  ExecutionTokenHashHex : string;
  LeaseRevision : Z;
  Result : bytes;
  ResultDigestHex : string;
  AcknowledgedResultDigestHex : string;
  ResultConflictedAtUnixNano : Z;
  ResultConflictReason : string
}.

Record nonceReservation := {
  nr_CommandID : string;
  nr_EnvelopeDigestHex : string;
  nr_ExpiresAtUnixNano : Z
}.

(** A bucket value: JSON the decoder accepts, or bytes it refuses. *)
Inductive cell (A : Type) := Encoded (a : A) | Garbage.
Arguments Encoded {A} a.
Arguments Garbage {A}.

Record BoltJournal := {
  commands : gmap string (cell storedEntry);
  meta : gmap string (cell nonceReservation)
}.

Definition digest_size : nat := 32.

(** What can go wrong around one operation: the context is done when it is
    checked on entry or inside the transaction, the commit fails, the fsync fails. *)
Record Env := {
  ctx_entry : bool;
  ctx_tx : bool;
  commit_fails : bool;
  sync_fails : bool
}.

Definition fault_free : Env :=
  {| ctx_entry := false; ctx_tx := false; commit_fails := false; sync_fails := false |}.

(** ** Field updates *)

Definition set_state (s : State) (e : storedEntry) : storedEntry :=
  {| CommandID := CommandID e; st := s; Envelope := Envelope e; EnvelopeDigestHex := EnvelopeDigestHex e;
     ExpiresAtUnixNano := ExpiresAtUnixNano e; PreparedAtUnixNano := PreparedAtUnixNano e;
     StartedAtUnixNano := StartedAtUnixNano e; InterruptedAtUnixNano := InterruptedAtUnixNano e;
     CompletedAtUnixNano := CompletedAtUnixNano e; ReportedAtUnixNano := ReportedAtUnixNano e;
     ExecutionToken := ExecutionToken e; ExecutionTokenHashHex := ExecutionTokenHashHex e;
     LeaseRevision := LeaseRevision e; Result := Result e; ResultDigestHex := ResultDigestHex e;
     AcknowledgedResultDigestHex := AcknowledgedResultDigestHex e;
     ResultConflictedAtUnixNano := ResultConflictedAtUnixNano e;
     ResultConflictReason := ResultConflictReason e |}.

Definition set_fence (token : bytes) (hash : string) (revision : Z) (e : storedEntry) : storedEntry :=
  {| CommandID := CommandID e; st := st e; Envelope := Envelope e; EnvelopeDigestHex := EnvelopeDigestHex e;
     ExpiresAtUnixNano := ExpiresAtUnixNano e; PreparedAtUnixNano := PreparedAtUnixNano e;
     StartedAtUnixNano := StartedAtUnixNano e; InterruptedAtUnixNano := InterruptedAtUnixNano e;
     CompletedAtUnixNano := CompletedAtUnixNano e; ReportedAtUnixNano := ReportedAtUnixNano e;
     ExecutionToken := token; ExecutionTokenHashHex := hash;
     LeaseRevision := revision; Result := Result e; ResultDigestHex := ResultDigestHex e;
     AcknowledgedResultDigestHex := AcknowledgedResultDigestHex e;
     ResultConflictedAtUnixNano := ResultConflictedAtUnixNano e;
     ResultConflictReason := ResultConflictReason e |}.

Definition set_started (at_nano : Z) (e : storedEntry) : storedEntry :=
  {| CommandID := CommandID e; st := StateRunning; Envelope := Envelope e; EnvelopeDigestHex := EnvelopeDigestHex e;
     ExpiresAtUnixNano := ExpiresAtUnixNano e; PreparedAtUnixNano := PreparedAtUnixNano e;
     StartedAtUnixNano := at_nano; InterruptedAtUnixNano := InterruptedAtUnixNano e;
     CompletedAtUnixNano := CompletedAtUnixNano e; ReportedAtUnixNano := ReportedAtUnixNano e;
     ExecutionToken := ExecutionToken e; ExecutionTokenHashHex := ExecutionTokenHashHex e;
     LeaseRevision := LeaseRevision e; Result := Result e; ResultDigestHex := ResultDigestHex e;
     AcknowledgedResultDigestHex := AcknowledgedResultDigestHex e;
     ResultConflictedAtUnixNano := ResultConflictedAtUnixNano e;
     ResultConflictReason := ResultConflictReason e |}.

Definition set_terminal (s : State) (interrupted completed : Z) (env : option bytes)
    (res : bytes) (digest : string) (e : storedEntry) : storedEntry :=
  {| CommandID := CommandID e; st := s; Envelope := env; EnvelopeDigestHex := EnvelopeDigestHex e;
     ExpiresAtUnixNano := ExpiresAtUnixNano e; PreparedAtUnixNano := PreparedAtUnixNano e;
     StartedAtUnixNano := StartedAtUnixNano e; InterruptedAtUnixNano := interrupted;
     CompletedAtUnixNano := completed; ReportedAtUnixNano := ReportedAtUnixNano e;
     ExecutionToken := ExecutionToken e; ExecutionTokenHashHex := ExecutionTokenHashHex e;
     LeaseRevision := LeaseRevision e; Result := res; ResultDigestHex := digest;
     AcknowledgedResultDigestHex := AcknowledgedResultDigestHex e;
     ResultConflictedAtUnixNano := ResultConflictedAtUnixNano e;
     ResultConflictReason := ResultConflictReason e |}.

Definition set_reported (at_nano : Z) (digest : string) (e : storedEntry) : storedEntry :=
  {| CommandID := CommandID e; st := st e; Envelope := Envelope e; EnvelopeDigestHex := EnvelopeDigestHex e;
     ExpiresAtUnixNano := ExpiresAtUnixNano e; PreparedAtUnixNano := PreparedAtUnixNano e;
     StartedAtUnixNano := StartedAtUnixNano e; InterruptedAtUnixNano := InterruptedAtUnixNano e;
     CompletedAtUnixNano := CompletedAtUnixNano e; ReportedAtUnixNano := at_nano;
     ExecutionToken := ExecutionToken e; ExecutionTokenHashHex := ExecutionTokenHashHex e;
     LeaseRevision := LeaseRevision e; Result := Result e; ResultDigestHex := ResultDigestHex e;
     AcknowledgedResultDigestHex := digest;
     ResultConflictedAtUnixNano := ResultConflictedAtUnixNano e;
     ResultConflictReason := ResultConflictReason e |}.

Definition set_conflicted (at_nano : Z) (reason : string) (e : storedEntry) : storedEntry :=
  {| CommandID := CommandID e; st := StateResultConflicted; Envelope := Envelope e;
     EnvelopeDigestHex := EnvelopeDigestHex e;
     ExpiresAtUnixNano := ExpiresAtUnixNano e; PreparedAtUnixNano := PreparedAtUnixNano e;
     StartedAtUnixNano := StartedAtUnixNano e; InterruptedAtUnixNano := InterruptedAtUnixNano e;
     CompletedAtUnixNano := CompletedAtUnixNano e; ReportedAtUnixNano := ReportedAtUnixNano e;
     ExecutionToken := ExecutionToken e; ExecutionTokenHashHex := ExecutionTokenHashHex e;
     LeaseRevision := LeaseRevision e; Result := Result e; ResultDigestHex := ResultDigestHex e;
     AcknowledgedResultDigestHex := AcknowledgedResultDigestHex e;
     ResultConflictedAtUnixNano := at_nano; ResultConflictReason := reason |}.

Definition decode {A} (c : cell A) : result JournalError A :=
  match c with Encoded a => Ok a | Garbage => Err ErrDecode end.

(** [resultConflictReasonPattern]: [^[A-Z][A-Z0-9_]{0,127}$] *)
Definition upper (c : Z) : bool := ((65 <=? c) && (c <=? 90))%Z.
Definition valid_reason (reason : string) : bool :=
  match bytes_of reason with
  | [] => false
  | c :: rest =>
      upper c && bool_decide (length rest <= 127)
      && forallb (fun d => upper d || ((48 <=? d) && (d <=? 57))%Z || (d =? 95)%Z) rest
  end.

(** [unixNanoTime]: 0 is the zero time. *)
Definition unixNanoTime (value : Z) : time := if (value =? 0)%Z then zero_time else UnixNanoTime value.

Definition decodeDigest (encoded : string) : result JournalError bytes :=
  match hex_decode encoded with
  | Some d => if bool_decide (length d = digest_size) then Ok d else Err ErrInvalidDigest
  | None => Err ErrInvalidDigest
  end.

(** [subtle.ConstantTimeCompare(a, b) == 1] *)
Definition bytes_equal (a b : bytes) : bool := bool_decide (a = b).

Definition matchesFence (e : storedEntry) (token : bytes) (revision : Z) : bool :=
  bool_decide (length (ExecutionToken e) = digest_size) && bool_decide (length token = digest_size)
  && bytes_equal (ExecutionToken e) token && (LeaseRevision e =? revision)%Z.

(** The public view of a stored entry. *)
Record Entry := {
  je_CommandID : string;
  je_State : State;
  je_Envelope : option CommandEnvelope;
  je_EnvelopeDigest : bytes;
  je_ExpiresAt : time;
  je_PreparedAt : time;
  je_StartedAt : time;
  je_InterruptedAt : time;
  je_CompletedAt : time;
  je_ReportedAt : time;
  je_ExecutionToken : bytes;
  je_ExecutionTokenHash : bytes;
  je_LeaseRevision : Z;
  je_Result : option CommandResult;
  je_ResultDigest : bytes;
  je_ConflictedAt : time;
  je_ConflictReason : string
}.

Definition no_digest : bytes := replicate digest_size 0%Z.

(** bbolt iterates a bucket in byte order of its keys. *)
Definition key_le {A} (a b : string * A) : Prop := String.leb (fst a) (fst b) = true.
#[global] Instance key_le_dec {A} : RelDecision (@key_le A).
Proof. intros a b. unfold key_le. apply _. Defined.
Definition bucket_list {A} (m : gmap string A) : list (string * A) := merge_sort key_le (map_to_list m).

Section Journal.

(** SHA-256 and the deterministic protobuf codec are not code of the repository. *)
Context (sha256 : bytes -> bytes).
Context (marshal_envelope : CommandEnvelope -> option bytes)
        (unmarshal_envelope : bytes -> option CommandEnvelope).
Context (marshal_result : CommandResult -> option bytes)
        (unmarshal_result : bytes -> option CommandResult).

Definition validStoredFence (e : storedEntry) : bool :=
  if negb (bool_decide (length (ExecutionToken e) = digest_size)) || (LeaseRevision e =? 0)%Z then false
  else bool_decide (ExecutionTokenHashHex e = hex_encode (sha256 (ExecutionToken e))).

Definition encodeResult (r : CommandResult) : result JournalError (bytes * bytes) :=
  match marshal_result r with
  | None => Err ErrMarshal
  | Some encoded => Ok (encoded, sha256 encoded)
  end.

Definition interrupted_result (e : storedEntry) : CommandResult :=
  {| r_CommandId := CommandID e; r_State := RESULT_INTERRUPTED;
     r_Summary := "command execution was interrupted before a terminal result"; r_Artifacts := [];
     r_ErrorCode := "EXECUTION_INTERRUPTED";
     r_ExecutionToken := ExecutionToken e; r_LeaseRevision := LeaseRevision e; r_MetricTemplateTrialResult := None |}%string.

Definition setInterrupted (e : storedEntry) (at_ : time) : result JournalError storedEntry :=
  match encodeResult (interrupted_result e) with
  | Err x => Err x
  | Ok (encoded, digest) =>
      let nano := UnixNano (UTC at_) in
      Ok (set_terminal StateInterrupted nano nano (Envelope e) encoded (hex_encode digest) e)
  end.

(** [transition]: one read-modify-write of an entry in a bbolt transaction, then
    an fsync.  The closure's error aborts the transaction. *)
Definition transition {A} (env : Env) (j : BoltJournal) (commandID : string)
    (update : storedEntry -> result JournalError (storedEntry * A)) : BoltJournal * result JournalError A :=
  if ctx_entry env then (j, Err ErrContext)
  else if blank commandID then (j, Err ErrCommandNotFound)
  else if ctx_tx env then (j, Err ErrContext)
  else match commands j !! commandID with
  | None => (j, Err ErrCommandNotFound)
  | Some encoded =>
      match decode encoded with
      | Err x => (j, Err x)
      | Ok entry =>
          match update entry with
          | Err x => (j, Err x)
          | Ok (entry', a) =>
              if commit_fails env then (j, Err ErrCommit)
              else
                let j' := {| commands := <[commandID := Encoded entry']> (commands j); meta := meta j |} in
                if sync_fails env then (j', Err ErrSync) else (j', Ok a)
          end
      end
  end.

Definition new_entry (envelope : CommandEnvelope) (encoded : bytes) (expires at_ : time) : storedEntry :=
  {| CommandID := e_CommandId envelope; st := StatePrepared; Envelope := Some encoded;
     EnvelopeDigestHex := hex_encode (sha256 encoded);
     ExpiresAtUnixNano := UnixNano (UTC expires); PreparedAtUnixNano := UnixNano (UTC at_);
     StartedAtUnixNano := 0; InterruptedAtUnixNano := 0; CompletedAtUnixNano := 0; ReportedAtUnixNano := 0;
     ExecutionToken := []; ExecutionTokenHashHex := ""; LeaseRevision := 0; Result := [];
     ResultDigestHex := ""; AcknowledgedResultDigestHex := ""; ResultConflictedAtUnixNano := 0;
     ResultConflictReason := "" |}%string.

Definition nonceKey (nonce : bytes) : string := ("nonce:" +:+ hex_encode (sha256 nonce))%string.

(** The transaction of [Prepare]: whether the entry is inserted, or the error. *)
Definition prepare_tx (env : Env) (j : BoltJournal) (entry : storedEntry) (key : string) (at_ : time)
    : result JournalError (option BoltJournal) :=
  if ctx_tx env then Err ErrContext
  else match commands j !! CommandID entry with
  | Some existing =>
      match decode existing with
      | Err x => Err x
      | Ok stored =>
          if bool_decide (EnvelopeDigestHex stored = EnvelopeDigestHex entry) then Ok None
          else Err ErrCommandIDConflict
      end
  | None =>
      let reservation := {| nr_CommandID := CommandID entry; nr_EnvelopeDigestHex := EnvelopeDigestHex entry;
                            nr_ExpiresAtUnixNano := ExpiresAtUnixNano entry |} in
      let insert := Ok (Some {| commands := <[CommandID entry := Encoded entry]> (commands j);
                                meta := <[key := Encoded reservation]> (meta j) |}) in
      match meta j !! key with
      | None => insert
      | Some encoded =>
          match decode encoded with
          | Err x => Err x
          | Ok existing =>
              if After (UnixNanoTime (nr_ExpiresAtUnixNano existing)) (UTC at_)
                 && (negb (bool_decide (nr_CommandID existing = CommandID entry))
                     || negb (bool_decide (nr_EnvelopeDigestHex existing = EnvelopeDigestHex entry)))
              then Err ErrNonceReplay
              else insert
          end
      end
  end.

Definition Prepare (env : Env) (j : BoltJournal) (envelope : option CommandEnvelope) (at_ : time)
    : BoltJournal * result JournalError bool :=
  if ctx_entry env then (j, Err ErrContext)
  else match envelope with
  | None => (j, Err ErrInvalidEnvelope)
  | Some envelope =>
      match e_ExpiresAt envelope with
      | None => (j, Err ErrInvalidEnvelope)
      | Some {| AsTime := expires; IsValid := valid |} =>
          if blank (e_CommandId envelope) || bool_decide (e_Command envelope = None)
             || bool_decide (length (e_Nonce envelope) = 0) || negb valid || IsZero at_
          then (j, Err ErrInvalidEnvelope)
          else match marshal_envelope envelope with
          | None => (j, Err ErrMarshal)
          | Some encoded =>
              let entry := new_entry envelope encoded expires at_ in
              match prepare_tx env j entry (nonceKey (e_Nonce envelope)) at_ with
              | Err x => (j, Err x)
              | Ok None => if commit_fails env then (j, Err ErrCommit) else (j, Ok false)
              | Ok (Some j') =>
                  if commit_fails env then (j, Err ErrCommit)
                  else if sync_fails env then (j', Err ErrSync) else (j', Ok true)
              end
          end
      end
  end.

(** The first transaction of [AuthorizeStart], at clock reading [now]; the
    returned flag is [expired]. *)
Definition authorize_update (token : bytes) (revision : Z) (deadline now : time) (e : storedEntry)
    : result JournalError (storedEntry * bool) :=
  match st e with
  | StateRunning => if matchesFence e token revision then Err ErrAlreadyRunning else Err ErrStartConflict
  | StatePrepared =>
      if negb (Before now (UnixNanoTime (ExpiresAtUnixNano e))) then Err ErrCommandExpired
      else
        let e' := set_fence token (hex_encode (sha256 token)) revision (set_state StateStartAuthorized e) in
        if negb (Before now (UTC deadline))
        then match setInterrupted e' now with Err x => Err x | Ok e'' => Ok (e'', true) end
        else Ok (e', false)
  | StateStartAuthorized =>
      if negb (matchesFence e token revision) then Err ErrStartConflict
      else if negb (Before now (UTC deadline))
      then match setInterrupted e now with Err x => Err x | Ok e'' => Ok (e'', true) end
      else if negb (Before now (UnixNanoTime (ExpiresAtUnixNano e))) then Err ErrCommandExpired
      else Ok (e, false)
  | _ => if negb (matchesFence e token revision) then Err ErrStartMismatch else Err ErrInvalidTransition
  end.

(** The second transaction: [StartAuthorized] to [Running]. *)
Definition run_update (token : bytes) (revision : Z) (deadline now : time) (e : storedEntry)
    : result JournalError (storedEntry * bool) :=
  match st e with
  | StateRunning => if matchesFence e token revision then Err ErrAlreadyRunning else Err ErrStartConflict
  | StateStartAuthorized =>
      if negb (matchesFence e token revision) then Err ErrStartConflict
      else if negb (Before now (UTC deadline))
      then match setInterrupted e now with Err x => Err x | Ok e'' => Ok (e'', true) end
      else Ok (set_started (UnixNano now) e, false)
  | _ => if negb (matchesFence e token revision) then Err ErrStartMismatch else Err ErrInvalidTransition
  end.

Definition AuthorizeStart (env1 env2 : Env) (j : BoltJournal) (commandID : string) (token : bytes)
    (revision : Z) (deadline now1 now2 : time) : BoltJournal * result JournalError unit :=
  if negb (bool_decide (length token = digest_size)) || (revision =? 0)%Z || IsZero deadline
  then (j, Err ErrStartMismatch)
  else match transition env1 j commandID (authorize_update token revision deadline (UTC now1)) with
  | (j1, Err x) => (j1, Err x)
  | (j1, Ok true) => (j1, Err ErrStartDeadlineExceeded)
  | (j1, Ok false) =>
      match transition env2 j1 commandID (run_update token revision deadline (UTC now2)) with
      | (j2, Err x) => (j2, Err x)
      | (j2, Ok true) => (j2, Err ErrStartDeadlineExceeded)
      | (j2, Ok false) => (j2, Ok tt)
      end
  end.

Definition CancelPrepared (env : Env) (j : BoltJournal) (commandID : string) (at_ : time)
    : BoltJournal * result JournalError unit :=
  transition env j commandID (fun e =>
    if bool_decide (st e = StateCancelled) then Ok (e, tt)
    else if negb (bool_decide (st e = StatePrepared)) then Err ErrInvalidTransition
    else Ok (set_terminal StateCancelled (InterruptedAtUnixNano e) (UnixNano (UTC at_)) None
               (Result e) (ResultDigestHex e) e, tt)).

Definition MarkInterrupted (env : Env) (j : BoltJournal) (commandID : string) (at_ : time)
    : BoltJournal * result JournalError unit :=
  transition env j commandID (fun e =>
    if bool_decide (st e = StateInterrupted) then Ok (e, tt)
    else if negb (bool_decide (st e = StateRunning)) && negb (bool_decide (st e = StateStartAuthorized))
            || negb (validStoredFence e)
    then Err ErrInvalidTransition
    else match setInterrupted e at_ with Err x => Err x | Ok e' => Ok (e', tt) end).

Definition Complete (env : Env) (j : BoltJournal) (commandID : string) (r : option CommandResult) (at_ : time)
    : BoltJournal * result JournalError unit :=
  match r with
  | None => (j, Err ErrResultFence)
  | Some r =>
      if negb (bool_decide (r_CommandId r = commandID))
         || negb (bool_decide (length (r_ExecutionToken r) = digest_size)) || (r_LeaseRevision r =? 0)%Z
      then (j, Err ErrResultFence)
      else match encodeResult r with
      | Err x => (j, Err x)
      | Ok (encoded, digest) =>
          transition env j commandID (fun e =>
            if negb (bool_decide (st e = StateRunning)) then Err ErrInvalidTransition
            else if negb (matchesFence e (r_ExecutionToken r) (r_LeaseRevision r)) then Err ErrStartMismatch
            else Ok (set_terminal StateCompleted (InterruptedAtUnixNano e) (UnixNano (UTC at_)) (Envelope e)
                       encoded (hex_encode digest) e, tt))
      end
  end.

Definition MarkReported (env : Env) (j : BoltJournal) (commandID : string) (digest : bytes) (at_ : time)
    : BoltJournal * result JournalError unit :=
  transition env j commandID (fun e =>
    if negb (bool_decide (st e = StateCompleted)) && negb (bool_decide (st e = StateInterrupted))
       || bool_decide (length (Result e) = 0)
    then Err ErrInvalidTransition
    else match decodeDigest (ResultDigestHex e) with
    | Err x => Err x
    | Ok stored =>
        if negb (bytes_equal stored digest) then Err ErrResultDigestMismatch
        else if (ReportedAtUnixNano e =? 0)%Z
        then Ok (set_reported (UnixNano (UTC at_)) (hex_encode digest) e, tt)
        else Ok (e, tt)
    end).

Definition MarkResultConflicted (env : Env) (j : BoltJournal) (commandID : string) (digest : bytes)
    (reason : string) (at_ : time) : BoltJournal * result JournalError unit :=
  if negb (valid_reason reason) || IsZero at_ then (j, Err ErrInvalidTransition)
  else transition env j commandID (fun e =>
    match decodeDigest (ResultDigestHex e) with
    | Err x => Err x
    | Ok stored =>
        if negb (bytes_equal stored digest) then Err ErrResultDigestMismatch
        else if bool_decide (st e = StateResultConflicted) then
          if bool_decide (ResultConflictReason e = reason) then Ok (e, tt) else Err ErrInvalidTransition
        else if negb (bool_decide (st e = StateCompleted)) && negb (bool_decide (st e = StateInterrupted))
                || bool_decide (length (Result e) = 0) || negb (ReportedAtUnixNano e =? 0)%Z
        then Err ErrInvalidTransition
        else Ok (set_conflicted (UnixNano (UTC at_)) reason e, tt)
    end).

(** Recovery at [Open]: one pass over the bucket; any error aborts the whole transaction. *)
Definition recover_entry (at_ : time) (c : cell storedEntry) : result JournalError (cell storedEntry) :=
  match decode c with
  | Err x => Err x
  | Ok e =>
      if negb (bool_decide (st e = StateRunning)) && negb (bool_decide (st e = StateStartAuthorized))
      then Ok c
      else if negb (validStoredFence e) then Err ErrInvalidFence
      else match setInterrupted e at_ with Err x => Err x | Ok e' => Ok (Encoded e') end
  end.

(** One pass over the records as they are before it; the code puts the changed records from inside the walk of the bucket. *)
Definition recoverRunning (commit_ok sync_ok : bool) (j : BoltJournal) (at_ : time)
    : BoltJournal * result JournalError unit :=
  match traverse (fun kv => match recover_entry at_ (snd kv) with
                            | Err x => Err x
                            | Ok c => Ok (fst kv, c)
                            end) (bucket_list (commands j)) with
  | Err x => (j, Err x)
  | Ok kvs =>
      let changed := existsb (fun kv => match decode (snd kv) with
                       | Ok e => bool_decide (st e = StateRunning) || bool_decide (st e = StateStartAuthorized)
                       | Err _ => false end) (bucket_list (commands j)) in
      if negb commit_ok then (j, Err ErrCommit)
      else
        let j' := {| commands := list_to_map kvs; meta := meta j |} in
        if changed && negb sync_ok then (j', Err ErrSync) else (j', Ok tt)
  end.

Definition publicEntry (s : storedEntry) : result JournalError Entry :=
  match decodeDigest (EnvelopeDigestHex s) with
  | Err x => Err x
  | Ok envelopeDigest =>
  match (match Envelope s with
         | None => Ok None
         | Some b => if bool_decide (length b = 0) then Ok None
                     else match unmarshal_envelope b with Some v => Ok (Some v) | None => Err ErrUnmarshal end
         end) with
  | Err x => Err x
  | Ok envelope =>
  match (if empty_string (ExecutionTokenHashHex s) then Ok no_digest else decodeDigest (ExecutionTokenHashHex s)) with
  | Err x => Err x
  | Ok tokenHash =>
  match (if bool_decide (length (Result s) = 0) then Ok (None, no_digest)
         else match unmarshal_result (Result s) with
              | None => Err ErrUnmarshal
              | Some r => match decodeDigest (ResultDigestHex s) with
                          | Err x => Err x
                          | Ok d => Ok (Some r, d)
                          end
              end) with
  | Err x => Err x
  | Ok (res, resDigest) =>
      Ok {| je_CommandID := CommandID s; je_State := st s; je_Envelope := envelope;
            je_EnvelopeDigest := envelopeDigest; je_ExpiresAt := UnixNanoTime (ExpiresAtUnixNano s);
            je_PreparedAt := unixNanoTime (PreparedAtUnixNano s); je_StartedAt := unixNanoTime (StartedAtUnixNano s);
            je_InterruptedAt := unixNanoTime (InterruptedAtUnixNano s);
            je_CompletedAt := unixNanoTime (CompletedAtUnixNano s);
            je_ReportedAt := unixNanoTime (ReportedAtUnixNano s); je_ExecutionToken := ExecutionToken s;
            je_ExecutionTokenHash := tokenHash; je_LeaseRevision := LeaseRevision s; je_Result := res;
            je_ResultDigest := resDigest; je_ConflictedAt := unixNanoTime (ResultConflictedAtUnixNano s);
            je_ConflictReason := ResultConflictReason s |}
  end end end end.

(** [list]: the entries that satisfy [include], in key order; the first decode
    error stops the walk.  [ctx] is the context check inside the walk. *)
Fixpoint list_walk (ctx : bool) (include : storedEntry -> bool) (cells : list (cell storedEntry))
    : result JournalError (list Entry) :=
  match cells with
  | [] => Ok []
  | c :: rest =>
      if ctx then Err ErrContext
      else match decode c with
      | Err x => Err x
      | Ok s =>
          if include s then
            match publicEntry s with
            | Err x => Err x
            | Ok e => match list_walk ctx include rest with Err x => Err x | Ok es => Ok (e :: es) end
            end
          else list_walk ctx include rest
      end
  end.

Definition list_entries (env : Env) (j : BoltJournal) (include : storedEntry -> bool)
    : result JournalError (list Entry) :=
  if ctx_entry env then Err ErrContext
  else list_walk (ctx_tx env) include (snd <$> bucket_list (commands j)).

Definition is_active (e : storedEntry) : bool :=
  bool_decide (st e = StatePrepared) || bool_decide (st e = StateStartAuthorized) || bool_decide (st e = StateRunning).

Definition is_pending_result (e : storedEntry) : bool :=
  (bool_decide (st e = StateCompleted) || bool_decide (st e = StateInterrupted))
  && (ReportedAtUnixNano e =? 0)%Z && negb (bool_decide (length (Result e) = 0)).

Definition Active (env : Env) (j : BoltJournal) : result JournalError (list Entry) :=
  list_entries env j is_active.

Definition PendingResults (env : Env) (j : BoltJournal) : result JournalError (list Entry) :=
  list_entries env j is_pending_result.

Definition Get (env : Env) (j : BoltJournal) (commandID : string) : result JournalError Entry :=
  if ctx_entry env then Err ErrContext
  else match commands j !! commandID with
  | None => Err ErrCommandNotFound
  | Some c => match decode c with Err x => Err x | Ok s => publicEntry s end
  end.

End Journal.

(** ** Operations as steps *)

Inductive JournalOp :=
| OpPrepare (env : Env) (envelope : option CommandEnvelope) (at_ : time)
| OpAuthorizeStart (env1 env2 : Env) (id : string) (token : bytes) (revision : Z) (deadline now1 now2 : time)
| OpCancelPrepared (env : Env) (id : string) (at_ : time)
| OpMarkInterrupted (env : Env) (id : string) (at_ : time)
| OpComplete (env : Env) (id : string) (r : option CommandResult) (at_ : time)
| OpMarkReported (env : Env) (id : string) (digest : bytes) (at_ : time)
| OpMarkResultConflicted (env : Env) (id : string) (digest : bytes) (reason : string) (at_ : time)
| OpReopen (commit_ok sync_ok : bool) (at_ : time).

(** Which states an entry can move to. *)
Definition state_le (s s' : State) : bool :=
  match s, s' with
  | StatePrepared, _ => true
  | StateStartAuthorized, (StateStartAuthorized | StateRunning | StateInterrupted | StateCompleted | StateResultConflicted) => true
  | StateRunning, (StateRunning | StateInterrupted | StateCompleted | StateResultConflicted) => true
  | StateInterrupted, (StateInterrupted | StateResultConflicted) => true
  | StateCompleted, (StateCompleted | StateResultConflicted) => true
  | StateCancelled, StateCancelled => true
  | StateResultConflicted, StateResultConflicted => true
  | _, _ => false
  end.

Definition has_result (s : State) : bool :=
  match s with StateInterrupted | StateCompleted | StateResultConflicted => true | _ => false end.

(** How an entry evolves: identity fixed, state forward, the fence frozen once
    it is set, a recorded result and a recorded acknowledgement never replaced. *)
Record entry_le (e e' : storedEntry) : Prop := {
  le_id : CommandID e' = CommandID e;
  le_digest : EnvelopeDigestHex e' = EnvelopeDigestHex e;
  le_state : state_le (st e) (st e') = true;
  le_fence : st e <> StatePrepared ->
    ExecutionToken e' = ExecutionToken e /\ ExecutionTokenHashHex e' = ExecutionTokenHashHex e
    /\ LeaseRevision e' = LeaseRevision e;
  le_result : has_result (st e) = true -> Result e' = Result e /\ ResultDigestHex e' = ResultDigestHex e;
  le_reported : ReportedAtUnixNano e <> 0%Z -> ReportedAtUnixNano e' = ReportedAtUnixNano e
}.

Definition cell_le (c c' : cell storedEntry) : Prop :=
  match c, c' with
  | Encoded e, Encoded e' => entry_le e e'
  | Garbage, Garbage => True
  | _, _ => False
  end.

Definition journal_le (j j' : BoltJournal) : Prop :=
  forall id c, commands j !! id = Some c -> exists c', commands j' !! id = Some c' /\ cell_le c c'.

Lemma state_le_refl s : state_le s s = true.
Proof. by destruct s. Qed.

Lemma state_le_trans s1 s2 s3 : state_le s1 s2 = true -> state_le s2 s3 = true -> state_le s1 s3 = true.
Proof. by destruct s1, s2, s3. Qed.

Lemma state_le_prepared s s' : state_le s s' = true -> s <> StatePrepared -> s' <> StatePrepared.
Proof. by destruct s, s'. Qed.

Lemma state_le_has_result s s' : state_le s s' = true -> has_result s = true -> has_result s' = true.
Proof. by destruct s, s'. Qed.

#[global] Instance entry_le_preorder : PreOrder entry_le.
Proof.
  split.
  - intros e. constructor; auto using state_le_refl.
  - intros e1 e2 e3 [] []. constructor; try congruence.
    + eauto using state_le_trans.
    + intros H. specialize (le_fence0 H) as (? & ? & ?).
      destruct le_fence1 as (? & ? & ?); [eauto using state_le_prepared|]. split_and!; congruence.
    + intros H. destruct (le_result0 H). destruct le_result1; [eauto using state_le_has_result|].
      split; congruence.
    + intros H. rewrite <- (le_reported0 H). apply le_reported1. rewrite (le_reported0 H). done.
Qed.

#[global] Instance cell_le_preorder : PreOrder cell_le.
Proof.
  split.
  - intros []; cbn; [reflexivity|done].
  - intros [] [] []; cbn; try done. intros H1 H2. by etrans.
Qed.

#[global] Instance journal_le_preorder : PreOrder journal_le.
Proof.
  split.
  - intros j id c H. exists c. split; [done|reflexivity].
  - intros j1 j2 j3 H12 H23 id c H. destruct (H12 id c H) as (c2 & H2 & Hle).
    destruct (H23 id c2 H2) as (c3 & H3 & Hle'). exists c3. split; [done|by etrans].
Qed.

(** ** The frame of [transition] *)

Definition update_le {A} (f : storedEntry -> result JournalError (storedEntry * A)) : Prop :=
  forall e e' a, f e = Ok (e', a) -> entry_le e e'.

Lemma transition_le {A} env j id (f : storedEntry -> result JournalError (storedEntry * A)) :
  update_le f -> journal_le j (fst (transition env j id f)).
Proof.
  intros Hf. unfold transition.
  destruct (ctx_entry env), (blank id), (ctx_tx env); try reflexivity.
  destruct (commands j !! id) as [[e|]|] eqn:Hid; cbn; try reflexivity.
  destruct (f e) as [[e' a]|] eqn:Hfe; [|reflexivity].
  destruct (commit_fails env); [reflexivity|].
  assert (Hle : journal_le j {| commands := <[id:=Encoded e']> (commands j); meta := meta j |}).
  { intros k c Hk. cbn. destruct (decide (k = id)) as [->|Hne].
    - rewrite lookup_insert_eq. simplify_eq. eexists; split; [done|]. by eapply Hf.
    - rewrite lookup_insert_ne by done. exists c. split; [done|reflexivity]. }
  by destruct (sync_fails env).
Qed.

Lemma transition_Ok {A} env j id (f : storedEntry -> result JournalError (storedEntry * A)) j' a :
  transition env j id f = (j', Ok a) ->
  exists e e', commands j !! id = Some (Encoded e) /\ f e = Ok (e', a)
    /\ j' = {| commands := <[id := Encoded e']> (commands j); meta := meta j |} /\ blank id = false.
Proof.
  unfold transition. intros H.
  destruct (ctx_entry env), (blank id) eqn:Hb, (ctx_tx env); try discriminate.
  destruct (commands j !! id) as [[e|]|] eqn:Hid; cbn in H; try discriminate.
  destruct (f e) as [[e' a']|] eqn:Hfe; [|discriminate].
  destruct (commit_fails env), (sync_fails env); simplify_eq. eauto 10.
Qed.

(** Without an fsync failure a refused transition leaves the journal as it was. *)
Lemma transition_Err {A} env j id (f : storedEntry -> result JournalError (storedEntry * A)) j' x :
  transition env j id f = (j', Err x) -> x <> ErrSync -> j' = j.
Proof.
  unfold transition. intros H Hx.
  destruct (ctx_entry env), (blank id), (ctx_tx env); try congruence.
  destruct (commands j !! id) as [[e|]|]; cbn in H; try congruence.
  destruct (f e) as [[e' a']|]; [|congruence].
  destruct (commit_fails env), (sync_fails env); congruence.
Qed.

Section Facts.

Context (sha256 : bytes -> bytes).
Context (marshal_envelope : CommandEnvelope -> option bytes)
        (unmarshal_envelope : bytes -> option CommandEnvelope).
Context (marshal_result : CommandResult -> option bytes)
        (unmarshal_result : bytes -> option CommandResult).

Local Notation validStoredFence := (validStoredFence sha256).
Local Notation setInterrupted := (setInterrupted sha256 marshal_result).
Local Notation authorize_update := (authorize_update sha256 marshal_result).
Local Notation run_update := (run_update sha256 marshal_result).
Local Notation Prepare := (Prepare sha256 marshal_envelope).
Local Notation AuthorizeStart := (AuthorizeStart sha256 marshal_result).
Local Notation MarkInterrupted := (MarkInterrupted sha256 marshal_result).
Local Notation Complete := (Complete sha256 marshal_result).
Local Notation recoverRunning := (recoverRunning sha256 marshal_result).
Local Notation publicEntry := (publicEntry unmarshal_envelope unmarshal_result).
Local Notation PendingResults := (PendingResults unmarshal_envelope unmarshal_result).

(** One operation, and whether it returned without error. *)
Definition exec (o : JournalOp) (j : BoltJournal) : BoltJournal * bool :=
  match o with
  | OpPrepare env envelope at_ =>
      let '(j', r) := Prepare env j envelope at_ in (j', is_ok r)
  | OpAuthorizeStart env1 env2 id token revision deadline now1 now2 =>
      let '(j', r) := AuthorizeStart env1 env2 j id token revision deadline now1 now2 in (j', is_ok r)
  | OpCancelPrepared env id at_ => let '(j', r) := CancelPrepared env j id at_ in (j', is_ok r)
  | OpMarkInterrupted env id at_ =>
      let '(j', r) := MarkInterrupted env j id at_ in (j', is_ok r)
  | OpComplete env id r at_ =>
      let '(j', r) := Complete env j id r at_ in (j', is_ok r)
  | OpMarkReported env id digest at_ => let '(j', r) := MarkReported env j id digest at_ in (j', is_ok r)
  | OpMarkResultConflicted env id digest reason at_ =>
      let '(j', r) := MarkResultConflicted env j id digest reason at_ in (j', is_ok r)
  | OpReopen commit_ok sync_ok at_ =>
      let '(j', r) := recoverRunning commit_ok sync_ok j at_ in (j', is_ok r)
  end.

Definition journal_step (j j' : BoltJournal) : Prop := exists o, j' = fst (exec o j).

Lemma setInterrupted_inv e at_ e' :
  setInterrupted e at_ = Ok e' ->
  exists b, marshal_result (interrupted_result e) = Some b
    /\ e' = set_terminal StateInterrupted (UnixNano (UTC at_)) (UnixNano (UTC at_)) (Envelope e) b
              (hex_encode (sha256 b)) e.
Proof.
  unfold CommandJournal.setInterrupted, encodeResult.
  destruct (marshal_result _) as [b|]; [|done]. intros [= <-]. eauto.
Qed.

Lemma setInterrupted_le e at_ e' :
  setInterrupted e at_ = Ok e' -> st e = StateStartAuthorized \/ st e = StateRunning -> entry_le e e'.
Proof.
  intros (b & _ & ->)%setInterrupted_inv Hst.
  constructor; cbn; try done; destruct Hst as [-> | ->]; done.
Qed.

Lemma authorize_update_le token revision deadline now : update_le (authorize_update token revision deadline now).
Proof.
  intros e e' a. unfold CommandJournal.authorize_update.
  destruct (st e) eqn:Hst; intros H; try (by run H).
  - run H; [|constructor; cbn; rewrite ?Hst; done].
    match goal with H : setInterrupted _ _ = _ |- _ => apply setInterrupted_inv in H as (b & _ & ->) end.
    constructor; cbn; rewrite ?Hst; done.
  - run H; [eapply setInterrupted_le; eauto|reflexivity].
Qed.

Lemma run_update_le token revision deadline now : update_le (run_update token revision deadline now).
Proof.
  intros e e' a. unfold CommandJournal.run_update.
  destruct (st e) eqn:Hst; intros H; try (by run H).
  run H; [eapply setInterrupted_le; eauto|]. constructor; cbn; rewrite ?Hst; done.
Qed.

Lemma recover_entry_le at_ c c' : recover_entry sha256 marshal_result at_ c = Ok c' -> cell_le c c'.
Proof.
  unfold recover_entry. destruct c as [e|]; cbn; [|done]. intros H.
  destruct (bool_decide_reflect (st e = StateRunning)) as [Hr|Hr];
    destruct (bool_decide_reflect (st e = StateStartAuthorized)) as [Ha|Ha]; cbn in H;
    run H; try reflexivity; cbn; eapply setInterrupted_le; eauto.
Qed.

Lemma bucket_list_perm {A} (m : gmap string A) : bucket_list m ≡ₚ map_to_list m.
Proof. apply merge_sort_Permutation. Qed.

Lemma recover_lookup j at_ kvs id :
  traverse (fun kv => match recover_entry sha256 marshal_result at_ (snd kv) with
                      | Err x => Err x | Ok c => Ok (fst kv, c) end) (bucket_list (commands j)) = Ok kvs ->
  match commands j !! id with
  | None => (list_to_map kvs : gmap string (cell storedEntry)) !! id = None
  | Some c => exists c', recover_entry sha256 marshal_result at_ c = Ok c'
                /\ (list_to_map kvs : gmap string (cell storedEntry)) !! id = Some c'
  end.
Proof. apply traverse_map_lookup, bucket_list_perm. Qed.

Lemma recoverRunning_le b1 b2 j at_ : journal_le j (fst (recoverRunning b1 b2 j at_)).
Proof.
  unfold CommandJournal.recoverRunning. destruct (traverse _ _) as [kvs|] eqn:Ht; [|reflexivity].
  destruct b1; [|reflexivity]. cbn.
  assert (Hle : journal_le j {| commands := list_to_map kvs; meta := meta j |}).
  { intros id c Hc. pose proof (recover_lookup j at_ kvs id Ht) as Hl. rewrite Hc in Hl.
    destruct Hl as (c' & Hr & Hc'). exists c'. split; [done|]. by eapply recover_entry_le. }
  by destruct (_ && _).
Qed.

Lemma prepare_le env j envelope at_ : journal_le j (fst (Prepare env j envelope at_)).
Proof.
  unfold CommandJournal.Prepare.
  destruct (ctx_entry env), envelope as [v|]; try reflexivity.
  destruct (e_ExpiresAt v) as [[expires valid]|]; [|reflexivity].
  destruct (_ || _); [reflexivity|]. destruct (marshal_envelope v) as [b|]; [|reflexivity].
  destruct (prepare_tx _ _ _ _ _) as [[j'|]|] eqn:Hp; try (destruct (commit_fails env); reflexivity).
  assert (Hle : journal_le j j').
  { unfold prepare_tx in Hp. destruct (ctx_tx env); [done|].
    destruct (commands j !! _) eqn:Hc; [by run Hp|]. cbn in Hc, Hp.
    assert (Hj : exists m, j' = {| commands := <[e_CommandId v := Encoded (new_entry sha256 v b expires at_)]> (commands j); meta := m |}).
    { run Hp; eauto. }
    destruct Hj as [m ->]. intros id c Hid. cbn. exists c.
    rewrite lookup_insert_ne by congruence. split; [done|reflexivity]. }
  by destruct (commit_fails env), (sync_fails env); try reflexivity.
Qed.

Lemma authorize_le env1 env2 j id token revision deadline now1 now2 :
  journal_le j (fst (AuthorizeStart env1 env2 j id token revision deadline now1 now2)).
Proof.
  unfold CommandJournal.AuthorizeStart. destruct (_ || _); [reflexivity|].
  pose proof (transition_le env1 j id _ (authorize_update_le token revision deadline (UTC now1))) as H1.
  destruct (transition env1 _ _ _) as [j1 [[]|]]; try done.
  pose proof (transition_le env2 j1 id _ (run_update_le token revision deadline (UTC now2))) as H2.
  destruct (transition env2 _ _ _) as [j2 [[]|]]; cbn in *; by etrans.
Qed.

Lemma transition_le_eq {A} env j id (f : storedEntry -> result JournalError (storedEntry * A)) j' r :
  transition env j id f = (j', r) -> update_le f -> journal_le j j'.
Proof. intros E Hf. pose proof (transition_le env j id f Hf) as H. by rewrite E in H. Qed.

(** Every operation only moves entries forward. *)
Lemma exec_le o j : journal_le j (fst (exec o j)).
Proof.
  destruct o as [env v at_|env1 env2 id token rev dl n1 n2|env id at_|env id at_|env id r at_|env id d at_|env id d reason at_|b1 b2 at_]; cbn.
  - pose proof (prepare_le env j v at_) as H. by destruct (Prepare _ _ _ _).
  - pose proof (authorize_le env1 env2 j id token rev dl n1 n2) as H. by destruct (AuthorizeStart _ _ _ _ _ _ _ _ _).
  - unfold CancelPrepared. destruct (transition _ _ _ _) eqn:E. cbn.
    eapply transition_le_eq; [exact E|]. intros e e' a H. run H; [reflexivity|]. bool_simpl.
    constructor; cbn; rewrite ?E1; done.
  - unfold CommandJournal.MarkInterrupted. destruct (transition _ _ _ _) eqn:E. cbn.
    eapply transition_le_eq; [exact E|]. intros e e' a H. run H; [reflexivity|].
    eapply setInterrupted_le; [done|]. repeat case_bool_decide; cbn in *; auto; done.
  - unfold CommandJournal.Complete. destruct r as [r|]; [|reflexivity]. destruct (_ || _); [reflexivity|].
    destruct (encodeResult _ _ _) as [[b d]|]; [|reflexivity].
    destruct (transition _ _ _ _) eqn:E. cbn. eapply transition_le_eq; [exact E|].
    intros e e' a H. run H. bool_simpl. constructor; cbn; rewrite ?E0; done.
  - unfold MarkReported. destruct (transition _ _ _ _) eqn:E. cbn.
    eapply transition_le_eq; [exact E|]. intros e e' a H. run H; [|reflexivity].
    bool_simpl. constructor; cbn; auto using state_le_refl; done.
  - unfold MarkResultConflicted. destruct (_ || _); [reflexivity|]. destruct (transition _ _ _ _) eqn:E. cbn.
    eapply transition_le_eq; [exact E|]. intros e e' a H. run H; [reflexivity|].
    apply orb_false_iff in E3 as [[E3 _]%orb_false_iff _].
    constructor; cbn; try done; destruct (st e); try done.
  - pose proof (recoverRunning_le b1 b2 j at_) as H. by destruct (recoverRunning _ _ _ _).
Qed.

Lemma steps_le j j' : rtc journal_step j j' -> journal_le j j'.
Proof.
  induction 1 as [|x y z [o ->] _ IH]; [reflexivity|]. etrans; [apply (exec_le o)|done].
Qed.

(** ** The journal invariant *)

(** Documented behaviour of SHA-256 and of the protobuf codec. *)
Context (sha256_size : forall b, length (sha256 b) = digest_size).
Context (sha256_bytes : forall b, Forall is_byte (sha256 b)).
Context (envelope_roundtrip : forall v b, marshal_envelope v = Some b -> unmarshal_envelope b = Some v).
Context (result_roundtrip : forall r b, marshal_result r = Some b -> unmarshal_result b = Some r).
Context (result_nonempty : forall r b, marshal_result r = Some b -> r_CommandId r <> EmptyString -> b <> []).

Definition result_ok (e : storedEntry) : Prop :=
  Result e <> [] /\ is_Some (unmarshal_result (Result e))
  /\ ResultDigestHex e = hex_encode (sha256 (Result e)).

Record entry_wf (id : string) (e : storedEntry) : Prop := {
  wf_id : CommandID e = id;
  wf_nonblank : blank id = false;
  wf_digest : exists d, EnvelopeDigestHex e = hex_encode (sha256 d);
  wf_envelope : forall b, Envelope e = Some b -> is_Some (unmarshal_envelope b);
  wf_state : match st e with
             | StatePrepared => ExecutionTokenHashHex e = EmptyString /\ Result e = []
             | StateCancelled => ExecutionTokenHashHex e = EmptyString /\ Result e = [] /\ Envelope e = None
             | StateStartAuthorized | StateRunning => validStoredFence e = true /\ Result e = []
             | _ => validStoredFence e = true /\ result_ok e
             end
}.

Definition journal_wf (j : BoltJournal) : Prop :=
  forall id c, commands j !! id = Some c -> exists e, c = Encoded e /\ entry_wf id e.

Lemma decodeDigest_sha b : decodeDigest (hex_encode (sha256 b)) = Ok (sha256 b).
Proof. unfold decodeDigest. by rewrite hex_decode_encode, bool_decide_true by auto. Qed.

Lemma blank_nonempty id : blank id = false -> id <> EmptyString.
Proof. intros H ->. by vm_compute in H. Qed.

Lemma fence_valid token revision e :
  length token = digest_size -> revision <> 0%Z ->
  validStoredFence (set_fence token (hex_encode (sha256 token)) revision e) = true.
Proof.
  intros Hl Hr. unfold CommandJournal.validStoredFence. cbn.
  rewrite !bool_decide_true by done. by apply Z.eqb_neq in Hr as ->.
Qed.

Lemma setInterrupted_wf id e at_ e' :
  setInterrupted e at_ = Ok e' -> CommandID e = id -> blank id = false ->
  (exists d, EnvelopeDigestHex e = hex_encode (sha256 d)) ->
  (forall b, Envelope e = Some b -> is_Some (unmarshal_envelope b)) ->
  validStoredFence e = true -> entry_wf id e'.
Proof.
  intros (b & Hm & ->)%setInterrupted_inv Hid Hb Hd He Hf.
  constructor; try done. cbn. split; [done|]. split; [|split; [|done]]; cbn.
  - eapply result_nonempty; [done|]. cbn. rewrite Hid. by apply blank_nonempty.
  - eauto.
Qed.

Definition update_wf {A} (id : string) (f : storedEntry -> result JournalError (storedEntry * A)) : Prop :=
  forall e e' a, f e = Ok (e', a) -> entry_wf id e -> entry_wf id e'.

Lemma transition_wf {A} env j id (f : storedEntry -> result JournalError (storedEntry * A)) j' r :
  transition env j id f = (j', r) -> update_wf id f -> journal_wf j -> journal_wf j'.
Proof.
  intros H Hf Hj. unfold transition in H.
  destruct (ctx_entry env), (blank id), (ctx_tx env); simplify_eq; try done.
  destruct (commands j !! id) as [[e|]|] eqn:Hid; cbn in H; simplify_eq; try done.
  destruct (f e) as [[e' a]|] eqn:Hfe; simplify_eq; [|done].
  destruct (Hj _ _ Hid) as (e0 & [= <-] & Hwf). pose proof (Hf _ _ _ Hfe Hwf) as Hwf'.
  assert (Hgoal : journal_wf {| commands := <[id:=Encoded e']> (commands j); meta := meta j |}).
  { intros k c Hk. cbn in Hk. destruct (decide (k = id)) as [->|Hne].
    - rewrite lookup_insert_eq in Hk. simplify_eq. eauto.
    - rewrite lookup_insert_ne in Hk by done. by apply Hj. }
  destruct (commit_fails env), (sync_fails env); simplify_eq; done.
Qed.

Lemma authorize_update_wf id token revision deadline now :
  length token = digest_size -> revision <> 0%Z -> update_wf id (authorize_update token revision deadline now).
Proof.
  intros Hl Hr e e' a H [Hid Hb Hd He Hs].
  unfold CommandJournal.authorize_update in H. destruct (st e) eqn:Hst; try (by run H).
  - pose proof (fence_valid token revision (set_state StateStartAuthorized e) Hl Hr) as Hf.
    run H; [eapply setInterrupted_wf; eauto|]. constructor; try done. cbn. by destruct Hs as [_ ?].
  - run H; [eapply setInterrupted_wf; naive_solver|]. constructor; try done. by rewrite Hst.
Qed.

Lemma run_update_wf id token revision deadline now : update_wf id (run_update token revision deadline now).
Proof.
  intros e e' a H [Hid Hb Hd He Hs].
  unfold CommandJournal.run_update in H. destruct (st e) eqn:Hst; try (by run H).
  run H; [eapply setInterrupted_wf; naive_solver|]. constructor; done.
Qed.

Lemma recover_entry_wf at_ id c c' :
  recover_entry sha256 marshal_result at_ c = Ok c' -> (exists e, c = Encoded e /\ entry_wf id e) ->
  exists e', c' = Encoded e' /\ entry_wf id e' /\ st e' <> StateRunning /\ st e' <> StateStartAuthorized.
Proof.
  intros H (e & -> & Hwf). unfold recover_entry in H. cbn in H.
  destruct (_ && _) eqn:E in H.
  - simplify_eq. exists e. bool_simpl. done.
  - run H. eexists. split; [done|]. bool_simpl. split; [destruct Hwf; eapply setInterrupted_wf; eauto|].
    match goal with H : setInterrupted _ _ = _ |- _ => apply setInterrupted_inv in H as (b & _ & ->) end.
    done.
Qed.

Lemma recover_entry_total at_ id e :
  entry_wf id e -> is_Some (marshal_result (interrupted_result e)) ->
  exists c', recover_entry sha256 marshal_result at_ (Encoded e) = Ok c'.
Proof.
  intros Hw [b Hm]. pose proof (wf_state _ _ Hw) as Hws. unfold recover_entry. cbn.
  destruct (_ && _) eqn:Hn; [eauto|].
  assert (Hf : validStoredFence e = true) by (destruct (st e); try discriminate Hn; by destruct Hws).
  rewrite Hf. cbn. unfold CommandJournal.setInterrupted, encodeResult. rewrite Hm. eauto.
Qed.

Lemma prepare_wf env j envelope at_ : journal_wf j -> journal_wf (fst (Prepare env j envelope at_)).
Proof.
  intros Hj. unfold CommandJournal.Prepare.
  destruct (ctx_entry env), envelope as [v|]; try done.
  destruct (e_ExpiresAt v) as [[expires valid]|]; [|done].
  destruct (_ || _) eqn:Hg; [done|]. destruct (marshal_envelope v) as [b|] eqn:Hm; [|done].
  destruct (prepare_tx _ _ _ _ _) as [[j'|]|] eqn:Hp; try (by destruct (commit_fails env)).
  assert (Hwf : journal_wf j').
  { unfold prepare_tx in Hp. destruct (ctx_tx env); [done|].
    destruct (commands j !! _) eqn:Hc; [by run Hp|]. cbn in Hc, Hp.
    assert (Hj' : commands j' = <[e_CommandId v := Encoded (new_entry sha256 v b expires at_)]> (commands j)).
    { run Hp; done. }
    intros id c Hid. rewrite Hj' in Hid. destruct (decide (id = e_CommandId v)) as [->|Hne].
    - rewrite lookup_insert_eq in Hid. simplify_eq. eexists; split; [done|].
      constructor; cbn; eauto; [by repeat apply orb_false_iff in Hg as [Hg _]|].
      intros b' [= <-]. eauto.
    - rewrite lookup_insert_ne in Hid by done. by apply Hj. }
  by destruct (commit_fails env), (sync_fails env).
Qed.

Lemma exec_wf o j : journal_wf j -> journal_wf (fst (exec o j)).
Proof.
  intros Hj.
  destruct o as [env v at_|env1 env2 id token rev dl n1 n2|env id at_|env id at_|env id r at_|env id d at_|env id d reason at_|b1 b2 at_]; cbn.
  - pose proof (prepare_wf env j v at_ Hj) as H. by destruct (Prepare _ _ _ _).
  - unfold CommandJournal.AuthorizeStart. destruct (_ || _) eqn:Hg; [done|].
    apply orb_false_iff in Hg as [[Hl Hr]%orb_false_iff _]. bool_simpl.
    destruct (transition env1 _ _ _) as [j1 r1] eqn:E1.
    pose proof (transition_wf _ _ _ _ _ _ E1 (authorize_update_wf _ _ _ _ _ Hl Hr) Hj) as Hj1.
    destruct r1 as [[]|]; [done| |done].
    destruct (transition env2 _ _ _) as [j2 r2] eqn:E2.
    pose proof (transition_wf _ _ _ _ _ _ E2 (run_update_wf _ _ _ _ _) Hj1) as Hj2.
    by destruct r2 as [[]|].
  - unfold CancelPrepared. destruct (transition _ _ _ _) eqn:E. cbn. eapply transition_wf; [exact E| |done].
    intros e e' a H [Hid Hb Hd He Hs]. run H; [constructor; done|]. bool_simpl.
    constructor; try done. cbn. destruct (st e); naive_solver.
  - unfold CommandJournal.MarkInterrupted. destruct (transition _ _ _ _) eqn:E. cbn.
    eapply transition_wf; [exact E| |done].
    intros e e' a H [Hid Hb Hd He Hs]. run H; [constructor; done|]. bool_simpl.
    eapply setInterrupted_wf; eauto.
  - unfold CommandJournal.Complete. destruct r as [r|]; [|done]. destruct (_ || _) eqn:Hg; [done|].
    destruct (encodeResult _ _ _) as [[b d]|] eqn:Hr; [|done].
    destruct (transition _ _ _ _) eqn:E. cbn. eapply transition_wf; [exact E| |done].
    intros e e' a H [Hid Hb Hd He Hs]. run H. bool_simpl.
    unfold encodeResult in Hr. destruct (marshal_result r) as [b'|] eqn:Hm; simplify_eq.
    constructor; try done. cbn. rewrite E0 in Hs. destruct Hs as [Hf _]. split; [done|].
    split; [|split; [eauto|done]]. cbn. eapply result_nonempty; [done|].
    match goal with H : r_CommandId _ = _ |- _ => rewrite H end. by apply blank_nonempty.
  - unfold MarkReported. destruct (transition _ _ _ _) eqn:E. cbn. eapply transition_wf; [exact E| |done].
    intros e e' a H [Hid Hb Hd He Hs]. run H; constructor; done.
  - unfold MarkResultConflicted. destruct (_ || _); [done|]. destruct (transition _ _ _ _) eqn:E. cbn.
    eapply transition_wf; [exact E| |done].
    intros e e' a H [Hid Hb Hd He Hs]. run H; [constructor; done|].
    match goal with H : (_ && _ || _ || _) = false |- _ => apply orb_false_iff in H as [[H _]%orb_false_iff _] end.
    constructor; try done. cbn. destruct (st e); done.
  - unfold CommandJournal.recoverRunning. destruct (traverse _ _) as [kvs|] eqn:Ht; [|done]. destruct b1; [|done]. cbn.
    assert (Hgoal : journal_wf {| commands := list_to_map kvs; meta := meta j |}).
    { intros id c Hc. cbn in Hc. pose proof (recover_lookup j at_ kvs id Ht) as Hl.
      destruct (commands j !! id) as [c0|] eqn:Hid; [|congruence]. destruct Hl as (c' & Hr & Hc').
      pose proof (recover_entry_wf _ _ _ _ Hr (Hj _ _ Hid)) as (e' & -> & Hwf & _). naive_solver. }
    by destruct (_ && _).
Qed.

Lemma steps_wf j j' : rtc journal_step j j' -> journal_wf j -> journal_wf j'.
Proof. induction 1 as [|x y z [o ->] _ IH]; [done|]. intros Hj. by apply IH, exec_wf. Qed.

Lemma empty_wf m : journal_wf {| commands := ∅; meta := m |}.
Proof. intros id c H. cbn in H. by rewrite lookup_empty in H. Qed.

Lemma authorize_ok_running env1 env2 j id token revision deadline now1 now2 j' :
  AuthorizeStart env1 env2 j id token revision deadline now1 now2 = (j', Ok tt) ->
  exists e e', commands j !! id = Some (Encoded e) /\ commands j' !! id = Some (Encoded e')
    /\ (st e = StatePrepared \/ st e = StateStartAuthorized) /\ st e' = StateRunning
    /\ matchesFence e' token revision = true
    /\ Before (UTC now1) (UnixNanoTime (ExpiresAtUnixNano e)) = true /\ Before (UTC now2) (UTC deadline) = true.
Proof.
  unfold CommandJournal.AuthorizeStart. destruct (_ || _) eqn:Hg; [done|]. intros H.
  destruct (transition env1 _ _ _) as [j1 [[]|]] eqn:E1; try done.
  destruct (transition env2 _ _ _) as [j2 [[]|]] eqn:E2; try done. simplify_eq.
  apply transition_Ok in E1 as (e & e1 & He & Hu1 & -> & _).
  apply transition_Ok in E2 as (e1' & e2 & He1 & Hu2 & -> & _).
  cbn in He1. rewrite lookup_insert_eq in He1. simplify_eq.
  unfold CommandJournal.run_update in Hu2. destruct (st e1') eqn:Hst1; try (by run Hu2). run Hu2.
  exists e, (set_started (UnixNano (UTC now2)) e1'). rewrite He. cbn. rewrite lookup_insert_eq.
  unfold CommandJournal.authorize_update in Hu1. bool_simpl.
  destruct (st e) eqn:Hst; run Hu1; bool_simpl; split_and!; auto.
Qed.

Lemma not_prepared_not_started env1 env2 j id token revision deadline now1 now2 j' e :
  commands j !! id = Some (Encoded e) -> st e <> StatePrepared -> st e <> StateStartAuthorized ->
  AuthorizeStart env1 env2 j id token revision deadline now1 now2 <> (j', Ok tt).
Proof.
  intros He H1 H2 H. apply authorize_ok_running in H as (e0 & _ & He0 & _ & [?|?] & _); congruence.
Qed.

(** every journal reachable from an empty one is well formed: entries are
    filed under their own id, every started command has a 32-byte token with a
    matching hash and a non-zero revision, every finished one a stored result with
    its digest, every cancelled one no envelope. *)
Theorem reachable_journals_are_well_formed m j :
  rtc journal_step {| commands := ∅; meta := m |} j -> journal_wf j.
Proof. intros H. eapply steps_wf; [exact H|apply empty_wf]. Qed.

(** at most one Start takes effect: after a successful [AuthorizeStart] no later
    call for the same command succeeds, whatever operations, faults and
    restarts come in between. *)
Theorem start_takes_effect_at_most_once env1 env2 j id token revision deadline now1 now2 j1 j2 :
  AuthorizeStart env1 env2 j id token revision deadline now1 now2 = (j1, Ok tt) ->
  rtc journal_step j1 j2 ->
  forall env1' env2' token' revision' deadline' now1' now2' j3,
  AuthorizeStart env1' env2' j2 id token' revision' deadline' now1' now2' <> (j3, Ok tt).
Proof.
  intros (e & e' & _ & He' & _ & Hst & _)%authorize_ok_running Hs%steps_le; intros.
  destruct (Hs _ _ He') as ([e2|] & He2 & Hle); [|done]. cbn in Hle.
  pose proof (le_state _ _ Hle) as Hle'. rewrite Hst in Hle'.
  eapply not_prepared_not_started; [exact He2|..]; intros Heq; by rewrite Heq in Hle'.
Qed.

(** a cancellation that succeeded on a prepared command is final: the
    command can never be started afterwards, and its envelope is erased. *)
Theorem cancelled_commands_never_start env j id at_ j1 j2 :
  CancelPrepared env j id at_ = (j1, Ok tt) -> rtc journal_step j1 j2 -> journal_wf j ->
  (forall env1 env2 token revision deadline now1 now2 j3,
     AuthorizeStart env1 env2 j2 id token revision deadline now1 now2 <> (j3, Ok tt))
  /\ exists e, commands j2 !! id = Some (Encoded e) /\ st e = StateCancelled /\ Envelope e = None.
Proof.
  intros Hc Hs Hwf. pose proof Hc as (e & e' & He & Hu & Hj1 & _)%transition_Ok.
  assert (Hj1' : journal_wf j1).
  { pose proof (exec_wf (OpCancelPrepared env id at_) j Hwf) as H. cbn in H. by rewrite Hc in H. }
  assert (He' : commands j1 !! id = Some (Encoded e') /\ st e' = StateCancelled).
  { rewrite Hj1. cbn. rewrite lookup_insert_eq. split; [done|]. run Hu; bool_simpl; done. }
  destruct He' as [He' Hst]. pose proof (steps_wf _ _ Hs Hj1') as Hj2.
  apply steps_le in Hs. destruct (Hs _ _ He') as ([e2|] & He2 & Hle); [|done]. cbn in Hle.
  pose proof (le_state _ _ Hle) as Hle'. rewrite Hst in Hle'.
  assert (Hst2 : st e2 = StateCancelled) by (by destruct (st e2)).
  split.
  - intros. eapply not_prepared_not_started; [exact He2|..]; congruence.
  - exists e2. split_and!; try done. destruct (Hj2 _ _ He2) as (? & [= <-] & Hwf2).
    pose proof (wf_state _ _ Hwf2) as H. rewrite Hst2 in H. tauto.
Qed.

(** a successful start had an unexpired prepared (or authorised) entry
    and an unexpired start deadline, and leaves exactly the presented fence in a running entry. *)
Theorem started_commands_match_their_fence env1 env2 j id token revision deadline now1 now2 j' :
  AuthorizeStart env1 env2 j id token revision deadline now1 now2 = (j', Ok tt) ->
  exists e e', commands j !! id = Some (Encoded e) /\ commands j' !! id = Some (Encoded e')
    /\ (st e = StatePrepared \/ st e = StateStartAuthorized) /\ st e' = StateRunning
    /\ matchesFence e' token revision = true
    /\ Before (UTC now1) (UnixNanoTime (ExpiresAtUnixNano e)) = true /\ Before (UTC now2) (UTC deadline) = true.
Proof. apply authorize_ok_running. Qed.

(** C26: crash recovery: reopening a well-formed journal (with a working database
    and encoder) succeeds, leaves no command running, and gives every interrupted
    command a stored result to report. *)
Theorem recovery_interrupts_running_commands j at_ :
  journal_wf j -> (forall e, is_Some (marshal_result (interrupted_result e))) ->
  exists j', recoverRunning true true j at_ = (j', Ok tt) /\ journal_wf j'
  /\ (forall id e, commands j' !! id = Some (Encoded e) -> st e <> StateRunning /\ st e <> StateStartAuthorized)
  /\ (forall id e, commands j !! id = Some (Encoded e) -> st e = StateRunning ->
        exists e', commands j' !! id = Some (Encoded e') /\ st e' = StateInterrupted /\ result_ok e').
Proof.
  intros Hwf Hm. pose proof (exec_wf (OpReopen true true at_) j Hwf) as Hwf'. cbn in Hwf'.
  unfold CommandJournal.recoverRunning in *.
  destruct (traverse_total (fun kv => match recover_entry sha256 marshal_result at_ (snd kv) with
              | Err x => Err x | Ok c => Ok (fst kv, c) end) (bucket_list (commands j))) as [kvs Ht].
  { intros [k c] Hin. rewrite bucket_list_perm in Hin. apply elem_of_map_to_list in Hin.
    destruct (Hwf _ _ Hin) as (e & -> & Hw). destruct (recover_entry_total at_ k e Hw (Hm e)) as [c' Hc'].
    exists (k, c'). cbn [fst snd]. by rewrite Hc'. }
  rewrite Ht in *. cbn in *. rewrite andb_false_r in *. cbn in *.
  eexists. split; [done|]. split; [done|]. split; intros id e He; cbn in *.
  - pose proof (recover_lookup j at_ kvs id Ht) as Hl. destruct (commands j !! id) as [c|] eqn:Hc; [|congruence].
    destruct Hl as (c' & Hr & Hc'). rewrite He in Hc'. simplify_eq.
    pose proof (recover_entry_wf _ _ _ _ Hr (Hwf _ _ Hc)) as (e' & [= <-] & _ & ?). done.
  - intros Hst. pose proof (recover_lookup j at_ kvs id Ht) as Hl. rewrite He in Hl.
    destruct Hl as (c' & Hr & Hc'). unfold recover_entry in Hr. cbn in Hr. rewrite Hst in Hr. cbn in Hr. run Hr.
    eexists. split; [done|]. destruct (Hwf' _ _ Hc') as (? & [= <-] & Hw).
    pose proof (wf_state _ _ Hw) as Hws.
    match goal with H : setInterrupted _ _ = _ |- _ => apply setInterrupted_inv in H as (b & _ & ->) end.
    by destruct Hws.
Qed.

Lemma publicEntry_total id e :
  entry_wf id e -> exists p, publicEntry e = Ok p /\ je_CommandID p = id
    /\ (Result e <> [] -> je_ResultDigest p = sha256 (Result e)).
Proof using sha256_size sha256_bytes.
  intros [Hid _ [d Hd] He Hs]. unfold CommandJournal.publicEntry. rewrite Hd, decodeDigest_sha.
  assert (Henv : exists v, match Envelope e with
      | None => Ok None
      | Some b => if bool_decide (length b = 0) then Ok None
                  else match unmarshal_envelope b with Some v => Ok (Some v) | None => Err ErrUnmarshal end
      end = Ok v).
  { destruct (Envelope e) as [b|]; [|eauto]. case_bool_decide; [eauto|]. destruct (He b eq_refl) as [v ->]. eauto. }
  destruct Henv as [v ->].
  assert (Hh : exists h, (if empty_string (ExecutionTokenHashHex e) then Ok no_digest
                          else decodeDigest (ExecutionTokenHashHex e)) = Ok h).
  { unfold empty_string. case_bool_decide as Hne; [eauto|].
    assert (Hf : validStoredFence e = true) by (destruct (st e); naive_solver).
    unfold CommandJournal.validStoredFence in Hf. run Hf. bool_simpl.
    rewrite Hf, decodeDigest_sha. eauto. }
  destruct Hh as [h ->].
  assert (Hr : Result e = [] \/ result_ok e) by (destruct (st e); naive_solver).
  destruct Hr as [Hr|(Hne & [r Hu] & Hdig)].
  - rewrite Hr. cbn. eexists. split; [done|]. cbn. split; [done|]. by intros [].
  - rewrite bool_decide_false by (by destruct (Result e)). rewrite Hu, Hdig, decodeDigest_sha.
    eexists. split; [done|]. done.
Qed.

Lemma list_walk_complete include cells :
  (forall c, c ∈ cells -> exists id e, c = Encoded e /\ entry_wf id e) ->
  exists es, list_walk unmarshal_envelope unmarshal_result false include cells = Ok es
  /\ forall e, Encoded e ∈ cells -> include e = true -> exists p, publicEntry e = Ok p /\ p ∈ es.
Proof using sha256_size sha256_bytes.
  induction cells as [|c cells IH]; intros Hall; cbn.
  { eexists; split; [done|]. by intros e ?%elem_of_nil. }
  destruct (Hall c) as (id & e & -> & Hwf); [left|]. cbn.
  destruct IH as (es & Hes & Hin); [intros; apply Hall; by right|]. rewrite Hes.
  destruct (publicEntry_total id e Hwf) as (p & Hp & _).
  destruct (include e) eqn:Hi; [rewrite Hp|]; eexists; (split; [done|]); intros e' [[= ->]|He']%elem_of_cons Hi'.
  - exists p. split; [done|left].
  - destruct (Hin e' He' Hi') as (p' & ? & ?). exists p'. split; [done|by right].
  - congruence.
  - eauto.
Qed.

(** no result is lost: as long as a finished command has no recorded
    acknowledgement, [PendingResults] of a well-formed journal returns it, under its id
    and with the digest of the stored bytes. *)
Theorem unreported_results_stay_pending j id e :
  journal_wf j -> commands j !! id = Some (Encoded e) ->
  (st e = StateCompleted \/ st e = StateInterrupted) -> ReportedAtUnixNano e = 0%Z ->
  exists es p, PendingResults fault_free j = Ok es /\ p ∈ es /\ je_CommandID p = id
    /\ je_ResultDigest p = sha256 (Result e).
Proof using sha256_size sha256_bytes.
  intros Hwf He Hst Hrep. destruct (Hwf _ _ He) as (? & [= <-] & Hw).
  assert (Hres : result_ok e) by (pose proof (wf_state _ _ Hw); destruct Hst as [Hst|Hst]; rewrite Hst in *; tauto).
  destruct (list_walk_complete is_pending_result (snd <$> bucket_list (commands j))) as (es & Hes & Hin).
  { intros c ([k c'] & -> & Hk)%list_elem_of_fmap. rewrite bucket_list_perm in Hk.
    apply elem_of_map_to_list in Hk. exists k. by apply Hwf. }
  destruct (publicEntry_total id e Hw) as (p & Hp & Hpid & Hpd).
  exists es, p. split; [exact Hes|]. split; [|split; [done|apply Hpd, Hres]].
  destruct (Hin e) as (p' & Hp' & ?); [|destruct Hres as [Hne _]|congruence].
  - apply list_elem_of_fmap. exists (id, Encoded e). split; [done|].
    rewrite bucket_list_perm. by apply elem_of_map_to_list.
  - unfold is_pending_result. rewrite Hrep.
    destruct (Result e) eqn:Hr; [done|]. by destruct Hst as [-> | ->].
Qed.

(** acknowledgement: the digest of the stored result marks it reported
    (so it is no longer pending); any other digest is refused and changes nothing. *)
Theorem acknowledgement_needs_the_result_digest j id e digest at_ :
  journal_wf j -> commands j !! id = Some (Encoded e) ->
  (st e = StateCompleted \/ st e = StateInterrupted) -> UnixNano (UTC at_) <> 0%Z ->
  let '(j', r) := MarkReported fault_free j id digest at_ in
  if bytes_equal (sha256 (Result e)) digest
  then r = Ok tt /\ exists e', commands j' !! id = Some (Encoded e') /\ is_pending_result e' = false
  else r = Err ErrResultDigestMismatch /\ j' = j.
Proof.
  intros Hwf He Hst Hat. destruct (Hwf _ _ He) as (? & [= <-] & Hw).
  assert (Hres : result_ok e) by (pose proof (wf_state _ _ Hw); destruct Hst as [Hst|Hst]; rewrite Hst in *; tauto).
  destruct Hres as (Hne & _ & Hd). unfold MarkReported, transition. cbn.
  rewrite (wf_nonblank _ _ Hw), He. cbn.
  replace (negb (bool_decide (st e = StateCompleted)) && negb (bool_decide (st e = StateInterrupted))) with false
    by (destruct Hst as [-> | ->]; done).
  rewrite (bool_decide_false (length (Result e) = 0)) by (by destruct (Result e)). cbn.
  rewrite Hd, decodeDigest_sha. destruct (bytes_equal _ _) eqn:Hb; [|done]. cbn.
  destruct (ReportedAtUnixNano e =? 0)%Z eqn:Hrep; cbn; (split; [done|]); eexists;
    (split; [by rewrite lookup_insert_eq|]); unfold is_pending_result; cbn; apply andb_false_iff; left;
    apply andb_false_iff; right; [by apply Z.eqb_neq|done].
Qed.

(** preparing is idempotent and replay-safe: the same envelope again is a
    no-op, another envelope under the same id is a conflict, and the same nonce under another
    id is refused until the reservation expires; none of these changes the journal. *)
Theorem prepare_is_idempotent_and_replay_safe env j v at_ j1 :
  Prepare env j (Some v) at_ = (j1, Ok true) ->
  (forall at2, IsZero at2 = false -> Prepare fault_free j1 (Some v) at2 = (j1, Ok false))
  /\ (forall w b bw at2, e_CommandId w = e_CommandId v -> marshal_envelope v = Some b ->
       marshal_envelope w = Some bw -> sha256 bw <> sha256 b ->
       forall j2 r, Prepare fault_free j1 (Some w) at2 = (j2, r) -> j2 = j1 /\ is_ok r = false)
  /\ (forall w at2 valid expires, e_Nonce w = e_Nonce v -> commands j1 !! e_CommandId w = None ->
       e_ExpiresAt v = Some {| AsTime := expires; IsValid := valid |} ->
       After (UnixNanoTime (UnixNano (UTC expires))) (UTC at2) = true ->
       forall j2 r, Prepare fault_free j1 (Some w) at2 = (j2, r) -> j2 = j1 /\ is_ok r = false).
Proof.
  intros H. unfold CommandJournal.Prepare in H. destruct (ctx_entry env); [done|].
  destruct (e_ExpiresAt v) as [[expires valid]|] eqn:Hexp; [|done].
  destruct (_ || _) eqn:Hg in H; [done|]. apply orb_false_iff in Hg as [Hg Hat].
  destruct (marshal_envelope v) as [b|] eqn:Hm; [|done].
  destruct (prepare_tx _ _ _ _ _) as [[j'|]|] eqn:Hp in H; [|by destruct (commit_fails env)|done].
  destruct (commit_fails env), (sync_fails env); simplify_eq.
  assert (Hj : j1 = {| commands := <[e_CommandId v := Encoded (new_entry sha256 v b expires at_)]> (commands j);
    meta := <[nonceKey sha256 (e_Nonce v) := Encoded
      {| nr_CommandID := e_CommandId v; nr_EnvelopeDigestHex := hex_encode (sha256 b);
         nr_ExpiresAtUnixNano := UnixNano (UTC expires) |}]> (meta j) |}).
  { unfold prepare_tx in Hp. destruct (ctx_tx env); [done|].
    destruct (commands j !! _) eqn:Hc; [by run Hp|]. by run Hp. }
  clear Hp. split; [|split].
  - intros at2 Hat2. unfold CommandJournal.Prepare. cbn. rewrite Hexp, Hg, Hat2, Hm. cbn.
    unfold prepare_tx. cbn. rewrite Hj. cbn. rewrite lookup_insert_eq. cbn. by rewrite bool_decide_true.
  - intros w b' bw at2 Hid [= <-] Hmw Hne j2 r H2. unfold CommandJournal.Prepare in H2. cbn in H2.
    destruct (e_ExpiresAt w) as [[expw validw]|]; [|by simplify_eq]. destruct (_ || _) in H2; [by simplify_eq|].
    rewrite Hmw in H2. unfold prepare_tx in H2. cbn in H2. rewrite Hid, Hj in H2. cbn in H2.
    rewrite lookup_insert_eq in H2. cbn in H2. rewrite bool_decide_false in H2; [by simplify_eq|].
    intros Heq. apply hex_encode_inj in Heq; auto.
  - intros w at2 valid' expires' Hn Hc [= <- <-] Hlive j2 r H2. unfold CommandJournal.Prepare in H2. cbn in H2.
    destruct (e_ExpiresAt w) as [[expw validw]|]; [|by simplify_eq]. destruct (_ || _) in H2; [by simplify_eq|].
    destruct (marshal_envelope w) as [bw|]; [|by simplify_eq].
    unfold prepare_tx in H2. cbn [ctx_tx fault_free CommandID new_entry] in H2. rewrite Hc, Hn in H2.
    rewrite Hj in H2, Hc. cbn in H2, Hc. rewrite lookup_insert_eq in H2. cbn in H2.
    assert (Hidne : e_CommandId v <> e_CommandId w).
    { intros Heq. rewrite Heq, lookup_insert_eq in Hc. done. }
    rewrite Hlive, (bool_decide_false (e_CommandId v = _)) in H2 by done. cbn in H2. simplify_eq. by subst.
Qed.

End Facts.

(** ** Witnesses: a concrete digest and codec *)

Definition demo_sha256 (b : bytes) : bytes := replicate digest_size (foldr Z.add 0%Z b mod 256)%Z.
Definition demo_marshal {A} `{DemoCodec A} (a : A) : option bytes := Some (to_fields a).
Definition demo_unmarshal {A} `{DemoCodec A} (b : bytes) : option A := of_fields b.

Lemma demo_sha256_size b : length (demo_sha256 b) = digest_size.
Proof. apply length_replicate. Qed.
Lemma demo_sha256_bytes b : Forall is_byte (demo_sha256 b).
Proof. apply Forall_replicate. unfold is_byte. apply Z.mod_pos_bound. lia. Qed.
Lemma demo_roundtrip {A} `{DemoCodec A} (a : A) b : demo_marshal a = Some b -> demo_unmarshal b = Some a.
Proof. intros [= <-]. apply fields_roundtrip. Qed.
Lemma demo_nonempty (r : CommandResult) b : demo_marshal r = Some b -> r_CommandId r <> EmptyString -> b <> [].
Proof. by intros [= <-] _. Qed.

Definition demo_at (seconds : Z) : time := Time (unix_epoch + seconds * second) true.
Definition demo_envelope : CommandEnvelope :=
  {| e_CommandId := "cmd-1"; e_JobId := "job-1"; e_AgentId := "host-1"; e_IssuedAt := None; e_ExpiresAt := Some {| AsTime := demo_at 100; IsValid := true |};
     e_Nonce := [7%Z; 7%Z]; e_Signature := []; e_LeaseSeconds := 60; e_Command := Some (OtherCommand "collect_now" [1%Z]) |}%string.
Definition demo_token : bytes := replicate digest_size 5%Z.
Definition demo_empty : BoltJournal := {| commands := ∅; meta := ∅ |}.
Definition demo_exec := exec demo_sha256 demo_marshal demo_marshal.
Definition demo_prepared : BoltJournal := fst (demo_exec (OpPrepare fault_free (Some demo_envelope) (demo_at 1)) demo_empty).
Definition demo_started : BoltJournal :=
  fst (demo_exec (OpAuthorizeStart fault_free fault_free "cmd-1" demo_token 1 (demo_at 50) (demo_at 2) (demo_at 3)) demo_prepared).

Lemma demo_prepared_reachable : rtc (journal_step demo_sha256 demo_marshal demo_marshal) demo_empty demo_prepared.
Proof. apply rtc_once. by eexists. Qed.

Lemma demo_started_reachable : rtc (journal_step demo_sha256 demo_marshal demo_marshal) demo_empty demo_started.
Proof. eapply rtc_r; [apply demo_prepared_reachable|]. by eexists. Qed.

Lemma reachable_journals_are_well_formed_witness :
  journal_wf demo_sha256 demo_unmarshal demo_unmarshal demo_started.
Proof.
  apply (reachable_journals_are_well_formed demo_sha256 demo_marshal demo_unmarshal demo_marshal demo_unmarshal
    demo_roundtrip demo_roundtrip demo_nonempty ∅).
  apply demo_started_reachable.
Defined.

Lemma demo_start_ok :
  AuthorizeStart demo_sha256 demo_marshal fault_free fault_free demo_prepared "cmd-1" demo_token 1
    (demo_at 50) (demo_at 2) (demo_at 3) = (demo_started, Ok tt).
Proof. vm_compute. reflexivity. Qed.

Lemma start_takes_effect_at_most_once_witness :
  blank "cmd-1" = false
  /\ AuthorizeStart demo_sha256 demo_marshal fault_free fault_free demo_started "cmd-1" demo_token 2
       (demo_at 60) (demo_at 4) (demo_at 5) <> (demo_started, Ok tt).
Proof.
  split; [reflexivity|].
  eapply (start_takes_effect_at_most_once demo_sha256 demo_marshal demo_marshal);
    [apply demo_start_ok|reflexivity].
Defined.

Lemma cancelled_commands_never_start_witness :
  exists e, commands (fst (CancelPrepared fault_free demo_prepared "cmd-1" (demo_at 2))) !! "cmd-1"%string
            = Some (Encoded e) /\ st e = StateCancelled /\ Envelope e = None.
Proof.
  refine (proj2 (cancelled_commands_never_start demo_sha256 demo_marshal demo_unmarshal demo_marshal demo_unmarshal
    demo_roundtrip demo_roundtrip demo_nonempty
    fault_free demo_prepared "cmd-1" (demo_at 2) _ _ _ (rtc_refl _ _) _)).
  - vm_compute. reflexivity.
  - eapply steps_wf; [apply demo_roundtrip|apply demo_roundtrip|apply demo_nonempty|apply demo_prepared_reachable|apply empty_wf].
Defined.

Lemma started_commands_match_their_fence_witness :
  exists e', commands demo_started !! "cmd-1"%string = Some (Encoded e') /\ st e' = StateRunning.
Proof.
  destruct (started_commands_match_their_fence demo_sha256 demo_marshal fault_free fault_free demo_prepared "cmd-1"
    demo_token 1 (demo_at 50) (demo_at 2) (demo_at 3) demo_started demo_start_ok)
    as (e & e' & _ & H & _ & Hst & _).
  exists e'. split; [exact H|exact Hst].
Defined.

Lemma demo_started_wf : journal_wf demo_sha256 demo_unmarshal demo_unmarshal demo_started.
Proof.
  eapply steps_wf; [apply demo_roundtrip|apply demo_roundtrip|apply demo_nonempty|apply demo_started_reachable|apply empty_wf].
Qed.

Lemma recovery_interrupts_running_commands_witness :
  exists j', recoverRunning demo_sha256 demo_marshal true true demo_started (demo_at 9) = (j', Ok tt)
    /\ forall id e, commands j' !! id = Some (Encoded e) -> st e <> StateRunning.
Proof.
  destruct (recovery_interrupts_running_commands demo_sha256 demo_marshal demo_unmarshal demo_marshal demo_unmarshal
    demo_roundtrip demo_roundtrip demo_nonempty demo_started (demo_at 9) demo_started_wf)
    as (j' & Hr & _ & H & _); [intros e; eexists; reflexivity|].
  exists j'. split; [exact Hr|]. intros id e He. apply (H id e He).
Defined.

Definition demo_interrupted : BoltJournal := fst (demo_exec (OpReopen true true (demo_at 9)) demo_started).
Lemma demo_interrupted_wf : journal_wf demo_sha256 demo_unmarshal demo_unmarshal demo_interrupted.
Proof.
  eapply steps_wf; [apply demo_roundtrip|apply demo_roundtrip|apply demo_nonempty| |apply demo_started_wf].
  apply rtc_once. exists (OpReopen true true (demo_at 9)). reflexivity.
Qed.

Definition demo_entry : storedEntry :=
  match commands demo_interrupted !! "cmd-1"%string with
  | Some (Encoded e) => e
  | _ => new_entry demo_sha256 demo_envelope [] (demo_at 0) (demo_at 0)
  end.

Lemma unreported_results_stay_pending_witness :
  exists es p, PendingResults demo_unmarshal demo_unmarshal fault_free demo_interrupted = Ok es /\ p ∈ es
    /\ je_CommandID p = "cmd-1"%string.
Proof.
  destruct (unreported_results_stay_pending demo_sha256 demo_unmarshal demo_unmarshal
    demo_sha256_size demo_sha256_bytes demo_interrupted "cmd-1" demo_entry demo_interrupted_wf)
    as (es & p & H1 & H2 & H3 & _);
    [vm_compute; reflexivity|right; vm_compute; reflexivity|vm_compute; reflexivity|].
  exists es, p. split; [exact H1|split; [exact H2|exact H3]].
Defined.

Lemma acknowledgement_needs_the_result_digest_witness :
  snd (MarkReported fault_free demo_interrupted "cmd-1" [] (demo_at 10)) = Err ErrResultDigestMismatch.
Proof.
  pose proof (acknowledgement_needs_the_result_digest demo_sha256 demo_unmarshal demo_unmarshal
    demo_sha256_size demo_sha256_bytes demo_interrupted "cmd-1" demo_entry [] (demo_at 10) demo_interrupted_wf
    ltac:(vm_compute; reflexivity) ltac:(right; vm_compute; reflexivity) ltac:(vm_compute; discriminate)) as H.
  destruct (MarkReported fault_free demo_interrupted "cmd-1" [] (demo_at 10)) as [j' r].
  exact (proj1 H).
Defined.

Lemma prepare_is_idempotent_and_replay_safe_witness :
  Prepare demo_sha256 demo_marshal fault_free demo_prepared (Some demo_envelope) (demo_at 5) = (demo_prepared, Ok false).
Proof.
  apply (prepare_is_idempotent_and_replay_safe demo_sha256 demo_marshal demo_sha256_bytes
    fault_free demo_empty demo_envelope (demo_at 1) demo_prepared); vm_compute; reflexivity.
Defined.
