(* ===== verification/AgentClient.v ===== *)
(** * The control client of the agent

    [ControlClient] of [agent/controlclient.go] with the verifier of
    [agent/commandverify.go]: how an agent greets a control plane, prepares,
    starts, runs, cancels and reports commands, and answers acknowledgements.
    Every method is a program over its calls on the journal, the clock, the
    table of running commands, the session and the executors.

    The send queue of a session is part of the call that sends.  Waiters for
    leases and for acknowledgements of discovery reports are left out: a message
    for them is one call. *)

From S2P Require Import Prelude Programs GoText JobModel JobRepository CommandLifecycle SessionRegistry AgentServer CommandJournal.

Open Scope Z_scope.
Open Scope update_scope.
Open Scope prog_scope.

(** ** Kinds of commands and executors *)

Definition CommandKindExecuteRegisteredProcess : string := "execute_registered_process".

Definition known_kinds : list string :=
  ["collect_now"; "inspect_instance"; "execute_sql"; "execute_registered_process"; "collect_diagnostic"; "discover_databases"; "plugin.reconcile.v1";
   "plugin.configuration.apply.v1"; "plugin.instance.validate.v1"; "plugin.drain.v1"; "plugin.metrics.collect.v1"]%string.
Definition knownCommandKind (kind : string) : bool := bool_decide (kind ∈ known_kinds).

Definition envelopeCommandKind `{AgentCodec} (e : CommandEnvelope) : option string :=
  match body_of <$> e_Command e with
  | Some CollectNowBody => Some "collect_now"
  | Some InspectInstanceBody => Some "inspect_instance"
  | Some ExecuteSqlBody => Some "execute_sql"
  | Some ExecuteRegisteredProcessBody => Some CommandKindExecuteRegisteredProcess
  | Some CollectDiagnosticBody => Some "collect_diagnostic"
  | Some DiscoverDatabasesBody => Some "discover_databases"
  | Some (ReconcilePluginBody _ _ _ _) => Some "plugin.reconcile.v1"
  | Some ApplyPluginConfigurationBody => Some "plugin.configuration.apply.v1"
  | Some ValidateDatabaseInstanceBody => Some "plugin.instance.validate.v1"
  | Some DrainPluginBody => Some "plugin.drain.v1"
  | Some (CollectDatabaseMetricsBody _) => Some "plugin.metrics.collect.v1"
  | Some UnknownBody | None => None
  end%string.

(** Executors by kind, with the capabilities they add, and by process. *)
Record ExecutorRegistry := MkExecutors { executors : gmap string (list string); processExecutors : gset string }.
#[global] Instance ExecutorRegistry_eta : Eta ExecutorRegistry := fun r => MkExecutors (executors r) (processExecutors r).

(** What the client uses of code outside this model: Ed25519, [commandvalidation.Validate] for this agent and its targets and for a
    process, the process a command names, and decoded results. *)
Class AgentKeys := {
  VerifySignature : bytes -> bytes -> bytes -> bool;      (* [ed25519.Verify] of a key, a payload and a signature *)
  ValidateProcess : string -> bool;
  ValidateTargets : CommandEnvelope -> option bool;       (* [Some true] is an unauthorized target *)
  process_of : CommandEnvelope -> string;
  UnmarshalResult : bytes -> option CommandResult;
}.

Section executors.
Context {database : JobDatabase} {agents : AgentCodec} {keys : AgentKeys}.

Definition Register (kind : string) (additional : list string) (r : ExecutorRegistry) : option ExecutorRegistry :=
  if negb (knownCommandKind kind) || bool_decide (kind = CommandKindExecuteRegisteredProcess) then None
  else match executors r !! kind with Some _ => None | None => Some (r <| executors ::= <[kind := additional]> |>) end.

Definition RegisterProcess (processID : string) (r : ExecutorRegistry) : option ExecutorRegistry :=
  if negb (ValidateProcess processID) || bool_decide (processID ∈ processExecutors r) then None else Some (r <| processExecutors ::= union {[ processID ]} |>).

(** The capabilities that a registry advertises, in order. *)
Definition Capabilities (r : ExecutorRegistry) : list string :=
  merge_sort string_leb (elements (
    list_to_set ((map_to_list (executors r) ≫= fun '(kind, additional) => kind :: List.filter (fun c => negb (blank c)) additional)
      ++ (if decide (processExecutors r = ∅) then [] else [CommandKindExecuteRegisteredProcess])) : gset string)).

(** [executor]: whether there is one for the envelope. *)
Definition executor (r : ExecutorRegistry) (e : CommandEnvelope) : bool :=
  match envelopeCommandKind e with
  | None => false
  | Some kind =>
      if bool_decide (kind = CommandKindExecuteRegisteredProcess) then bool_decide (process_of e ∈ processExecutors r)
      else match executors r !! kind with Some _ => true | None => false end
  end.

(** ** The verifier *)

Record nonceRecord := { nonce_commandID : string; nonce_expiresAt : time }.
Record CommandVerifier := MkVerifier { v_agentID : string; v_publicKey : bytes; v_capabilities : gset string; v_nonces : gmap bytes nonceRecord }.
#[global] Instance CommandVerifier_eta : Eta CommandVerifier := fun v => MkVerifier (v_agentID v) (v_publicKey v) (v_capabilities v) (v_nonces v).

Definition ed25519_PublicKeySize : nat := 32.
Definition metadata_capabilities : list string :=
  ["collect_now.dependencies.v1"; "collect_now.host.v1"; "plugin_reconcile.instance_descriptors.v1"; "metric_template_lease.v1"; "discovery_source_results_v1";
   "discovery_source_results_pending_legacy_v1"; "docker_discovery_v1"; "native_discovery_v1"; "docker_discovery_configured"; "docker_discovery_unavailable"]%string.
Definition knownMetadataCapability (value : string) : bool := bool_decide (value ∈ metadata_capabilities).

Definition NewCommandVerifier (agentID : string) (publicKey : bytes) (capabilities : list string) : option CommandVerifier :=
  if blank agentID || negb (length publicKey =? ed25519_PublicKeySize)%nat then None
  else if negb (forallb (fun raw => knownCommandKind raw || knownMetadataCapability raw) capabilities) then None
  else Some {| v_agentID := agentID; v_publicKey := publicKey; v_capabilities := list_to_set (List.filter knownCommandKind capabilities); v_nonces := ∅ |}.

(** What is signed: the envelope without its signature. *)
Definition CommandSigningBytes (e : CommandEnvelope) : bytes := Marshal (e <| e_Signature := [] |>).

Inductive verify_error :=
  | ErrVerifyContext | ErrInvalidCommandEnvelope | ErrInvalidCommandSignature | ErrVerifyExpired | ErrCommandAgentMismatch | ErrCommandCapabilityUnavailable
  | ErrCommandNonceReplay | ErrCommandTargetUnauthorized.

Definition well_formed_envelope (e : CommandEnvelope) : bool :=
  negb (blank (e_CommandId e)) && negb (bool_decide (e_Command e = None)) && negb (e_LeaseSeconds e =? 0) && negb (MaximumTimeoutSeconds <? e_LeaseSeconds e)
  && negb (bool_decide (e_Nonce e = [])) && match e_IssuedAt e with Some t => IsValid t | None => false end
  && match e_ExpiresAt e with Some t => IsValid t | None => false end.

(** Nonces of expired commands are forgotten. *)
Definition live_nonces (now : time) (m : gmap bytes nonceRecord) : gmap bytes nonceRecord := filter (fun '(_, seen) => After (nonce_expiresAt seen) now) m.

Definition Verify (cancelled : bool) (now : time) (e : CommandEnvelope) (v : CommandVerifier) : option verify_error * CommandVerifier :=
  if cancelled then (Some ErrVerifyContext, v)
  else if negb (well_formed_envelope e) then (Some ErrInvalidCommandEnvelope, v)
  else if negb (bool_decide (v_agentID v = e_AgentId e)) then (Some ErrCommandAgentMismatch, v)
  else
    match e_IssuedAt e, e_ExpiresAt e with
    | Some issued, Some expires =>
        if negb (After (AsTime expires) now) || negb (After (AsTime expires) (AsTime issued)) then (Some ErrVerifyExpired, v)
        else if After (AsTime issued) (AddDuration now (5 * minute)) then (Some ErrInvalidCommandEnvelope, v)
        else match envelopeCommandKind e with
        | None => (Some ErrInvalidCommandEnvelope, v)
        | Some kind =>
            if negb (bool_decide (kind ∈ v_capabilities v)) then (Some ErrCommandCapabilityUnavailable, v)
            else if negb (length (e_Signature e) =? ed25519_SignatureSize)%nat || negb (VerifySignature (v_publicKey v) (CommandSigningBytes e) (e_Signature e)) then (Some ErrInvalidCommandSignature, v)
            else match ValidateTargets e with
            | Some unauthorized => (Some (if unauthorized then ErrCommandTargetUnauthorized else ErrInvalidCommandEnvelope), v)
            | None =>
                let nonces := live_nonces now (v_nonces v) in
                let replayed := match nonces !! e_Nonce e with Some seen => negb (bool_decide (nonce_commandID seen = e_CommandId e)) | None => false end in
                if replayed then (Some ErrCommandNonceReplay, v <| v_nonces := nonces |>)
                else (None, v <| v_nonces := <[e_Nonce e := {| nonce_commandID := e_CommandId e; nonce_expiresAt := AsTime expires |}]> nonces |>)
            end
        end
    | _, _ => (Some ErrInvalidCommandEnvelope, v)
    end.

Definition commandRejectionReason (e : verify_error) : string :=
  match e with
  | ErrInvalidCommandSignature => "INVALID_SIGNATURE"
  | ErrVerifyExpired => "COMMAND_EXPIRED"
  | ErrCommandAgentMismatch => "AGENT_MISMATCH"
  | ErrCommandCapabilityUnavailable => "CAPABILITY_UNAVAILABLE"
  | ErrCommandNonceReplay => "NONCE_REPLAY"
  | ErrCommandTargetUnauthorized => "TARGET_UNAUTHORIZED"
  | ErrVerifyContext | ErrInvalidCommandEnvelope => "INVALID_COMMAND"
  end%string.
End executors.

(** ** Calls *)

(** How a method of the client fails; [ErrFatal] ends the client, as does a stream that ended with a permanent status. *)
Inductive client_error := ErrFatal | ErrControlStreamDisconnected | ErrStream (permanent : bool) | ErrReconnect | ErrOther | ErrDone.
Abbreviation handled := (result client_error unit).

(** Contexts are numbered; [rc_cancel] is the one that the command runs in. *)
Record runningCommand := { rc_cancel : nat; rc_executionToken : bytes; rc_leaseRevision : Z }.

(** Goroutines: an execution, and the retry of a result. *)
Inductive goroutine :=
  | GExecute (context : nat) (envelope : CommandEnvelope) (executionToken : bytes) (leaseRevision : Z)
  | GRetry (session retry : nat) (commandID : string) (digest : bytes).

(** Observations of plugins, as far as the client reads them. *)
Record PluginObservation := { po_Observation : Observation; po_HostId : string; po_Revision : Z; po_ObservedAt : option Timestamp; po_Assignments : nat }.

Inductive DiscoveryCompatibility := DiscoveryCompatibilityUnknown | DiscoveryCompatibilityCompatible | DiscoveryCompatibilityIncompatible.

Inductive client_call `{AgentCodec} : Type -> Type :=
  | XNow : client_call time
  | CVerify (envelope : CommandEnvelope) : client_call (option verify_error)
  (* the journal *)
  | JPrepare (envelope : CommandEnvelope) (at_ : time) : client_call (result JournalError bool)
  | JAuthorize (id : string) (token : bytes) (revision : Z) (deadline : time) : client_call (result JournalError bool)     (* the first transaction of [AuthorizeStart] *)
  | JRun (id : string) (token : bytes) (revision : Z) (deadline : time) : client_call (result JournalError bool)           (* the second *)
  | JCancelPrepared (id : string) (at_ : time) : client_call (result JournalError unit)
  | JMarkInterrupted (id : string) (at_ : time) : client_call (result JournalError unit)
  | JComplete (id : string) (r : CommandResult) (at_ : time) : client_call (result JournalError unit)
  | JMarkReported (id : string) (digest : bytes) (at_ : time) : client_call (result JournalError unit)
  | JMarkResultConflicted (id : string) (digest : bytes) (reason : string) (at_ : time) : client_call (result JournalError unit)
  | JGet (id : string) : client_call (result JournalError Entry)
  | JActive : client_call (result JournalError (list Entry))
  | JPendingResults : client_call (result JournalError (list Entry))
  (* running commands and their contexts *)
  | RWithCancel : client_call nat
  | RInsert (id : string) (running : runningCommand) : client_call unit
  | RLookup (id : string) : client_call (option runningCommand)
  | RAll : client_call (list (string * runningCommand))                       (* sorted by command *)
  | RDelete (id : string) : client_call unit
  | RCancel (context : nat) : client_call unit
  | RCancelled (context : nat) : client_call bool
  | RGo (g : goroutine) : client_call unit
  (* executors: the invocation and its end *)
  | XExecute (envelope : CommandEnvelope) (token : bytes) (revision : Z) (startedAt : time) : client_call unit
  | XResult : client_call (option CommandResult * bool)                       (* [true] is an error *)
  | XError : client_call unit                                                 (* [reportExecutionError] *)
  (* sessions *)
  | SOpen : client_call nat
  | SSendHello (hello : Hello) : client_call handled
  | SFirst : client_call (result client_error server_payload)
  | SPeer (compatibility : DiscoveryCompatibility) (sourceResults sourceResultsPeer : bool) : client_call unit
  | SSet (session : nat) : client_call unit
  | SCurrent : client_call (option nat)
  | SOver (session : nat) : client_call bool                                  (* its context is over *)
  | SSend (m : AgentMessage) : client_call handled                             (* [sendAgentMessage] *)
  | SSendThrough (session : nat) (m : AgentMessage) : client_call handled
  | SPlugins : client_call handled                                             (* plugin recovery and refresh after a reconnect *)
  | SObservation : client_call (option PluginObservation)
  | SWaiters (p : server_payload) : client_call handled                        (* leases and discovery acknowledgements *)
  (* retries of results *)
  | TBegin (session : nat) (id : string) : client_call (option nat)
  | TTimer (retry : nat) : client_call bool                                   (* [false] is a cancelled retry *)
  | TAlive (retry : nat) : client_call bool
  | TFinish (session retry : nat) (id : string) : client_call unit
  | TCancel (session : nat) (id : string) : client_call unit.

Record ControlClient := { cc_agentID : string; cc_publicKey : bytes; executorRegistry : ExecutorRegistry; observesPlugins : bool }.

Abbreviation cprog := (Programs.prog client_call).

Definition CapabilityDiscoverySourceResultsPendingLegacyV1 : string := "discovery_source_results_pending_legacy_v1".
Definition CredentialLeaseCapability : string := "credential_lease.v1".
Definition ControlProtocolVersion : string := "1".

Definition hasCapabilities (values required : list string) : bool := forallb (fun c => bool_decide (c ∈ values)) required.

Section client.
Context {codec : ResultCodec} {database : JobDatabase} {agents : AgentCodec} {keys : AgentKeys}.

Definition continue : cprog handled := Return (Ok tt).
Definition fails (e : client_error) : cprog handled := Return (Err e).

(** ** Preparation *)

Definition sendAcknowledgement (id : string) (state : CommandAcknowledgementState) (reason : string) : cprog handled :=
  let* r := SSend (AgentCommandAcknowledgement {| k_CommandId := id; k_State := state; k_ReasonCode := reason |}) in Return r.
Definition sendPrepared (id : string) (digest : bytes) : cprog handled :=
  let* r := SSend (AgentCommandPrepared {| p_CommandId := id; p_EnvelopeDigest := digest |}) in Return r.

Definition handleCommand (c : ControlClient) (e : CommandEnvelope) : cprog handled :=
  let* refused := CVerify e in
  match refused with
  | Some err => sendAcknowledgement (e_CommandId e) ACK_REJECTED (commandRejectionReason err)
  | None =>
      if negb (executor (executorRegistry c) e) then sendAcknowledgement (e_CommandId e) ACK_REJECTED "CAPABILITY_UNAVAILABLE"
      else
        let* now := XNow in
        let* prepared := JPrepare e now in
        match prepared with
        | Err ErrCommandIDConflict => sendAcknowledgement (e_CommandId e) ACK_REJECTED "COMMAND_ID_CONFLICT"
        | Err ErrNonceReplay => sendAcknowledgement (e_CommandId e) ACK_REJECTED "NONCE_REPLAY"
        | Err _ => fails ErrOther
        | Ok true => sendPrepared (e_CommandId e) (sha256 (Marshal e))
        | Ok false =>
            let* entry := JGet (e_CommandId e) in
            match entry with Err _ => fails ErrOther | Ok entry => sendPrepared (e_CommandId e) (je_EnvelopeDigest entry) end
        end
  end.

(** ** Start *)

(** [AuthorizeStart] of the journal, transaction by transaction. *)
Definition authorizeStart (id : string) (token : bytes) (revision : Z) (deadline : time) : cprog (result JournalError unit) :=
  if negb (length token =? sha256_Size)%nat || (revision =? 0) || IsZero deadline then Return (Err ErrStartMismatch)
  else
    let* expired := JAuthorize id token revision deadline in
    match expired with
    | Err x => Return (Err x)
    | Ok true => Return (Err ErrStartDeadlineExceeded)
    | Ok false =>
        let* expired := JRun id token revision deadline in
        match expired with
        | Err x => Return (Err x)
        | Ok true => Return (Err ErrStartDeadlineExceeded)
        | Ok false => Return (Ok tt)
        end
    end.

Definition persistInterruptedStart (id : string) : cprog handled :=
  let* now := XNow in
  let* r := JMarkInterrupted id now in
  match r with
  | Err _ => fails ErrOther
  | Ok _ =>
      let* entry := JGet id in
      match entry with
      | Err _ => fails ErrOther
      | Ok entry =>
          match je_Result entry with
          | None => fails ErrOther
          | Some r =>
              let* sent := SSend (AgentCommandResult r) in
              match sent with Err ErrControlStreamDisconnected | Ok _ => continue | Err e => fails e end
          end
      end
  end.

Definition expireAuthorizedStart (id : string) : cprog handled :=
  let* entry := JGet id in
  match entry with
  | Err _ => fails ErrOther
  | Ok entry =>
      match je_State entry with
      | StateRunning | StateInterrupted | StateCompleted | StateCancelled => continue
      | StatePrepared =>
          let* now := XNow in
          let* r := JCancelPrepared id now in
          match r with Ok _ | Err ErrInvalidTransition => continue | Err _ => fails ErrOther end
      | StateStartAuthorized => persistInterruptedStart id
      | StateResultConflicted => fails ErrOther
      end
  end.

Definition interruptUnlaunchedStart (id : string) : cprog handled :=
  let* launched := RLookup id in
  match launched with Some _ => continue | None => persistInterruptedStart id end.

Definition handleCommandStart (c : ControlClient) (start : CommandStart) : cprog handled :=
  if negb (ValidateStartShape start) then fails ErrOther
  else
    let* entry := JGet (s_CommandId start) in
    match entry with
    | Err _ => fails ErrOther
    | Ok entry =>
        match je_Envelope entry with
        | None => fails ErrOther
        | Some envelope =>
            if negb (executor (executorRegistry c) envelope) then fails ErrOther
            else
              let startDeadline := UTC (AsTime (s_StartDeadline start)) in
              let- authorized := authorizeStart (s_CommandId start) (s_ExecutionToken start) (s_LeaseRevision start) startDeadline in
              match authorized with
              | Err ErrStartDeadlineExceeded => expireAuthorizedStart (s_CommandId start)
              | Err ErrAlreadyRunning | Err ErrStartConflict | Err ErrInvalidTransition => continue
              | Err _ => fails ErrOther
              | Ok _ =>
                  let* now := XNow in
                  if negb (Before (UTC now) startDeadline) then interruptUnlaunchedStart (s_CommandId start)
                  else
                    let* context := RWithCancel in
                    let* _i := RInsert (s_CommandId start) {| rc_cancel := context; rc_executionToken := s_ExecutionToken start; rc_leaseRevision := s_LeaseRevision start |} in
                    let* _g := RGo (GExecute context envelope (s_ExecutionToken start) (s_LeaseRevision start)) in
                    continue
              end
        end
    end.

(** ** Execution *)

(** The result that is stored: of the command and its execution, whatever the executor returned. *)
Definition executed (e : CommandEnvelope) (token : bytes) (revision : Z) (r : option CommandResult) (failed cancelled : bool) : CommandResult :=
  let r := match r with
           | Some r => r
           | None => {| r_CommandId := e_CommandId e; r_State := RESULT_UNSPECIFIED; r_Summary := EmptyString; r_Artifacts := []; r_ErrorCode := EmptyString; r_ExecutionToken := [];
                        r_LeaseRevision := 0; r_MetricTemplateTrialResult := None |}
           end in
  let state := r_State r in
  let unfinished := failed || bool_decide (state = RESULT_UNSPECIFIED) in
  {| r_CommandId := e_CommandId e; r_ExecutionToken := token; r_LeaseRevision := revision; r_Artifacts := r_Artifacts r; r_MetricTemplateTrialResult := r_MetricTemplateTrialResult r;
     r_State := if unfinished then if cancelled then RESULT_CANCELLED else RESULT_FAILED else state;
     r_ErrorCode := if unfinished then if cancelled then "COMMAND_CANCELLED" else "EXECUTOR_FAILED" else r_ErrorCode r;
     r_Summary := if unfinished && negb cancelled then "command execution failed" else r_Summary r |}.

Definition execute (context : nat) (e : CommandEnvelope) (token : bytes) (revision : Z) : cprog unit :=
  let* startedAt := XNow in
  let* _x := XExecute e token revision (UTC startedAt) in
  let* returned := XResult in
  let '(r, failed) := returned : option CommandResult * bool in
  let unfinished := (failed : bool) || match r with Some r => bool_decide (r_State r = RESULT_UNSPECIFIED) | None => true end in
  let- cancelled := (if unfinished then let* b := RCancelled context in Return b else Return false) in
  let result := executed e token revision r failed cancelled in
  let* now := XNow in
  let* stored := JComplete (e_CommandId e) result now in
  let- _s := (match stored with Err _ => let* _e := XError in Return tt | Ok _ => let* _r := SSend (AgentCommandResult result) in Return tt end) in
  let* _d := RDelete (e_CommandId e) in
  let* _c := RCancel context in                       (* the deferred [cancel] *)
  Return tt.

(** [commandProgressReporter.Report]: the progress of an execution, completed with its fence; an empty token stands for one that is not set. *)
Definition Report (id : string) (token : bytes) (revision : Z) (p : CommandProgress) : option CommandProgress :=
  let p := {| g_ProgressCommandId := if empty_string (g_ProgressCommandId p) then id else g_ProgressCommandId p; g_Percent := g_Percent p;
              g_ExecutionToken := if bool_decide (g_ExecutionToken p = []) then token else g_ExecutionToken p;
              g_LeaseRevision := if g_LeaseRevision p =? 0 then revision else g_LeaseRevision p |} in
  if negb (bool_decide (g_ProgressCommandId p = id)) || negb (matchingExecutionToken (g_ExecutionToken p) token) || negb (g_LeaseRevision p =? revision) then None
  else Some p.

(** ** Cancellation *)

Definition cancelCommand (x : CommandCancellation) : cprog handled :=
  if bool_decide (x_ExecutionToken x = []) && (x_LeaseRevision x =? 0) then
    let* now := XNow in
    let* r := JCancelPrepared (x_CommandId x) now in
    match r with Ok _ | Err ErrInvalidTransition | Err ErrCommandNotFound => continue | Err _ => fails ErrOther end
  else
    let* running := RLookup (x_CommandId x) in
    match running with
    | Some running =>
        if negb (matchingExecutionToken (rc_executionToken running) (x_ExecutionToken x)) || negb (rc_leaseRevision running =? x_LeaseRevision x) then continue
        else let* _c := RCancel (rc_cancel running) in continue
    | None => continue
    end.

(** ** Results *)

(** An entry whose result still has to be reported. *)
Definition unreported (entry : Entry) (digest : bytes) : option CommandResult :=
  match je_Result entry with
  | None => None
  | Some r =>
      if negb (bool_decide (je_State entry = StateCompleted)) && negb (bool_decide (je_State entry = StateInterrupted)) || negb (IsZero (je_ReportedAt entry))
         || negb (bool_decide (je_ResultDigest entry = digest)) then None
      else Some r
  end.

Definition scheduleResultRetry (a : CommandResultAcknowledgement) : cprog handled :=
  let* entry := JGet (ra_CommandId a) in
  match entry with
  | Err _ => fails ErrFatal
  | Ok entry =>
      match unreported entry (ra_ResultDigest a) with
      | None => continue
      | Some _ =>
          let* session := SCurrent in
          match session with
          | None => fails ErrControlStreamDisconnected
          | Some session =>
              let* over := SOver session in
              if (over : bool) then fails ErrControlStreamDisconnected
              else
                let* retry := TBegin session (ra_CommandId a) in
                match retry with
                | None => continue
                | Some retry => let* _g := RGo (GRetry session retry (je_CommandID entry) (je_ResultDigest entry)) in continue
                end
          end
      end
  end.

(** The retry: after the timer, if the result is still to be reported. *)
Definition retryResult (session retry : nat) (id : string) (digest : bytes) : cprog unit :=
  let* fired := TTimer retry in
  let- _s := (if negb (fired : bool) then Return tt
              else
                let* entry := JGet id in
                match entry with
                | Err _ => Return tt
                | Ok entry =>
                    match unreported entry digest with
                    | None => Return tt
                    | Some r => let* alive := TAlive retry in if (alive : bool) then let* _r := SSendThrough session (AgentCommandResult r) in Return tt else Return tt
                    end
                end) in
  let* _f := TFinish session retry id in
  Return tt.

Definition cancelResultRetry (id : string) : cprog unit :=
  let* session := SCurrent in
  match session with None => Return tt | Some session => let* _c := TCancel session id in Return tt end.

Definition handleResultAcknowledgement (a : CommandResultAcknowledgement) : cprog handled :=
  if negb (ValidateResultAcknowledgement a) then fails ErrOther
  else if negb (ra_Persisted a) && ra_Retryable a then scheduleResultRetry a
  else if ra_Persisted a && negb (ra_Retryable a) then
    let- _c := cancelResultRetry (ra_CommandId a) in
    let* now := XNow in
    let* r := JMarkReported (ra_CommandId a) (ra_ResultDigest a) now in
    match r with Ok _ | Err ErrResultDigestMismatch => continue | Err _ => fails ErrFatal end
  else if negb (ra_Retryable a) then
    let- _c := cancelResultRetry (ra_CommandId a) in
    let* now := XNow in
    let* r := JMarkResultConflicted (ra_CommandId a) (ra_ResultDigest a) (ra_ReasonCode a) now in
    match r with Ok _ | Err ErrResultDigestMismatch => continue | Err _ => fails ErrFatal end
  else continue.

Fixpoint send_results (session : nat) (l : list Entry) : cprog handled :=
  match l with
  | [] => continue
  | entry :: rest =>
      match je_Result entry with
      | None => send_results session rest
      | Some r => let* sent := SSendThrough session (AgentCommandResult r) in match sent with Err e => fails e | Ok _ => send_results session rest end
      end
  end.
Definition replayPendingResults (session : nat) : cprog handled :=
  let* pending := JPendingResults in match pending with Err _ => fails ErrFatal | Ok pending => send_results session pending end.

(** ** Sessions *)

Definition active_of (x : string * runningCommand) : ActiveCommand :=
  {| ac_CommandId := fst x; ac_State := EXECUTION_UNSPECIFIED; ac_ExecutionToken := rc_executionToken (snd x); ac_LeaseRevision := rc_leaseRevision (snd x) |}.

Definition valid_observation (c : ControlClient) (o : PluginObservation) : bool :=
  bool_decide (ob_AgentId (po_Observation o) = cc_agentID c) && negb (empty_string (po_HostId o)) && negb (po_Revision o =? 0)
  && match po_ObservedAt o with Some t => IsValid t | None => false end && (po_Assignments o <=? 128)%nat.

Definition sendHeartbeat (c : ControlClient) (session : nat) : cprog handled :=
  let* running := RAll in
  let* sent := SSendThrough session (AgentHeartbeat {| hb_AgentId := cc_agentID c; hb_ActiveCommands := List.map active_of running |}) in
  match sent with
  | Err e => fails e
  | Ok _ =>
      if negb (observesPlugins c) then continue
      else
        let* observation := SObservation in
        match observation with
        | Some o => if valid_observation c o then let* r := SSendThrough session (AgentPluginObservation (po_Observation o)) in Return r else continue
        | None => continue
        end
  end.

Definition recovery_state (entry : Entry) : ActiveCommand :=
  {| ac_CommandId := je_CommandID entry;
     ac_State := match je_State entry with StateStartAuthorized => EXECUTION_START_AUTHORIZED | StateRunning => EXECUTION_RUNNING | _ => EXECUTION_PREPARED end;
     ac_ExecutionToken := je_ExecutionToken entry; ac_LeaseRevision := je_LeaseRevision entry |}.

Definition greeting (c : ControlClient) (active : list Entry) : Hello :=
  {| hello_ProtocolVersion := ControlProtocolVersion; hello_AgentId := cc_agentID c;
     hello_Capabilities := merge_sort string_leb (Capabilities (executorRegistry c) ++ [CapabilityDiscoveryPolicyAttestationV1; CapabilityDiscoveryReportACKV1; CredentialLeaseCapability]);
     hello_ActiveCommands := List.map recovery_state active |}.

(** [runSession] up to its loop. *)
Definition openSession (c : ControlClient) : cprog (result client_error nat) :=
  let* active := JActive in
  match active with
  | Err _ => Return (Err ErrOther)
  | Ok active =>
      let hello := greeting c active in
      let* sent := SSendHello hello in
      match sent with
      | Err e => Return (Err e)
      | Ok _ =>
          let* session := SOpen in
          let* first := SFirst in
          match first with
          | Err e => Return (Err e)
          | Ok (HelloAck version capabilities _) =>
              if negb (bool_decide (version = ControlProtocolVersion)) then Return (Err ErrOther)
              else
                let peer := hasCapabilities capabilities [CapabilityDiscoverySourceResultsV1] in
                let compatible := hasCapabilities capabilities [CapabilityDiscoveryReportACKV1; CapabilityDiscoveryPolicyAttestationV1] in
                let* _p := SPeer (if compatible then DiscoveryCompatibilityCompatible else DiscoveryCompatibilityIncompatible)
                             (hasCapabilities (hello_Capabilities hello) [CapabilityDiscoverySourceResultsV1] && peer) peer in
                let* _s := SSet session in
                let* plugins := SPlugins in
                match plugins with
                | Err e => Return (Err e)
                | Ok _ =>
                    let- beat := sendHeartbeat c session in
                    match beat with
                    | Err e => Return (Err e)
                    | Ok _ => let- replayed := replayPendingResults session in Return (match replayed with Err e => Err e | Ok _ => Ok session end)
                    end
                end
          | Ok _ => Return (Err ErrOther)
          end
      end
  end.

Definition handleServerMessage (c : ControlClient) (p : server_payload) : cprog handled :=
  match p with
  | ServerCommand e => handleCommand c e
  | ServerCommandStart s => handleCommandStart c s
  | ServerCommandCancellation x => if negb (ValidateCancellation x) then fails ErrOther else cancelCommand x
  | ServerResultAcknowledgement a => handleResultAcknowledgement a
  | HelloAck _ _ _ => fails ErrOther
  | ServerDiscoveryAcknowledgement _ | ServerPluginArtifactLease _ | ServerCredentialLease _ | ServerMetricTemplateLease _ => let* r := SWaiters p in Return r
  end.

Definition body (g : goroutine) : cprog unit :=
  match g with
  | GExecute context e token revision => execute context e token revision
  | GRetry session retry id digest => retryResult session retry id digest
  end.

(** What [Run] does when a session has ended with [e]: reconnect, at once or after a pause, or return. *)
Inductive next_session := Reconnect | PauseAndReconnect | Stop.
Definition after_session (e : client_error) : next_session :=
  match e with ErrReconnect => Reconnect | ErrFatal | ErrStream true => Stop | _ => PauseAndReconnect end.
End client.
