(* ===== verification/AgentHost.v ===== *)
(** * Agents as processes

    An agent with its journal: the loop of [ControlClient.Run], the goroutines
    it starts, what a call does, and how the process dies and is started again.
    The journal is durable; everything else is lost with the process.  The
    messages of a control plane that the agent can receive are a parameter,
    [hears].

    [h_launched] and [h_said] record history: the executors that were invoked
    and the messages that were sent.  A thread that has started a command in the
    journal holds the licence of that execution ([lo_licence]) until it invokes
    the executor; the licence is a ghost and decides nothing. *)

From S2P Require Import Prelude Programs GoText JobModel JobRepository CommandLifecycle SessionRegistry AgentServer Encodings CommandJournal AgentClient.

Open Scope Z_scope.
Open Scope update_scope.
Open Scope prog_scope.

(** ** State *)

(** The fence of an execution, and an invocation of an executor. *)
Record fence := { f_id : string; f_token : bytes; f_revision : Z }.
Record launch := { l_fence : fence; l_envelope : CommandEnvelope }.

(** What belongs to one thread: its licence, and the progress reporter of its execution. *)
Record local := MkLocal { lo_licence : option fence; lo_reporter : option fence }.
#[global] Instance local_eta : Eta local := fun l => MkLocal (lo_licence l) (lo_reporter l).
Definition no_local : local := {| lo_licence := None; lo_reporter := None |}.

Record client_memory := MkMemory {
  running : gmap string runningCommand; contexts : list bool; verifier : CommandVerifier; session : option nat; opened : nat;
  retries : gmap (nat * string) nat; retry_contexts : list bool; executionErrors : bool;
  discoveryCompatibility : DiscoveryCompatibility; discoverySourceResults : bool; discoverySourceResultsPeer : bool;
}.
#[global] Instance client_memory_eta : Eta client_memory := fun m => MkMemory (running m) (contexts m) (verifier m) (session m) (opened m) (retries m) (retry_contexts m)
  (executionErrors m) (discoveryCompatibility m) (discoverySourceResults m) (discoverySourceResultsPeer m).

Section hosts.
Context {database : JobDatabase} {codec : ResultCodec} {agents : AgentCodec} {keys : AgentKeys}.

(** What threads share: the memory of the client, the journal, and the history. *)
Record host := MkHost { h_memory : client_memory; h_journal : BoltJournal; h_launched : list launch; h_said : list AgentMessage; h_spawned : list goroutine }.
#[global] Instance host_eta : Eta host := fun h => MkHost (h_memory h) (h_journal h) (h_launched h) (h_said h) (h_spawned h).

(** The journal of an agent encodes envelopes and results as the control plane does. *)
Definition marshal_envelope (e : CommandEnvelope) : option bytes := Some (Marshal e).
Definition unmarshal_envelope (b : bytes) : option CommandEnvelope := fst <$> Unmarshal b.
Definition marshal_result (r : CommandResult) : option bytes := Some (MarshalResult r).

(** A journal operation under any failures. *)
Definition journaled {A} (op : Env -> BoltJournal -> BoltJournal * A) (h : host) (b : A) (h' : host) : Prop :=
  exists env, let '(j', r) := op env (h_journal h) in b = r /\ h' = h <| h_journal := j' |>.
Definition consulted {A} (op : Env -> BoltJournal -> A) (h : host) (b : A) (h' : host) : Prop := h' = h /\ exists env, b = op env (h_journal h).

Definition on_memory (f : client_memory -> client_memory) (h : host) : host := h <| h_memory ::= f |>.
Definition sorted_running (m : client_memory) : list (string * runningCommand) := bucket_list (running m).

(** What may have been sent by a call that replies [r]. *)
Definition says (m : AgentMessage) (r : handled) (h h' : host) : Prop := h' = h <| h_said ::= fun l => l ++ [m] |> \/ h' = h /\ exists e, r = Err e.

(** A call by a thread: its reply, and what it does to the thread and to the host. *)
Definition client_performs {A} (c : client_call A) (lo : local) (h : host) (b : A) (lo' : local) (h' : host) : Prop :=
  match c in client_call A return A -> Prop with
  | JRun id token revision deadline => fun b =>
      exists now, journaled (fun env j => transition env j id (run_update sha256 marshal_result token revision deadline (UTC now))) h b h' /\
        lo' = match b with Ok false => lo <| lo_licence := Some {| f_id := id; f_token := token; f_revision := revision |} |> | _ => lo end
  | RGo g => fun _ =>
      h' = h <| h_spawned ::= fun l => l ++ [g] |> /\ lo' = match g with GExecute _ _ _ _ => lo <| lo_licence := None |> | GRetry _ _ _ _ => lo end
  | XExecute e token revision startedAt => fun _ =>
      let f := {| f_id := e_CommandId e; f_token := token; f_revision := revision |} in
      lo' = {| lo_licence := None; lo_reporter := Some f |} /\ h' = h <| h_launched ::= fun l => l ++ [{| l_fence := f; l_envelope := e |}] |>
  | XResult => fun _ => lo' = lo <| lo_reporter := None |> /\ h' = h
  | c => fun b =>
      lo' = lo /\
      match c in client_call A return A -> Prop with
      | XNow | SFirst | SPlugins | SObservation | SWaiters _ | SOver _ => fun _ => h' = h
      | CVerify e => fun b => exists cancelled now, let '(r, v) := Verify cancelled now e (verifier (h_memory h)) in b = r /\ h' = on_memory (fun m => m <| verifier := v |>) h
      | JPrepare e at_ => fun b => journaled (fun env j => Prepare sha256 marshal_envelope env j (Some e) at_) h b h'
      | JAuthorize id token revision deadline => fun b =>
          exists now, journaled (fun env j => transition env j id (authorize_update sha256 marshal_result token revision deadline (UTC now))) h b h'
      | JCancelPrepared id at_ => fun b => journaled (fun env j => CommandJournal.CancelPrepared env j id at_) h b h'
      | JMarkInterrupted id at_ => fun b => journaled (fun env j => MarkInterrupted sha256 marshal_result env j id at_) h b h'
      | JComplete id r at_ => fun b => journaled (fun env j => Complete sha256 marshal_result env j id (Some r) at_) h b h'
      | JMarkReported id digest at_ => fun b => journaled (fun env j => MarkReported env j id digest at_) h b h'
      | JMarkResultConflicted id digest reason at_ => fun b => journaled (fun env j => MarkResultConflicted env j id digest reason at_) h b h'
      | JGet id => fun b => consulted (fun env j => CommandJournal.Get unmarshal_envelope UnmarshalResult env j id) h b h'
      | JActive => fun b => consulted (fun env j => Active unmarshal_envelope UnmarshalResult env j) h b h'
      | JPendingResults => fun b => consulted (fun env j => PendingResults unmarshal_envelope UnmarshalResult env j) h b h'
      | RWithCancel => fun b => b = length (contexts (h_memory h)) /\ h' = on_memory (fun m => m <| contexts ::= fun l => l ++ [false] |>) h
      | RInsert id r => fun _ => h' = on_memory (fun m => m <| running ::= <[id := r]> |>) h
      | RLookup id => fun b => h' = h /\ b = running (h_memory h) !! id
      | RAll => fun b => h' = h /\ b = sorted_running (h_memory h)
      | RDelete id => fun _ => h' = on_memory (fun m => m <| running ::= delete id |>) h
      | RCancel n => fun _ => h' = on_memory (fun m => m <| contexts ::= <[n := true]> |>) h
      | RCancelled n => fun b => h' = h /\ (contexts (h_memory h) !! n = Some true -> b = true)       (* the agent may be stopping *)
      | XError => fun _ => h' = on_memory (fun m => m <| executionErrors := true |>) h
      | SOpen => fun b => b = opened (h_memory h) /\ h' = on_memory (fun m => m <| opened ::= S |>) h
      | SSendHello hello => fun b => says (AgentHello hello) b h h'
      | SPeer compatibility results peer => fun _ =>
          h' = on_memory (fun m => m <| discoveryCompatibility := compatibility |> <| discoverySourceResults := results |> <| discoverySourceResultsPeer := peer |>) h
      | SSet s => fun _ => h' = on_memory (fun m => m <| session := Some s |>) h
      | SCurrent => fun b => h' = h /\ b = session (h_memory h)
      | SSend m => fun b => says m b h h' /\ (session (h_memory h) = None -> h' = h /\ b = Err ErrControlStreamDisconnected)
      | SSendThrough _ m => fun b => says m b h h'
      | TBegin s id => fun b =>
          match retries (h_memory h) !! (s, id) with
          | Some _ => b = None /\ h' = h
          | None => let n := length (retry_contexts (h_memory h)) in
                    b = Some n /\ h' = on_memory (fun m => m <| retries ::= <[(s, id) := n]> |> <| retry_contexts ::= fun l => l ++ [false] |>) h
          end
      | TTimer n | TAlive n => fun b => h' = h /\ (retry_contexts (h_memory h) !! n = Some true -> b = false)
      | TFinish s n id => fun _ =>
          h' = if bool_decide (retries (h_memory h) !! (s, id) = Some n) then on_memory (fun m => m <| retries ::= delete (s, id) |>) h else h
      | TCancel s id => fun _ =>
          h' = match retries (h_memory h) !! (s, id) with
               | Some n => on_memory (fun m => m <| retries ::= delete (s, id) |> <| retry_contexts ::= <[n := true]> |>) h
               | None => h
               end
      | _ => fun _ => True
      end b
  end b.

(** ** Processes *)

Record thread := MkThread { th_local : local; th_prog : cprog unit }.

(** A started goroutine; an execution carries the licence of its starter. *)
Definition started (g : goroutine) : thread :=
  {| th_local := {| lo_licence := match g with
                                  | GExecute _ e token revision => Some {| f_id := e_CommandId e; f_token := token; f_revision := revision |}
                                  | GRetry _ _ _ _ => None
                                  end; lo_reporter := None |};
     th_prog := body g |}.

(** Where [Run] is. *)
Inductive main :=
  | MBetween                                                      (* before a session *)
  | MOpening (p : cprog (result client_error nat))
  | MServing (s : nat)                                            (* the loop of [runSession] *)
  | MHandling (s : nat) (p : cprog handled)
  | MClosing (e : client_error)                                   (* the deferred calls of [runSession] *)
  | MStopped.

Record process := MkProcess { pr_main : main; pr_local : local; pr_threads : list thread }.
#[global] Instance process_eta : Eta process := fun p => MkProcess (pr_main p) (pr_local p) (pr_threads p).

Record agent := MkAgent { ag_client : ControlClient; ag_host : host; ag_process : option process }.
#[global] Instance agent_eta : Eta agent := fun a => MkAgent (ag_client a) (ag_host a) (ag_process a).

Definition fresh_memory (v : CommandVerifier) : client_memory :=
  {| running := ∅; contexts := []; verifier := v; session := None; opened := 0;
     retries := ∅; retry_contexts := []; executionErrors := false; discoveryCompatibility := DiscoveryCompatibilityUnknown; discoverySourceResults := false;
     discoverySourceResultsPeer := false |}.
Definition fresh_process : process := {| pr_main := MBetween; pr_local := no_local; pr_threads := [] |}.

(** An agent that was installed and never started. *)
Definition new_agent (c : ControlClient) : agent :=
  {| ag_client := c; ag_process := None;
     ag_host := {| h_memory := fresh_memory {| v_agentID := cc_agentID c; v_publicKey := cc_publicKey c; v_capabilities := ∅; v_nonces := ∅ |}; h_journal := {| commands := ∅; meta := ∅ |}; h_launched := []; h_said := []; h_spawned := [] |} |}.

(** The deferred calls of [runSession], and [cancelAll]. *)
Definition clearSession (m : client_memory) : client_memory :=
  m <| session := None |> <| discoveryCompatibility := DiscoveryCompatibilityUnknown |> <| discoverySourceResults := false |> <| discoverySourceResultsPeer := false |>.
Definition cancelAll (m : client_memory) : client_memory := m <| contexts ::= fun l => foldr (fun x l => <[rc_cancel (snd x) := true]> l) l (sorted_running m) |>.

(** The host after a call, and the threads it started. *)
Definition settled (h : host) : host := h <| h_spawned := [] |>.
Definition newborn (h : host) : list thread := started <$> h_spawned h.

Definition with_main (a : agent) (p : process) (m : main) : agent := a <| ag_process := Some (p <| pr_main := m |>) |>.

Inductive agent_step (hears : server_payload -> Prop) : agent -> agent -> Prop :=
  (* [commandjournal.Open] recovers the journal, or the process does not come up; the verifier is for the registered executors *)
  | agent_starts a commit_ok sync_ok at_ v j' : ag_process a = None ->
      NewCommandVerifier (cc_agentID (ag_client a)) (cc_publicKey (ag_client a)) (Capabilities (executorRegistry (ag_client a))) = Some v ->
      recoverRunning sha256 marshal_result commit_ok sync_ok (h_journal (ag_host a)) at_ = (j', Ok tt) ->
      agent_step hears a (a <| ag_host ::= fun h => h <| h_journal := j' |> <| h_memory := fresh_memory v |> |> <| ag_process := Some fresh_process |>)
  | agent_start_fails a commit_ok sync_ok at_ j' x : ag_process a = None ->
      recoverRunning sha256 marshal_result commit_ok sync_ok (h_journal (ag_host a)) at_ = (j', Err x) ->
      agent_step hears a (a <| ag_host ::= fun h => h <| h_journal := j' |> |>)
  | agent_dies a : agent_step hears a (a <| ag_process := None |>)
  (* goroutines *)
  | thread_calls a p before lo A (c : client_call A) k after b lo' h' : ag_process a = Some p -> pr_threads p = before ++ MkThread lo (Call c k) :: after ->
      client_performs c lo (ag_host a) b lo' h' ->
      agent_step hears a (a <| ag_host := settled h' |> <| ag_process := Some (p <| pr_threads := before ++ MkThread lo' (k b) :: after ++ newborn h' |>) |>)
  | thread_ends a p before lo after : ag_process a = Some p -> pr_threads p = before ++ MkThread lo (Return tt) :: after ->
      agent_step hears a (a <| ag_process := Some (p <| pr_threads := before ++ after |>) |>)
  (* an executor reports progress *)
  | thread_reports a p th f k progress progress' : ag_process a = Some p -> th ∈ pr_threads p -> lo_reporter (th_local th) = Some f -> th_prog th = Call XResult k ->
      Report (f_id f) (f_token f) (f_revision f) progress = Some progress' ->
      agent_step hears a (a <| ag_host ::= fun h => h <| h_said ::= fun l => l ++ [AgentCommandProgress progress'] |> |>)
  (* sessions *)
  | main_opens a p : ag_process a = Some p -> pr_main p = MBetween -> agent_step hears a (with_main a p (MOpening (openSession (ag_client a))))
  | main_cannot_open a p e : ag_process a = Some p -> pr_main p = MBetween -> e <> ErrFatal -> agent_step hears a (with_main a p (MClosing e))
  | main_opening a p A (c : client_call A) k b lo' h' : ag_process a = Some p -> pr_main p = MOpening (Call c k) -> client_performs c (pr_local p) (ag_host a) b lo' h' ->
      agent_step hears a (a <| ag_host := settled h' |> <| ag_process := Some {| pr_main := MOpening (k b); pr_local := lo'; pr_threads := pr_threads p ++ newborn h' |} |>)
  | main_opened a p r : ag_process a = Some p -> pr_main p = MOpening (Return r) ->
      agent_step hears a (with_main a p (match r with Ok s => MServing s | Err e => MClosing e end))
  | main_receives a p s payload : ag_process a = Some p -> pr_main p = MServing s -> hears payload ->
      agent_step hears a (a <| ag_process := Some {| pr_main := MHandling s (handleServerMessage (ag_client a) payload); pr_local := no_local; pr_threads := pr_threads p |} |>)
  | main_beats a p s : ag_process a = Some p -> pr_main p = MServing s -> agent_step hears a (with_main a p (MHandling s (sendHeartbeat (ag_client a) s)))
  | main_handling a p s A (c : client_call A) k b lo' h' : ag_process a = Some p -> pr_main p = MHandling s (Call c k) -> client_performs c (pr_local p) (ag_host a) b lo' h' ->
      agent_step hears a (a <| ag_host := settled h' |> <| ag_process := Some {| pr_main := MHandling s (k b); pr_local := lo'; pr_threads := pr_threads p ++ newborn h' |} |>)
  | main_handled a p s r : ag_process a = Some p -> pr_main p = MHandling s (Return r) ->
      agent_step hears a (with_main a p (match r with Ok _ => MServing s | Err e => MClosing e end))
  (* the stream ends, a send fails, the agent stops, or a reconnect is asked for *)
  | main_interrupted a p s e : ag_process a = Some p -> pr_main p = MServing s -> e <> ErrFatal -> agent_step hears a (with_main a p (MClosing e))
  | main_execution_error a p : ag_process a = Some p -> match pr_main p with MServing _ | MBetween => True | _ => False end -> executionErrors (h_memory (ag_host a)) = true ->
      agent_step hears a (with_main (a <| ag_host ::= on_memory (fun m => m <| executionErrors := false |>) |>) p (MClosing ErrFatal))
  | main_closes a p e : ag_process a = Some p -> pr_main p = MClosing e ->
      agent_step hears a (with_main (a <| ag_host ::= on_memory clearSession |>) p (match after_session e with Stop => MStopped | _ => MBetween end))
  | main_stops a p : ag_process a = Some p -> pr_main p = MBetween -> agent_step hears a (with_main a p MStopped)
  | main_cancels a p : ag_process a = Some p -> pr_main p = MStopped -> agent_step hears a (a <| ag_host ::= on_memory cancelAll |>).
End hosts.
