(* ===== verification/ClientLogic.v ===== *)
(** * What an agent does follows from what it was told

    A logic for the programs of the control client and the invariant of an
    agent: every entry of the journal, every start, every acknowledgement that
    was taken over and every executor that was invoked goes back to a message of
    a control plane, and the right to invoke an executor (a licence) is given
    out once per command. *)

From S2P Require Import Prelude Programs GoText JobModel JobRepository CommandLifecycle SessionRegistry AgentServer Encodings CommandJournal AgentClient AgentHost.

Open Scope Z_scope.
Open Scope update_scope.
Open Scope prog_scope.

(** Encoded envelopes are read back. *)
Class EnvelopeCodec `{JobDatabase} : Prop := { envelope_roundtrip e : Unmarshal (Marshal e) = Some (e, []) }.

Section logic.
Context {database : JobDatabase} {codec : ResultCodec} {agents : AgentCodec} {keys : AgentKeys}.

(** Commands for the agent of [c], signed for its key, of a kind that it can execute. *)
Definition genuine (c : ControlClient) (e : CommandEnvelope) : Prop :=
  e_AgentId e = cc_agentID c /\ VerifySignature (cc_publicKey c) (CommandSigningBytes e) (e_Signature e) = true /\
  exists kind, envelopeCommandKind e = Some kind /\ kind ∈ Capabilities (executorRegistry c).

(** A verifier of the client [c]. *)
Record verifier_of (c : ControlClient) (v : CommandVerifier) : Prop := {
  vo_agent : v_agentID v = cc_agentID c;
  vo_key : v_publicKey v = cc_publicKey c;
  vo_capabilities : forall kind, kind ∈ v_capabilities v -> kind ∈ Capabilities (executorRegistry c);
}.

Lemma NewCommandVerifier_of c v : NewCommandVerifier (cc_agentID c) (cc_publicKey c) (Capabilities (executorRegistry c)) = Some v -> verifier_of c v.
Proof.
  unfold NewCommandVerifier. destruct (_ || _); [done|]. destruct (negb _); [done|]. intros [= <-]. split; cbn; [done..|]. intros kind [Hin _]%elem_of_list_to_set%list_elem_of_In%filter_In.
  by apply list_elem_of_In.
Qed.

Lemma Verify_genuine c cancelled now e v : verifier_of c v -> fst (Verify cancelled now e v) = None -> genuine c e.
Proof.
  intros [V1 V2 V3]. unfold Verify. destruct cancelled; [done|]. destruct (negb (well_formed_envelope e)); [done|]. destruct (bool_decide_reflect (v_agentID v = e_AgentId e)) as [Hid|]; [|done]. cbn [negb].
  destruct (e_IssuedAt e) as [issued|]; [|done]. destruct (e_ExpiresAt e) as [expires|]; [|done]. destruct (_ || _); [done|]. destruct (After _ _); [done|].
  destruct (envelopeCommandKind e) as [kind|] eqn:Ek; [|done]. destruct (bool_decide_reflect (kind ∈ v_capabilities v)) as [Hk|]; [|done]. cbn [negb].
  destruct (negb (_ =? _)%nat || _) eqn:Es; [done|]. intros _. apply orb_false_iff in Es as [_ Es%negb_false_iff]. rewrite V2 in Es. split; [congruence|]. split; [done|]. exists kind. auto.
Qed.

Lemma Verify_keeps c cancelled now e v : verifier_of c v -> verifier_of c (snd (Verify cancelled now e v)).
Proof.
  intros Hv. assert (Hn : forall n, verifier_of c (v <| v_nonces := n |>)) by (by intros n; destruct Hv; split). unfold Verify. repeat (case_match; try done); apply Hn.
Qed.

(** The client whose agent is considered. *)
Context (cl : ControlClient).

(** ** What was heard *)

Abbreviation hearing := (server_payload -> Prop).
Definition grows (H H' : hearing) : Prop := forall p, H p -> H' p.
#[global] Instance grows_preorder : PreOrder grows.
Proof. split; [by intros H p|]. intros H1 H2 H3 H12 H23 p Hp. by apply H23, H12. Qed.

Definition told (H : hearing) (e : CommandEnvelope) : Prop := H (ServerCommand e) /\ genuine cl e.
Definition heard_envelope (H : hearing) (id : string) (e : CommandEnvelope) : Prop := told H e /\ e_CommandId e = id.
Definition heard_start (H : hearing) (f : fence) : Prop :=
  exists start, H (ServerCommandStart start) /\ f = {| f_id := s_CommandId start; f_token := s_ExecutionToken start; f_revision := s_LeaseRevision start |}.
Definition heard_acknowledgement (H : hearing) (id : string) (digest : bytes) (persisted : bool) : Prop :=
  exists a, H (ServerResultAcknowledgement a) /\ ra_CommandId a = id /\ ra_ResultDigest a = digest /\ ra_Persisted a = persisted /\ ra_Retryable a = false.

(** ** Journals *)

(** States in which an entry has a fence, and states that a start has left behind. *)
Definition fenced (s : State) : bool := match s with StatePrepared | StateCancelled => false | _ => true end.
Definition gone (s : State) : bool := match s with StatePrepared | StateStartAuthorized => false | _ => true end.

Record grounded (H : hearing) (id : string) (e : storedEntry) : Prop := {
  gr_id : CommandID e = id;
  gr_envelope : forall b, Envelope e = Some b -> exists v, heard_envelope H id v /\ b = Marshal v;
  gr_fence : fenced (st e) = true -> heard_start H {| f_id := id; f_token := ExecutionToken e; f_revision := LeaseRevision e |};
  gr_reported : ReportedAtUnixNano e <> 0 -> (st e = StateCompleted \/ st e = StateInterrupted) /\
    exists digest, decodeDigest (ResultDigestHex e) = Ok digest /\ heard_acknowledgement H id digest true;
  gr_conflicted : st e = StateResultConflicted -> exists digest, decodeDigest (ResultDigestHex e) = Ok digest /\ heard_acknowledgement H id digest false;
}.

Definition journal_grounded (H : hearing) (j : BoltJournal) : Prop := forall id c, commands j !! id = Some c -> exists e, c = Encoded e /\ grounded H id e.

Lemma heard_start_grows H H' f : grows H H' -> heard_start H f -> heard_start H' f.
Proof. intros Hg (start & Hs & ->). exists start. split; [by apply Hg|done]. Qed.
Lemma heard_acknowledgement_grows H H' id digest persisted : grows H H' -> heard_acknowledgement H id digest persisted -> heard_acknowledgement H' id digest persisted.
Proof. intros Hg (a & Ha & Hx). exists a. split; [by apply Hg|done]. Qed.
Lemma told_grows H H' e : grows H H' -> told H e -> told H' e.
Proof. intros Hg [He Hid]. split; [by apply Hg|done]. Qed.
Lemma heard_envelope_grows H H' id e : grows H H' -> heard_envelope H id e -> heard_envelope H' id e.
Proof. intros Hg [He Hid]. split; [by eapply told_grows|done]. Qed.

Lemma grounded_grows H H' id e : grows H H' -> grounded H id e -> grounded H' id e.
Proof.
  intros Hg [G1 G2 G3 G4 G5]. split; [done|..].
  - intros b Hb. destruct (G2 b Hb) as (v & Hv & ->). exists v. split; [by eapply heard_envelope_grows|done].
  - intros Hf. eapply heard_start_grows; [done|by apply G3].
  - intros Hr. destruct (G4 Hr) as (Hs & d & Hd & Ha). split; [done|]. exists d. split; [done|by eapply heard_acknowledgement_grows].
  - intros Hc. destruct (G5 Hc) as (d & Hd & Ha). exists d. split; [done|by eapply heard_acknowledgement_grows].
Qed.

Lemma journal_grounded_grows H H' j : grows H H' -> journal_grounded H j -> journal_grounded H' j.
Proof. intros Hg Hj id c Hc. destruct (Hj id c Hc) as (e & -> & He). exists e. split; [done|by eapply grounded_grows]. Qed.

Definition update_grounded {A} (H : hearing) (id : string) (f : storedEntry -> result JournalError (storedEntry * A)) : Prop :=
  forall e e' a, grounded H id e -> f e = Ok (e', a) -> grounded H id e'.

Lemma transition_grounded {A} H env j id (f : storedEntry -> result JournalError (storedEntry * A)) :
  update_grounded H id f -> journal_grounded H j -> journal_grounded H (fst (transition env j id f)).
Proof.
  intros Hf Hj. unfold transition. destruct (ctx_entry env), (blank id), (ctx_tx env); try done. destruct (commands j !! id) as [c|] eqn:Hc; [|done].
  destruct (Hj id c Hc) as (e & -> & He). cbn [decode]. destruct (f e) as [[e' a]|] eqn:E; [|done]. destruct (commit_fails env); [done|].
  assert (Hj' : journal_grounded H {| commands := <[id := Encoded e']> (commands j); meta := meta j |}); [|by destruct (sync_fails env)].
  intros id2 c2. cbn. destruct (decide (id2 = id)) as [->|Hne]; [rewrite lookup_insert_eq; intros [= <-]; eauto|rewrite lookup_insert_ne by done; apply Hj].
Qed.

(** The end of an entry that has a fence: only its result and its times are new. *)
Lemma set_terminal_grounded H id e s interrupted completed env res digest : grounded H id e -> ReportedAtUnixNano e = 0 -> (fenced s = true -> fenced (st e) = true) ->
  s <> StateResultConflicted -> env = Envelope e \/ env = None -> grounded H id (set_terminal s interrupted completed env res digest e).
Proof.
  intros [G1 G2 G3 G4 G5] Hr Hf Hs He. split; cbn; [done|destruct He as [->| ->]; [done|by intros b]|auto|intros Hn; congruence|done].
Qed.

(** An entry that has no result yet is not reported. *)
Lemma unfinished_unreported H id e : grounded H id e -> st e <> StateCompleted -> st e <> StateInterrupted -> ReportedAtUnixNano e = 0.
Proof. intros He H1 H2. destruct (decide (ReportedAtUnixNano e = 0)) as [|Hn]; [done|]. destruct (gr_reported _ _ _ He Hn) as [[|] _]; done. Qed.

Lemma setInterrupted_grounded H id e at_ e' : grounded H id e -> fenced (st e) = true -> ReportedAtUnixNano e = 0 -> setInterrupted sha256 marshal_result e at_ = Ok e' -> grounded H id e'.
Proof.
  intros He Hf Hr. unfold setInterrupted. destruct (encodeResult _ _ _) as [[encoded digest]|]; [|done]. intros [= <-]. apply set_terminal_grounded; auto.
Qed.

Lemma authorize_update_grounded H id token revision deadline now : heard_start H {| f_id := id; f_token := token; f_revision := revision |} ->
  update_grounded H id (authorize_update sha256 marshal_result token revision deadline now).
Proof.
  intros Hs e e' a He. unfold authorize_update. destruct (st e) eqn:Est; try (repeat (case_match; try done); fail).
  - assert (Hg : grounded H id (set_fence token (hex_encode (sha256 token)) revision (set_state StateStartAuthorized e))).
    { pose proof (unfinished_unreported _ _ _ He) as Hu. rewrite Est in Hu. specialize (Hu ltac:(done) ltac:(done)). destruct He as [G1 G2 G3 G4 G5]. split; cbn; done. }
    destruct (negb (Before now (UnixNanoTime _))); [done|]. destruct (negb (Before now (UTC deadline))); [|by intros [= <- <-]].
    destruct (setInterrupted _ _ _ _) as [e2|] eqn:E; [|done]. intros [= <- <-]. eapply setInterrupted_grounded; [exact Hg|done| |exact E].
    apply (unfinished_unreported _ _ _ He); by rewrite Est.
  - destruct (negb (matchesFence e token revision)); [done|]. destruct (negb (Before now (UTC deadline))).
    + destruct (setInterrupted _ _ _ _) as [e2|] eqn:E; [|done]. intros [= <- <-]. eapply setInterrupted_grounded; [exact He|by rewrite Est| |exact E].
      apply (unfinished_unreported _ _ _ He); by rewrite Est.
    + destruct (negb (Before now _)); [done|]. by intros [= <- <-].
Qed.

Lemma run_update_grounded H id token revision deadline now : update_grounded H id (run_update sha256 marshal_result token revision deadline now).
Proof.
  intros e e' a He. unfold run_update. destruct (st e) eqn:Est; try (repeat (case_match; try done); fail).
  pose proof (unfinished_unreported _ _ _ He) as Hu. rewrite Est in Hu. specialize (Hu ltac:(done) ltac:(done)).
  destruct (negb (matchesFence e token revision)); [done|]. destruct (negb (Before now (UTC deadline))).
  - destruct (setInterrupted _ _ _ _) as [e2|] eqn:E; [|done]. intros [= <- <-]. eapply setInterrupted_grounded; [exact He|by rewrite Est|done|exact E].
  - intros [= <- <-]. destruct He as [G1 G2 G3 G4 G5]. split; cbn; try done. intros _. apply G3. by rewrite Est.
Qed.

Lemma one_of (s a b : State) : negb (bool_decide (s = a)) && negb (bool_decide (s = b)) = false -> s = a \/ s = b.
Proof. intros E. destruct (bool_decide_reflect (s = a)); [by left|]. destruct (bool_decide_reflect (s = b)); [by right|done]. Qed.

Lemma CancelPrepared_grounded H env j id at_ : journal_grounded H j -> journal_grounded H (fst (CommandJournal.CancelPrepared env j id at_)).
Proof.
  apply transition_grounded. intros e e' a He. destruct (bool_decide (st e = StateCancelled)); [by intros [= <- <-]|]. destruct (bool_decide_reflect (st e = StatePrepared)) as [Est|]; [|done].
  cbn. intros [= <- <-]. apply set_terminal_grounded; try done; [|by right]. apply (unfinished_unreported _ _ _ He); by rewrite Est.
Qed.

Lemma MarkInterrupted_grounded H env j id at_ : journal_grounded H j -> journal_grounded H (fst (MarkInterrupted sha256 marshal_result env j id at_)).
Proof.
  apply transition_grounded. intros e e' a He. destruct (bool_decide (st e = StateInterrupted)); [by intros [= <- <-]|].
  destruct (_ || _) eqn:E; [done|]. apply orb_false_iff in E as [Hst%one_of _].
  destruct (setInterrupted _ _ _ _) as [e2|] eqn:Ei; [|done]. intros [= <- <-].
  eapply setInterrupted_grounded; [exact He|by destruct Hst as [-> | ->]|apply (unfinished_unreported _ _ _ He); by destruct Hst as [-> | ->]|exact Ei].
Qed.

Lemma Complete_grounded H env j id r at_ : journal_grounded H j -> journal_grounded H (fst (Complete sha256 marshal_result env j id r at_)).
Proof.
  intros Hj. unfold Complete. destruct r as [r|]; [|done]. destruct (_ || _); [done|]. destruct (encodeResult _ _ _) as [[encoded digest]|]; [|done]. apply transition_grounded; [|done].
  intros e e' a He. destruct (bool_decide_reflect (st e = StateRunning)) as [Est|]; [|done]. cbn. destruct (negb _); [done|]. intros [= <- <-].
  apply set_terminal_grounded; try done; [|by rewrite Est|by left]. apply (unfinished_unreported _ _ _ He); by rewrite Est.
Qed.

Lemma MarkReported_grounded H env j id digest at_ : heard_acknowledgement H id digest true -> journal_grounded H j -> journal_grounded H (fst (MarkReported env j id digest at_)).
Proof.
  intros Ha. apply transition_grounded. intros e e' a He. destruct (_ || _) eqn:E; [done|]. apply orb_false_iff in E as [Hst%one_of _]. destruct (decodeDigest (ResultDigestHex e)) as [stored|] eqn:Ed; [|done].
  destruct (negb (bytes_equal stored digest)) eqn:Eb; [done|]. apply negb_false_iff, bool_decide_eq_true in Eb as ->. destruct (ReportedAtUnixNano e =? 0) eqn:Er; intros [= <- <-]; [|done].
  destruct He as [G1 G2 G3 G4 G5]. split; cbn; try done. intros _. split; [done|]. by exists digest.
Qed.

Lemma MarkResultConflicted_grounded H env j id digest reason at_ : heard_acknowledgement H id digest false -> journal_grounded H j ->
  journal_grounded H (fst (MarkResultConflicted env j id digest reason at_)).
Proof.
  intros Ha Hj. unfold MarkResultConflicted. destruct (_ || _); [done|]. apply transition_grounded; [|done]. intros e e' a He.
  destruct (decodeDigest (ResultDigestHex e)) as [stored|] eqn:Ed; [|done]. destruct (negb (bytes_equal stored digest)) eqn:Eb; [done|]. apply negb_false_iff, bool_decide_eq_true in Eb as ->.
  destruct (bool_decide (st e = StateResultConflicted)); [destruct (bool_decide _); [by intros [= <- <-]|done]|]. destruct (_ || _) eqn:E; [done|]. intros [= <- <-].
  apply orb_false_iff in E as [E Er]. apply orb_false_iff in E as [Hst%one_of _]. apply negb_false_iff, Z.eqb_eq in Er.
  destruct He as [G1 G2 G3 G4 G5]. split; cbn; try done; [|by exists digest]. intros _. apply G3. by destruct Hst as [-> | ->].
Qed.

Lemma Prepare_grounded H env j v at_ : told H v -> journal_grounded H j -> journal_grounded H (fst (Prepare sha256 marshal_envelope env j (Some v) at_)).
Proof.
  intros Hv Hj. unfold Prepare. destruct (ctx_entry env); [done|]. destruct (e_ExpiresAt v) as [[expires valid]|]; [|done]. destruct (_ || _); [done|]. cbn [marshal_envelope].
  set (entry := new_entry sha256 v (Marshal v) expires at_). assert (Hen : grounded H (e_CommandId v) entry) by (split; [done|intros b [= <-]; by exists v|done..]).
  assert (Hins : forall m, journal_grounded H {| commands := <[CommandID entry := Encoded entry]> (commands j); meta := m |}).
  { intros m id c. cbn. destruct (decide (id = e_CommandId v)) as [->|Hne]; [rewrite lookup_insert_eq; intros [= <-]; by exists entry|rewrite lookup_insert_ne by done; apply Hj]. }
  destruct (prepare_tx _ _ _ _ _) as [[j'|]|] eqn:E; [|by destruct (commit_fails env)|done].
  assert (Hj' : journal_grounded H j'); [|by destruct (commit_fails env), (sync_fails env)].
  revert E. unfold prepare_tx. destruct (ctx_tx env); [done|]. destruct (commands j !! CommandID entry); [repeat (case_match; try done)|].
  destruct (meta j !! _) as [m|]; [|intros [= <-]; apply Hins]. destruct (decode m); [|done]. destruct (_ && _); [done|]. intros [= <-]. apply Hins.
Qed.

Lemma recover_entry_grounded H id at_ c c' : (exists e, c = Encoded e /\ grounded H id e) -> recover_entry sha256 marshal_result at_ c = Ok c' -> exists e, c' = Encoded e /\ grounded H id e.
Proof.
  intros (e & -> & He). unfold recover_entry. cbn [decode]. destruct (_ && _) eqn:Hst; [intros [= <-]; eauto|apply one_of in Hst]. destruct (negb _); [done|].
  destruct (setInterrupted _ _ _ _) as [e'|] eqn:E; [|done]. intros [= <-]. exists e'. split; [done|].
  eapply setInterrupted_grounded; [exact He|by destruct Hst as [-> | ->]|apply (unfinished_unreported _ _ _ He); by destruct Hst as [-> | ->]|exact E].
Qed.

Lemma recoverRunning_grounded H commit_ok sync_ok j at_ : journal_grounded H j -> journal_grounded H (fst (recoverRunning sha256 marshal_result commit_ok sync_ok j at_)).
Proof.
  intros Hj. unfold recoverRunning. destruct (traverse _ _) as [kvs|] eqn:Ht; [|done]. destruct commit_ok; [|done]. cbn.
  assert (Hj' : journal_grounded H {| commands := list_to_map kvs; meta := meta j |}); [|by destruct (_ && _)].
  intros id c Hc. cbn in Hc. pose proof (recover_lookup sha256 marshal_result j at_ kvs id Ht) as Hl. destruct (commands j !! id) as [c0|] eqn:E; [|congruence].
  destruct Hl as (c' & Hr & Hc'). assert (c' = c) as -> by congruence. eapply recover_entry_grounded; [by apply Hj|exact Hr].
Qed.

(** ** Programs *)

(** What a call needs, what its reply tells, and where the licence is afterwards. *)
Definition call_pre (H : hearing) (licence : option fence) {A} (c : client_call A) : Prop :=
  match c with
  | JPrepare e _ => told H e
  | JAuthorize id token revision _ | JRun id token revision _ => heard_start H {| f_id := id; f_token := token; f_revision := revision |}
  | JMarkReported id digest _ => heard_acknowledgement H id digest true
  | JMarkResultConflicted id digest _ _ => heard_acknowledgement H id digest false
  | RGo (GExecute _ e token revision) | XExecute e token revision _ =>
      licence = Some {| f_id := e_CommandId e; f_token := token; f_revision := revision |} /\ told H e /\
      heard_start H {| f_id := e_CommandId e; f_token := token; f_revision := revision |}
  | _ => True
  end.
Definition call_post (H : hearing) {A} (c : client_call A) (b : A) : Prop :=
  match c in client_call A return A -> Prop with
  | CVerify e => fun b => b = None -> genuine cl e
  | JGet id => fun b => match b with Ok entry => forall e, je_Envelope entry = Some e -> heard_envelope H id e | Err _ => True end
  | _ => fun _ => True
  end b.
Definition next_licence (licence : option fence) {A} (c : client_call A) (b : A) : option fence :=
  match c in client_call A return A -> option fence with
  | JRun id token revision _ => fun b => match b with Ok false => Some {| f_id := id; f_token := token; f_revision := revision |} | _ => licence end
  | RGo (GExecute _ _ _ _) | XExecute _ _ _ _ => fun _ => None
  | _ => fun _ => licence
  end b.

(** Programs that only act on what was heard and invoke an executor with a licence; at the end [Q] holds. *)
Fixpoint proper {A} (Q : hearing -> option fence -> A -> Prop) (H : hearing) (licence : option fence) (p : cprog A) : Prop :=
  match p with
  | Return a => Q H licence a
  | Call c k => call_pre H licence c /\ forall H' b, grows H H' -> call_post H' c b -> proper Q H' (next_licence licence c b) (k b)
  end.
Abbreviation sound := (proper (fun _ _ _ => True)).

Lemma call_pre_grows H H' licence {A} (c : client_call A) : grows H H' -> call_pre H licence c -> call_pre H' licence c.
Proof.
  intros Hg. destruct c; cbn; try done; try (by eapply heard_start_grows); try (by eapply heard_acknowledgement_grows); [by apply told_grows| |].
  - destruct g; [|done]. intros (H1 & H2 & H3). split_and!; [done|by eapply told_grows|by eapply heard_start_grows].
  - intros (H1 & H2 & H3). split_and!; [done|by eapply told_grows|by eapply heard_start_grows].
Qed.

Lemma sound_grows H H' licence {A} (p : cprog A) : grows H H' -> sound H licence p -> sound H' licence p.
Proof.
  intros Hg. destruct p as [a|B c k]; [done|]. intros [Hp Hk]. split; [by eapply call_pre_grows|]. intros H2 b Hg2. apply Hk. by etrans.
Qed.

Lemma proper_bind {A B} (Q : hearing -> option fence -> A -> Prop) (R : hearing -> option fence -> B -> Prop) (f : A -> cprog B) (p : cprog A) H licence :
  proper Q H licence p -> (forall H' licence' a, grows H H' -> Q H' licence' a -> proper R H' licence' (f a)) -> proper R H licence (prog_bind f p).
Proof.
  revert H licence. induction p as [a|C c k IH]; intros H licence; cbn; [intros Hq Hf; by apply Hf|]. intros [Hp Hk] Hf. split; [done|]. intros H' b Hg Hb.
  apply IH; [by apply Hk|]. intros H2 licence' a Hg2. apply Hf. by etrans.
Qed.

(** Calls without demands, one after the other. *)
Ltac plain :=
  repeat first
    [ exact I
    | match goal with |- proper _ _ _ (match ?x with _ => _ end) => destruct x end
    | match goal with |- proper _ _ _ (prog_bind _ (match ?x with _ => _ end)) => destruct x end
    | match goal with |- proper _ _ _ (Call _ _) => split; [exact I|intros ?H ?b ? _; cbn [next_licence]] end
    | progress cbn [prog_bind] ].

Lemma sendAcknowledgement_sound H licence id state reason : sound H licence (sendAcknowledgement id state reason).
Proof. unfold sendAcknowledgement. plain. Qed.
Lemma sendPrepared_sound H licence id digest : sound H licence (sendPrepared id digest).
Proof. unfold sendPrepared. plain. Qed.
Lemma persistInterruptedStart_sound H licence id : sound H licence (persistInterruptedStart id).
Proof. unfold persistInterruptedStart, fails, continue. plain. Qed.
Lemma expireAuthorizedStart_sound H licence id : sound H licence (expireAuthorizedStart id).
Proof. unfold expireAuthorizedStart, fails, continue. plain; apply persistInterruptedStart_sound. Qed.
Lemma interruptUnlaunchedStart_sound H licence id : sound H licence (interruptUnlaunchedStart id).
Proof. unfold interruptUnlaunchedStart, continue. plain. apply persistInterruptedStart_sound. Qed.
Lemma cancelCommand_sound H licence x : sound H licence (cancelCommand x).
Proof. unfold cancelCommand, fails, continue. plain. Qed.
Lemma retryResult_sound H licence s n id digest : sound H licence (retryResult s n id digest).
Proof. unfold retryResult. plain. Qed.
Lemma sendHeartbeat_sound H licence c s : sound H licence (sendHeartbeat c s).
Proof. unfold sendHeartbeat, fails, continue. plain. Qed.
Lemma scheduleResultRetry_sound H licence a : sound H licence (scheduleResultRetry a).
Proof. unfold scheduleResultRetry, fails, continue. plain. Qed.
Lemma send_results_sound H licence s l : sound H licence (send_results s l).
Proof. revert H licence. induction l as [|entry l IH]; intros H licence; cbn [send_results]; [done|]. destruct (je_Result entry); [|apply IH]. unfold fails. plain. apply IH. Qed.
Lemma replayPendingResults_sound H licence s : sound H licence (replayPendingResults s).
Proof. unfold replayPendingResults, fails. plain. apply send_results_sound. Qed.

Lemma openSession_sound H licence c : sound H licence (openSession c).
Proof.
  unfold openSession, fails. plain. eapply proper_bind; [apply sendHeartbeat_sound|]. intros Ha lica [u|e] _ _; [|done].
  eapply proper_bind; [apply replayPendingResults_sound|]. done.
Qed.

Lemma handleCommand_sound H licence c e : H (ServerCommand e) -> sound H licence (handleCommand c e).
Proof.
  intros He. unfold handleCommand, fails. split; [done|]. intros H1 refused Hg1 Hgen. destruct refused; [apply sendAcknowledgement_sound|]. destruct (negb _); [apply sendAcknowledgement_sound|].
  split; [done|]. intros H2 now Hg2 _. split; [split; [by apply Hg2, Hg1|by apply Hgen]|]. intros H3 prepared Hg3 _. destruct prepared as [[]|[]]; plain;
    first [apply sendAcknowledgement_sound|apply sendPrepared_sound].
Qed.

Lemma handleResultAcknowledgement_sound H licence a : H (ServerResultAcknowledgement a) -> sound H licence (handleResultAcknowledgement a).
Proof.
  intros Ha. unfold handleResultAcknowledgement, fails, continue. destruct (negb (ValidateResultAcknowledgement a)); [done|].
  destruct (negb (ra_Persisted a) && ra_Retryable a) eqn:E1; [apply scheduleResultRetry_sound|].
  assert (Hc : sound H licence (cancelResultRetry (ra_CommandId a))) by (unfold cancelResultRetry; plain).
  destruct (ra_Persisted a && negb (ra_Retryable a)) eqn:E2; [|destruct (negb (ra_Retryable a)) eqn:E3; [|done]].
  - apply andb_true_iff in E2 as [Hp Hr%negb_true_iff]. eapply proper_bind; [exact Hc|]. intros H1 lic u Hg1 _. split; [done|]. intros H2 now Hg2 _.
    split; [exists a; split_and!; [by apply Hg2, Hg1|done..]|]. intros H3 r _ _. destruct r as [|[]]; done.
  - apply negb_true_iff in E3. assert (Hp : ra_Persisted a = false) by (by rewrite andb_true_r in E2). eapply proper_bind; [exact Hc|]. intros H1 lic u Hg1 _. split; [done|].
    intros H2 now Hg2 _. split; [exists a; split_and!; [by apply Hg2, Hg1|done..]|]. intros H3 r _ _. destruct r as [|[]]; done.
Qed.

(** [AuthorizeStart] gives the licence when it succeeds. *)
Lemma authorizeStart_proper H licence f deadline : heard_start H f ->
  proper (fun H' licence' r => heard_start H' f /\ match r with Ok _ => licence' = Some f | Err _ => True end) H licence (authorizeStart (f_id f) (f_token f) (f_revision f) deadline).
Proof.
  intros Hs. destruct f as [id token revision]. unfold authorizeStart. cbn [f_id f_token f_revision]. destruct (_ || _); [by split|]. split; [done|]. intros H1 expired Hg1 _.
  assert (Hs1 : heard_start H1 {| f_id := id; f_token := token; f_revision := revision |}) by (by eapply heard_start_grows). destruct expired as [[]|]; [by split| |by split].
  split; [done|]. intros H2 expired Hg2 _. assert (Hs2 : heard_start H2 {| f_id := id; f_token := token; f_revision := revision |}) by (by eapply heard_start_grows).
  destruct expired as [[]|]; by split.
Qed.

Lemma handleCommandStart_sound H licence c start : H (ServerCommandStart start) -> sound H licence (handleCommandStart c start).
Proof.
  intros Hs. unfold handleCommandStart, fails, continue. destruct (negb _); [done|]. split; [done|]. intros H1 entry Hg1 Hpost. destruct entry as [entry|]; [|done].
  cbn in Hpost. destruct (je_Envelope entry) as [e|]; [|done]. destruct (Hpost e eq_refl) as [He Hid]. destruct (negb _); [done|]. cbv zeta.
  set (f := {| f_id := s_CommandId start; f_token := s_ExecutionToken start; f_revision := s_LeaseRevision start |}).
  eapply proper_bind; [apply (authorizeStart_proper H1 _ f); exists start; split; [by apply Hg1|done]|]. intros H2 lic r Hg2 [Hf Hr].
  destruct r as [u|[]]; try done; [|apply expireAuthorizedStart_sound]. subst lic. split; [done|]. intros H3 now Hg3 _. destruct (negb _); [apply interruptUnlaunchedStart_sound|].
  split; [done|]. intros H4 ctx Hg4 _. split; [done|]. intros H5 u5 Hg5 _. cbn [next_licence]. split; [|done]. cbn. rewrite Hid. split; [done|].
  assert (Hg : grows H2 H5) by (by etrans; [exact Hg3|etrans]). split; [|by eapply heard_start_grows]. eapply told_grows; [|exact He]. by etrans.
Qed.

Lemma execute_sound H context e token revision : told H e -> heard_start H {| f_id := e_CommandId e; f_token := token; f_revision := revision |} ->
  sound H (Some {| f_id := e_CommandId e; f_token := token; f_revision := revision |}) (execute context e token revision).
Proof.
  intros He Hs. unfold execute. split; [done|]. intros H1 at_ Hg1 _. split; [split_and!; [done|by eapply told_grows|by eapply heard_start_grows]|]. intros H2 u Hg2 _. split; [done|].
  intros H3 [r failed] Hg3 _. cbv zeta. plain.
Qed.

Lemma handleServerMessage_sound H licence c p : H p -> sound H licence (handleServerMessage c p).
Proof.
  intros Hp. destruct p; cbn [handleServerMessage]; unfold fails; try (plain; fail); [by apply handleCommand_sound|by apply handleCommandStart_sound| |by apply handleResultAcknowledgement_sound].
  destruct (negb _); [done|]. apply cancelCommand_sound.
Qed.

(** ** Calls *)

Definition launches {A} (c : client_call A) : list launch :=
  match c with XExecute e token revision _ => [{| l_fence := {| f_id := e_CommandId e; f_token := token; f_revision := revision |}; l_envelope := e |}] | _ => [] end.
Definition spawns {A} (c : client_call A) : list goroutine := match c with RGo g => [g] | _ => [] end.

(** What a call does to the history and to the journal. *)
Definition effect {A} (c : client_call A) (h h' : host) : Prop :=
  h_launched h' = h_launched h ++ launches c /\ h_spawned h' = h_spawned h ++ spawns c /\ journal_le (h_journal h) (h_journal h') /\
  forall H licence, call_pre H licence c -> journal_grounded H (h_journal h) -> journal_grounded H (h_journal h').

(** Most calls leave all of it alone. *)
Definition idle (h h' : host) : Prop := h_launched h' = h_launched h /\ h_spawned h' = h_spawned h /\ h_journal h' = h_journal h.
Lemma idle_effect {A} (c : client_call A) h h' : launches c = [] -> spawns c = [] -> idle h h' -> effect c h h'.
Proof. intros H1 H2 (E1 & E2 & E3). unfold effect. rewrite H1, H2, E1, E2, E3, !app_nil_r. by split_and!. Qed.
Lemma idle_says m r h h' : says m r h h' -> idle h h'.
Proof. by intros [->|[-> _]]. Qed.

Lemma journaled_effect {A} (c : client_call A) (op : Env -> BoltJournal -> BoltJournal * A) h b h' : launches c = [] -> spawns c = [] ->
  (forall env j, journal_le j (fst (op env j))) -> (forall env j H licence, call_pre H licence c -> journal_grounded H j -> journal_grounded H (fst (op env j))) ->
  journaled op h b h' -> effect c h h'.
Proof.
  intros H1 H2 Hle Hg (env & Hx). specialize (Hle env (h_journal h)). specialize (Hg env (h_journal h)). destruct (op env (h_journal h)) as [j' r]. destruct Hx as [-> ->].
  unfold effect. rewrite H1, H2, !app_nil_r. by split_and!.
Qed.

(** The operations of the journal only move entries forward. *)
Lemma op_le {A} o (op : BoltJournal * A) j : fst (exec sha256 marshal_envelope marshal_result o j) = fst op -> journal_le j (fst op).
Proof. intros <-. apply exec_le. Qed.

Lemma performs_effect {A} (c : client_call A) lo h b lo' h' : client_performs c lo h b lo' h' -> effect c h h'.
Proof.
  destruct c; cbn [client_performs]; try (intros [-> Hx]; apply idle_effect; [done..|]; revert Hx;
    first [ by intros -> | by intros [-> _] | by intros [_ ->] | apply idle_says | intros [Hx _]; revert Hx; apply idle_says ]).
  - intros [-> (cancelled & now & Hx)]. apply idle_effect; [done..|]. destruct (Verify _ _ _ _). by destruct Hx as [-> ->].
  - intros [-> Hx]. eapply journaled_effect; [done..| | |exact Hx].
    + intros env j. apply (op_le (OpPrepare env (Some envelope) at_)). cbn [exec]. by destruct (Prepare _ _ _ _ _ _).
    + intros env j H licence. apply Prepare_grounded.
  - intros [-> (now & Hx)]. eapply journaled_effect; [done..| | |exact Hx].
    + intros env j. apply transition_le, authorize_update_le.
    + intros env j H licence Hs. by apply transition_grounded, authorize_update_grounded.
  - intros (now & Hx & _). eapply journaled_effect; [done..| | |exact Hx].
    + intros env j. apply transition_le, run_update_le.
    + intros env j H licence Hs. apply transition_grounded, run_update_grounded.
  - intros [-> Hx]. eapply journaled_effect; [done..| | |exact Hx]; [|intros env j H licence _; apply CancelPrepared_grounded].
    intros env j. apply (op_le (OpCancelPrepared env id at_)). cbn [exec]. by destruct (CommandJournal.CancelPrepared _ _ _ _).
  - intros [-> Hx]. eapply journaled_effect; [done..| | |exact Hx]; [|intros env j H licence _; apply MarkInterrupted_grounded].
    intros env j. apply (op_le (OpMarkInterrupted env id at_)). cbn [exec]. by destruct (MarkInterrupted _ _ _ _ _ _).
  - intros [-> Hx]. eapply journaled_effect; [done..| | |exact Hx]; [|intros env j H licence _; apply Complete_grounded].
    intros env j. apply (op_le (OpComplete env id (Some r) at_)). cbn [exec]. by destruct (Complete _ _ _ _ _ _ _).
  - intros [-> Hx]. eapply journaled_effect; [done..| | |exact Hx]; [|intros env j H licence; apply MarkReported_grounded].
    intros env j. apply (op_le (OpMarkReported env id digest at_)). cbn [exec]. by destruct (MarkReported _ _ _ _ _).
  - intros [-> Hx]. eapply journaled_effect; [done..| | |exact Hx]; [|intros env j H licence; apply MarkResultConflicted_grounded].
    intros env j. apply (op_le (OpMarkResultConflicted env id digest reason at_)). cbn [exec]. by destruct (MarkResultConflicted _ _ _ _ _ _).
  - intros [-> _]. unfold effect. cbn. rewrite app_nil_r. by split_and!.
  - intros [_ ->]. unfold effect. cbn. rewrite app_nil_r. by split_and!.
  - intros [-> Hx]. apply idle_effect; [done..|]. case_match; by destruct Hx as [-> ->].
  - intros [-> ->]. apply idle_effect; [done..|]. by case_match.
  - intros [-> ->]. apply idle_effect; [done..|]. by case_match.
Qed.

Lemma performs_licence {A} (c : client_call A) lo h b lo' h' : client_performs c lo h b lo' h' -> lo_licence lo' = next_licence (lo_licence lo) c b.
Proof.
  destruct c; cbn; try (by intros [-> _]).
  - intros (now & _ & ->). by destruct b as [[]|].
  - intros [_ ->]. by destruct g.
Qed.

Lemma publicEntry_envelope s entry e : publicEntry unmarshal_envelope UnmarshalResult s = Ok entry -> je_Envelope entry = Some e -> exists b, Envelope s = Some b /\ unmarshal_envelope b = Some e.
Proof.
  unfold publicEntry. intros Hp He. destruct (decodeDigest (EnvelopeDigestHex s)); [|done]. destruct (Envelope s) as [b|].
  - destruct (bool_decide (length b = 0%nat)); [repeat (case_match; simplify_eq; try done)|]. destruct (unmarshal_envelope b) as [v|] eqn:E; [|done].
    exists b. split; [done|]. rewrite E. repeat (case_match; simplify_eq; try done).
  - repeat (case_match; simplify_eq; try done).
Qed.

Context {envelopes : EnvelopeCodec}.

Lemma performs_post {A} (c : client_call A) lo h b lo' h' H : client_performs c lo h b lo' h' -> journal_grounded H (h_journal h) -> verifier_of cl (verifier (h_memory h)) ->
  call_post H c b.
Proof.
  intros Hp Hj Hver. destruct c; try done; cbn in *.
  { destruct Hp as (_ & cancelled & now & Hx). intros ->. eapply (Verify_genuine cl cancelled now); [exact Hver|]. destruct (Verify _ _ _ _). by destruct Hx as [<- _]. } destruct Hp as (_ & _ & env & ->). unfold CommandJournal.Get. destruct (ctx_entry env); [done|].
  destruct (commands (h_journal h) !! id) as [c|] eqn:E; [|done]. destruct (Hj _ _ E) as (s & -> & Hs). cbn. destruct (publicEntry _ _ s) as [entry|] eqn:Ep; [|done].
  intros e He. destruct (publicEntry_envelope _ _ _ Ep He) as (b & Hb & Hu). destruct (gr_envelope _ _ _ Hs _ Hb) as (v & Hv & ->).
  unfold unmarshal_envelope in Hu. rewrite envelope_roundtrip in Hu. by injection Hu as <-.
Qed.

Lemma performs_verifier {A} (c : client_call A) lo h b lo' h' : client_performs c lo h b lo' h' -> verifier_of cl (verifier (h_memory h)) -> verifier_of cl (verifier (h_memory h')).
Proof.
  intros Hp Hv. destruct c; cbn in Hp; try (destruct Hp as (now & (env & Hx) & _); destruct (transition _ _ _ _); by destruct Hx as [_ ->]);
    try (destruct Hp as [_ Hx]; try (destruct Hx as (env & Hx)); try (destruct Hx as (env' & Hx)); repeat (case_match; try done); unfold says, consulted in *; naive_solver); try (by destruct Hp as [-> _]); try (by destruct Hp as [_ ->]).
  - destruct Hp as (_ & cancelled & now & Hx). pose proof (Verify_keeps cl cancelled now envelope _ Hv). destruct (Verify _ _ _ _). by destruct Hx as [_ ->].
  - by destruct Hp as (_ & [->|[-> _]] & _).
Qed.

(** ** Claims: executions that were or may be launched *)

Definition started_in (j : BoltJournal) (f : fence) : Prop := exists e, commands j !! f_id f = Some (Encoded e) /\ gone (st e) = true.
Definition claims_ok (j : BoltJournal) (l : list fence) : Prop := NoDup (f_id <$> l) /\ Forall (started_in j) l.

#[global] Instance claims_ok_proper j : Proper ((≡ₚ) ==> iff) (claims_ok j).
Proof. intros l l' Hl. unfold claims_ok. by rewrite Hl. Qed.

Lemma claims_ok_submseteq j l l' : l' ⊆+ l -> claims_ok j l -> claims_ok j l'.
Proof.
  intros [k Hk]%submseteq_Permutation. rewrite Hk. intros [Hn Hf]. rewrite fmap_app in Hn. apply NoDup_app in Hn as [Hn _]. apply Forall_app in Hf as [Hf _]. done.
Qed.

Lemma gone_le s s' : state_le s s' = true -> gone s = true -> gone s' = true.
Proof. by destruct s, s'. Qed.

Lemma claims_ok_le j j' l : journal_le j j' -> claims_ok j l -> claims_ok j' l.
Proof.
  intros Hle [Hn Hf]. split; [done|]. eapply Forall_impl; [exact Hf|]. intros f (e & He & Hg). destruct (Hle _ _ He) as (c' & Hc' & Hcl). destruct c' as [e'|]; [|done].
  exists e'. split; [done|]. eapply gone_le; [apply (le_state _ _ Hcl)|done].
Qed.

(** A command that is being started has not been claimed. *)
Lemma run_claims env j id token revision deadline now j' l : transition env j id (run_update sha256 marshal_result token revision deadline now) = (j', Ok false) ->
  claims_ok j l -> claims_ok j' ({| f_id := id; f_token := token; f_revision := revision |} :: l).
Proof.
  intros E Hl. pose proof (transition_le_eq _ _ _ _ _ _ E (run_update_le _ _ _ _ _ _)) as Hle. destruct (claims_ok_le _ _ _ Hle Hl) as [Hn Hf].
  apply transition_Ok in E as (e & e' & He & Hu & -> & _). unfold run_update in Hu. destruct (st e) eqn:Est; try (repeat (case_match; try done); fail).
  destruct (negb (matchesFence _ _ _)); [done|]. destruct (negb (Before _ _)); [by destruct (setInterrupted _ _ _ _)|]. injection Hu as <-. split.
  - cbn. constructor; [|done]. intros (f & Hid & Hin)%list_elem_of_fmap. destruct Hl as [_ Hl]. rewrite Forall_forall in Hl. destruct (Hl f Hin) as (e2 & He2 & Hg).
    rewrite <- Hid, He in He2. injection He2 as <-. by rewrite Est in Hg.
  - constructor; [|done]. eexists. cbn. by rewrite lookup_insert_eq.
Qed.

Definition licence_of (th : thread) : list fence := option_list (lo_licence (th_local th)).

(** A call moves a claim from the licence to a goroutine or to the history, or makes a new one. *)
Lemma performs_claims {A} (c : client_call A) lo h b lo' h' H rest : client_performs c lo h b lo' h' -> call_pre H (lo_licence lo) c -> h_spawned h = [] ->
  claims_ok (h_journal h) ((l_fence <$> h_launched h) ++ option_list (lo_licence lo) ++ rest) ->
  claims_ok (h_journal h') ((l_fence <$> h_launched h') ++ option_list (lo_licence lo') ++ (newborn h' ≫= licence_of) ++ rest).
Proof.
  intros Hp Hpre Hsp Hok. destruct (performs_effect _ _ _ _ _ _ Hp) as (Hla & Hspawn & Hle & _). pose proof (performs_licence _ _ _ _ _ _ Hp) as Hlic.
  rewrite Hla, Hlic. unfold newborn. rewrite Hspawn, Hsp. cbn [app]. clear Hla Hlic Hspawn. destruct c; cbn [launches spawns next_licence fmap list_fmap mbind list_bind app]; rewrite ?app_nil_r;
    try (by eapply claims_ok_le).
  - destruct Hp as (now & (env & Hx) & _). destruct (transition _ _ _ _) as [j' r] eqn:E. destruct Hx as [-> ->]. cbn [h_journal] in *.
    destruct r as [[]|]; [by eapply claims_ok_le| |by eapply claims_ok_le]. cbn [option_list option_rect app].
    rewrite <- Permutation_middle. eapply run_claims; [exact E|]. eapply claims_ok_submseteq; [|exact Hok]. apply submseteq_app; [done|]. by apply submseteq_inserts_l.
  - destruct g; cbn [started licence_of th_local lo_licence option_list option_rect app]; [|by eapply claims_ok_le]. destruct Hpre as [Hl _]. rewrite Hl in Hok. by eapply claims_ok_le.
  - destruct Hpre as [Hl _]. rewrite Hl in Hok. cbn [option_list option_rect app] in *. rewrite fmap_app. cbn. rewrite <- app_assoc. by eapply claims_ok_le.
Qed.
(** ** Agents *)

Definition process_claims (p : process) : list fence := option_list (lo_licence (pr_local p)) ++ (pr_threads p ≫= licence_of).
Definition claims (a : agent) : list fence := (l_fence <$> h_launched (ag_host a)) ++ match ag_process a with Some p => process_claims p | None => [] end.

Definition thread_ok (H : hearing) (th : thread) : Prop := sound H (lo_licence (th_local th)) (th_prog th).
Definition main_ok (H : hearing) (licence : option fence) (m : main) : Prop :=
  match m with MOpening p => sound H licence p | MHandling _ p => sound H licence p | _ => True end.
Definition process_ok (H : hearing) (p : process) : Prop := main_ok H (lo_licence (pr_local p)) (pr_main p) /\ Forall (thread_ok H) (pr_threads p).
Definition launch_ok (H : hearing) (l : launch) : Prop := heard_envelope H (f_id (l_fence l)) (l_envelope l) /\ heard_start H (l_fence l).

Record agent_ok (H : hearing) (a : agent) : Prop := {
  ao_client : ag_client a = cl;
  ao_verifier : verifier_of cl (verifier (h_memory (ag_host a)));
  ao_journal : journal_grounded H (h_journal (ag_host a));
  ao_spawned : h_spawned (ag_host a) = [];
  ao_launched : Forall (launch_ok H) (h_launched (ag_host a));
  ao_claims : claims_ok (h_journal (ag_host a)) (claims a);
  ao_process : forall p, ag_process a = Some p -> process_ok H p;
}.

Lemma thread_ok_grows H H' th : grows H H' -> thread_ok H th -> thread_ok H' th.
Proof. apply sound_grows. Qed.

Lemma agent_ok_grows H H' a : grows H H' -> agent_ok H a -> agent_ok H' a.
Proof.
  intros Hg [A6 A7 A1 A2 A3 A4 A5]. split; [done..|by eapply journal_grounded_grows|done| |done|].
  - eapply Forall_impl; [exact A3|]. intros l [H1 H2]. split; [by eapply heard_envelope_grows|by eapply heard_start_grows].
  - intros p Hp. destruct (A5 p Hp) as [Hm Ht]. split.
    + destruct (pr_main p); cbn in *; try done; by eapply sound_grows.
    + eapply Forall_impl; [exact Ht|]. intros th. by apply thread_ok_grows.
Qed.

(** A program after a call, and the goroutines that the call started. *)
Lemma performs_sound {A B} (c : client_call A) (k : A -> cprog B) lo h b lo' h' H : client_performs c lo h b lo' h' -> sound H (lo_licence lo) (Call c k) ->
  journal_grounded H (h_journal h) -> verifier_of cl (verifier (h_memory h)) -> h_spawned h = [] -> Forall (launch_ok H) (h_launched h) ->
  sound H (lo_licence lo') (k b) /\ Forall (thread_ok H) (newborn h') /\ journal_grounded H (h_journal h') /\ Forall (launch_ok H) (h_launched h').
Proof.
  intros Hp [Hpre Hk] Hj Hv Hs Hl. destruct (performs_effect _ _ _ _ _ _ Hp) as (Hla & Hsp & _ & Hg). split_and!.
  - rewrite (performs_licence _ _ _ _ _ _ Hp). apply Hk; [done|]. by eapply performs_post.
  - unfold newborn. rewrite Hsp, Hs. destruct c; try constructor; [|constructor]. destruct g; cbn in Hpre |- *; [|apply retryResult_sound]. destruct Hpre as (_ & H1 & H2). by apply execute_sound.
  - by eapply Hg.
  - rewrite Hla. apply Forall_app. split; [done|]. destruct c; try constructor; [|constructor]. destruct Hpre as (_ & H1 & H2). by split.
Qed.

(** A step of the loop without a call, after which the memory may differ. *)
Lemma main_moves H a p f lo' m' : (forall m, verifier (f m) = verifier m) -> agent_ok H a -> ag_process a = Some p -> lo_licence lo' = lo_licence (pr_local p) \/ lo_licence lo' = None -> main_ok H (lo_licence lo') m' ->
  agent_ok H (a <| ag_host ::= on_memory f |> <| ag_process := Some {| pr_main := m'; pr_local := lo'; pr_threads := pr_threads p |} |>).
Proof.
  intros Hf [A6 A7 A1 A2 A3 A4 A5] Hp Hlo Hm. split; [done|cbn; by rewrite Hf|done..| |].
  - eapply claims_ok_submseteq; [|exact A4]. unfold claims, process_claims. rewrite Hp. cbn. apply submseteq_app; [done|]. apply submseteq_app; [|done].
    destruct Hlo as [-> | ->]; [done|apply submseteq_nil_l].
  - intros p' [= <-]. split; [done|]. by destruct (A5 p Hp).
Qed.

(** A call of the loop. *)
Lemma main_call_ok H a p {A B} (c : client_call A) (k : A -> cprog B) (wrap : cprog B -> main) b lo' h' : agent_ok H a -> ag_process a = Some p -> pr_main p = wrap (Call c k) ->
  (forall licence q, main_ok H licence (wrap q) <-> sound H licence q) -> client_performs c (pr_local p) (ag_host a) b lo' h' ->
  agent_ok H (a <| ag_host := settled h' |> <| ag_process := Some {| pr_main := wrap (k b); pr_local := lo'; pr_threads := pr_threads p ++ newborn h' |} |>).
Proof.
  intros [A6 A7 A1 A2 A3 A4 A5] Hp Hm Hw Hc. destruct (A5 p Hp) as [Hsm Hth]. rewrite Hm in Hsm. apply Hw in Hsm.
  destruct (performs_sound _ _ _ _ _ _ _ _ Hc Hsm A1 A7 A2 A3) as (H1 & H2 & H3 & H4). pose proof (performs_verifier _ _ _ _ _ _ Hc A7) as A7'. split; [done..| |].
  - unfold claims, process_claims in A4. rewrite Hp in A4. pose proof (performs_claims _ _ _ _ _ _ _ _ Hc (proj1 Hsm) A2 A4) as Hcl. unfold claims, process_claims. cbn.
    rewrite bind_app, (Permutation_app_comm (pr_threads p ≫= licence_of)). exact Hcl.
  - intros p' [= <-]. split; [by apply Hw|]. cbn. by apply Forall_app.
Qed.
Lemma with_main_ok H a p m' : agent_ok H a -> ag_process a = Some p -> main_ok H (lo_licence (pr_local p)) m' -> agent_ok H (with_main a p m').
Proof.
  intros Ha Hp Hm. pose proof (main_moves H a p id (pr_local p) m' (fun _ => eq_refl) Ha Hp (or_introl eq_refl) Hm) as Hx. by destruct a as [c [] q].
Qed.
Lemma with_main_memory_ok H a p f m' : (forall m, verifier (f m) = verifier m) -> agent_ok H a -> ag_process a = Some p -> main_ok H (lo_licence (pr_local p)) m' ->
  agent_ok H (with_main (a <| ag_host ::= on_memory f |>) p m').
Proof. intros Hf Ha Hp Hm. apply (main_moves H a p f (pr_local p) m' Hf Ha Hp (or_introl eq_refl) Hm). Qed.

(** A change of the host that leaves the journal and the history of executions alone. *)
Lemma host_ok H a h' : agent_ok H a -> idle (ag_host a) h' -> verifier (h_memory h') = verifier (h_memory (ag_host a)) -> agent_ok H (a <| ag_host := h' |>).
Proof. intros [A6 A7 A1 A2 A3 A4 A5] (E1 & E2 & E3) E4. split; cbn; rewrite ?E1, ?E2, ?E3, ?E4; try done. unfold claims in *. cbn. by rewrite E1. Qed.

Lemma thread_call_ok H a p before lo {A} (c : client_call A) k after b lo' h' : agent_ok H a -> ag_process a = Some p -> pr_threads p = before ++ MkThread lo (Call c k) :: after ->
  client_performs c lo (ag_host a) b lo' h' ->
  agent_ok H (a <| ag_host := settled h' |> <| ag_process := Some (p <| pr_threads := before ++ MkThread lo' (k b) :: after ++ newborn h' |>) |>).
Proof.
  intros [A6 A7 A1 A2 A3 A4 A5] Hp Ht Hc. destruct (A5 p Hp) as [Hsm Hth]. rewrite Ht in Hth. apply Forall_app in Hth as [Hb [Hs Ha]%Forall_cons].
  destruct (performs_sound _ _ _ _ _ _ _ _ Hc Hs A1 A7 A2 A3) as (H1 & H2 & H3 & H4). pose proof (performs_verifier _ _ _ _ _ _ Hc A7) as A7'. split; [done..| |].
  - set (rest := option_list (lo_licence (pr_local p)) ++ (before ≫= licence_of) ++ (after ≫= licence_of)).
    assert (Hcl : claims_ok (h_journal (ag_host a)) ((l_fence <$> h_launched (ag_host a)) ++ option_list (lo_licence lo) ++ rest)).
    { unfold claims, process_claims in A4. rewrite Hp, Ht, bind_app, bind_cons in A4. eapply claims_ok_proper; [|exact A4]. apply Permutation_app_head. unfold rest, licence_of. cbn [th_local].
      rewrite !app_assoc. apply Permutation_app_tail. rewrite <- app_assoc. apply Permutation_app_comm. }
    pose proof (performs_claims _ _ _ _ _ _ _ _ Hc (proj1 Hs) A2 Hcl) as Hn. eapply claims_ok_proper; [|exact Hn]. unfold claims, process_claims. cbn. apply Permutation_app_head.
    rewrite bind_app, bind_cons, bind_app. unfold rest. change (licence_of (MkThread lo' (k b))) with (option_list (lo_licence lo')).
    rewrite (Permutation_app_comm (newborn h' ≫= licence_of)), !app_assoc. apply Permutation_app_tail. rewrite <- !app_assoc.
    rewrite !app_assoc. apply Permutation_app_tail. by rewrite (Permutation_app_comm _ (option_list (lo_licence lo'))), app_assoc.
  - intros p' [= <-]. split; [done|]. cbn. apply Forall_app. split; [done|]. constructor; [done|]. by apply Forall_app.
Qed.

Lemma agent_step_ok H a a' : agent_ok H a -> agent_step H a a' -> agent_ok H a'.
Proof.
  intros Ha Hst. destruct Hst as [a co so at_ v j' Hp Hver Hr|a co so at_ j' x Hp Hr|a|a p before lo A c k after b lo' h' Hp Ht Hc|a p before lo after Hp Ht|a p th f k pr pr' Hp Hin Hrep Hk Hx
    |a p Hp Hm|a p e Hp Hm He|a p A c k b lo' h' Hp Hm Hc|a p r Hp Hm|a p s payload Hp Hm Hh|a p s Hp Hm|a p s A c k b lo' h' Hp Hm Hc|a p s r Hp Hm|a p s e Hp Hm He|a p Hp Hm He|a p e Hp Hm
    |a p Hp Hm|a p Hp Hm].
  - destruct Ha as [A6 A7 A1 A2 A3 A4 A5]. pose proof (recoverRunning_grounded H co so _ at_ A1) as Hg. pose proof (recoverRunning_le sha256 marshal_result co so (h_journal (ag_host a)) at_) as Hle.
    rewrite Hr in Hg, Hle. unfold claims in A4. rewrite Hp in A4. rewrite A6 in Hver. split; [done|by apply NewCommandVerifier_of|done..| |].
    + unfold claims. cbn. rewrite app_nil_r in *. by eapply claims_ok_le.
    + intros p [= <-]. by split.
  - destruct Ha as [A6 A7 A1 A2 A3 A4 A5]. pose proof (recoverRunning_grounded H co so _ at_ A1) as Hg. pose proof (recoverRunning_le sha256 marshal_result co so (h_journal (ag_host a)) at_) as Hle.
    rewrite Hr in Hg, Hle. split; [done..| |done]. by eapply claims_ok_le.
  - destruct Ha as [A6 A7 A1 A2 A3 A4 A5]. split; [done..| |done]. eapply claims_ok_submseteq; [|exact A4]. unfold claims. cbn. apply submseteq_app; [done|apply submseteq_nil_l].
  - by eapply thread_call_ok.
  - destruct Ha as [A6 A7 A1 A2 A3 A4 A5]. destruct (A5 p Hp) as [Hsm Hth]. split; [done..| |].
    + eapply claims_ok_submseteq; [|exact A4]. unfold claims, process_claims. rewrite Hp, Ht. cbn. rewrite !bind_app, bind_cons. do 2 (apply submseteq_app; [done|]).
      apply submseteq_app; [done|]. by apply submseteq_inserts_l.
    + intros p' [= <-]. split; [done|]. cbn. rewrite Ht in Hth. apply Forall_app in Hth as [Hb [_ Hf]%Forall_cons]. by apply Forall_app.
  - by apply host_ok.
  - apply with_main_ok; [done..|]. apply openSession_sound.
  - by apply with_main_ok.
  - eapply (main_call_ok _ _ _ _ _ MOpening); try done. 
  - apply with_main_ok; [done..|]. by destruct r.
  - pose proof (main_moves H a p id no_local (MHandling s (handleServerMessage (ag_client a) payload)) (fun _ => eq_refl) Ha Hp (or_intror eq_refl)) as Hx.
    destruct a as [c0 [] q]. apply Hx. by apply handleServerMessage_sound.
  - apply with_main_ok; [done..|]. apply sendHeartbeat_sound.
  - by eapply (main_call_ok _ _ _ _ _ (MHandling s)).
  - apply with_main_ok; [done..|]. by destruct r.
  - by apply with_main_ok.
  - by apply with_main_memory_ok.
  - apply with_main_memory_ok; [done..|]. by destruct (after_session e).
  - by apply with_main_ok.
  - by apply host_ok.
Qed.

Lemma new_agent_ok H : agent_ok H (new_agent cl).
Proof. split; [done|by split|done..| |done]. split; [apply NoDup_nil_2|done]. Qed.

Lemma agent_steps_ok H a a' : agent_ok H a -> rtc (agent_step H) a a' -> agent_ok H a'.
Proof. intros Ha Hst. induction Hst as [a|a a1 a' H1 _ IH]; [done|]. apply IH. by eapply agent_step_ok. Qed.
End logic.
