(* ===== verification/EndToEnd.v ===== *)
(** * From the database to the executors of agents

    Control planes on one database ([AgentSessions]) and the agents they send
    to ([AgentHost]), each agent with its journal.  An agent can receive what was
    sent to it, at any time and any number of times; control planes may be told
    anything.  Both sides crash and start again. *)

From S2P Require Import Prelude Programs GoText JobModel JobRepository CommandPhases CommandSlots CommandLifecycle CommandWorld CommandDelivery SessionRegistry AgentServer AgentSessions SessionSteps SessionLogic AgentDelivery Encodings CommandJournal AgentClient AgentHost ClientLogic.

Open Scope Z_scope.
Open Scope update_scope.
Open Scope prog_scope.

Section universes.
Context {database : JobDatabase} {codec : ResultCodec} {surroundings : Surroundings} {agents : AgentCodec} {contract : RecorderContract} {keys : AgentKeys} {envelopes : EnvelopeCodec}.

(** ** One agent *)

(** The invocation [l] of an executor is licensed by messages that were heard. *)
Definition licensed (H : server_payload -> Prop) (c : ControlClient) (l : launch) : Prop :=
  H (ServerCommand (l_envelope l)) /\ genuine c (l_envelope l) /\ f_id (l_fence l) = e_CommandId (l_envelope l) /\
  exists start, H (ServerCommandStart start) /\ l_fence l = {| f_id := s_CommandId start; f_token := s_ExecutionToken start; f_revision := s_LeaseRevision start |}.

(** C5: Agents trust nobody.  Whatever an agent is told, in whatever order and through any crashes and restarts: it invokes executors
    only for commands that were sent to it, are addressed to it, carry a valid signature for its key and are of a kind it
    can execute, only with the fence of a start that was sent for that command, and at most once per command. *)
Theorem agents_execute_genuine_commands_once H c a : rtc (agent_step H) (new_agent c) a ->
  Forall (licensed H c) (h_launched (ag_host a)) /\ NoDup ((fun l => f_id (l_fence l)) <$> h_launched (ag_host a)).
Proof.
  intros Hst. pose proof (agent_steps_ok c H _ _ (new_agent_ok c H) Hst) as [_ _ _ _ Hl [Hn _] _]. split.
  - eapply Forall_impl; [exact Hl|]. by intros l [[[H1 H2] H3] H4].
  - unfold claims in Hn. rewrite fmap_app, <- list_fmap_compose in Hn. by apply NoDup_app in Hn as [Hn _].
Qed.

(** ** Agents and control planes *)

(** One agent per identity: the journal is a locked file of its host. *)
Record universe := Universe { u_world : world; u_agents : gmap string agent }.

Inductive universe_step : universe -> universe -> Prop :=
  | universe_world w w' ags : world_step w w' -> universe_step (Universe w ags) (Universe w' ags)
  | universe_installs w ags c : ags !! cc_agentID c = None -> universe_step (Universe w ags) (Universe w (<[cc_agentID c := new_agent c]> ags))
  | universe_agent w ags id a a' : ags !! id = Some a -> agent_step (on_wire w id) a a' -> universe_step (Universe w ags) (Universe w (<[id := a']> ags)).

Definition initial_universe : universe := Universe initial_world ∅.
Definition reachable_universe (u : universe) : Prop := rtc universe_step initial_universe u.

(** ** The invariant *)

Record universe_ok (u : universe) : Prop := {
  uo_world : reachable_world (u_world u);
  uo_agents : forall id a, u_agents u !! id = Some a -> agent_ok (ag_client a) (on_wire (u_world u) id) a;
}.

Lemma world_step_wire w w' id : world_step w w' -> grows (on_wire w id) (on_wire w' id).
Proof. intros Hst p (m & Hin & Hp). exists m. split; [|done]. destruct Hst; cbn in *; try done. apply elem_of_app. by left. Qed.

Lemma universe_step_ok u u' : universe_ok u -> universe_step u u' -> universe_ok u' /\ rtc world_step (u_world u) (u_world u').
Proof.
  intros [Hw Ha] Hst. destruct Hst as [w w' ags Hws|w ags c Hc|w ags id a a' Hid Has]; cbn in *.
  - split; [|by apply rtc_once]. split; [by eapply rtc_r|]. intros id a Hid. eapply agent_ok_grows; [by apply world_step_wire|by apply Ha].
  - split; [|done]. split; [done|]. cbn. intros id a. destruct (decide (id = cc_agentID c)) as [->|Hne]; [|rewrite lookup_insert_ne by done; apply Ha].
    rewrite lookup_insert_eq. intros [= <-]. apply new_agent_ok.
  - split; [|done]. split; [done|]. cbn. intros id2 a2. destruct (decide (id2 = id)) as [->|Hne]; [|rewrite lookup_insert_ne by done; apply Ha].
    rewrite lookup_insert_eq. intros [= <-]. pose proof (agent_step_ok _ _ _ _ (Ha _ _ Hid) Has) as Hok. by rewrite (ao_client _ _ _ Hok).
Qed.

Lemma universe_steps_ok u u' : universe_ok u -> rtc universe_step u u' -> universe_ok u' /\ rtc world_step (u_world u) (u_world u').
Proof.
  intros Hok Hst. induction Hst as [u|u u1 u' H1 _ IH]; [done|]. destruct (universe_step_ok _ _ Hok H1) as [Hok1 Hw1]. destruct (IH Hok1) as [Hok' Hw']. split; [done|]. by etrans.
Qed.

Lemma reachable_universe_ok u : reachable_universe u -> universe_ok u.
Proof. intros Hr. apply (universe_steps_ok initial_universe); [|done]. split; [constructor|]. intros id a. cbn. by rewrite lookup_empty. Qed.

(** ** Theorems *)

(** The executor of an agent was invoked. *)
Definition executed_by (u : universe) (agentID : string) (i : nat) (l : launch) : Prop :=
  exists a, u_agents u !! agentID = Some a /\ h_launched (ag_host a) !! i = Some l.

Lemma executed_launch u agentID i l : universe_ok u -> executed_by u agentID i l -> exists c, launch_ok c (on_wire (u_world u) agentID) l.
Proof.
  intros Hok (a & Ha & Hl). exists (ag_client a). pose proof (ao_launched _ _ _ (uo_agents _ Hok _ _ Ha)) as Hf. rewrite Forall_forall in Hf. apply Hf. by eapply list_elem_of_lookup_2.
Qed.

(** The start of an execution, as the database has it. *)
Lemma executed_start u agentID i l : universe_ok u -> executed_by u agentID i l ->
  exists row, outbox (w_db (u_world u)) !! f_id (l_fence l) = Some row /\ o_TargetID (message row) = agentID /\ 0 < o_ExecutionRevision (message row) /\
    f_revision (l_fence l) = o_ExecutionRevision (message row) /\ sha256 (f_token (l_fence l)) = o_ExecutionTokenHash (message row).
Proof.
  intros Hok Hx. destruct (executed_launch _ _ _ _ Hok Hx) as (c & _ & start & Hs & ->). destruct (on_wire_handed _ _ _ _ (uo_world _ Hok) Hs eq_refl) as (_ & (row & H1 & H2 & H3 & H4 & _ & H5 & _) & _).
  exists row. by split_and!.
Qed.

(** C1: Commands execute at most once.  In the whole system, over all agents and all their restarts, the executors are invoked
    at most once for a command. *)
Theorem commands_execute_at_most_once u agentID i l agentID' i' l' : reachable_universe u -> executed_by u agentID i l -> executed_by u agentID' i' l' ->
  f_id (l_fence l) = f_id (l_fence l') -> agentID = agentID' /\ i = i'.
Proof.
  intros Hr Hx Hx' Hid. pose proof (reachable_universe_ok _ Hr) as Hok. destruct (executed_start _ _ _ _ Hok Hx) as (row & H1 & H2 & _), (executed_start _ _ _ _ Hok Hx') as (row' & H1' & H2' & _).
  rewrite Hid, H1' in H1. injection H1 as ->. assert (agentID = agentID') as <- by congruence. split; [done|]. destruct Hx as (a & Ha & Hl), Hx' as (a' & Ha' & Hl'). rewrite Ha in Ha'. injection Ha' as <-.
  destruct (ao_claims _ _ _ (uo_agents _ Hok _ _ Ha)) as [Hn _]. unfold claims in Hn. rewrite fmap_app in Hn. apply NoDup_app in Hn as [Hn _].
  eapply NoDup_lookup; [exact Hn| |]; rewrite !list_lookup_fmap; [by rewrite Hl|by rewrite Hl', Hid].
Qed.

(** An execution that the database has authorised: of the stored envelope, on its agent, with its fence. *)
Definition authorised (t : tables) (agentID : string) (l : launch) : Prop :=
  exists row, outbox t !! f_id (l_fence l) = Some row /\ o_TargetID (message row) = agentID /\ Unmarshal (o_PreparedEnvelope (message row)) = Some (l_envelope l, []) /\
    0 < o_ExecutionRevision (message row) /\ f_revision (l_fence l) = o_ExecutionRevision (message row) /\ sha256 (f_token (l_fence l)) = o_ExecutionTokenHash (message row).

(** C2: Executions are authorised.  When an agent invokes an executor, the database holds the command for this agent, with the very
    envelope that is executed and the fence of this execution. *)
Theorem executions_are_authorised u agentID i l : reachable_universe u -> executed_by u agentID i l -> authorised (w_db (u_world u)) agentID l.
Proof.
  intros Hr Hx. pose proof (reachable_universe_ok _ Hr) as Hok. destruct (executed_start _ _ _ _ Hok Hx) as (row & H1 & H2 & H3 & H4 & H5).
  destruct (executed_launch _ _ _ _ Hok Hx) as (c & [[He _] Hid] & _). destruct (on_wire_handed _ _ _ _ (uo_world _ Hok) He eq_refl) as (_ & (row' & H1' & _ & _ & _ & H6) & _).
  rewrite Hid, H1 in H1'. injection H1' as <-. exists row. by split_and!.
Qed.

(** C3: Commands that were cancelled before their start are never executed.  If at some moment the cancellation of a command is
    recorded and it has no execution, no agent has executed or will execute it. *)
Theorem cancelled_commands_never_execute u u' id row agentID i l : reachable_universe u -> rtc universe_step u u' -> outbox (w_db (u_world u)) !! id = Some row ->
  is_Some (o_CancellationRequestedAt (message row)) -> o_ExecutionRevision (message row) = 0 -> executed_by u' agentID i l -> f_id (l_fence l) <> id.
Proof.
  intros Hr Hst Hrow Hc Hz Hx Hid. destruct (universe_steps_ok _ _ (reachable_universe_ok _ Hr) Hst) as [Hok' Hw]. destruct (executed_start _ _ _ _ Hok' Hx) as (row' & H1 & _ & H3 & _).
  pose proof (reachable_world_ok _ (uo_world _ (reachable_universe_ok _ Hr))) as Hwok. destruct (worlds_ok _ _ Hwok Hw) as [_ Hl].
  destruct (row_later _ _ _ _ (sound_tables _ (wo_sound _ Hwok)) Hl Hrow) as (row2 & H2 & _ & Hadv). rewrite Hid, H2 in H1. injection H1 as <-.
  rewrite (adv_unfenced _ _ Hadv Hc Hz) in H3. lia.
Qed.

(** What the journal of an agent takes a result for, against the database. *)
Definition settled_truly (t : tables) (agentID id : string) (e : storedEntry) : Prop :=
  (ReportedAtUnixNano e <> 0 -> exists digest, decodeDigest (ResultDigestHex e) = Ok digest /\ digest_stored agentID id digest t) /\
  (st e = StateResultConflicted -> command_ended agentID id t).

(** C4: Reported results are stored.  When the journal of an agent has a result as reported, the database holds the digest of this
    result for this command of this agent; when it has the result as conflicting, the command has ended.  (Results of
    database validations are stored by another component.) *)
Theorem reported_results_are_stored u agentID a id e : reachable_universe u -> u_agents u !! agentID = Some a -> commands (h_journal (ag_host a)) !! id = Some (Encoded e) ->
  validates id (w_db (u_world u)) \/ settled_truly (w_db (u_world u)) agentID id e.
Proof.
  intros Hr Ha He. pose proof (reachable_universe_ok _ Hr) as Hok. destruct (ao_journal _ _ _ (uo_agents _ Hok _ _ Ha) _ _ He) as (e' & [= <-] & [_ _ _ G4 G5]).
  assert (Hack : forall digest persisted, heard_acknowledgement (on_wire (u_world u) agentID) id digest persisted -> validates id (w_db (u_world u)) \/
    (if persisted then digest_stored agentID id digest (w_db (u_world u)) else command_ended agentID id (w_db (u_world u)))).
  { intros digest persisted (ack & Hw & <- & <- & <- & Hre). destruct (on_wire_fit _ _ _ (uo_world _ Hok) Hw) as (m & Hm & [_ Hf]). destruct (Hf _ Hm) as [_ [Hv|[H1 H2]]]; [by left|right].
    destruct (ra_Persisted ack); auto. }
  destruct (decide (ReportedAtUnixNano e = 0)) as [Hz|Hz]; [|destruct (G4 Hz) as (Hst & digest & Hd & [Hv|Hs]%Hack); [by left|right; split; [eauto|intros Hc; destruct Hst; congruence]]].
  destruct (decide (st e = StateResultConflicted)) as [Hc|Hc]; [destruct (G5 Hc) as (digest & _ & [Hv|Hs]%Hack); [by left|right; by split]|right; by split].
Qed.
End universes.

(** ** Runs *)
Module EndToEndDemo.
Import PhaseDemo DeliveryDemo SessionDemo.

#[export] Instance demo_keys : AgentKeys := {
  VerifySignature _ _ _ := true; ValidateProcess _ := true; ValidateTargets _ := None; process_of _ := EmptyString; UnmarshalResult := of_fields;
}.
#[export] Instance demo_envelopes : EnvelopeCodec.
Proof.
  split. intros e. cbn -[to_fields of_fields]. case_bool_decide as H1; [by rewrite H1|]. case_bool_decide as H2; [by rewrite H2|]. by rewrite fields_roundtrip.
Qed.

Definition client : ControlClient := {| cc_agentID := "host-1"; cc_publicKey := replicate 32 7; executorRegistry := {| executors := {[ "collect_now"%string := [] ]}; processExecutors := ∅ |}; observesPlugins := false |}.

(** Replies at second [now]: the journal does not fail, messages are sent, executors succeed. *)
Definition journal_reply {A} (r : BoltJournal * A) (h : host) : A * host := (snd r, h <| h_journal := fst r |>).
Definition sent_reply (m : AgentMessage) (h : host) : handled * host := (Ok tt, h <| h_said ::= fun l => l ++ [m] |>).
Definition reply_to (now : Z) {A} (c : client_call A) (h : host) : A * host :=
  let env := fault_free in let t := at_second now in let j := h_journal h in
  match c in client_call A return A * host with
  | XNow => (t, h)
  | CVerify e => let '(r, v) := Verify false t e (verifier (h_memory h)) in (r, on_memory (fun m => m <| verifier := v |>) h)
  | JPrepare e at_ => journal_reply (Prepare sha256 marshal_envelope env j (Some e) at_) h
  | JAuthorize id token revision deadline => journal_reply (transition env j id (authorize_update sha256 marshal_result token revision deadline (UTC t))) h
  | JRun id token revision deadline => journal_reply (transition env j id (run_update sha256 marshal_result token revision deadline (UTC t))) h
  | JCancelPrepared id at_ => journal_reply (CommandJournal.CancelPrepared env j id at_) h
  | JMarkInterrupted id at_ => journal_reply (MarkInterrupted sha256 marshal_result env j id at_) h
  | JComplete id r at_ => journal_reply (Complete sha256 marshal_result env j id (Some r) at_) h
  | JMarkReported id digest at_ => journal_reply (MarkReported env j id digest at_) h
  | JMarkResultConflicted id digest reason at_ => journal_reply (MarkResultConflicted env j id digest reason at_) h
  | JGet id => (CommandJournal.Get unmarshal_envelope UnmarshalResult env j id, h)
  | JActive => (Active unmarshal_envelope UnmarshalResult env j, h)
  | JPendingResults => (PendingResults unmarshal_envelope UnmarshalResult env j, h)
  | RWithCancel => (length (contexts (h_memory h)), on_memory (fun m => m <| contexts ::= fun l => l ++ [false] |>) h)
  | RInsert id r => (tt, on_memory (fun m => m <| AgentHost.running ::= <[id := r]> |>) h)
  | RLookup id => (AgentHost.running (h_memory h) !! id, h)
  | RAll => (sorted_running (h_memory h), h)
  | RDelete id => (tt, on_memory (fun m => m <| AgentHost.running ::= delete id |>) h)
  | RCancel n => (tt, on_memory (fun m => m <| contexts ::= <[n := true]> |>) h)
  | RCancelled n => (bool_decide (contexts (h_memory h) !! n = Some true), h)
  | RGo g => (tt, h <| h_spawned ::= fun l => l ++ [g] |>)
  | XExecute e token revision _ =>
      (tt, h <| h_launched ::= fun l => l ++ [{| l_fence := {| f_id := e_CommandId e; f_token := token; f_revision := revision |}; l_envelope := e |}] |>)
  | XResult => ((Some finished, false), h)
  | XError => (tt, on_memory (fun m => m <| executionErrors := true |>) h)
  | SOpen => (opened (h_memory h), on_memory (fun m => m <| opened ::= S |>) h)
  | SSendHello hello => sent_reply (AgentHello hello) h
  | SFirst => (Ok (hello_ack t), h)
  | SPeer compatibility results peer =>
      (tt, on_memory (fun m => m <| discoveryCompatibility := compatibility |> <| discoverySourceResults := results |> <| discoverySourceResultsPeer := peer |>) h)
  | SSet s => (tt, on_memory (fun m => m <| session := Some s |>) h)
  | SCurrent => (session (h_memory h), h)
  | SOver _ => (false, h)
  | SSend m => match session (h_memory h) with Some _ => sent_reply m h | None => (Err ErrControlStreamDisconnected, h) end
  | SSendThrough _ m => sent_reply m h
  | SPlugins | SWaiters _ => (Ok tt, h)
  | SObservation => (None, h)
  | TBegin s id =>
      match retries (h_memory h) !! (s, id) with
      | Some _ => (None, h)
      | None => let n := length (retry_contexts (h_memory h)) in (Some n, on_memory (fun m => m <| retries ::= <[(s, id) := n]> |> <| retry_contexts ::= fun l => l ++ [false] |>) h)
      end
  | TTimer n | TAlive n => (negb (bool_decide (retry_contexts (h_memory h) !! n = Some true)), h)
  | TFinish s n id => (tt, if bool_decide (retries (h_memory h) !! (s, id) = Some n) then on_memory (fun m => m <| retries ::= delete (s, id) |>) h else h)
  | TCancel s id =>
      (tt, match retries (h_memory h) !! (s, id) with
           | Some n => on_memory (fun m => m <| retries ::= delete (s, id) |> <| retry_contexts ::= <[n := true]> |>) h
           | None => h
           end)
  end.
Definition local_after {A} (c : client_call A) (b : A) (lo : local) : local :=
  match c in client_call A return A -> local with
  | JRun id token revision _ => fun b => match b with Ok false => lo <| lo_licence := Some {| f_id := id; f_token := token; f_revision := revision |} |> | _ => lo end
  | RGo (GExecute _ _ _ _) => fun _ => lo <| lo_licence := None |>
  | XExecute e token revision _ => fun _ => {| lo_licence := None; lo_reporter := Some {| f_id := e_CommandId e; f_token := token; f_revision := revision |} |}
  | XResult => fun _ => lo <| lo_reporter := None |>
  | _ => fun _ => lo
  end b.

Lemma reply_performs now {A} (c : client_call A) lo h : client_performs c lo h (fst (reply_to now c h)) (local_after c (fst (reply_to now c h)) lo) (snd (reply_to now c h)).
Proof.
  destruct c; cbn [reply_to client_performs local_after]; unfold journal_reply, sent_reply; cbn [fst snd]; try done;
    try (split; [done|]; exists fault_free; by destruct (_ : BoltJournal * _));
    try (split; [done|]; split; [done|]; by exists fault_free);
    try (split; [done|]; by left).
  - destruct (Verify _ _ _ _) as [r v] eqn:E. split; [done|]. exists false, (at_second now). by rewrite E.
  - split; [done|]. exists (at_second now), fault_free. by destruct (transition _ _ _ _).
  - exists (at_second now). split; [|done]. exists fault_free. by destruct (transition _ _ _ _).
  - split; [done|]. split; [done|]. intros ->. done.
  - split; [done|]. by destruct g.
  - split; [done|]. destruct (session (h_memory h)); (split; [|done]); [by left|right]. split; [done|]. by eexists.
  - split; [done|]. by destruct (retries (h_memory h) !! _).
  - split; [done|]. split; [done|]. intros ->. done.
  - split; [done|]. split; [done|]. intros ->. done.
Qed.

(** The next step of the loop, or of the goroutine [i]. *)
Definition step_main (now : Z) (a : agent) : agent :=
  match ag_process a with
  | None => a
  | Some p =>
      match pr_main p with
      | MBetween => with_main a p (MOpening (openSession (ag_client a)))
      | MOpening (Call c k) =>
          let '(b, h') := reply_to now c (ag_host a) in
          a <| ag_host := settled h' |> <| ag_process := Some {| pr_main := MOpening (k b); pr_local := local_after c b (pr_local p); pr_threads := pr_threads p ++ newborn h' |} |>
      | MOpening (Return r) => with_main a p (match r with Ok s => MServing s | Err e => MClosing e end)
      | MHandling s (Call c k) =>
          let '(b, h') := reply_to now c (ag_host a) in
          a <| ag_host := settled h' |> <| ag_process := Some {| pr_main := MHandling s (k b); pr_local := local_after c b (pr_local p); pr_threads := pr_threads p ++ newborn h' |} |>
      | MHandling s (Return r) => with_main a p (match r with Ok _ => MServing s | Err e => MClosing e end)
      | _ => a
      end
  end.
Definition step_thread (now : Z) (i : nat) (a : agent) : agent :=
  match ag_process a with
  | None => a
  | Some p =>
      match pr_threads p !! i with
      | Some (MkThread lo (Call c k)) =>
          let '(b, h') := reply_to now c (ag_host a) in
          a <| ag_host := settled h' |>
            <| ag_process := Some (p <| pr_threads := take i (pr_threads p) ++ MkThread (local_after c b lo) (k b) :: drop (S i) (pr_threads p) ++ newborn h' |>) |>
      | Some (MkThread lo (Return _)) => a <| ag_process := Some (p <| pr_threads := take i (pr_threads p) ++ drop (S i) (pr_threads p) |>) |>
      | None => a
      end
  end.

Lemma step_main_steps H now a : rtc (agent_step H) a (step_main now a).
Proof.
  unfold step_main. destruct (ag_process a) as [p|] eqn:Hp; [|done]. destruct (pr_main p) as [|[r|A c k]|s|s [r|A c k]|e|] eqn:Hm; try done.
  - apply rtc_once. by apply main_opens.
  - apply rtc_once. by apply main_opened.
  - pose proof (reply_performs now c (pr_local p) (ag_host a)) as Hr. destruct (reply_to now c (ag_host a)) as [b h']. apply rtc_once. by eapply main_opening.
  - apply rtc_once. by apply main_handled.
  - pose proof (reply_performs now c (pr_local p) (ag_host a)) as Hr. destruct (reply_to now c (ag_host a)) as [b h']. apply rtc_once. by eapply main_handling.
Qed.
Lemma step_thread_steps H now i a : rtc (agent_step H) a (step_thread now i a).
Proof.
  unfold step_thread. destruct (ag_process a) as [p|] eqn:Hp; [|done]. destruct (pr_threads p !! i) as [[lo [[]|A c k]]|] eqn:Hi; [| |done].
  - apply rtc_once. eapply thread_ends; [done|]. symmetry. by apply take_drop_middle.
  - pose proof (reply_performs now c lo (ag_host a)) as Hr. destruct (reply_to now c (ag_host a)) as [b h']. apply rtc_once.
    eapply thread_calls; [done|symmetry; by apply take_drop_middle|done].
Qed.

(** What is done with the agent: it is started, runs, receives message [i] of the wire, or is killed. *)
Inductive deed := Boot | Main (n : nat) | Thread (i n : nat) | Receive (i : nat) | Die.
Definition agent_act (w : world) (now : Z) (a : agent) (d : deed) : agent :=
  match d with
  | Boot =>
      match ag_process a, NewCommandVerifier (cc_agentID (ag_client a)) (cc_publicKey (ag_client a)) (Capabilities (executorRegistry (ag_client a))), recoverRunning sha256 marshal_result true true (h_journal (ag_host a)) (at_second now) with
      | None, Some v, (j', Ok _) => a <| ag_host ::= fun h => h <| h_journal := j' |> <| h_memory := fresh_memory v |> |> <| ag_process := Some fresh_process |>
      | _, _, _ => a
      end
  | Main n => Nat.iter n (step_main now) a
  | Thread i n => Nat.iter n (step_thread now i) a
  | Receive i =>
      match ag_process a, w_wire w !! i with
      | Some p, Some (id, m) =>
          match pr_main p with
          | MServing s =>
              if bool_decide (id = cc_agentID client)
              then a <| ag_process := Some {| pr_main := MHandling s (handleServerMessage (ag_client a) (Payload m)); pr_local := no_local; pr_threads := pr_threads p |} |>
              else a
          | _ => a
          end
      | _, _ => a
      end
  | Die => a <| ag_process := None |>
  end.
Definition agent_acts (w : world) (now : Z) (l : list deed) (a : agent) : agent := fold_left (agent_act w now) l a.

Lemma iter_steps {A} (R : relation A) (f : A -> A) n a : (forall a, rtc R a (f a)) -> rtc R a (Nat.iter n f a).
Proof. intros Hf. induction n as [|n IH]; [apply rtc_refl|]. cbn. etrans; [exact IH|apply Hf]. Qed.

Lemma agent_act_steps w now a d : rtc (agent_step (on_wire w (cc_agentID client))) a (agent_act w now a d).
Proof.
  destruct d as [|n|i n|i|]; cbn [agent_act].
  - destruct (ag_process a) as [p|] eqn:Hp; [done|]. destruct (NewCommandVerifier _ _ _) as [v|] eqn:Ev; [|done]. destruct (recoverRunning _ _ _ _ _ _) as [j' [[]|]] eqn:E; [|done]. apply rtc_once. by eapply agent_starts.
  - apply iter_steps, step_main_steps.
  - apply iter_steps, step_thread_steps.
  - destruct (ag_process a) as [p|] eqn:Hp; [|done]. destruct (w_wire w !! i) as [[id m]|] eqn:Hi; [|done]. destruct (pr_main p) eqn:Hm; try done. case_bool_decide as Hid; [|done].
    subst id. apply rtc_once. eapply main_receives; [done|done|]. by eapply wire_lookup.
  - apply rtc_once, agent_dies.
Qed.
Lemma agent_acts_steps w now l : forall a, rtc (agent_step (on_wire w (cc_agentID client))) a (agent_acts w now l a).
Proof. induction l as [|d l IH]; intros a; [apply rtc_refl|]. etrans; [apply agent_act_steps|apply IH]. Qed.

Definition universe_of (w : world) (a : agent) : universe := Universe w {[ cc_agentID client := a ]}.

Lemma agents_in_universe w a a' : rtc (agent_step (on_wire w (cc_agentID client))) a a' -> rtc universe_step (universe_of w a) (universe_of w a').
Proof.
  intros Hst. induction Hst as [a|a a1 a' H1 _ IH]; [apply rtc_refl|]. eapply rtc_l; [|exact IH].
  assert (universe_of w a1 = Universe w (<[cc_agentID client := a1]> {[ cc_agentID client := a ]})) as -> by (unfold universe_of; by rewrite insert_singleton_eq).
  apply universe_agent with (a := a); [|done]. apply lookup_singleton_eq.
Qed.
Lemma worlds_in_universe w w' ags : rtc world_step w w' -> rtc universe_step (Universe w ags) (Universe w' ags).
Proof. intros Hst. induction Hst as [w|w w1 w' H1 _ IH]; [apply rtc_refl|]. eapply rtc_l; [by apply universe_world|done]. Qed.

Lemma universe_of_reachable w : reachable_world w -> reachable_universe (universe_of w (new_agent client)).
Proof.
  intros Hr. unfold reachable_universe. etrans; [by apply worlds_in_universe|]. apply rtc_once. apply (universe_installs w ∅ client). apply lookup_empty.
Qed.
Lemma acted_reachable w now l a : reachable_universe (universe_of w a) -> reachable_universe (universe_of w (agent_acts w now l a)).
Proof. unfold reachable_universe. intros Hr. etrans; [exact Hr|]. apply agents_in_universe, agent_acts_steps. Qed.

(** The agent connects and prepares its command; both copies of the start arrive; the command runs, and its result is acknowledged. *)
Definition readied : agent := agent_acts ended 11 [Boot; Main 20; Receive 1; Main 20] (new_agent client).
Definition under_way : agent := agent_acts ended 12 [Receive 2; Main 20; Receive 3; Main 30] readied.
Definition reported : agent := agent_acts ended 13 [Thread 0 20; Receive 4; Main 20] under_way.
(** It is killed, comes up again and hears everything once more. *)
Definition revived : agent := agent_acts ended 14 [Die; Boot; Main 20; Receive 1; Main 20; Receive 2; Main 20; Receive 4; Main 20] reported.

Lemma revived_reachable : reachable_universe (universe_of ended revived).
Proof. do 4 apply acted_reachable. apply universe_of_reachable, ended_reachable. Qed.

Definition execution : launch := {| l_fence := {| f_id := "command-1"; f_token := replicate 32 5; f_revision := 1 |}; l_envelope := signed |}.
Lemma revived_launched : h_launched (ag_host revived) = [execution].
Proof. vm_compute. reflexivity. Qed.
Lemma revived_executed : executed_by (universe_of ended revived) "host-1" 0 execution.
Proof. exists revived. split; [apply lookup_singleton_eq|]. by rewrite revived_launched. Qed.

Lemma revived_steps : rtc (agent_step (on_wire ended "host-1")) (new_agent client) revived.
Proof.
  transitivity readied; [apply agent_acts_steps|]. transitivity under_way; [apply agent_acts_steps|]. transitivity reported; [apply agent_acts_steps|]. apply agent_acts_steps.
Qed.

Lemma agents_execute_genuine_commands_once_witness : licensed (on_wire ended "host-1") client execution /\ length (h_launched (ag_host revived)) = 1%nat.
Proof.
  destruct (agents_execute_genuine_commands_once (on_wire ended "host-1") client revived revived_steps) as [Hl _]. rewrite revived_launched in *. split; [by apply Forall_cons in Hl as [Hl _]|reflexivity].
Defined.

Lemma commands_execute_at_most_once_witness : executed_by (universe_of ended revived) "host-1" 0 execution /\
  forall agentID i l, executed_by (universe_of ended revived) agentID i l -> f_id (l_fence l) = "command-1"%string -> "host-1"%string = agentID /\ 0%nat = i.
Proof.
  split; [exact revived_executed|]. intros agentID i l Hx Hid.
  exact (commands_execute_at_most_once (universe_of ended revived) "host-1" 0 execution agentID i l revived_reachable revived_executed Hx (eq_sym Hid)).
Defined.

Lemma executions_are_authorised_witness : authorised (w_db (u_world (universe_of ended revived))) "host-1" execution.
Proof. exact (executions_are_authorised (universe_of ended revived) "host-1" 0 execution revived_reachable revived_executed). Defined.

(** The job is called off before its agent hears of it; later the agent hears all there is. *)
Definition spared : agent := agent_acts called_off_later 11 [Boot; Main 20; Receive 1; Main 20] (new_agent client).

Lemma called_off_reachable : reachable_world called_off.
Proof. apply acts_reachable, created_reachable. Qed.
Lemma spared_later : rtc universe_step (universe_of called_off (new_agent client)) (universe_of called_off_later spared).
Proof.
  transitivity (universe_of called_off_later (new_agent client)); [unfold called_off_later; apply worlds_in_universe, acts_steps|unfold spared; apply agents_in_universe, agent_acts_steps].
Qed.

Lemma cancelled_commands_never_execute_witness : h_launched (ag_host spared) = [] /\
  forall agentID i l, executed_by (universe_of called_off_later spared) agentID i l -> f_id (l_fence l) <> "command-1"%string.
Proof.
  split; [vm_compute; reflexivity|]. intros agentID i l Hx.
  assert (E : exists r, outbox (w_db (u_world (universe_of called_off (new_agent client)))) !! "command-1"%string = Some r /\ is_Some (o_CancellationRequestedAt (message r)) /\ o_ExecutionRevision (message r) = 0).
  { eexists. split; [vm_compute; reflexivity|]. split; [eexists; reflexivity|reflexivity]. }
  destruct E as (r & E & Hc & Hz). refine (cancelled_commands_never_execute (universe_of called_off (new_agent client)) (universe_of called_off_later spared) "command-1" r agentID i l
    (universe_of_reachable _ called_off_reachable) spared_later E Hc Hz Hx).
Defined.

Lemma ended_validates_nothing : ~ validates "command-1" (w_db (u_world (universe_of ended revived))).
Proof.
  intros (row & en & H1 & H2 & H3).
  assert (E : match outbox (w_db (u_world (universe_of ended revived))) !! "command-1"%string with
              | Some row => match decodeUnsignedCommandShape (message row) with Ok e => isValidateCommand (e_Command e) | Err _ => false end
              | None => false
              end = false) by (vm_compute; reflexivity).
  rewrite H1, H2, H3 in E. discriminate.
Qed.

Lemma reported_results_are_stored_witness : exists e, commands (h_journal (ag_host revived)) !! "command-1"%string = Some (Encoded e) /\ ReportedAtUnixNano e <> 0 /\
  settled_truly (w_db (u_world (universe_of ended revived))) "host-1" "command-1" e.
Proof.
  assert (E : exists e, commands (h_journal (ag_host revived)) !! "command-1"%string = Some (Encoded e) /\ ReportedAtUnixNano e <> 0).
  { eexists. split; [vm_compute; reflexivity|]. done. }
  destruct E as (e & E & Hz). exists e. split; [exact E|]. split; [exact Hz|].
  destruct (reported_results_are_stored (universe_of ended revived) "host-1" revived "command-1" e revived_reachable) as [Hv|Hs]; [apply lookup_singleton_eq|exact E| |exact Hs].
  destruct (ended_validates_nothing Hv).
Defined.
End EndToEndDemo.
