(* ===== verification/Database.v ===== *)
(** * Statements and transactions

    Repositories as functions on a connection: the data that is committed, what
    becomes of the next calls, and whether a transaction is open.  A call
    succeeds, fails with some error, or (outside a transaction, and for a
    commit) takes effect and loses its reply.  A failed statement aborts its
    transaction.  Transactions are atomic: the code runs the ones that write at
    the serializable level.  Programs are reasoned about with Hoare triples. *)

From S2P Require Import Prelude.

(** The classes of errors that repositories tell apart; a foreign key is in the class of unique constraints. *)
Inductive pg_error := SerializationFailure | DeadlockDetected | UniqueViolation | CheckViolation | OtherFailure.
Inductive fault := Done | Fails (e : pg_error) | Lost (e : pg_error).

Section connections.
Context {D : Type}.

Record conn := MkConn { data : D; faults : list fault; in_tx : bool; aborted : bool }.
Definition Conn (A : Type) : Type := conn -> A * conn.

Definition next_fault (c : conn) : fault := match faults c with x :: _ => x | [] => Done end.
Definition with_data (c : conn) (d : D) (ab : bool) : conn := MkConn d (tail (faults c)) (in_tx c) ab.

Definition ret {A} (a : A) : Conn A := fun c => (a, c).
Definition bind {A B} (m : Conn A) (f : A -> Conn B) : Conn B := fun c => let '(a, c') := m c in f a c'.

(** A statement, or a query. *)
Definition statement {A} (f : D -> result pg_error (A * D)) : Conn (result pg_error A) := fun c =>
  if aborted c then (Err OtherFailure, c)
  else
    match next_fault c with
    | Fails e => (Err e, with_data c (data c) (in_tx c))
    | Lost e => match in_tx c, f (data c) with false, Ok (_, d) => (Err e, with_data c d false) | _, _ => (Err e, with_data c (data c) (in_tx c)) end
    | Done => match f (data c) with Ok (a, d) => (Ok a, with_data c d false) | Err e => (Err e, with_data c (data c) (in_tx c)) end
    end.
Definition query {A} (f : D -> A) : Conn (result pg_error A) := statement (fun d => Ok (f d, d)).

(** How the body of a transaction ends. *)
Inductive tx_end (A : Type) := Commit (a : A) | Rollback (a : A).
Arguments Commit {A}. Arguments Rollback {A}.

Definition transaction {A} (begin_failed commit_failed : pg_error -> A) (body : Conn (tx_end A)) : Conn A := fun c =>
  match next_fault c with
  | Fails e | Lost e => (begin_failed e, with_data c (data c) false)
  | Done =>
      let '(out, c') := body (MkConn (data c) (tail (faults c)) true false) in
      let finished d := MkConn d (faults c') false false in
      match out with
      | Rollback a => (a, finished (data c))
      | Commit a =>
          let over d := MkConn d (tail (faults c')) false false in
          if aborted c' then (commit_failed OtherFailure, over (data c))
          else match next_fault c' with
               | Done => (a, over (data c'))
               | Fails e => (commit_failed e, over (data c))
               | Lost e => (commit_failed e, over (data c'))
               end
      end
  end.

(** ** Triples *)

(** From data with [P], whatever fails: the reply and the data after satisfy [Q]. *)
Definition triple {A} (P : D -> Prop) (m : Conn A) (Q : A -> D -> Prop) : Prop := forall c, P (data c) -> Q (fst (m c)) (data (snd (m c))).

Lemma triple_ret {A} P (a : A) (Q : A -> D -> Prop) : (forall d, P d -> Q a d) -> triple P (ret a) Q.
Proof. intros H c Hp. by apply H. Qed.
Lemma triple_bind {A B} P (m : Conn A) (f : A -> Conn B) R Q : triple P m R -> (forall a, triple (R a) (f a) Q) -> triple P (bind m f) Q.
Proof. intros Hm Hf c Hp. unfold bind. specialize (Hm c Hp). destruct (m c) as [a c']. by apply Hf. Qed.
Lemma triple_weaken {A} (P P' : D -> Prop) (m : Conn A) (Q Q' : A -> D -> Prop) : triple P m Q -> (forall d, P' d -> P d) -> (forall a d, Q a d -> Q' a d) -> triple P' m Q'.
Proof. intros Hm Hp Hq c Hc. apply Hq, Hm, Hp, Hc. Qed.
Lemma triple_and {A} P (m : Conn A) (Q R : A -> D -> Prop) : triple P m Q -> triple P m R -> triple P m (fun a d => Q a d /\ R a d).
Proof. intros H1 H2 c Hc. split; [by apply H1|by apply H2]. Qed.
(** The data before may be named. *)
Lemma triple_at {A} P (m : Conn A) Q : (forall d0, P d0 -> triple (fun d => d = d0) m Q) -> triple P m Q.
Proof. intros H c Hp. by apply (H (data c) Hp). Qed.

Lemma triple_statement {A} P (f : D -> result pg_error (A * D)) (Q : result pg_error A -> D -> Prop) :
  (forall d e, P d -> Q (Err e) d) -> (forall d a d', P d -> f d = Ok (a, d') -> Q (Ok a) d' /\ forall e, Q (Err e) d') -> triple P (statement f) Q.
Proof.
  intros He Hf c Hp. unfold statement. destruct (aborted c); [by apply He|]. destruct (next_fault c) as [|e|e]; [|by apply He|].
  - destruct (f (data c)) as [[a d]|e] eqn:E; [by apply (Hf _ _ _ Hp E)|by apply He].
  - destruct (in_tx c); [by apply He|]. destruct (f (data c)) as [[a d]|e'] eqn:E; [by apply (Hf _ _ _ Hp E)|by apply He].
Qed.
Lemma triple_query {A} P (f : D -> A) (Q : result pg_error A -> D -> Prop) :
  (forall d e, P d -> Q (Err e) d) -> (forall d, P d -> Q (Ok (f d)) d) -> triple P (query f) Q.
Proof. intros He Hf. apply triple_statement; [done|]. intros d a d' Hp [= <- <-]. split; [by apply Hf|intros e; by apply He]. Qed.

Lemma triple_transaction {A} P begin_failed commit_failed (body : Conn (tx_end A)) (Q : A -> D -> Prop) :
  (forall d e, P d -> Q (begin_failed e) d /\ Q (commit_failed e) d) ->
  (forall d0, P d0 -> triple (fun d => d = d0) body (fun out d => match out with Commit a => Q a d /\ forall e, Q (commit_failed e) d | Rollback a => Q a d0 end)) ->
  triple P (transaction begin_failed commit_failed body) Q.
Proof.
  intros He Hb c Hp. unfold transaction. destruct (next_fault c) as [|e|e]; [|by apply (He _ e Hp)..].
  specialize (Hb (data c) Hp (MkConn (data c) (tail (faults c)) true false) eq_refl). destruct (body _) as [out c']. cbn [fst snd] in Hb.
  destruct out as [a|a]; [|exact Hb]. destruct Hb as [Hq Hc]. destruct (aborted c'); [by apply (He _ OtherFailure Hp)|].
  destruct (next_fault c') as [|e|e]; [exact Hq|by apply (He _ e Hp)|apply Hc].
Qed.
End connections.
Arguments conn : clear implicits.
Arguments Conn : clear implicits.
Arguments Commit {A}. Arguments Rollback {A}.

Declare Scope conn_scope.
Delimit Scope conn_scope with conn.
Notation "x <- m ;; f" := (bind m (fun x => f)) (at level 100, m at next level, right associativity) : conn_scope.

(** Walks through a program of statements. *)
Ltac triple_step :=
  lazymatch goal with
  | |- triple _ (bind _ _) _ => eapply triple_bind
  | |- triple _ (ret _) _ => apply triple_ret
  | |- triple _ (if ?b then _ else _) _ => let E := fresh "E" in destruct b eqn:E
  | |- triple _ (match ?x with _ => _ end) _ => let E := fresh "E" in destruct x eqn:E
  end.
