(* ===== verification/HostInventory.v ===== *)
(** * Managed hosts

    [hostinventory/model.go], [hostinventory/postgres.go] and
    [hostinventory/service.go]: hosts with their validation and status, the
    tables of managed hosts and of their observations, and the service on top.
    The database of this component also has the tables of [enrollment], which a
    trigger changes when a host is decommissioned.

    JSON columns hold the values they encode: the strings in them are valid
    UTF-8 when they are written, and a document that PostgreSQL refuses is a
    failed statement.  Every statement succeeds, fails, or takes effect and
    loses its reply, as a list of verdicts says. *)

From S2P Require Import Prelude GoText JobModel JobRepository Database.

Open Scope Z_scope.
Open Scope update_scope.

(** ** UTF-8 and patterns *)

(** The width of the first encoded rune; [None] is an invalid byte. *)
Definition continuation (n : Z) : bool := (128 <=? n) && (n <=? 191).
Definition rune_width (l : list Z) : option nat :=
  match l with
  | a :: rest =>
      if a <? 128 then Some 1%nat
      else if (194 <=? a) && (a <=? 223) then match rest with b :: _ => if continuation b then Some 2%nat else None | _ => None end
      else if (224 <=? a) && (a <=? 239) then
        match rest with
        | b :: c :: _ =>
            if continuation b && continuation c && ((negb (a =? 224)) || (160 <=? b)) && ((negb (a =? 237)) || (b <=? 159)) then Some 3%nat else None
        | _ => None
        end
      else if (240 <=? a) && (a <=? 244) then
        match rest with
        | b :: c :: d :: _ =>
            if continuation b && continuation c && continuation d && ((negb (a =? 240)) || (144 <=? b)) && ((negb (a =? 244)) || (b <=? 143)) then Some 4%nat else None
        | _ => None
        end
      else None
  | [] => None
  end.
(** The runes of a text, [false] for an invalid byte; the fuel is its length. *)
Fixpoint runes (fuel : nat) (l : list Z) : list bool :=
  match fuel, l with
  | S fuel, _ :: rest => match rune_width l with Some n => true :: runes fuel (drop n l) | None => false :: runes fuel rest end
  | _, _ => []
  end.
Definition runes_of (s : string) : list bool := runes (String.length s) (bytes_of s).
Definition ValidString (s : string) : bool := forallb id (runes_of s).
Definition RuneCountInString (s : string) : nat := length (runes_of s).

(** A pattern of one character, then at most [maximum] others. *)
Definition word (first rest : Z -> bool) (maximum : nat) (s : string) : bool :=
  match bytes_of s with a :: l => first a && forallb rest l && (length l <=? maximum)%nat | [] => false end.
Definition is_alnum (c : Z) : bool := is_letter c || is_digit c.
Definition is_lower (c : Z) : bool := (97 <=? c) && (c <=? 122).
Definition is_hex (c : Z) : bool := is_digit c || ((97 <=? c) && (c <=? 102)).
Definition one_of_bytes (l : list Z) (c : Z) : bool := existsb (Z.eqb c) l.

Definition identifierPattern : string -> bool := word is_alnum (fun c => is_alnum c || one_of_bytes [46; 95; 58; 45] c) 127.
Definition capabilityPattern : string -> bool := word is_lower (fun c => is_lower c || is_digit c || one_of_bytes [95; 46; 45] c) 127.
Definition labelNamePattern : string -> bool := word is_alnum (fun c => is_alnum c || one_of_bytes [95; 46; 45] c) 63.
Definition hex_of (n : nat) (s : string) : bool := (String.length s =? n)%nat && forallb is_hex (bytes_of s).
Definition fingerprintPattern (s : string) : bool := HasPrefix "sha256:" s && hex_of 64 (TrimPrefix "sha256:" s).
Definition ownerTokenPattern (s : string) : bool := HasPrefix "owner-" s && hex_of 64 (TrimPrefix "owner-" s).
Definition fingerprintHexPattern : string -> bool := hex_of 64.
Definition serialPattern (s : string) : bool := negb (empty_string s) && forallb is_hex (bytes_of s).

(** ** Hosts *)

Inductive HostError := ErrInvalid | ErrNotFound | ErrConflict | ErrStaleRevision | ErrDecommissioned | ErrStorage.
Inductive HostStatus := HostPending | HostEnrolling | HostOnline | HostStale | HostOffline | HostDecommissioned | HostUnknown (name : string).
Inductive ContainerRuntime := ContainerRuntimeNone | ContainerRuntimeDocker | ContainerRuntimeOther (name : string).
#[global] Instance HostStatus_eq_dec : EqDecision HostStatus.
Proof. solve_decision. Defined.
#[global] Instance ContainerRuntime_eq_dec : EqDecision ContainerRuntime.
Proof. solve_decision. Defined.

Record Capability := { cap_Name : string; cap_Available : bool; cap_Reason : string }.
Record ResourceSummary := { Capacity : Z; Available : Z }.
Record FilesystemSummary := { MountPoint : string; CapacityBytes : Z; AvailableBytes : Z }.
Record DecommissionTransition := { dt_Actor : string; dt_OperationID : string; dt_IdempotencyKey : string; dt_Fingerprint : string; dt_OwnerToken : string }.
#[global] Instance DecommissionTransition_eq_dec : EqDecision DecommissionTransition.
Proof. solve_decision. Defined.

Record Host := MkHost {
  ho_Scope : JobScope; ho_ID : string; ho_AgentID : string; ho_DisplayName : string; ho_Hostname : string; ho_OperatingSystem : string; ho_OperatingSystemVersion : string;
  ho_KernelVersion : string; ho_Architecture : string; ho_CPU : ResourceSummary; ho_Memory : ResourceSummary; ho_Filesystems : list FilesystemSummary;
  ho_NetworkAddresses : list string; ho_Labels : gmap string string; ho_ContainerRuntime : ContainerRuntime; ho_Capabilities : list Capability; ho_AgentVersion : string;
  ho_EnrollmentRevision : Z; ho_CredentialGeneration : Z; ho_CertificateFingerprint : string; ho_CertificateSerial : string; ho_CredentialRevokedAt : option time;
  ho_ObservationRevision : Z; ho_EnrolledAt : time; ho_LastHelloAt : time; ho_LastHeartbeatAt : time; ho_Status : HostStatus; ho_Version : Z;
  ho_DecommissionTransition : option DecommissionTransition;
}.
#[global] Instance Host_eta : Eta Host := fun h => MkHost (ho_Scope h) (ho_ID h) (ho_AgentID h) (ho_DisplayName h) (ho_Hostname h) (ho_OperatingSystem h)
  (ho_OperatingSystemVersion h) (ho_KernelVersion h) (ho_Architecture h) (ho_CPU h) (ho_Memory h) (ho_Filesystems h) (ho_NetworkAddresses h) (ho_Labels h)
  (ho_ContainerRuntime h) (ho_Capabilities h) (ho_AgentVersion h) (ho_EnrollmentRevision h) (ho_CredentialGeneration h) (ho_CertificateFingerprint h)
  (ho_CertificateSerial h) (ho_CredentialRevokedAt h) (ho_ObservationRevision h) (ho_EnrolledAt h) (ho_LastHelloAt h) (ho_LastHeartbeatAt h) (ho_Status h) (ho_Version h)
  (ho_DecommissionTransition h).

Record Observation := {
  obs_HostID : string; obs_AgentID : string; obs_Revision : Z; obs_AgentVersion : string; obs_Hostname : string; obs_OS : string; obs_OSVersion : string; obs_Kernel : string;
  obs_Architecture : string; obs_LogicalCPUCount : Z; obs_MemoryCapacityBytes : Z; obs_Filesystems : list FilesystemSummary; obs_NetworkAddresses : list string;
  obs_Capabilities : list string; obs_ObservedAt : time;
}.
Record EnrollmentData := { en_HostID : string; en_AgentID : string; en_DisplayName : string; en_Labels : gmap string string; en_Revision : Z; en_EnrolledAt : time }.
Record Filter := { fi_Status : option HostStatus; fi_Cursor : string; fi_Limit : Z; fi_now : time; fi_staleAfter : Z; fi_offlineAfter : Z }.
Record Page := { Items : list Host; NextCursor : string }.

Definition DefaultListLimit : Z := 50.
Definition MaximumListLimit : Z := 100.

(** ** Validation *)

Definition boundedRequired (value : string) (maximum : nat) : bool :=
  negb (empty_string value) && trimmed value && ValidString value && (RuneCountInString value <=? maximum)%nat.
Definition boundedOptional (value : string) (maximum : nat) : bool := empty_string value || boundedRequired value maximum.
Definition validUTC (value : time) : bool := negb (IsZero value) && in_utc value.
Definition validOptionalUTC (value : time) : bool := IsZero value || validUTC value.
Definition validResource (value : ResourceSummary) : bool := (Capacity value <=? int64_max) && (Available value <=? Capacity value).
Definition validPostgresRevision (value : Z) (zeroAllowed : bool) : bool := (value <=? int64_max) && (zeroAllowed || (0 <? value)).

(** Every value is valid and none occurs twice. *)
Fixpoint valid_once {A} (key : A -> string) (valid : A -> bool) (seen : gset string) (values : list A) : bool :=
  match values with
  | [] => true
  | value :: rest => valid value && negb (bool_decide (key value ∈ seen)) && valid_once key valid ({[ key value ]} ∪ seen) rest
  end.

Definition validFilesystem (value : FilesystemSummary) : bool :=
  boundedRequired (MountPoint value) 512 && (CapacityBytes value <=? int64_max) && (AvailableBytes value <=? CapacityBytes value).
Definition validFilesystems (values : list FilesystemSummary) : bool := (length values <=? 128)%nat && valid_once MountPoint validFilesystem ∅ values.
Definition validUniqueStrings (values : list string) (maximumItems maximumLength : nat) (capabilityNames : bool) : bool :=
  (length values <=? maximumItems)%nat && valid_once id (fun value => boundedRequired value maximumLength && (negb capabilityNames || capabilityPattern value)) ∅ values.
Definition validLabels (values : gmap string string) : bool :=
  (size values <=? 32)%nat && forallb (fun '(name, value) => labelNamePattern name && boundedOptional value 128) (map_to_list values).
Definition validCapabilityReason (value : string) : bool :=
  bool_decide (value ∈ ["agent_unsupported"; "docker_discovery_unavailable"; "plugin_not_installed"; "plugin_version_incompatible"; "permission_denied"]%string).
Definition validCapability (value : Capability) : bool :=
  capabilityPattern (cap_Name value) && (empty_string (cap_Reason value) || validCapabilityReason (cap_Reason value)) && negb (cap_Available value && negb (empty_string (cap_Reason value))).
Definition validCapabilities (values : list Capability) : bool := (length values <=? 64)%nat && valid_once cap_Name validCapability ∅ values.
Definition validHostStatus (value : HostStatus) : bool := match value with HostUnknown _ => false | _ => true end.
Definition validContainerRuntime (value : ContainerRuntime) : bool := match value with ContainerRuntimeOther _ => false | _ => true end.

Definition Transition_Validate (t : DecommissionTransition) : bool :=
  boundedRequired (dt_Actor t) 256 && bool_decide (dt_OperationID t = "decommissionHost"%string) && boundedRequired (dt_IdempotencyKey t) 256 && fingerprintPattern (dt_Fingerprint t)
  && ownerTokenPattern (dt_OwnerToken t).
Definition Matches (t expected : DecommissionTransition) : bool := Transition_Validate t && Transition_Validate expected && bool_decide (t = expected).

Definition Enrollment_Validate (e : EnrollmentData) : bool :=
  identifierPattern (en_HostID e) && identifierPattern (en_AgentID e) && boundedRequired (en_DisplayName e) 120 && validLabels (en_Labels e)
  && validPostgresRevision (en_Revision e) false && validUTC (en_EnrolledAt e).

Definition validCredentialState (h : Host) : bool :=
  let decommissioned := bool_decide (ho_Status h = HostDecommissioned) in
  let active := (0 <? ho_CredentialGeneration h) && fingerprintHexPattern (ho_CertificateFingerprint h) && serialPattern (ho_CertificateSerial h)
                && bool_decide (ho_CredentialRevokedAt h = None) && negb decommissioned in
  let legacy := (ho_CredentialGeneration h =? 0) && empty_string (ho_CertificateFingerprint h) && empty_string (ho_CertificateSerial h) && bool_decide (ho_CredentialRevokedAt h = None) in
  let revoked := (0 <? ho_CredentialGeneration h) && empty_string (ho_CertificateFingerprint h) && empty_string (ho_CertificateSerial h)
                 && match ho_CredentialRevokedAt h with Some at_ => validUTC at_ | None => false end && decommissioned in
  active || legacy || revoked.

Definition Host_Validate (h : Host) : bool :=
  Scope_Validate (ho_Scope h) && identifierPattern (ho_ID h) && identifierPattern (ho_AgentID h) && boundedRequired (ho_DisplayName h) 120 && boundedRequired (ho_Hostname h) 253
  && boundedRequired (ho_OperatingSystem h) 64 && boundedOptional (ho_OperatingSystemVersion h) 128 && boundedOptional (ho_KernelVersion h) 128 && boundedRequired (ho_Architecture h) 32
  && boundedOptional (ho_AgentVersion h) 64 && validPostgresRevision (ho_EnrollmentRevision h) false && validPostgresRevision (ho_CredentialGeneration h) true && validCredentialState h
  && validPostgresRevision (ho_ObservationRevision h) true && validPostgresRevision (ho_Version h) false && validUTC (ho_EnrolledAt h) && validOptionalUTC (ho_LastHelloAt h)
  && validOptionalUTC (ho_LastHeartbeatAt h) && validHostStatus (ho_Status h) && validContainerRuntime (ho_ContainerRuntime h) && validResource (ho_CPU h) && validResource (ho_Memory h)
  && validFilesystems (ho_Filesystems h) && validUniqueStrings (ho_NetworkAddresses h) 32 64 false && validLabels (ho_Labels h) && validCapabilities (ho_Capabilities h)
  && match ho_DecommissionTransition h with Some t => bool_decide (ho_Status h = HostDecommissioned) && Transition_Validate t | None => true end.

Definition Observation_Validate (o : Observation) : bool :=
  identifierPattern (obs_HostID o) && identifierPattern (obs_AgentID o) && validPostgresRevision (obs_Revision o) false && boundedRequired (obs_Hostname o) 253
  && boundedRequired (obs_OS o) 64 && boundedOptional (obs_OSVersion o) 128 && boundedOptional (obs_Kernel o) 128 && boundedRequired (obs_Architecture o) 32
  && boundedOptional (obs_AgentVersion o) 64 && negb (obs_LogicalCPUCount o =? 0) && negb (obs_MemoryCapacityBytes o =? 0) && (obs_MemoryCapacityBytes o <=? int64_max)
  && validFilesystems (obs_Filesystems o) && validUniqueStrings (obs_NetworkAddresses o) 32 64 false && validUniqueStrings (obs_Capabilities o) 64 128 true && validUTC (obs_ObservedAt o).

Definition Filter_Validate (f : Filter) : bool :=
  (0 <=? fi_Limit f) && (fi_Limit f <=? MaximumListLimit) && match fi_Status f with Some s => validHostStatus s | None => true end
  && (empty_string (fi_Cursor f) || trimmed (fi_Cursor f) && (RuneCountInString (fi_Cursor f) <=? 512)%nat).

(** ** Status *)

Definition ClassifyHost (now : time) (h : Host) (staleAfter offlineAfter : Z) : HostStatus :=
  if bool_decide (ho_Status h = HostDecommissioned) then HostDecommissioned
  else if bool_decide (ho_Status h = HostPending) || bool_decide (ho_Status h = HostEnrolling) then ho_Status h
  else if IsZero now || (staleAfter <=? 0) || (offlineAfter <=? staleAfter) || IsZero (ho_LastHeartbeatAt h) then HostOffline
  else
    let age := SubTime now (ho_LastHeartbeatAt h) in
    if age <=? staleAfter then HostOnline else if age <=? offlineAfter then HostStale else HostOffline.

Definition CanTransitionHostStatus (from to_ : HostStatus) : bool :=
  if bool_decide (from = to_) then validHostStatus from
  else if bool_decide (to_ = HostDecommissioned) then validHostStatus from && negb (bool_decide (from = HostDecommissioned))
  else
    match from, to_ with
    | HostPending, HostEnrolling | HostEnrolling, HostOnline | HostOnline, HostStale | HostOnline, HostOffline | HostStale, HostOnline | HostStale, HostOffline
    | HostOffline, HostOnline => true
    | _, _ => false
    end.

(** ** Tables *)

(** What PostgreSQL does with values of columns: timestamps have a resolution, texts an order. *)
Class PgColumns := { timestamptz : time -> time; text_less : string -> string -> bool }.

Record hostRow := MkHostRow {
  hr_scope : JobScope; hr_host_id : string; hr_agent_id : string; hr_display_name : string; hr_hostname : string; hr_operating_system : string; hr_operating_system_version : string;
  hr_kernel_version : string; hr_architecture : string; hr_logical_cpu_count : Z; hr_memory_capacity_bytes : Z; hr_filesystems : list FilesystemSummary;
  hr_network_addresses : list string; hr_labels : gmap string string; hr_container_runtime : ContainerRuntime; hr_capabilities : list Capability; hr_agent_version : string;
  hr_enrollment_revision : Z; hr_credential_generation : Z; hr_fingerprint : bytes; hr_serial : string; hr_credential_revoked_at : option time; hr_observation_revision : Z;
  hr_enrolled_at : time; hr_last_hello_at : option time; hr_last_heartbeat_at : option time; hr_status : HostStatus; hr_version : Z;
  hr_decommission : option DecommissionTransition; hr_updated_at : time;
}.
#[global] Instance hostRow_eta : Eta hostRow := fun r => MkHostRow (hr_scope r) (hr_host_id r) (hr_agent_id r) (hr_display_name r) (hr_hostname r) (hr_operating_system r)
  (hr_operating_system_version r) (hr_kernel_version r) (hr_architecture r) (hr_logical_cpu_count r) (hr_memory_capacity_bytes r) (hr_filesystems r) (hr_network_addresses r)
  (hr_labels r) (hr_container_runtime r) (hr_capabilities r) (hr_agent_version r) (hr_enrollment_revision r) (hr_credential_generation r) (hr_fingerprint r) (hr_serial r)
  (hr_credential_revoked_at r) (hr_observation_revision r) (hr_enrolled_at r) (hr_last_hello_at r) (hr_last_heartbeat_at r) (hr_status r) (hr_version r) (hr_decommission r)
  (hr_updated_at r).

Record observationRow := { or_agent_id : string; or_snapshot : Observation; or_observed_at : time; or_received_at : time }.

(** Who an enrollment is for: [tenant_id], [project_id], [host_id], [agent_id]. *)
Record identity := { id_scope : JobScope; id_host : string; id_agent : string }.
#[global] Instance identity_eq_dec : EqDecision identity.
Proof. solve_decision. Defined.
#[global] Instance identity_countable : Countable identity.
Proof. apply (inj_countable' (fun i => (id_scope i, id_host i, id_agent i)) (fun p => {| id_scope := p.1.1; id_host := p.1.2; id_agent := p.2 |})). by intros []. Defined.

Record tokenRow := MkTokenRow {
  tk_identity : identity; tk_display_name : string; tk_labels : gmap string string; tk_expires_at : time; tk_created_at : time; tk_consumed_at : option time;
  tk_enrollment_revision : Z; tk_issued_by : string; tk_idempotency_key : string; tk_request_fingerprint : string; tk_generation : Z;
}.
#[global] Instance tokenRow_eta : Eta tokenRow := fun r => MkTokenRow (tk_identity r) (tk_display_name r) (tk_labels r) (tk_expires_at r) (tk_created_at r) (tk_consumed_at r)
  (tk_enrollment_revision r) (tk_issued_by r) (tk_idempotency_key r) (tk_request_fingerprint r) (tk_generation r).
Record issuanceRow := MkIssuanceRow {
  is_csr_digest : bytes; is_identity : identity; is_certificate_pem : bytes; is_certificate_chain_pem : bytes; is_expires_at : time; is_issued_at : time;
  is_enrollment_revision : Z; is_credential_generation : Z; is_fingerprint : bytes; is_serial : string; is_revoked_at : option time;
}.
#[global] Instance issuanceRow_eta : Eta issuanceRow := fun r => MkIssuanceRow (is_csr_digest r) (is_identity r) (is_certificate_pem r) (is_certificate_chain_pem r)
  (is_expires_at r) (is_issued_at r) (is_enrollment_revision r) (is_credential_generation r) (is_fingerprint r) (is_serial r) (is_revoked_at r).
Record importRow := { im_fingerprint : bytes; im_serial : string; im_imported_at : time }.
Record enrollmentAudit := { au_scope : JobScope; au_action : string; au_actor : string; au_host : string; au_operation : string; au_generation : Z }.

(** Tables by primary key: hosts by [host_id], tokens and issuances by [token_hash], imports by identity. *)
Record inventory := Inventory {
  hosts : gmap string hostRow; observations : gmap (JobScope * string * Z) observationRow; tokens : gmap bytes tokenRow; issuances : gmap bytes issuanceRow;
  imports : gmap identity importRow; audit_events : gmap string enrollmentAudit;
}.
#[global] Instance inventory_eta : Eta inventory := fun d => Inventory (hosts d) (observations d) (tokens d) (issuances d) (imports d) (audit_events d).

Definition row_identity (r : hostRow) : identity := {| id_scope := hr_scope r; id_host := hr_host_id r; id_agent := hr_agent_id r |}.
Definition any {K V} `{Countable K} (f : K -> V -> bool) (m : gmap K V) : bool := existsb (fun '(k, v) => f k v) (map_to_list m).

(** [managed_hosts_active_credential_shape] *)
Definition credential_shape (r : hostRow) : bool :=
  let decommissioned := bool_decide (hr_status r = HostDecommissioned) in
  let absent := bool_decide (hr_fingerprint r = []) && empty_string (hr_serial r) in
  (length (hr_fingerprint r) =? sha256_Size)%nat && negb (empty_string (hr_serial r)) && (1 <=? hr_credential_generation r) && bool_decide (hr_credential_revoked_at r = None) && negb decommissioned
  || absent && bool_decide (hr_credential_revoked_at r = None) && (hr_credential_generation r =? 0)
  || absent && negb (bool_decide (hr_credential_revoked_at r = None)) && (1 <=? hr_credential_generation r) && decommissioned.

(** The row collides with another host: the agent, or the active certificate, is taken. *)
Definition collides (r : hostRow) (d : inventory) : bool :=
  any (fun host other => negb (bool_decide (host = hr_host_id r)) &&
    (bool_decide (hr_agent_id other = hr_agent_id r) || (length (hr_fingerprint r) =? sha256_Size)%nat && bool_decide (hr_fingerprint other = hr_fingerprint r))) (hosts d).

(** A row is written: columns have their range, constraints are checked. *)
Definition put_host (r : hostRow) (d : inventory) : result pg_error inventory :=
  if (2 ^ 31 <=? hr_logical_cpu_count r) || (int64_max <? hr_version r) || (int64_max <? hr_credential_generation r) then Err OtherFailure
  else if negb (credential_shape r) then Err CheckViolation
  else if collides r d then Err UniqueViolation
  else Ok (d <| hosts ::= <[hr_host_id r := r]> |>).

(** Rows of one agent; [agent_id] is unique. *)
Definition find_agent (agentID : string) (d : inventory) : option hostRow :=
  snd <$> List.find (fun '(_, r) => bool_decide (hr_agent_id r = agentID)) (map_to_list (hosts d)).
Definition scoped_agent (scope : JobScope) (agentID : string) (d : inventory) : option hostRow :=
  match find_agent agentID d with Some r => if bool_decide (hr_scope r = scope) then Some r else None | None => None end.
Definition scoped_host (scope : JobScope) (hostID : string) (d : inventory) : option hostRow :=
  match hosts d !! hostID with Some r => if bool_decide (hr_scope r = scope) then Some r else None | None => None end.

(** ** The repository *)

Definition mapPostgresError (e : pg_error) : HostError :=
  match e with UniqueViolation => ErrConflict | CheckViolation => ErrInvalid | SerializationFailure | DeadlockDetected | OtherFailure => ErrStorage end.

Section repository.
Context {columns : PgColumns}.
Abbreviation Repo A := (Conn inventory (result HostError A)).
Local Open Scope conn_scope.

Definition scanHost (r : hostRow) : result HostError Host :=
  if (hr_logical_cpu_count r <? 0) || (hr_memory_capacity_bytes r <? 0) || (hr_enrollment_revision r <? 1) || (hr_credential_generation r <? 0) || (hr_observation_revision r <? 0)
     || (hr_version r <? 1) || negb (length (hr_fingerprint r) =? 0)%nat && negb (length (hr_fingerprint r) =? 32)%nat then Err ErrInvalid
  else
    let h := MkHost (hr_scope r) (hr_host_id r) (hr_agent_id r) (hr_display_name r) (hr_hostname r) (hr_operating_system r) (hr_operating_system_version r) (hr_kernel_version r)
      (hr_architecture r) {| Capacity := hr_logical_cpu_count r; Available := 0 |} {| Capacity := hr_memory_capacity_bytes r; Available := 0 |} (hr_filesystems r)
      (hr_network_addresses r) (hr_labels r) (hr_container_runtime r) (hr_capabilities r) (hr_agent_version r) (hr_enrollment_revision r) (hr_credential_generation r)
      (hex_encode (hr_fingerprint r)) (hr_serial r) (UTC <$> hr_credential_revoked_at r) (hr_observation_revision r) (UTC (hr_enrolled_at r))
      (default zero_time (UTC <$> hr_last_hello_at r)) (default zero_time (UTC <$> hr_last_heartbeat_at r)) (hr_status r) (hr_version r) (hr_decommission r) in
    if Host_Validate h then Ok h else Err ErrInvalid.

(** A statement that returns a row, or none ([sql.ErrNoRows]). *)
Definition returning (f : inventory -> result pg_error (option hostRow * inventory)) (none : Repo Host) : Repo Host :=
  row <- statement f ;;
  match row with Ok (Some r) => ret (scanHost r) | Ok None => none | Err e => ret (Err (mapPostgresError e)) end.
Definition updating (row : option hostRow) (f : hostRow -> hostRow) (d : inventory) : result pg_error (option hostRow * inventory) :=
  match row with
  | Some r => match put_host (f r) d with Ok d' => Ok (Some (f r), d') | Err e => Err e end
  | None => Ok (None, d)
  end.

Definition Get (scope : JobScope) (hostID : string) : Repo Host :=
  if negb (Scope_Validate scope) || negb (identifierPattern hostID) then ret (Err ErrInvalid)
  else returning (fun d => Ok (scoped_host scope hostID d, d)) (ret (Err ErrNotFound)).
Definition getByAgent (scope : JobScope) (agentID : string) : Repo Host := returning (fun d => Ok (scoped_agent scope agentID d, d)) (ret (Err ErrNotFound)).

(** The columns that an observation sets. *)
Definition observed (o : Observation) (receivedAt : time) (r : hostRow) : hostRow :=
  r <| hr_hostname := obs_Hostname o |> <| hr_operating_system := obs_OS o |> <| hr_operating_system_version := obs_OSVersion o |> <| hr_kernel_version := obs_Kernel o |>
    <| hr_architecture := obs_Architecture o |> <| hr_logical_cpu_count := obs_LogicalCPUCount o |> <| hr_memory_capacity_bytes := obs_MemoryCapacityBytes o |>
    <| hr_filesystems := obs_Filesystems o |> <| hr_network_addresses := obs_NetworkAddresses o |>
    <| hr_capabilities := List.map (fun name => {| cap_Name := name; cap_Available := true; cap_Reason := EmptyString |}) (obs_Capabilities o) |>
    <| hr_agent_version := obs_AgentVersion o |> <| hr_observation_revision := obs_Revision o |> <| hr_updated_at := timestamptz receivedAt |>.
(** A new row. *)
Definition new_host (scope : JobScope) (displayName : string) (labels : gmap string string) (revision : Z) (enrolledAt : time) (o : Observation) (receivedAt : time) : hostRow :=
  observed o receivedAt
    (MkHostRow scope (obs_HostID o) (obs_AgentID o) displayName EmptyString EmptyString EmptyString EmptyString EmptyString 0 0 [] [] labels ContainerRuntimeNone [] EmptyString
       revision 0 [] EmptyString None 0 (timestamptz enrolledAt) None None HostEnrolling 1 None (timestamptz receivedAt)).
Definition insert_observation (scope : JobScope) (o : Observation) (receivedAt : time) (d : inventory) : result pg_error inventory :=
  match observations d !! (scope, obs_HostID o, obs_Revision o) with
  | Some _ => Err UniqueViolation
  | None => Ok (d <| observations ::= <[(scope, obs_HostID o, obs_Revision o) :=
                 {| or_agent_id := obs_AgentID o; or_snapshot := o; or_observed_at := timestamptz (obs_ObservedAt o); or_received_at := timestamptz receivedAt |}]> |>)
  end.
(** The row and the observation in one statement. *)
Definition put_observed (r : hostRow) (o : Observation) (receivedAt : time) (d : inventory) : result pg_error (option hostRow * inventory) :=
  match put_host r d with
  | Err e => Err e
  | Ok d' => match insert_observation (hr_scope r) o receivedAt d' with Ok d'' => Ok (Some r, d'') | Err e => Err e end
  end.

Definition recordObservationSQL (scope : JobScope) (o : Observation) (receivedAt : time) (d : inventory) : result pg_error (option hostRow * inventory) :=
  match hosts d !! obs_HostID o with
  | None => put_observed (new_host scope (obs_Hostname o) ∅ 1 receivedAt o receivedAt) o receivedAt d
  | Some r =>
      if bool_decide (hr_scope r = scope) && bool_decide (hr_agent_id r = obs_AgentID o) && (hr_observation_revision r <? obs_Revision o) && negb (bool_decide (hr_status r = HostDecommissioned))
      then put_observed (observed o receivedAt r <| hr_version ::= Z.succ |>) o receivedAt d
      else Ok (None, d)
  end.

Definition RecordObservation (scope : JobScope) (o : Observation) (receivedAt : time) : Repo Host :=
  if negb (Scope_Validate scope) || negb (Observation_Validate o) || negb (validUTC receivedAt) then ret (Err ErrInvalid)
  else
    returning (recordObservationSQL scope o receivedAt)
      (host <- Get scope (obs_HostID o) ;;
       ret (match host with
            | Err e => Err e
            | Ok h =>
                if negb (bool_decide (ho_AgentID h = obs_AgentID o)) then Err ErrConflict
                else if obs_Revision o <? ho_ObservationRevision h then Err ErrStaleRevision
                else if ho_ObservationRevision h =? obs_Revision o then Ok h
                else Err ErrConflict
            end)).

(** [ON CONFLICT DO NOTHING] *)
Definition recordEnrollmentSQL (scope : JobScope) (e : EnrollmentData) (o : Observation) (receivedAt : time) (d : inventory) : result pg_error (option hostRow * inventory) :=
  let r := new_host scope (en_DisplayName e) (en_Labels e) (en_Revision e) (en_EnrolledAt e) o receivedAt in
  match hosts d !! obs_HostID o with
  | Some _ => Ok (None, d)
  | None => if collides r d then Ok (None, d) else put_observed r o receivedAt d
  end.

Definition RecordEnrollment (scope : JobScope) (e : EnrollmentData) (o : Observation) (receivedAt : time) : Repo Host :=
  if negb (Scope_Validate scope) || negb (Enrollment_Validate e) || negb (Observation_Validate o) || negb (validUTC receivedAt) || negb (bool_decide (en_HostID e = obs_HostID o))
     || negb (bool_decide (en_AgentID e = obs_AgentID o)) then ret (Err ErrInvalid)
  else returning (recordEnrollmentSQL scope e o receivedAt) (ret (Err ErrConflict)).

(** [IS NULL OR < $1] *)
Definition earlier (stored : option time) (at_ : time) : bool := match stored with Some t => Before t (timestamptz at_) | None => true end.
Definition live_agent (scope : JobScope) (agentID : string) (ok : hostRow -> bool) (d : inventory) : option hostRow :=
  match scoped_agent scope agentID d with Some r => if negb (bool_decide (hr_status r = HostDecommissioned)) && ok r then Some r else None | None => None end.

Definition RecordHeartbeat (scope : JobScope) (agentID : string) (at_ : time) : Repo Host :=
  if negb (Scope_Validate scope) || negb (identifierPattern agentID) || negb (validUTC at_) then ret (Err ErrInvalid)
  else
    returning (fun d => updating (live_agent scope agentID (fun r => earlier (hr_last_heartbeat_at r) at_) d)
                 (fun r => r <| hr_last_heartbeat_at := Some (timestamptz at_) |> <| hr_status := HostOnline |> <| hr_version ::= Z.succ |> <| hr_updated_at := timestamptz at_ |>) d)
      (getByAgent scope agentID).
Definition RecordHello (scope : JobScope) (agentID : string) (at_ : time) : Repo Host :=
  if negb (Scope_Validate scope) || negb (identifierPattern agentID) || negb (validUTC at_) then ret (Err ErrInvalid)
  else
    returning (fun d => updating (live_agent scope agentID (fun r => earlier (hr_last_hello_at r) at_) d)
                 (fun r => r <| hr_last_hello_at := Some (timestamptz at_) |> <| hr_version ::= Z.succ |> <| hr_updated_at := timestamptz at_ |>) d)
      (getByAgent scope agentID).

Definition ScopeForAgent (agentID : string) : Repo JobScope :=
  if negb (identifierPattern agentID) then ret (Err ErrInvalid)
  else
    row <- query (find_agent agentID) ;;
    ret (match row with
         | Err e => Err (mapPostgresError e)
         | Ok None => Err ErrNotFound
         | Ok (Some r) =>
             if negb (Scope_Validate (hr_scope r)) || negb (validHostStatus (hr_status r)) then Err ErrInvalid
             else if bool_decide (hr_status r = HostDecommissioned) then Err ErrDecommissioned
             else Ok (hr_scope r)
         end).
Definition HostForAgent (agentID : string) : Repo string :=
  scope <- ScopeForAgent agentID ;;
  match scope with
  | Err e => ret (Err e)
  | Ok scope => host <- getByAgent scope agentID ;; ret (match host with Ok h => Ok (ho_ID h) | Err e => Err e end)
  end.

(** The trigger [managed_hosts_revoke_agent_issuances]. *)
Definition revoke_agent_issuances (r : hostRow) (at_ : time) (d : inventory) : inventory :=
  d <| issuances ::= fmap (fun i => if bool_decide (is_identity i = row_identity r) && bool_decide (is_revoked_at i = None) then i <| is_revoked_at := Some at_ |> else i) |>.

Definition decommissioned (at_ : time) (t : DecommissionTransition) (r : hostRow) : hostRow :=
  r <| hr_status := HostDecommissioned |> <| hr_credential_generation ::= Z.succ |> <| hr_fingerprint := [] |> <| hr_serial := EmptyString |>
    <| hr_credential_revoked_at := Some (timestamptz at_) |> <| hr_decommission := Some t |> <| hr_version ::= Z.succ |> <| hr_updated_at := timestamptz at_ |>.
Definition decommissionHostSQL (scope : JobScope) (hostID : string) (expectedVersion : Z) (at_ : time) (t : DecommissionTransition) (d : inventory) :
  result pg_error (option hostRow * inventory) :=
  match scoped_host scope hostID d with
  | Some r =>
      if (hr_version r =? expectedVersion) && negb (bool_decide (hr_status r = HostDecommissioned)) then
        match put_host (decommissioned at_ t r) d with
        | Ok d' => Ok (Some (decommissioned at_ t r), revoke_agent_issuances r (timestamptz at_) d')
        | Err e => Err e
        end
      else Ok (None, d)
  | None => Ok (None, d)
  end.

Definition Decommission (scope : JobScope) (hostID : string) (expectedVersion : Z) (at_ : time) (t : DecommissionTransition) : Repo Host :=
  if negb (Scope_Validate scope) || negb (identifierPattern hostID) || negb (validPostgresRevision expectedVersion false) || negb (validUTC at_) || negb (Transition_Validate t)
  then ret (Err ErrInvalid)
  else
    returning (decommissionHostSQL scope hostID expectedVersion at_ t)
      (row <- query (scoped_host scope hostID) ;;
       ret (match row with Err e => Err (mapPostgresError e) | Ok None => Err ErrNotFound | Ok (Some _) => Err ErrConflict end)).

(** ** Listing *)

(** [Duration.Microseconds] *)
Definition Microseconds (d : Z) : Z := Z.quot d microsecond.

(** The [CASE] of the listing query. *)
Definition listed_status (now : time) (staleMicros offlineMicros : Z) (r : hostRow) : HostStatus :=
  let since micros := AddDuration (timestamptz now) (- (micros * microsecond)) in
  match hr_status r with
  | HostDecommissioned => HostDecommissioned
  | HostPending => HostPending
  | HostEnrolling => HostEnrolling
  | _ =>
      match hr_last_heartbeat_at r with
      | None => HostOffline
      | Some at_ => if negb (Before at_ (since staleMicros)) then HostOnline else if negb (Before at_ (since offlineMicros)) then HostStale else HostOffline
      end
  end.

Definition host_before (a b : hostRow) : Prop := text_less (hr_host_id b) (hr_host_id a) = false.
#[local] Instance host_before_dec a b : Decision (host_before a b) := decide (_ = _).
Definition listed_rows (scope : JobScope) (f : Filter) (d : inventory) : list hostRow :=
  let classified := List.map (fun r => r <| hr_status := listed_status (fi_now f) (Microseconds (fi_staleAfter f)) (Microseconds (fi_offlineAfter f)) r |>)
    (List.filter (fun r => bool_decide (hr_scope r = scope) && (empty_string (fi_Cursor f) || text_less (fi_Cursor f) (hr_host_id r))) (snd <$> map_to_list (hosts d))) in
  merge_sort host_before (List.filter (fun r => match fi_Status f with Some s => bool_decide (hr_status r = s) | None => true end) classified).

Definition List_ (scope : JobScope) (f : Filter) : Repo Page :=
  if negb (Scope_Validate scope) || negb (Filter_Validate f) || negb (validUTC (fi_now f)) || (fi_staleAfter f <=? 0) || (fi_offlineAfter f <=? fi_staleAfter f) then ret (Err ErrInvalid)
  else
    let limit := if fi_Limit f =? 0 then DefaultListLimit else fi_Limit f in
    rows <- query (fun d => take (Z.to_nat (limit + 1)) (listed_rows scope f d)) ;;
    ret (match rows with
         | Err e => Err (mapPostgresError e)
         | Ok rows =>
             match traverse scanHost rows with
             | Err e => Err e
             | Ok items =>
                 if (limit <? Z.of_nat (length items))
                 then let items := take (Z.to_nat limit) items in Ok {| Items := items; NextCursor := match last items with Some h => ho_ID h | None => EmptyString end |}
                 else Ok {| Items := items; NextCursor := EmptyString |}
             end
         end).

(** ** The service *)

Record HostService := { StaleAfter : Z; OfflineAfter : Z }.
Definition DefaultStaleAfter : Z := 2 * minute.
Definition DefaultOfflineAfter : Z := 5 * minute.

Definition classification (s : HostService) (now : time) : option (Z * Z) :=
  let staleAfter := if StaleAfter s =? 0 then DefaultStaleAfter else StaleAfter s in
  let offlineAfter := if OfflineAfter s =? 0 then DefaultOfflineAfter else OfflineAfter s in
  if (staleAfter <=? 0) || (offlineAfter <=? staleAfter) || negb (validUTC now) then None else Some (staleAfter, offlineAfter).
Definition classified (now : time) (c : Z * Z) (h : Host) : Host := h <| ho_Status := ClassifyHost now h (fst c) (snd c) |>.

Definition service_RecordObservation (s : HostService) (now : time) (o : Observation) : Repo Host :=
  if negb (Observation_Validate o) then ret (Err ErrInvalid)
  else
    scope <- ScopeForAgent (obs_AgentID o) ;;
    match scope with
    | Err e => ret (Err e)
    | Ok scope =>
        if negb (Scope_Validate scope) then ret (Err ErrInvalid)
        else match classification s now with
        | None => ret (Err ErrInvalid)
        | Some c =>
            host <- RecordObservation scope o now ;;
            ret (match host with
                 | Err e => Err e
                 | Ok h =>
                     if negb (Host_Validate h) || negb (bool_decide (ho_Scope h = scope)) || negb (bool_decide (ho_ID h = obs_HostID o)) || negb (bool_decide (ho_AgentID h = obs_AgentID o))
                        || (ho_ObservationRevision h <? obs_Revision o) then Err ErrInvalid
                     else Ok (classified now c h)
                 end)
        end
    end.

(** [RecordHello] and [RecordHeartbeat]; [last] is the time that they keep. *)
Definition service_record (record : JobScope -> string -> time -> Repo Host) (last : Host -> time) (s : HostService) (now : time) (agentID : string) (at_ : time) : Repo Host :=
  if negb (identifierPattern agentID) || negb (validUTC at_) then ret (Err ErrInvalid)
  else
    let at_ := Truncate at_ microsecond in
    scope <- ScopeForAgent agentID ;;
    match scope with
    | Err e => ret (Err e)
    | Ok scope =>
        if negb (Scope_Validate scope) then ret (Err ErrInvalid)
        else match classification s now with
        | None => ret (Err ErrInvalid)
        | Some c =>
            host <- record scope agentID at_ ;;
            ret (match host with
                 | Err e => Err e
                 | Ok h =>
                     if negb (Host_Validate h) || negb (bool_decide (ho_Scope h = scope)) || negb (bool_decide (ho_AgentID h = agentID))
                        || negb (bool_decide (ho_Status h = HostDecommissioned)) && Before (last h) at_ then Err ErrInvalid
                     else Ok (classified now c h)
                 end)
        end
    end.
Definition service_RecordHello : HostService -> time -> string -> time -> Repo Host := service_record RecordHello ho_LastHelloAt.
Definition service_RecordHeartbeat : HostService -> time -> string -> time -> Repo Host := service_record RecordHeartbeat ho_LastHeartbeatAt.

(** An item that the service classifies as another status than the query makes the page invalid. *)
Fixpoint checked_items (scope : JobScope) (f : Filter) (c : Z * Z) (items : list Host) : result HostError (list Host) :=
  match items with
  | [] => Ok []
  | h :: rest =>
      if negb (Host_Validate h) || negb (bool_decide (ho_Scope h = scope)) then Err ErrInvalid
      else
        let h := classified (fi_now f) c h in
        if match fi_Status f with Some s => negb (bool_decide (ho_Status h = s)) | None => false end then Err ErrInvalid
        else match checked_items scope f c rest with Ok items => Ok (h :: items) | Err e => Err e end
  end.
Definition service_List (s : HostService) (now : time) (scope : JobScope) (f : Filter) : Repo Page :=
  if negb (Scope_Validate scope) || negb (Filter_Validate f) then ret (Err ErrInvalid)
  else match classification s now with
  | None => ret (Err ErrInvalid)
  | Some c =>
      let f := {| fi_Status := fi_Status f; fi_Cursor := fi_Cursor f; fi_Limit := fi_Limit f; fi_now := now; fi_staleAfter := fst c; fi_offlineAfter := snd c |} in
      page <- List_ scope f ;;
      ret (match page with
           | Err e => Err e
           | Ok p => match checked_items scope f c (Items p) with Ok items => Ok {| Items := items; NextCursor := NextCursor p |} | Err e => Err e end
           end)
  end.

Definition service_Get (s : HostService) (now : time) (scope : JobScope) (hostID : string) : Repo Host :=
  if negb (Scope_Validate scope) || negb (identifierPattern hostID) then ret (Err ErrInvalid)
  else match classification s now with
  | None => ret (Err ErrInvalid)
  | Some c =>
      host <- Get scope hostID ;;
      ret (match host with
           | Err e => Err e
           | Ok h => if negb (Host_Validate h) || negb (bool_decide (ho_Scope h = scope)) || negb (bool_decide (ho_ID h = hostID)) then Err ErrInvalid else Ok (classified now c h)
           end)
  end.

Definition service_Decommission (s : HostService) (now : time) (scope : JobScope) (hostID : string) (expectedVersion : Z) (t : option DecommissionTransition) : Repo Host :=
  match t with
  | None => ret (Err ErrInvalid)
  | Some t =>
      if negb (Scope_Validate scope) || negb (identifierPattern hostID) || negb (validPostgresRevision expectedVersion false) || negb (Transition_Validate t) then ret (Err ErrInvalid)
      else match classification s now with
      | None => ret (Err ErrInvalid)
      | Some _ =>
          host <- Decommission scope hostID expectedVersion now t ;;
          ret (match host with
               | Err e => Err e
               | Ok h =>
                   if negb (Host_Validate h) || negb (bool_decide (ho_Scope h = scope)) || negb (bool_decide (ho_ID h = hostID)) || negb (bool_decide (ho_Status h = HostDecommissioned))
                      || negb (ho_Version h =? expectedVersion + 1) || match ho_DecommissionTransition h with Some t' => negb (Matches t' t) | None => true end then Err ErrInvalid
                   else Ok h
               end)
      end
  end.
End repository.
