(* ===== verification/Enrollment.v ===== *)
(** * Enrollment of agents

    [enrollment/model.go], [enrollment/postgres.go] and [enrollment/service.go]:
    one-time tokens, the certificates they are exchanged for, the credential
    that is active on a host, its replacement and its revocation.

    The service is a program over its calls, so that the calls of several
    control planes interleave; a repository call is one transaction.  PEM and
    X.509 are parameters. *)

From S2P Require Import Prelude Programs GoText JobModel JobRepository CommandLifecycle SessionRegistry AgentServer Database HostInventory.

Open Scope Z_scope.
Open Scope update_scope.

(** ** Values *)

Inductive EnrollError :=
  | ErrEnrollmentRequestInvalid | ErrEnrollmentTokenInvalid | ErrEnrollmentConflict | ErrEnrollmentNotFound | ErrEnrollmentGenerationConflict | ErrEnrollmentOther.
#[global] Instance EnrollError_eq_dec : EqDecision EnrollError.
Proof. solve_decision. Defined.

Definition EnrollmentTokenBytes : nat := 32.
Definition MaximumCSRPEMBytes : nat := 65536.
Definition MaximumCSRPublicKeyBytes : nat := 4096.
Definition DefaultTokenTTL : Z := 10 * minute.
Definition MaximumTokenTTL : Z := hour.
Definition ed25519_KeySize : nat := 32.

Record EnrollmentAudit := { ea_Actor : string; ea_RequestID : string; ea_TraceID : string; ea_OperationID : string; ea_IdempotencyKey : string }.
Record EnrollmentToken := {
  et_TokenHash : bytes; et_Scope : JobScope; et_HostID : string; et_AgentID : string; et_DisplayName : string; et_Labels : gmap string string; et_ExpiresAt : time;
  et_CreatedAt : time; et_EnrollmentRevision : Z; et_IssuedBy : string; et_IdempotencyKey : string; et_RequestFingerprint : string; et_Generation : Z; et_Audit : EnrollmentAudit;
}.
Record EnrollmentGrant := {
  gr_Scope : JobScope; gr_HostID : string; gr_AgentID : string; gr_DisplayName : string; gr_Labels : gmap string string; gr_EnrollmentRevision : Z; gr_Generation : Z;
}.
#[global] Instance EnrollmentGrant_eq_dec : EqDecision EnrollmentGrant.
Proof. solve_decision. Defined.
Record CreateRequest := {
  cq_HostID : string; cq_AgentID : string; cq_DisplayName : string; cq_Labels : gmap string string; cq_ExpiresIn : Z; cq_IssuedBy : string; cq_IdempotencyKey : string;
  cq_RequestFingerprint : string; cq_Audit : EnrollmentAudit;
}.
Record CreatedEnrollment := {
  ce_HostID : string; ce_AgentID : string; ce_Token : bytes; ce_ExpiresAt : time; ce_EnrollmentRevision : Z; ce_Generation : Z; ce_Replaced : bool;
}.
Record EnrollRequest := { eq_Token : bytes; eq_AgentID : string; eq_CSRPEM : bytes; eq_CSRPublicKey : bytes; eq_CSRProof : bytes; eq_Observation : HostInventory.Observation }.
Record EnrollResult := MkEnrollResult {
  er_HostID : string; er_AgentID : string; er_CertificatePEM : bytes; er_CertificateChainPEM : bytes; er_ExpiresAt : time; er_EnrollmentRevision : Z;
  er_CredentialGeneration : Z; er_CertificateFingerprint : bytes; er_CertificateSerial : string;
}.
#[global] Instance EnrollResult_eta : Eta EnrollResult := fun r => MkEnrollResult (er_HostID r) (er_AgentID r) (er_CertificatePEM r) (er_CertificateChainPEM r) (er_ExpiresAt r)
  (er_EnrollmentRevision r) (er_CredentialGeneration r) (er_CertificateFingerprint r) (er_CertificateSerial r).
Record EnrollmentAttemptKey := { ak_TokenHash : bytes; ak_CSRDigest : bytes; ak_AgentID : string; ak_HostID : string }.
Record AgentCredential := { ac_Generation : Z; ac_Fingerprint : bytes; ac_Serial : string }.
Record EnrollmentResolution := { rs_Grant : EnrollmentGrant; rs_Response : option EnrollResult; rs_SupersededCredentials : list AgentCredential }.
Record EnrollmentCompletion := {
  co_Key : EnrollmentAttemptKey; co_Grant : EnrollmentGrant; co_Observation : HostInventory.Observation; co_Result : EnrollResult; co_CompletedAt : time;
}.
Record EnrollmentCompletionResult := { cp_Response : EnrollResult; cp_SupersededCredentials : list AgentCredential }.
Record EnrollmentTokenCreation := { tc_Generation : Z; tc_Replaced : bool }.
Record ReplacementLookup := { rl_HostID : string; rl_AgentID : string; rl_IssuedBy : string; rl_IdempotencyKey : string; rl_RequestFingerprint : string }.
Record ReplacementState := { rp_HostID : string; rp_AgentID : string; rp_EnrollmentRevision : Z; rp_Generation : Z }.

(** ** Validation *)

Definition bounded (value : string) (maximum : nat) (required : bool) : bool :=
  if empty_string value then negb required else trimmed value && ValidString value && (RuneCountInString value <=? maximum)%nat && negb (has_control value).
Definition labelPattern : string -> bool := labelNamePattern.
Definition validTokenLabels (values : gmap string string) : bool :=
  (size values <=? 32)%nat && forallb (fun '(key, value) => labelPattern key && bounded value 128 false) (map_to_list values).
Definition certificateSerialPattern : string -> bool := serialPattern.
Definition zero_hash : bytes := replicate sha256_Size 0.

Definition Audit_Validate (a : EnrollmentAudit) : bool :=
  bounded (ea_Actor a) 256 true && bounded (ea_RequestID a) 256 true && bounded (ea_TraceID a) 256 false && bounded (ea_OperationID a) 256 true && bounded (ea_IdempotencyKey a) 128 true.
Definition Token_Validate (t : EnrollmentToken) : bool :=
  negb (bool_decide (et_TokenHash t = zero_hash)) && Scope_Validate (et_Scope t) && identifierPattern (et_HostID t) && identifierPattern (et_AgentID t)
  && bounded (et_DisplayName t) 120 true && validTokenLabels (et_Labels t) && validUTC (et_CreatedAt t) && validUTC (et_ExpiresAt t) && After (et_ExpiresAt t) (et_CreatedAt t)
  && negb (et_EnrollmentRevision t =? 0) && bounded (et_IssuedBy t) 256 true && bounded (et_IdempotencyKey t) 128 true && fingerprintPattern (et_RequestFingerprint t)
  && negb (et_Generation t =? 0) && Audit_Validate (et_Audit t).
Definition Grant_Validate (g : EnrollmentGrant) : bool :=
  Scope_Validate (gr_Scope g) && identifierPattern (gr_HostID g) && identifierPattern (gr_AgentID g) && bounded (gr_DisplayName g) 120 true && validTokenLabels (gr_Labels g)
  && negb (gr_EnrollmentRevision g =? 0).
Definition Key_Validate (k : EnrollmentAttemptKey) : bool :=
  negb (bool_decide (ak_TokenHash k = zero_hash)) && negb (bool_decide (ak_CSRDigest k = zero_hash)) && identifierPattern (ak_AgentID k)
  && (empty_string (ak_HostID k) || identifierPattern (ak_HostID k)).
Definition Lookup_Validate (l : ReplacementLookup) : bool :=
  identifierPattern (rl_HostID l) && identifierPattern (rl_AgentID l) && bounded (rl_IssuedBy l) 256 true && bounded (rl_IdempotencyKey l) 128 true
  && fingerprintPattern (rl_RequestFingerprint l).
Definition State_Validate (s : ReplacementState) : bool :=
  identifierPattern (rp_HostID s) && identifierPattern (rp_AgentID s) && negb (rp_EnrollmentRevision s =? 0) && negb (rp_Generation s =? 0).
Definition valid_credential (c : AgentCredential) : bool :=
  (0 <? ac_Generation c) && negb (bool_decide (ac_Fingerprint c = zero_hash)) && certificateSerialPattern (ac_Serial c).

(** ** Certificates *)

Record PemBlock := { pb_Type : string; pb_Headers : nat; pb_Bytes : bytes }.
(** A parsed request: what the code reads, [csr_Extras] counting attributes, extensions and names. *)
Record CertificateRequest := {
  csr_Raw : bytes; csr_SignatureValid : bool; csr_PureEd25519 : bool; csr_Subject : string; csr_RawSubject : bytes; csr_Extras : nat; csr_PublicKey : option bytes;
}.
Record CertificateTemplate := { ct_SerialNumber : Z; ct_NotBefore : time; ct_NotAfter : time; ct_URIs : list URL }.

(** [encoding/pem], [crypto/x509] and [crypto/ed25519] *)
Class X509 := {
  pem_Decode : bytes -> option (PemBlock * bytes);
  pem_Encode : string -> bytes -> bytes;
  ParseCertificateRequest : bytes -> option CertificateRequest;
  ParsePKIXPublicKey : bytes -> option (option bytes);          (* the key, when it is an Ed25519 key *)
  MarshalPKIXPublicKey : bytes -> option bytes;
  ParseCertificate : bytes -> option Certificate;
  CreateCertificate : CertificateTemplate -> bytes -> option bytes;
  ed25519_Verify : bytes -> bytes -> bytes -> bool;
}.

Section certificates.
Context {codec : ResultCodec} {x509 : X509}.

Definition csrProofDomain : string := "dbpilot-agent-enrollment-csr-proof-v1".
Definition HashToken (token : bytes) : bytes := sha256 token.

Definition big_endian32 (n : Z) : bytes := [n / 2 ^ 24 mod 256; n / 2 ^ 16 mod 256; n / 2 ^ 8 mod 256; n mod 256].

(** A block of a type, and nothing after it. *)
Definition only_block (kind : string) (pem : bytes) : option PemBlock :=
  match pem_Decode pem with
  | Some (block, rest) => if negb (bool_decide (pb_Type block = kind)) || negb (bool_decide (trim_bytes rest = [])) then None else Some block
  | None => None
  end.

(** The message, the key and the digest of the request. *)
Definition verifiedCSRProofInputs (agentID : string) (csrPEM publicKeyDER : bytes) : option (bytes * bytes * bytes) :=
  if negb (identifierPattern agentID) || (length csrPEM =? 0)%nat || (MaximumCSRPEMBytes <? length csrPEM)%nat || (length publicKeyDER =? 0)%nat
     || (MaximumCSRPublicKeyBytes <? length publicKeyDER)%nat then None
  else
    block ← only_block "CERTIFICATE REQUEST" csrPEM;
    if negb (pb_Headers block =? 0)%nat then None
    else
      csr ← ParseCertificateRequest (pb_Bytes block);
      if negb (csr_SignatureValid csr) || negb (csr_PureEd25519 csr) || negb (empty_string (csr_Subject csr)) || negb (bool_decide (csr_RawSubject csr = [48; 0]))
         || negb (csr_Extras csr =? 0)%nat then None
      else
        publicKey ← csr_PublicKey csr;
        if negb (length publicKey =? ed25519_KeySize)%nat then None
        else
          parsed ← ParsePKIXPublicKey publicKeyDER;
          provided ← parsed;
          canonical ← MarshalPKIXPublicKey publicKey;
          if negb (bool_decide (publicKey = provided)) || negb (bool_decide (canonical = publicKeyDER)) then None
          else
            let csrDigest := sha256 (csr_Raw csr) in
            Some (bytes_of csrProofDomain ++ big_endian32 (Z.of_nat (String.length agentID)) ++ bytes_of agentID ++ csrDigest ++ sha256 publicKeyDER, publicKey, csrDigest).

(** Fingerprint and serial number of a certificate. *)
Definition enrollmentCertificateIdentity (certificatePEM : bytes) : option (bytes * string) :=
  block ← only_block "CERTIFICATE" certificatePEM;
  certificate ← ParseCertificate (pb_Bytes block);
  serial ← SerialNumber certificate;
  if (serial <=? 0) || (length (Raw certificate) =? 0)%nat then None else Some (sha256 (Raw certificate), Text16 serial).

Definition validateEnrollmentResult (r : EnrollResult) (g : EnrollmentGrant) : bool :=
  bool_decide (er_HostID r = gr_HostID g) && bool_decide (er_AgentID r = gr_AgentID g) && negb (length (er_CertificatePEM r) =? 0)%nat
  && negb (length (er_CertificateChainPEM r) =? 0)%nat && validUTC (er_ExpiresAt r) && (er_EnrollmentRevision r =? gr_EnrollmentRevision g)
  && (er_CredentialGeneration r =? gr_Generation g) && negb (er_CredentialGeneration r =? 0)
  && match enrollmentCertificateIdentity (er_CertificatePEM r) with
     | Some (fingerprint, serial) => bool_decide (er_CertificateFingerprint r = fingerprint) && bool_decide (er_CertificateSerial r = serial)
     | None => false
     end.

Definition normalizeEnrollmentResult (r : EnrollResult) (g : EnrollmentGrant) : option EnrollResult :=
  if gr_Generation g =? 0 then None
  else
    identity ← enrollmentCertificateIdentity (er_CertificatePEM r);
    let '(fingerprint, serial) := identity : bytes * string in
    Some (r <| er_CertificateFingerprint := fingerprint |> <| er_CertificateSerial := serial |> <| er_CredentialGeneration := gr_Generation g |>).

(** [AgentCertificateIssuer]: when its certificate ends, the lifetime of issued ones, the chain. *)
Record AgentCertificateIssuer := { ci_NotAfter : time; ci_lifetime : Z; ci_chainPEM : bytes }.

Definition big_int (l : bytes) : Z := fold_left (fun n b => n * 256 + b) l 0.

(** [random] is the source's answer for 16 bytes. *)
Definition SignAgentCSR (issuer : AgentCertificateIssuer) (now : time) (random : option bytes) (g : EnrollmentGrant) (csrPEM : bytes) : option (bytes * bytes * time) :=
  if negb (Grant_Validate g) then None
  else
    block ← only_block "CERTIFICATE REQUEST" csrPEM;
    csr ← ParseCertificateRequest (pb_Bytes block);
    if negb (csr_SignatureValid csr) then None
    else
      publicKey ← csr_PublicKey csr;
      if negb (validUTC now) then None
      else
        let expiresAt := AddDuration now (ci_lifetime issuer) in
        let expiresAt := if After expiresAt (ci_NotAfter issuer) then UTC (ci_NotAfter issuer) else expiresAt in
        if negb (After expiresAt now) then None
        else
          serialBytes ← random;
          let serial := big_int (match serialBytes with b :: rest => Z.land b 127 :: rest | [] => [] end) in
          let serial := if serial =? 0 then 1 else serial in
          let identity := {| u_Scheme := "spiffe"; u_Host := "dbpilot.local"; u_HasUser := false; u_RawQuery := ""; u_Fragment := ""; u_Path := "/agent/" +:+ gr_AgentID g |} in
          der ← CreateCertificate {| ct_SerialNumber := serial; ct_NotBefore := AddDuration now (- minute); ct_NotAfter := expiresAt; ct_URIs := [identity] |} publicKey;
          Some (pem_Encode "CERTIFICATE" der, ci_chainPEM issuer, expiresAt).
End certificates.

(** ** The repository *)

Definition mapEnrollmentError (e : pg_error) : EnrollError :=
  match e with
  | SerializationFailure => ErrEnrollmentGenerationConflict
  | UniqueViolation => ErrEnrollmentConflict
  | CheckViolation => ErrEnrollmentRequestInvalid
  | DeadlockDetected | OtherFailure => ErrEnrollmentOther
  end.
Definition isEnrollmentSerializationFailure (e : pg_error) : bool := match e with SerializationFailure | DeadlockDetected => true | _ => false end.

Definition token_identity (t : EnrollmentToken) : identity := {| id_scope := et_Scope t; id_host := et_HostID t; id_agent := et_AgentID t |}.
Definition grant_identity (g : EnrollmentGrant) : identity := {| id_scope := gr_Scope g; id_host := gr_HostID g; id_agent := gr_AgentID g |}.

(** A configured target of a certificate that was not issued by enrollment. *)
Record generationZeroImportTarget := { gz_scope : JobScope; gz_hostID : string }.
#[global] Instance generationZeroImportTarget_eq_dec : EqDecision generationZeroImportTarget.
Proof. solve_decision. Defined.

Section repository.
Context {columns : PgColumns} {codec : ResultCodec} {x509 : X509}.
Abbreviation Repo A := (Conn inventory (result EnrollError A)).
Local Open Scope conn_scope.

(** *** Tokens *)

(** The newest token of an identity. *)
Definition newer (a b : option (bytes * tokenRow)) : option (bytes * tokenRow) :=
  match a, b with
  | Some (_, x), Some (_, y) => if tk_generation x <? tk_generation y then b else a
  | None, _ => b
  | _, None => a
  end.
Definition findEnrollmentTokenReplacement (i : identity) (d : inventory) : option (bytes * tokenRow) :=
  foldr newer None ((fun kv => if bool_decide (tk_identity (snd kv) = i) then Some kv else None) <$> map_to_list (tokens d)).

(** Unique constraints of a token row beside its key: the idempotency key, the active token and the generation of its identity. *)
Definition token_collides (except : option bytes) (t : tokenRow) (d : inventory) : bool :=
  any (fun hash other => negb (bool_decide (Some hash = except)) &&
    (bool_decide (id_scope (tk_identity other) = id_scope (tk_identity t)) && bool_decide (tk_issued_by other = tk_issued_by t)
       && bool_decide (tk_idempotency_key other = tk_idempotency_key t)
     || bool_decide (tk_identity other = tk_identity t) && bool_decide (tk_consumed_at other = None) && bool_decide (tk_consumed_at t = None)
     || bool_decide (tk_identity other = tk_identity t) && (tk_generation other =? tk_generation t))) (tokens d).
Definition token_row (t : EnrollmentToken) (generation : Z) : tokenRow :=
  MkTokenRow (token_identity t) (et_DisplayName t) (et_Labels t) (timestamptz (et_ExpiresAt t)) (timestamptz (et_CreatedAt t)) None (et_EnrollmentRevision t) (et_IssuedBy t)
    (et_IdempotencyKey t) (et_RequestFingerprint t) generation.
(** [CHECK] constraints that validation does not imply. *)
Definition token_shape (t : tokenRow) : bool :=
  After (tk_expires_at t) (tk_created_at t) && (1 <=? tk_generation t) && match tk_consumed_at t with Some at_ => negb (Before at_ (tk_created_at t)) | None => true end.
(** [createEnrollmentTokenSQL]; returns the generation. *)
Definition createEnrollmentToken (t : EnrollmentToken) (generation : Z) (d : inventory) : result pg_error (Z * inventory) :=
  let row := token_row t generation in
  if int64_max <? et_EnrollmentRevision t then Err OtherFailure
  else if negb (token_shape row) then Err CheckViolation
  else match tokens d !! et_TokenHash t with
  | Some _ => Err UniqueViolation
  | None => if token_collides None row d then Err UniqueViolation else Ok (generation, d <| tokens ::= <[et_TokenHash t := row]> |>)
  end.
(** [replaceEnrollmentTokenSQL]: the token gets another hash; [None] is no row. *)
Definition replaceEnrollmentToken (t : EnrollmentToken) (generation : Z) (existing : bytes) (expectedGeneration : Z) (d : inventory) : result pg_error (option Z * inventory) :=
  match tokens d !! existing with
  | Some old =>
      if negb (tk_generation old =? expectedGeneration) || negb (bool_decide (tk_consumed_at old = None)) then Ok (None, d)
      else
        let row := token_row t generation in
        if int64_max <? et_EnrollmentRevision t then Err OtherFailure
        else if negb (token_shape row) then Err CheckViolation
        else if negb (bool_decide (et_TokenHash t = existing)) && (bool_decide (is_Some (tokens d !! et_TokenHash t)) || bool_decide (is_Some (issuances d !! existing))) then Err UniqueViolation
        else if token_collides (Some existing) row d then Err UniqueViolation
        else Ok (Some generation, d <| tokens ::= fun m => <[et_TokenHash t := row]> (delete existing m) |>)
  | None => Ok (None, d)
  end.

(** [platformscope.Scope.Key], and what identifies an audit event. *)
Definition Scope_Key (s : JobScope) : string :=
  Itoa (Z.of_nat (String.length (TenantID s))) +:+ ":" +:+ TenantID s +:+ Itoa (Z.of_nat (String.length (ProjectID s))) +:+ ":" +:+ ProjectID s.
Definition audit_identity (t : EnrollmentToken) (generation : Z) : bytes :=
  bytes_of (Scope_Key (et_Scope t)) ++ [0] ++ bytes_of (ea_Actor (et_Audit t)) ++ [0] ++ bytes_of (ea_OperationID (et_Audit t)) ++ [0]
  ++ bytes_of (ea_IdempotencyKey (et_Audit t)) ++ [0] ++ bytes_of (Itoa generation).
Definition insertEnrollmentAudit (t : EnrollmentToken) (generation : Z) (replaced : bool) (d : inventory) : result pg_error (unit * inventory) :=
  let key := "audit-enrollment-" +:+ hex_encode (sha256 (audit_identity t generation)) in
  match audit_events d !! key with
  | Some _ => Err UniqueViolation
  | None => Ok (tt, d <| audit_events ::= <[key := {| au_scope := et_Scope t; au_action := if replaced then "host.enrollment_replaced" else "host.enrollment_created";
                     au_actor := ea_Actor (et_Audit t); au_host := et_HostID t; au_operation := ea_OperationID (et_Audit t); au_generation := generation |}]> |>)
  end.

Definition other_failure {A} (e : pg_error) : result EnrollError A := Err ErrEnrollmentOther.
Definition rolled_back {A B} (e : EnrollError) : Conn B (tx_end (result EnrollError A)) := ret (Rollback (Err e)).

(** The audit event, then the commit. *)
Definition audited (t : EnrollmentToken) (generation : Z) (replaced : bool) : Conn inventory (tx_end (result EnrollError EnrollmentTokenCreation)) :=
  audit <- statement (insertEnrollmentAudit t generation replaced) ;;
  match audit with
  | Err _ => rolled_back ErrEnrollmentOther
  | Ok _ => ret (Commit (Ok {| tc_Generation := generation; tc_Replaced := replaced |}))
  end.

Definition Create (t : EnrollmentToken) : Repo EnrollmentTokenCreation :=
  if negb (Token_Validate t) then ret (Err ErrEnrollmentRequestInvalid)
  else transaction other_failure other_failure (
    found <- query (findEnrollmentTokenReplacement (token_identity t)) ;;
    match found with
    | Err e => rolled_back (mapEnrollmentError e)
    | Ok (Some _) => rolled_back ErrEnrollmentConflict
    | Ok None =>
        created <- statement (createEnrollmentToken t 1) ;;
        match created with
        | Err e => rolled_back (mapEnrollmentError e)
        | Ok generation => if generation <? 1 then rolled_back ErrEnrollmentRequestInvalid else audited t generation false
        end
    end).

(** A host whose certificate was imported, and that has no token yet. *)
Definition imported_host (i : identity) (d : inventory) : option (hostRow * bool) :=
  match hosts d !! id_host i with
  | Some r =>
      if bool_decide (row_identity r = i) then
        Some (r, match imports d !! i with
                 | Some im => (hr_credential_generation r =? 1) && bool_decide (im_fingerprint im = hr_fingerprint r) && bool_decide (im_serial im = hr_serial r)
                 | None => false
                 end)
      else None
  | None => None
  end.
Definition replaceable_import (expectedGeneration : Z) (found : option (hostRow * bool)) : bool :=
  match found with
  | Some (r, imported) =>
      negb (bool_decide (hr_status r = HostDecommissioned)) && (hr_credential_generation r =? 1) && (expectedGeneration =? 1) && (length (hr_fingerprint r) =? sha256_Size)%nat
      && certificateSerialPattern (hr_serial r) && bool_decide (hr_credential_revoked_at r = None) && imported
  | None => false
  end.

(** With the newest token or the import at generation [generation]; [existing] is a token that was not consumed. *)
Definition replace_after (t : EnrollmentToken) (expectedGeneration generation : Z) (existing : option bytes) : Conn inventory (tx_end (result EnrollError EnrollmentTokenCreation)) :=
  if generation <? 1 then rolled_back ErrEnrollmentConflict
  else if negb (generation =? expectedGeneration) then rolled_back ErrEnrollmentGenerationConflict
  else
    let next := int64 (generation + 1) in
    written <- match existing with
               | None => created <- statement (createEnrollmentToken t next) ;; ret (match created with Ok g => Ok (Some g) | Err e => Err e end)
               | Some hash => statement (replaceEnrollmentToken t next hash expectedGeneration)
               end ;;
    match written with
    | Err e => rolled_back (mapEnrollmentError e)
    | Ok None => rolled_back ErrEnrollmentOther
    | Ok (Some g) => if g <? 2 then rolled_back ErrEnrollmentRequestInvalid else audited t g true
    end.

Definition Replace (t : EnrollmentToken) (expectedGeneration : Z) : Repo EnrollmentTokenCreation :=
  if negb (Token_Validate t) || (expectedGeneration =? 0) then ret (Err ErrEnrollmentRequestInvalid)
  else transaction other_failure other_failure (
    found <- query (findEnrollmentTokenReplacement (token_identity t)) ;;
    match found with
    | Err e => rolled_back (mapEnrollmentError e)
    | Ok (Some (hash, row)) => replace_after t expectedGeneration (tk_generation row) (match tk_consumed_at row with Some _ => None | None => Some hash end)
    | Ok None =>
        host <- query (imported_host (token_identity t)) ;;
        match host with
        | Err e => rolled_back (mapEnrollmentError e)
        | Ok host => if replaceable_import expectedGeneration host then replace_after t expectedGeneration 1 None else rolled_back ErrEnrollmentNotFound
        end
    end).

Definition ResolveReplacement (scope : JobScope) (l : ReplacementLookup) : Repo ReplacementState :=
  if negb (Scope_Validate scope) || negb (Lookup_Validate l) then ret (Err ErrEnrollmentRequestInvalid)
  else
    let i := {| id_scope := scope; id_host := rl_HostID l; id_agent := rl_AgentID l |} in
    row <- query (fun d => snd <$> List.find (fun '(_, t) => bool_decide (tk_identity t = i) && bool_decide (tk_issued_by t = rl_IssuedBy l)
             && bool_decide (tk_idempotency_key t = rl_IdempotencyKey l) && bool_decide (tk_request_fingerprint t = rl_RequestFingerprint l)) (map_to_list (tokens d))) ;;
    ret (match row with
         | Err e => Err (mapEnrollmentError e)
         | Ok None => Err ErrEnrollmentNotFound
         | Ok (Some t) =>
             if (tk_enrollment_revision t <? 1) || (tk_generation t <? 1) then Err ErrEnrollmentRequestInvalid
             else Ok {| rp_HostID := rl_HostID l; rp_AgentID := rl_AgentID l; rp_EnrollmentRevision := tk_enrollment_revision t; rp_Generation := tk_generation t |}
         end).

(** *** Resolution *)

Definition row_grant (t : tokenRow) : EnrollmentGrant :=
  {| gr_Scope := id_scope (tk_identity t); gr_HostID := id_host (tk_identity t); gr_AgentID := id_agent (tk_identity t); gr_DisplayName := tk_display_name t; gr_Labels := tk_labels t;
     gr_EnrollmentRevision := tk_enrollment_revision t; gr_Generation := tk_generation t |}.
Definition joined_host (i : identity) (d : inventory) : option hostRow :=
  match hosts d !! id_host i with Some r => if bool_decide (row_identity r = i) then Some r else None | None => None end.
(** The issued certificate is the active one of its host. *)
Definition issuance_current (k : EnrollmentAttemptKey) (t : tokenRow) (i : issuanceRow) (h : option hostRow) : bool :=
  bool_decide (is_csr_digest i = ak_CSRDigest k) && negb (bool_decide (tk_consumed_at t = None)) && negb (length (is_certificate_pem i) =? 0)%nat
  && negb (length (is_certificate_chain_pem i) =? 0)%nat && negb (is_enrollment_revision i <? 1) && (is_credential_generation i =? tk_generation t)
  && (length (is_fingerprint i) =? sha256_Size)%nat && negb (empty_string (is_serial i)) && bool_decide (is_revoked_at i = None)
  && match h with
     | Some h => negb (bool_decide (hr_status h = HostDecommissioned)) && (hr_credential_generation h =? is_credential_generation i) && bool_decide (hr_credential_revoked_at h = None)
                 && bool_decide (hr_fingerprint h = is_fingerprint i) && bool_decide (hr_serial h = is_serial i)
     | None => false
     end.
Definition issuance_response (t : tokenRow) (i : issuanceRow) : EnrollResult :=
  MkEnrollResult (id_host (tk_identity t)) (id_agent (tk_identity t)) (is_certificate_pem i) (is_certificate_chain_pem i) (UTC (is_expires_at i)) (is_enrollment_revision i)
    (is_credential_generation i) (is_fingerprint i) (is_serial i).

(** [CURRENT_TIMESTAMP] is [now]. *)
Definition resolveEnrollment (k : EnrollmentAttemptKey) (now : time) (d : inventory) : result EnrollError EnrollmentResolution :=
  match tokens d !! ak_TokenHash k with
  | None => Err ErrEnrollmentTokenInvalid
  | Some t =>
      let g := row_grant t in
      if (tk_enrollment_revision t <? 1) || (tk_generation t <? 1) then Err ErrEnrollmentRequestInvalid
      else if negb (Grant_Validate g) || negb (bool_decide (gr_AgentID g = ak_AgentID k)) || negb (empty_string (ak_HostID k)) && negb (bool_decide (gr_HostID g = ak_HostID k))
      then Err ErrEnrollmentTokenInvalid
      else
        match issuances d !! ak_TokenHash k with
        | Some i =>
            if negb (issuance_current k t i (joined_host (tk_identity t) d)) then Err ErrEnrollmentTokenInvalid
            else
              let response := issuance_response t i in
              if validateEnrollmentResult response g then Ok {| rs_Grant := g; rs_Response := Some response; rs_SupersededCredentials := [] |}
              else Err ErrEnrollmentRequestInvalid
        | None =>
            if negb (bool_decide (tk_consumed_at t = None)) || negb (After (tk_expires_at t) now) then Err ErrEnrollmentTokenInvalid
            else Ok {| rs_Grant := g; rs_Response := None; rs_SupersededCredentials := [] |}
        end
  end.

(** [resolveSupersededCredentialsSQL] *)
Definition newer_credential (a b : AgentCredential) : Prop := ac_Generation b <= ac_Generation a.
#[local] Instance newer_credential_dec a b : Decision (newer_credential a b) := decide (_ <= _).
Definition superseded_rows (g : EnrollmentGrant) (d : inventory) : list AgentCredential :=
  let i := grant_identity g in
  merge_sort newer_credential (
    ((fun '(_, x) => {| ac_Generation := is_credential_generation x; ac_Fingerprint := is_fingerprint x; ac_Serial := is_serial x |}) <$>
       List.filter (fun '(_, x) => bool_decide (is_identity x = i) && (is_credential_generation x <? gr_Generation g) && negb (bool_decide (is_revoked_at x = None)))
         (map_to_list (issuances d)))
    ++ match imports d !! i with
       | Some im => if 1 <? gr_Generation g then [{| ac_Generation := 1; ac_Fingerprint := im_fingerprint im; ac_Serial := im_serial im |}] else []
       | None => []
       end).
Definition loadSupersededCredentials (g : EnrollmentGrant) : Conn inventory (result EnrollError (list AgentCredential)) :=
  rows <- query (superseded_rows g) ;;
  ret (match rows with
       | Err e => Err (mapEnrollmentError e)
       | Ok l => if forallb (fun c => (1 <=? ac_Generation c) && (length (ac_Fingerprint c) =? sha256_Size)%nat && valid_credential c) l then Ok l else Err ErrEnrollmentRequestInvalid
       end).

Definition with_superseded (r : EnrollmentResolution) (l : list AgentCredential) : EnrollmentResolution :=
  {| rs_Grant := rs_Grant r; rs_Response := rs_Response r; rs_SupersededCredentials := l |}.
Definition resolve_query (k : EnrollmentAttemptKey) (now : time) : Conn inventory (result EnrollError EnrollmentResolution) :=
  row <- query (resolveEnrollment k now) ;; ret (match row with Err e => Err (mapEnrollmentError e) | Ok r => r end).

Definition Resolve (k : EnrollmentAttemptKey) (now : time) : Repo EnrollmentResolution :=
  if negb (Key_Validate k) then ret (Err ErrEnrollmentRequestInvalid)
  else transaction other_failure other_failure (
    resolved <- resolve_query k now ;;
    match resolved with
    | Err e => rolled_back e
    | Ok r =>
        match rs_Response r with
        | None => ret (Commit (Ok r))
        | Some _ =>
            superseded <- loadSupersededCredentials (rs_Grant r) ;;
            match superseded with Err e => rolled_back e | Ok l => ret (Commit (Ok (with_superseded r l))) end
        end
    end).

(** *** Completion *)

Definition grantsEqual (a b : EnrollmentGrant) : bool := bool_decide (a = b).

Definition recordedEnrollment (c : EnrollmentCompletion) : Conn inventory (result EnrollError unit) :=
  let g := co_Grant c in
  recorded <- RecordEnrollment (gr_Scope g)
                {| en_HostID := gr_HostID g; en_AgentID := gr_AgentID g; en_DisplayName := gr_DisplayName g; en_Labels := gr_Labels g; en_Revision := gr_EnrollmentRevision g;
                   en_EnrolledAt := co_CompletedAt c |} (co_Observation c) (co_CompletedAt c) ;;
  match recorded with
  | Ok _ => ret (Ok tt)
  | Err ErrConflict =>
      existing <- HostInventory.Get (gr_Scope g) (gr_HostID g) ;;
      ret (match existing with
           | Ok h => if negb (bool_decide (ho_AgentID h = gr_AgentID g)) || bool_decide (ho_Status h = HostDecommissioned) then Err ErrEnrollmentConflict else Ok tt
           | Err _ => Err ErrEnrollmentConflict
           end)
  | Err _ => ret (Err ErrEnrollmentOther)
  end.

Definition issuance_row (c : EnrollmentCompletion) : issuanceRow :=
  let r := co_Result c in
  MkIssuanceRow (ak_CSRDigest (co_Key c)) (grant_identity (co_Grant c)) (er_CertificatePEM r) (er_CertificateChainPEM r) (timestamptz (er_ExpiresAt r)) (timestamptz (co_CompletedAt c))
    (gr_EnrollmentRevision (co_Grant c)) (er_CredentialGeneration r) (er_CertificateFingerprint r) (er_CertificateSerial r) None.
(** [insertIssuanceSQL], with its key, unique and foreign keys. *)
Definition insertIssuance (c : EnrollmentCompletion) (d : inventory) : result pg_error (unit * inventory) :=
  let row := issuance_row c in
  if bool_decide (is_Some (issuances d !! ak_TokenHash (co_Key c))) || bool_decide (tokens d !! ak_TokenHash (co_Key c) = None)
     || bool_decide (joined_host (is_identity row) d = None)
     || any (fun _ other => bool_decide (is_identity other = is_identity row) && bool_decide (is_csr_digest other = is_csr_digest row)
                            || bool_decide (is_fingerprint other = is_fingerprint row)) (issuances d) then Err UniqueViolation
  else Ok (tt, d <| issuances ::= <[ak_TokenHash (co_Key c) := row]> |>).

(** Activation of a credential on its host; [false] is no row. *)
Definition activate (i : identity) (generation : Z) (fingerprint : bytes) (serial : string) (ok : hostRow -> bool) (at_ : time) (d : inventory) : result pg_error (bool * inventory) :=
  match joined_host i d with
  | Some r =>
      if negb (bool_decide (hr_status r = HostDecommissioned)) && ok r then
        match put_host (r <| hr_credential_generation := generation |> <| hr_fingerprint := fingerprint |> <| hr_serial := serial |> <| hr_credential_revoked_at := None |>
                          <| hr_version ::= Z.succ |> <| hr_updated_at := timestamptz at_ |>) d with
        | Ok d' => Ok (true, d')
        | Err e => Err e
        end
      else Ok (false, d)
  | None => Ok (false, d)
  end.
Definition revoke_older (i : identity) (generation : Z) (at_ : time) (d : inventory) : result pg_error (unit * inventory) :=
  Ok (tt, d <| issuances ::= fmap (fun x => if bool_decide (is_identity x = i) && (is_credential_generation x <? generation) && bool_decide (is_revoked_at x = None)
                                           then x <| is_revoked_at := Some (timestamptz at_) |> else x) |>).
Definition consumeCommittedToken (hash : bytes) (now : time) (d : inventory) : result pg_error (bool * inventory) :=
  match tokens d !! hash with
  | Some t =>
      if bool_decide (tk_consumed_at t = None) && After (tk_expires_at t) now then
        let t' := t <| tk_consumed_at := Some now |> in
        if token_shape t' then Ok (true, d <| tokens ::= <[hash := t']> |>) else Err CheckViolation
      else Ok (false, d)
  | None => Ok (false, d)
  end.

Definition complete_valid (c : EnrollmentCompletion) : bool :=
  Key_Validate (co_Key c) && Grant_Validate (co_Grant c) && Observation_Validate (co_Observation c) && validUTC (co_CompletedAt c)
  && validateEnrollmentResult (co_Result c) (co_Grant c) && bool_decide (ak_AgentID (co_Key c) = gr_AgentID (co_Grant c)) && bool_decide (ak_HostID (co_Key c) = gr_HostID (co_Grant c))
  && bool_decide (obs_AgentID (co_Observation c) = gr_AgentID (co_Grant c)) && bool_decide (obs_HostID (co_Observation c) = gr_HostID (co_Grant c)).

(** The writes of a completion, after the host is recorded. *)
Definition complete_writes (c : EnrollmentCompletion) (now : time) : Conn inventory (tx_end (result EnrollError EnrollmentCompletionResult)) :=
  let g := co_Grant c in let r := co_Result c in let i := grant_identity g in
  issued <- statement (insertIssuance c) ;;
  match issued with
  | Err e => rolled_back (mapEnrollmentError e)
  | Ok _ =>
      activated <- statement (activate i (er_CredentialGeneration r) (er_CertificateFingerprint r) (er_CertificateSerial r)
                                (fun h => hr_credential_generation h <? er_CredentialGeneration r) (co_CompletedAt c)) ;;
      match activated with
      | Err e => rolled_back (mapEnrollmentError e)
      | Ok false => rolled_back ErrEnrollmentGenerationConflict
      | Ok true =>
          revoked <- statement (revoke_older i (er_CredentialGeneration r) (co_CompletedAt c)) ;;
          match revoked with
          | Err e => rolled_back (mapEnrollmentError e)
          | Ok _ =>
              consumed <- statement (consumeCommittedToken (ak_TokenHash (co_Key c)) now) ;;
              match consumed with
              | Err e => rolled_back (mapEnrollmentError e)
              | Ok false => rolled_back ErrEnrollmentTokenInvalid
              | Ok true =>
                  superseded <- loadSupersededCredentials g ;;
                  match superseded with
                  | Err e => rolled_back e
                  | Ok l => ret (Commit (Ok {| cp_Response := r; cp_SupersededCredentials := l |}))
                  end
              end
          end
      end
  end.

Definition Complete (c : EnrollmentCompletion) (now : time) : Repo EnrollmentCompletionResult :=
  let c := match normalizeEnrollmentResult (co_Result c) (co_Grant c) with
           | Some r => {| co_Key := co_Key c; co_Grant := co_Grant c; co_Observation := co_Observation c; co_Result := r; co_CompletedAt := co_CompletedAt c |}
           | None => c
           end in
  if negb (complete_valid c) then ret (Err ErrEnrollmentRequestInvalid)
  else transaction other_failure other_failure (
    resolved <- resolve_query (co_Key c) now ;;
    match resolved with
    | Err e => rolled_back e
    | Ok r =>
        match rs_Response r with
        | Some response =>
            superseded <- loadSupersededCredentials (rs_Grant r) ;;
            ret (Rollback (match superseded with Err e => Err e | Ok l => Ok {| cp_Response := response; cp_SupersededCredentials := l |} end))
        | None =>
            if negb (grantsEqual (rs_Grant r) (co_Grant c)) then rolled_back ErrEnrollmentTokenInvalid
            else
              recorded <- recordedEnrollment c ;;
              match recorded with Err e => rolled_back e | Ok _ => complete_writes c now end
        end
    end).

(** *** Authorisation *)

Definition current_credential (fingerprint : bytes) (serial : string) (r : hostRow) : bool :=
  negb (bool_decide (hr_status r = HostDecommissioned)) && negb (hr_credential_generation r <? 1) && bool_decide (hr_credential_revoked_at r = None)
  && (length (hr_fingerprint r) =? sha256_Size)%nat && bool_decide (hr_serial r = serial) && bool_decide (hr_fingerprint r = fingerprint).
Definition authorizeCurrentAgentCredential (agentID : string) (fingerprint : bytes) (serial : string) : Conn inventory bool :=
  row <- query (find_agent agentID) ;; ret (match row with Ok (Some r) => current_credential fingerprint serial r | _ => false end).

(** A certificate that mTLS verified becomes the first credential of a host that has none. *)
Definition zero_generation (r : hostRow) : bool :=
  (hr_credential_generation r =? 0) && bool_decide (hr_fingerprint r = []) && empty_string (hr_serial r) && bool_decide (hr_credential_revoked_at r = None).
Definition insertImport (i : identity) (fingerprint : bytes) (serial : string) (now : time) (d : inventory) : result pg_error (unit * inventory) :=
  if bool_decide (is_Some (imports d !! i)) || any (fun _ im => bool_decide (im_fingerprint im = fingerprint)) (imports d) || bool_decide (joined_host i d = None) then Err UniqueViolation
  else Ok (tt, d <| imports ::= <[i := {| im_fingerprint := fingerprint; im_serial := serial; im_imported_at := now |}]> |>).
(** [ON CONFLICT DO NOTHING] *)
Definition insertImportAudit (i : identity) (fingerprint : bytes) (d : inventory) : result pg_error (unit * inventory) :=
  let digest := sha256 (bytes_of (Scope_Key (id_scope i)) ++ [0] ++ bytes_of (id_host i) ++ [0] ++ bytes_of (id_agent i) ++ [0] ++ fingerprint) in
  let key := "audit-agent-import-" +:+ hex_encode (take 16 digest) in
  match audit_events d !! key with
  | Some _ => Ok (tt, d)
  | None => Ok (tt, d <| audit_events ::= <[key := {| au_scope := id_scope i; au_action := "host.credential_generation_zero_imported"; au_actor := "generation-zero-import";
                     au_host := id_host i; au_operation := EmptyString; au_generation := 1 |}]> |>)
  end.

(** How an attempt to import ends; [NoRow] is a host that has a credential. *)
Inductive import_end := Imported | NoRow | ImportError (e : EnrollError).
Definition import_failed (e : pg_error) : import_end := ImportError (if isEnrollmentSerializationFailure e then ErrEnrollmentGenerationConflict else ErrEnrollmentTokenInvalid).

Definition import_transaction (agentID : string) (target : generationZeroImportTarget) (fingerprint : bytes) (serial : string) (now : time) : Conn inventory import_end :=
  let i := {| id_scope := gz_scope target; id_host := gz_hostID target; id_agent := agentID |} in
  transaction (fun _ => ImportError ErrEnrollmentTokenInvalid) import_failed (
    activated <- statement (activate i 1 fingerprint serial zero_generation now) ;;
    match activated with
    | Err e => ret (Rollback (import_failed e))
    | Ok false => ret (Rollback NoRow)
    | Ok true =>
        imported <- statement (insertImport i fingerprint serial now) ;;
        match imported with
        | Err e => ret (Rollback (import_failed e))
        | Ok _ =>
            audit <- statement (insertImportAudit i fingerprint) ;;
            match audit with Err e => ret (Rollback (import_failed e)) | Ok _ => ret (Commit Imported) end
        end
    end).
Definition importGenerationZeroCredentialOnce (agentID : string) (target : generationZeroImportTarget) (fingerprint : bytes) (serial : string) (now : time) : Repo unit :=
  out <- import_transaction agentID target fingerprint serial now ;;
  match out with
  | Imported => ret (Ok tt)
  | ImportError e => ret (Err e)
  | NoRow => current <- authorizeCurrentAgentCredential agentID fingerprint serial ;; ret (if (current : bool) then Ok tt else Err ErrEnrollmentTokenInvalid)
  end.

(** Serialization failures are retried. *)
Fixpoint import_attempts (n : nat) (agentID : string) (target : generationZeroImportTarget) (fingerprint : bytes) (serial : string) (now : time) : Repo unit :=
  match n with
  | O => ret (Err ErrEnrollmentTokenInvalid)
  | S n =>
      r <- importGenerationZeroCredentialOnce agentID target fingerprint serial now ;;
      match r with Err ErrEnrollmentGenerationConflict => import_attempts n agentID target fingerprint serial now | r => ret r end
  end.

(** The configured targets by agent. *)
Definition ConfigureGenerationZeroImport (agentID : string) (scope : JobScope) (hostID : string) (m : gmap string generationZeroImportTarget) :
  result EnrollError (gmap string generationZeroImportTarget) :=
  if negb (identifierPattern agentID) || negb (Scope_Validate scope) || negb (identifierPattern hostID) then Err ErrEnrollmentRequestInvalid
  else
    let target := {| gz_scope := scope; gz_hostID := hostID |} in
    match m !! agentID with
    | Some existing => if bool_decide (existing = target) then Ok (<[agentID := target]> m) else Err ErrEnrollmentConflict
    | None => Ok (<[agentID := target]> m)
    end.

Definition AuthorizeAgentCredential (targets : gmap string generationZeroImportTarget) (agentID : string) (fingerprint : bytes) (serial : string) (now : time) : Repo unit :=
  if negb (identifierPattern agentID) || bool_decide (fingerprint = zero_hash) || negb (certificateSerialPattern serial) then ret (Err ErrEnrollmentTokenInvalid)
  else
    current <- authorizeCurrentAgentCredential agentID fingerprint serial ;;
    if (current : bool) then ret (Ok tt)
    else match targets !! agentID with
    | None => ret (Err ErrEnrollmentTokenInvalid)
    | Some target => import_attempts 16 agentID target fingerprint serial now
    end.

(** The row of an import target is untouched, or has exactly its imported certificate. *)
Definition import_target_ok (d : inventory) (agentID : string) (target : generationZeroImportTarget) : bool :=
  let i := {| id_scope := gz_scope target; id_host := gz_hostID target; id_agent := agentID |} in
  match imported_host i d with
  | None => false
  | Some (r, imported) =>
      let issued := any (fun _ x => bool_decide (is_identity x = i)) (issuances d) in
      negb (bool_decide (hr_status r = HostDecommissioned)) && bool_decide (hr_credential_revoked_at r = None) && negb issued
      && ((hr_credential_generation r =? 0) && bool_decide (hr_fingerprint r = []) && empty_string (hr_serial r) && negb imported
          || (hr_credential_generation r =? 1) && (length (hr_fingerprint r) =? sha256_Size)%nat && certificateSerialPattern (hr_serial r) && imported)
  end.
Fixpoint check_import_targets (l : list (string * generationZeroImportTarget)) : Repo unit :=
  match l with
  | [] => ret (Ok tt)
  | (agentID, target) :: rest =>
      ok <- query (fun d => import_target_ok d agentID target) ;;
      match ok with Ok true => check_import_targets rest | _ => ret (Err ErrEnrollmentRequestInvalid) end
  end.
Definition ValidateGenerationZeroImports (targets : gmap string generationZeroImportTarget) : Repo unit := check_import_targets (map_to_list targets).
End repository.

(** ** The service *)

Inductive enroll_call : Type -> Type :=
  | ENow : enroll_call time
  | ERandom (n : nat) : enroll_call (option bytes)                                                (* [io.ReadFull] *)
  | ECreate (t : EnrollmentToken) : enroll_call (result EnrollError EnrollmentTokenCreation)
  | EReplace (t : EnrollmentToken) (expectedGeneration : Z) : enroll_call (result EnrollError EnrollmentTokenCreation)
  | EResolveReplacement (scope : JobScope) (l : ReplacementLookup) : enroll_call (result EnrollError ReplacementState)
  | EResolve (k : EnrollmentAttemptKey) : enroll_call (result EnrollError EnrollmentResolution)
  | EComplete (c : EnrollmentCompletion) : enroll_call (result EnrollError EnrollmentCompletionResult)
  | ESign (g : EnrollmentGrant) (csrPEM : bytes) : enroll_call (option (bytes * bytes * time))
  | ETerminateCredential (agentID : string) (fingerprint : bytes) (serial : string) : enroll_call unit.

Abbreviation eprog := (Programs.prog enroll_call).
Open Scope prog_scope.

Section service.
Context {codec : ResultCodec} {x509 : X509}.

Definition refuse_enrollment {A} (e : EnrollError) : eprog (result EnrollError A) := Return (Err e).

Definition new_token (scope : JobScope) (r : CreateRequest) (raw : bytes) (now : time) (ttl : Z) : EnrollmentToken :=
  {| et_TokenHash := HashToken raw; et_Scope := scope; et_HostID := cq_HostID r; et_AgentID := cq_AgentID r; et_DisplayName := cq_DisplayName r; et_Labels := cq_Labels r;
     et_ExpiresAt := AddDuration now ttl; et_CreatedAt := now; et_EnrollmentRevision := 1; et_IssuedBy := cq_IssuedBy r; et_IdempotencyKey := cq_IdempotencyKey r;
     et_RequestFingerprint := cq_RequestFingerprint r; et_Generation := 1; et_Audit := cq_Audit r |}.

(** [replacing] is the expected generation. *)
Definition createToken (scope : JobScope) (r : CreateRequest) (replacing : option Z) : eprog (result EnrollError CreatedEnrollment) :=
  if negb (Scope_Validate scope) then refuse_enrollment ErrEnrollmentRequestInvalid
  else
    let* now := ENow in
    let ttl := if cq_ExpiresIn r =? 0 then DefaultTokenTTL else cq_ExpiresIn r in
    if negb (validUTC now) || (ttl <? minute) || (MaximumTokenTTL <? ttl) then refuse_enrollment ErrEnrollmentRequestInvalid
    else
      let* random := ERandom EnrollmentTokenBytes in
      match random with
      | None => refuse_enrollment ErrEnrollmentOther
      | Some raw =>
          let token := new_token scope r raw now ttl in
          if negb (Token_Validate token) then refuse_enrollment ErrEnrollmentRequestInvalid
          else
            let- creation := (match replacing with
                              | Some generation => let* x := EReplace token generation in Return x
                              | None => let* x := ECreate token in Return x
                              end) in
            Return (match creation with
                    | Err e => Err e
                    | Ok x =>
                        if (tc_Generation x =? 0) || negb (Bool.eqb (tc_Replaced x) (match replacing with Some _ => true | None => false end)) then Err ErrEnrollmentRequestInvalid
                        else Ok {| ce_HostID := et_HostID token; ce_AgentID := et_AgentID token; ce_Token := raw; ce_ExpiresAt := et_ExpiresAt token;
                                   ce_EnrollmentRevision := et_EnrollmentRevision token; ce_Generation := tc_Generation x; ce_Replaced := tc_Replaced x |}
                    end)
      end.
Definition service_Create (scope : JobScope) (r : CreateRequest) : eprog (result EnrollError CreatedEnrollment) := createToken scope r None.
Definition service_Replace (scope : JobScope) (r : CreateRequest) (expectedGeneration : Z) : eprog (result EnrollError CreatedEnrollment) :=
  if expectedGeneration =? 0 then refuse_enrollment ErrEnrollmentRequestInvalid else createToken scope r (Some expectedGeneration).

Definition service_ResolveReplacement (scope : JobScope) (l : ReplacementLookup) : eprog (result EnrollError ReplacementState) :=
  if negb (Scope_Validate scope) || negb (Lookup_Validate l) then refuse_enrollment ErrEnrollmentRequestInvalid
  else
    let* state := EResolveReplacement scope l in
    Return (match state with
            | Err e => Err e
            | Ok s => if negb (State_Validate s) || negb (bool_decide (rp_HostID s = rl_HostID l)) || negb (bool_decide (rp_AgentID s = rl_AgentID l)) then Err ErrEnrollmentRequestInvalid
                      else Ok s
            end).

Fixpoint terminateConfirmedCredentials (agentID : string) (l : list AgentCredential) : eprog unit :=
  match l with
  | [] => Return tt
  | c :: rest =>
      if valid_credential c then let* _t := ETerminateCredential agentID (ac_Fingerprint c) (ac_Serial c) in terminateConfirmedCredentials agentID rest
      else terminateConfirmedCredentials agentID rest
  end.
(** Sessions with superseded credentials are ended, then the response is given. *)
Definition confirm (g : EnrollmentGrant) (l : list AgentCredential) (response : EnrollResult) : eprog (result EnrollError EnrollResult) :=
  let- _t := terminateConfirmedCredentials (gr_AgentID g) l in Return (Ok response).

Definition for_host (hostID : string) (o : HostInventory.Observation) : HostInventory.Observation :=
  {| obs_HostID := hostID; obs_AgentID := obs_AgentID o; obs_Revision := obs_Revision o; obs_AgentVersion := obs_AgentVersion o; obs_Hostname := obs_Hostname o; obs_OS := obs_OS o;
     obs_OSVersion := obs_OSVersion o; obs_Kernel := obs_Kernel o; obs_Architecture := obs_Architecture o; obs_LogicalCPUCount := obs_LogicalCPUCount o;
     obs_MemoryCapacityBytes := obs_MemoryCapacityBytes o; obs_Filesystems := obs_Filesystems o; obs_NetworkAddresses := obs_NetworkAddresses o; obs_Capabilities := obs_Capabilities o;
     obs_ObservedAt := obs_ObservedAt o |}.

Definition enroll_valid (q : EnrollRequest) : bool :=
  let o := eq_Observation q in
  (length (eq_Token q) =? EnrollmentTokenBytes)%nat && identifierPattern (eq_AgentID q) && bool_decide (obs_AgentID o = eq_AgentID q)
  && (length (eq_CSRProof q) =? ed25519_SignatureSize)%nat && Observation_Validate (if empty_string (obs_HostID o) then for_host "enrollment-host" o else o).

(** After a completion failed: what the database has. *)
Definition recover (k : EnrollmentAttemptKey) (g : EnrollmentGrant) : eprog (result EnrollError EnrollResult) :=
  let* recovered := EResolve k in
  match recovered with
  | Ok r =>
      match rs_Response r with
      | Some response => if validateEnrollmentResult response g then confirm g (rs_SupersededCredentials r) response else refuse_enrollment ErrEnrollmentOther
      | None => refuse_enrollment ErrEnrollmentOther
      end
  | Err _ => refuse_enrollment ErrEnrollmentOther
  end.

(** Signing and completion for a token that has no certificate yet. *)
Definition issue (q : EnrollRequest) (k : EnrollmentAttemptKey) (g : EnrollmentGrant) (now : time) : eprog (result EnrollError EnrollResult) :=
  let* signed := ESign g (eq_CSRPEM q) in
  match signed with
  | None => refuse_enrollment ErrEnrollmentOther
  | Some (certificatePEM, chainPEM, expiresAt) =>
      if (length certificatePEM =? 0)%nat || (length chainPEM =? 0)%nat || negb (validUTC expiresAt) || negb (After expiresAt now) then refuse_enrollment ErrEnrollmentOther
      else
        match normalizeEnrollmentResult (MkEnrollResult (gr_HostID g) (gr_AgentID g) certificatePEM chainPEM expiresAt (gr_EnrollmentRevision g) 0 [] EmptyString) g with
        | None => refuse_enrollment ErrEnrollmentOther
        | Some r =>
            let* completed := EComplete {| co_Key := k; co_Grant := g; co_Observation := for_host (gr_HostID g) (eq_Observation q); co_Result := r; co_CompletedAt := now |} in
            match completed with
            | Ok done => if validateEnrollmentResult (cp_Response done) g then confirm g (cp_SupersededCredentials done) (cp_Response done) else refuse_enrollment ErrEnrollmentOther
            | Err _ => recover k g
            end
        end
  end.

Definition Enroll (q : EnrollRequest) : eprog (result EnrollError EnrollResult) :=
  if negb (enroll_valid q) then refuse_enrollment ErrEnrollmentRequestInvalid
  else match verifiedCSRProofInputs (eq_AgentID q) (eq_CSRPEM q) (eq_CSRPublicKey q) with
  | None => refuse_enrollment ErrEnrollmentRequestInvalid
  | Some (message, publicKey, csrDigest) =>
      if negb (ed25519_Verify publicKey message (eq_CSRProof q)) then refuse_enrollment ErrEnrollmentRequestInvalid
      else
        let* now := ENow in
        if negb (validUTC now) then refuse_enrollment ErrEnrollmentRequestInvalid
        else
          let hostID := obs_HostID (eq_Observation q) in
          let* resolution := EResolve {| ak_TokenHash := HashToken (eq_Token q); ak_CSRDigest := csrDigest; ak_AgentID := eq_AgentID q; ak_HostID := hostID |} in
          match resolution with
          | Err ErrEnrollmentTokenInvalid => refuse_enrollment ErrEnrollmentTokenInvalid
          | Err _ => refuse_enrollment ErrEnrollmentOther
          | Ok r =>
              let g := rs_Grant r in
              if negb (Grant_Validate g) || negb (bool_decide (gr_AgentID g = eq_AgentID q)) || negb (empty_string hostID) && negb (bool_decide (hostID = gr_HostID g))
              then refuse_enrollment ErrEnrollmentTokenInvalid
              else
                let k := {| ak_TokenHash := HashToken (eq_Token q); ak_CSRDigest := csrDigest; ak_AgentID := eq_AgentID q; ak_HostID := gr_HostID g |} in
                match rs_Response r with
                | Some response => if validateEnrollmentResult response g then confirm g (rs_SupersededCredentials r) response else refuse_enrollment ErrEnrollmentOther
                | None => issue q k g now
                end
          end
  end.
End service.
