(* ===== verification/EnrollmentLogic.v ===== *)
(** * What enrollment keeps

    The operations that change the tables of managed hosts and enrollment, as a
    step relation; the change that each commits; and the invariant of the
    tables: which certificate is active on a host, which issuances are revoked,
    which tokens are consumed.  Facts that no later step takes back. *)

From S2P Require Import Prelude Programs GoText JobModel JobRepository CommandPhases CommandDelivery CommandLifecycle SessionRegistry AgentServer Database HostInventory Enrollment.

Open Scope Z_scope.
Open Scope update_scope.

(** ** Statements of one connection *)

(** A statement on known data. *)
Lemma statement_at {D A} (d0 : D) (f : D -> result pg_error (A * D)) :
  triple (fun d => d = d0) (statement f) (fun r d => match r with Ok a => f d0 = Ok (a, d) | Err _ => d = d0 \/ exists a, f d0 = Ok (a, d) end).
Proof. apply triple_statement; [intros; subst; by left|intros d a d' -> H; split; [done|intros e; right; by exists a]]. Qed.
Lemma query_at {D A} (d0 : D) (f : D -> A) : triple (fun d => d = d0) (query f) (fun r d => d = d0 /\ match r with Ok a => a = f d0 | Err _ => True end).
Proof. apply triple_query; intros; by subst. Qed.
Lemma bind_at {D A B} (d0 : D) (m : Conn D A) (f : A -> Conn D B) R Q :
  triple (fun d => d = d0) m R -> (forall a d1, R a d1 -> triple (fun d => d = d1) (f a) Q) -> triple (fun d => d = d0) (bind m f) Q.
Proof. intros Hm Hf. eapply triple_bind; [exact Hm|]. intros a. apply triple_at. intros d1 H. by apply Hf. Qed.
Lemma ret_at {D A} (d0 : D) (a : A) (Q : A -> D -> Prop) : Q a d0 -> triple (fun d => d = d0) (ret a) Q.
Proof. intros H. apply triple_ret. by intros d ->. Qed.
Lemma weaken_at {D A} P (m : Conn D A) (Q Q' : A -> D -> Prop) : triple P m Q -> (forall a d, Q a d -> Q' a d) -> triple P m Q'.
Proof. intros H Hq. eapply triple_weaken; [exact H|done|exact Hq]. Qed.

Lemma any_spec {K V} `{Countable K} (f : K -> V -> bool) (m : gmap K V) : any f m = true <-> exists k v, m !! k = Some v /\ f k v = true.
Proof.
  unfold any. rewrite existsb_exists. split.
  - intros ([k v] & Hin & Hf). exists k, v. split; [|done]. apply elem_of_map_to_list. by apply list_elem_of_In.
  - intros (k & v & Hk & Hf). exists (k, v). split; [|done]. by apply list_elem_of_In, elem_of_map_to_list.
Qed.
Lemma any_false {K V} `{Countable K} (f : K -> V -> bool) (m : gmap K V) k v : any f m = false -> m !! k = Some v -> f k v = false.
Proof. intros Ha Hk. destruct (f k v) eqn:E; [|done]. assert (any f m = true) by (apply any_spec; by exists k, v). congruence. Qed.

Lemma put_host_Ok r d d' : put_host r d = Ok d' -> credential_shape r = true /\ collides r d = false /\ d' = d <| hosts ::= <[hr_host_id r := r]> |>.
Proof. unfold put_host. intros H. run H. by rewrite negb_false_iff in *. Qed.

Lemma joined_host_Some i d r : joined_host i d = Some r <-> hosts d !! id_host i = Some r /\ row_identity r = i.
Proof.
  unfold joined_host. destruct (hosts d !! id_host i) as [x|]; [|naive_solver]. case_bool_decide; naive_solver.
Qed.
Lemma find_agent_Some agent d r : find_agent agent d = Some r -> exists id, hosts d !! id = Some r /\ hr_agent_id r = agent.
Proof.
  unfold find_agent. destruct (List.find _ _) as [[id x]|] eqn:E; [|done]. intros [= <-]. apply find_some in E as [Hin Ha]. bool_simpl.
  exists id. split; [|done]. by apply elem_of_map_to_list, list_elem_of_In.
Qed.
Lemma find_agent_None agent d id r : find_agent agent d = None -> hosts d !! id = Some r -> hr_agent_id r <> agent.
Proof.
  unfold find_agent. destruct (List.find _ _) as [[id' x]|] eqn:E; [done|]. intros _ Hr Ha.
  eapply find_none in E; [|apply list_elem_of_In, elem_of_map_to_list, Hr]. cbn in E. bool_simpl. done.
Qed.

(** Past the next early return of a definition that succeeded. *)
Ltac past H E := lazymatch type of H with (if ?b then _ else _) = _ => destruct b eqn:E; try discriminate H end.

Section logic.
Context {columns : PgColumns} {codec : ResultCodec} {x509 : X509}.
Local Open Scope conn_scope.

(** ** Steps *)

(** The calls of the repositories that change the tables, of any control plane. *)
Inductive operation :=
  | DoRecordObservation (scope : JobScope) (o : HostInventory.Observation) (receivedAt : time)
  | DoRecordEnrollment (scope : JobScope) (e : EnrollmentData) (o : HostInventory.Observation) (receivedAt : time)
  | DoRecordHeartbeat (scope : JobScope) (agentID : string) (at_ : time)
  | DoRecordHello (scope : JobScope) (agentID : string) (at_ : time)
  | DoDecommission (scope : JobScope) (hostID : string) (expectedVersion : Z) (at_ : time) (t : DecommissionTransition)
  | DoCreate (t : EnrollmentToken)
  | DoReplace (t : EnrollmentToken) (expectedGeneration : Z)
  | DoComplete (c : EnrollmentCompletion) (now : time)
  | DoAuthorizeAgentCredential (targets : gmap string generationZeroImportTarget) (agentID : string) (fingerprint : bytes) (serial : string) (now : time).

Definition quietly {A} (m : Conn inventory A) : Conn inventory unit := _x <- m ;; ret tt.
Definition perform (op : operation) : Conn inventory unit :=
  match op with
  | DoRecordObservation scope o at_ => quietly (RecordObservation scope o at_)
  | DoRecordEnrollment scope e o at_ => quietly (RecordEnrollment scope e o at_)
  | DoRecordHeartbeat scope agentID at_ => quietly (RecordHeartbeat scope agentID at_)
  | DoRecordHello scope agentID at_ => quietly (RecordHello scope agentID at_)
  | DoDecommission scope hostID version at_ t => quietly (Decommission scope hostID version at_ t)
  | DoCreate t => quietly (Create t)
  | DoReplace t generation => quietly (Replace t generation)
  | DoComplete c now => quietly (Complete c now)
  | DoAuthorizeAgentCredential targets agentID fingerprint serial now => quietly (AuthorizeAgentCredential targets agentID fingerprint serial now)
  end.

(** A connection outside a transaction, whatever fails on it. *)
Definition opened (d : inventory) (fs : list fault) : conn inventory := MkConn d fs false false.
Definition step (d d' : inventory) : Prop := exists op fs, d' = data (snd (perform op (opened d fs))).
Definition steps : inventory -> inventory -> Prop := rtc step.
Definition empty_inventory : inventory := Inventory ∅ ∅ ∅ ∅ ∅ ∅.

(** ** Changes *)

Lemma row_grant_identity t : grant_identity (row_grant t) = tk_identity t.
Proof. by destruct t as [[]]. Qed.

(** The result of a completion, with what its certificate says. *)
Definition normalized (c : EnrollmentCompletion) : EnrollmentCompletion :=
  match normalizeEnrollmentResult (co_Result c) (co_Grant c) with
  | Some r => {| co_Key := co_Key c; co_Grant := co_Grant c; co_Observation := co_Observation c; co_Result := r; co_CompletedAt := co_CompletedAt c |}
  | None => c
  end.

(** The row that a completion finds or makes for its host. *)
Definition records_host (c : EnrollmentCompletion) (d d' : inventory) : Prop :=
  d' = d \/ exists r e, recordEnrollmentSQL (gr_Scope (co_Grant c)) e (co_Observation c) (co_CompletedAt c) d = Ok (Some r, d').

(** The exchange of a token for a certificate. *)
Inductive completes (c : EnrollmentCompletion) (now : time) (d d' : inventory) : Prop :=
  | Completes r d1 d2 d3 d4 :
      complete_valid c = true -> resolveEnrollment (co_Key c) now d = Ok r -> rs_Response r = None -> rs_Grant r = co_Grant c ->
      records_host c d d1 -> insertIssuance c d1 = Ok (tt, d2) ->
      activate (grant_identity (co_Grant c)) (er_CredentialGeneration (co_Result c)) (er_CertificateFingerprint (co_Result c)) (er_CertificateSerial (co_Result c))
        (fun h => hr_credential_generation h <? er_CredentialGeneration (co_Result c)) (co_CompletedAt c) d2 = Ok (true, d3) ->
      revoke_older (grant_identity (co_Grant c)) (er_CredentialGeneration (co_Result c)) (co_CompletedAt c) d3 = Ok (tt, d4) ->
      consumeCommittedToken (ak_TokenHash (co_Key c)) now d4 = Ok (true, d') -> completes c now d d'.

(** What one operation commits. *)
Inductive change (d : inventory) : inventory -> Prop :=
  | change_none : change d d
  | change_observed scope o at_ r d' : recordObservationSQL scope o at_ d = Ok (Some r, d') -> change d d'
  | change_recorded scope e o at_ r d' : recordEnrollmentSQL scope e o at_ d = Ok (Some r, d') -> change d d'
  | change_alive scope agentID ok f r d' :
      (forall x, row_identity (f x) = row_identity x /\ hr_credential_generation (f x) = hr_credential_generation x /\ hr_fingerprint (f x) = hr_fingerprint x
                 /\ hr_serial (f x) = hr_serial x) ->
      updating (live_agent scope agentID ok d) f d = Ok (Some r, d') -> change d d'
  | change_decommissioned scope hostID version at_ t r d' : decommissionHostSQL scope hostID version at_ t d = Ok (Some r, d') -> change d d'
  | change_token t generation d1 d' replaced : createEnrollmentToken t generation d = Ok (generation, d1) -> insertEnrollmentAudit t generation replaced d1 = Ok (tt, d') -> change d d'
  | change_replaced t generation existing expected g d1 d' :
      replaceEnrollmentToken t generation existing expected d = Ok (Some g, d1) -> insertEnrollmentAudit t g true d1 = Ok (tt, d') -> change d d'
  | change_completed c now d' : completes c now d d' -> change d d'
  | change_imported i fingerprint serial now d1 d2 d' :
      activate i 1 fingerprint serial zero_generation now d = Ok (true, d1) -> insertImport i fingerprint serial now d1 = Ok (tt, d2) ->
      insertImportAudit i fingerprint d2 = Ok (tt, d') -> change d d'.

(** *** Operations commit one change *)

Lemma returning_change (f : inventory -> result pg_error (option hostRow * inventory)) none d0 :
  (forall d, f d0 = Ok (None, d) -> d = d0) -> triple (fun d => d = d0) none (fun _ d => d = d0) ->
  triple (fun d => d = d0) (returning f none) (fun _ d => d = d0 \/ exists r, f d0 = Ok (Some r, d)).
Proof.
  intros Hnone Hread. unfold returning. eapply bind_at; [apply statement_at|]. intros [[r|]|e] d1 H.
  - apply ret_at. right. by exists r.
  - apply Hnone in H as ->. eapply weaken_at; [exact Hread|]. intros _ d ->. by left.
  - apply ret_at. destruct H as [->|[[r|] H]]; [by left|right; by exists r|left; by apply Hnone].
Qed.

Lemma returning_reads (f : inventory -> result pg_error (option hostRow * inventory)) none d0 :
  (forall r d, f d0 = Ok (r, d) -> d = d0) -> triple (fun d => d = d0) none (fun _ d => d = d0) -> triple (fun d => d = d0) (returning f none) (fun _ d => d = d0).
Proof.
  intros Hf Hread. eapply weaken_at; [apply returning_change; [intros d H; by eapply Hf|exact Hread]|]. intros _ d [->|[r H]]; [done|by eapply Hf].
Qed.
Lemma Get_reads scope hostID d0 : triple (fun d => d = d0) (Get scope hostID) (fun _ d => d = d0).
Proof. unfold Get. case_match; [by apply ret_at|]. apply returning_reads; [by intros r d [= _ <-]|by apply ret_at]. Qed.
Lemma getByAgent_reads scope agentID d0 : triple (fun d => d = d0) (getByAgent scope agentID) (fun _ d => d = d0).
Proof. apply returning_reads; [by intros r d [= _ <-]|by apply ret_at]. Qed.
Lemma query_reads {A B} (f : inventory -> A) (g : result pg_error A -> B) d0 : triple (fun d => d = d0) (x <- query f ;; ret (g x)) (fun _ d => d = d0).
Proof. eapply bind_at; [apply query_at|]. intros r d [-> _]. by apply ret_at. Qed.
Hint Resolve Get_reads getByAgent_reads query_reads : core.

Lemma updating_None row f d d' : updating row f d = Ok (None, d') -> d' = d.
Proof. unfold updating. intros H. by run H. Qed.
Lemma put_observed_Some r o at_ d d' : put_observed r o at_ d <> Ok (None, d').
Proof. unfold put_observed. intros H. run H. Qed.

Lemma alive_changes scope agentID at_ (ok : hostRow -> bool) f d0 :
  (forall x, row_identity (f x) = row_identity x /\ hr_credential_generation (f x) = hr_credential_generation x /\ hr_fingerprint (f x) = hr_fingerprint x
             /\ hr_serial (f x) = hr_serial x) ->
  triple (fun d => d = d0)
    (if negb (Scope_Validate scope) || negb (identifierPattern agentID) || negb (validUTC at_) then ret (Err ErrInvalid)
     else returning (fun d => updating (live_agent scope agentID ok d) f d) (getByAgent scope agentID)) (fun _ d => change d0 d).
Proof.
  intros Hf. case_match; [apply ret_at, change_none|].
  eapply weaken_at; [apply returning_change; [intros d; apply updating_None|auto]|]. intros _ d [->|[r Hr]]; [apply change_none|by eapply change_alive].
Qed.

Lemma host_operations_change op d0 :
  match op with
  | DoRecordObservation _ _ _ | DoRecordEnrollment _ _ _ _ | DoRecordHeartbeat _ _ _ | DoRecordHello _ _ _ | DoDecommission _ _ _ _ _ =>
      triple (fun d => d = d0) (perform op) (fun _ d => change d0 d)
  | _ => True
  end.
Proof.
  destruct op; try exact I; cbn [perform]; unfold quietly; (eapply bind_at; [|intros a d1 Hd; apply ret_at, Hd]).
  - unfold RecordObservation. case_match; [apply ret_at, change_none|].
    eapply weaken_at; [apply returning_change|].
    + intros d H1. unfold recordObservationSQL in H1. repeat case_hyp H1; simplify_eq; try done; by apply put_observed_Some in H1.
    + eapply bind_at; [apply Get_reads|]. intros a d1 ->. by apply ret_at.
    + intros _ d [->|[r Hr]]; [apply change_none|by eapply change_observed].
  - unfold RecordEnrollment. case_match; [apply ret_at, change_none|].
    eapply weaken_at; [apply returning_change; [|by apply ret_at]|].
    + intros d H1. unfold recordEnrollmentSQL in H1. repeat case_hyp H1; simplify_eq; try done; by apply put_observed_Some in H1.
    + intros _ d [->|[r Hr]]; [apply change_none|by eapply change_recorded].
  - apply alive_changes. intros x. by destruct x.
  - apply alive_changes. intros x. by destruct x.
  - unfold Decommission. case_match; [apply ret_at, change_none|].
    eapply weaken_at; [apply returning_change; [|apply query_reads]|].
    + intros d H1. unfold decommissionHostSQL in H1. by run H1.
    + intros _ d [->|[r Hr]]; [apply change_none|by eapply change_decommissioned].
Qed.

(** *** Tokens *)

Lemma audited_at t g replaced d0 d1 : 
  (forall d', insertEnrollmentAudit t g replaced d1 = Ok (tt, d') -> change d0 d') ->
  triple (fun d => d = d1) (audited t g replaced) (fun out d => match out with Commit _ => change d0 d | Rollback _ => True end).
Proof.
  intros H. unfold audited. eapply bind_at; [apply statement_at|]. intros [[]|e] d2 H2; apply ret_at; [by apply H|done].
Qed.

(** A transaction whose body commits one change. *)
Lemma transaction_changes {A} (e1 e2 : pg_error -> A) body d0 :
  triple (fun d => d = d0) body (fun out d => match out with Commit _ => change d0 d | Rollback _ => True end) ->
  triple (fun d => d = d0) (transaction e1 e2 body) (fun _ d => change d0 d).
Proof.
  intros H. apply triple_transaction; [intros d e ->; split; apply change_none|]. intros d ->. eapply weaken_at; [exact H|].
  intros [a|a] d1 Hw; [by split|apply change_none].
Qed.

Lemma token_operations_change op d0 :
  match op with DoCreate _ | DoReplace _ _ => triple (fun d => d = d0) (perform op) (fun _ d => change d0 d) | _ => True end.
Proof.
  destruct op as [ | | | | |t|t expected| | ]; try exact I; cbn [perform]; unfold quietly; (eapply bind_at; [|intros a d1 Hd; apply ret_at, Hd]).
  - unfold Create. case_match; [apply ret_at, change_none|]. apply transaction_changes.
    eapply bind_at; [apply query_at|]. intros [[x|]|e] d1 [-> _]; try by apply ret_at.
    eapply bind_at; [apply statement_at|]. intros [g|e] d1 Hw; [|by apply ret_at]. case_match; [by apply ret_at|].
    apply audited_at. intros d' Ha. assert (g = 1) as -> by (unfold createEnrollmentToken in Hw; by run Hw). by eapply change_token.
  - unfold Replace. case_match; [apply ret_at, change_none|]. apply transaction_changes.
    assert (Hafter : forall g existing, triple (fun d => d = d0) (replace_after t expected g existing) (fun out d => match out with Commit _ => change d0 d | Rollback _ => True end)).
    { intros g existing. unfold replace_after. case_match; [by apply ret_at|]. case_match; [by apply ret_at|]. destruct existing as [hash|].
      - eapply bind_at; [apply statement_at|]. intros [[g'|]|e] d1 Hw; try by apply ret_at. case_match; [by apply ret_at|].
        apply audited_at. intros d' Ha. by eapply change_replaced.
      - eapply (bind_at _ _ _ (fun r d => match r with Ok (Some g') => createEnrollmentToken t (int64 (g + 1)) d0 = Ok (g', d) | _ => True end)).
        + eapply bind_at; [apply statement_at|]. intros [g'|e] d1 Hw; by apply ret_at.
        + intros [[g'|]|e] d1 Hw; try by apply ret_at. case_match; [by apply ret_at|].
          apply audited_at. intros d' Ha. assert (g' = int64 (g + 1)) as -> by (unfold createEnrollmentToken in Hw; by run Hw). by eapply change_token. }
    eapply bind_at; [apply query_at|]. intros [[[hash row]|]|e] d1 [-> _]; [apply Hafter| |by apply ret_at].
    eapply bind_at; [apply query_at|]. intros [host|e] d1 [-> _]; [|by apply ret_at]. case_match; [apply Hafter|by apply ret_at].
Qed.

(** *** Imports *)

(** The certificate is the active one of the agent's host. *)
Definition authorised (agentID : string) (fingerprint : bytes) (serial : string) (d : inventory) : Prop :=
  exists id r, hosts d !! id = Some r /\ hr_agent_id r = agentID /\ current_credential fingerprint serial r = true.

Lemma authorizeCurrent_at agentID fingerprint serial d0 :
  triple (fun d => d = d0) (authorizeCurrentAgentCredential agentID fingerprint serial)
    (fun b d => d = d0 /\ (b = true -> authorised agentID fingerprint serial d0)).
Proof.
  unfold authorizeCurrentAgentCredential. eapply bind_at; [apply query_at|]. intros [row|e] d1 [-> H]; apply ret_at; split; try done.
  subst. destruct (find_agent agentID d0) as [r|] eqn:Er; [|done]. intros Hr. apply find_agent_Some in Er as (id & Hid & Ha). by exists id, r.
Qed.

Lemma import_transaction_at agentID target fingerprint serial now d0 :
  triple (fun d => d = d0) (import_transaction agentID target fingerprint serial now)
    (fun out d => change d0 d /\ match out with
       | Imported => exists d1 d2, let i := {| id_scope := gz_scope target; id_host := gz_hostID target; id_agent := agentID |} in
           activate i 1 fingerprint serial zero_generation now d0 = Ok (true, d1) /\ insertImport i fingerprint serial now d1 = Ok (tt, d2) /\ insertImportAudit i fingerprint d2 = Ok (tt, d)
       | NoRow => d = d0
       | ImportError _ => True
       end).
Proof.
  apply triple_transaction; [intros d e ->; split; (split; [apply change_none|done])|]. intros d ->.
  eapply bind_at; [apply statement_at|]. intros [[]|e] d1 Ha; [|apply ret_at; split; [apply change_none|done]..].
  eapply bind_at; [apply statement_at|]. intros [[]|e] d2 Hi; [|apply ret_at; split; [apply change_none|done]].
  eapply bind_at; [apply statement_at|]. intros [[]|e] d3 Hd; [|apply ret_at; split; [apply change_none|done]].
  apply ret_at. assert (change d0 d3) by (by eapply change_imported; [exact Ha|exact Hi|exact Hd]). split; [split; [done|by exists d1, d2]|]. intros e. by split.
Qed.

Lemma activate_true i g fingerprint serial ok at_ d d' : activate i g fingerprint serial ok at_ d = Ok (true, d') ->
  exists r r', hosts d !! id_host i = Some r /\ row_identity r = i /\ hr_status r <> HostDecommissioned /\ ok r = true /\
    r' = r <| hr_credential_generation := g |> <| hr_fingerprint := fingerprint |> <| hr_serial := serial |> <| hr_credential_revoked_at := None |> <| hr_version ::= Z.succ |>
           <| hr_updated_at := timestamptz at_ |> /\
    credential_shape r' = true /\ collides r' d = false /\ d' = d <| hosts ::= <[id_host i := r']> |>.
Proof.
  unfold activate. intros H. run H. bool_simpl. apply joined_host_Some in E as [Hr Hi]. apply put_host_Ok in E1 as (Hs & Hc & ->). exists h. eexists. by subst i.
Qed.
Lemma active_shape r : credential_shape r = true -> hr_serial r <> EmptyString \/ hr_fingerprint r <> [] ->
  length (hr_fingerprint r) = sha256_Size /\ hr_serial r <> EmptyString /\ 1 <= hr_credential_generation r /\ hr_credential_revoked_at r = None /\ hr_status r <> HostDecommissioned.
Proof.
  unfold credential_shape. intros H Ha. apply orb_true_iff in H as [H|H]; [apply orb_true_iff in H as [H|H]|].
  - bool_simpl. apply Nat.eqb_eq in H. split_and!; try done. by destruct (hr_serial r).
  - exfalso. bool_simpl. destruct (hr_serial r); naive_solver.
  - exfalso. bool_simpl. destruct (hr_serial r); naive_solver.
Qed.

Lemma activate_authorises i g fingerprint serial ok at_ d d' :
  activate i g fingerprint serial ok at_ d = Ok (true, d') -> serial <> EmptyString -> authorised (id_agent i) fingerprint serial d'.
Proof.
  intros (r & r' & Hr & Hi & Hs & _ & Er & Hshape & _ & ->)%activate_true Hserial. exists (id_host i), r'. split; [cbn; by rewrite lookup_insert_eq|].
  split; [by subst i r'|]. assert (Ef : hr_fingerprint r' = fingerprint) by (by subst r'). assert (Es : hr_serial r' = serial) by (by subst r').
  destruct (active_shape _ Hshape) as (Hl & _ & Hg & Hv & Hd); [left; congruence|]. unfold current_credential.
  rewrite !andb_true_iff, !bool_decide_eq_true, !negb_true_iff, bool_decide_eq_false, Nat.eqb_eq. split_and!; try done. by apply Z.ltb_ge.
Qed.

Lemma import_attempts_at n agentID target fingerprint serial now d0 : serial <> EmptyString ->
  triple (fun d => d = d0) (import_attempts n agentID target fingerprint serial now)
    (fun r d => rtc change d0 d /\ (r = Ok tt -> authorised agentID fingerprint serial d)).
Proof.
  intros Hs. revert d0. induction n as [|n IH]; intros d0; cbn [import_attempts]; [by apply ret_at|].
  eapply (bind_at _ _ _ (fun r d => rtc change d0 d /\ (r = Ok tt -> authorised agentID fingerprint serial d))).
  - unfold importGenerationZeroCredentialOnce. eapply bind_at; [apply import_transaction_at|]. intros out d1 [Hc Ho]. destruct out as [| |e].
    + apply ret_at. split; [by apply rtc_once|]. intros _. destruct Ho as (d2 & d3 & Ha & Hi & Hau).
      apply activate_authorises in Ha as (id & r & Hr & Hag & Hcur); [|done]. exists id, r. split; [|done].
      unfold insertImport in Hi. run Hi. unfold insertImportAudit in Hau. by run Hau.
    + subst. eapply bind_at; [apply authorizeCurrent_at|]. intros [] d1 [-> Hb]; apply ret_at; (split; [done|]); [intros _; by apply Hb|done].
    + apply ret_at. split; [by apply rtc_once|done].
  - intros r d1 [Hc Hr]. destruct r as [u|e]; [by apply ret_at|]. destruct e; try (by apply ret_at).
    eapply weaken_at; [apply IH|]. intros r d [H1 H2]. split; [by etrans|done].
Qed.

Lemma serial_nonempty serial : certificateSerialPattern serial = true -> serial <> EmptyString.
Proof. unfold certificateSerialPattern, serialPattern. intros H ->. done. Qed.

Lemma AuthorizeAgentCredential_at targets agentID fingerprint serial now d0 :
  triple (fun d => d = d0) (AuthorizeAgentCredential targets agentID fingerprint serial now)
    (fun r d => rtc change d0 d /\ (r = Ok tt -> authorised agentID fingerprint serial d)).
Proof.
  unfold AuthorizeAgentCredential. destruct (negb _ || _ || _) eqn:E; [by apply ret_at|]. bool_simpl. apply serial_nonempty in H0.
  eapply bind_at; [apply authorizeCurrent_at|]. intros [] d1 [-> Hb]; [apply ret_at; split; [done|by intros; apply Hb]|].
  destruct (targets !! agentID) as [target|]; [by apply import_attempts_at|by apply ret_at].
Qed.

(** *** Resolution and completion *)

Lemma resolve_query_at k now d0 : triple (fun d => d = d0) (resolve_query k now) (fun r d => d = d0 /\ forall x, r = Ok x -> resolveEnrollment k now d0 = Ok x).
Proof. unfold resolve_query. eapply bind_at; [apply query_at|]. intros [r|e] d1 [-> H]; apply ret_at; split; try done. by subst. Qed.

(** A credential that has the shape of a loaded one. *)
Definition loadable (c : AgentCredential) : bool := (1 <=? ac_Generation c) && (length (ac_Fingerprint c) =? sha256_Size)%nat && valid_credential c.
Lemma loadSuperseded_at g d0 :
  triple (fun d => d = d0) (loadSupersededCredentials g) (fun r d => d = d0 /\ forall l, r = Ok l -> l = superseded_rows g d0 /\ forallb loadable l = true).
Proof.
  unfold loadSupersededCredentials. eapply bind_at; [apply query_at|]. intros [l|e] d1 [-> H]; apply ret_at; (split; [done|]); [|done].
  intros l'. subst l. case_match; [|done]. by intros [= <-].
Qed.

(** What a reply with a response says of the tables it was read from. *)
Definition resolves (k : EnrollmentAttemptKey) (g : EnrollmentGrant) (response : EnrollResult) (superseded : list AgentCredential) (d : inventory) : Prop :=
  exists now r, resolveEnrollment k now d = Ok r /\ rs_Response r = Some response /\ rs_Grant r = g /\ superseded = superseded_rows g d /\ forallb loadable superseded = true.

Lemma Resolve_at k now d0 :
  triple (fun d => d = d0) (Resolve k now)
    (fun a d => d = d0 /\ forall r, a = Ok r ->
       match rs_Response r with
       | Some response => resolves k (rs_Grant r) response (rs_SupersededCredentials r) d
       | None => exists r0, resolveEnrollment k now d = Ok r0 /\ rs_Response r0 = None /\ rs_Grant r0 = rs_Grant r
       end).
Proof.
  unfold Resolve. case_match; [by apply ret_at|]. apply triple_transaction; [by intros d e ->|]. intros d ->.
  eapply bind_at; [apply resolve_query_at|]. intros [r|e] d1 [-> Hr]; [|by apply ret_at]. specialize (Hr r eq_refl).
  destruct (rs_Response r) as [response|] eqn:Er; [|apply ret_at; split; [split; [done|]|done]; intros r0 [= <-]; rewrite Er; by exists r].
  eapply bind_at; [apply loadSuperseded_at|]. intros [l|e] d1 [-> Hl]; apply ret_at; [|done]. destruct (Hl l eq_refl) as [-> Hv].
  split; [split; [done|]|done]. intros r0 [= <-]. cbn [with_superseded rs_Response rs_Grant rs_SupersededCredentials]. rewrite Er. by exists now, r.
Qed.

Lemma recordedEnrollment_at c d0 : triple (fun d => d = d0) (recordedEnrollment c) (fun r d => r = Ok tt -> records_host c d0 d).
Proof.
  unfold recordedEnrollment.
  eapply (bind_at _ _ _ (fun _ d => records_host c d0 d)).
  - unfold RecordEnrollment. case_match; [apply ret_at; by left|]. eapply weaken_at; [apply returning_change; [|by apply ret_at]|].
    + intros d H1. unfold recordEnrollmentSQL in H1. repeat case_hyp H1; simplify_eq; try done; by apply put_observed_Some in H1.
    + intros _ d [->|[r Hr]]; [by left|right; by eexists r, _].
  - intros [h|e] d1 H; [by apply ret_at|]. destruct e; try by apply ret_at.
    eapply bind_at; [apply Get_reads|]. intros r d ->. by apply ret_at.
Qed.

(** The reply of a completion: what the token already had, or the new certificate. *)
Definition completed (c : EnrollmentCompletion) (now : time) (done : EnrollmentCompletionResult) (d0 d : inventory) : Prop :=
  (d = d0 /\ exists g, resolves (co_Key c) g (cp_Response done) (cp_SupersededCredentials done) d) \/
  (completes (normalized c) now d0 d /\ cp_Response done = co_Result (normalized c) /\ cp_SupersededCredentials done = superseded_rows (co_Grant c) d
   /\ forallb loadable (cp_SupersededCredentials done) = true).

Lemma complete_writes_at c now r d0 d1 :
  complete_valid c = true -> resolveEnrollment (co_Key c) now d0 = Ok r -> rs_Response r = None -> rs_Grant r = co_Grant c -> records_host c d0 d1 ->
  triple (fun d => d = d1) (complete_writes c now)
    (fun out d => match out with
       | Commit x => completes c now d0 d /\ exists done, x = Ok done /\ cp_Response done = co_Result c /\ cp_SupersededCredentials done = superseded_rows (co_Grant c) d
                     /\ forallb loadable (cp_SupersededCredentials done) = true
       | Rollback x => forall done, x <> Ok done
       end).
Proof.
  intros Hv Hr Hn Hg Hh. unfold complete_writes.
  eapply bind_at; [apply statement_at|]. intros [[]|e] d2 Hi; [|by apply ret_at].
  eapply bind_at; [apply statement_at|]. intros [[]|e] d3 Ha; [|by apply ret_at..].
  eapply bind_at; [apply statement_at|]. intros [[]|e] d4 Ho; [|by apply ret_at].
  eapply bind_at; [apply statement_at|]. intros [[]|e] d5 Hc; [|by apply ret_at..].
  eapply bind_at; [apply loadSuperseded_at|]. intros [l|e] d6 [-> Hl]; apply ret_at; [|done]. destruct (Hl l eq_refl) as [-> Hl2].
  split; [by eapply Completes|]. by eexists.
Qed.

Lemma normalized_same c : co_Key (normalized c) = co_Key c /\ co_Grant (normalized c) = co_Grant c.
Proof. unfold normalized. by destruct (normalizeEnrollmentResult _ _). Qed.

Lemma Complete_at c now d0 :
  triple (fun d => d = d0) (Complete c now) (fun a d => change d0 d /\ forall done, a = Ok done -> completed c now done d0 d).
Proof.
  unfold Complete. fold (normalized c). destruct (normalized_same c) as [Hk Hg]. case_match eqn:Hvalid; [by apply ret_at; split; [apply change_none|]|].
  apply negb_false_iff in Hvalid.
  apply triple_transaction; [intros d e ->; split; (split; [apply change_none|done])|]. intros d ->.
  eapply bind_at; [apply resolve_query_at|]. intros [r|e] d1 [-> Hr]; [|by apply ret_at; split; [apply change_none|]]. specialize (Hr r eq_refl).
  destruct (rs_Response r) as [response|] eqn:Er.
  - eapply bind_at; [apply loadSuperseded_at|]. intros [l|e] d1 [-> Hl]; apply ret_at; (split; [apply change_none|]); [|done].
    destruct (Hl l eq_refl) as [-> Hl2]. intros x [= <-]. left. split; [done|]. exists (rs_Grant r), now, r. by rewrite <- Hk.
  - case_match eqn:Hgr; [by apply ret_at; split; [apply change_none|]|]. apply negb_false_iff, bool_decide_eq_true in Hgr.
    eapply bind_at; [apply recordedEnrollment_at|]. intros [[]|e] d1 Hh; [|by apply ret_at; split; [apply change_none|]].
    eapply weaken_at; [eapply (complete_writes_at (normalized c) now r d0 d1 Hvalid); [exact Hr|exact Er|exact Hgr|by apply Hh]|]. intros [x|x] d2 H; [|split; [apply change_none|]; intros y Hy; by destruct (H y)].
    destruct H as (Hc & done & -> & H1 & H2 & H3). assert (change d0 d2) by by eapply change_completed.
    split; [|intros e; by split]. split; [done|]. intros y [= <-]. right. by rewrite <- Hg.
Qed.

(** *** Steps are changes *)

Lemma perform_changes op d0 : triple (fun d => d = d0) (perform op) (fun _ d => rtc change d0 d).
Proof.
  pose proof (host_operations_change op d0) as Hh. pose proof (token_operations_change op d0) as Ht.
  destruct op; try (eapply weaken_at; [first [exact Hh|exact Ht]|intros; by apply rtc_once]); cbn [perform]; unfold quietly.
  - eapply bind_at; [apply Complete_at|]. intros a d1 [H _]. by apply ret_at, rtc_once.
  - eapply bind_at; [apply AuthorizeAgentCredential_at|]. intros a d1 [H _]. by apply ret_at.
Qed.
Lemma step_changes d d' : step d d' -> rtc change d d'.
Proof. intros (op & fs & ->). by apply (perform_changes op d). Qed.
Lemma steps_changes d d' : steps d d' -> rtc change d d'.
Proof. induction 1 as [|d d1 d2 H _ IH]; [done|]. etrans; [by apply step_changes|done]. Qed.

(** ** The invariant *)

(** The active certificate of a host is the one that was issued for its generation, or its imported one. *)
Definition certified (d : inventory) (r : hostRow) : Prop :=
  (exists k i, issuances d !! k = Some i /\ is_identity i = row_identity r /\ is_revoked_at i = None /\ is_credential_generation i = hr_credential_generation r
     /\ is_fingerprint i = hr_fingerprint r /\ is_serial i = hr_serial r)
  \/ ((exists im, imports d !! row_identity r = Some im /\ im_fingerprint im = hr_fingerprint r /\ im_serial im = hr_serial r) /\ hr_credential_generation r = 1
     /\ forall k i, issuances d !! k = Some i -> is_identity i <> row_identity r).

(** An issuance is of a host, of a generation that the host has reached; it is active unless it was revoked. *)
Definition issued_to (d : inventory) (i : issuanceRow) : Prop :=
  exists r, hosts d !! id_host (is_identity i) = Some r /\ row_identity r = is_identity i /\ 1 <= is_credential_generation i <= hr_credential_generation r
    /\ (is_revoked_at i = None -> hr_credential_generation r = is_credential_generation i /\ hr_fingerprint r = is_fingerprint i /\ hr_serial r = is_serial i
        /\ hr_fingerprint r <> []).

Record inventory_ok (d : inventory) : Prop := {
  ok_host_id id r : hosts d !! id = Some r -> hr_host_id r = id;
  ok_shape id r : hosts d !! id = Some r -> credential_shape r = true;
  ok_agents id1 id2 r1 r2 : hosts d !! id1 = Some r1 -> hosts d !! id2 = Some r2 -> hr_agent_id r1 = hr_agent_id r2 -> id1 = id2;
  ok_certificates id1 id2 r1 r2 : hosts d !! id1 = Some r1 -> hosts d !! id2 = Some r2 -> hr_fingerprint r1 <> [] -> hr_fingerprint r1 = hr_fingerprint r2 -> id1 = id2;
  ok_certified id r : hosts d !! id = Some r -> hr_fingerprint r <> [] -> certified d r;
  ok_issued k i : issuances d !! k = Some i -> issued_to d i;
  ok_fingerprints k1 k2 i1 i2 : issuances d !! k1 = Some i1 -> issuances d !! k2 = Some i2 -> is_fingerprint i1 = is_fingerprint i2 -> k1 = k2;
  ok_token k i : issuances d !! k = Some i -> exists t, tokens d !! k = Some t /\ tk_identity t = is_identity i /\ tk_generation t = is_credential_generation i /\ tk_consumed_at t <> None;
  ok_consumed k t : tokens d !! k = Some t -> tk_consumed_at t <> None -> is_Some (issuances d !! k);
  ok_imported i im : imports d !! i = Some im -> exists r, hosts d !! id_host i = Some r /\ row_identity r = i /\ 1 <= hr_credential_generation r;
}.

Lemma empty_ok : inventory_ok empty_inventory.
Proof. split; cbn; intros *; rewrite ?lookup_empty; done. Qed.

(** The tables that the invariant is about. *)
Lemma inventory_ok_ext d d' : hosts d' = hosts d -> issuances d' = issuances d -> tokens d' = tokens d -> imports d' = imports d -> inventory_ok d -> inventory_ok d'.
Proof.
  destruct d, d'. cbn. intros -> -> -> -> [H1 H2 H3 H4 H5 H6 H7 H8 H9 H10].
  split; [exact H1|exact H2|exact H3|exact H4|exact H5|exact H6|exact H7|exact H8|exact H9|exact H10].
Qed.

Lemma collides_false r d id x : collides r d = false -> hosts d !! id = Some x -> id <> hr_host_id r ->
  hr_agent_id x <> hr_agent_id r /\ (length (hr_fingerprint r) = sha256_Size -> hr_fingerprint x <> hr_fingerprint r).
Proof.
  unfold collides. intros Ha Hx Hid. eapply any_false in Ha; [|exact Hx]. cbn in Ha. rewrite bool_decide_eq_false_2 in Ha by done. cbn in Ha. bool_simpl.
  split; [done|]. intros Hl. rewrite Hl, Nat.eqb_refl in *. cbn in *. by bool_simpl.
Qed.

(** Writing a host row, for the part of the invariant about hosts alone. *)
Lemma put_host_unique r d : inventory_ok d -> credential_shape r = true -> collides r d = false ->
  let m := <[hr_host_id r := r]> (hosts d) in
  (forall id x, m !! id = Some x -> hr_host_id x = id) /\ (forall id x, m !! id = Some x -> credential_shape x = true) /\
  (forall id1 id2 r1 r2, m !! id1 = Some r1 -> m !! id2 = Some r2 -> hr_agent_id r1 = hr_agent_id r2 -> id1 = id2) /\
  (forall id1 id2 r1 r2, m !! id1 = Some r1 -> m !! id2 = Some r2 -> hr_fingerprint r1 <> [] -> hr_fingerprint r1 = hr_fingerprint r2 -> id1 = id2).
Proof.
  intros Hok Hs Hc m.
  assert (Hlen : hr_fingerprint r <> [] -> length (hr_fingerprint r) = sha256_Size) by (intros H; by apply (active_shape r); [|right]).
  split_and!.
  - intros id x [[<- <-]|[_ H]]%lookup_insert_Some; [done|by eapply ok_host_id].
  - intros id x [[<- <-]|[_ H]]%lookup_insert_Some; [done|by eapply ok_shape].
  - intros id1 id2 r1 r2 [[<- <-]|[Hn1 H1]]%lookup_insert_Some [[<- <-]|[Hn2 H2]]%lookup_insert_Some Ha; [done| | |by eapply ok_agents].
    + by destruct (collides_false r d id2 r2 Hc H2) as [? _].
    + by destruct (collides_false r d id1 r1 Hc H1) as [? _].
  - intros id1 id2 r1 r2 [[<- <-]|[Hn1 H1]]%lookup_insert_Some [[<- <-]|[Hn2 H2]]%lookup_insert_Some Hne Ha; [done| | |by eapply ok_certificates].
    + destruct (collides_false r d id2 r2 Hc H2) as [_ Hf]; [done|]. by destruct Hf; [apply Hlen|].
    + destruct (collides_false r d id1 r1 Hc H1) as [_ Hf]; [done|]. destruct Hf; [apply Hlen; congruence|done].
Qed.

(** A row of the same host with the same credential. *)
Definition same_credential (r r' : hostRow) : Prop :=
  row_identity r' = row_identity r /\ hr_credential_generation r' = hr_credential_generation r /\ hr_fingerprint r' = hr_fingerprint r /\ hr_serial r' = hr_serial r.

Lemma put_host_ok r' d d' : inventory_ok d -> put_host r' d = Ok d' ->
  match hosts d !! hr_host_id r' with Some r => same_credential r r' | None => hr_fingerprint r' = [] end -> inventory_ok d'.
Proof.
  intros Hok (Hs & Hc & ->)%put_host_Ok Hold. destruct (put_host_unique r' d Hok Hs Hc) as (Hm1 & Hm2 & Hm3 & Hm4).
  split; cbn; [exact Hm1|exact Hm2|exact Hm3|exact Hm4| | |apply ok_fingerprints, Hok|apply ok_token, Hok|apply ok_consumed, Hok|].
  - intros id x [[<- <-]|[Hn H]]%lookup_insert_Some Hne; [|by apply (ok_certified d Hok id x)].
    destruct (hosts d !! hr_host_id r') as [r|] eqn:Hr; [|done]. destruct Hold as (Hi & Hg & Hf & Hse).
    assert (certified d r) as Hcert by (eapply ok_certified; [done|exact Hr|congruence]). unfold certified in *. cbn. by rewrite Hi, Hg, Hf, Hse.
  - intros k i Hi. destruct (ok_issued d Hok k i Hi) as (r & Hr & Hrest). unfold issued_to. cbn.
    destruct (decide (hr_host_id r' = id_host (is_identity i))) as [He|Hne].
    + rewrite He, lookup_insert_eq. rewrite He, Hr in Hold. destruct Hold as (Hi' & Hg & Hf & Hse). exists r'. by rewrite Hi', Hg, Hf, Hse.
    + rewrite lookup_insert_ne by done. by exists r.
  - intros i im Him. destruct (ok_imported d Hok i im Him) as (r & Hr & Hrest). destruct (decide (hr_host_id r' = id_host i)) as [He|Hne].
    + rewrite He, lookup_insert_eq. rewrite He, Hr in Hold. destruct Hold as (Hi' & Hg & _). exists r'. by rewrite Hi', Hg.
    + rewrite lookup_insert_ne by done. by exists r.
Qed.

Lemma put_observed_ok r o at_ d x d' : inventory_ok d -> put_observed r o at_ d = Ok (x, d') ->
  match hosts d !! hr_host_id r with Some r0 => same_credential r0 r | None => hr_fingerprint r = [] end -> inventory_ok d'.
Proof.
  intros Hok H Hold. unfold put_observed, insert_observation in H. destruct (put_host r d) as [d1|e] eqn:E; [|done].
  assert (inventory_ok d1) as Hok1 by by eapply put_host_ok. destruct (observations d1 !! _); [done|]. simplify_eq. by apply (inventory_ok_ext d1).
Qed.

Lemma observed_same o at_ r : same_credential r (observed o at_ r).
Proof. by destruct r. Qed.
Lemma new_host_row scope name labels revision at1 o at_ :
  let r := new_host scope name labels revision at1 o at_ in hr_host_id r = obs_HostID o /\ hr_fingerprint r = [] /\ hr_credential_generation r = 0.
Proof. done. Qed.

Lemma recordEnrollment_ok scope e o at_ d x d' : inventory_ok d -> recordEnrollmentSQL scope e o at_ d = Ok (x, d') -> inventory_ok d'.
Proof.
  unfold recordEnrollmentSQL. intros Hok H. run H; [done..|]. eapply put_observed_ok; [done|exact H|]. cbn. by rewrite E.
Qed.

Lemma live_agent_Some scope agentID ok d r : inventory_ok d -> live_agent scope agentID ok d = Some r ->
  hosts d !! hr_host_id r = Some r /\ hr_agent_id r = agentID /\ hr_scope r = scope /\ hr_status r <> HostDecommissioned.
Proof.
  unfold live_agent, scoped_agent. intros Hok H. destruct (find_agent agentID d) as [x|] eqn:E; [|done]. case_bool_decide; [|done]. destruct (negb _ && _) eqn:Eg; [|done]. simplify_eq. apply find_agent_Some in E as (id & Hid & <-). bool_simpl.
  by rewrite (ok_host_id d Hok id r Hid).
Qed.

Lemma alive_ok scope agentID ok f d x d' : inventory_ok d -> (forall r, same_credential r (f r)) -> updating (live_agent scope agentID ok d) f d = Ok (x, d') -> inventory_ok d'.
Proof.
  intros Hok Hf H. unfold updating in H. destruct (live_agent scope agentID ok d) as [r|] eqn:E; [|by run H].
  apply live_agent_Some in E as (Hr & _); [|done]. run H. eapply put_host_ok; [done|exact E|].
  destruct (Hf r) as [Hi Hrest]. replace (hr_host_id (f r)) with (hr_host_id r) by (symmetry; apply (f_equal id_host Hi)). by rewrite Hr.
Qed.

Lemma recordObservation_ok scope o at_ d x d' : inventory_ok d -> recordObservationSQL scope o at_ d = Ok (x, d') -> inventory_ok d'.
Proof.
  unfold recordObservationSQL. intros Hok H. destruct (hosts d !! obs_HostID o) as [r|] eqn:E.
  - case_match eqn:Hg; [|by simplify_eq]. eapply put_observed_ok; [done|exact H|]. cbn. rewrite (ok_host_id d Hok _ r E), E. by destruct r.
  - eapply put_observed_ok; [done|exact H|]. cbn. by rewrite E.
Qed.

Lemma token_inserted_ok t g d d' : inventory_ok d -> createEnrollmentToken t g d = Ok (g, d') -> inventory_ok d'.
Proof.
  unfold createEnrollmentToken. intros [H1 H2 H3 H4 H5 H6 H7 H8 H9 H10] H. destruct (tokens d !! et_TokenHash t) eqn:E; run H. split; cbn; try done.
  - intros k i Hi. rewrite lookup_insert_ne; [by apply H8|]. intros <-. destruct (H8 _ _ Hi) as (x & Hx & _). congruence.
  - intros k x [[<- <-]|[_ Hx]]%lookup_insert_Some; [done|by apply H9].
Qed.
(** A replacement leaves the tokens that were consumed. *)
Lemma token_replaced_keeps t g existing expected d x d' k y : replaceEnrollmentToken t g existing expected d = Ok (Some x, d') ->
  tokens d !! k = Some y -> tk_consumed_at y <> None -> tokens d' !! k = Some y.
Proof.
  unfold replaceEnrollmentToken. intros H Hy Hcs. destruct (tokens d !! existing) as [old|] eqn:E; [|done]. past H Eo. past H Ei. past H Es. past H Eh. past H Ec.
  simplify_eq H. intros <- <-. bool_simpl. cbn. assert (k <> existing) by (intros ->; congruence).
  assert (et_TokenHash t <> k); [|by rewrite lookup_insert_ne, lookup_delete_ne].
  intros <-. apply andb_false_iff in Eh as [Eh|Eh]; bool_simpl; [done|]. rewrite Hy in *. by match goal with H : ~ is_Some (Some _) |- _ => destruct H end.
Qed.
Lemma token_replaced_ok t g existing expected d x d' : inventory_ok d -> replaceEnrollmentToken t g existing expected d = Ok (Some x, d') -> inventory_ok d'.
Proof.
  intros [H1 H2 H3 H4 H5 H6 H7 H8 H9 H10] H.
  assert (Hk : forall k y, tokens d !! k = Some y -> tk_consumed_at y <> None -> tokens d' !! k = Some y) by (intros; by eapply token_replaced_keeps).
  unfold replaceEnrollmentToken in H. destruct (tokens d !! existing) as [old|] eqn:E; [|done]. past H Eo. past H Ei. past H Es. past H Eh. past H Ec.
  simplify_eq H. intros <- <-. split; try done.
  - intros k i Hi. destruct (H8 k i Hi) as (y & Hy & Hi1 & Hi2 & Hi3). exists y. split; [by apply Hk|done].
  - cbn. intros k y [[<- <-]|[_ Hx]]%lookup_insert_Some; [done|]. apply lookup_delete_Some in Hx as [_ Hx]. by apply H9.
Qed.
Lemma audit_frame t g replaced d d' : insertEnrollmentAudit t g replaced d = Ok (tt, d') ->
  hosts d' = hosts d /\ issuances d' = issuances d /\ tokens d' = tokens d /\ imports d' = imports d.
Proof. unfold insertEnrollmentAudit. intros H. destruct (audit_events d !! _); [done|]. by simplify_eq. Qed.

(** Issuances are revoked in place. *)
Definition revoking (which : issuanceRow -> bool) (at_ : time) (i : issuanceRow) : issuanceRow := if which i then i <| is_revoked_at := Some at_ |> else i.
Lemma revoking_same which at_ i : let j := revoking which at_ i in
  is_identity j = is_identity i /\ is_credential_generation j = is_credential_generation i /\ is_fingerprint j = is_fingerprint i /\ is_serial j = is_serial i.
Proof. unfold revoking. by destruct (which i), i. Qed.
Lemma revoked_lookup (which : issuanceRow -> bool) (at_ : time) (m : gmap bytes issuanceRow) (k : bytes) (j : issuanceRow) : (revoking which at_ <$> m) !! k = Some j ->
  exists i, m !! k = Some i /\ j = revoking which at_ i /\ is_identity j = is_identity i /\ is_credential_generation j = is_credential_generation i
    /\ is_fingerprint j = is_fingerprint i /\ is_serial j = is_serial i.
Proof. intros (i & Hj & Hi)%lookup_fmap_Some. subst j. exists i. split; [done|]. split; [done|]. apply revoking_same. Qed.

Lemma identity_host r i : row_identity r = i -> hr_host_id r = id_host i.
Proof. by intros <-. Qed.

Lemma decommission_ok scope hostID version at_ t d x d' : inventory_ok d -> decommissionHostSQL scope hostID version at_ t d = Ok (Some x, d') -> inventory_ok d'.
Proof.
  unfold decommissionHostSQL, scoped_host. intros Hok H. destruct (hosts d !! hostID) as [r|] eqn:Hr; [|done]. case_bool_decide; [|done].
  destruct (_ && _); [|done]. destruct (put_host _ d) as [d1|] eqn:Hp; [|done]. simplify_eq. apply put_host_Ok in Hp as (Hs & Hc & ->).
  set (r' := decommissioned at_ t r) in *. destruct (put_host_unique r' d Hok Hs Hc) as (Hm1 & Hm2 & Hm3 & Hm4).
  pose proof (ok_host_id d Hok _ _ Hr) as Hid. assert (hr_host_id r' = hostID) as Hid' by done. rewrite Hid' in *.
  set (which := fun i => bool_decide (is_identity i = row_identity r) && bool_decide (is_revoked_at i = None)).
  split; cbn; fold r'; rewrite ?Hid'; fold (revoking which (timestamptz at_)); [exact Hm1|exact Hm2|exact Hm3|exact Hm4| | | | | |].
  - intros id y [[<- <-]|[Hn Hy]]%lookup_insert_Some Hne; [done|].
    assert (row_identity y <> row_identity r) as Hdiff by (intros Hi%identity_host; rewrite (ok_host_id d Hok _ _ Hy) in Hi; cbn in Hi; congruence).
    destruct (ok_certified d Hok id y Hy Hne) as [(k & i & Hk & Hi & Hrest)|(Him & Hg & Hno)]; [left|right].
    + exists k, i. split; [|done]. cbn. rewrite lookup_fmap, Hk. cbn. unfold revoking, which. rewrite bool_decide_eq_false_2 by congruence. done.
    + split; [done|split; [done|]]. cbn. intros k j (i & Hi & _ & He & _)%revoked_lookup. rewrite He. by apply Hno with k.
  - intros k j (i & Hi & Hj & He1 & He2 & He3 & He4)%revoked_lookup. destruct (ok_issued d Hok k i Hi) as (y & Hy & Hyi & Hg & Hact).
    unfold issued_to. cbn. rewrite He1, He2, He3, He4. destruct (decide (hostID = id_host (is_identity i))) as [->|Hn].
    + rewrite lookup_insert_eq. assert (y = r) as -> by congruence. exists r'. split; [done|]. split; [done|].
      assert (hr_credential_generation r' = hr_credential_generation r + 1) as -> by done. split; [lia|]. rewrite Hj. unfold revoking, which.
      rewrite bool_decide_eq_true_2 by done. cbn. case_bool_decide as Hv; [done|]. intros Hv'. by destruct Hv.
    + rewrite lookup_insert_ne by done. exists y. split; [done|]. split; [done|]. split; [done|]. rewrite Hj. unfold revoking.
      fold (which i). destruct (which i) eqn:Hw; [cbn; intros; discriminate|exact Hact].
  - intros k1 k2 j1 j2 (i1 & H1 & _ & _ & _ & Hf1 & _)%revoked_lookup (i2 & H2 & _ & _ & _ & Hf2 & _)%revoked_lookup He. eapply (ok_fingerprints d); [done|exact H1|exact H2|congruence].
  - intros k j (i & Hi & _ & He1 & He2 & _)%revoked_lookup. rewrite He1, He2. by eapply ok_token.
  - intros k y Hy Hcs. rewrite lookup_fmap, fmap_is_Some. by eapply ok_consumed.
  - intros i im Him. destruct (ok_imported d Hok i im Him) as (y & Hy & Hyi & Hg). destruct (decide (hostID = id_host i)) as [->|Hn].
    + rewrite lookup_insert_eq. exists r'. assert (y = r) as -> by congruence. split; [done|]. split; [done|]. cbn. lia.
    + rewrite lookup_insert_ne by done. by exists y.
Qed.

(** ** What no step takes back *)

(** A host keeps its identity, its generations grow, and it stays decommissioned; an issuance keeps all but its revocation, which stays. *)
Definition host_kept (r r' : hostRow) : Prop :=
  row_identity r' = row_identity r /\ hr_credential_generation r <= hr_credential_generation r' /\ (hr_status r = HostDecommissioned -> hr_status r' = HostDecommissioned).
Definition issuance_kept (i i' : issuanceRow) : Prop :=
  i' <| is_revoked_at := None |> = i <| is_revoked_at := None |> /\ (is_revoked_at i <> None -> is_revoked_at i' = is_revoked_at i).
Record kept (d d' : inventory) : Prop := {
  kept_hosts id r : hosts d !! id = Some r -> exists r', hosts d' !! id = Some r' /\ host_kept r r';
  kept_issuances k i : issuances d !! k = Some i -> exists i', issuances d' !! k = Some i' /\ issuance_kept i i';
  kept_imports i im : imports d !! i = Some im -> imports d' !! i = Some im;
  kept_tokens k t : tokens d !! k = Some t -> tk_consumed_at t <> None -> tokens d' !! k = Some t;
  (* new issuances are of new generations; a host that has a credential gets no import *)
  new_issuances k i' r : issuances d' !! k = Some i' -> hosts d !! id_host (is_identity i') = Some r ->
    is_Some (issuances d !! k) \/ hr_credential_generation r < is_credential_generation i';
  new_imports i im r : imports d' !! i = Some im -> hosts d !! id_host i = Some r -> imports d !! i = Some im \/ hr_credential_generation r <= 0;
}.

Lemma kept_refl d : kept d d.
Proof. split; [intros id r H; exists r; by split_and!|intros k i H; by exists i|done|done|by left; exists i'|by left]. Qed.
Lemma kept_trans d1 d2 d3 : kept d1 d2 -> kept d2 d3 -> kept d1 d3.
Proof.
  intros [H1 H2 H3 H0 H4 H5] [G1 G2 G3 G0 G4 G5]. split; [| |by intros i im H%H3%G3|auto| |].
  - intros id r (r2 & (r3 & Hr3 & ? & ? & ?)%G1 & ? & ? & ?)%H1. exists r3. split; [done|]. split; [congruence|]. split; [lia|auto].
  - intros k i (i2 & (i3 & Hi3 & E3 & V3)%G2 & E2 & V2)%H2. exists i3. split; [done|]. split; [congruence|]. intros Hv. rewrite V3; [auto|by rewrite V2].
  - intros k i3 r Hi3 Hr. destruct (H1 _ _ Hr) as (r2 & Hr2 & _ & Hg & _). destruct (G4 k i3 r2 Hi3 Hr2) as [[i2 Hi2]|Hn]; [|right; lia].
    destruct (G2 k i2 Hi2) as (i3' & Hi3' & He & _). assert (i3' = i3) as -> by congruence. assert (is_identity i3 = is_identity i2 /\ is_credential_generation i3 = is_credential_generation i2) as [E1 E2] by (by destruct i2, i3; simplify_eq He).
    rewrite E2. apply (H4 k i2 r); [done|by rewrite <- E1].
  - intros i im r Him Hr. destruct (H1 _ _ Hr) as (r2 & Hr2 & _ & Hg & _). destruct (G5 i im r2 Him Hr2) as [Hi2|Hz]; [by apply (H5 i im r)|right; lia].
Qed.

(** One host row is written, nothing else. *)
Lemma kept_put_host r' d : match hosts d !! hr_host_id r' with Some r => host_kept r r' | None => True end -> kept d (d <| hosts ::= <[hr_host_id r' := r']> |>).
Proof.
  intros H. split; cbn; [|intros k i Hi; by exists i|done|done|by left; exists i'|by left]. intros id r Hr. destruct (decide (hr_host_id r' = id)) as [<-|Hn].
  - rewrite lookup_insert_eq. rewrite Hr in H. by exists r'.
  - rewrite lookup_insert_ne by done. exists r. by split_and!.
Qed.
Lemma kept_ext d d' d'' : kept d d' -> hosts d'' = hosts d' -> issuances d'' = issuances d' -> imports d'' = imports d' -> tokens d'' = tokens d' -> kept d d''.
Proof. intros [H1 H2 H3 H0 H4 H5] E1 E2 E3 E4. split; rewrite ?E1, ?E2, ?E3, ?E4; [exact H1|exact H2|exact H3|exact H0|exact H4|exact H5]. Qed.
Lemma kept_tables d d' : (forall k t, tokens d !! k = Some t -> tk_consumed_at t <> None -> tokens d' !! k = Some t) ->
  hosts d' = hosts d -> issuances d' = issuances d -> imports d' = imports d -> kept d d'.
Proof. intros Ht E1 E2 E3. split; rewrite ?E1, ?E2, ?E3; [intros id r H; exists r; by split_and!|intros k i H; by exists i|done|exact Ht|by left; exists i'|by left]. Qed.

Lemma put_observed_kept r o at_ d x d' : put_observed r o at_ d = Ok (x, d') -> match hosts d !! hr_host_id r with Some r0 => host_kept r0 r | None => True end -> kept d d'.
Proof.
  unfold put_observed. intros H Hk. destruct (put_host r d) as [d1|] eqn:Ep; [|done]. apply put_host_Ok in Ep as (_ & _ & ->).
  unfold insert_observation in H. destruct (observations _ !! _); [done|]. injection H as _ <-. by eapply kept_ext; [apply (kept_put_host r d Hk)|..].
Qed.
Lemma recordEnrollment_kept scope e o at_ d x d' : recordEnrollmentSQL scope e o at_ d = Ok (x, d') -> kept d d'.
Proof.
  unfold recordEnrollmentSQL. intros H. destruct (hosts d !! obs_HostID o) eqn:E; [injection H as _ <-; apply kept_refl|].
  destruct (collides _ d); [injection H as _ <-; apply kept_refl|]. eapply put_observed_kept; [exact H|]. cbn. by rewrite E.
Qed.

Lemma revoking_kept which at_ d : (forall i, which i = true -> is_revoked_at i = None) -> kept d (d <| issuances ::= fmap (revoking which at_) |>).
Proof.
  intros Hw. split; cbn; [intros id r H; exists r; by split_and!| |done|done| |by left]; [|intros k i' r (i & Hi & _)%revoked_lookup _; left; by exists i].
  intros k i Hi. exists (revoking which at_ i). rewrite lookup_fmap, Hi. split; [done|].
  unfold revoking, issuance_kept. destruct (which i) eqn:E; [|done]. by rewrite (Hw i E).
Qed.
(** ** The effect of a completion *)

(** The row of a host with a new active certificate. *)
Definition activated (g : Z) (fingerprint : bytes) (serial : string) (at_ : time) (r : hostRow) : hostRow :=
  r <| hr_credential_generation := g |> <| hr_fingerprint := fingerprint |> <| hr_serial := serial |> <| hr_credential_revoked_at := None |> <| hr_version ::= Z.succ |>
    <| hr_updated_at := timestamptz at_ |>.
Definition older (i : identity) (generation : Z) (x : issuanceRow) : bool := bool_decide (is_identity x = i) && (is_credential_generation x <? generation) && bool_decide (is_revoked_at x = None).

Lemma resolved_unissued k now d r : resolveEnrollment k now d = Ok r -> rs_Response r = None ->
  exists t, tokens d !! ak_TokenHash k = Some t /\ issuances d !! ak_TokenHash k = None /\ tk_consumed_at t = None /\ rs_Grant r = row_grant t /\ 1 <= tk_generation t.
Proof.
  unfold resolveEnrollment. intros H Hn. destruct (tokens d !! ak_TokenHash k) as [t|] eqn:Et; [|done].
  past H Eg. past H Ev. destruct (issuances d !! ak_TokenHash k) as [i|] eqn:Ei.
  - past H Ec. past H Ea. by simplify_eq.
  - past H Ea. simplify_eq. bool_simpl. by exists t.
Qed.

(** The tables of enrollment are not touched by observations. *)
Definition same_enrollment (d d' : inventory) : Prop := tokens d' = tokens d /\ issuances d' = issuances d /\ imports d' = imports d.
Lemma put_host_frame r d d' : put_host r d = Ok d' -> same_enrollment d d'.
Proof. by intros (_ & _ & ->)%put_host_Ok. Qed.
Lemma put_observed_frame r o at_ d x d' : put_observed r o at_ d = Ok (x, d') -> same_enrollment d d'.
Proof.
  unfold put_observed. intros H. destruct (put_host r d) as [d1|] eqn:Ep; [|done]. apply put_host_frame in Ep as (H1 & H2 & H3).
  unfold insert_observation in H. destruct (observations d1 !! _); [done|]. injection H as _ <-. exact (conj H1 (conj H2 H3)).
Qed.
Lemma recordEnrollment_frame scope e o at_ d x d' : recordEnrollmentSQL scope e o at_ d = Ok (x, d') -> same_enrollment d d'.
Proof.
  unfold recordEnrollmentSQL. intros H. destruct (hosts d !! obs_HostID o); [by injection H as _ <-|].
  destruct (collides _ d); [by injection H as _ <-|]. by apply put_observed_frame in H.
Qed.

Lemma records_host_ok c d d1 : inventory_ok d -> records_host c d d1 -> inventory_ok d1 /\ kept d d1 /\ same_enrollment d d1.
Proof.
  intros Hok [->|(r & e & H)]; [split; [done|split; [apply kept_refl|done]]|].
  split; [by eapply recordEnrollment_ok|split; [by eapply recordEnrollment_kept|by eapply recordEnrollment_frame]].
Qed.

Lemma complete_valid_fields c : complete_valid c = true ->
  er_CredentialGeneration (co_Result c) = gr_Generation (co_Grant c) /\ er_HostID (co_Result c) = gr_HostID (co_Grant c) /\ er_AgentID (co_Result c) = gr_AgentID (co_Grant c) /\
  enrollmentCertificateIdentity (er_CertificatePEM (co_Result c)) = Some (er_CertificateFingerprint (co_Result c), er_CertificateSerial (co_Result c)).
Proof.
  unfold complete_valid, validateEnrollmentResult. intros H. bool_simpl.
  destruct (enrollmentCertificateIdentity _) as [[fp se]|] eqn:E; [|done]. bool_simpl. split_and!; congruence.
Qed.

(** What a completion leaves, from tables that are in order. *)
Inductive completion_effect (c : EnrollmentCompletion) (now : time) (d d' : inventory) : Prop :=
  | CompletionEffect d1 t r :
      let i := grant_identity (co_Grant c) in let x := co_Result c in
      let r' := activated (er_CredentialGeneration x) (er_CertificateFingerprint x) (er_CertificateSerial x) (co_CompletedAt c) r in
      inventory_ok d1 -> kept d d1 -> tokens d1 = tokens d -> issuances d1 = issuances d -> imports d1 = imports d ->
      tokens d !! ak_TokenHash (co_Key c) = Some t -> tk_consumed_at t = None -> issuances d !! ak_TokenHash (co_Key c) = None ->
      row_grant t = co_Grant c -> 1 <= er_CredentialGeneration x -> er_CredentialGeneration x = gr_Generation (co_Grant c) ->
      hosts d1 !! id_host i = Some r -> row_identity r = i -> hr_credential_generation r < er_CredentialGeneration x ->
      credential_shape r' = true -> collides r' d1 = false ->
      (forall k y, issuances d !! k = Some y -> is_fingerprint y <> er_CertificateFingerprint x) ->
      d' = d1 <| hosts ::= <[id_host i := r']> |>
              <| issuances ::= fun m => revoking (older i (er_CredentialGeneration x)) (timestamptz (co_CompletedAt c)) <$> <[ak_TokenHash (co_Key c) := issuance_row c]> m |>
              <| tokens ::= <[ak_TokenHash (co_Key c) := t <| tk_consumed_at := Some now |>]> |> ->
      completion_effect c now d d'.

Lemma completes_effect c now d d' : inventory_ok d -> completes c now d d' -> completion_effect c now d d'.
Proof.
  intros Hok [r d1 d2 d3 d4 Hv Hr Hn Hg Hh Hi Ha Ho Hc].
  destruct (resolved_unissued _ _ _ _ Hr Hn) as (t & Ht & Hiss & Htc & Hgt & Htg). rewrite Hg in Hgt.
  destruct (records_host_ok _ _ _ Hok Hh) as (Hok1 & Hkept & Ht1 & Hi1 & Him1). destruct (complete_valid_fields c Hv) as (Hgen & _).
  unfold insertIssuance in Hi. past Hi Eg. simplify_eq. bool_simpl.
  apply activate_true in Ha as (x & r' & Hx & Hxi & Hxs & Hlt & -> & Hshape & Hcol & ->). cbn in Hx, Hcol. bool_simpl.
  unfold revoke_older in Ho. simplify_eq. unfold consumeCommittedToken in Hc. cbn in Hc. rewrite Ht1, Ht in Hc. past Hc Eg2. past Hc Eg3. simplify_eq. eapply (CompletionEffect c now d _ d1 t x); try done.
  - rewrite Hgen, Hgt. done.
  - intros k y Hy Hfp. rewrite <- Hi1 in Hy.
    match goal with H : any _ _ = false |- _ => eapply any_false in H; [|exact Hy]; cbn in H end. bool_simpl. done.
Qed.

Lemma older_keeps i g at_ j x : revoking (older i g) at_ x = j -> is_revoked_at j = None -> j = x /\ (is_revoked_at x = None) /\ (is_identity x = i -> g <= is_credential_generation x).
Proof.
  unfold revoking. intros <-. destruct (older i g x) eqn:E; [done|]. intros Hv. split; [done|]. split; [done|]. intros Hi. unfold older in E.
  rewrite (bool_decide_eq_true_2 _ Hi), (bool_decide_eq_true_2 _ Hv), andb_true_r in E. cbn in E. by bool_simpl.
Qed.

Lemma activated_fingerprint g fp serial at_ r : 1 <= g -> let r' := activated g fp serial at_ r in credential_shape r' = true -> hr_fingerprint r' <> [].
Proof.
  intros Hg r' Hshape E. unfold credential_shape in Hshape. rewrite E in Hshape. cbn in Hshape. apply orb_true_iff in Hshape as [Hs|Hs]; bool_simpl; [lia|].
  done.
Qed.

Lemma completion_ok c now d d' : inventory_ok d -> completion_effect c now d d' -> inventory_ok d'.
Proof.
  intros Hok [d1 t r i x r' Hok1 Hkept Ht1 Hi1 Him1 Ht Htc Hiss Hgt Hge Hgen Hr Hri Hlt Hshape Hcol Hfresh ->].
  assert (Hid : hr_host_id r' = id_host i) by by apply (identity_host r).
  assert (Hne : hr_fingerprint r' <> []) by by apply activated_fingerprint.
  destruct (put_host_unique r' d1 Hok1 Hshape Hcol) as (Hm1 & Hm2 & Hm3 & Hm4). rewrite Hid in *.
  set (G := er_CredentialGeneration x) in *. set (K := ak_TokenHash (co_Key c)) in *. set (w := revoking (older i G) (timestamptz (co_CompletedAt c))).
  assert (Hnew : w (issuance_row c) = issuance_row c).
  { unfold w, revoking, older. cbn. fold x G. by rewrite Z.ltb_irrefl, andb_false_r. }
  assert (Hlook : forall k j, (w <$> <[K := issuance_row c]> (issuances d)) !! k = Some j -> (k = K /\ j = issuance_row c) \/ (k <> K /\ exists y, issuances d !! k = Some y /\ j = w y)).
  { intros k j. rewrite lookup_fmap. destruct (decide (k = K)) as [->|Hn]; [rewrite lookup_insert_eq; cbn; rewrite Hnew; naive_solver|].
    rewrite lookup_insert_ne by done. intros (y & Hy & ->)%fmap_Some. right. naive_solver. }
  split; cbn; fold r' w; rewrite ?Hi1, ?Ht1; [exact Hm1|exact Hm2|exact Hm3|exact Hm4| | | | | |].
  - intros id y Hy Hyne. unfold certified. cbn. rewrite Hi1, Him1. fold w K. apply lookup_insert_Some in Hy as [[<- <-]|[Hn Hy]].
    + left. exists K, (issuance_row c). rewrite lookup_fmap, lookup_insert_eq. cbn. fold x. rewrite Hnew. repeat (split; [done|]). done.
    + assert (row_identity y <> i) as Hdiff by (intros Hi%identity_host; rewrite (ok_host_id d1 Hok1 _ _ Hy) in Hi; by cbn in Hi).
      destruct (ok_certified d1 Hok1 id y Hy Hyne) as [(k & z & Hk & Hz & Hrest)|(Him & Hg & Hno)]; rewrite ?Hi1 in *; [left|right].
      * exists k, z. split; [|done]. rewrite lookup_fmap, lookup_insert_ne, Hk by (intros <-; congruence). cbn. unfold w, revoking, older. by rewrite bool_decide_eq_false_2 by congruence.
      * rewrite Him1 in Him. split; [done|split; [done|]]. intros k j [[-> ->]|(_ & z & Hz & ->)]%Hlook; [done|]. destruct (revoking_same (older i G) (timestamptz (co_CompletedAt c)) z) as [He _].
        fold w in He. rewrite He. by apply Hno with k.
  - intros k j Hj. unfold issued_to. cbn. apply Hlook in Hj as [[-> ->]|(_ & z & Hz & Hj)].
    + exists r'. cbn. rewrite lookup_insert_eq. fold x G i. split_and!; [done|done|exact Hge|cbn; lia|done].
    + rewrite <- Hi1 in Hz. destruct (ok_issued d1 Hok1 k z Hz) as (y & Hy & Hyi & Hg & Hact).
      destruct (revoking_same (older i G) (timestamptz (co_CompletedAt c)) z) as (He1 & He2 & He3 & He4). fold w in He1, He2, He3, He4. rewrite <- Hj in He1, He2, He3, He4.
      rewrite He1, He2, He3, He4. destruct (decide (id_host i = id_host (is_identity z))) as [He|Hn].
      * assert (y = r) as -> by (rewrite <- He in Hy; congruence). rewrite <- He. exists r'. cbn. rewrite lookup_insert_eq. split; [done|]. split; [by rewrite <- Hyi|].
        split; [cbn; lia|]. intros Hv. destruct (older_keeps i G _ j z (eq_sym Hj) Hv) as (_ & _ & Ho). assert (G <= is_credential_generation z) by (apply Ho; congruence). lia.
      * cbn in Hn |- *. rewrite lookup_insert_ne by done. exists y. split; [done|]. split; [done|]. split; [done|]. intros Hv.
        destruct (older_keeps i G _ j z (eq_sym Hj) Hv) as (_ & Hv' & _). by apply Hact.
  - intros k1 k2 j1 j2 Hj1 Hj2 He.
    assert (forall z, is_fingerprint (w z) = is_fingerprint z) as Hw by (intros z; apply (revoking_same (older i G) (timestamptz (co_CompletedAt c)) z)).
    apply Hlook in Hj1 as [[-> ->]|(_ & z1 & Hz1 & ->)]; apply Hlook in Hj2 as [[-> ->]|(_ & z2 & Hz2 & ->)]; rewrite ?Hw in He; [done| | |by eapply (ok_fingerprints d)].
    + by destruct (Hfresh k2 z2 Hz2).
    + by destruct (Hfresh k1 z1 Hz1).
  - intros k j [[-> ->]|(Hn & z & Hz & ->)]%Hlook.
    + eexists. rewrite lookup_insert_eq. split; [done|]. cbn. fold x G. rewrite <- Hgt, Hgen, <- Hgt. by destruct t as [[]].
    + destruct (revoking_same (older i G) (timestamptz (co_CompletedAt c)) z) as (He1 & He2 & _). fold w in He1, He2. rewrite He1, He2, lookup_insert_ne by done. by eapply ok_token.
  - intros k y [[<- <-]|[Hn Hy]]%lookup_insert_Some Hcs; rewrite lookup_fmap, fmap_is_Some; [by rewrite lookup_insert_eq|]. rewrite lookup_insert_ne by done. by eapply ok_consumed.
  - intros j im Him. destruct (ok_imported d1 Hok1 j im Him) as (y & Hy & Hyi & Hg). destruct (decide (id_host i = id_host j)) as [He|Hn].
    + assert (y = r) as -> by (rewrite <- He in Hy; congruence). rewrite <- He. exists r'. cbn. rewrite lookup_insert_eq. split; [done|]. split; [done|]. cbn. lia.
    + cbn in Hn |- *. rewrite lookup_insert_ne by done. by exists y.
Qed.

Lemma import_ok i fp serial now d d1 d2 d' : inventory_ok d -> activate i 1 fp serial zero_generation now d = Ok (true, d1) -> insertImport i fp serial now d1 = Ok (tt, d2) ->
  insertImportAudit i fp d2 = Ok (tt, d') -> inventory_ok d'.
Proof.
  intros Hok (r & r' & Hr & Hri & Hst & Hz & Er & Hshape & Hcol & ->)%activate_true Hi Ha.
  fold (activated 1 fp serial now r) in Er. assert (Hne : hr_fingerprint r' <> []) by (rewrite Er in *; by apply activated_fingerprint).
  unfold zero_generation in Hz. bool_simpl. unfold insertImport in Hi. past Hi Eg. simplify_eq Hi. intros <-. bool_simpl.
  apply (inventory_ok_ext (d <| hosts ::= <[id_host i := r']> |> <| imports ::= <[i := {| im_fingerprint := fp; im_serial := serial; im_imported_at := now |}]> |>));
    [unfold insertImportAudit in Ha; case_hyp Ha; by simplify_eq Ha; intros <-..|].
  assert (Hid : hr_host_id r' = id_host i) by (rewrite Er; by apply (identity_host r)).
  destruct (put_host_unique r' d Hok Hshape Hcol) as (Hm1 & Hm2 & Hm3 & Hm4). rewrite Hid in *.
  assert (Hnone : forall k x, issuances d !! k = Some x -> is_identity x <> i).
  { intros k x Hx Hxi. destruct (ok_issued d Hok k x Hx) as (y & Hy & _ & Hg & _). rewrite Hxi in Hy. assert (y = r) by congruence. subst y. lia. }
  split; cbn; [exact Hm1|exact Hm2|exact Hm3|exact Hm4| | |apply ok_fingerprints, Hok|apply ok_token, Hok|apply ok_consumed, Hok|].
  - intros id y Hy Hyne. unfold certified. cbn. apply lookup_insert_Some in Hy as [[<- <-]|[Hn Hy]].
    + right. assert (row_identity r' = i) as -> by by rewrite Er. split; [|by rewrite Er]. eexists. rewrite lookup_insert_eq. split; [done|]. by rewrite Er.
    + assert (row_identity y <> i) as Hdiff by (intros Hyi%identity_host; rewrite (ok_host_id d Hok _ _ Hy) in Hyi; congruence).
      destruct (ok_certified d Hok id y Hy Hyne) as [Hc|((im & Him & Hc) & Hrest)]; [by left|right]. split; [|done]. exists im. by rewrite lookup_insert_ne.
  - intros k x Hx. destruct (ok_issued d Hok k x Hx) as (y & Hy & Hrest). unfold issued_to. cbn. rewrite lookup_insert_ne; [by exists y|].
    intros He. rewrite <- He in Hy. assert (y = r) as -> by congruence. destruct Hrest as [Hyi _]. by destruct (Hnone k x Hx); rewrite <- Hyi.
  - intros j im Hj. destruct (decide (id_host i = id_host j)) as [He|Hn].
    + assert (j = i) as ->.
      { apply lookup_insert_Some in Hj as [[-> _]|[_ Hj]]; [done|]. destruct (ok_imported d Hok j im Hj) as (y & Hy & <- & _). rewrite <- He in Hy. congruence. }
      exists r'. rewrite lookup_insert_eq. split; [done|]. by rewrite Er.
    + rewrite lookup_insert_ne in Hj by congruence. rewrite lookup_insert_ne by done. by eapply ok_imported.
Qed.

Lemma change_ok d d' : inventory_ok d -> change d d' -> inventory_ok d'.
Proof.
  intros Hok [|scope o at_ r d1 H|scope e o at_ r d1 H|scope agentID ok f r d1 Hf H|scope hostID v at_ t r d1 H|t g d1 d2 b H1 H2|t g ex n g' d1 d2 H1 H2|c now d1 H|i fp se now d1 d2 d3 H1 H2 H3].
  - done.
  - by eapply recordObservation_ok.
  - by eapply recordEnrollment_ok.
  - eapply alive_ok; [done| |exact H]. intros x. by destruct (Hf x) as (? & ? & ? & ?).
  - by eapply decommission_ok.
  - apply audit_frame in H2 as (E1 & E2 & E3 & E4). eapply inventory_ok_ext; [done..|]. by eapply token_inserted_ok.
  - apply audit_frame in H2 as (E1 & E2 & E3 & E4). eapply inventory_ok_ext; [done..|]. by eapply token_replaced_ok.
  - by eapply completion_ok, completes_effect.
  - by eapply import_ok.
Qed.
Lemma changes_ok d d' : rtc change d d' -> inventory_ok d -> inventory_ok d'.
Proof. induction 1 as [|d d1 d2 H _ IH]; [done|]. intros Hok. by eapply IH, change_ok. Qed.
Lemma steps_ok d d' : steps d d' -> inventory_ok d -> inventory_ok d'.
Proof. intros H%steps_changes. by apply changes_ok. Qed.


(** ** Steps keep *)

Lemma put_live_kept r r' d d' id : hosts d !! id = Some r -> hr_host_id r' = id -> row_identity r' = row_identity r -> hr_credential_generation r <= hr_credential_generation r' ->
  hr_status r <> HostDecommissioned \/ hr_status r' = HostDecommissioned -> put_host r' d = Ok d' -> kept d d'.
Proof. intros Hr Hid Hi Hg Hs (_ & _ & ->)%put_host_Ok. apply kept_put_host. rewrite Hid, Hr. split; [done|]. split; [done|naive_solver]. Qed.

Lemma completion_kept c now d d' : completion_effect c now d d' -> kept d d'.
Proof.
  intros [d1 t r i x r' Hok1 Hkept Ht1 Hi1 Him1 Ht Htc Hiss Hgt Hge Hgen Hr Hri Hlt Hshape Hcol Hfresh ->].
  set (d2 := d1 <| issuances ::= <[ak_TokenHash (co_Key c) := issuance_row c]> |>).
  eapply kept_trans; [exact Hkept|]. apply (kept_trans _ d2); [|apply (kept_trans _ (d2 <| hosts ::= <[id_host i := r']> |>))].
  - split; cbn; [intros id y Hy; exists y; by split_and!| |done|done| |by left].
    + intros k y Hy. exists y. split; [|done]. rewrite lookup_insert_ne; [done|]. intros <-. congruence.
    + intros k j y [[<- <-]|[_ Hj]]%lookup_insert_Some Hy; [right|by left; exists j]. cbn in Hr, Hy |- *. fold x. assert (y = r) as -> by congruence. lia.
  - assert (id_host i = hr_host_id r') as -> by (symmetry; by apply (identity_host r)). apply kept_put_host.
    change (match hosts d1 !! hr_host_id r' with Some r => host_kept r r' | None => True end). rewrite (identity_host r' i), Hr by done.
    split; [done|]. split; [cbn; lia|]. intros Hd. by destruct (active_shape r' Hshape) as (_ & _ & _ & _ & []); [right; apply activated_fingerprint|].
  - eapply kept_trans; [apply (revoking_kept (older i (er_CredentialGeneration x)) (timestamptz (co_CompletedAt c))); intros y; unfold older; intros H; by bool_simpl|].
    apply kept_tables; [|done..]. cbn. intros k y Hy Hcs. rewrite lookup_insert_ne; [done|]. intros <-. rewrite Ht1 in Hy. congruence.
Qed.

Lemma change_kept d d' : inventory_ok d -> change d d' -> kept d d'.
Proof.
  intros Hok [|scope o at_ r d1 H|scope e o at_ r d1 H|scope agentID ok f r d1 Hf H|scope hostID v at_ t r d1 H|t g d1 d2 b H1 H2|t g ex n g' d1 d2 H1 H2|c now d1 H|i fp se now d1 d2 d3 H1 H2 H3].
  - apply kept_refl.
  - unfold recordObservationSQL in H. destruct (hosts d !! obs_HostID o) as [y|] eqn:E; [past H Eg|]; (eapply put_observed_kept; [exact H|cbn; rewrite ?(ok_host_id d Hok _ y E), E]); [|done].
    split; [done|]. split; [done|by destruct y].
  - by eapply recordEnrollment_kept.
  - unfold updating in H. destruct (live_agent scope agentID ok d) as [y|] eqn:E; [|by simplify_eq]. apply live_agent_Some in E as (Hy & _ & _ & Hst); [|done].
    destruct (put_host (f y) d) as [d2|] eqn:Ep; [|done]. simplify_eq. destruct (Hf y) as (Hi & Hg & _).
    eapply (put_live_kept y (f y)); [exact Hy|by apply (f_equal id_host) in Hi|done|lia|by left|done].
  - unfold decommissionHostSQL, scoped_host in H. destruct (hosts d !! hostID) as [y|] eqn:Hr; [|done]. case_bool_decide; [|done].
    past H Eg. destruct (put_host _ d) as [d2|] eqn:Hp; [|done]. simplify_eq.
    eapply kept_trans; [eapply (put_live_kept y (decommissioned at_ t y)); [exact Hr|by apply (ok_host_id d Hok _ y)|done|cbn; lia|by right|exact Hp]|].
    apply (revoking_kept (fun i => bool_decide (is_identity i = row_identity y) && bool_decide (is_revoked_at i = None))). intros i Hi. by bool_simpl.
  - apply audit_frame in H2 as (E1 & E2 & E3 & E4). unfold createEnrollmentToken in H1. destruct (tokens d !! et_TokenHash t) eqn:E; run H1.
    apply kept_tables; [|done..]. rewrite E3. cbn. intros k y Hy _. rewrite lookup_insert_ne; [done|]. intros <-. congruence.
  - apply audit_frame in H2 as (E1 & E2 & E3 & E4). apply kept_tables; [|unfold replaceEnrollmentToken in H1; run H1; done..]. rewrite E3. intros k y Hy Hcs.
    by eapply token_replaced_keeps.
  - by eapply completion_kept, completes_effect.
  - apply activate_true in H1 as (r & r' & Hr & Hri & Hst & Hz & Er & Hshape & Hcol & ->). unfold insertImport in H2. past H2 Eg. simplify_eq H2. intros <-.
    set (d2 := d <| imports ::= <[i := {| im_fingerprint := fp; im_serial := se; im_imported_at := now |}]> |>). unfold zero_generation in Hz. bool_simpl.
    apply (kept_trans _ d2).
    + split; cbn; [intros id y Hy; exists y; by split_and!|intros k y Hy; by exists y| |done|by left; exists i'|].
      * intros j im Hj. rewrite lookup_insert_ne; [done|]. intros <-. match goal with H : ~ is_Some _ |- _ => destruct H end. by exists im.
      * intros j im y [[<- <-]|[_ Hj]]%lookup_insert_Some Hy; [right|by left]. assert (y = r) as -> by congruence. lia.
    + assert (Hid : hr_host_id r' = id_host i) by (rewrite Er; by apply (identity_host r)).
      eapply kept_ext; [apply (kept_put_host r' d2)|unfold insertImportAudit in H3; case_hyp H3; simplify_eq H3; intros <-; by rewrite <- ?Hid..].
      cbn. rewrite Hid, Hr, Er. split; [done|]. split; [cbn; lia|]. by intros.
Qed.
Lemma changes_kept d d' : inventory_ok d -> rtc change d d' -> kept d d'.
Proof. intros Hok H. induction H as [|d d1 d2 H _ IH]; [apply kept_refl|]. eapply kept_trans; [by apply change_kept|]. by eapply IH, change_ok. Qed.
Lemma steps_kept d d' : inventory_ok d -> steps d d' -> kept d d'.
Proof. intros Hok H%steps_changes. by apply changes_kept. Qed.

(** C19: What the tables of hosts and enrollment say together stays true, whatever operations run and whatever fails: an active certificate is of one host only, and is the
    one unrevoked issuance or the import of that host; certificates are issued once per token, and exactly for consumed tokens, for the generation and the host of the
    token; hosts have a certificate, had none, or lost it when they were decommissioned. *)
Theorem inventories_stay_in_order d : steps empty_inventory d -> inventory_ok d.
Proof. intros H. eapply steps_ok; [exact H|apply empty_ok]. Qed.
End logic.

(** ** An agent *)
Module InventoryDemo.
Import PhaseDemo.

#[export] Instance demo_columns : PgColumns := { timestamptz t := Truncate t microsecond; text_less a b := negb (String.leb b a) }.
#[export] Instance demo_codec : ResultCodec := DeliveryDemo.delivery_codec.

#[export] Instance URL_eq_dec : EqDecision URL.
Proof. solve_decision. Defined.

(** Texts with their kind before them; a certificate is its serial number, its key and the path of its identity; a request is its key. *)
#[export] Instance demo_x509 : X509 := {
  pem_Encode kind der := Z.of_nat (String.length kind) :: bytes_of kind ++ der;
  pem_Decode pem := match pem with n :: l => Some ({| pb_Type := string_of_bytes (take (Z.to_nat n) l); pb_Headers := 0; pb_Bytes := drop (Z.to_nat n) l |}, []) | [] => None end;
  ParseCertificateRequest b := Some {| csr_Raw := b; csr_SignatureValid := true; csr_PureEd25519 := true; csr_Subject := ""; csr_RawSubject := [48; 0]; csr_Extras := 0; csr_PublicKey := Some b |};
  ParsePKIXPublicKey b := Some (Some b);
  MarshalPKIXPublicKey b := Some b;
  CreateCertificate t key :=
    match ct_URIs t with
    | [u] => if bool_decide (u = {| u_Scheme := "spiffe"; u_Host := "dbpilot.local"; u_HasUser := false; u_RawQuery := ""; u_Fragment := ""; u_Path := u_Path u |})
             then Some (ct_SerialNumber t :: Z.of_nat (length key) :: key ++ bytes_of (u_Path u)) else None
    | _ => None
    end;
  ParseCertificate der :=
    match der with
    | serial :: n :: l => Some {| URIs := [{| u_Scheme := "spiffe"; u_Host := "dbpilot.local"; u_HasUser := false; u_RawQuery := ""; u_Fragment := "";
                                             u_Path := string_of_bytes (drop (Z.to_nat n) l) |}]; Raw := der; SerialNumber := Some serial |}
    | _ => None
    end;
  ed25519_Verify key message proof := bool_decide (proof = take 64 (key ++ message));
}.

Definition scope : JobScope := {| TenantID := "t"; ProjectID := "p" |}.
Definition agent_key (n : Z) : bytes := replicate 32 n.
Definition request_pem (n : Z) : bytes := pem_Encode "CERTIFICATE REQUEST" (agent_key n).
Definition audit (key : string) : EnrollmentAudit := {| ea_Actor := "ops"; ea_RequestID := "r"; ea_TraceID := ""; ea_OperationID := "op"; ea_IdempotencyKey := key |}.
Definition asked (key : string) : CreateRequest :=
  {| cq_HostID := "host-1"; cq_AgentID := "agent-1"; cq_DisplayName := "Host 1"; cq_Labels := ∅; cq_ExpiresIn := 0; cq_IssuedBy := "ops"; cq_IdempotencyKey := key;
     cq_RequestFingerprint := "sha256:0123456789abcdef0123456789abcdef0123456789abcdef0123456789abcdef"; cq_Audit := audit key |}.
Definition raw_token (n : Z) : bytes := replicate 32 n.
Definition token (n : Z) (key : string) (now : Z) : EnrollmentToken := new_token scope (asked key) (raw_token n) (at_second now) DefaultTokenTTL.
Definition seen : HostInventory.Observation :=
  {| obs_HostID := ""; obs_AgentID := "agent-1"; obs_Revision := 1; obs_AgentVersion := "1.0"; obs_Hostname := "db1"; obs_OS := "linux"; obs_OSVersion := ""; obs_Kernel := "";
     obs_Architecture := "amd64"; obs_LogicalCPUCount := 4; obs_MemoryCapacityBytes := 1024; obs_Filesystems := []; obs_NetworkAddresses := []; obs_Capabilities := [];
     obs_ObservedAt := at_second 1 |}.
Definition issuer : AgentCertificateIssuer := {| ci_NotAfter := at_second 1000000; ci_lifetime := 24 * hour; ci_chainPEM := [1] |}.
(** The issuer with the serial number [n]. *)
Definition signing (now n : Z) : EnrollmentGrant -> bytes -> option (bytes * bytes * time) := SignAgentCSR issuer (at_second now) (Some (replicate 15 0 ++ [n])).

Definition carried (op : operation) (d : inventory) : inventory := data (snd (perform op (opened d []))).
Lemma carried_step op d : step d (carried op d).
Proof. by exists op, []. Qed.
Lemma carried_steps op d0 d : steps d0 d -> steps d0 (carried op d).
Proof. intros H. etrans; [exact H|apply rtc_once, carried_step]. Qed.

(** A completion with the certificate that the issuer signs. *)
Definition completion (g : EnrollmentGrant) (hash : bytes) (key now : Z) : option EnrollmentCompletion :=
  signed ← signing now key g (request_pem key);
  let '(pem, chain, expires) := signed : bytes * bytes * time in
  Some {| co_Key := {| ak_TokenHash := hash; ak_CSRDigest := sha256 (agent_key key); ak_AgentID := gr_AgentID g; ak_HostID := gr_HostID g |}; co_Grant := g;
          co_Observation := for_host (gr_HostID g) seen; co_Result := MkEnrollResult (gr_HostID g) (gr_AgentID g) pem chain expires (gr_EnrollmentRevision g) 0 [] ""; co_CompletedAt := at_second now |}.

(** A token is created and exchanged. *)
Definition with_token : inventory := carried (DoCreate (token 7 "k1" 1)) empty_inventory.
Definition with_certificate : inventory :=
  match tokens with_token !! HashToken (raw_token 7) with
  | Some t => match completion (row_grant t) (HashToken (raw_token 7)) 11 2 with Some c => carried (DoComplete c (at_second 2)) with_token | None => with_token end
  | None => with_token
  end.
Lemma with_token_steps : steps empty_inventory with_token.
Proof. by apply carried_steps. Qed.
Lemma with_certificate_steps : steps empty_inventory with_certificate.
Proof. unfold with_certificate. repeat case_match; first [exact with_token_steps|apply carried_steps; exact with_token_steps]. Qed.

Lemma inventories_stay_in_order_witness :
  (exists r, hosts with_certificate !! "host-1"%string = Some r /\ hr_credential_generation r = 1 /\ length (hr_fingerprint r) = sha256_Size) /\
  (exists i, issuances with_certificate !! HashToken (raw_token 7) = Some i /\ is_revoked_at i = None) /\ inventory_ok with_certificate.
Proof.
  split; [eexists; split_and!; vm_compute; reflexivity|]. split; [eexists; split_and!; vm_compute; reflexivity|]. exact (inventories_stay_in_order with_certificate with_certificate_steps).
Defined.
End InventoryDemo.
