(* ===== verification/HostListing.v ===== *)
(** * Listings of hosts

    The listing of [hostinventory]: what the pages that a client reads one after
    the other, while the clock and the tables go on, say together about the
    hosts of the scope. *)

From S2P Require Import Prelude Programs GoText JobModel JobRepository CommandPhases CommandDelivery CommandLifecycle SessionRegistry AgentServer Database HostInventory Enrollment EnrollmentLogic.

Open Scope Z_scope.
Open Scope update_scope.

(** ** Names *)

(** Bytes of agent names, which have no white space around them and no slash. *)
Definition graphic (c : Z) : Prop := 33 <= c <= 126.
Lemma graphic_spaces c l : graphic c -> space_prefix (c :: l) = O /\ space_suffix (c :: l) = O.
Proof.
  unfold graphic. intros H. assert (Hc : c ∈ seqZ 33 94) by (apply elem_of_seqZ; lia). clear H. revert c Hc. apply Forall_forall.
  match goal with |- Forall _ ?s => let s' := eval vm_compute in s in change s with s' end. repeat (constructor; [split; [reflexivity|cbn; repeat case_match; reflexivity]|]). constructor.
Qed.
Lemma trim_graphic l : Forall graphic l -> trim_bytes l = l.
Proof.
  intros H. unfold trim_bytes.
  assert (strip space_prefix (length l) l = l) as -> by (destruct H as [|c l Hc _]; [done|]; cbn [strip length]; by rewrite (proj1 (graphic_spaces c l Hc))).
  assert (strip space_suffix (length l) (reverse l) = reverse l) as ->; [|apply reverse_involutive].
  rewrite <- length_reverse. assert (Hr : Forall graphic (reverse l)) by by apply Forall_reverse. destruct Hr as [|c m Hc _]; [done|].
  cbn [strip length]. by rewrite (proj2 (graphic_spaces c m Hc)).
Qed.

Definition agent_byte (c : Z) : Prop := graphic c /\ c <> 47.
Lemma identifier_bytes id : identifierPattern id = true -> id <> EmptyString /\ Forall agent_byte (bytes_of id).
Proof.
  unfold identifierPattern, word. intros H. split; [by intros ->|]. destruct (bytes_of id) as [|a l]; [done|]. bool_simpl.
  unfold agent_byte, graphic, is_alnum, is_letter, is_digit, one_of_bytes in *. constructor.
  - repeat match goal with H : _ || _ = true |- _ => apply orb_true_iff in H as [H|H] end; bool_simpl; lia.
  - apply Forall_forall. intros c Hc. match goal with H : forallb _ l = true |- _ => rewrite forallb_forall in H; apply list_elem_of_In, H in Hc end. cbn [existsb] in Hc.
    repeat match goal with H : _ || _ = true |- _ => apply orb_true_iff in H as [H|H] end; bool_simpl; lia || done.
Qed.

(** Names are their runes. *)
Lemma ascii_runes fuel l : (length l <= fuel)%nat -> Forall agent_byte l -> runes fuel l = replicate (length l) true.
Proof.
  revert l. induction fuel as [|fuel IH]; intros l Hf H; destruct H as [|c l [Hg _] H]; [done|cbn in Hf; lia|done|]. cbn in Hf. cbn. unfold graphic in Hg.
  rewrite (proj2 (Z.ltb_lt c 128)) by lia. change (drop 1 (c :: l)) with l. rewrite IH; [done|lia|done].
Qed.
Lemma length_bytes_of s : length (bytes_of s) = String.length s.
Proof. unfold bytes_of. rewrite length_fmap. induction s as [|a s IH]; [done|]. cbn. by rewrite IH. Qed.
Lemma identifier_cursor id : identifierPattern id = true -> trimmed id = true /\ (RuneCountInString id <=? 512)%nat = true.
Proof.
  intros H. destruct (identifier_bytes id H) as [_ Hb]. split.
  - unfold trimmed. apply bool_decide_eq_true. apply trim_graphic. eapply Forall_impl; [exact Hb|]. by intros c [].
  - unfold RuneCountInString, runes_of. rewrite ascii_runes by (done || by rewrite length_bytes_of). rewrite length_replicate. apply Nat.leb_le.
    unfold identifierPattern, word in H. destruct (bytes_of id) as [|a l]; cbn; [lia|]. bool_simpl. rewrite Nat.leb_le in *. lia.
Qed.

(** ** Columns *)

(** What PostgreSQL documents of columns: texts have a total order, timestamps with a resolution of microseconds are kept. *)
Class PgLaws `{PgColumns} := {
  text_irreflexive a : text_less a a = false;
  text_transitive a b c : text_less a b = true -> text_less b c = true -> text_less a c = true;
  text_total a b : text_less a b = false -> text_less b a = false -> a = b;
  timestamptz_instant t : instant t mod microsecond = 0 -> instant (timestamptz t) = instant t;
}.

Section listings.
Context {columns : PgColumns} {laws : PgLaws} {codec : ResultCodec} {x509 : X509}.

Lemma host_before_total a b : text_less (hr_host_id a) (hr_host_id b) = false -> text_less (hr_host_id b) (hr_host_id a) = false -> hr_host_id a = hr_host_id b.
Proof. apply text_total. Qed.
#[local] Instance host_before_Total : Total host_before.
Proof.
  intros a b. unfold host_before. destruct (text_less (hr_host_id b) (hr_host_id a)) eqn:E; [|by left]. right. destruct (text_less (hr_host_id a) (hr_host_id b)) eqn:E2; [|done].
  pose proof (text_transitive _ _ _ E E2) as H. by rewrite text_irreflexive in H.
Qed.
#[local] Instance host_before_Transitive : Transitive host_before.
Proof.
  intros a b c. unfold host_before. intros H1 H2. destruct (text_less (hr_host_id c) (hr_host_id a)) eqn:E; [|done].
  destruct (text_less (hr_host_id b) (hr_host_id c)) eqn:E2; [by rewrite (text_transitive _ _ _ E2 E) in H1|]. pose proof (text_total _ _ E2 H2) as He. rewrite He in H1. congruence.
Qed.

(** ** Rows of a listing *)

Definition at_cursor (cursor : string) (f : Filter) : Filter :=
  {| fi_Status := fi_Status f; fi_Cursor := cursor; fi_Limit := fi_Limit f; fi_now := fi_now f; fi_staleAfter := fi_staleAfter f; fi_offlineAfter := fi_offlineAfter f |}.
Definition after (cursor : string) (r : hostRow) : bool := text_less cursor (hr_host_id r).

Lemma filtered_after {A} (key : A -> string) (C : A -> A) (P Q : A -> bool) cursor l : (forall x, key (C x) = key x) ->
  List.filter P (List.map C (List.filter (fun r => Q r && text_less cursor (key r)) l)) = List.filter (fun r => text_less cursor (key r)) (List.filter P (List.map C (List.filter Q l))).
Proof.
  intros Hk. induction l as [|x l IH]; [done|]. cbn. destruct (Q x); cbn; [|done]. destruct (text_less cursor (key x)) eqn:E; cbn; destruct (P (C x)); cbn; rewrite ?Hk, ?E, IH; done.
Qed.
Lemma filter_perm {A} (P : A -> bool) l l' : l ≡ₚ l' -> List.filter P l ≡ₚ List.filter P l'.
Proof.
  induction 1 as [|x l l' _ IH|x y l|l1 l2 l3 _ IH1 _ IH2]; cbn; [done| | |by etrans].
  - destruct (P x); [by constructor|done].
  - destruct (P x), (P y); try done. constructor.
Qed.
Lemma filter_sorted {A} (R : relation A) (P : A -> bool) l : StronglySorted R l -> StronglySorted R (List.filter P l).
Proof.
  induction 1 as [|x l _ IH Hx]; cbn; [constructor|]. destruct (P x); [|done]. constructor; [done|]. apply Forall_forall. intros y Hy. apply list_elem_of_In, filter_In in Hy as [Hy _].
  rewrite Forall_forall in Hx. by apply Hx, list_elem_of_In.
Qed.

Lemma listed_sorted scope f d : StronglySorted host_before (listed_rows scope f d).
Proof. apply StronglySorted_merge_sort; apply _. Qed.

Lemma listed_elem scope f d r : r ∈ listed_rows scope f d <->
  exists r0, (exists id, hosts d !! id = Some r0) /\ hr_scope r0 = scope /\ (fi_Cursor f = EmptyString \/ text_less (fi_Cursor f) (hr_host_id r0) = true) /\
    r = r0 <| hr_status := listed_status (fi_now f) (Microseconds (fi_staleAfter f)) (Microseconds (fi_offlineAfter f)) r0 |> /\
    match fi_Status f with Some s => hr_status r = s | None => True end.
Proof.
  unfold listed_rows. rewrite merge_sort_Permutation, list_elem_of_In, filter_In, in_map_iff. unfold empty_string. split.
  - intros [(r0 & <- & Hin) Hst]. apply filter_In in Hin as [Hin [Hsc Hc]%andb_true_iff]. apply list_elem_of_In, list_elem_of_fmap in Hin as ([id r1] & -> & Hin%elem_of_map_to_list).
    apply bool_decide_eq_true in Hsc. exists r1. split; [by exists id|]. split; [done|]. split; [apply orb_true_iff in Hc as [Hc|Hc]; [left; by apply bool_decide_eq_true in Hc|by right]|].
    split; [done|]. destruct (fi_Status f); [by apply bool_decide_eq_true in Hst|done].
  - intros (r0 & (id & Hid) & Hsc & Hc & -> & Hs). split; [|destruct (fi_Status f); [by apply bool_decide_eq_true|done]]. exists r0. split; [done|]. apply filter_In.
    split; [apply list_elem_of_In, list_elem_of_fmap; exists (id, r0); split; [done|by apply elem_of_map_to_list]|]. rewrite bool_decide_eq_true_2 by done. cbn.
    destruct Hc as [->| ->]; [done|apply orb_true_r].
Qed.

(** Rows with one name are one row. *)
Lemma listed_unique scope f d r1 r2 : inventory_ok d -> r1 ∈ listed_rows scope f d -> r2 ∈ listed_rows scope f d -> hr_host_id r1 = hr_host_id r2 -> r1 = r2.
Proof.
  intros Hok (x1 & (i1 & H1) & _ & _ & -> & _)%listed_elem (x2 & (i2 & H2) & _ & _ & -> & _)%listed_elem He. cbn in He.
  rewrite (ok_host_id d Hok _ _ H1), (ok_host_id d Hok _ _ H2) in He. rewrite He in H1. assert (x1 = x2) as -> by congruence. done.
Qed.

Lemma listed_after scope f d cursor : inventory_ok d -> cursor <> EmptyString -> listed_rows scope (at_cursor cursor f) d = List.filter (after cursor) (listed_rows scope (at_cursor EmptyString f) d).
Proof.
  intros Hok Hc. apply (StronglySorted_unique_strong host_before).
  - intros r1 r2 H1 H2 Hb1 Hb2. apply list_elem_of_In, filter_In in H2 as [H2 _]. apply list_elem_of_In in H2.
    assert (H1' : r1 ∈ listed_rows scope (at_cursor EmptyString f) d).
    { apply listed_elem in H1 as (r0 & Hr & Hs & _ & -> & Hf). apply listed_elem. exists r0. split_and!; [done|done|by left|done|done]. }
    eapply listed_unique; [done|exact H1'|exact H2|]. by apply host_before_total.
  - apply listed_sorted.
  - apply filter_sorted, listed_sorted.
  - unfold listed_rows at 1. rewrite merge_sort_Permutation. unfold listed_rows. rewrite (filter_perm _ _ _ (merge_sort_Permutation host_before _)).
    cbn [at_cursor fi_Cursor fi_Status fi_now fi_staleAfter fi_offlineAfter]. unfold empty_string. rewrite (bool_decide_eq_false_2 _ Hc), bool_decide_eq_true_2 by done. cbn [orb].
    rewrite (filtered_after hr_host_id) by done. unfold after. rewrite (List.filter_ext (fun r => bool_decide (hr_scope r = scope) && true) (fun r => bool_decide (hr_scope r = scope))); [done|]. intros r. apply andb_true_r.
Qed.

Lemma strongly_sorted_app {A} (R : relation A) l1 l2 : StronglySorted R (l1 ++ l2) -> StronglySorted R l2 /\ forall x y, x ∈ l1 -> y ∈ l2 -> R x y.
Proof.
  induction l1 as [|x l1 IH]; cbn; [intros H; split; [done|]; intros x y Hx; by apply elem_of_nil in Hx|]. intros H. apply StronglySorted_inv in H as [H Hx]. destruct (IH H) as [H1 H2]. split; [done|].
  intros y z [->|Hy]%elem_of_cons Hz; [|by apply H2]. rewrite Forall_forall in Hx. apply Hx, elem_of_app. by right.
Qed.

(** The rows after the last row of a page are the other rows. *)
Lemma after_page l1 x l2 : StronglySorted host_before (l1 ++ x :: l2) -> (forall r1 r2, r1 ∈ x :: l2 -> r2 ∈ x :: l2 -> hr_host_id r1 = hr_host_id r2 -> r1 = r2) -> NoDup (x :: l2) ->
  List.filter (after (hr_host_id x)) (l1 ++ x :: l2) = l2.
Proof.
  intros [Hs Hb]%strongly_sorted_app Hu Hnd. rewrite List.filter_app. cbn. unfold after at 2. rewrite text_irreflexive.
  assert (List.filter (after (hr_host_id x)) l1 = []) as ->.
  { induction l1 as [|y l1 IH]; [done|]. cbn. rewrite IH by (intros; apply Hb; [by right|done]). unfold after. by rewrite (Hb y x (list_elem_of_here _ _) (list_elem_of_here _ _)). }
  cbn. apply StronglySorted_inv in Hs as [_ Hx]. apply NoDup_cons in Hnd as [Hx2 Hnd]. clear Hb.
  assert (H : forall y, y ∈ l2 -> after (hr_host_id x) y = true).
  { intros y Hy. unfold after. destruct (text_less (hr_host_id x) (hr_host_id y)) eqn:E; [done|]. rewrite Forall_forall in Hx. pose proof (Hx y Hy) as Hxy. unfold host_before in Hxy.
    destruct Hx2. rewrite (Hu x y) at 1; [done|by left|by right|by apply text_total]. }
  clear Hx Hu Hx2 Hnd. induction l2 as [|y l2 IH]; [done|]. cbn. rewrite H by by left. f_equal. apply IH. intros z Hz. apply H. by right.
Qed.

(** ** Statuses *)

Definition whole (d : Z) : Prop := d mod microsecond = 0.
Lemma Microseconds_whole d : 0 <= d -> whole d -> Microseconds d * microsecond = d.
Proof. unfold Microseconds, whole, microsecond. intros H1 H2. rewrite Z.quot_div_nonneg by lia. pose proof (Z.div_mod d 1000). lia. Qed.
Lemma whole_below d : d <= int64_max -> whole d -> d < int64_max.
Proof. unfold whole. intros H1 H2. assert (d <> int64_max) by (intros ->; vm_compute in H2; discriminate). lia. Qed.

(** The query computes the status of [ClassifyHost], which the service finds unchanged when it classifies the host again. *)
Lemma classified_again now staleAfter offlineAfter r h :
  IsZero now = false -> whole (instant now) -> 0 < staleAfter -> staleAfter < offlineAfter -> offlineAfter <= int64_max -> offlineAfter < instant now ->
  whole staleAfter -> whole offlineAfter ->
  scanHost (r <| hr_status := listed_status now (Microseconds staleAfter) (Microseconds offlineAfter) r |>) = Ok h -> ClassifyHost now h staleAfter offlineAfter = ho_Status h.
Proof.
  intros Hz Hnow Hs Hso Ho Hn Hws Hwo. pose proof (whole_below _ Ho Hwo) as Ho'. unfold scanHost. destruct (_ || _); [done|]. destruct (Host_Validate _); [|done]. intros [= <-].
  set (st := listed_status _ _ _ _). unfold ClassifyHost. cbn -[SubTime].
  assert (Hst : st = listed_status now (Microseconds staleAfter) (Microseconds offlineAfter) r) by done. unfold listed_status in Hst. cbv zeta in Hst.
  rewrite !Microseconds_whole in Hst by (done || lia). unfold Before, AddDuration in Hst. cbn [instant] in Hst. rewrite (timestamptz_instant now Hnow) in Hst.
  assert (Hread : hr_status r = st /\ (st = HostDecommissioned \/ st = HostPending \/ st = HostEnrolling) \/
    st = match hr_last_heartbeat_at r with None => HostOffline | Some at_ => if negb (instant at_ <? instant now + - staleAfter) then HostOnline
                                       else if negb (instant at_ <? instant now + - offlineAfter) then HostStale else HostOffline end) by (destruct (hr_status r); auto).
  clearbody st. clear Hst. destruct Hread as [[_ [-> |[-> | ->]]]|Hst]; [done..|].
  assert (Hlive : bool_decide (st = HostDecommissioned) = false /\ bool_decide (st = HostPending) || bool_decide (st = HostEnrolling) = false).
  { rewrite Hst. destruct (hr_last_heartbeat_at r); [destruct (negb _); [done|destruct (negb _); done]|done]. }
  destruct Hlive as [-> ->]. rewrite Hz, (proj2 (Z.leb_gt staleAfter 0)), (proj2 (Z.leb_gt offlineAfter staleAfter)) by done. cbn [orb].
  destruct (hr_last_heartbeat_at r) as [at_|]; [|done]. cbn [default fmap option_fmap option_map]. unfold IsZero.
  change (instant (id (UTC at_))) with (instant at_). change (SubTime now (id (UTC at_))) with (SubTime now at_).
  destruct (instant at_ =? 0) eqn:E0.
  - apply Z.eqb_eq in E0. rewrite Hst, E0. rewrite (proj2 (Z.ltb_lt 0 (instant now + - staleAfter))), (proj2 (Z.ltb_lt 0 (instant now + - offlineAfter))) by lia. done.
  - unfold SubTime. rewrite Hst. clear Hst.
    assert (int64_min <= - int64_max) by (vm_compute; discriminate).
    destruct (int64_max <? instant now - instant at_) eqn:E1; [|destruct (instant now - instant at_ <? int64_min) eqn:E2];
      repeat match goal with |- context [?a <=? ?b] => destruct (a <=? b) eqn:? | |- context [negb (?a <? ?b)] => destruct (a <? b) eqn:?; cbn [negb] end; bool_simpl; try done; lia.
Qed.

(** ** Pages *)

(** The filter that the service gives to the repository. *)
Definition service_filter (f : Filter) (now : time) (c : Z * Z) (cursor : string) : Filter :=
  {| fi_Status := fi_Status f; fi_Cursor := cursor; fi_Limit := fi_Limit f; fi_now := now; fi_staleAfter := fst c; fi_offlineAfter := snd c |}.

Lemma scanHost_fields r h : scanHost r = Ok h -> ho_ID h = hr_host_id r /\ ho_Scope h = hr_scope r /\ ho_Status h = hr_status r /\ Host_Validate h = true.
Proof. unfold scanHost. destruct (_ || _); [done|]. destruct (Host_Validate _) eqn:E; [|done]. by intros [= <-]. Qed.
Lemma traverse_take {E A B} (f : A -> result E B) n l ys : traverse f l = Ok ys -> traverse f (take n l) = Ok (take n ys) /\ traverse f (drop n l) = Ok (drop n ys) /\ length ys = length l.
Proof. rewrite !traverse_Ok. intros H. split; [by apply Forall2_take|]. split; [by apply Forall2_drop|]. symmetry. by eapply Forall2_length. Qed.
Lemma traverse_result {E A B} (f : A -> result E B) l ys y : traverse f l = Ok ys -> y ∈ ys -> exists x, x ∈ l /\ f x = Ok y.
Proof.
  intros H%traverse_Ok [i Hi]%list_elem_of_lookup. destruct (Forall2_lookup_r _ _ _ _ _ H Hi) as (x & Hx & Hf). exists x. split; [by eapply list_elem_of_lookup_2|done].
Qed.
Lemma traverse_elem {E A B} (f : A -> result E B) l ys x : traverse f l = Ok ys -> x ∈ l -> exists y, y ∈ ys /\ f x = Ok y.
Proof.
  intros H%traverse_Ok [i Hi]%list_elem_of_lookup. destruct (Forall2_lookup_l _ _ _ _ _ H Hi) as (y & Hy & Hf). exists y. split; [by eapply list_elem_of_lookup_2|done].
Qed.

Lemma filter_nodup {A} (key : A -> string) (P : A -> bool) l : NoDup (key <$> l) -> NoDup (key <$> List.filter P l).
Proof.
  induction l as [|x l IH]; cbn; [done|]. intros [Hx Hl]%NoDup_cons. destruct (P x); [|by apply IH]. cbn. apply NoDup_cons. split; [|by apply IH]. intros Hin. apply Hx.
  apply list_elem_of_fmap in Hin as (y & -> & Hy). apply list_elem_of_fmap. exists y. split; [done|]. apply list_elem_of_In, filter_In in Hy as [Hy _]. by apply list_elem_of_In.
Qed.
Lemma map_keys {A} (key : A -> string) (C : A -> A) l : (forall x, key (C x) = key x) -> key <$> List.map C l = key <$> l.
Proof. intros H. induction l as [|x l IH]; [done|]. cbn. rewrite H. f_equal. exact IH. Qed.
Lemma listed_nodup scope f d : inventory_ok d -> NoDup (hr_host_id <$> listed_rows scope f d).
Proof.
  intros Hok. unfold listed_rows. rewrite merge_sort_Permutation. apply filter_nodup. rewrite map_keys by done.
  apply filter_nodup. rewrite <- list_fmap_compose.
  assert ((hr_host_id ∘ snd) <$> map_to_list (hosts d) = fst <$> map_to_list (hosts d)) as ->; [|apply NoDup_fst_map_to_list].
  apply list_fmap_ext. intros i [id r] Hi. cbn. apply (ok_host_id d Hok id r), elem_of_map_to_list. by eapply list_elem_of_lookup_2.
Qed.

Lemma checked_again scope f c items : (forall h, h ∈ items -> Host_Validate h = true /\ ho_Scope h = scope /\ ClassifyHost (fi_now f) h (fst c) (snd c) = ho_Status h /\
    match fi_Status f with Some st => ho_Status h = st | None => True end) -> checked_items scope f c items = Ok items.
Proof.
  induction items as [|h items IH]; intros H; [done|]. cbn. destruct (H h) as (Hv & Hs & Hc & Hf); [by left|]. rewrite Hv, bool_decide_eq_true_2 by done. cbn.
  assert (classified (fi_now f) c h = h) as -> by (unfold classified; rewrite Hc; destruct h; reflexivity). rewrite IH by (intros; apply H; by right).
  destruct (fi_Status f); [|done]. by rewrite Hc, bool_decide_eq_true_2.
Qed.

Lemma page_of_rows scope f d rows all : listed_rows scope f d = rows -> traverse scanHost rows = Ok all ->
  Scope_Validate scope = true -> Filter_Validate f = true -> validUTC (fi_now f) = true -> 0 < fi_staleAfter f -> fi_staleAfter f < fi_offlineAfter f ->
  let limit := Z.to_nat (if fi_Limit f =? 0 then DefaultListLimit else fi_Limit f) in
  List_ scope f (opened d []) =
    (Ok (if (limit <? length all)%nat then {| Items := take limit all; NextCursor := match last (take limit all) with Some h => ho_ID h | None => EmptyString end |}
         else {| Items := all; NextCursor := EmptyString |}), opened d []).
Proof.
  intros Hr Ha H1 H2 H3 H4 H5 limit. unfold List_. rewrite H1, H2, H3, (proj2 (Z.leb_gt (fi_staleAfter f) 0)), (proj2 (Z.leb_gt (fi_offlineAfter f) (fi_staleAfter f))) by done. cbn [negb orb].
  set (n := if fi_Limit f =? 0 then DefaultListLimit else fi_Limit f) in *.
  assert (Hn : 0 < n) by (unfold n; unfold Filter_Validate in H2; destruct (fi_Limit f =? 0) eqn:E; [done|bool_simpl; lia]).
  unfold query, statement, bind, opened, ret. cbn [aborted next_fault faults tail in_tx data with_data]. unfold with_data. cbn [aborted next_fault faults tail in_tx data]. rewrite Hr.
  destruct (traverse_take scanHost (Z.to_nat (n + 1)) rows all Ha) as (-> & _ & _). f_equal. rewrite length_take.
  assert (Hlt : (n <? Z.of_nat (Z.to_nat (n + 1) `min` length all)) = (limit <? length all)%nat).
  { destruct (limit <? length all)%nat eqn:E; [apply Nat.ltb_lt in E; apply Z.ltb_lt; lia|apply Nat.ltb_ge in E; apply Z.ltb_ge; lia]. }
  rewrite Hlt. fold limit. destruct (limit <? length all)%nat eqn:E.
  - rewrite take_take, Nat.min_l by lia. done.
  - apply Nat.ltb_ge in E. rewrite take_ge by lia. done.
Qed.

Lemma classification_valid s now c : classification s now = Some c -> validUTC now = true /\ 0 < fst c /\ fst c < snd c.
Proof. unfold classification. intros H. past H E. simplify_eq H. intros <-. cbn. bool_simpl. by split_and!. Qed.
Lemma scanned_names rows all : traverse scanHost rows = Ok all -> ho_ID <$> all = hr_host_id <$> rows.
Proof. intros H%traverse_Ok. induction H as [|r h rows all Hh _ IH]; [done|]. cbn. rewrite IH. by destruct (scanHost_fields _ _ Hh) as (-> & _). Qed.
Lemma host_names h : Host_Validate h = true -> identifierPattern (ho_ID h) = true.
Proof. unfold Host_Validate. intros H. by bool_simpl. Qed.
Lemma cursor_valid cursor f : Filter_Validate f = true -> identifierPattern cursor = true -> Filter_Validate (at_cursor cursor f) = true.
Proof.
  unfold Filter_Validate. intros H Hi. destruct (identifier_cursor cursor Hi) as [E1 E2]. cbn [at_cursor fi_Limit fi_Status fi_Cursor]. rewrite E1, E2, orb_true_r, andb_true_r. apply andb_true_iff in H as [H _]. exact H.
Qed.


(** ** One page *)

Lemma checked_inv scope f c items out : checked_items scope f c items = Ok out ->
  out = classified (fi_now f) c <$> items /\ forall h, h ∈ items -> ho_Scope h = scope /\ match fi_Status f with Some st => ho_Status (classified (fi_now f) c h) = st | None => True end.
Proof.
  revert out. induction items as [|h items IH]; intros out; cbn [checked_items]; [intros [= <-]; split; [done|intros h Hh; by apply elem_of_nil in Hh]|]. cbv zeta.
  destruct (_ || _) eqn:E1; [done|]. destruct (match fi_Status f with Some _ => _ | None => _ end) eqn:E2; [done|]. destruct (checked_items _ _ _ items) as [out'|]; [|done]. intros [= <-].
  destruct (IH _ eq_refl) as [-> Hi]. split; [done|]. intros x [->|Hx]%elem_of_cons; [|by apply Hi]. bool_simpl. split; [done|]. destruct (fi_Status f); [|done]. by bool_simpl.
Qed.

(** A page that the service returns, whatever else failed: the hosts after the cursor with the asked status, as they are in the table, classified at the time of the call. *)
Record page_read (s : HostService) (now : time) (scope : JobScope) (f : Filter) (cursor : string) (d : inventory) (p : Page) (c : Z * Z) (rows rest : list hostRow) : Prop := {
  pr_class : classification s now = Some c;
  pr_rows : listed_rows scope (service_filter f now c cursor) d = rows ++ rest;
  pr_scanned : exists items, traverse scanHost rows = Ok items /\ Items p = classified now c <$> items;
  pr_items h : h ∈ Items p -> ho_Scope h = scope /\ match fi_Status f with Some st => ho_Status h = st | None => True end;
  pr_next : (rest = [] /\ NextCursor p = EmptyString) \/ (rows <> [] /\ exists r, last rows = Some r /\ NextCursor p = hr_host_id r);
}.

Lemma query_Ok {A} (g : inventory -> A) d fs x : fst (query g (opened d fs)) = Ok x -> x = g d.
Proof. unfold query, statement, opened. cbn. destruct (next_fault _); cbn; congruence. Qed.

Lemma page_inv s now scope f cursor d fs p : fst (service_List s now scope (at_cursor cursor f) (opened d fs)) = Ok p -> exists c rows rest, page_read s now scope f cursor d p c rows rest.
Proof.
  unfold service_List. destruct (negb (Scope_Validate scope) || _) eqn:Ev; [done|]. destruct (classification s now) as [c|] eqn:Hc; [|done].
  change (Build_Filter _ _ _ _ _ _) with (service_filter f now c cursor). set (g := service_filter f now c cursor).
  unfold bind, ret. destruct (List_ scope g (opened d fs)) as [q c1] eqn:Hq. cbn [fst]. destruct q as [q|]; [|done]. destruct (checked_items scope g c (Items q)) as [out|] eqn:Hck; [|done]. intros [= <-].
  revert Hq. unfold List_. destruct (_ || (fi_offlineAfter g <=? _)) eqn:Ef; [done|]. set (n := if fi_Limit g =? 0 then DefaultListLimit else fi_Limit g).
  assert (Hn : 0 < n) by (bool_simpl; unfold Filter_Validate in *; unfold n, g, service_filter; cbn in *; bool_simpl; destruct (fi_Limit f =? 0) eqn:E; [done|bool_simpl; lia]).
  unfold bind. destruct (query _ (opened d fs)) as [x c2] eqn:Hx. apply (f_equal fst) in Hx. cbn [fst] in Hx. destruct x as [x|]; [|done]. apply query_Ok in Hx. subst x. unfold ret. intros [= Hq <-].
  destruct (traverse scanHost _) as [items|] eqn:Ht in Hq; [|done]. set (all := listed_rows scope g d) in *.
  pose proof (proj1 (traverse_Ok _ _ _) Ht) as Hf2. pose proof (Forall2_length _ _ _ Hf2) as Hlen. rewrite length_take in Hlen.
  destruct (checked_inv _ _ _ _ _ Hck) as [-> Hi]. exists c.
  destruct (Z.ltb_spec n (Z.of_nat (length items))) as [Hlt|Hge]; injection Hq as <-; cbn [Items NextCursor] in *.
  - exists (take (Z.to_nat n) all), (drop (Z.to_nat n) all).
    destruct (traverse_take scanHost (Z.to_nat n) _ _ Ht) as (Ht' & _). rewrite take_take, Nat.min_l in Ht' by lia.
    assert (Hne : take (Z.to_nat n) all <> []) by (intros He; apply (f_equal length) in He; rewrite length_take in He; cbn in He; lia).
    split; cbn; [done|by rewrite take_drop|by exists (take (Z.to_nat n) items)|intros h (h0 & -> & Hh)%list_elem_of_fmap; exact (Hi h0 Hh)|]. right. split; [done|].
    destruct (last (take (Z.to_nat n) all)) as [r|] eqn:Hr; [|by apply last_None in Hr]. exists r. split; [done|].
    apply traverse_Ok in Ht'. pose proof (Forall2_length _ _ _ Ht') as Hl2. rewrite last_lookup in Hr. destruct (Forall2_lookup_l _ _ _ _ _ Ht' Hr) as (h & Hh & Hs).
    rewrite last_lookup, <- Hl2, Hh. by apply scanHost_fields in Hs as (<- & _).
  - exists all, []. assert (Hall : take (Z.to_nat (n + 1)) all = all) by (apply take_ge; lia). rewrite Hall in Ht.
    split; cbn; [done|by rewrite app_nil_r|by exists items|intros h (h0 & -> & Hh)%list_elem_of_fmap; exact (Hi h0 Hh)|by left].
Qed.

(** ** A listing, page by page *)

(** A page with the clock and the tables at its call. *)
Record round := { rd_now : time; rd_data : inventory; rd_items : list Host }.

(** A client follows the cursors.  Before every page the clock is read anew and any operations may run; any call that is
    not a page of the listing may fail. *)
Inductive listing (s : HostService) (scope : JobScope) (f : Filter) : string -> inventory -> list round -> Prop :=
  | listing_last cursor d0 d now fs items : steps d0 d ->
      fst (service_List s now scope (at_cursor cursor f) (opened d fs)) = Ok {| Items := items; NextCursor := EmptyString |} ->
      listing s scope f cursor d0 [{| rd_now := now; rd_data := d; rd_items := items |}]
  | listing_more cursor d0 d now fs items next rounds : steps d0 d ->
      fst (service_List s now scope (at_cursor cursor f) (opened d fs)) = Ok {| Items := items; NextCursor := next |} -> next <> EmptyString ->
      listing s scope f next d rounds ->
      listing s scope f cursor d0 ({| rd_now := now; rd_data := d; rd_items := items |} :: rounds).

Definition listed_names (rounds : list round) : list string := rounds ≫= fun r => ho_ID <$> rd_items r.
Definition past (cursor id : string) : Prop := cursor = EmptyString \/ text_less cursor id = true.
(** What a round says of a host: it is in the table and of the scope, has the status that [ClassifyHost] gives the stored host at the time of the round, and the one asked for. *)
Definition shown_rightly (s : HostService) (scope : JobScope) (f : Filter) (r : round) (h : Host) : Prop :=
  exists c row, classification s (rd_now r) = Some c /\ hosts (rd_data r) !! ho_ID h = Some row /\ hr_scope row = scope /\ ho_Scope h = scope /\
    ho_AgentID h = hr_agent_id row /\ ho_LastHeartbeatAt h = default zero_time (UTC <$> hr_last_heartbeat_at row) /\
    ho_Status h = ClassifyHost (rd_now r) (h <| ho_Status := hr_status row |>) (fst c) (snd c) /\ match fi_Status f with Some st => ho_Status h = st | None => True end.
(** The round in which a host is due has it when the host has the asked status by the query of that round. *)
Definition shown_when_due (s : HostService) (scope : JobScope) (f : Filter) (rounds : list round) (id : string) : Prop :=
  exists r c row, r ∈ rounds /\ classification s (rd_now r) = Some c /\ hosts (rd_data r) !! id = Some row /\ hr_scope row = scope /\
    (match fi_Status f with Some st => listed_status (rd_now r) (Microseconds (fst c)) (Microseconds (snd c)) row = st | None => True end -> id ∈ ho_ID <$> rd_items r).

Definition name_before (a b : string) : Prop := text_less a b = true.

Lemma classified_name (now : time) (c : Z * Z) (h : Host) : ho_ID (classified now c h) = ho_ID h.
Proof. done. Qed.
(** The query's status does not get in the way: the host is classified as it is stored. *)
Lemma ClassifyHost_listed now c at_ a b row h : ho_Status h = listed_status at_ a b row ->
  ClassifyHost now h (fst c) (snd c) = ClassifyHost now (h <| ho_Status := hr_status row |>) (fst c) (snd c).
Proof.
  intros E. unfold ClassifyHost. rewrite E. unfold listed_status. cbn -[SubTime].
  assert (forall x, x = HostOnline \/ x = HostStale \/ x = HostOffline -> bool_decide (x = HostDecommissioned) = false /\ bool_decide (x = HostPending) = false /\ bool_decide (x = HostEnrolling) = false) as Hx
    by (by intros x [->|[->| ->]]).
  assert (forall t u v : bool, let x := if t then HostOnline else if u then HostStale else HostOffline in x = HostOnline \/ x = HostStale \/ x = HostOffline) as Hc by (intros [] [] v; auto).
  destruct (hr_status row); try done; (destruct (hr_last_heartbeat_at row) as [t|]; [edestruct Hx as (-> & -> & ->); [by apply (Hc _ _ true)|done]|done]).
Qed.

Lemma scanHost_seen r h : scanHost r = Ok h -> ho_AgentID h = hr_agent_id r /\ ho_LastHeartbeatAt h = default zero_time (UTC <$> hr_last_heartbeat_at r).
Proof. unfold scanHost. destruct (_ || _); [done|]. destruct (Host_Validate _) eqn:E; [|done]. by intros [= <-]. Qed.
Lemma page_names s now scope f cursor d p c rows rest : page_read s now scope f cursor d p c rows rest -> ho_ID <$> Items p = hr_host_id <$> rows.
Proof.
  intros [_ _ (items & Hs & ->) _ _]. rewrite <- list_fmap_compose. rewrite <- (scanned_names _ _ Hs). by apply list_fmap_ext.
Qed.
Lemma page_sorted s now scope f cursor d p c rows rest : inventory_ok d -> page_read s now scope f cursor d p c rows rest ->
  StronglySorted name_before (hr_host_id <$> rows ++ rest).
Proof.
  intros Hok Hp. rewrite <- (pr_rows _ _ _ _ _ _ _ _ _ _ Hp). set (g := service_filter f now c cursor). pose proof (listed_sorted scope g d) as Hs. pose proof (listed_nodup scope g d Hok) as Hn.
  revert Hs Hn. generalize (listed_rows scope g d). intros l. induction 1 as [|r l Hs IH Hr]; [constructor|]. rewrite fmap_cons, NoDup_cons. intros [Hn1 Hn2]. constructor; [by apply IH|].
  apply Forall_fmap, Forall_forall. intros x Hx. rewrite Forall_forall in Hr. specialize (Hr x Hx). unfold name_before, host_before in *. cbn.
  destruct (text_less (hr_host_id r) (hr_host_id x)) eqn:E; [done|]. destruct Hn1. rewrite (text_total _ _ E Hr). by apply list_elem_of_fmap_2.
Qed.
Lemma page_past s now scope f cursor d p c rows rest r : page_read s now scope f cursor d p c rows rest -> r ∈ rows ++ rest -> past cursor (hr_host_id r).
Proof. intros Hp. rewrite <- (pr_rows _ _ _ _ _ _ _ _ _ _ Hp), listed_elem. intros (r0 & _ & _ & Hc & -> & _). exact Hc. Qed.

Lemma page_shown s now scope f cursor d p c rows rest h : inventory_ok d -> page_read s now scope f cursor d p c rows rest -> h ∈ Items p ->
  shown_rightly s scope f {| rd_now := now; rd_data := d; rd_items := Items p |} h.
Proof.
  intros Hok Hp Hh. destruct (pr_items _ _ _ _ _ _ _ _ _ _ Hp h Hh) as [Hsc Hst]. pose proof (pr_scanned _ _ _ _ _ _ _ _ _ _ Hp) as (items & Hs & Hi). rewrite Hi in Hh.
  apply list_elem_of_fmap in Hh as (h0 & -> & Hh). destruct (traverse_result _ _ _ _ Hs Hh) as (r & Hr & Hscan). destruct (scanHost_fields _ _ Hscan) as (E1 & E2 & E3 & E4). destruct (scanHost_seen _ _ Hscan) as [E5 E6].
  assert (Hr2 : r ∈ listed_rows scope (service_filter f now c cursor) d) by (rewrite (pr_rows _ _ _ _ _ _ _ _ _ _ Hp); apply elem_of_app; by left).
  apply listed_elem in Hr2 as (r0 & (id & Hid) & Hs0 & _ & -> & _). exists c, r0. cbn [rd_now rd_data]. rewrite classified_name, E1. cbn. rewrite <- (ok_host_id d Hok _ _ Hid) in Hid.
  split_and!; [by apply (pr_class _ _ _ _ _ _ _ _ _ _ Hp)|exact Hid|done|exact Hsc|exact E5|exact E6| |exact Hst].
  cbn [classified]. rewrite (ClassifyHost_listed now c now (Microseconds (fst c)) (Microseconds (snd c)) r0 h0) by exact E3. by destruct h0.
Qed.

(** A host that is due on a page and has the asked status is on it, or comes after its last host. *)
Lemma page_due s now scope f cursor d p c rows rest id row : inventory_ok d -> page_read s now scope f cursor d p c rows rest ->
  hosts d !! id = Some row -> hr_scope row = scope -> past cursor id ->
  match fi_Status f with Some st => listed_status now (Microseconds (fst c)) (Microseconds (snd c)) row = st | None => True end ->
  id ∈ ho_ID <$> Items p \/ id ∈ hr_host_id <$> rest.
Proof.
  intros Hok Hp Hid Hsc Hpast Hst. rewrite (page_names _ _ _ _ _ _ _ _ _ _ Hp), <- elem_of_app, <- fmap_app, <- (pr_rows _ _ _ _ _ _ _ _ _ _ Hp).
  apply list_elem_of_fmap. exists (row <| hr_status := listed_status now (Microseconds (fst c)) (Microseconds (snd c)) row |>).
  split; [symmetry; exact (ok_host_id d Hok id row Hid)|]. apply listed_elem. exists row. cbn [service_filter fi_Cursor fi_Status fi_now fi_staleAfter fi_offlineAfter].
  rewrite (ok_host_id d Hok id row Hid). split_and!; [by exists id|done|exact Hpast|done|exact Hst].
Qed.

(** The names of a page go up to the next cursor, the others come after it. *)
Lemma page_cut s now scope f cursor d p c rows rest : inventory_ok d -> page_read s now scope f cursor d p c rows rest -> NextCursor p <> EmptyString ->
  (forall id, id ∈ ho_ID <$> Items p -> id = NextCursor p \/ text_less id (NextCursor p) = true) /\ (forall id, id ∈ hr_host_id <$> rest -> text_less (NextCursor p) id = true) /\ past cursor (NextCursor p).
Proof.
  intros Hok Hp Hne. pose proof (page_sorted _ _ _ _ _ _ _ _ _ _ Hok Hp) as Hs. rewrite (page_names _ _ _ _ _ _ _ _ _ _ Hp).
  destruct (pr_next _ _ _ _ _ _ _ _ _ _ Hp) as [[_ ?]|(_ & r & Hr & ->)]; [done|]. apply last_Some in Hr as [rows' ->].
  rewrite !fmap_app in Hs. cbn in Hs. split_and!.
  - intros id. rewrite fmap_app. cbn. intros [Hi|[->|Hi]%elem_of_cons]%elem_of_app; [right|by left|by apply elem_of_nil in Hi].
    rewrite <- app_assoc in Hs. by apply (proj2 (strongly_sorted_app _ _ _ Hs) id); [|left].
  - intros id Hi. apply (proj2 (strongly_sorted_app _ _ _ Hs) (hr_host_id r) id); [|done]. apply elem_of_app. right. by left.
  - eapply page_past; [exact Hp|]. apply elem_of_app. left. apply elem_of_app. right. by left.
Qed.

Lemma strongly_sorted_join {A} (R : relation A) l1 l2 : StronglySorted R l1 -> StronglySorted R l2 -> (forall x y, x ∈ l1 -> y ∈ l2 -> R x y) -> StronglySorted R (l1 ++ l2).
Proof.
  induction 1 as [|x l1 H1 IH Hx]; intros H2 H; [done|]. cbn. constructor; [apply IH; [done|]; intros; apply H; [by right|done]|].
  apply Forall_app. split; [done|]. apply Forall_forall. intros y Hy. apply H; [by left|done].
Qed.

Lemma page_last s now scope f cursor d p c rows rest : page_read s now scope f cursor d p c rows rest -> NextCursor p = EmptyString -> rest = [].
Proof.
  intros Hp He. destruct (pr_next _ _ _ _ _ _ _ _ _ _ Hp) as [[? _]|(_ & r & Hr & He2)]; [done|]. exfalso. rewrite He in He2.
  destruct (pr_scanned _ _ _ _ _ _ _ _ _ _ Hp) as (items & Hs & _). apply last_Some in Hr as [l ->]. destruct (traverse_elem _ _ _ r Hs) as (h & Hh & Hscan); [apply elem_of_app; right; by left|].
  destruct (scanHost_fields _ _ Hscan) as (E1 & _ & _ & Hv). destruct (identifier_bytes _ (host_names h Hv)) as [Hn _]. congruence.
Qed.

Record covers s scope f cursor (d : inventory) (rounds : list round) : Prop := {
  cv_sorted : StronglySorted name_before (listed_names rounds);
  cv_past id : id ∈ listed_names rounds -> past cursor id;
  cv_shown r h : r ∈ rounds -> h ∈ rd_items r -> shown_rightly s scope f r h;
  cv_due id row : hosts d !! id = Some row -> hr_scope row = scope -> past cursor id -> shown_when_due s scope f rounds id;
}.

Lemma kept_row d d' id row scope : kept d d' -> hosts d !! id = Some row -> hr_scope row = scope -> exists row', hosts d' !! id = Some row' /\ hr_scope row' = scope.
Proof. intros Hk Hid Hsc. destruct (kept_hosts _ _ Hk id row Hid) as (row' & Hid' & He & _). exists row'. split; [done|]. unfold row_identity in He. congruence. Qed.

Lemma listing_covers s scope f cursor d rounds : listing s scope f cursor d rounds -> inventory_ok d -> covers s scope f cursor d rounds.
Proof.
  induction 1 as [cursor d0 d now fs items Hst Hpage|cursor d0 d now fs items next rounds Hst Hpage Hne _ IH]; intros Hok0.
  all: pose proof (steps_ok _ _ Hst Hok0) as Hok; pose proof (steps_kept _ _ Hok0 Hst) as Hk; destruct (page_inv _ _ _ _ _ _ _ _ Hpage) as (c & rows & rest & Hp).
  all: pose proof (page_sorted _ _ _ _ _ _ _ _ _ _ Hok Hp) as Hs; rewrite fmap_app in Hs; pose proof (page_names _ _ _ _ _ _ _ _ _ _ Hp) as Hn; cbn [Items] in Hn.
  all: assert (Hs1 : StronglySorted name_before (ho_ID <$> items)) by (rewrite Hn; by apply StronglySorted_app_1_l in Hs).
  all: assert (Hpast : forall id, id ∈ ho_ID <$> items -> past cursor id) by
    (intros id; rewrite Hn; intros (r & -> & Hr)%list_elem_of_fmap; eapply page_past; [exact Hp|]; apply elem_of_app; by left).
  - pose proof (page_last _ _ _ _ _ _ _ _ _ _ Hp eq_refl) as ->. split.
    + unfold listed_names. cbn. by rewrite app_nil_r.
    + unfold listed_names. cbn. rewrite app_nil_r. apply Hpast.
    + intros r h ->%list_elem_of_singleton Hh. by apply (page_shown _ _ _ _ _ _ _ _ _ _ h Hok Hp).
    + intros id row Hid Hsc Hi. destruct (kept_row _ _ _ _ _ Hk Hid Hsc) as (row' & Hid' & Hsc'). eexists _, c, row'. split; [by left|]. cbn [rd_now rd_data rd_items].
      split_and!; [exact (pr_class _ _ _ _ _ _ _ _ _ _ Hp)|done|done|]. intros Hm. destruct (page_due _ _ _ _ _ _ _ _ _ _ id row' Hok Hp Hid' Hsc' Hi Hm) as [H|H]; [done|by apply elem_of_nil in H].
  - destruct (IH Hok) as [C1 C2 C3 C4]. destruct (page_cut _ _ _ _ _ _ _ _ _ _ Hok Hp Hne) as (Hc1 & Hc2 & Hc3). cbn [Items NextCursor] in *.
    assert (Hlater : forall id, id ∈ listed_names rounds -> text_less next id = true) by (intros id [->|]%C2; done).
    split.
    + unfold listed_names. cbn. apply strongly_sorted_join; [done|exact C1|]. intros x y Hx Hy%Hlater. destruct (Hc1 x Hx) as [->|Hl]; [done|]. by eapply text_transitive.
    + unfold listed_names. cbn. intros id [Hi|Hi]%elem_of_app; [by apply Hpast|]. destruct Hc3 as [->|Hc3]; [by left|right]. eapply text_transitive; [exact Hc3|by apply Hlater].
    + intros r h [->|Hr]%elem_of_cons Hh; [by apply (page_shown _ _ _ _ _ _ _ _ _ _ h Hok Hp)|by apply C3].
    + intros id row Hid Hsc Hi. destruct (kept_row _ _ _ _ _ Hk Hid Hsc) as (row' & Hid' & Hsc').
      destruct (text_less next id) eqn:Hlt.
      * destruct (C4 id row' Hid' Hsc' (or_intror Hlt)) as (r & c' & row2 & Hr & Hrest). exists r, c', row2. split; [by right|done].
      * eexists _, c, row'. split; [by left|]. cbn [rd_now rd_data rd_items].
        split_and!; [exact (pr_class _ _ _ _ _ _ _ _ _ _ Hp)|done|done|]. intros Hm. destruct (page_due _ _ _ _ _ _ _ _ _ _ id row' Hok Hp Hid' Hsc' Hi Hm) as [H|H%Hc2]; [done|congruence].
Qed.

(** The service does return a page of a working database at whole microseconds, when the rows of the scope are hosts. *)
Lemma page_succeeds s now scope f d c all : inventory_ok d -> classification s now = Some c ->
  whole (instant now) -> whole (fst c) -> whole (snd c) -> snd c <= int64_max -> snd c < instant now ->
  Scope_Validate scope = true -> Filter_Validate f = true -> traverse scanHost (listed_rows scope (service_filter f now c (fi_Cursor f)) d) = Ok all ->
  exists p, fst (service_List s now scope f (opened d [])) = Ok p.
Proof.
  intros Hok Hc Hnow Hw1 Hw2 Hmax Hlate Hs Hf Hall. destruct (classification_valid s now c Hc) as (Hutc & Hc1 & Hc2).
  assert (Hgood : forall h, h ∈ all -> Host_Validate h = true /\ ho_Scope h = scope /\ ClassifyHost now h (fst c) (snd c) = ho_Status h /\ match fi_Status f with Some st => ho_Status h = st | None => True end).
  { intros h Hh. destruct (traverse_result _ _ _ _ Hall Hh) as (r & (r0 & Hid & Hsc & _ & -> & Hst)%listed_elem & Hscan). destruct (scanHost_fields _ _ Hscan) as (_ & E2 & E3 & E4). cbn in E2, E3. split; [done|]. split; [congruence|].
    split; [|cbn in Hst; destruct (fi_Status f); [by rewrite E3|done]]. eapply classified_again; [..|exact Hscan]; try done. unfold validUTC in Hutc. by bool_simpl. }
  unfold service_List. rewrite Hs, Hf, Hc. cbn [negb orb]. unfold bind. change (Build_Filter _ _ _ _ _ _) with (service_filter f now c (fi_Cursor f)).
  rewrite (page_of_rows scope (service_filter f now c (fi_Cursor f)) d _ all eq_refl Hall Hs) by done. cbn zeta. set (limit := Z.to_nat _).
  destruct (limit <? length all)%nat; unfold ret; cbn [Items NextCursor fst].
  - rewrite checked_again by (intros x (i & Hi & _)%elem_of_take; apply Hgood; by eapply list_elem_of_lookup_2). by eexists.
  - rewrite checked_again by done. by eexists.
Qed.

(** C25: Following the cursors of the listing, with the clock read anew and any operations running before every page: no host is listed twice and the names come in order;
    every listed host is in the table and of the scope and has the status that ClassifyHost gives it at the time of its page, which is the one asked for; and every host of the
    scope that was there at the start is listed, if the query of the page on which it is due gives it the asked status.  When nothing fails, the rows can be read and
    the clock and the thresholds are whole microseconds, the service does return the page. *)
Theorem pages_cover_the_listing s scope f d0 rounds :
  steps empty_inventory d0 -> listing s scope f EmptyString d0 rounds ->
  StronglySorted name_before (listed_names rounds) /\ NoDup (listed_names rounds) /\
  (forall r h, r ∈ rounds -> h ∈ rd_items r -> shown_rightly s scope f r h) /\
  (forall id row, hosts d0 !! id = Some row -> hr_scope row = scope -> shown_when_due s scope f rounds id) /\
  (forall now d c cursor all, steps d0 d -> classification s now = Some c ->
    whole (instant now) -> whole (fst c) -> whole (snd c) -> snd c <= int64_max -> snd c < instant now ->
    Scope_Validate scope = true -> Filter_Validate (at_cursor cursor f) = true -> traverse scanHost (listed_rows scope (service_filter f now c cursor) d) = Ok all ->
    exists p, fst (service_List s now scope (at_cursor cursor f) (opened d [])) = Ok p).
Proof.
  intros Hd Hl. pose proof (steps_ok _ _ Hd empty_ok) as Hok. destruct (listing_covers _ _ _ _ _ _ Hl Hok) as [C1 C2 C3 C4]. split; [exact C1|]. split.
  { clear -C1 laws. induction C1 as [|x l _ IH Hx]; [constructor|]. apply NoDup_cons. split; [|done]. intros Hin. rewrite Forall_forall in Hx. specialize (Hx x Hin). unfold name_before in Hx. by rewrite text_irreflexive in Hx. }
  split; [exact C3|]. split; [intros id row Hid Hsc; apply (C4 id row Hid Hsc); by left|].
  intros now d c cursor all Hst. intros. eapply (page_succeeds s now scope (at_cursor cursor f) d c all); try done. exact (steps_ok _ _ Hst Hok).
Qed.
End listings.

(** ** A run *)
Module ListingDemo.
Import PhaseDemo InventoryDemo.

#[export] Instance demo_laws : PgLaws.
Proof.
  split; cbn.
  - intros a. apply negb_false_iff. destruct (String.leb_total a a) as [H|H]; exact H.
  - intros a b c. rewrite !negb_true_iff, <- !not_true_iff_false. intros H1 H2 H3. apply H1. apply Is_true_true. apply (transitivity (R := String.le) (y := c)).
    + apply Is_true_true. destruct (String.leb_total b c) as [H|H]; [exact H|done].
    + by apply Is_true_true.
  - intros a b. rewrite !negb_false_iff. intros H1 H2. by apply String.leb_antisym.
  - intros t H. rewrite H. lia.
Qed.

Definition seen_at (host agent : string) : HostInventory.Observation :=
  {| obs_HostID := host; obs_AgentID := agent; obs_Revision := 1; obs_AgentVersion := ""; obs_Hostname := "db"; obs_OS := "linux"; obs_OSVersion := ""; obs_Kernel := "";
     obs_Architecture := "amd64"; obs_LogicalCPUCount := 4; obs_MemoryCapacityBytes := 1024; obs_Filesystems := []; obs_NetworkAddresses := []; obs_Capabilities := [];
     obs_ObservedAt := at_second 1 |}.
Definition recorded (host agent : string) : operation :=
  DoRecordEnrollment scope {| en_HostID := host; en_AgentID := agent; en_DisplayName := host; en_Labels := ∅; en_Revision := 1; en_EnrolledAt := at_second 1 |} (seen_at host agent) (at_second 1).
(** Three hosts, one of which is alive. *)
Definition three : inventory :=
  carried (DoRecordHeartbeat scope "agent-2" (at_second 10)) (carried (recorded "host-3" "agent-3") (carried (recorded "host-1" "agent-1") (carried (recorded "host-2" "agent-2") empty_inventory))).
Lemma three_steps : steps empty_inventory three.
Proof. by do 4 apply carried_steps. Qed.
Definition defaults : HostService := {| StaleAfter := 0; OfflineAfter := 0 |}.
Definition one_by_one : Filter := {| fi_Status := None; fi_Cursor := ""; fi_Limit := 1; fi_now := zero_time; fi_staleAfter := 0; fi_offlineAfter := 0 |}.
(** Between the pages the clock goes on, below a microsecond too, a host sends a heartbeat and another is recorded. *)
Definition later : inventory := carried (recorded "host-0" "agent-0") (carried (DoRecordHeartbeat scope "agent-1" (at_second 201)) three).
Definition page_at (now : time) (cursor : string) (d : inventory) : Page := match fst (service_List defaults now scope (at_cursor cursor one_by_one) (opened d [])) with Ok p => p | Err _ => {| Items := []; NextCursor := "failed" |} end.
Definition clock_at (n : Z) : time := AddDuration (at_second (200 + n)) n.
Definition page1 : Page := page_at (clock_at 0) "" three.
Definition page2 : Page := page_at (clock_at 1) "host-1" later.
Definition page3 : Page := page_at (clock_at 2) "host-2" later.
Definition rounds : list round :=
  [{| rd_now := clock_at 0; rd_data := three; rd_items := Items page1 |}; {| rd_now := clock_at 1; rd_data := later; rd_items := Items page2 |}; {| rd_now := clock_at 2; rd_data := later; rd_items := Items page3 |}].
Lemma pages_cover_the_listing_witness : NoDup (listed_names rounds) /\ listed_names rounds = ["host-1"; "host-2"; "host-3"]%string /\ rounds ≫= (fun r => ho_Status <$> rd_items r) = [HostEnrolling; HostStale; HostEnrolling].
Proof.
  split; [|split; vm_compute; reflexivity]. refine (proj1 (proj2 (pages_cover_the_listing defaults scope one_by_one three rounds three_steps _))).
  assert (Hl : steps three later) by (unfold later; do 2 apply carried_steps; apply rtc_refl).
  apply (listing_more _ _ _ _ _ three (clock_at 0) [] _ "host-1"); [apply rtc_refl|vm_compute; reflexivity|discriminate|].
  apply (listing_more _ _ _ _ _ later (clock_at 1) [] _ "host-2"); [exact Hl|vm_compute; reflexivity|discriminate|].
  apply (listing_last _ _ _ _ _ later (clock_at 2) []); [apply rtc_refl|vm_compute; reflexivity].
Defined.

(** Below a microsecond the two disagree: the query still has the host online, [ClassifyHost] has it stale, and the listing of online hosts is refused. *)
Definition online_only : Filter := {| fi_Status := Some HostOnline; fi_Cursor := ""; fi_Limit := 10; fi_now := zero_time; fi_staleAfter := 0; fi_offlineAfter := 0 |}.
Example listings_below_microseconds :
  fst (service_List defaults (at_second 130) scope online_only (opened three [])) <> Err ErrInvalid /\
  fst (service_List defaults (AddDuration (at_second 130) 500) scope online_only (opened three [])) = Err ErrInvalid.
Proof. split; [vm_compute; discriminate|vm_compute; reflexivity]. Qed.
End ListingDemo.
