(* ===== verification/EnrollmentSafety.v ===== *)
(** * What agents are enrolled with

    Runs of the enrollment service among the steps of all control planes, and
    what they guarantee: a token is exchanged for one certificate; the
    certificate authenticates its agent until it is revoked, and never after;
    decommissioned hosts stay out; credentials that were replaced are reported
    to the sessions; lost replies are recovered by asking again. *)

From S2P Require Import Prelude Programs GoText JobModel JobRepository CommandPhases CommandDelivery CommandLifecycle SessionRegistry AgentServer Database HostInventory Enrollment EnrollmentLogic HostListing.

Open Scope Z_scope.
Open Scope update_scope.

Section safety.
Context {columns : PgColumns} {codec : ResultCodec} {x509 : X509}.

(** ** Runs of the service *)

(** Agents with certificates whose sessions are to end. *)
Abbreviation terminations := (list (string * bytes * string)).

(** The reply of a call on the tables [d], the tables after it, and the sessions it ends. *)
Definition answers {B} (c : enroll_call B) (d : inventory) (b : B) (d' : inventory) (ended : terminations) : Prop :=
  match c in enroll_call B return B -> Prop with
  | ENow | ERandom _ => fun _ => d' = d /\ ended = []
  | ECreate t => fun b => exists fs, b = fst (Create t (opened d fs)) /\ d' = data (snd (Create t (opened d fs))) /\ ended = []
  | EReplace t generation => fun b => exists fs, b = fst (Replace t generation (opened d fs)) /\ d' = data (snd (Replace t generation (opened d fs))) /\ ended = []
  | EResolveReplacement scope l => fun b => exists fs, b = fst (ResolveReplacement scope l (opened d fs)) /\ d' = data (snd (ResolveReplacement scope l (opened d fs))) /\ ended = []
  | EResolve k => fun b => exists now fs, b = fst (Resolve k now (opened d fs)) /\ d' = data (snd (Resolve k now (opened d fs))) /\ ended = []
  | EComplete c => fun b => exists now fs, b = fst (Complete c now (opened d fs)) /\ d' = data (snd (Complete c now (opened d fs))) /\ ended = []
  | ESign g csr => fun b => (exists issuer now random, b = SignAgentCSR issuer now random g csr) /\ d' = d /\ ended = []
  | ETerminateCredential agentID fingerprint serial => fun _ => d' = d /\ ended = [(agentID, fingerprint, serial)]
  end b.

(** A run: other operations take steps between its calls. *)
Fixpoint runs {A} (p : eprog A) (d : inventory) (ended : terminations) (a : A) (d' : inventory) : Prop :=
  match p with
  | Return x => x = a /\ steps d d' /\ ended = []
  | Call c k => exists d1 b d2 e1 e2, steps d d1 /\ answers c d1 b d2 e1 /\ runs (k b) d2 e2 a d' /\ ended = e1 ++ e2
  end.

(** A call of the authorizer lets the agent in. *)
Definition accepted (agentID : string) (fingerprint : bytes) (serial : string) (d : inventory) : Prop :=
  exists targets now fs, fst (AuthorizeAgentCredential targets agentID fingerprint serial now (opened d fs)) = Ok tt.

(** *** Runs make steps *)

Lemma answers_steps {B} (c : enroll_call B) d b d' ended : answers c d b d' ended -> steps d d'.
Proof.
  destruct c; cbn; try (by intros (-> & _)).
  - intros (fs & _ & -> & _). apply rtc_once. exists (DoCreate t), fs. cbn. unfold quietly, bind. by destruct (Create t (opened d fs)).
  - intros (fs & _ & -> & _). apply rtc_once. exists (DoReplace t expectedGeneration), fs. cbn. unfold quietly, bind. by destruct (Replace t expectedGeneration (opened d fs)).
  - intros (fs & _ & -> & _). assert (data (snd (ResolveReplacement scope l (opened d fs))) = d) as ->; [|done].
    apply (weaken_at (fun x => x = d) (ResolveReplacement scope l) (fun _ x => x = d) (fun _ x => x = d)); [|done|done].
    unfold ResolveReplacement. destruct (_ || _); [by apply ret_at|apply query_reads].
  - intros (now & fs & _ & -> & _). pose proof (Resolve_at k now d (opened d fs) eq_refl) as [-> _]. done.
  - intros (now & fs & _ & -> & _). apply rtc_once. exists (DoComplete c now), fs. cbn. unfold quietly, bind. by destruct (Complete c now (opened d fs)).
  - by intros (_ & -> & _).
Qed.
Lemma runs_steps {A} (p : eprog A) d ended a d' : runs p d ended a d' -> steps d d'.
Proof.
  revert d ended. induction p as [x|B c k IH]; intros d ended; cbn; [by intros (_ & H & _)|].
  intros (d1 & b & d2 & e1 & e2 & H1 & H2 & H3 & _). etrans; [exact H1|]. etrans; [by eapply answers_steps|]. by eapply IH.
Qed.
Lemma runs_bind {A B} (p : eprog A) (f : A -> eprog B) d ended b d' : runs (prog_bind f p) d ended b d' ->
  exists a d1 e1 e2, runs p d e1 a d1 /\ runs (f a) d1 e2 b d' /\ ended = e1 ++ e2.
Proof.
  revert d ended. induction p as [x|C c k IH]; intros d ended; cbn.
  - intros H. by exists x, d, [], ended.
  - intros (d1 & x & d2 & e1 & e2 & H1 & H2 & H3 & ->). apply IH in H3 as (a & d3 & e3 & e4 & Ha & Hb & ->).
    exists a, d3, (e1 ++ e3), e4. split; [by exists d1, x, d2, e1, e3|]. split; [done|]. by rewrite app_assoc.
Qed.

(** ** Authorisation *)

Lemma accepted_authorised agentID fingerprint serial d : accepted agentID fingerprint serial d -> exists d1, rtc change d d1 /\ authorised agentID fingerprint serial d1.
Proof.
  intros (targets & now & fs & H). pose proof (AuthorizeAgentCredential_at targets agentID fingerprint serial now d (opened d fs) eq_refl) as [Hc Ha].
  eexists. split; [exact Hc|]. by apply Ha.
Qed.

Lemma current_credential_true fingerprint serial r : current_credential fingerprint serial r = true ->
  hr_status r <> HostDecommissioned /\ hr_fingerprint r = fingerprint /\ hr_serial r = serial /\ hr_fingerprint r <> [].
Proof.
  unfold current_credential. intros H. bool_simpl. split; [done|]. split; [done|]. split; [done|]. intros E.
  match goal with H : (_ =? _)%nat = true |- _ => apply Nat.eqb_eq in H; by rewrite E in H end.
Qed.

Lemma revoked_unauthorised d k i serial : inventory_ok d -> issuances d !! k = Some i -> is_revoked_at i <> None ->
  ~ authorised (id_agent (is_identity i)) (is_fingerprint i) serial d.
Proof.
  intros Hok Hi Hv (id & r & Hr & Ha & (_ & Hf & _ & Hne)%current_credential_true). destruct (ok_issued d Hok k i Hi) as (r2 & Hr2 & Hri & _).
  assert (id = id_host (is_identity i)) as -> by (eapply ok_agents; [done|exact Hr|exact Hr2|rewrite Ha, <- Hri; done]). assert (r2 = r) as -> by congruence.
  destruct (ok_certified d Hok _ r Hr Hne) as [(k' & j & Hj & _ & Hjv & _ & Hjf & _)|(_ & _ & Hno)].
  - assert (k' = k) as -> by (eapply ok_fingerprints; [done|exact Hj|exact Hi|congruence]). congruence.
  - by apply (Hno k i).
Qed.
Lemma decommissioned_unauthorised d id r fingerprint serial : inventory_ok d -> hosts d !! id = Some r -> hr_status r = HostDecommissioned ->
  ~ authorised (hr_agent_id r) fingerprint serial d.
Proof.
  intros Hok Hr Hs (id2 & r2 & Hr2 & Ha & (Hn & _)%current_credential_true). assert (id2 = id) as -> by by eapply ok_agents. congruence.
Qed.
Lemma revoked_refused d k i serial : inventory_ok d -> issuances d !! k = Some i -> is_revoked_at i <> None -> ~ accepted (id_agent (is_identity i)) (is_fingerprint i) serial d.
Proof.
  intros Hok Hi Hv (d1 & Hc & Ha)%accepted_authorised. destruct (kept_issuances _ _ (changes_kept _ _ Hok Hc) k i Hi) as (j & Hj & He & Hjv).
  assert (is_identity j = is_identity i /\ is_fingerprint j = is_fingerprint i) as [E1 E2] by (by destruct i, j; simplify_eq He).
  eapply (revoked_unauthorised d1 k j); [by eapply changes_ok|done|by rewrite Hjv|]. by rewrite E1, E2.
Qed.

(** C16: A revoked certificate is never accepted again: not from the moment of its revocation, whatever operations follow, whatever fails, and whatever import
    targets are configured. *)
Theorem revoked_certificates_are_refused d k i d' serial :
  steps empty_inventory d -> issuances d !! k = Some i -> is_revoked_at i <> None -> steps d d' -> ~ accepted (id_agent (is_identity i)) (is_fingerprint i) serial d'.
Proof.
  intros Hd Hi Hv Hs. pose proof (steps_ok _ _ Hd empty_ok) as Hok. destruct (kept_issuances _ _ (steps_kept _ _ Hok Hs) k i Hi) as (j & Hj & He & Hjv).
  assert (is_identity j = is_identity i /\ is_fingerprint j = is_fingerprint i) as [<- <-] by (by destruct i, j; simplify_eq He).
  eapply revoked_refused; [by eapply steps_ok|done|by rewrite Hjv].
Qed.

(** C18: A decommissioned host stays out: it stays decommissioned, and no certificate of its agent is accepted any more. *)
Theorem decommissioned_hosts_stay_out d id r d' fingerprint serial :
  steps empty_inventory d -> hosts d !! id = Some r -> hr_status r = HostDecommissioned -> steps d d' ->
  ~ accepted (hr_agent_id r) fingerprint serial d' /\ exists r', hosts d' !! id = Some r' /\ row_identity r' = row_identity r /\ hr_status r' = HostDecommissioned.
Proof.
  intros Hd Hr Hst Hs. pose proof (steps_ok _ _ Hd empty_ok) as Hok. destruct (kept_hosts _ _ (steps_kept _ _ Hok Hs) id r Hr) as (r1 & Hr1 & Hi1 & _ & Hd1).
  pose proof (steps_ok _ _ Hs Hok) as Hok'. split; [|by exists r1; auto]. intros (d2 & Hc & Ha)%accepted_authorised.
  destruct (kept_hosts _ _ (changes_kept _ _ Hok' Hc) id r1 Hr1) as (r2 & Hr2 & Hi2 & _ & Hd2).
  assert (hr_agent_id r2 = hr_agent_id r) as E by (apply (f_equal id_agent) in Hi1, Hi2; cbn in *; congruence). rewrite <- E in Ha.
  eapply decommissioned_unauthorised; [by eapply changes_ok|exact Hr2|auto|exact Ha].
Qed.

(** ** Exchanges of tokens *)

(** The tables [d] give the response [r] and the superseded credentials for a token: read from them, or just written. *)
Definition obtained (k : EnrollmentAttemptKey) (g : EnrollmentGrant) (r : EnrollResult) (superseded : list AgentCredential) (d : inventory) : Prop :=
  resolves k g r superseded d \/
  exists c now d0, steps empty_inventory d0 /\ completes c now d0 d /\ co_Key c = k /\ co_Grant c = g /\ co_Result c = r /\ superseded = superseded_rows g d /\ forallb loadable superseded = true.

Lemma terminate_runs agentID l d ended u d' : runs (terminateConfirmedCredentials agentID l) d ended u d' ->
  steps d d' /\ forall c, c ∈ l -> valid_credential c = true -> (agentID, ac_Fingerprint c, ac_Serial c) ∈ ended.
Proof.
  revert d ended. induction l as [|c l IH]; intros d ended; cbn; [intros (_ & H & _); split; [done|]; intros c Hc; by apply elem_of_nil in Hc|].
  destruct (valid_credential c) eqn:Ec.
  - cbn. intros (d1 & b & d2 & e1 & e2 & H1 & (-> & ->) & H3 & ->). apply IH in H3 as [H3 H4]. split; [by etrans|].
    intros x [->|Hx]%elem_of_cons Hv; [by left|right; auto].
  - intros H%IH. destruct H as [H1 H2]. split; [done|]. intros x [->|Hx]%elem_of_cons Hv; [congruence|auto].
Qed.
Lemma confirm_runs g l response d ended r d' : runs (confirm g l response) d ended (Ok r) d' ->
  r = response /\ steps d d' /\ forall c, c ∈ l -> valid_credential c = true -> (gr_AgentID g, ac_Fingerprint c, ac_Serial c) ∈ ended.
Proof.
  unfold confirm. intros (u & d1 & e1 & e2 & H1 & H2 & ->)%runs_bind. apply terminate_runs in H1 as [H1 H3]. destruct H2 as ([= <-] & H2 & ->).
  rewrite app_nil_r. split; [done|]. split; [by etrans|done].
Qed.

(** What a successful run goes through: tables that give its response, then the end of the sessions with superseded credentials. *)
Definition exchange (hash digest : bytes) (agentID hostID : string) (d : inventory) (ended : terminations) (r : EnrollResult) (d' : inventory) : Prop :=
  exists k g l dx, ak_TokenHash k = hash /\ ak_CSRDigest k = digest /\ ak_AgentID k = agentID /\ (hostID = EmptyString \/ ak_HostID k = hostID) /\ steps d dx /\ obtained k g r l dx /\ steps dx d'
    /\ forall c, c ∈ l -> valid_credential c = true -> (agentID, ac_Fingerprint c, ac_Serial c) ∈ ended.

Lemma exchange_before hash digest agentID hostID d0 d e0 ended r d' :
  steps d0 d -> exchange hash digest agentID hostID d ended r d' -> exchange hash digest agentID hostID d0 (e0 ++ ended) r d'.
Proof.
  intros H0 (k & g & l & dx & E1 & E2 & E3 & E4 & H1 & H2 & H3 & H4). exists k, g, l, dx. do 4 (split; [done|]). split; [by etrans|]. split; [done|]. split; [done|].
  intros c Hc Hcv. apply elem_of_app. right. auto.
Qed.
Lemma confirm_exchange k g' g l response d ended r d' :
  gr_AgentID g = ak_AgentID k -> obtained k g' response l d -> runs (confirm g l response) d ended (Ok r) d' -> exchange (ak_TokenHash k) (ak_CSRDigest k) (ak_AgentID k) (ak_HostID k) d ended r d'.
Proof. intros Hg Ho (-> & Hs & He)%confirm_runs. exists k, g', l, d. rewrite Hg in He. split_and!; try done. by right. Qed.

Lemma refuse_runs {A} e d ended (a : A) d' : ~ runs (refuse_enrollment e) d ended (Ok a) d'.
Proof. by intros (? & _). Qed.

(** A resolution that has a response. *)
Lemma resolve_answer k d b d' ended r response : answers (EResolve k) d b d' ended -> b = Ok r -> rs_Response r = Some response ->
  d' = d /\ ended = [] /\ obtained k (rs_Grant r) response (rs_SupersededCredentials r) d.
Proof.
  intros (now & fs & Hb & -> & ->) Hok Hr. destruct (Resolve_at k now d (opened d fs) eq_refl) as [Hd H]. split; [done|]. split; [done|]. left.
  rewrite <- Hb in H. specialize (H r Hok). rewrite Hr in H. by rewrite Hd in H.
Qed.

Lemma recover_runs k g d ended r d' : gr_AgentID g = ak_AgentID k -> runs (recover k g) d ended (Ok r) d' ->
  exchange (ak_TokenHash k) (ak_CSRDigest k) (ak_AgentID k) (ak_HostID k) d ended r d'.
Proof.
  intros Hg. unfold recover. cbn [runs]. intros (d1 & b & d2 & e1 & e2 & H1 & Hans & Hrun & ->). apply exchange_before with d1; [done|].
  destruct b as [x|e]; [|by apply refuse_runs in Hrun]. destruct (rs_Response x) as [response|] eqn:Er; [|by apply refuse_runs in Hrun].
  destruct (validateEnrollmentResult response g); [|by apply refuse_runs in Hrun]. destruct (resolve_answer _ _ _ _ _ _ _ Hans eq_refl Er) as (-> & -> & Ho).
  by eapply confirm_exchange.
Qed.

Lemma completed_obtained c now done d0 d : steps empty_inventory d0 -> completed c now done d0 d -> exists g, obtained (co_Key c) g (cp_Response done) (cp_SupersededCredentials done) d.
Proof.
  intros Hd [[_ [g H]]|(H1 & H2 & H3 & H4)]; [by exists g; left|]. exists (co_Grant c). right. destruct (normalized_same c) as [E1 E2].
  exists (normalized c), now, d0. by rewrite E1, E2.
Qed.

Lemma issue_runs q k g now d ended r d' : steps empty_inventory d -> gr_AgentID g = ak_AgentID k -> runs (issue q k g now) d ended (Ok r) d' ->
  exchange (ak_TokenHash k) (ak_CSRDigest k) (ak_AgentID k) (ak_HostID k) d ended r d'.
Proof.
  intros Hd Hg. unfold issue. cbn [runs]. intros (d1 & signed & d2 & e1 & e2 & H1 & (_ & -> & ->) & Hrun & ->). cbn [app].
  destruct signed as [[[certificatePEM chainPEM] expiresAt]|]; [|by apply refuse_runs in Hrun].
  destruct (_ || negb (After expiresAt now)); [by apply refuse_runs in Hrun|]. destruct (normalizeEnrollmentResult _ g) as [x|]; [|by apply refuse_runs in Hrun].
  cbn [runs] in Hrun. destruct Hrun as (d3 & b & d4 & e3 & e4 & H3 & Hans & Hrun & ->). pose proof (answers_steps _ _ _ _ _ Hans) as Hs.
  apply (exchange_before _ _ _ _ d d4); [etrans; [exact H1|by etrans]|].
  destruct b as [done|e]; [|by eapply recover_runs]. destruct (validateEnrollmentResult _ g); [|by apply refuse_runs in Hrun].
  destruct Hans as (now' & fs & Hb & Hd4 & ->). match type of Hb with _ = fst (Complete ?co _ _) => set (c := co) in * end.
  pose proof (Complete_at c now' d3 (opened d3 fs) eq_refl) as [_ Hc]. rewrite <- Hb, <- Hd4 in Hc.
  destruct (completed_obtained c now' done d3 d4) as [g' Ho]; [etrans; [exact Hd|by etrans]|by apply Hc|]. by eapply confirm_exchange.
Qed.

Lemma resolve_key k d r d' ended : answers (EResolve k) d (Ok r) d' ended -> Key_Validate k = true.
Proof. intros (now & fs & Hb & _). unfold Resolve in Hb. by destruct (Key_Validate k). Qed.
Lemma exchange_host hash digest agentID h0 hostID d ended r d' : h0 = EmptyString \/ h0 = hostID -> exchange hash digest agentID hostID d ended r d' -> hostID <> EmptyString ->
  exchange hash digest agentID h0 d ended r d'.
Proof. intros H0 (k & g & l & dx & E1 & E2 & E3 & E4 & Hrest) Hne. exists k, g, l, dx. do 3 (split; [done|]). split; [naive_solver|done]. Qed.

Lemma Enroll_runs q d ended r d' : steps empty_inventory d -> runs (Enroll q) d ended (Ok r) d' ->
  exists message publicKey digest, verifiedCSRProofInputs (eq_AgentID q) (eq_CSRPEM q) (eq_CSRPublicKey q) = Some (message, publicKey, digest)
    /\ ed25519_Verify publicKey message (eq_CSRProof q) = true /\ enroll_valid q = true
    /\ Key_Validate {| ak_TokenHash := HashToken (eq_Token q); ak_CSRDigest := digest; ak_AgentID := eq_AgentID q; ak_HostID := obs_HostID (eq_Observation q) |} = true
    /\ exchange (HashToken (eq_Token q)) digest (eq_AgentID q) (obs_HostID (eq_Observation q)) d ended r d'.
Proof.
  intros Hd. unfold Enroll. destruct (enroll_valid q) eqn:Ev; [|by intros H%refuse_runs].
  destruct (verifiedCSRProofInputs _ _ _) as [[[message publicKey] digest]|]; [|by intros H%refuse_runs].
  destruct (ed25519_Verify _ _ _) eqn:Es; [|by intros H%refuse_runs]. cbn [negb runs].
  intros (d1 & now & d2 & e1 & e2 & H1 & (-> & ->) & Hrun & ->). exists message, publicKey, digest. do 3 (split; [done|]).
  destruct (validUTC now); [|by apply refuse_runs in Hrun]. cbn [negb runs] in Hrun. destruct Hrun as (d3 & b & d4 & e3 & e4 & H3 & Hans & Hrun & ->).
  destruct b as [x|e]; [|by destruct e; apply refuse_runs in Hrun]. split; [by eapply resolve_key|].
  pose proof (answers_steps _ _ _ _ _ Hans) as Hs. apply (exchange_before _ _ _ _ d d1); [done|]. apply (exchange_before _ _ _ _ d1 d4); [by etrans|].
  destruct (_ || _) eqn:Eg; [by apply refuse_runs in Hrun|]. bool_simpl.
  destruct (rs_Response x) as [response|] eqn:Er.
  - destruct (validateEnrollmentResult response _); [|by apply refuse_runs in Hrun]. destruct (resolve_answer _ _ _ _ _ _ _ Hans eq_refl Er) as (-> & -> & Ho).
    match type of Ho with obtained ?ko _ _ _ _ => by apply (confirm_exchange ko (rs_Grant x) (rs_Grant x) (rs_SupersededCredentials x) response d3 e4 r d') end.
  - apply exchange_host with (gr_HostID (rs_Grant x)).
    + match goal with H : negb _ && negb _ = false |- _ => apply andb_false_iff in H as [E|E] end; bool_simpl; [left|by right]. unfold empty_string in E. by apply bool_decide_eq_true in E.
    + match type of Hrun with runs (issue _ ?k _ _) _ _ _ _ => change (exchange (ak_TokenHash k) (ak_CSRDigest k) (ak_AgentID k) (ak_HostID k) d4 e4 r d') end.
      eapply issue_runs; [|done|exact Hrun]. etrans; [exact Hd|]. etrans; [exact H1|]. by etrans.
    + match goal with H : Grant_Validate _ = true |- _ => unfold Grant_Validate in H; bool_simpl end. by apply identifier_bytes.
Qed.

(** The issuance that a response is read from, or stored as. *)
Definition issued_as (k : EnrollmentAttemptKey) (r : EnrollResult) (i : issuanceRow) : Prop :=
  is_csr_digest i = ak_CSRDigest k /\ id_agent (is_identity i) = ak_AgentID k /\ id_host (is_identity i) = er_HostID r /\ is_certificate_pem i = er_CertificatePEM r
  /\ is_certificate_chain_pem i = er_CertificateChainPEM r /\ is_credential_generation i = er_CredentialGeneration r /\ is_fingerprint i = er_CertificateFingerprint r
  /\ is_serial i = er_CertificateSerial r /\ enrollmentCertificateIdentity (is_certificate_pem i) = Some (is_fingerprint i, is_serial i).

Lemma resolved_issued k now d r response : inventory_ok d -> resolveEnrollment k now d = Ok r -> rs_Response r = Some response ->
  exists i, issuances d !! ak_TokenHash k = Some i /\ issued_as k response i /\ is_revoked_at i = None /\ grant_identity (rs_Grant r) = is_identity i
    /\ er_CredentialGeneration response = gr_Generation (rs_Grant r).
Proof.
  unfold resolveEnrollment. intros Hok H Hr. destruct (tokens d !! ak_TokenHash k) as [t|] eqn:Et; [|done]. past H Eg. past H Ev.
  destruct (issuances d !! ak_TokenHash k) as [i|] eqn:Ei; [|past H Ea; by simplify_eq]. past H Ec. past H Ea. simplify_eq H. intros <-. cbn in Hr. simplify_eq Hr. intros <-.
  exists i. split; [done|]. destruct (ok_token d Hok _ _ Ei) as (t' & Ht' & Hti & Htg & _). assert (t' = t) as -> by congruence.
  unfold issuance_current in Ec. unfold validateEnrollmentResult in Ea. bool_simpl. cbn in *.
  destruct (enrollmentCertificateIdentity _) as [[fp se]|] eqn:Eid; [|done]. bool_simpl. unfold issued_as. cbn. rewrite <- Hti in *.
  split; [split_and!; try done; congruence|]. split; [done|]. split; [apply row_grant_identity|congruence].
Qed.
Lemma completes_issued c now d0 d : inventory_ok d0 -> completes c now d0 d ->
  issuances d !! ak_TokenHash (co_Key c) = Some (issuance_row c) /\ issued_as (co_Key c) (co_Result c) (issuance_row c)
    /\ er_CredentialGeneration (co_Result c) = gr_Generation (co_Grant c).
Proof.
  intros Hok H. pose proof (completes_effect _ _ _ _ Hok H) as [d1 t h i x h' Hok1 Hkept Ht1 Hi1 Him1 Ht Htc Hiss Hgt Hge Hgen Hh Hhi Hlt Hshape Hcol Hfresh ->].
  destruct H as [r d2 d3 d4 d5 Hv _ _ _ _ _ _ _ _]. destruct (complete_valid_fields c Hv) as (E1 & E2 & E3 & E4). split; [|split; [|done]].
  - cbn. rewrite lookup_fmap, lookup_insert_eq. cbn. f_equal. unfold revoking, older. cbn. fold x. by rewrite Z.ltb_irrefl, andb_false_r.
  - unfold complete_valid in Hv. bool_simpl. by unfold issued_as; cbn.
Qed.

Lemma obtained_issued k g r l d : inventory_ok d -> obtained k g r l d ->
  exists i, issuances d !! ak_TokenHash k = Some i /\ issued_as k r i /\ is_revoked_at i = None /\ grant_identity g = is_identity i /\ er_CredentialGeneration r = gr_Generation g.
Proof.
  intros Hok [(now & x & H1 & H2 & <- & _)|(c & now & d0 & Hs & Hc & <- & <- & <- & _)].
  - by eapply resolved_issued.
  - destruct (completes_issued c now d0 d) as (H1 & H2 & H3); [by eapply steps_ok, empty_ok|done|]. by exists (issuance_row c).
Qed.

Lemma issuance_kept_as k r i j : issuance_kept i j -> issued_as k r i -> issued_as k r j.
Proof. intros [He _] H. destruct i, j. cbn in *. simplify_eq He. by intros; subst. Qed.

(** After a successful run its certificate is in the table, for good. *)
Lemma enrolled_issued q d ended r d1 d2 : steps empty_inventory d -> runs (Enroll q) d ended (Ok r) d1 -> steps d1 d2 ->
  exists message publicKey k i, verifiedCSRProofInputs (eq_AgentID q) (eq_CSRPEM q) (eq_CSRPublicKey q) = Some (message, publicKey, ak_CSRDigest k)
    /\ ed25519_Verify publicKey message (eq_CSRProof q) = true /\ ak_AgentID k = eq_AgentID q /\ issuances d2 !! HashToken (eq_Token q) = Some i /\ issued_as k r i.
Proof.
  intros Hd Hrun Hs. apply Enroll_runs in Hrun as (message & publicKey & digest & Hm & Hv & _ & _ & k & g & l & dx & E1 & <- & E3 & _ & H1 & Ho & H3 & _); [|done].
  assert (Hokx : inventory_ok dx) by (eapply steps_ok; [|by eapply steps_ok, empty_ok]; done).
  destruct (obtained_issued _ _ _ _ _ Hokx Ho) as (i & Hi & Has & _ & _).
  destruct (kept_issuances _ _ (steps_kept dx d2 Hokx (transitivity H3 Hs)) _ _ Hi) as (j & Hj & Hk).
  exists message, publicKey, k, j. split; [done|]. split; [done|]. split; [done|]. rewrite <- E1. split; [done|]. by eapply issuance_kept_as.
Qed.

(** C13: A token is exchanged once: two successful enrollments with one token, however their calls and those of others interleave and whatever failures they recover from,
    were asked by the same agent for the same certificate request, and both get the same certificate, of the same host and generation. *)
Theorem tokens_are_exchanged_once q1 q2 d d' ended1 ended2 r1 r2 d1 d2 df :
  steps empty_inventory d -> runs (Enroll q1) d ended1 (Ok r1) d1 -> steps d1 df ->
  steps empty_inventory d' -> runs (Enroll q2) d' ended2 (Ok r2) d2 -> steps d2 df ->
  eq_Token q1 = eq_Token q2 ->
  eq_AgentID q1 = eq_AgentID q2 /\
  snd <$> verifiedCSRProofInputs (eq_AgentID q1) (eq_CSRPEM q1) (eq_CSRPublicKey q1) = snd <$> verifiedCSRProofInputs (eq_AgentID q2) (eq_CSRPEM q2) (eq_CSRPublicKey q2) /\
  er_HostID r1 = er_HostID r2 /\ er_CertificatePEM r1 = er_CertificatePEM r2 /\ er_CertificateChainPEM r1 = er_CertificateChainPEM r2 /\
  er_CertificateFingerprint r1 = er_CertificateFingerprint r2 /\ er_CertificateSerial r1 = er_CertificateSerial r2 /\ er_CredentialGeneration r1 = er_CredentialGeneration r2.
Proof.
  intros Hd Hr1 Hs1 Hd' Hr2 Hs2 Ht.
  destruct (enrolled_issued _ _ _ _ _ _ Hd Hr1 Hs1) as (m1 & p1 & k1 & i1 & -> & _ & Ha1 & Hi1 & (A1 & A2 & A3 & A4 & A5 & A6 & A7 & A8 & _)).
  destruct (enrolled_issued _ _ _ _ _ _ Hd' Hr2 Hs2) as (m2 & p2 & k2 & i2 & -> & _ & Ha2 & Hi2 & (B1 & B2 & B3 & B4 & B5 & B6 & B7 & B8 & _)).
  rewrite Ht, Hi2 in Hi1. injection Hi1 as <-. cbn. split_and!; congruence.
Qed.

(** ** Certificates of agents *)

Lemma hex_digit_hex n : 0 <= n < 16 -> is_hex (byte_of (hex_digit n)) = true.
Proof.
  intros H. assert (Hn : n ∈ seqZ 0 16) by (apply elem_of_seqZ; lia). clear H. revert n Hn. apply Forall_forall. apply (bool_decide_eq_true_1 (Forall _ _)). by vm_compute.
Qed.
Lemma hex_text_hex fuel n tail : forallb is_hex (bytes_of tail) = true -> forallb is_hex (bytes_of (hex_text fuel n tail)) = true.
Proof.
  revert n tail. induction fuel as [|fuel IH]; intros n tail H; cbn [hex_text]; [done|]. destruct (n =? 0); [done|]. apply IH.
  change (is_hex (byte_of (hex_digit (n mod 16))) && forallb is_hex (bytes_of tail) = true). rewrite H, andb_true_r. apply hex_digit_hex. by apply Z.mod_pos_bound.
Qed.
Lemma hex_text_nonempty fuel n tail : tail <> EmptyString -> hex_text fuel n tail <> EmptyString.
Proof. revert n tail. induction fuel as [|fuel IH]; intros n tail H; cbn [hex_text]; [done|]. destruct (n =? 0); [done|]. by apply IH. Qed.
Lemma Text16_serial n : 0 < n -> certificateSerialPattern (Text16 n) = true.
Proof.
  intros H. unfold certificateSerialPattern, serialPattern, Text16. rewrite hex_text_hex, andb_true_r by done. cbn [hex_text]. rewrite (proj2 (Z.eqb_neq n 0)) by lia.
  destruct (hex_text _ _ _) eqn:E; [|done]. by apply hex_text_nonempty in E.
Qed.

(** The certificate in a PEM text is [leaf]. *)
Definition certificate_of (pem : bytes) (leaf : Certificate) : Prop := exists block, only_block "CERTIFICATE" pem = Some block /\ ParseCertificate (pb_Bytes block) = Some leaf.

Lemma certificate_identity pem leaf fingerprint serial : certificate_of pem leaf -> enrollmentCertificateIdentity pem = Some (fingerprint, serial) ->
  exists n, SerialNumber leaf = Some n /\ 0 < n /\ Raw leaf <> [] /\ fingerprint = sha256 (Raw leaf) /\ serial = Text16 n.
Proof.
  intros (block & Hb & Hp). unfold enrollmentCertificateIdentity. rewrite Hb. cbn. rewrite Hp. cbn. destruct (SerialNumber leaf) as [n|]; [|done]. cbn.
  destruct (_ || _) eqn:E; [done|]. intros [= <- <-]. bool_simpl. exists n. split_and!; try done. intros Er. by rewrite Er in *.
Qed.

(** A connection with a certificate that names the agent has the fingerprint and the serial number that enrollment stored. *)
Lemma connection_credential pem leaf fingerprint serial chains rest agentID : certificate_of pem leaf -> enrollmentCertificateIdentity pem = Some (fingerprint, serial) ->
  let state := {| VerifiedChains := chains; PeerCertificates := leaf :: rest |} in
  spiffeAgentFromTLS state = Some agentID -> verifiedAgentCredential (Some state) agentID = Some (fingerprint, serial).
Proof.
  intros Hc Hi state Hs. destruct (certificate_identity _ _ _ _ Hc Hi) as (n & Hn & Hp & Hr & -> & ->). cbn. unfold credentialFromTLSState. cbn [PeerCertificates state]. fold state. rewrite Hs.
  rewrite (bool_decide_eq_true_2 (agentID = agentID)), (bool_decide_eq_false_2 (Raw leaf = [])), Hn by done. cbn. by rewrite (proj2 (Z.leb_gt n 0)).
Qed.

(** On a connection that works, an agent with the active certificate is let in. *)
Lemma authorised_accepted targets agentID fingerprint serial now d : inventory_ok d -> authorised agentID fingerprint serial d -> identifierPattern agentID = true ->
  fingerprint <> zero_hash -> certificateSerialPattern serial = true ->
  fst (AuthorizeAgentCredential targets agentID fingerprint serial now (opened d [])) = Ok tt.
Proof.
  intros Hok (id & r & Hr & Ha & Hc) H1 H2 H3. unfold AuthorizeAgentCredential. rewrite H1, H3, bool_decide_eq_false_2 by done. cbn.
  destruct (find_agent agentID d) as [r'|] eqn:E.
  - apply find_agent_Some in E as (id' & Hr' & Ha'). assert (id' = id) as -> by (eapply ok_agents; [done|exact Hr'|exact Hr|congruence]).
    assert (r' = r) as -> by congruence. by rewrite Hc.
  - by destruct (find_agent_None _ _ _ _ E Hr).
Qed.

Lemma unrevoked_authorised d k i : inventory_ok d -> issuances d !! k = Some i -> is_revoked_at i = None -> authorised (id_agent (is_identity i)) (is_fingerprint i) (is_serial i) d.
Proof.
  intros Hok Hi Hv. destruct (ok_issued d Hok k i Hi) as (r & Hr & Hri & Hg & Hact). destruct (Hact Hv) as (Hgen & Hf & Hs & Hne). exists (id_host (is_identity i)), r.
  split; [done|]. split; [by rewrite <- Hri|]. destruct (active_shape r (ok_shape d Hok _ _ Hr)) as (Hl & _ & Hg1 & Hrv & Hst); [by right|]. unfold current_credential.
  rewrite !andb_true_iff, !bool_decide_eq_true, !negb_true_iff, bool_decide_eq_false, Nat.eqb_eq. split_and!; try done. by apply Z.ltb_ge.
Qed.

(** C15: The certificate that an enrollment returns authenticates its agent until it is revoked, and never after: whatever happened since, a connection with the
    certificate has the fingerprint and serial number of an issuance in the table; while that is not revoked the authorizer accepts it, once it is revoked it does not. *)
Theorem enrolled_agents_connect_until_revoked q d ended r d1 d2 leaf chains rest :
  steps empty_inventory d -> runs (Enroll q) d ended (Ok r) d1 -> steps d1 d2 ->
  certificate_of (er_CertificatePEM r) leaf -> spiffeAgentFromTLS {| VerifiedChains := chains; PeerCertificates := leaf :: rest |} = Some (eq_AgentID q) ->
  exists i fingerprint serial, issuances d2 !! HashToken (eq_Token q) = Some i /\
    verifiedAgentCredential (Some {| VerifiedChains := chains; PeerCertificates := leaf :: rest |}) (eq_AgentID q) = Some (fingerprint, serial) /\
    match is_revoked_at i with
    | None => fingerprint <> zero_hash -> forall targets now, fst (AuthorizeAgentCredential targets (eq_AgentID q) fingerprint serial now (opened d2 [])) = Ok tt
    | Some _ => ~ accepted (eq_AgentID q) fingerprint serial d2
    end.
Proof.
  intros Hd Hrun Hs Hleaf Hspiffe. pose proof (runs_steps _ _ _ _ _ Hrun) as Hs1.
  assert (Hok2 : inventory_ok d2) by (eapply steps_ok; [etrans; [exact Hd|etrans; [exact Hs1|exact Hs]]|apply empty_ok]).
  assert (Hid : identifierPattern (eq_AgentID q) = true).
  { destruct (Enroll_runs _ _ _ _ _ Hd Hrun) as (m & p & dg & _ & _ & Hv & _ & _). unfold enroll_valid in Hv. by bool_simpl. }
  destruct (enrolled_issued _ _ _ _ _ _ Hd Hrun Hs) as (m & p & k & i & _ & _ & Hk & Hi & (A1 & A2 & A3 & A4 & A5 & A6 & A7 & A8 & A9)).
  exists i, (is_fingerprint i), (is_serial i). split; [done|]. rewrite <- A4 in Hleaf. split; [by eapply connection_credential|]. rewrite Hk in A2.
  destruct (is_revoked_at i) as [at_|] eqn:Ev.
  - rewrite <- A2. eapply revoked_refused; [done|exact Hi|by rewrite Ev].
  - intros Hz targets now. apply authorised_accepted; [done|rewrite <- A2; by eapply unrevoked_authorised|done|done|].
    destruct (certificate_identity _ _ _ _ Hleaf A9) as (n & _ & Hn & _ & _ & ->). by apply Text16_serial.
Qed.

(** *** Signed certificates *)

Lemma no_slash id : Forall agent_byte (bytes_of id) -> Contains "/" id = false.
Proof.
  induction id as [|a id IH]; [done|]. intros H. apply Forall_cons in H as [[_ Ha] Hid]. cbn [Contains]. rewrite IH by done. rewrite orb_false_r.
  cbn. case_match; [|done]. subst a. by destruct Ha.
Qed.
Lemma agent_path id : HasPrefix agent_prefix ("/agent/" +:+ id) = true /\ TrimPrefix agent_prefix ("/agent/" +:+ id) = id.
Proof.
  assert (H : HasPrefix agent_prefix ("/agent/" +:+ id) = true) by (cbn; by destruct id). split; [done|]. unfold TrimPrefix. by rewrite H.
Qed.

(** What [x509] and [pem] document: a block and a certificate are read back as they were written. *)
Record x509_reads : Prop := {
  decodes_encoded kind der : pem_Decode (pem_Encode kind der) = Some ({| pb_Type := kind; pb_Headers := 0; pb_Bytes := der |}, []);
  parses_created t key der : CreateCertificate t key = Some der -> 0 < ct_SerialNumber t ->
    der <> [] /\ exists leaf, ParseCertificate der = Some leaf /\ URIs leaf = ct_URIs t /\ Raw leaf = der /\ SerialNumber leaf = Some (ct_SerialNumber t);
}.

Lemma big_int_nonneg n l : 0 <= n -> Forall is_byte l -> 0 <= fold_left (fun n b => n * 256 + b) l n.
Proof. intros Hn H. revert n Hn. induction H as [|b l Hb _ IH]; intros n Hn; [done|]. cbn. apply IH. unfold is_byte in Hb. lia. Qed.

(** C21: A signed certificate names its agent: TLS connections with it are of the agent of the grant, with the fingerprint and serial number that enrollment computes
    from its PEM text; it is valid from now on, and not longer than the issuer's own certificate. *)
Theorem signed_certificates_name_their_agent issuer now random g csr pem chain expires :
  x509_reads -> Grant_Validate g = true -> (forall l, random = Some l -> Forall is_byte l) -> SignAgentCSR issuer now random g csr = Some (pem, chain, expires) ->
  After expires now = true /\ After expires (ci_NotAfter issuer) = false /\
  exists leaf fingerprint serial, certificate_of pem leaf /\ enrollmentCertificateIdentity pem = Some (fingerprint, serial) /\ certificateSerialPattern serial = true /\
    forall chains rest, let state := {| VerifiedChains := S chains; PeerCertificates := leaf :: rest |} in
      verifiedAgentID (Some state) = Some (gr_AgentID g) /\ verifiedAgentCredential (Some state) (gr_AgentID g) = Some (fingerprint, serial).
Proof.
  intros Hx Hg Hbytes. unfold SignAgentCSR. rewrite Hg. cbn [negb]. intros H.
  destruct (only_block "CERTIFICATE REQUEST" csr) as [block|]; [cbn in H|done]. destruct (ParseCertificateRequest _) as [request|]; [cbn in H|done]. past H E1.
  destruct (csr_PublicKey request) as [key|]; [cbn in H|done]. past H E2.
  set (until := if After _ (ci_NotAfter issuer) then _ else _) in H. past H E3. destruct random as [l|]; [cbn in H|done].
  set (n := if _ =? 0 then 1 else _) in H. destruct (CreateCertificate _ key) as [der|] eqn:Ec; [cbn in H|done]. simplify_eq H. intros <- <- <-.
  assert (Hn : 0 < n).
  { assert (0 <= big_int (match l with b :: rest => Z.land b 127 :: rest | [] => [] end)).
    { apply big_int_nonneg; [done|]. specialize (Hbytes l eq_refl). destruct Hbytes as [|b rest Hb Hrest]; [done|]. constructor; [|done]. unfold is_byte in *.
      change 127 with (Z.ones 7). rewrite Z.land_ones by done. pose proof (Z.mod_pos_bound b (2 ^ 7)). lia. }
    unfold n. destruct (_ =? 0) eqn:E0; [done|]. bool_simpl. lia. }
  apply negb_false_iff in E3. split; [done|]. split.
  { unfold until. destruct (After (AddDuration now (ci_lifetime issuer)) (ci_NotAfter issuer)) eqn:E; [|done]. unfold After. cbn. apply Z.ltb_irrefl. }
  destruct (parses_created Hx _ _ _ Ec Hn) as (Hder & leaf & Hp & Hu & Hr & Hs). cbn in Hu, Hs.
  assert (Hblock : only_block "CERTIFICATE" (pem_Encode "CERTIFICATE" der) = Some {| pb_Type := "CERTIFICATE"; pb_Headers := 0; pb_Bytes := der |})
    by (unfold only_block; by rewrite (decodes_encoded Hx)).
  assert (Hleaf : certificate_of (pem_Encode "CERTIFICATE" der) leaf) by (eexists; split; [exact Hblock|done]).
  assert (Hid : enrollmentCertificateIdentity (pem_Encode "CERTIFICATE" der) = Some (sha256 der, Text16 n)).
  { unfold enrollmentCertificateIdentity. rewrite Hblock. cbn. rewrite Hp. cbn. rewrite Hs. cbn. rewrite Hr, (proj2 (Z.leb_gt n 0)) by done. by destruct der. }
  exists leaf, (sha256 der), (Text16 n). split; [done|]. split; [done|]. split; [by apply Text16_serial|]. intros chains rest. set (state := {| VerifiedChains := S chains; PeerCertificates := leaf :: rest |}).
  assert (Hspiffe : spiffeAgentFromTLS state = Some (gr_AgentID g)).
  { unfold Grant_Validate in Hg. bool_simpl. destruct (identifier_bytes (gr_AgentID g)) as [Hne Hb]; [done|]. destruct (agent_path (gr_AgentID g)) as [Hp1 Hp2].
    unfold spiffeAgentFromTLS. cbn [VerifiedChains PeerCertificates state]. rewrite Hu. cbn [List.filter is_spiffe]. unfold is_spiffe. cbn [u_Scheme].
    rewrite bool_decide_eq_true_2 by done. cbn [u_Host u_HasUser u_RawQuery u_Fragment u_Path]. rewrite Hp1, Hp2. cbn -[trimmed Contains].
    unfold empty_string. rewrite (bool_decide_eq_false_2 (gr_AgentID g = EmptyString)), no_slash by done. unfold trimmed.
    rewrite (bool_decide_eq_true_2 (trim_bytes _ = _)); [done|]. apply trim_graphic. eapply Forall_impl; [exact Hb|]. by intros c []. }
  split; [done|]. by eapply connection_credential.
Qed.

(** ** Replaced credentials *)

Lemma superseded_issuance g d k i : issuances d !! k = Some i -> is_identity i = grant_identity g -> is_credential_generation i < gr_Generation g -> is_revoked_at i <> None ->
  {| ac_Generation := is_credential_generation i; ac_Fingerprint := is_fingerprint i; ac_Serial := is_serial i |} ∈ superseded_rows g d.
Proof.
  intros Hi He Hg Hv. unfold superseded_rows. rewrite merge_sort_Permutation, elem_of_app. left. apply list_elem_of_fmap. exists (k, i). split; [done|].
  apply list_elem_of_In, filter_In. split; [by apply list_elem_of_In, elem_of_map_to_list|]. rewrite (bool_decide_eq_true_2 _ He), (bool_decide_eq_false_2 _ Hv), (proj2 (Z.ltb_lt _ _) Hg). done.
Qed.
Lemma superseded_import g d im : imports d !! grant_identity g = Some im -> 1 < gr_Generation g ->
  {| ac_Generation := 1; ac_Fingerprint := im_fingerprint im; ac_Serial := im_serial im |} ∈ superseded_rows g d.
Proof.
  intros Hi Hg. unfold superseded_rows. rewrite merge_sort_Permutation, elem_of_app. right. rewrite Hi, (proj2 (Z.ltb_lt _ _) Hg). by apply list_elem_of_singleton.
Qed.

Lemma obtained_superseded k g r l d : obtained k g r l d -> l = superseded_rows g d /\ forall c, c ∈ l -> valid_credential c = true.
Proof.
  intros H. assert (l = superseded_rows g d /\ forallb loadable l = true) as [-> Hl] by (destruct H as [(now & x & _ & _ & _ & ? & ?)|(c & now & d0 & _ & _ & _ & _ & _ & ? & ?)]; done).
  split; [done|]. intros c Hc. rewrite forallb_forall in Hl. specialize (Hl c (proj1 (list_elem_of_In _ _) Hc)). unfold loadable in Hl. by bool_simpl.
Qed.

(** Who has a host with the agent. *)
Lemma agent_identity d id1 id2 r1 r2 : inventory_ok d -> hosts d !! id1 = Some r1 -> hosts d !! id2 = Some r2 -> hr_agent_id r1 = hr_agent_id r2 -> row_identity r1 = row_identity r2.
Proof. intros Hok H1 H2 Ha. assert (id1 = id2) as -> by by eapply ok_agents. congruence. Qed.

(** The tables of a response, and of later: the host, and what of an earlier generation there is. *)
Lemma obtained_host k g r l d : inventory_ok d -> obtained k g r l d ->
  exists h, hosts d !! id_host (grant_identity g) = Some h /\ row_identity h = grant_identity g /\ hr_credential_generation h = gr_Generation g /\ 1 <= gr_Generation g.
Proof.
  intros Hok Ho. destruct (obtained_issued _ _ _ _ _ Hok Ho) as (i & Hi & (_ & _ & _ & _ & _ & A6 & _) & Hv & -> & Hgen). destruct (ok_issued d Hok _ _ Hi) as (h & Hh & Hhi & Hg & Hact).
  destruct (Hact Hv) as (Hhg & _). exists h. split_and!; [done|done|lia|lia].
Qed.
Lemma older_issuance_known g h d d' k i : inventory_ok d -> kept d d' -> hosts d !! id_host (grant_identity g) = Some h -> hr_credential_generation h = gr_Generation g ->
  issuances d' !! k = Some i -> is_identity i = grant_identity g -> is_credential_generation i < gr_Generation g ->
  {| ac_Generation := is_credential_generation i; ac_Fingerprint := is_fingerprint i; ac_Serial := is_serial i |} ∈ superseded_rows g d.
Proof.
  intros Hok Hkept Hh Hg Hi Hii Hlt. assert (Hhost : hosts d !! id_host (is_identity i) = Some h) by by rewrite Hii.
  destruct (new_issuances _ _ Hkept k i h Hi Hhost) as [[j Hj]|Hnew]; [|lia].
  destruct (kept_issuances _ _ Hkept k j Hj) as (i' & Hi' & Hk & _). assert (i' = i) as -> by congruence.
  assert (is_identity i = is_identity j /\ is_credential_generation i = is_credential_generation j /\ is_fingerprint i = is_fingerprint j /\ is_serial i = is_serial j)
    as (E1 & E2 & E3 & E4) by (by destruct i, j; simplify_eq Hk).
  rewrite E2, E3, E4. apply superseded_issuance with k; [done|congruence|lia|]. intros Hn. destruct (ok_issued d Hok k j Hj) as (y & Hy & _ & _ & Hact).
  destruct (Hact Hn) as (Hgy & _). assert (y = h) by congruence. subst y. lia.
Qed.
Lemma import_known g h d d' im : kept d d' -> hosts d !! id_host (grant_identity g) = Some h -> 1 <= hr_credential_generation h ->
  imports d' !! grant_identity g = Some im -> 1 < gr_Generation g -> {| ac_Generation := 1; ac_Fingerprint := im_fingerprint im; ac_Serial := im_serial im |} ∈ superseded_rows g d.
Proof. intros Hkept Hh Hg Him Hlt. destruct (new_imports _ _ Hkept _ im h Him Hh) as [Hj|Hnew]; [|lia]. by apply superseded_import. Qed.

(** C17: An enrollment ends the sessions of all that it replaced: when it has returned, the sessions of every certificate of an earlier generation that was ever issued
    to the agent, and of its imported certificate, have been told to end. *)
Theorem replaced_certificates_are_terminated q d ended r d1 :
  steps empty_inventory d -> runs (Enroll q) d ended (Ok r) d1 ->
  (forall k i, issuances d1 !! k = Some i -> id_agent (is_identity i) = eq_AgentID q -> is_credential_generation i < er_CredentialGeneration r ->
     (eq_AgentID q, is_fingerprint i, is_serial i) ∈ ended) /\
  (forall i im, imports d1 !! i = Some im -> id_agent i = eq_AgentID q -> 1 < er_CredentialGeneration r -> (eq_AgentID q, im_fingerprint im, im_serial im) ∈ ended).
Proof.
  intros Hd Hrun. destruct (Enroll_runs _ _ _ _ _ Hd Hrun) as (_ & _ & digest & _ & _ & _ & _ & k0 & g & l & dx & _ & _ & Ea & _ & H1 & Ho & H3 & He).
  assert (Hokx : inventory_ok dx) by (eapply steps_ok; [exact H1|by eapply steps_ok, empty_ok]). pose proof (steps_ok _ _ H3 Hokx) as Hok1.
  pose proof (steps_kept _ _ Hokx H3) as Hkept. destruct (obtained_superseded _ _ _ _ _ Ho) as [-> Hvalid]. destruct (obtained_host _ _ _ _ _ Hokx Ho) as (h & Hh & Hhi & Hhg & Hge).
  destruct (obtained_issued _ _ _ _ _ Hokx Ho) as (i0 & _ & (_ & A2 & _) & _ & Hg & Hgen). rewrite Ea, <- Hg in A2. rewrite Hgen.
  destruct (kept_hosts _ _ Hkept _ _ Hh) as (h1 & Hh1 & Hhi1 & _).
  assert (Hsame : forall id y, hosts d1 !! id = Some y -> id_agent (row_identity y) = eq_AgentID q -> row_identity y = grant_identity g).
  { intros id y Hy Hya. rewrite <- Hhi, <- Hhi1. eapply agent_identity; [done|exact Hy|exact Hh1|]. cbn in Hya. rewrite Hya, <- A2, <- Hhi. symmetry. apply (f_equal id_agent Hhi1). }
  split.
  - intros k i Hi Ha Hlt. destruct (ok_issued d1 Hok1 k i Hi) as (y & Hy & Hyi & _). assert (Hii : is_identity i = grant_identity g) by (rewrite <- Hyi; eapply Hsame; [exact Hy|by rewrite Hyi]).
    pose proof (older_issuance_known _ _ _ _ _ _ Hokx Hkept Hh Hhg Hi Hii Hlt) as Hin. by apply (He _ Hin), Hvalid.
  - intros i im Him Ha Hlt. destruct (ok_imported d1 Hok1 i im Him) as (y & Hy & Hyi & _). assert (Hii : i = grant_identity g) by (rewrite <- Hyi; eapply Hsame; [exact Hy|by rewrite Hyi]).
    rewrite Hii in Him. assert (Hin : {| ac_Generation := 1; ac_Fingerprint := im_fingerprint im; ac_Serial := im_serial im |} ∈ superseded_rows g dx) by (eapply import_known; [exact Hkept|exact Hh|lia|done|done]).
    by apply (He _ Hin), Hvalid.
Qed.

(** ** Retries *)

(** A service alone on a database that works: the clock shows [now], requests are signed by [sign]. *)
Definition calm_reply (now : time) (sign : EnrollmentGrant -> bytes -> option (bytes * bytes * time)) {B} (c : enroll_call B) (d : inventory) : B * inventory :=
  let reply {A} (m : Conn inventory A) := (fst (m (opened d [])), data (snd (m (opened d [])))) in
  match c in enroll_call B return B * inventory with
  | ENow => (now, d)
  | ERandom _ => (None, d)
  | ECreate t => reply (Create t)
  | EReplace t generation => reply (Replace t generation)
  | EResolveReplacement scope l => reply (ResolveReplacement scope l)
  | EResolve k => reply (Resolve k now)
  | EComplete c => reply (Complete c now)
  | ESign g csr => (sign g csr, d)
  | ETerminateCredential _ _ _ => (tt, d)
  end.
Fixpoint calmly (now : time) (sign : EnrollmentGrant -> bytes -> option (bytes * bytes * time)) {A} (p : eprog A) (d : inventory) : A :=
  match p with Return a => a | Call c k => let '(b, d') := calm_reply now sign c d in calmly now sign (k b) d' end.

Lemma calmly_bind now sign {A B} (p : eprog A) (f : A -> eprog B) d : exists d', calmly now sign (prog_bind f p) d = calmly now sign (f (calmly now sign p d)) d'.
Proof. revert d. induction p as [a|C c k IH]; intros d; cbn; [by exists d|]. destruct (calm_reply now sign c d) as [b d']. apply IH. Qed.
Lemma calmly_confirm now sign g l response d : calmly now sign (confirm g l response) d = Ok response.
Proof. unfold confirm. by destruct (calmly_bind now sign (terminateConfirmedCredentials (gr_AgentID g) l) (fun _ => Return (Ok response : result EnrollError EnrollResult)) d) as [d' ->]. Qed.

(** The token of a response, and what was checked about it. *)
Record token_of_response (k : EnrollmentAttemptKey) (g : EnrollmentGrant) (r : EnrollResult) (d : inventory) (t : tokenRow) (i : issuanceRow) : Prop := {
  tr_token : tokens d !! ak_TokenHash k = Some t; tr_consumed : tk_consumed_at t <> None; tr_grant : row_grant t = g; tr_valid : Grant_Validate g = true;
  tr_revision : 1 <= tk_enrollment_revision t; tr_generation : 1 <= tk_generation t; tr_agent : gr_AgentID g = ak_AgentID k;
  tr_host : ak_HostID k = EmptyString \/ gr_HostID g = ak_HostID k; tr_response : validateEnrollmentResult r g = true;
  tr_issuance : issuances d !! ak_TokenHash k = Some i; tr_issued_revision : is_enrollment_revision i = er_EnrollmentRevision r; tr_fields : issued_as k r i;
}.

Lemma obtained_token k g r l d : inventory_ok d -> obtained k g r l d -> exists t i, token_of_response k g r d t i.
Proof.
  intros Hok Ho. pose proof (obtained_issued _ _ _ _ _ Hok Ho) as (i & Hi & Has & _). destruct (ok_token d Hok _ _ Hi) as (t & Ht & _ & _ & Hcs). exists t, i.
  destruct Ho as [(now & x & H & Hr & Hg & _)|(c & now & d0 & Hs & Hc & Hk & Hg & Hr & _)].
  - unfold resolveEnrollment in H. rewrite Ht in H. past H E1. past H E2. rewrite Hi in H. past H E3. past H E4. simplify_eq H. intros <-. cbn in Hr, Hg.
    simplify_eq Hr. intros <-. bool_simpl. subst g. split; try done.
    match goal with H : negb _ && negb _ = false |- _ => apply andb_false_iff in H as [E|E] end; bool_simpl; [left|by right].
    unfold empty_string in E. by apply bool_decide_eq_true in E.
  - assert (Hok0 : inventory_ok d0) by (eapply steps_ok; [exact Hs|apply empty_ok]). pose proof (completes_effect _ _ _ _ Hok0 Hc) as Heff.
    destruct (completes_issued c now d0 d Hok0 Hc) as (Hi' & _). rewrite Hk in Hi'. assert (i = issuance_row c) as -> by congruence.
    destruct Heff as [d1 t0 h j x h' _ _ Ht1 _ _ Ht0 _ _ Hgt _ _ _ _ _ _ _ _ ->]. destruct Hc as [y d2 d3 d4 d5 Hv Hres _ _ _ _ _ _ _].
    cbn in Ht. rewrite Hk, lookup_insert_eq in Ht. simplify_eq Ht. intros <-. rewrite Hk in *. unfold resolveEnrollment in Hres. rewrite Ht0 in Hres. past Hres E1.
    unfold complete_valid in Hv. bool_simpl. rewrite Hg, Hr, Hk in *. split; try done.
    + cbn. by rewrite lookup_insert_eq.
    + by right.
    + cbn. unfold validateEnrollmentResult in *. bool_simpl. congruence.
Qed.

Lemma superseded_inv g d c : c ∈ superseded_rows g d ->
  (exists k i, issuances d !! k = Some i /\ is_identity i = grant_identity g /\ is_credential_generation i < gr_Generation g
     /\ c = {| ac_Generation := is_credential_generation i; ac_Fingerprint := is_fingerprint i; ac_Serial := is_serial i |})
  \/ (exists im, imports d !! grant_identity g = Some im /\ 1 < gr_Generation g /\ c = {| ac_Generation := 1; ac_Fingerprint := im_fingerprint im; ac_Serial := im_serial im |}).
Proof.
  unfold superseded_rows. rewrite merge_sort_Permutation, elem_of_app. intros [H|H].
  - left. apply list_elem_of_fmap in H as ([k i] & -> & H). apply list_elem_of_In, filter_In in H as [Hin Hf]. bool_simpl. exists k, i.
    split; [by apply elem_of_map_to_list, list_elem_of_In|done].
  - right. destruct (imports d !! grant_identity g) as [im|]; [|by apply elem_of_nil in H]. destruct (1 <? gr_Generation g) eqn:E; [|by apply elem_of_nil in H].
    apply list_elem_of_singleton in H as ->. bool_simpl. by exists im.
Qed.

(** The superseded credentials can be read again later. *)
Lemma superseded_loadable k g r l d d' : inventory_ok d -> kept d d' -> obtained k g r l d -> forallb loadable (superseded_rows g d') = true.
Proof.
  intros Hok Hkept Ho. destruct (obtained_host _ _ _ _ _ Hok Ho) as (h & Hh & Hhi & Hhg & Hge).
  assert (Hl : forallb loadable (superseded_rows g d) = true) by (destruct Ho as [(now & x & _ & _ & _ & <- & ?)|(c & now & d0 & _ & _ & _ & _ & _ & <- & ?)]; done).
  rewrite forallb_forall in *. intros c Hc. apply Hl. apply list_elem_of_In. apply list_elem_of_In, superseded_inv in Hc as [(k' & i & Hi & Hii & Hlt & ->)|(im & Him & Hlt & ->)].
  - by eapply older_issuance_known.
  - eapply import_known; [exact Hkept|exact Hh|lia|done|done].
Qed.

(** A later resolution, of the issuance that is still active. *)
Lemma resolve_again k g r t i d now k' :
  inventory_ok d -> token_of_response k g r d t i -> is_revoked_at i = None -> IsZero (is_expires_at i) = false -> forallb loadable (superseded_rows g d) = true ->
  Key_Validate k' = true -> ak_TokenHash k' = ak_TokenHash k -> ak_CSRDigest k' = ak_CSRDigest k -> ak_AgentID k' = ak_AgentID k -> ak_HostID k' = EmptyString \/ gr_HostID g = ak_HostID k' ->
  fst (Resolve k' now (opened d [])) = Ok {| rs_Grant := g; rs_Response := Some (issuance_response t i); rs_SupersededCredentials := superseded_rows g d |}
    /\ validateEnrollmentResult (issuance_response t i) g = true.
Proof.
  intros Hok [Ht Hcs Hg Hgv Hrev Hgen Hag _ Hresp Hi Hir (A1 & A2 & A3 & A4 & A5 & A6 & A7 & A8 & A9)] Hv Hz Hl Hk E1 E2 E3 E4.
  destruct (ok_token d Hok _ _ Hi) as (t' & Ht' & Hti & Htg & _). assert (t' = t) as -> by congruence.
  destruct (ok_issued d Hok _ _ Hi) as (h & Hh & Hhi & Hhg & Hact). destruct (Hact Hv) as (Hgh & Hfh & Hsh & Hne).
  destruct (active_shape h (ok_shape d Hok _ _ Hh)) as (Hlen & Hser & _ & Hrv & Hst); [by right|].
  assert (Hvalid : validateEnrollmentResult (issuance_response t i) g = true).
  { unfold validateEnrollmentResult in *. destruct (enrollmentCertificateIdentity (er_CertificatePEM r)) as [[fp se]|] eqn:Eid; [|by rewrite andb_false_r in Hresp].
    rewrite A4, Eid in A9. simplify_eq A9. intros -> ->. bool_simpl. subst g. cbn in *. rewrite A4, Eid, A5, Hir, A6, <- Hti, A7, A8 in *. rewrite !bool_decide_eq_true_2 by congruence.
    cbn. unfold validUTC. cbn. unfold IsZero in *. cbn. rewrite Hz. cbn.
    rewrite !andb_true_iff, !Z.eqb_eq, !negb_true_iff, Z.eqb_neq. split_and!; congruence. }
  split; [|done].
  assert (Hres : resolveEnrollment k' now d = Ok {| rs_Grant := g; rs_Response := Some (issuance_response t i); rs_SupersededCredentials := [] |}).
  { unfold resolveEnrollment. rewrite E1, Ht, Hi. cbv zeta. rewrite Hg, Hgv, Hvalid. rewrite (proj2 (Z.ltb_ge _ _) Hrev), (proj2 (Z.ltb_ge _ _) Hgen). cbn [orb negb].
    rewrite E3, bool_decide_eq_true_2 by done. cbn [orb negb].
    assert (negb (empty_string (ak_HostID k')) && negb (bool_decide (gr_HostID g = ak_HostID k')) = false) as -> by
      (destruct E4 as [->| ->]; [done|by rewrite bool_decide_eq_true_2, andb_false_r by done]).
    assert (issuance_current k' t i (joined_host (tk_identity t) d) = true) as ->; [|done].
    assert (joined_host (tk_identity t) d = Some h) as -> by (apply joined_host_Some; rewrite Hti; done).
    unfold issuance_current. unfold validateEnrollmentResult in Hresp, Hvalid. bool_simpl.
    rewrite !andb_true_iff, !bool_decide_eq_true, !negb_true_iff, !bool_decide_eq_false, !Z.eqb_eq, Nat.eqb_eq, Z.ltb_ge. unfold empty_string. rewrite bool_decide_eq_false.
    cbn in *. split_and!; try done; try congruence. subst g. cbn in *. lia. }
  unfold Resolve. rewrite Hk. cbn [negb]. unfold transaction, opened. cbn [next_fault faults]. unfold resolve_query, query, statement, bind, ret. cbn [aborted next_fault faults tail in_tx data with_data].
  rewrite Hres. cbn. unfold loadSupersededCredentials, query, statement, bind, ret. cbn.
  change (forallb _ (superseded_rows g d)) with (forallb loadable (superseded_rows g d)). rewrite Hl. done.
Qed.

(** C20: An enrollment can be asked for again: as long as the certificate is not revoked, the same request, on a database that works, ends with the stored certificate,
    whatever became of the first reply and whatever happened in between. *)
Theorem enrollments_can_be_repeated q d ended r d1 d2 i now sign :
  steps empty_inventory d -> runs (Enroll q) d ended (Ok r) d1 -> steps d1 d2 ->
  issuances d2 !! HashToken (eq_Token q) = Some i -> is_revoked_at i = None -> IsZero (is_expires_at i) = false -> validUTC now = true ->
  exists r', calmly now sign (Enroll q) d2 = Ok r' /\ er_HostID r' = er_HostID r /\ er_AgentID r' = eq_AgentID q /\ er_CertificatePEM r' = er_CertificatePEM r
    /\ er_CertificateChainPEM r' = er_CertificateChainPEM r /\ er_CertificateFingerprint r' = er_CertificateFingerprint r /\ er_CertificateSerial r' = er_CertificateSerial r
    /\ er_CredentialGeneration r' = er_CredentialGeneration r.
Proof.
  intros Hd Hrun Hs Hi Hv Hz Hnow. destruct (Enroll_runs _ _ _ _ _ Hd Hrun) as (message & publicKey & digest & Hm & Hsig & Hq & Hkey & k & g & l & dx & E1 & E2 & E3 & E4 & H1 & Ho & H3 & _).
  assert (Hokx : inventory_ok dx) by (eapply steps_ok; [exact H1|by eapply steps_ok, empty_ok]). pose proof (transitivity H3 Hs) as Hsx. pose proof (steps_ok _ _ Hsx Hokx) as Hok2.
  pose proof (steps_kept _ _ Hokx Hsx) as Hkept. pose proof (superseded_loadable _ _ _ _ _ _ Hokx Hkept Ho) as Hl.
  destruct (obtained_token _ _ _ _ _ Hokx Ho) as (t & j & [Ht Hcs Hg Hgv Hrev Hgen Hag Hhost Hresp Hj Hjr Has]).
  destruct (kept_issuances _ _ Hkept _ _ Hj) as (i' & Hi' & Hk & Hkv). rewrite E1 in Hi', Ht, Hj. assert (i' = i) as -> by congruence.
  assert (i = j) as ->.
  { destruct (is_revoked_at j) as [at_|] eqn:Ej; [rewrite Hv in Hkv; by specialize (Hkv ltac:(done))|]. destruct i, j. cbn in *. by simplify_eq Hk; intros; subst. }
  assert (Htr : token_of_response k g r d2 t j) by (split; rewrite ?E1; try done; by eapply kept_tokens).
  set (k' := {| ak_TokenHash := HashToken (eq_Token q); ak_CSRDigest := digest; ak_AgentID := eq_AgentID q; ak_HostID := obs_HostID (eq_Observation q) |}) in *.
  assert (Hgh : gr_HostID g <> EmptyString) by (unfold Grant_Validate in Hgv; bool_simpl; by apply identifier_bytes).
  assert (Hh' : ak_HostID k' = EmptyString \/ gr_HostID g = ak_HostID k').
  { cbn. destruct E4 as [E4|E4]; [by left|]. destruct Hhost as [Hn|Hn]; [left|right]; congruence. }
  destruct (resolve_again k g r t j d2 now k' Hok2 Htr Hv Hz Hl Hkey) as [Hres Hvalid]; [by rewrite E1|by rewrite E2|by rewrite E3|done|].
  exists (issuance_response t j). destruct (ok_token d2 Hok2 _ _ Hi) as (t' & Ht' & Hti & Htg & _).
  assert (t' = t) as -> by (destruct Htr as [Ht2 _ _ _ _ _ _ _ _ _ _ _]; rewrite E1 in Ht2; congruence).
  destruct Has as (A1 & A2 & A3 & A4 & A5 & A6 & A7 & A8 & _). split; [|cbn; rewrite <- Hti in *; split_and!; congruence].
  unfold Enroll. rewrite Hq, Hm, Hsig. cbn [negb calmly calm_reply]. rewrite Hnow. cbn [negb calmly calm_reply]. fold k'. rewrite Hres. cbn [rs_Grant rs_Response rs_SupersededCredentials].
  rewrite Hgv, (bool_decide_eq_true_2 (gr_AgentID g = eq_AgentID q)) by congruence. cbn [negb orb].
  assert (negb (empty_string (obs_HostID (eq_Observation q))) && negb (bool_decide (obs_HostID (eq_Observation q) = gr_HostID g)) = false) as ->
    by (destruct Hh' as [Hn|Hn]; cbn in Hn; [by rewrite Hn|by rewrite bool_decide_eq_true_2, andb_false_r]).
  rewrite Hvalid. apply calmly_confirm.
Qed.
End safety.

(** ** Runs *)
Module EnrollmentDemo.
Import PhaseDemo InventoryDemo.

(** The sessions that a call ends. *)
Definition ends {B} (c : enroll_call B) : list (string * bytes * string) := match c with ETerminateCredential agentID fingerprint serial => [(agentID, fingerprint, serial)] | _ => [] end.
Fixpoint played (now : time) (sign : EnrollmentGrant -> bytes -> option (bytes * bytes * time)) {A} (p : eprog A) (d : inventory) : A * inventory * list (string * bytes * string) :=
  match p with
  | Return a => (a, d, [])
  | Call c k => let '(b, d') := calm_reply now sign c d in let '(a, d'', ended) := played now sign (k b) d' in (a, d'', ends c ++ ended)
  end.
Lemma calm_answers i n random now {B} (c : enroll_call B) d : let x := calm_reply now (SignAgentCSR i n random) c d in answers c d x.1 x.2 (ends c).
Proof.
  destruct c; cbn [answers ends calm_reply fst snd]; [split; reflexivity|split; reflexivity|..| |split; reflexivity].
  1-3: exists []; split_and!; reflexivity.
  1-2: exists now, []; split_and!; reflexivity.
  split; [exists i, n, random; reflexivity|split; reflexivity].
Qed.
Lemma played_runs i n random now {A} (p : eprog A) : forall d a d' ended, played now (SignAgentCSR i n random) p d = (a, d', ended) -> runs p d ended a d'.
Proof.
  induction p as [x|B c k IH]; intros d a d' ended; cbn; [by intros [= -> -> <-]|].
  destruct (calm_reply now (SignAgentCSR i n random) c d) as [b d1] eqn:Eb. destruct (played _ _ (k b) d1) as [[x d2] e] eqn:Ep. intros [= <- <- <-].
  exists d, b, d1, (ends c), e. split; [apply rtc_refl|]. split; [|split; [by apply IH|done]].
  pose proof (calm_answers i n random now c d) as H. by rewrite Eb in H.
Qed.

(** The agent asks with its token and its key. *)
Definition request (n key : Z) : EnrollRequest :=
  {| eq_Token := raw_token n; eq_AgentID := "agent-1"; eq_CSRPEM := request_pem key; eq_CSRPublicKey := agent_key key;
     eq_CSRProof := match verifiedCSRProofInputs "agent-1" (request_pem key) (agent_key key) with Some (message, publicKey, _) => take 64 (publicKey ++ message) | None => [] end;
     eq_Observation := seen |}.
Definition enrolling (n key now : Z) (d : inventory) : result EnrollError EnrollResult * inventory * list (string * bytes * string) :=
  played (at_second now) (signing now key) (Enroll (request n key)) d.
Lemma enrolling_runs n key now d a d' ended : enrolling n key now d = (a, d', ended) -> runs (Enroll (request n key)) d ended a d'.
Proof. apply played_runs. Qed.

(** A token is exchanged for a certificate, a second token replaces it, and the host is decommissioned. *)
Definition enrolled : inventory := (enrolling 7 11 2 with_token).1.2.
Definition replacing : inventory := carried (DoReplace (token 8 "k2" 3) 1) enrolled.
Definition replaced : inventory := (enrolling 8 12 4 replacing).1.2.
Definition leaving : DecommissionTransition :=
  {| dt_Actor := "ops"; dt_OperationID := "decommissionHost"; dt_IdempotencyKey := "k3"; dt_Fingerprint := "sha256:0123456789abcdef0123456789abcdef0123456789abcdef0123456789abcdef";
     dt_OwnerToken := "owner-0123456789abcdef0123456789abcdef0123456789abcdef0123456789abcdef" |}.
Definition left_ : inventory := carried (DoDecommission scope "host-1" 3 (at_second 5) leaving) replaced.
(** Somebody tries with the old certificate. *)
Definition intruded (d : inventory) : inventory := carried (DoAuthorizeAgentCredential ∅ "agent-1" (replicate 32 11) "b" (at_second 6)) d.
Definition result_of {A} (x : result EnrollError EnrollResult * inventory * A) : option EnrollResult := match x.1.1 with Ok r => Some r | Err _ => None end.
Definition hash (n : Z) : bytes := HashToken (raw_token n).

Lemma enrolled_run : exists r, enrolling 7 11 2 with_token = (Ok r, enrolled, []) /\ er_CredentialGeneration r = 1.
Proof. eexists. split; vm_compute; reflexivity. Qed.
Lemma replaced_run : exists r ended, enrolling 8 12 4 replacing = (Ok r, replaced, ended) /\ er_CredentialGeneration r = 2 /\ length ended = 1%nat.
Proof. do 2 eexists. split_and!; vm_compute; reflexivity. Qed.
Lemma enrolled_steps : steps empty_inventory enrolled.
Proof. destruct enrolled_run as (r & H & _). etrans; [exact with_token_steps|]. eapply runs_steps, enrolling_runs, H. Qed.
Lemma replacing_steps : steps empty_inventory replacing.
Proof. apply carried_steps, enrolled_steps. Qed.
Lemma replaced_steps : steps empty_inventory replaced.
Proof. destruct replaced_run as (r & ended & H & _). etrans; [exact replacing_steps|]. eapply runs_steps, enrolling_runs, H. Qed.
Lemma intruded_steps d : steps d (intruded d).
Proof. by apply carried_steps. Qed.

Lemma revoked_certificates_are_refused_witness : exists i, issuances replaced !! hash 7 = Some i /\ is_serial i = "b"%string /\ is_revoked_at i <> None /\
  ~ accepted "agent-1" (is_fingerprint i) "b" (intruded replaced).
Proof.
  assert (E : exists i, issuances replaced !! hash 7 = Some i /\ is_serial i = "b"%string /\ id_agent (is_identity i) = "agent-1"%string /\ bool_decide (is_revoked_at i = None) = false)
    by (eexists; split_and!; vm_compute; reflexivity).
  destruct E as (i & Hi & Hs & Ha & Hv). apply bool_decide_eq_false in Hv. exists i. split; [exact Hi|]. split; [exact Hs|]. split; [exact Hv|]. rewrite <- Ha.
  exact (revoked_certificates_are_refused replaced (hash 7) i (intruded replaced) "b" replaced_steps Hi Hv (intruded_steps replaced)).
Defined.

Lemma decommissioned_hosts_stay_out_witness : exists r, hosts left_ !! "host-1"%string = Some r /\ hr_agent_id r = "agent-1"%string /\ hr_status r = HostDecommissioned /\
  ~ accepted "agent-1" (replicate 32 12) "c" (intruded left_).
Proof.
  assert (E : exists r, hosts left_ !! "host-1"%string = Some r /\ hr_agent_id r = "agent-1"%string /\ hr_status r = HostDecommissioned) by (eexists; split_and!; vm_compute; reflexivity).
  destruct E as (r & Hr & Ha & Hs). exists r. split; [exact Hr|]. split; [exact Ha|]. split; [exact Hs|]. rewrite <- Ha.
  exact (proj1 (decommissioned_hosts_stay_out left_ "host-1" r (intruded left_) (replicate 32 12) "c" (carried_steps _ _ _ replaced_steps) Hr Hs (intruded_steps left_))).
Defined.

(** The agent did not get the reply, and asks once more. *)
Definition enrolled_again : inventory := (enrolling 7 11 3 enrolled).1.2.
Lemma enrolled_again_run : exists r, enrolling 7 11 3 enrolled = (Ok r, enrolled_again, []) /\ er_CredentialGeneration r = 1.
Proof. eexists. split; vm_compute; reflexivity. Qed.

Lemma tokens_are_exchanged_once_witness : exists r1 r2, enrolling 7 11 2 with_token = (Ok r1, enrolled, []) /\ enrolling 7 11 3 enrolled = (Ok r2, enrolled_again, []) /\
  er_CertificatePEM r1 = er_CertificatePEM r2.
Proof.
  destruct enrolled_run as (r1 & H1 & _). destruct enrolled_again_run as (r2 & H2 & _). exists r1, r2. split; [exact H1|]. split; [exact H2|]. apply enrolling_runs in H1, H2.
  pose proof (runs_steps _ _ _ _ _ H2) as Hs.
  exact (proj1 (proj2 (proj2 (proj2 (tokens_are_exchanged_once _ _ _ _ _ _ _ _ _ _ enrolled_again with_token_steps H1 Hs enrolled_steps H2 (rtc_refl _ _) eq_refl))))).
Defined.

(** The certificate of the agent with the key [key] and the serial number [n]. *)
Definition leaf (key n : Z) : Certificate :=
  {| URIs := [{| u_Scheme := "spiffe"; u_Host := "dbpilot.local"; u_HasUser := false; u_RawQuery := ""; u_Fragment := ""; u_Path := "/agent/agent-1" |}];
     Raw := n :: 32 :: agent_key key ++ bytes_of "/agent/agent-1"; SerialNumber := Some n |}.

Lemma enrolled_agents_connect_until_revoked_witness : exists i fingerprint serial, issuances enrolled !! hash 7 = Some i /\ is_revoked_at i = None /\
  verifiedAgentCredential (Some {| VerifiedChains := 1; PeerCertificates := [leaf 11 11] |}) "agent-1" = Some (fingerprint, serial) /\
  fst (AuthorizeAgentCredential ∅ "agent-1" fingerprint serial (at_second 9) (opened enrolled [])) = Ok tt.
Proof.
  assert (E : exists r, enrolling 7 11 2 with_token = (Ok r, enrolled, []) /\ only_block "CERTIFICATE" (er_CertificatePEM r) = Some {| pb_Type := "CERTIFICATE"; pb_Headers := 0; pb_Bytes := Raw (leaf 11 11) |})
    by (eexists; split; vm_compute; reflexivity).
  destruct E as (r & H & Hp). apply enrolling_runs in H.
  assert (Hl : certificate_of (er_CertificatePEM r) (leaf 11 11)) by (eexists; split; [exact Hp|vm_compute; reflexivity]).
  destruct (enrolled_agents_connect_until_revoked (request 7 11) with_token [] r enrolled enrolled (leaf 11 11) 1 [] with_token_steps H (rtc_refl _ _) Hl eq_refl) as (i & fp & se & Hi & Hv & Hm).
  assert (E : exists i, issuances enrolled !! hash 7 = Some i /\ is_revoked_at i = None) by (eexists; split; vm_compute; reflexivity). destruct E as (j & Hj & Hn).
  change (HashToken (eq_Token (request 7 11))) with (hash 7) in Hi. rewrite Hj in Hi. injection Hi as <-. exists j, fp, se. split; [exact Hj|]. split; [exact Hn|]. split; [exact Hv|].
  rewrite Hn in Hm. apply Hm. assert (E : verifiedAgentCredential (Some {| VerifiedChains := 1; PeerCertificates := [leaf 11 11] |}) "agent-1" = Some (sha256 (Raw (leaf 11 11)), "b"%string)) by (vm_compute; reflexivity).
  change (eq_AgentID (request 7 11)) with "agent-1"%string in Hv. rewrite E in Hv. injection Hv as <- _. apply (bool_decide_eq_false_1 _). vm_compute. reflexivity.
Defined.

Lemma string_of_bytes_of s : string_of_bytes (bytes_of s) = s.
Proof.
  unfold string_of_bytes, bytes_of. induction s as [|a s IH]; [done|]. cbn. f_equal; [|exact IH]. unfold byte_of. by rewrite N2Z.id, Ascii.ascii_N_embedding.
Qed.
Lemma demo_x509_reads : x509_reads.
Proof.
  split.
  - intros kind der. cbn. rewrite Nat2Z.id, <- length_bytes_of, take_app_length, drop_app_length. by rewrite string_of_bytes_of.
  - intros t key der H Hn. cbn in H. destruct (ct_URIs t) as [|u [|]] eqn:Eu; try discriminate H. case_bool_decide as Hu; [|discriminate H]. injection H as <-.
    split; [discriminate|]. eexists. split; [reflexivity|]. cbn. rewrite Nat2Z.id, drop_app_length, string_of_bytes_of. by rewrite Hu.
Qed.

Definition granted : EnrollmentGrant :=
  {| gr_Scope := scope; gr_HostID := "host-1"; gr_AgentID := "agent-1"; gr_DisplayName := "Host 1"; gr_Labels := ∅; gr_EnrollmentRevision := 1; gr_Generation := 1 |}.
Lemma signed_certificates_name_their_agent_witness : exists pem chain expires, signing 2 11 granted (request_pem 11) = Some (pem, chain, expires) /\ After expires (at_second 2) = true /\
  exists certificate fingerprint serial, certificate_of pem certificate /\
    verifiedAgentCredential (Some {| VerifiedChains := 1; PeerCertificates := [certificate] |}) "agent-1" = Some (fingerprint, serial).
Proof.
  assert (E : exists pem chain expires, signing 2 11 granted (request_pem 11) = Some (pem, chain, expires)) by (do 3 eexists; vm_compute; reflexivity).
  destruct E as (pem & chain & expires & H). exists pem, chain, expires. split; [exact H|].
  assert (Hg : Grant_Validate granted = true) by (vm_compute; reflexivity).
  assert (Hb : forall l : bytes, Some (replicate 15 0 ++ [11]) = Some l -> Forall is_byte l) by (intros l [= <-]; repeat (constructor; [unfold is_byte; lia|]); constructor).
  destruct (signed_certificates_name_their_agent issuer (at_second 2) _ granted (request_pem 11) pem chain expires demo_x509_reads Hg Hb H) as (H1 & _ & c & fp & se & H2 & _ & _ & H3).
  split; [exact H1|]. exists c, fp, se. split; [exact H2|]. exact (proj2 (H3 0%nat [])).
Defined.

Lemma replaced_certificates_are_terminated_witness : exists r ended i, enrolling 8 12 4 replacing = (Ok r, replaced, ended) /\ issuances replaced !! hash 7 = Some i /\
  is_credential_generation i = 1 /\ ("agent-1"%string, is_fingerprint i, is_serial i) ∈ ended.
Proof.
  destruct replaced_run as (r & ended & H & Hg & _).
  assert (E : exists i, issuances replaced !! hash 7 = Some i /\ id_agent (is_identity i) = "agent-1"%string /\ is_credential_generation i = 1) by (eexists; split_and!; vm_compute; reflexivity).
  destruct E as (i & Hi & Ha & Hn). exists r, ended, i. split; [exact H|]. split; [exact Hi|]. split; [exact Hn|]. apply enrolling_runs in H.
  refine (proj1 (replaced_certificates_are_terminated (request 8 12) replacing ended r replaced replacing_steps H) (hash 7) i Hi Ha _). rewrite Hn, Hg. reflexivity.
Defined.

Lemma enrollments_can_be_repeated_witness : exists r i r', enrolling 7 11 2 with_token = (Ok r, enrolled, []) /\ issuances (intruded enrolled) !! hash 7 = Some i /\ is_revoked_at i = None /\
  calmly (at_second 9) (signing 9 99) (Enroll (request 7 11)) (intruded enrolled) = Ok r' /\ er_CertificatePEM r' = er_CertificatePEM r.
Proof.
  destruct enrolled_run as (r & H & _).
  assert (E : exists i, issuances (intruded enrolled) !! hash 7 = Some i /\ is_revoked_at i = None /\ IsZero (is_expires_at i) = false) by (eexists; split_and!; vm_compute; reflexivity).
  destruct E as (i & Hi & Hv & Hz). pose proof (enrolling_runs _ _ _ _ _ _ _ H) as Hr.
  destruct (enrollments_can_be_repeated (request 7 11) with_token [] r enrolled (intruded enrolled) i (at_second 9) (signing 9 99) with_token_steps Hr (intruded_steps enrolled) Hi Hv Hz eq_refl)
    as (r' & H1 & _ & _ & H2 & _).
  exists r, i, r'. split; [exact H|]. split; [exact Hi|]. split; [exact Hv|]. split; [exact H1|exact H2].
Defined.
End EnrollmentDemo.
