(* ===== verification/CredentialSessions.v ===== *)
(** * Sessions of replaced credentials

    The authorizer of [Server.Connect] is the repository of [enrollment]: a
    control plane with its streams ([AgentSessions]) and the tables of
    enrollment step by step.  A stream asks before it registers its session and
    once more after that, so that a session whose certificate is revoked in
    between does not come into service behind the call of [TerminateCredential]
    that ends the sessions of the replaced certificate. *)

From S2P Require Import Prelude Programs GoText JobModel JobRepository CommandPhases CommandSlots CommandLifecycle CommandWorld CommandDelivery SessionRegistry AgentServer AgentSessions SessionSteps AgentDelivery Database HostInventory Enrollment EnrollmentLogic HostListing EnrollmentSafety.

Open Scope Z_scope.
Open Scope update_scope.

Section sessions.
Context {database : JobDatabase} {codec : ResultCodec} {surroundings : Surroundings} {agents : AgentCodec} {columns : PgColumns} {x509 : X509}.

(** ** A control plane on the tables of enrollment *)

Record site := Site { s_tables : tables; s_plane : plane; s_inventory : inventory }.

(** A stream that waits for the authorizer. *)
Definition asking (st : stream) : Prop := exists agentID fingerprint serial k, st_activity st = Working (Call (SAuthorizeAgentCredential agentID fingerprint serial) k).

Inductive site_step : site -> site -> Prop :=
  (* of the control plane, while the streams that ask the authorizer wait *)
  | site_plane t pl d t' out wire pl' : plane_step t pl t' out wire pl' -> (forall i st, pl_streams pl !! i = Some st -> asking st -> pl_streams pl' !! i = Some st) ->
      site_step (Site t pl d) (Site t' pl' d)
  | site_authorizes t pl d i st agentID fingerprint serial k targets now fs (b : bool) :
      pl_streams pl !! i = Some st -> st_activity st = Working (Call (SAuthorizeAgentCredential agentID fingerprint serial) k) ->
      (b = true <-> fst (AuthorizeAgentCredential targets agentID fingerprint serial now (opened d fs)) = Ok tt) ->
      site_step (Site t pl d) (Site t (pl <| pl_streams ::= <[i := doing st (k b)]> |>) (data (snd (AuthorizeAgentCredential targets agentID fingerprint serial now (opened d fs)))))
  (* of all control planes, on the tables *)
  | site_operates t pl d t' d' : step d d' -> site_step (Site t pl d) (Site t' pl d').

(** [Sessions.TerminateCredential] of the enrollment service. *)
Definition terminates (agentID : string) (fingerprint : bytes) (serial : string) (s s' : site) : Prop :=
  let '(removed, r', mem') := TerminateCredential agentID fingerprint serial (registry (pl_shared (s_plane s))) (secrets (pl_shared (s_plane s))) in
  s' = Site (s_tables s) (s_plane s <| pl_shared ::= fun sh => sh <| registry := r' |> <| secrets := mem' |> |> <| pl_cancelling ::= fun l => l ++ option_list removed |>) (s_inventory s).

Definition fresh_site (server : Server) (lifecycle : CommandLifecycle) (capacity : Z) (t : tables) : site := Site t (fresh_plane server lifecycle capacity) empty_inventory.

(** The live session of the agent has the certificate. *)
Definition current (agentID : string) (fingerprint : bytes) (serial : string) (a : nat) (r : Registry) : Prop :=
  sessions r !! agentID = Some a /\ exists s, heap r !! a = Some s /\ ss_credentialLeaf s = fingerprint /\ ss_credentialSerial s = serial.
(** A stream in its loop: it takes messages from its queue and from its agent. *)
Definition in_loop (st : stream) : Prop := match st_activity st with Working (Return Serve) | Sending _ | Observing _ _ _ => True | _ => False end.

(** ** Programs of streams *)

(** A program that registers no session. *)
Fixpoint settled (p : sprog stage) : Prop :=
  match p with
  | Return _ => True
  | Call c k => match c with SRegister _ _ _ _ => False | _ => True end /\ forall b, settled (k b)
  end.

(** What the authorizer answers to a revoked certificate. *)
Definition denied {A} (c : stream_call A) : A -> Prop := match c in stream_call A return A -> Prop with SAuthorizeAgentCredential _ _ _ => fun b => b = false | _ => fun _ => True end.

(** A program that does not come into service while the authorizer refuses the certificate. *)
Fixpoint unapproved (agentID : string) (fingerprint : bytes) (serial : string) (p : sprog stage) : Prop :=
  match p with
  | Return Serve => False
  | Return _ => True
  | Call c k =>
      match c with SAuthorizeAgentCredential a f s => a = agentID /\ f = fingerprint /\ s = serial | SRegister _ _ _ _ | SObserve _ => False | _ => True end
      /\ forall b, denied c b -> unapproved agentID fingerprint serial (k b)
  end.

(** The certificate of the session that a call has registered. *)
Definition registers {A} (c : stream_call A) : A -> option (bytes * string) :=
  match c in stream_call A return A -> option (bytes * string) with
  | SRegister _ _ fingerprint serial => fun b => match b with Ok _ => Some (fingerprint, serial) | Err _ => None end
  | _ => fun _ => None
  end.
(** A program that registers at most one session, and then asks before it comes into service. *)
Fixpoint opening (agentID : string) (p : sprog stage) : Prop :=
  match p with
  | Return Serve => False
  | Return _ => True
  | Call c k => match c with SObserve _ => False | _ => True end
      /\ forall b, match registers c b with Some (fingerprint, serial) => unapproved agentID fingerprint serial (k b) /\ settled (k b) | None => opening agentID (k b) end
  end.

Ltac walk := repeat (first [done | split; [done|] | intros ? | progress cbn [prog_bind answer_with answer_with_secret refuse_stream serve] | case_goal]).

Lemma handle_settled agentID m : settled (handleAgentMessage agentID m).
Proof.
  destruct m; cbn [handleAgentMessage]; unfold handleResult, handleDiscoveryReport, rejectDiscoveryReport, handleArtifactRequest, handleCredentialRequest, handleTemplateRequest,
    answer_with, answer_with_secret, refuse_stream, serve; walk.
Qed.
Lemma establish_unapproved server agentID fingerprint serial : credentialsAuthorizer server = true ->
  unapproved agentID fingerprint serial (establish server agentID fingerprint serial) /\ settled (establish server agentID fingerprint serial).
Proof.
  intros H. unfold establish. rewrite H. cbn [prog_bind]. split; [|walk]. split; [done|]. intros b ->. cbn [negb]. walk.
Qed.
Lemma Connect_opening server peer : credentialsAuthorizer server = true -> opening (default EmptyString (verifiedAgentID peer)) (Connect server peer).
Proof.
  intros H. unfold Connect. destruct (verifiedAgentID peer) as [agentID|]; [|done]. unfold authorize_credential. rewrite H.
  destruct (verifiedAgentCredential peer agentID) as [[fingerprint serial]|]; [|done]. cbn [prog_bind opening registers default]. split; [done|]. intros []; [|done].
  unfold greet. split; [done|]. intros first. cbn [registers]. destruct first as [[]|]; try done. repeat (case_goal; try done). split; [done|]. intros [u|[]]; try done.
  cbn [registers]. by apply establish_unapproved.
Qed.

(** ** The registry *)

(** No session is registered, and certificates stay with their sessions. *)
Record calm (r r' : Registry) : Prop := {
  calm_sessions agentID a : sessions r' !! agentID = Some a -> sessions r !! agentID = Some a;
  calm_heap a s' : heap r' !! a = Some s' -> exists s, heap r !! a = Some s /\ ss_credentialLeaf s' = ss_credentialLeaf s /\ ss_credentialSerial s' = ss_credentialSerial s;
  calm_length : length (heap r') = length (heap r);
}.
Lemma calm_refl r : calm r r.
Proof. split; [done|intros a s' H; by exists s'|done]. Qed.
Lemma calm_trans r1 r2 r3 : calm r1 r2 -> calm r2 r3 -> calm r1 r3.
Proof.
  intros [A1 B1 C1] [A2 B2 C2]. split; [auto| |congruence]. intros a s3 (s2 & (s1 & Hs & E1 & E2)%B1 & E3 & E4)%B2. exists s1. split; [done|]. split; congruence.
Qed.
Lemma calm_current agentID fingerprint serial a r r' : calm r r' -> current agentID fingerprint serial a r' -> current agentID fingerprint serial a r.
Proof. intros [A B _] [H1 (s' & (s & Hs & E1 & E2)%B & E3 & E4)]. split; [auto|]. exists s. split; [done|]. split; congruence. Qed.

Lemma calm_update a f r : (forall s, SessionSteps.identity (f s) = SessionSteps.identity s) -> calm r (update_session a f r).
Proof.
  intros Hf. split; [done| |apply length_alter]. intros b s'. cbn. destruct (decide (b = a)) as [->|Hn].
  - rewrite list_lookup_alter_eq. intros (s & Hs & ->)%fmap_Some. exists s. split; [done|]. specialize (Hf s). by injection Hf as _ _ -> ->.
  - rewrite list_lookup_alter_ne by done. intros Hs. by exists s'.
Qed.
Lemma calm_remove test agentID r mem : calm r (snd (fst (remove_if test agentID r mem))).
Proof.
  unfold remove_if. destruct (liveSession agentID r) as [[a s]|]; [|apply calm_refl]. destruct (test a s); [|apply calm_refl]. cbn.
  eapply calm_trans; [|by apply (calm_update a (fun s => s <| ss_send := [] |>))].
  split; [|intros b s' H; by exists s'|done]. cbn. intros id b H. by apply lookup_delete_Some in H as [_ H].
Qed.
Lemma calm_deliver d x r : calm r (snd (deliver d x r)).
Proof.
  pose proof (deliver_spec d x r) as H. unfold delivered_or_not in H. destruct (fst (deliver d x r)); [|rewrite H; apply calm_refl].
  destruct H as (b & s & _ & _ & -> & _). apply calm_update, effect_identity.
Qed.
Lemma calm_renew agentID active at_ r : calm r (renew agentID active at_ r).
Proof.
  unfold renew. destruct (liveSession agentID r) as [[a s]|]; [|apply calm_refl]. apply (calm_update a (fun s => fold_left (renew_command at_) active (s <| ss_lastHeartbeat := at_ |>))).
  intros s'. by destruct (renew_commands_keep at_ active (s' <| ss_lastHeartbeat := at_ |>)) as (-> & _).
Qed.

(** After the call of [TerminateCredential] no live session has the certificate. *)
Lemma terminated_current agentID fingerprint serial r mem a : blank agentID = false -> fingerprint <> zero_fingerprint -> serial <> EmptyString ->
  ~ current agentID fingerprint serial a (snd (fst (TerminateCredential agentID fingerprint serial r mem))).
Proof.
  intros Hb Hf Hs [H1 (s & H2 & H3 & H4)]. revert H1 H2. unfold TerminateCredential. rewrite Hb, (bool_decide_eq_false_2 _ Hf). unfold empty_string. rewrite (bool_decide_eq_false_2 _ Hs). cbn [orb].
  unfold remove_if, liveSession. destruct (sessions r !! agentID) as [b|] eqn:E; [|cbn; congruence]. destruct (heap r !! b) as [s0|] eqn:E0; cbn [fmap option_fmap option_map].
  - destruct (bool_decide _ && bool_decide _) eqn:Et; cbn; [by rewrite lookup_delete_eq|]. rewrite E. intros [= ->]. rewrite E0. intros [= ->]. by rewrite !bool_decide_eq_true_2 in Et.
  - cbn. rewrite E. intros [= ->]. congruence.
Qed.

(** ** The invariant *)

(** A stream has opened no session yet, or it has and opens no other. *)
Definition stream_fine (st : stream) (sh : shared) : Prop :=
  match st_session st with
  | None => match st_activity st with Working p => opening (stream_agent st) p | Sending _ | Observing _ _ _ => False | _ => True end
  | Some a => (a < length (heap (registry sh)))%nat /\
      match st_activity st with Working p => settled p | Observing _ _ k => forall b, settled (k b) | _ => True end
  end.
(** While the certificate is refused, a stream whose session has it does not come into service. *)
Definition stream_shut (agentID : string) (fingerprint : bytes) (serial : string) (st : stream) (sh : shared) : Prop :=
  forall a, st_session st = Some a -> current agentID fingerprint serial a (registry sh) ->
    match st_activity st with Working p => unapproved agentID fingerprint serial p | Sending _ | Observing _ _ _ => False | _ => True end.

(** A step of one stream, or of others. *)
Definition good (P : Prop) (agentID : string) (fingerprint : bytes) (serial : string) (st : stream) (sh : shared) : Prop :=
  stream_fine st sh /\ (P -> stream_shut agentID fingerprint serial st sh).

Lemma good_calm P agentID fingerprint serial st sh sh' : calm (registry sh) (registry sh') -> good P agentID fingerprint serial st sh -> good P agentID fingerprint serial st sh'.
Proof.
  intros Hc [Hf Hs]. split.
  - unfold stream_fine in *. destruct (st_session st); [|done]. by rewrite (calm_length _ _ Hc).
  - intros HP a Ha Hcur. apply (Hs HP a Ha). by eapply calm_current.
Qed.

Definition registry_fine (r : Registry) : Prop := forall agentID a, sessions r !! agentID = Some a -> (a < length (heap r))%nat.
Lemma registry_fine_calm r r' : calm r r' -> registry_fine r -> registry_fine r'.
Proof. intros Hc H agentID a Ha. rewrite (calm_length _ _ Hc). by eapply H, calm_sessions. Qed.

(** What a call of a stream does to the registry: nothing new, or a new session. *)
Lemma performs_registry {A} (c : stream_call A) st sh b st' sh' sent_now : performs c st sh b st' sh' sent_now ->
  (calm (registry sh) (registry sh') /\ (st_session st' = st_session st /\ stream_agent st' = stream_agent st) /\ registers c b = None) \/
  (exists fingerprint serial s, registers c b = Some (fingerprint, serial) /\ match c with SRegister _ _ _ _ => True | _ => False end
     /\ st' = st <| st_session := Some (length (heap (registry sh))) |> /\ sessions (registry sh') = <[stream_agent st := length (heap (registry sh))]> (sessions (registry sh))
     /\ heap (registry sh') = heap (registry sh) ++ [s] /\ ss_credentialLeaf s = fingerprint /\ ss_credentialSerial s = serial).
Proof.
  destruct c; cbn [performs registers]; try (intros (-> & -> & _); left; split; [apply calm_refl|done]).
  - unfold registerCredential. destruct (sessions (registry sh) !! stream_agent st) as [a|].
    + intros (-> & _ & -> & ->). left. split; [apply calm_refl|done].
    + intros (-> & _ & -> & ->). right. by exists fingerprint, serial, (new_session (registry sh) (stream_agent st) capabilities active fingerprint serial).
  - destruct (st_session st) as [a|] eqn:Es; [|intros (_ & -> & -> & _); left; split; [apply calm_refl|done]]. pose proof (calm_remove (fun b _ => (b =? a)%nat) (stream_agent st) (registry sh) (secrets sh)) as Hc.
    unfold terminateSession. destruct (remove_if _ _ _ _) as [[removed r'] mem']. intros (_ & -> & -> & _). left. by split.
  - intros (-> & _ & ->). left. split; [|done]. destruct (st_session st); [by apply calm_update|apply calm_refl].
  - intros (_ & -> & -> & _). left. split; [apply calm_refl|done].
  - intros (_ & -> & -> & _). left. split; [apply calm_refl|done].
  - intros (_ & -> & -> & _). left. split; [apply calm_refl|done].
  - done.
  - intros (-> & _ & x & _ & ->). left. split; [apply calm_deliver|done].
  - intros (-> & _ & mem & _ & ->). left. split; [apply calm_refl|done].
  - intros (-> & _ & mem & _ & ->). left. split; [apply calm_refl|done].
  - intros (-> & _ & ->). left. split; [apply calm_refl|done].
Qed.

Lemma performs_good P agentID fingerprint serial {A} (c : stream_call A) k st sh b st' sh' sent_now :
  st_activity st = Working (Call c k) -> denied c b -> performs c st sh b st' sh' sent_now -> registry_fine (registry sh) -> good P agentID fingerprint serial st sh ->
  good P agentID fingerprint serial (doing st' (k b)) sh' /\ registry_fine (registry sh') /\
  forall other, good P agentID fingerprint serial other sh -> good P agentID fingerprint serial other sh'.
Proof.
  intros Ha Hd Hp Hr [Hf Hs]. unfold stream_fine in Hf. rewrite Ha in Hf. apply performs_registry in Hp as [(Hc & (Hses & Hagt) & Hreg)|(fp & se & s & Hreg & Hsr & -> & Hse & Hhe & Hl1 & Hl2)].
  - split; [|split; [by eapply registry_fine_calm|intros other; by apply good_calm]]. split.
    + unfold stream_fine. change (st_session (doing st' (k b))) with (st_session st'). rewrite Hses. destruct (st_session st) as [a|].
      * rewrite (calm_length _ _ Hc). split; [apply Hf|]. apply (proj2 (proj2 Hf)).
      * change (opening (stream_agent st') (k b)). rewrite Hagt. pose proof (proj2 Hf b) as Hb. by rewrite Hreg in Hb.
    + intros HP a Hsa Hcur. cbn in Hsa |- *. rewrite Hses in Hsa. specialize (Hs HP a Hsa (calm_current _ _ _ _ _ _ Hc Hcur)). rewrite Ha in Hs. by apply Hs.
  - destruct (st_session st) as [a|] eqn:Esa; [destruct Hf as [_ [Hf _]]; by destruct c|]. pose proof (proj2 Hf b) as Hb. rewrite Hreg in Hb. destruct Hb as [Hu Hset].
    split; [|split].
    + split; [unfold stream_fine; cbn; rewrite Hhe, length_app; cbn; split; [lia|done]|]. intros HP a [= <-] [H1 (s' & H2 & H3 & H4)]. cbn.
      rewrite Hhe, list_lookup_middle in H2 by done. injection H2 as <-. rewrite Hse in H1. apply lookup_insert_Some in H1 as [[<- _]|[_ H1]]; [congruence|]. apply Hr in H1. lia.
    + intros x a. rewrite Hse, Hhe, length_app. cbn. intros [[_ <-]|[_ H]]%lookup_insert_Some; [lia|]. apply Hr in H. lia.
    + intros other [Hof Hos]. split.
      * unfold stream_fine in *. destruct (st_session other); [|done]. rewrite Hhe, length_app. split; [lia|apply Hof].
      * intros HP a Hoa [H1 (s' & H2 & H3 & H4)]. unfold stream_fine in Hof. rewrite Hoa in Hof. destruct Hof as [Hlt _].
        apply (Hos HP a Hoa). rewrite Hhe, lookup_app_l in H2 by done. rewrite Hse in H1. apply lookup_insert_Some in H1 as [[_ <-]|[_ H1]]; [lia|]. split; [done|by exists s'].
Qed.

Lemma stream_step_good P agentID fingerprint serial st sh st' sh' sent_now : stream_step st sh st' sh' sent_now -> ~ asking st ->
  registry_fine (registry sh) -> good P agentID fingerprint serial st sh ->
  good P agentID fingerprint serial st' sh' /\ registry_fine (registry sh') /\ forall other, good P agentID fingerprint serial other sh -> good P agentID fingerprint serial other sh'.
Proof.
  intros Hst Hask Hr Hg.
  assert (Hquiet : calm (registry sh) (registry sh') -> (stream_fine st sh -> stream_fine st' sh) -> (stream_shut agentID fingerprint serial st sh -> stream_shut agentID fingerprint serial st' sh) ->
    good P agentID fingerprint serial st' sh' /\ registry_fine (registry sh') /\ forall other, good P agentID fingerprint serial other sh -> good P agentID fingerprint serial other sh').
  { intros Hc H1 H2. split; [apply (good_calm _ _ _ _ _ sh); [done|]; destruct Hg as [Hf Hs]; split; auto|]. split; [by eapply registry_fine_calm|intros other; by apply good_calm]. }
  destruct Hst as [st sh A c k b st' sh' sent_now Ha Hc|st sh a s m q Ha Hsa Hs Hq|st sh m at_ Ha|st sh m at_ sent_now Ha Hsent|st sh m Ha Hrc|st sh e Ha Hrc|st sh Ha
    |st sh e Ha|st sh e Ha|st sh e Ha|st sh e Ha|st sh m at_ Hrv|st sh e Hrv|st sh it Hrv Hrc|st sh it Hrv].
  1: { eapply performs_good; [exact Ha| |exact Hc|done|done]. destruct c; try done. destruct Hask. by repeat eexists. }
  all: unfold stream_fine, stream_shut in Hquiet; cbn in Hquiet; try rewrite Ha in Hquiet; apply Hquiet; clear Hquiet Hg; try apply calm_refl; try done;
    try (destruct (st_session st); [intros []; split_and!; auto|by intros]; fail); try (intros H b Hb Hcur; by destruct (H b Hb Hcur)).
  - by apply (calm_update a (fun s => s <| ss_send := q |>)).
  - destruct (st_session st); [intros []; split; [done|apply handle_settled]|by intros].
  - destruct (st_session st) as [a|]; [by apply calm_update|apply calm_refl].
  - destruct (st_session st) as [a|]; [|apply calm_refl]. pose proof (calm_remove (fun b _ => (b =? a)%nat) (stream_agent st) (registry sh) (secrets sh)) as Hc.
    unfold unregister. by destruct (remove_if _ _ _ _) as [[removed r'] mem'].
  - destruct m as [|hb| | | | | | | | | | | |]; try apply calm_refl. unfold recordHeartbeat. destruct (negb _); [apply calm_refl|apply calm_renew].
  - destruct m as [|hb| | | | | | | | | | | |]; try done. by destruct (recordHeartbeat _ _ _ _).
  - destruct m as [|hb| | | | | | | | | | | |]; try done. by destruct (recordHeartbeat _ _ _ _).
Qed.

(** A stream that is about to register a session. *)
Definition registering (x : activity) : Prop := match x with Working (Call c _) => match c with SRegister _ _ _ _ => True | _ => False end | _ => False end.
Lemma asking_calm st sh st' sh' sent_now : stream_step st sh st' sh' sent_now -> asking st -> calm (registry sh) (registry sh').
Proof.
  intros Hst (agentID & fingerprint & serial & k0 & Hk).
  destruct Hst as [st sh A c k b st' sh' sent_now Ha Hc|st sh a s m q Ha Hsa Hs Hq|st sh m at_ Ha|st sh m at_ sent_now Ha Hsent|st sh m Ha Hrc|st sh e Ha Hrc|st sh Ha
    |st sh e Ha|st sh e Ha|st sh e Ha|st sh e Ha|st sh m at_ Hrv|st sh e Hrv|st sh it Hrv Hrc|st sh it Hrv]; try (rewrite Ha in Hk; discriminate Hk); try apply calm_refl.
  - apply performs_registry in Hc as [(Hc & _)|(fp & se & s & _ & Hsr & _)]; [done|exfalso].
    assert (Hreg : registering (st_activity st)) by (rewrite Ha; exact Hsr). by rewrite Hk in Hreg.
  - destruct m as [|hb| | | | | | | | | | | |]; try apply calm_refl. unfold recordHeartbeat. destruct (negb _); [apply calm_refl|apply calm_renew].
Qed.

Lemma on_sessions_calm {A} (c : call A) sh b sh' : on_sessions c sh b sh' -> calm (registry sh) (registry sh').
Proof. unfold on_sessions. destruct (delivery_of c) as [d|]; [|intros ->; apply calm_refl]. intros (x & rep & [_ ->] & _). apply calm_deliver. Qed.

Record plane_good (P : Prop) (agentID : string) (fingerprint : bytes) (serial : string) (pl : plane) : Prop := {
  pg_server : credentialsAuthorizer (pl_server pl) = true;
  pg_registry : registry_fine (registry (pl_shared pl));
  pg_streams i st : pl_streams pl !! i = Some st -> good P agentID fingerprint serial st (pl_shared pl);
}.

Section plane.
Context (P : Prop) (agentID : string) (fingerprint : bytes) (serial : string).
Implicit Types (pl : plane).
Abbreviation fine := (plane_good P agentID fingerprint serial).

(** A step that registers nothing and in which at most one stream takes part. *)
Lemma plane_good_calm pl pl' : calm (registry (pl_shared pl)) (registry (pl_shared pl')) -> pl_server pl' = pl_server pl ->
  (forall i st, pl_streams pl' !! i = Some st -> pl_streams pl !! i = Some st \/ good P agentID fingerprint serial st (pl_shared pl')) -> fine pl -> fine pl'.
Proof.
  intros Hc Hse Hst [H1 H2 H3]. split; [by rewrite Hse|by eapply registry_fine_calm|]. intros i st [Hi|Hg]%Hst; [|done]. eapply good_calm; [exact Hc|by eapply H3].
Qed.
Lemma plane_good_shared pl pl' : calm (registry (pl_shared pl)) (registry (pl_shared pl')) -> pl_server pl' = pl_server pl -> pl_streams pl' = pl_streams pl -> fine pl -> fine pl'.
Proof. intros Hc Hse Hst. apply plane_good_calm; [done..|]. intros i st. rewrite Hst. by left. Qed.
Lemma plane_good_stream pl pl' i st' : calm (registry (pl_shared pl)) (registry (pl_shared pl')) -> pl_server pl' = pl_server pl -> pl_streams pl' = <[i := st']> (pl_streams pl) ->
  good P agentID fingerprint serial st' (pl_shared pl') -> fine pl -> fine pl'.
Proof. intros Hc Hse Hst Hg. apply plane_good_calm; [done..|]. intros j st. rewrite Hst. intros [(-> & <- & _)|[_ H]]%list_lookup_insert_Some; [by right|by left]. Qed.

Lemma plane_step_good t pl t' out wire pl' : plane_step t pl t' out wire pl' ->
  (forall i st, pl_streams pl !! i = Some st -> asking st -> pl_streams pl' !! i = Some st) -> fine pl -> fine pl'.
Proof.
  intros Hst Hask Hpl.
  destruct Hst as [t pl A h|t pl before after A h B c k b t' sh' Hw Hc Hs|t pl before after p Hw|t pl peer|t pl i st st' sh' sent_now Hi Hs|t pl i st A h k Hi Ha
    |t pl i st A h B c k' k b t' sh' Hi Ha Hc Hs|t pl i st A h a k Hi Ha|t pl id a r' mem' Ht|t pl id fp se a r' mem' Ht|t pl before a after Hw|t pl id ack x rep sh' Hd].
  - eapply (plane_good_shared pl); [apply calm_refl|done..].
  - eapply (plane_good_shared pl); [by eapply on_sessions_calm|done..].
  - eapply (plane_good_shared pl); [apply calm_refl|done..].
  - eapply (plane_good_calm pl); [apply calm_refl|done| |done]. cbn. intros i st [Hi|[_ Hi]]%lookup_app_Some; [by left|right]. apply list_lookup_singleton_Some in Hi as [_ <-].
    split; [apply Connect_opening, Hpl|by intros _ a].
  - assert (asking st \/ ~ asking st) as [Hst|Hst].
    { unfold asking. destruct (st_activity st) as [[g|B c k]| | | | |]; try (right; intros (? & ? & ? & ? & ?); discriminate).
      destruct c; try (solve [right; intros (? & ? & ? & ? & H); discriminate H]). left. by repeat eexists. }
    + assert (st' = st) as ->.
      { specialize (Hask i st Hi Hst). cbn in Hask. rewrite list_lookup_insert_eq in Hask by (by eapply lookup_lt_Some). by simplify_eq. }
      eapply (plane_good_calm pl); [by eapply asking_calm|done| |done]. cbn. intros j sj [(-> & <- & _)|[_ H]]%list_lookup_insert_Some; by left.
    + destruct Hpl as [H1 H2 H3]. destruct (stream_step_good P agentID fingerprint serial _ _ _ _ _ Hs Hst H2 (H3 _ _ Hi)) as (Hg & Hr & Ho). split; [done|exact Hr|].
      cbn. intros j sj [(-> & <- & _)|[_ H]]%list_lookup_insert_Some; [exact Hg|]. by eapply Ho, H3.
  - eapply (plane_good_stream pl); [apply calm_refl|done|done| |done]. destruct (pg_streams _ _ _ _ _ Hpl i st Hi) as [Hf Hsh]. unfold good, stream_fine, stream_shut in *. cbn. rewrite Ha in *.
    split; [destruct (st_session st); [split; [apply Hf|apply (proj2 (proj2 Hf))]|by destruct Hf]|]. intros HP a Hsa Hcur. by destruct (Hsh HP a Hsa Hcur).
  - eapply (plane_good_stream pl); [by eapply on_sessions_calm|done|done| |done]. eapply good_calm; [by eapply on_sessions_calm|]. destruct (pg_streams _ _ _ _ _ Hpl i st Hi) as [Hf Hsh].
    unfold good, stream_fine, stream_shut in *. cbn. by rewrite Ha in *.
  - eapply (plane_good_stream pl); [apply calm_refl|done|done| |done]. destruct (pg_streams _ _ _ _ _ Hpl i st Hi) as [Hf Hsh]. unfold good, stream_fine, stream_shut in *. cbn. rewrite Ha in *.
    split; [destruct (st_session st); [split; [apply Hf|apply (proj2 Hf)]|done]|]. intros HP b Hsb Hcur. by destruct (Hsh HP b Hsb Hcur).
  - eapply (plane_good_shared pl); [|done..|done]. cbn. pose proof (calm_remove (fun _ _ => true) id (registry (pl_shared pl)) (secrets (pl_shared pl))) as Hc.
    unfold Terminate in Ht. destruct (blank id); [done|]. by rewrite Ht in Hc.
  - eapply (plane_good_shared pl); [|done..|done]. cbn. unfold TerminateCredential in Ht. destruct (_ || _); [done|].
    match type of Ht with remove_if ?test _ _ _ = _ => pose proof (calm_remove test id (registry (pl_shared pl)) (secrets (pl_shared pl))) as Hc end. by rewrite Ht in Hc.
  - eapply (plane_good_shared pl); [|done..|done]. cbn. by apply calm_update.
  - eapply (plane_good_shared pl); [|done..|done]. cbn. destruct Hd as [_ ->]. apply calm_deliver.
Qed.
End plane.

(** *** Steps of a site *)

Record site_good (P : Prop) (k : bytes) (i : issuanceRow) (serial : string) (s : site) : Prop := {
  sg_inventory : inventory_ok (s_inventory s);
  sg_plane : plane_good P (id_agent (is_identity i)) (is_fingerprint i) serial (s_plane s);
  sg_revoked : P -> exists j, issuances (s_inventory s) !! k = Some j /\ is_identity j = is_identity i /\ is_fingerprint j = is_fingerprint i /\ is_revoked_at j <> None;
}.

Lemma revoked_later d d' k i : inventory_ok d -> rtc change d d' ->
  (exists j, issuances d !! k = Some j /\ is_identity j = is_identity i /\ is_fingerprint j = is_fingerprint i /\ is_revoked_at j <> None) ->
  exists j, issuances d' !! k = Some j /\ is_identity j = is_identity i /\ is_fingerprint j = is_fingerprint i /\ is_revoked_at j <> None.
Proof.
  intros Hok Hc (j & Hj & E1 & E2 & Hv). destruct (kept_issuances _ _ (changes_kept _ _ Hok Hc) k j Hj) as (j' & Hj' & He & Hjv). exists j'.
  assert (is_identity j' = is_identity j /\ is_fingerprint j' = is_fingerprint j) as [E3 E4] by (by destruct j, j'; simplify_eq He).
  split; [done|]. split; [congruence|]. split; [congruence|]. by rewrite Hjv.
Qed.

Lemma site_step_good P k i serial s s' : site_step s s' -> site_good P k i serial s -> site_good P k i serial s'.
Proof.
  intros Hst [Hok Hpl Hrev]. destruct Hst as [t pl d t' out wire pl' Hp Hask|t pl d n st id fp se c targets now fs b Hi Ha Hb|t pl d t' d' Hs]; cbn in *.
  - split; [done| |done]. by eapply plane_step_good.
  - pose proof (AuthorizeAgentCredential_at targets id fp se now d (opened d fs) eq_refl) as [Hc _]. split; cbn; [by eapply changes_ok| |intros HP; eapply revoked_later; [exact Hok|exact Hc|auto]].
    eapply (plane_good_stream _ _ _ _ pl); [apply calm_refl|done|done| |done]. destruct (pg_streams _ _ _ _ _ Hpl n st Hi) as [Hf Hsh]. unfold good, stream_fine, stream_shut in *. cbn. rewrite Ha in *.
    split; [destruct (st_session st); [split; [apply Hf|apply (proj2 (proj2 Hf))]|apply (proj2 Hf b)]|]. intros HP a Hsa Hcur. destruct (Hsh HP a Hsa Hcur) as [(-> & -> & ->) Hk].
    apply Hk. cbn. destruct b; [exfalso|done]. destruct (Hrev HP) as (j & Hj & E1 & E2 & Hv). rewrite <- E1, <- E2 in Hb.
    eapply (revoked_refused d k j _); [done|done|done|]. exists targets, now, fs. by apply Hb.
  - pose proof (step_changes _ _ Hs) as Hc. split; [by eapply changes_ok|done|]. intros HP. eapply revoked_later; [exact Hok|exact Hc|auto].
Qed.
Lemma site_steps_good P k i serial s s' : rtc site_step s s' -> site_good P k i serial s -> site_good P k i serial s'.
Proof. induction 1 as [|s s1 s2 H _ IH]; [done|]. intros Hg. by eapply IH, site_step_good. Qed.

Lemma fresh_site_good server lifecycle capacity t k i serial : credentialsAuthorizer server = true -> site_good False k i serial (fresh_site server lifecycle capacity t).
Proof. intros H. split; [apply empty_ok| |done]. split; [done|done|]. intros n st Hn. done. Qed.

(** From the termination on: no live session has the certificate at first. *)
Lemma terminates_good k i serial s s' : terminates (id_agent (is_identity i)) (is_fingerprint i) serial s s' ->
  blank (id_agent (is_identity i)) = false -> is_fingerprint i <> zero_fingerprint -> serial <> EmptyString ->
  issuances (s_inventory s) !! k = Some i -> is_revoked_at i <> None -> site_good False k i serial s -> site_good True k i serial s'.
Proof.
  unfold terminates. set (agentID := id_agent (is_identity i)). set (fp := is_fingerprint i). intros Ht H1 H2 H3 Hi Hv [Hok [Hse Hr Hst] _].
  pose proof (fun a => terminated_current agentID fp serial (registry (pl_shared (s_plane s))) (secrets (pl_shared (s_plane s))) a H1 H2 H3) as Hno.
  assert (Hc : calm (registry (pl_shared (s_plane s))) (snd (fst (TerminateCredential agentID fp serial (registry (pl_shared (s_plane s))) (secrets (pl_shared (s_plane s))))))).
  { unfold TerminateCredential. destruct (_ || _); [apply calm_refl|apply calm_remove]. }
  destruct (TerminateCredential _ _ _ _ _) as [[removed r'] mem']. cbn in Hno, Hc. subst s'. split; [done| |by exists i]. split; cbn; [done|by eapply registry_fine_calm|].
  intros j st Hj. destruct (Hst j st Hj) as [Hf _]. split; [unfold stream_fine in *; cbn; by rewrite (calm_length _ _ Hc)|]. intros _ a _ Hcur. by destruct (Hno a).
Qed.

(** C14: Sessions of replaced certificates are shut out: on a control plane that has been told to end the sessions of a revoked certificate, no stream whose live session
    has that certificate ever is in service again, also not a stream that asked the authorizer before the revocation and registers its session after the termination. *)
Theorem replaced_sessions_stay_shut server lifecycle capacity t s1 s2 s3 k i serial n st a :
  credentialsAuthorizer server = true -> rtc site_step (fresh_site server lifecycle capacity t) s1 ->
  issuances (s_inventory s1) !! k = Some i -> is_revoked_at i <> None ->
  blank (id_agent (is_identity i)) = false -> is_fingerprint i <> zero_fingerprint -> serial <> EmptyString ->
  terminates (id_agent (is_identity i)) (is_fingerprint i) serial s1 s2 -> rtc site_step s2 s3 ->
  pl_streams (s_plane s3) !! n = Some st -> st_session st = Some a -> current (id_agent (is_identity i)) (is_fingerprint i) serial a (registry (pl_shared (s_plane s3))) -> ~ in_loop st.
Proof.
  intros Hse H1 Hi Hv Hb Hf Hs Ht H2 Hn Ha Hcur.
  assert (Hg : site_good True k i serial s3).
  { eapply site_steps_good; [exact H2|]. eapply terminates_good; [exact Ht|done..|]. eapply site_steps_good; [exact H1|]. by apply fresh_site_good. }
  destruct (pg_streams _ _ _ _ _ (sg_plane _ _ _ _ _ Hg) n st Hn) as [_ Hsh]. specialize (Hsh I a Ha Hcur). unfold in_loop.
  intros Hl. destruct (st_activity st) as [[stg|B c kk]|w|h x kk| | |]; try done. by destruct stg.
Qed.
End sessions.

(** ** A run *)
Module SiteDemo.
Import PhaseDemo DeliveryDemo SessionDemo InventoryDemo EnrollmentDemo.

Definition asks (st : stream) : bool := match st_activity st with Working (Call c _) => match c with SAuthorizeAgentCredential _ _ _ => true | _ => false end | _ => false end.
Lemma asking_asks st : asking st -> asks st = true.
Proof. intros (agentID & fingerprint & serial & k & H). unfold asks. by rewrite H. Qed.

(** An action of the control plane while no stream asks; the answer of the authorizer to a stream; an operation on the tables. *)
Definition site_act (now : Z) (s : site) (a : action) : site :=
  if existsb asks (pl_streams (s_plane s)) then s
  else match act_plane now a (s_tables s) (s_plane s) with Some (t', _, _, pl') => Site t' pl' (s_inventory s) | None => s end.
Definition answered (now : Z) (i : nat) (s : site) : site :=
  match pl_streams (s_plane s) !! i with
  | Some st =>
      match st_activity st with
      | Working (Call c k) =>
          match c in stream_call B return (B -> sprog stage) -> site with
          | SAuthorizeAgentCredential agentID fingerprint serial => fun k =>
              let x := AuthorizeAgentCredential ∅ agentID fingerprint serial (at_second now) (opened (s_inventory s) []) in
              Site (s_tables s) (s_plane s <| pl_streams ::= <[i := doing st (k (match x.1 with Ok _ => true | Err _ => false end))]> |>) (data x.2)
          | _ => fun _ => s
          end k
      | _ => s
      end
  | None => s
  end.

Lemma site_act_steps now s a : rtc site_step s (site_act now s a).
Proof.
  unfold site_act. destruct (existsb asks _) eqn:E; [done|]. destruct (act_plane _ _ _ _) as [[[[t' out] wire] pl']|] eqn:Ea; [|done]. apply rtc_once. destruct s as [t pl d]. cbn in *.
  eapply site_plane; [by eapply act_plane_step|]. intros i st Hi Hst%asking_asks. rewrite <- not_true_iff_false, existsb_exists in E. destruct E. exists st. split; [|done].
  by apply list_elem_of_In, list_elem_of_lookup_2 with i.
Qed.
Lemma site_acts_steps now l : forall s, rtc site_step s (fold_left (site_act now) l s).
Proof. induction l as [|a l IH]; intros s; [done|]. cbn. etrans; [apply site_act_steps|apply IH]. Qed.
Lemma answered_steps now i s : rtc site_step s (answered now i s).
Proof.
  unfold answered. destruct (pl_streams (s_plane s) !! i) as [st|] eqn:Ei; [|done]. destruct (st_activity st) as [[|B c k]| | | | |] eqn:Ea; try done. destruct c; try done.
  apply rtc_once. destruct s as [t pl d]. cbn [s_tables s_plane s_inventory] in *. eapply site_authorizes; [exact Ei|exact Ea|].
  destruct (AuthorizeAgentCredential _ _ _ _ _ _) as [[[]|e] c']; cbn; naive_solver.
Qed.
Definition on_tables (d : inventory) (s : site) : site := Site (s_tables s) (s_plane s) d.
Lemma on_tables_steps d s : steps (s_inventory s) d -> rtc site_step s (on_tables d s).
Proof.
  destruct s as [t pl d0]. unfold on_tables. cbn. intros H. induction H as [d|d0 d1 d2 H _ IH]; [done|]. etrans; [apply rtc_once; by apply (site_operates t pl d0 t d1)|exact IH].
Qed.

(** The enrolled agent connects and is let in; before its session is registered, another certificate replaces its own. *)
Definition idle : site := on_tables enrolled (fresh_site server lifecycle 4 (Tables ∅ ∅ ∅)).
Definition arriving : site := fold_left (site_act 5) (Accept (Some {| VerifiedChains := 1; PeerCertificates := [leaf 11 11] |}) :: replicate 10 (Go 0 (hello "agent-1"))) idle.
Definition let_in : site := answered 5 0 arriving.
Definition overtaken : site := on_tables replaced let_in.
(** The session of the replaced certificate is to end, but there is none yet; then the stream goes on. *)
Definition terminating (agentID : string) (fingerprint : bytes) (serial : string) (s : site) : site :=
  let '(removed, r', mem') := TerminateCredential agentID fingerprint serial (registry (pl_shared (s_plane s))) (secrets (pl_shared (s_plane s))) in
  Site (s_tables s) (s_plane s <| pl_shared ::= fun sh => sh <| registry := r' |> <| secrets := mem' |> |> <| pl_cancelling ::= fun l => l ++ option_list removed |>) (s_inventory s).
Lemma terminating_terminates agentID fingerprint serial s : terminates agentID fingerprint serial s (terminating agentID fingerprint serial s).
Proof. unfold terminates, terminating. by destruct (TerminateCredential _ _ _ _ _) as [[removed r'] mem']. Qed.
Definition told : site := terminating "agent-1" (sha256 (Raw (leaf 11 11))) "b" overtaken.
Definition registered : site := fold_left (site_act 6) (replicate 10 (Go 0 (hello "agent-1"))) told.
Definition refused : site := answered 6 0 registered.

Lemma overtaken_steps : rtc site_step (fresh_site server lifecycle 4 (Tables ∅ ∅ ∅)) overtaken.
Proof.
  assert (Hi : s_inventory let_in = enrolled) by (vm_compute; reflexivity).
  etrans; [apply (on_tables_steps enrolled); exact enrolled_steps|]. fold idle. etrans; [apply (site_acts_steps 5)|]. fold arriving. etrans; [apply (answered_steps 5 0)|]. fold let_in.
  apply on_tables_steps. rewrite Hi. destruct replaced_run as (r & ended & H & _). etrans; [apply rtc_once, carried_step|]. eapply runs_steps, enrolling_runs, H.
Qed.
Lemma refused_steps : rtc site_step told refused.
Proof. unfold refused, registered. etrans; [apply (site_acts_steps 6)|apply (answered_steps 6 0)]. Qed.

Lemma replaced_sessions_stay_shut_witness : exists i st, issuances (s_inventory overtaken) !! EnrollmentDemo.hash 7 = Some i /\ is_revoked_at i <> None /\
    pl_streams (s_plane refused) !! 0%nat = Some st /\ current "agent-1" (is_fingerprint i) "b" 0 (registry (pl_shared (s_plane refused))) /\ ~ in_loop st.
Proof.
  assert (E : exists i, issuances (s_inventory overtaken) !! EnrollmentDemo.hash 7 = Some i /\ bool_decide (is_revoked_at i = None) = false /\ id_agent (is_identity i) = "agent-1"%string /\
    is_fingerprint i = sha256 (Raw (leaf 11 11)) /\ bool_decide (is_fingerprint i = zero_fingerprint) = false) by (eexists; split_and!; vm_compute; reflexivity).
  destruct E as (i & Hi & Hv & Ha & Hf & Hz). apply bool_decide_eq_false in Hv, Hz.
  assert (E : exists st s, pl_streams (s_plane refused) !! 0%nat = Some st /\ st_session st = Some 0%nat /\ sessions (registry (pl_shared (s_plane refused))) !! "agent-1"%string = Some 0%nat /\
    heap (registry (pl_shared (s_plane refused))) !! 0%nat = Some s /\ ss_credentialLeaf s = sha256 (Raw (leaf 11 11)) /\ ss_credentialSerial s = "b"%string)
    by (do 2 eexists; split_and!; vm_compute; reflexivity).
  destruct E as (st & s & Hn & Hs & H1 & H2 & H3 & H4). exists i, st. split; [exact Hi|]. split; [exact Hv|]. split; [exact Hn|].
  assert (Hc : current "agent-1" (is_fingerprint i) "b" 0 (registry (pl_shared (s_plane refused)))) by (split; [exact H1|exists s; rewrite Hf; auto]). split; [exact Hc|].
  assert (Ht : terminates (id_agent (is_identity i)) (is_fingerprint i) "b" overtaken told) by (rewrite Ha, Hf; apply terminating_terminates).
  refine (replaced_sessions_stay_shut server lifecycle 4 (Tables ∅ ∅ ∅) overtaken told refused (EnrollmentDemo.hash 7) i "b" 0 st 0 eq_refl overtaken_steps Hi Hv _ Hz _ Ht refused_steps Hn Hs _);
    [rewrite Ha; reflexivity|discriminate|by rewrite Ha].
Defined.
End SiteDemo.
