(* ===== verification/SpoolCodec.v ===== *)
(** * Spool segment records

    Translation of the record format of [backend/internal/spool/segments.go]:
    [encodeRecord] and the scan of [recoverFile], byte for byte, with the
    Castagnoli CRC-32 of [hash/crc32].  The JSON encoding of the record header is a
    parameter with its round-trip law. *)

From stdpp Require Import pretty.
From S2P Require Import Prelude.

Local Open Scope Z_scope.

(** ** Data *)

Inductive DataClass := Log | AuditLog | Metric | JobResult | ClassOther (s : string).

#[global] Instance DataClass_eq_dec : EqDecision DataClass.
Proof. solve_decision. Defined.

Definition validClass (class : DataClass) : bool :=
  match class with Log | AuditLog | Metric | JobResult => true | ClassOther _ => false end.

Record Batch := {
  b_ID : string;
  b_SourceID : string;
  b_CreatedAt : time;
  b_Priority : Z;
  b_Payload : list Z;
  b_Checksum : Z
}.

Record CursorReceipt := {
  c_Key : string;
  c_AssignmentID : string;
  c_ConfigurationRevision : Z;
  c_TemplateID : string;
  c_InstanceID : string;
  c_Sequence : Z;
  c_Digest : list Z;
  c_CollectedAt : time;
  c_ACKPending : bool
}.

Record persistedCursorReceipt := {
  p_Version : Z;
  p_Key : string;
  p_AssignmentID : string;
  p_ConfigurationRevision : Z;
  p_TemplateID : string;
  p_InstanceID : string;
  p_Sequence : Z;
  p_Digest : list Z;
  p_CollectedAt : time;
  p_ACKPending : bool
}.

Record recordHeader := {
  h_ID : string;
  h_SourceID : string;
  h_CreatedAt : time;
  h_Priority : Z;
  h_Checksum : Z;
  h_Class : DataClass;
  h_Sequence : Z;
  h_Cursor : option persistedCursorReceipt
}.

(** A pending batch as the store keeps it; [e_file] is filled by the caller of the scan. *)
Record entry := {
  e_batch : Batch;
  e_class : DataClass;
  e_sequence : Z;
  e_file : string;
  e_bytes : Z;
  e_cursor : option persistedCursorReceipt
}.

(** ** Cursor receipts *)

Definition nul : string := String (Ascii.ascii_of_N 0) EmptyString.

Definition format_uint (n : Z) : string := pretty (Z.to_N n).

Definition cursor_key (assignment : string) (revision : Z) (template instance : string) : string :=
  (assignment +:+ nul +:+ format_uint revision +:+ nul +:+ template +:+ nul +:+ instance)%string.

(** [strings.ContainsAny(s, "\r\n")] *)
Definition has_newline (s : string) : bool :=
  existsb (fun c => (c =? 10) || (c =? 13)) (bytes_of s).

Definition validCursorReceipt (v : CursorReceipt) : bool :=
  bool_decide (c_Key v = cursor_key (c_AssignmentID v) (c_ConfigurationRevision v) (c_TemplateID v) (c_InstanceID v))
  && (Z.of_nat (String.length (c_Key v)) <=? 1024) && negb (has_newline (c_Key v))
  && negb (empty_string (c_AssignmentID v)) && (0 <? c_ConfigurationRevision v)
  && negb (empty_string (c_TemplateID v)) && negb (empty_string (c_InstanceID v))
  && (0 <? c_Sequence v) && bool_decide (length (c_Digest v) = 32%nat) && negb (IsZero (c_CollectedAt v)).

Definition publicCursorReceipt (v : persistedCursorReceipt) : CursorReceipt :=
  {| c_Key := p_Key v; c_AssignmentID := p_AssignmentID v; c_ConfigurationRevision := p_ConfigurationRevision v;
     c_TemplateID := p_TemplateID v; c_InstanceID := p_InstanceID v; c_Sequence := p_Sequence v;
     c_Digest := p_Digest v; c_CollectedAt := UTC (p_CollectedAt v); c_ACKPending := p_ACKPending v |}.

Definition clonePersistedCursor (v : persistedCursorReceipt) : persistedCursorReceipt :=
  {| p_Version := p_Version v; p_Key := p_Key v; p_AssignmentID := p_AssignmentID v;
     p_ConfigurationRevision := p_ConfigurationRevision v; p_TemplateID := p_TemplateID v;
     p_InstanceID := p_InstanceID v; p_Sequence := p_Sequence v; p_Digest := p_Digest v;
     p_CollectedAt := UTC (p_CollectedAt v); p_ACKPending := p_ACKPending v |}.

(** [strings.Split(s, "\x00")] *)
Fixpoint split_nul (s current : string) : list string :=
  match s with
  | EmptyString => [current]
  | String a rest =>
      if Ascii.eqb a (Ascii.ascii_of_N 0) then current :: split_nul rest EmptyString
      else split_nul rest (current +:+ String a EmptyString)
  end.

(** [strconv.ParseUint(s, 10, 64)] *)
Fixpoint parse_digits (s : string) (acc : Z) : option Z :=
  match s with
  | EmptyString => Some acc
  | String a rest =>
      let c := byte_of a in
      if (48 <=? c) && (c <=? 57) then
        let acc' := 10 * acc + (c - 48) in
        if 2 ^ 64 <=? acc' then None else parse_digits rest acc'
      else None
  end.
Definition parse_uint (s : string) : option Z := if empty_string s then None else parse_digits s 0.

(** [validPersistedCursorReceipt] checks a receipt and upgrades a version-0 one in place:
    [None] is [false], otherwise the receipt as the call leaves it. *)
Definition validPersistedCursorReceipt (v : persistedCursorReceipt) : option persistedCursorReceipt :=
  let check w := if (p_Version w =? 1) && validCursorReceipt (publicCursorReceipt w) then Some w else None in
  if p_Version v =? 0 then
    match split_nul (p_Key v) EmptyString with
    | [assignment; revision; template; instance] =>
        match parse_uint revision with
        | None => None
        | Some n =>
            if n =? 0 then None
            else check {| p_Version := 1; p_Key := p_Key v; p_AssignmentID := assignment;
                          p_ConfigurationRevision := n; p_TemplateID := template; p_InstanceID := instance;
                          p_Sequence := p_Sequence v; p_Digest := p_Digest v;
                          p_CollectedAt := p_CollectedAt v; p_ACKPending := true |}
        end
    | _ => None
    end
  else check v.

(** ** Bytes *)

(** [binary.BigEndian.PutUintN] and [UintN] on [n] bytes *)
Fixpoint be_bytes (n : nat) (z : Z) : list Z :=
  match n with
  | O => []
  | S n' => be_bytes n' (z / 256) ++ [z mod 256]
  end.
Definition be_value (l : list Z) : Z := fold_left (fun acc b => acc * 256 + b) l 0.

(** CRC-32C, reflected polynomial 0x82F63B78, initial and final complement *)
Definition crc_bit (c : Z) : Z :=
  if Z.odd c then Z.lxor (Z.shiftr c 1) 2197175160 else Z.shiftr c 1.
Definition crc_byte (c b : Z) : Z := Nat.iter 8 crc_bit (Z.lxor c b).
Definition crc32c (l : list Z) : Z := Z.lxor (fold_left crc_byte l 4294967295) 4294967295.

Definition recordMagic : list Z := [68; 66; 80; 83].
Definition recordVersion : Z := 1.
Definition maxHeaderBytes : Z := Z.shiftl 1 20.
Definition len (l : list Z) : Z := Z.of_nat (length l).

Inductive SpoolError :=
| ErrInvalidBatch | ErrClosed | ErrCursorConflict | ErrCursorACKPending | ErrAuditCapacity
| ErrCapacity | ErrPayloadTooLarge | ErrHeader | ErrCorruptRecord | ErrInvalidReceipt
| ErrInvalidRequest | ErrContext | ErrNoActivePolicy | ErrNoCheckpoint | ErrIO | ErrFuel.

Section Codec.

Context (marshal_header : recordHeader -> option (list Z)).
Context (unmarshal_header : list Z -> option recordHeader).

Definition record_body (header payload : list Z) : list Z :=
  recordMagic ++ [recordVersion] ++ be_bytes 4 (uint32 (len header)) ++ be_bytes 8 (uint64 (len payload))
  ++ header ++ payload.

Definition encodeRecord (h : recordHeader) (payload : list Z) : result SpoolError (list Z) :=
  if 2 ^ 32 - 1 <? len payload then Err ErrPayloadTooLarge
  else match marshal_header h with
  | None => Err ErrHeader
  | Some header =>
      if maxHeaderBytes <? len header then Err ErrHeader
      else let body := record_body header payload in Ok (body ++ be_bytes 4 (crc32c body))
  end.

(** The loop of [rewriteWithout]: the records of a segment, concatenated. *)
Fixpoint encode_records (rs : list (recordHeader * list Z)) : result SpoolError (list Z) :=
  match rs with
  | [] => Ok []
  | (h, payload) :: rest =>
      match encodeRecord h payload with
      | Err x => Err x
      | Ok record => match encode_records rest with Err x => Err x | Ok contents => Ok (record ++ contents) end
      end
  end.

(** The validity test on a decoded header, which also upgrades its cursor. *)
Definition accept_header (h : recordHeader) : option recordHeader :=
  if negb (validClass (h_Class h)) || empty_string (h_ID h) || empty_string (h_SourceID h) || (h_Sequence h =? 0)
  then None
  else match h_Cursor h with
  | None => Some h
  | Some c =>
      match validPersistedCursorReceipt c with
      | None => None
      | Some c' => Some {| h_ID := h_ID h; h_SourceID := h_SourceID h; h_CreatedAt := h_CreatedAt h;
                           h_Priority := h_Priority h; h_Checksum := h_Checksum h; h_Class := h_Class h;
                           h_Sequence := h_Sequence h; h_Cursor := Some c' |}
      end
  end.

Definition entry_of (h : recordHeader) (payload : list Z) (total : Z) : entry :=
  {| e_batch := {| b_ID := h_ID h; b_SourceID := h_SourceID h; b_CreatedAt := h_CreatedAt h;
                   b_Priority := h_Priority h; b_Payload := payload; b_Checksum := h_Checksum h |};
     e_class := h_Class h; e_sequence := h_Sequence h; e_file := EmptyString; e_bytes := total;
     e_cursor := clonePersistedCursor <$> h_Cursor h |}.

(** One iteration of the scan at the head of [rest], the bytes from the current
    offset; [total] is [len(contents)]. *)
Inductive scan_result := ScanStop | ScanCorrupt | ScanRecord (item : entry) (size : Z).

Definition scan_record (total : Z) (rest : list Z) : scan_result :=
  if len rest <? 17 then ScanStop
  else if negb (bool_decide (take 4 rest = recordMagic)) || negb (bool_decide (take 1 (drop 4 rest) = [recordVersion]))
  then ScanCorrupt
  else
    let headerLength := be_value (take 4 (drop 5 rest)) in
    let payloadLength := be_value (take 8 (drop 9 rest)) in
    if (maxHeaderBytes <? headerLength) || (total <? payloadLength) then ScanCorrupt
    else
      let size := 17 + headerLength + payloadLength + 4 in
      if len rest <? size then ScanStop
      else
        let body := take (Z.to_nat (size - 4)) rest in
        if negb (crc32c body =? be_value (take 4 (drop (Z.to_nat (size - 4)) rest))) then ScanCorrupt
        else match unmarshal_header (take (Z.to_nat headerLength) (drop 17 rest)) with
        | None => ScanCorrupt
        | Some h =>
            match accept_header h with
            | None => ScanCorrupt
            | Some h' => ScanRecord (entry_of h' (drop (17 + Z.to_nat headerLength) body) size) size
            end
        end.

(** [recoverFile]: the items, and the offset the file is truncated at. *)
Fixpoint recover_loop (fuel : nat) (total offset : Z) (rest : list Z) : result SpoolError (list entry * option Z) :=
  match fuel with
  | O => Err ErrFuel
  | S fuel' =>
      match rest with
      | [] => Ok ([], None)
      | _ =>
          match scan_record total rest with
          | ScanStop => Ok ([], Some offset)
          | ScanCorrupt => Err ErrCorruptRecord
          | ScanRecord item size =>
              match recover_loop fuel' total (offset + size) (drop (Z.to_nat size) rest) with
              | Err x => Err x
              | Ok (items, cut) => Ok (item :: items, cut)
              end
          end
      end
  end.

Definition recoverFile (contents : list Z) : result SpoolError (list entry * option Z) :=
  recover_loop (S (length contents)) (len contents) 0 contents.

End Codec.

(** ** Byte lemmas *)

Lemma length_be_bytes n z : length (be_bytes n z) = n.
Proof. revert z. induction n as [|n IH]; intros z; cbn; [done|]. rewrite length_app, IH. cbn. lia. Qed.

Lemma be_value_app l b : be_value (l ++ [b]) = be_value l * 256 + b.
Proof. unfold be_value. by rewrite fold_left_app. Qed.

Lemma be_value_bytes n z : 0 <= z < 256 ^ Z.of_nat n -> be_value (be_bytes n z) = z.
Proof.
  revert z. induction n as [|n IH]; intros z Hz; cbn [be_bytes].
  - cbn in *. lia.
  - rewrite be_value_app, IH.
    + rewrite (Z.div_mod z 256) at 3 by lia. lia.
    + rewrite Nat2Z.inj_succ, Z.pow_succ_r in Hz by lia.
      split; [apply Z.div_pos; lia|apply Z.div_lt_upper_bound; lia].
Qed.

Lemma lxor_range32 a b : 0 <= a < 2 ^ 32 -> 0 <= b < 2 ^ 32 -> 0 <= Z.lxor a b < 2 ^ 32.
Proof.
  intros Ha Hb. split; [apply Z.lxor_nonneg; lia|].
  destruct (Z.eq_dec (Z.lxor a b) 0) as [->|Hne]; [lia|].
  assert (H0 : 0 <= Z.lxor a b) by (apply Z.lxor_nonneg; lia).
  apply Z.log2_lt_pow2; [lia|].
  eapply Z.le_lt_trans; [apply Z.log2_lxor; lia|].
  assert (Hlog : forall x, 0 <= x < 2 ^ 32 -> Z.log2 x < 32).
  { intros x Hx. destruct (Z.eq_dec x 0) as [->|]; [done|]. apply Z.log2_lt_pow2; lia. }
  apply Z.max_lub_lt; auto.
Qed.

Lemma crc_bit_range c : 0 <= c < 2 ^ 32 -> 0 <= crc_bit c < 2 ^ 32.
Proof.
  intros Hc. unfold crc_bit. rewrite Z.shiftr_div_pow2 by lia. change (2 ^ 1) with 2.
  assert (Hd : 0 <= c / 2 < 2 ^ 32) by (split; [apply Z.div_pos|apply Z.div_lt_upper_bound]; lia).
  destruct (Z.odd c); [|done]. by apply lxor_range32; [|lia].
Qed.

Lemma crc32c_range l : Forall is_byte l -> 0 <= crc32c l < 2 ^ 32.
Proof.
  intros Hl. unfold crc32c. apply lxor_range32; [|lia].
  assert (H : forall c, 0 <= c < 2 ^ 32 -> 0 <= fold_left crc_byte l c < 2 ^ 32); [|apply H; lia].
  induction Hl as [|b l Hb _ IH]; intros c Hc; [done|]. cbn [fold_left]. apply IH.
  unfold crc_byte. unfold is_byte in Hb. assert (Hx : 0 <= Z.lxor c b < 2 ^ 32) by (apply lxor_range32; lia).
  revert Hx. generalize (Z.lxor c b). generalize 8%nat. intros n. induction n as [|n IHn]; intros z Hz; [done|].
  cbn. by apply crc_bit_range, IHn.
Qed.

Lemma be_bytes_bytes n z : Forall is_byte (be_bytes n z).
Proof.
  revert z. induction n as [|n IH]; intros z; cbn; [constructor|].
  apply Forall_app. split; [done|]. apply Forall_singleton, Z.mod_pos_bound. lia.
Qed.

Lemma uint_id z k : 0 <= z < 2 ^ k -> z mod 2 ^ k = z.
Proof. apply Z.mod_small. Qed.

Lemma be_value_nonneg l : Forall is_byte l -> 0 <= be_value l.
Proof.
  induction l as [|b l IH] using rev_ind; intros H; [done|].
  apply Forall_app in H as [Hl Hb]. apply (proj1 (Forall_singleton _ _)) in Hb. unfold is_byte in Hb.
  rewrite be_value_app. specialize (IH Hl). lia.
Qed.

(** ** Headers that JSON carries unchanged: ASCII strings (Go replaces invalid UTF-8), UTC times,
    integers within their Go types *)

Definition ascii_string (s : string) : Prop := Forall (fun c => c < 128) (bytes_of s).

Definition plain_cursor (c : persistedCursorReceipt) : Prop :=
  0 <= p_Version c < 2 ^ 8 /\ ascii_string (p_Key c) /\ ascii_string (p_AssignmentID c)
  /\ 0 <= p_ConfigurationRevision c < 2 ^ 64 /\ ascii_string (p_TemplateID c) /\ ascii_string (p_InstanceID c)
  /\ 0 <= p_Sequence c < 2 ^ 64 /\ Forall is_byte (p_Digest c) /\ in_utc (p_CollectedAt c) = true.

Definition plain_header (h : recordHeader) : Prop :=
  ascii_string (h_ID h) /\ ascii_string (h_SourceID h) /\ in_utc (h_CreatedAt h) = true
  /\ int64_min <= h_Priority h <= int64_max /\ 0 <= h_Checksum h < 2 ^ 32
  /\ validClass (h_Class h) = true /\ 0 <= h_Sequence h < 2 ^ 64
  /\ match h_Cursor h with None => True | Some c => plain_cursor c end.

Section CodecFacts.

Context (marshal_header : recordHeader -> option (list Z)).
Context (unmarshal_header : list Z -> option recordHeader).
(** [json.Unmarshal] reads back a plain header that [json.Marshal] wrote, and the encoding is bytes. *)
Context (header_roundtrip : forall h b, plain_header h -> marshal_header h = Some b -> unmarshal_header b = Some h).
Context (header_bytes : forall h b, marshal_header h = Some b -> Forall is_byte b).

Local Notation encodeRecord := (encodeRecord marshal_header).
Local Notation scan_record := (scan_record unmarshal_header).
Local Notation recoverFile := (recoverFile unmarshal_header).
Local Notation recover_loop := (recover_loop unmarshal_header).

(** A header the store writes: plain, and accepted as it is on recovery. *)
Definition writable (h : recordHeader) (payload : list Z) : Prop :=
  plain_header h /\ accept_header h = Some h /\ Forall is_byte payload.

Lemma encodeRecord_inv h payload enc :
  encodeRecord h payload = Ok enc ->
  exists header, marshal_header h = Some header /\ len payload <= 2 ^ 32 - 1 /\ len header <= maxHeaderBytes
    /\ enc = record_body header payload ++ be_bytes 4 (crc32c (record_body header payload)).
Proof. unfold SpoolCodec.encodeRecord. intros H. run H. bool_simpl. eauto 10. Qed.

Lemma record_body_split header payload more :
  let rest := record_body header payload ++ more in
  take 4 rest = recordMagic /\ take 1 (drop 4 rest) = [recordVersion]
  /\ take 4 (drop 5 rest) = be_bytes 4 (uint32 (len header))
  /\ take 8 (drop 9 rest) = be_bytes 8 (uint64 (len payload))
  /\ drop 17 rest = header ++ payload ++ more.
Proof.
  cbn zeta. unfold record_body.
  set (a := be_bytes 4 _). set (b := be_bytes 8 _).
  assert (Ha : length a = 4%nat) by apply length_be_bytes. assert (Hb : length b = 8%nat) by apply length_be_bytes.
  clearbody a b. destruct a as [|a1 [|a2 [|a3 [|a4 []]]]]; try done.
  destruct b as [|b1 [|b2 [|b3 [|b4 [|b5 [|b6 [|b7 [|b8 []]]]]]]]]; try done.
  cbn. rewrite <- app_assoc. done.
Qed.

Lemma len_record_body header payload : len (record_body header payload) = 17 + len header + len payload.
Proof.
  unfold len, record_body. rewrite !length_app, !length_be_bytes. cbn. lia.
Qed.

Lemma record_body_bytes header payload :
  Forall is_byte header -> Forall is_byte payload -> Forall is_byte (record_body header payload).
Proof.
  intros Hh Hp. unfold record_body. rewrite !Forall_app. split_and!; auto using be_bytes_bytes.
  - unfold recordMagic, is_byte. repeat (apply Forall_cons; split; [lia|]). constructor.
  - unfold recordVersion, is_byte. rewrite Forall_singleton. lia.
Qed.

Lemma maxHeader_small : maxHeaderBytes < 2 ^ 32.
Proof. reflexivity. Qed.

Lemma take_len_app (l k : list Z) z : len l = z -> take (Z.to_nat z) (l ++ k) = l.
Proof. intros <-. unfold len. rewrite Nat2Z.id. apply take_app_length. Qed.

Lemma drop_len_app (l k : list Z) z : len l = z -> drop (Z.to_nat z) (l ++ k) = k.
Proof. intros <-. unfold len. rewrite Nat2Z.id. apply drop_app_length. Qed.

(** A complete record is read back, whatever follows it. *)
Lemma scan_record_encoded h payload enc more total :
  encodeRecord h payload = Ok enc -> writable h payload -> len payload <= total ->
  scan_record total (enc ++ more) = ScanRecord (entry_of h payload (len enc)) (len enc).
Proof.
  intros (header & Hm & Hpl & Hhl & ->)%encodeRecord_inv (Hpl' & Hacc & Hpb) Htot.
  pose proof (header_bytes _ _ Hm) as Hhb. pose proof maxHeader_small.
  set (body := record_body header payload). set (crc := be_bytes 4 (crc32c body)).
  assert (Hlen : len (body ++ crc) = 17 + len header + len payload + 4).
  { unfold len. rewrite length_app, Nat2Z.inj_add. fold (len body). unfold body. rewrite len_record_body.
    unfold crc. rewrite length_be_bytes. unfold len. lia. }
  assert (Hrest : len ((body ++ crc) ++ more) = len (body ++ crc) + len more) by (unfold len; rewrite length_app; lia).
  assert (0 <= len header /\ 0 <= len payload /\ 0 <= len more) as (? & ? & ?) by (unfold len; lia).
  pose proof (record_body_split header payload (crc ++ more)) as (E1 & E2 & E3 & E4 & E5).
  fold body in E1, E2, E3, E4, E5. rewrite app_assoc in E1, E2, E3, E4, E5.
  unfold SpoolCodec.scan_record. rewrite E1, E2, E3, E4, E5.
  rewrite !be_value_bytes by (unfold uint32, uint64; apply Z.mod_pos_bound; lia).
  unfold uint32, uint64. rewrite !uint_id by lia.
  replace (len ((body ++ crc) ++ more) <? 17) with false by (symmetry; apply Z.ltb_ge; lia).
  rewrite !bool_decide_true by done. cbn [negb orb].
  replace (maxHeaderBytes <? len header) with false by (symmetry; apply Z.ltb_ge; lia).
  replace (total <? len payload) with false by (symmetry; apply Z.ltb_ge; lia). cbn [orb].
  replace (_ <? 17 + _ + _ + 4) with false by (symmetry; apply Z.ltb_ge; lia).
  replace (17 + len header + len payload + 4 - 4) with (len body) by (unfold body; rewrite len_record_body; lia).
  rewrite <- (app_assoc body). rewrite take_len_app, drop_len_app by done.
  replace (take 4 (crc ++ more)) with crc by (unfold crc; rewrite take_app_le, take_ge; rewrite ?length_be_bytes; done).
  unfold crc. rewrite be_value_bytes by (change (256 ^ Z.of_nat 4) with (2 ^ 32); by apply crc32c_range, record_body_bytes).
  rewrite Z.eqb_refl. cbn [negb]. rewrite take_len_app by done.
  rewrite (header_roundtrip _ _ Hpl' Hm), Hacc. fold crc. rewrite Hlen. f_equal. f_equal.
  pose proof (record_body_split header payload []) as (_ & _ & _ & _ & E).
  rewrite !app_nil_r in E. fold body in E. rewrite <- drop_drop, E. apply drop_app_length'.
  unfold len. by rewrite Nat2Z.id.
Qed.

(** The entry a written record is recovered as. *)
Definition recovered (r : recordHeader * list Z) : entry :=
  entry_of (fst r) (snd r) (match encodeRecord (fst r) (snd r) with Ok enc => len enc | Err _ => 0 end).

Lemma encodeRecord_long h payload enc : encodeRecord h payload = Ok enc -> 21 <= len enc /\ len payload <= len enc.
Proof.
  intros (header & _ & _ & _ & ->)%encodeRecord_inv.
  pose proof (len_record_body header payload) as H. unfold len in *.
  rewrite length_app, Nat2Z.inj_add, H, length_be_bytes. lia.
Qed.

Lemma recover_step_nonempty {A} (rest : list Z) (a b : A) :
  rest <> [] -> match rest with [] => a | _ :: _ => b end = b.
Proof. by destruct rest. Qed.

Lemma recover_loop_records rs contents tail fuel total offset :
  encode_records marshal_header rs = Ok contents -> Forall (fun r => writable (fst r) (snd r)) rs ->
  len (contents ++ tail) <= total -> (length rs + length tail < fuel)%nat ->
  recover_loop fuel total offset (contents ++ tail) =
  match recover_loop (fuel - length rs) total (offset + len contents) tail with
  | Err x => Err x
  | Ok (items, cut) => Ok (map recovered rs ++ items, cut)
  end.
Proof.
  revert contents fuel offset. induction rs as [|[h payload] rs IH]; intros contents fuel offset He Hw Ht Hf.
  { injection He as <-. cbn [app length map]. rewrite Nat.sub_0_r, Z.add_0_r.
    by destruct (recover_loop fuel total offset tail) as [[]|]. }
  cbn in He. destruct (encodeRecord h payload) as [enc|] eqn:Henc; [|done].
  destruct (encode_records marshal_header rs) as [c|] eqn:Hc; [|done]. injection He as <-.
  apply Forall_cons in Hw as [Hw1 Hw]. cbn in Hw1. pose proof (encodeRecord_long _ _ _ Henc) as [Hl Hp].
  destruct fuel as [|fuel]; [lia|]. cbn [length] in Hf |- *. cbn [SpoolCodec.recover_loop].
  rewrite <- app_assoc in *. rewrite recover_step_nonempty by (destruct enc; [by vm_compute in Hl|done]).
  assert (Hsum : len (enc ++ c ++ tail) = len enc + len (c ++ tail)) by (unfold len; rewrite length_app; lia).
  rewrite (scan_record_encoded h payload enc (c ++ tail) total Henc Hw1) by (unfold len in *; lia).
  rewrite drop_len_app by done. rewrite (IH c fuel (offset + len enc)); [|done|done|unfold len in *; lia|lia].
  cbn [Nat.sub]. replace (offset + len enc + len c) with (offset + len (enc ++ c)) by (unfold len; rewrite length_app; lia).
  destruct (recover_loop (fuel - length rs) total _ tail) as [[items cut]|]; [|done].
  cbn [map]. unfold recovered at 2. cbn [fst snd]. by rewrite Henc.
Qed.

Lemma encode_records_fuel rs contents :
  encode_records marshal_header rs = Ok contents -> (length rs <= length contents)%nat.
Proof.
  revert contents. induction rs as [|[h p] rs IH]; intros contents H; cbn in *; [lia|].
  destruct (encodeRecord h p) as [enc|] eqn:E; [|done].
  destruct (encode_records marshal_header rs) as [c|]; [|done]. injection H as <-.
  apply encodeRecord_long in E as [E _]. rewrite length_app. unfold len in E. specialize (IH c eq_refl). lia.
Qed.

(** The scan of a proper prefix of a record. *)
Lemma scan_record_torn h payload p q total :
  encodeRecord h payload = Ok (p ++ q) -> q <> [] ->
  scan_record total p =
  if (len p <? 17) || negb (total <? len payload) then ScanStop else ScanCorrupt.
Proof.
  intros He Hq. pose proof (encodeRecord_inv _ _ _ He) as (header & Hm & Hpl & Hhl & Henc).
  pose proof maxHeader_small. unfold SpoolCodec.scan_record.
  destruct (len p <? 17) eqn:Hlt; [done|]. bool_simpl. cbn [orb].
  assert (Hpre : forall n m, (n + m <= 17)%nat -> take m (drop n p) = take m (drop n (p ++ q))).
  { intros n m Hnm. unfold len in Hlt. rewrite drop_app_le, take_app_le; [done|rewrite length_drop; lia|lia]. }
  pose proof (record_body_split header payload (be_bytes 4 (crc32c (record_body header payload)))) as (E1 & E2 & E3 & E4 & _).
  rewrite <- Henc in E1, E2, E3, E4.
  pose proof (Hpre 0%nat 4%nat ltac:(lia)) as F1. rewrite !drop_0 in F1.
  rewrite F1, (Hpre 4%nat 1%nat), (Hpre 5%nat 4%nat), (Hpre 9%nat 8%nat), E1, E2, E3, E4 by lia.
  assert (0 <= len header /\ 0 <= len payload) as [? ?] by (unfold len; lia).
  rewrite !be_value_bytes by (unfold uint32, uint64; apply Z.mod_pos_bound; lia).
  unfold uint32, uint64. rewrite !uint_id by lia. rewrite !bool_decide_true by done. cbn [negb orb].
  replace (maxHeaderBytes <? len header) with false by (symmetry; apply Z.ltb_ge; lia). cbn [orb].
  destruct (total <? len payload) eqn:Ht; [done|]. cbn [negb].
  replace (len p <? _) with true; [done|]. symmetry. apply Z.ltb_lt.
  apply (f_equal len) in Henc. pose proof (len_record_body header payload) as Hb.
  unfold len in *. rewrite !length_app, length_be_bytes in Henc. assert (0 < length q)%nat by (destruct q; [done|cbn; lia]). lia.
Qed.

Lemma recover_loop_torn rs contents h payload p q :
  encode_records marshal_header rs = Ok contents -> Forall (fun r => writable (fst r) (snd r)) rs ->
  encodeRecord h payload = Ok (p ++ q) -> p <> [] -> q <> [] ->
  recoverFile (contents ++ p) =
  if (len p <? 17) || negb (len (contents ++ p) <? len payload)
  then Ok (map recovered rs, Some (len contents)) else Err ErrCorruptRecord.
Proof.
  intros Hc Hw He Hp Hq. unfold SpoolCodec.recoverFile. pose proof (encode_records_fuel _ _ Hc) as Hf.
  rewrite (recover_loop_records rs contents p); [|done|done|lia|rewrite length_app; lia].
  destruct (S (length (contents ++ p)) - length rs)%nat as [|fuel] eqn:Hfu; [rewrite length_app in Hfu; lia|].
  cbn [SpoolCodec.recover_loop]. destruct p as [|x p]; [done|].
  rewrite (scan_record_torn h payload (x :: p) q _ He Hq).
  destruct (_ || _); [|done]. by rewrite app_nil_r.
Qed.

(** A record whose write stopped after its lengths, with other bytes behind it, is read with its own lengths.  The scan
    takes it for a record when the other bytes complete it with its checksum. *)
Definition completes_record (size : Z) (rest : list Z) : Prop :=
  size <= len rest /\ crc32c (take (Z.to_nat (size - 4)) rest) = be_value (take 4 (drop (Z.to_nat (size - 4)) rest)).
#[global] Instance completes_record_dec size rest : Decision (completes_record size rest).
Proof. unfold completes_record. apply _. Defined.

Lemma scan_record_overwritten h payload p q later total :
  encodeRecord h payload = Ok (p ++ q) -> 17 <= len p -> ~ completes_record (len (p ++ q)) (p ++ later) ->
  scan_record total (p ++ later) = if (len payload <=? total) && (len (p ++ later) <? len (p ++ q)) then ScanStop else ScanCorrupt.
Proof.
  intros He Hlt Hno. pose proof (encodeRecord_inv _ _ _ He) as (header & Hm & Hpl & Hhl & Henc).
  pose proof maxHeader_small. unfold SpoolCodec.scan_record.
  assert (Hll : len (p ++ later) = len p + len later) by (unfold len; rewrite length_app; lia).
  assert (0 <= len header /\ 0 <= len payload /\ 0 <= len later) as (? & ? & ?) by (unfold len; lia).
  replace (len (p ++ later) <? 17) with false by (symmetry; apply Z.ltb_ge; lia).
  assert (Hpre : forall n m, (n + m <= 17)%nat -> take m (drop n (p ++ later)) = take m (drop n (p ++ q))).
  { intros n m Hnm. unfold len in Hlt. rewrite !drop_app_le by lia. by rewrite !take_app_le by (rewrite length_drop; lia). }
  pose proof (record_body_split header payload (be_bytes 4 (crc32c (record_body header payload)))) as (E1 & E2 & E3 & E4 & _).
  rewrite <- Henc in E1, E2, E3, E4.
  pose proof (Hpre 0%nat 4%nat ltac:(lia)) as F1. rewrite !drop_0 in F1.
  rewrite F1, (Hpre 4%nat 1%nat), (Hpre 5%nat 4%nat), (Hpre 9%nat 8%nat), E1, E2, E3, E4 by lia.
  rewrite !be_value_bytes by (unfold uint32, uint64; apply Z.mod_pos_bound; lia).
  unfold uint32, uint64. rewrite !uint_id by lia. rewrite !bool_decide_true by done. cbn [negb orb].
  replace (maxHeaderBytes <? len header) with false by (symmetry; apply Z.ltb_ge; lia).
  rewrite Z.ltb_antisym. destruct (len payload <=? total); [|done]. cbn [negb orb andb].
  assert (Hsize : 17 + len header + len payload + 4 = len (p ++ q)).
  { rewrite Henc. pose proof (len_record_body header payload) as Hb. unfold len in *. rewrite length_app, length_be_bytes. lia. }
  rewrite Hsize. destruct (len (p ++ later) <? len (p ++ q)) eqn:Hs; [done|]. bool_simpl.
  destruct (crc32c _ =? _) eqn:Hc; [|done]. apply Z.eqb_eq in Hc. destruct Hno. by split.
Qed.

(** At the end of records that were written whole. *)
Lemma recover_loop_overwritten rs contents h payload p q later :
  encode_records marshal_header rs = Ok contents -> Forall (fun r => writable (fst r) (snd r)) rs ->
  encodeRecord h payload = Ok (p ++ q) -> 17 <= len p -> ~ completes_record (len (p ++ q)) (p ++ later) ->
  recoverFile (contents ++ p ++ later) =
  if (len payload <=? len (contents ++ p ++ later)) && (len (p ++ later) <? len (p ++ q)) then Ok (map recovered rs, Some (len contents)) else Err ErrCorruptRecord.
Proof.
  intros Hc Hw He Hp Hno. unfold SpoolCodec.recoverFile. pose proof (encode_records_fuel _ _ Hc) as Hf.
  assert (Hne : (0 < length (p ++ later))%nat) by (unfold len in Hp; rewrite length_app; lia).
  rewrite (recover_loop_records rs contents (p ++ later)); [|done|done|lia|rewrite !length_app; lia].
  destruct (S (length (contents ++ p ++ later)) - length rs)%nat as [|fuel] eqn:Hfu; [rewrite !length_app in Hfu; rewrite length_app in Hne; lia|].
  cbn [SpoolCodec.recover_loop]. rewrite recover_step_nonempty by (destruct (p ++ later); [cbn in Hne; lia|done]).
  rewrite (scan_record_overwritten h payload p q) by done. destruct (_ && _); [|done]. by rewrite app_nil_r.
Qed.

(** ** Properties *)

Lemma recoverFile_encoded rs contents :
  encode_records marshal_header rs = Ok contents -> Forall (fun r => writable (fst r) (snd r)) rs ->
  recoverFile contents = Ok (map recovered rs, None).
Proof.
  intros Hc Hw. unfold SpoolCodec.recoverFile. pose proof (encode_records_fuel _ _ Hc) as Hf.
  rewrite <- (app_nil_r contents) at 3.
  rewrite (recover_loop_records rs contents []); [|done|done|rewrite app_nil_r; lia|cbn; lia].
  destruct (S (length contents) - length rs)%nat eqn:Hfu; [lia|]. cbn. by rewrite app_nil_r.
Qed.

(** C27: a segment of written records is recovered record for record, with nothing cut off. *)
Theorem recoverFile_reads_back_segments rs contents :
  encode_records marshal_header rs = Ok contents -> Forall (fun r => writable (fst r) (snd r)) rs ->
  recoverFile contents = Ok (map recovered rs, None).
Proof. apply recoverFile_encoded. Qed.

(** a write torn by a crash is cut off and every earlier record survives,
    provided fewer than 17 bytes of it reached the file or its payload is no longer than the file. *)
Theorem recoverFile_truncates_torn_tail rs contents h payload p q :
  encode_records marshal_header rs = Ok contents -> Forall (fun r => writable (fst r) (snd r)) rs ->
  encodeRecord h payload = Ok (p ++ q) -> p <> [] -> q <> [] ->
  (len p < 17 \/ len payload <= len (contents ++ p)) ->
  recoverFile (contents ++ p) = Ok (map recovered rs, Some (len contents)).
Proof.
  intros Hc Hw He Hp Hq Hcond. rewrite (recover_loop_torn _ _ _ _ _ _ Hc Hw He Hp Hq).
  destruct Hcond as [H|H].
  - by apply Z.ltb_lt in H as ->.
  - apply Z.ltb_ge in H as ->. by rewrite orb_true_r.
Qed.

(** a torn record whose declared payload is longer than the whole file is taken
    for corruption: the scan fails and loses the intact records before it as well (the caller
    quarantines the file), although an incomplete final record should only be truncated. *)
Theorem recoverFile_rejects_torn_large_record rs contents h payload p q :
  encode_records marshal_header rs = Ok contents -> Forall (fun r => writable (fst r) (snd r)) rs ->
  encodeRecord h payload = Ok (p ++ q) -> q <> [] ->
  17 <= len p -> len (contents ++ p) < len payload ->
  recoverFile (contents ++ p) = Err ErrCorruptRecord.
Proof.
  intros Hc Hw He Hq Hp Hlen.
  rewrite (recover_loop_torn _ _ _ _ _ _ Hc Hw He) by (destruct p; done).
  apply Z.ltb_ge in Hp as ->. by apply Z.ltb_lt in Hlen as ->.
Qed.

Lemma scan_record_size total rest item size :
  Forall is_byte rest -> scan_record total rest = ScanRecord item size -> 21 <= size <= len rest.
Proof.
  intros Hb Hs. unfold SpoolCodec.scan_record in Hs. run Hs. bool_simpl.
  assert (0 <= be_value (take 4 (drop 5 rest)) /\ 0 <= be_value (take 8 (drop 9 rest))) as [? ?]
    by (split; apply be_value_nonneg, Forall_take, Forall_drop, Hb).
  lia.
Qed.

(** A record read at the head of [rest] is read again from any prefix that contains it. *)
Lemma scan_record_prefix total total' rest n item size :
  Forall is_byte rest -> scan_record total rest = ScanRecord item size ->
  size <= Z.of_nat n -> size <= total' -> scan_record total' (take n rest) = ScanRecord item size.
Proof.
  intros Hb Hs Hn Ht. pose proof (scan_record_size _ _ _ _ Hb Hs) as Hsz.
  unfold SpoolCodec.scan_record in Hs |- *. run Hs. bool_simpl.
  set (hl := be_value (take 4 (drop 5 rest))) in *. set (pl := be_value (take 8 (drop 9 rest))) in *.
  assert (0 <= hl /\ 0 <= pl) as [? ?] by (split; apply be_value_nonneg, Forall_take, Forall_drop, Hb).
  assert (Hpre : forall a b, (a + b <= n)%nat -> take b (drop a (take n rest)) = take b (drop a rest)).
  { intros a b Hab. rewrite skipn_firstn_comm, take_take. f_equal. lia. }
  assert (Hlen : len (take n rest) = Z.min (Z.of_nat n) (len rest)) by (unfold len; rewrite length_take; lia).
  pose proof (Hpre 0%nat 4%nat ltac:(lia)) as F1. rewrite !drop_0 in F1.
  rewrite F1, (Hpre 4%nat 1%nat), (Hpre 5%nat 4%nat), (Hpre 9%nat 8%nat) by lia. fold hl pl.
  rewrite (Hpre 17%nat (Z.to_nat hl)), (Hpre (Z.to_nat (17 + hl + pl + 4 - 4)) 4%nat) by lia.
  replace (take (Z.to_nat (17 + hl + pl + 4 - 4)) (take n rest)) with (take (Z.to_nat (17 + hl + pl + 4 - 4)) rest)
    by (rewrite take_take; f_equal; lia).
  rewrite !bool_decide_true by done. cbn [negb orb].
  replace (len (take n rest) <? 17) with false by (symmetry; apply Z.ltb_ge; lia).
  replace (maxHeaderBytes <? hl) with false by (symmetry; apply Z.ltb_ge; lia).
  replace (total' <? pl) with false by (symmetry; apply Z.ltb_ge; lia). cbn [orb].
  replace (len (take n rest) <? 17 + hl + pl + 4) with false by (symmetry; apply Z.ltb_ge; lia).
  match goal with H : crc32c _ = _ |- _ => rewrite H end. rewrite Z.eqb_refl. cbn [negb].
  by repeat match goal with H : _ = Some _ |- _ => rewrite H; clear H end.
Qed.

(** The bytes the recovered records occupy. *)
Definition occupied (items : list entry) : Z := foldr (fun e n => e_bytes e + n) 0 items.

Lemma scan_record_bytes total rest item size : scan_record total rest = ScanRecord item size -> e_bytes item = size.
Proof. unfold SpoolCodec.scan_record. intros H. by run H. Qed.

Lemma recover_loop_tiles fuel total offset rest :
  Forall is_byte rest -> (length rest < fuel)%nat ->
  match recover_loop fuel total offset rest with
  | Ok (items, cut) =>
      0 <= occupied items <= len rest
      /\ cut = (if occupied items =? len rest then None else Some (offset + occupied items))
      /\ forall fuel' total' offset', (Z.to_nat (occupied items) < fuel')%nat -> occupied items <= total' ->
           recover_loop fuel' total' offset' (take (Z.to_nat (occupied items)) rest) = Ok (items, None)
  | Err x => x = ErrCorruptRecord
  end.
Proof.
  revert offset rest. induction fuel as [|fuel IH]; intros offset rest Hb Hf; [lia|]. cbn [SpoolCodec.recover_loop].
  destruct rest as [|x rest].
  { split; [unfold occupied, len; cbn [foldr]; lia|]. split; [done|]. intros [] total' offset' Hf' _; [lia|done]. }
  set (r := x :: rest) in *.
  destruct (scan_record total r) as [| |item size] eqn:Hs; [|done|].
  { split; [unfold occupied, len; cbn [foldr]; lia|]. split; [cbn; by rewrite Z.add_0_r|]. intros [] total' offset' Hf' _; [lia|done]. }
  pose proof (scan_record_size _ _ _ _ Hb Hs) as Hsz. pose proof (scan_record_bytes _ _ _ _ Hs) as Hbytes.
  assert (Hlen : len (drop (Z.to_nat size) r) = len r - size) by (unfold len in *; rewrite length_drop; lia).
  specialize (IH (offset + size) (drop (Z.to_nat size) r) ltac:(by apply Forall_drop) ltac:(unfold len in *; lia)).
  destruct (recover_loop fuel total (offset + size) _) as [[items cut]|]; [|done].
  destruct IH as (Hocc & Hcut & IH). cbn [occupied foldr]. fold (occupied items). rewrite Hlen in *. rewrite Hbytes.
  split; [lia|split].
  - rewrite Hcut. replace (occupied items =? len r - size) with (size + occupied items =? len r) by lia.
    by rewrite Z.add_assoc.
  - intros [|fuel'] total' offset' Hf' Ht; [lia|]. cbn [SpoolCodec.recover_loop].
    rewrite recover_step_nonempty by (intros E%(f_equal length); rewrite length_take in E; unfold len in *; cbn [length] in E; lia).
    rewrite (scan_record_prefix total total' r _ item size Hb Hs) by lia.
    rewrite skipn_firstn_comm.
    replace (Z.to_nat (size + occupied items) - Z.to_nat size)%nat with (Z.to_nat (occupied items)) by lia.
    by rewrite IH by lia.
Qed.

(** C28: recovery of arbitrary bytes ends: it reports corruption, or its records tile a prefix of the file,
    the rest is cut off, and a second recovery of what is left returns the same records and cuts nothing. *)
Theorem recoverFile_is_total_and_idempotent contents :
  Forall is_byte contents ->
  match recoverFile contents with
  | Ok (items, cut) =>
      0 <= occupied items <= len contents
      /\ cut = (if occupied items =? len contents then None else Some (occupied items))
      /\ recoverFile (take (Z.to_nat (occupied items)) contents) = Ok (items, None)
  | Err x => x = ErrCorruptRecord
  end.
Proof.
  intros Hb. unfold SpoolCodec.recoverFile.
  pose proof (recover_loop_tiles (S (length contents)) (len contents) 0 contents Hb ltac:(lia)) as H.
  destruct (recover_loop _ _ _ contents) as [[items cut]|]; [|done].
  destruct H as (Hocc & Hcut & H). split; [done|]. split; [done|].
  apply H; [rewrite length_take; unfold len in *; lia|unfold len in *; rewrite length_take; lia].
Qed.

End CodecFacts.

(** ** A concrete header codec, and the properties at concrete segments *)

Module TableCodec.

Section Table.
Context {A : Type} `{EqDecision A} (table : list A).

(** A codec for a finite list of values: each is written as its number in two bytes. *)
Definition marshal (a : A) : option (list Z) :=
  (fun p => be_bytes 2 (Z.of_nat (fst p))) <$> list_find (fun x => x = a) table.
Definition unmarshal (l : list Z) : option A := table !! Z.to_nat (be_value l).

Lemma roundtrip a b : (length table <= 256)%nat -> marshal a = Some b -> unmarshal b = Some a.
Proof.
  unfold marshal, unmarshal. intros Hlen H. apply fmap_Some in H as ([i x] & Hf & ->).
  apply list_find_Some in Hf as (Hi & -> & _). cbn [fst]. pose proof (lookup_lt_Some _ _ _ Hi) as Hlt.
  rewrite be_value_bytes by (change (256 ^ Z.of_nat 2) with 65536; lia). by rewrite Nat2Z.id.
Qed.

Lemma encoded_bytes a b : marshal a = Some b -> Forall is_byte b.
Proof. unfold marshal. intros H. apply fmap_Some in H as (p & _ & ->). apply be_bytes_bytes. Qed.
End Table.

End TableCodec.

#[global] Instance cursor_eq_dec : EqDecision persistedCursorReceipt.
Proof. solve_decision. Defined.

#[global] Instance header_eq_dec : EqDecision recordHeader.
Proof. solve_decision. Defined.

Module Demo.

Definition cursor : persistedCursorReceipt :=
  {| p_Version := 1; p_Key := cursor_key "a" 7 "t" "i"; p_AssignmentID := "a"; p_ConfigurationRevision := 7;
     p_TemplateID := "t"; p_InstanceID := "i"; p_Sequence := 3; p_Digest := replicate 32 5;
     p_CollectedAt := Time 10 true; p_ACKPending := true |}.
Definition header (n : Z) (c : option persistedCursorReceipt) : recordHeader :=
  {| h_ID := "b" +:+ format_uint n; h_SourceID := "host"; h_CreatedAt := Time 9 true; h_Priority := 1;
     h_Checksum := 77; h_Class := Metric; h_Sequence := n; h_Cursor := c |}.

Definition table : list recordHeader := [header 1 None; header 2 (Some cursor); header 3 None].
Definition marshal : recordHeader -> option (list Z) := TableCodec.marshal table.
Definition unmarshal : list Z -> option recordHeader := TableCodec.unmarshal table.

Lemma demo_header_roundtrip h b : plain_header h -> marshal h = Some b -> unmarshal b = Some h.
Proof. intros _. apply TableCodec.roundtrip. cbn. lia. Qed.

Lemma demo_header_bytes h b : marshal h = Some b -> Forall is_byte b.
Proof. apply TableCodec.encoded_bytes. Qed.

Definition records : list (recordHeader * list Z) := [(header 1 None, [1; 2; 3]); (header 2 (Some cursor), [])].
Definition contents : list Z := match encode_records marshal records with Ok c => c | Err _ => [] end.
(** The third record, with a payload of [n] bytes, and the part of it that reached the file. *)
Definition third (n : nat) : list Z :=
  match encodeRecord marshal (header 3 None) (replicate n 0) with Ok c => c | Err _ => [] end.

End Demo.

Lemma demo_records_writable : Forall (fun r => writable (fst r) (snd r)) Demo.records.
Proof.
  unfold Demo.records, writable, plain_header, plain_cursor, ascii_string, is_byte.
  repeat (apply Forall_cons; split); [..|constructor];
    (split_and!; cbn [fst snd Demo.header Demo.cursor h_Cursor h_ID h_SourceID h_CreatedAt h_Priority h_Checksum h_Class h_Sequence]); split_and?;
    try (vm_compute; done).
  all: try (apply (bool_decide_eq_true_1 (Forall _ _)); vm_compute; reflexivity).
  all: try (vm_compute; split; congruence).
Qed.

Lemma demo_segment : encode_records Demo.marshal Demo.records = Ok Demo.contents.
Proof. vm_compute. reflexivity. Qed.

Lemma recoverFile_reads_back_segments_witness :
  recoverFile Demo.unmarshal Demo.contents = Ok (map (recovered Demo.marshal) Demo.records, None)
  /\ length (map (recovered Demo.marshal) Demo.records) = 2%nat.
Proof.
  split; [|reflexivity].
  apply (recoverFile_reads_back_segments _ _ Demo.demo_header_roundtrip Demo.demo_header_bytes).
  - exact demo_segment.
  - exact demo_records_writable.
Defined.

(** A torn third record of 40 payload bytes: 30 of its bytes reached the file. *)
Lemma recoverFile_truncates_torn_tail_witness :
  recoverFile Demo.unmarshal (Demo.contents ++ take 30 (Demo.third 40))
  = Ok (map (recovered Demo.marshal) Demo.records, Some (len Demo.contents)) /\ 30 < len (Demo.third 40).
Proof.
  split; [|vm_compute; reflexivity].
  apply (recoverFile_truncates_torn_tail _ _ Demo.demo_header_roundtrip Demo.demo_header_bytes _ _
           (Demo.header 3 None) (replicate 40 0) _ (drop 30 (Demo.third 40))).
  - exact demo_segment.
  - exact demo_records_writable.
  - rewrite take_drop. vm_compute. reflexivity.
  - vm_compute. discriminate.
  - vm_compute. discriminate.
  - right. vm_compute. discriminate.
Defined.

(** The same with 240 payload bytes: the two intact records are lost. *)
Lemma recoverFile_rejects_torn_large_record_witness :
  recoverFile Demo.unmarshal (Demo.contents ++ take 30 (Demo.third 240)) = Err ErrCorruptRecord
  /\ recoverFile Demo.unmarshal Demo.contents = Ok (map (recovered Demo.marshal) Demo.records, None).
Proof.
  split; [|vm_compute; reflexivity].
  apply (recoverFile_rejects_torn_large_record _ _ Demo.demo_header_roundtrip Demo.demo_header_bytes Demo.records _
           (Demo.header 3 None) (replicate 240 0) _ (drop 30 (Demo.third 240))).
  - exact demo_segment.
  - exact demo_records_writable.
  - rewrite take_drop. vm_compute. reflexivity.
  - vm_compute. discriminate.
  - vm_compute. discriminate.
  - vm_compute. reflexivity.
Defined.

Lemma recoverFile_is_total_and_idempotent_witness :
  match recoverFile Demo.unmarshal (Demo.contents ++ [68; 66; 80]) with
  | Ok (items, cut) => cut = Some (occupied items)
      /\ recoverFile Demo.unmarshal (take (Z.to_nat (occupied items)) (Demo.contents ++ [68; 66; 80])) = Ok (items, None)
  | Err _ => False
  end.
Proof.
  pose proof (recoverFile_is_total_and_idempotent Demo.unmarshal (Demo.contents ++ [68; 66; 80])) as H.
  destruct (recoverFile Demo.unmarshal (Demo.contents ++ [68; 66; 80])) as [[items cut]|x] eqn:E.
  - destruct H as (_ & Hcut & Hagain).
    { apply (bool_decide_eq_true_1 (Forall (fun z => 0 <= z < 256) _)). vm_compute. reflexivity. }
    split; [|exact Hagain]. rewrite Hcut. vm_compute in E. injection E as <- <-. vm_compute. reflexivity.
  - vm_compute in E. discriminate.
Defined.
