(* ===== verification/SpoolStore.v ===== *)
(** * The durable telemetry spool

    Translation of [backend/internal/spool/segments.go] and [state.go]: the pending entries in memory,
    the segment files, the bbolt buckets, and every operation of [Store] on them.

    The world is passed explicitly.  Each file-system or database call takes one outcome from
    [faults]: a failure surfaces as the code's error return, with the effects the code had before it;
    an empty list means that everything succeeds.  Maps are iterated in Go in an arbitrary order:
    where the order can be observed ([recover]) it is an argument. *)

From stdpp Require Import pretty.
From S2P Require Import Prelude SpoolCodec.

Local Open Scope Z_scope.

(** ** State *)

Record Limits := { MaxBytes : Z; SegmentBytes : Z }.

(** The fields of [Store]; [open] is [s.db != nil]. *)
Record Store := {
  limits : Limits;
  open : bool;
  nextSeq : Z;
  entries : DataClass -> list entry;
  findings : gset string;
  activeFile : string;
  activeSize : Z
}.

(** The bbolt buckets. *)
Record Buckets := {
  policy_state : gmap string (list Z);
  checkpoints : gmap string (list Z);
  segment_index : gmap string string;
  dedup : gmap string string;
  cursor_receipts : gmap string (list Z)
}.

(** Outcome of one I/O call: success, or a failure after [n] bytes of a write. *)
Inductive outcome := Works | Fails (written : nat).

Record World := {
  store : Store;
  segments : gmap string (list Z);
  quarantine : gmap string (list Z);
  buckets : Buckets;
  faults : list outcome
}.

Definition M (A : Type) : Type := World -> result SpoolError A * World.

Definition ret {A} (a : A) : M A := fun w => (Ok a, w).
Definition fail {A} (e : SpoolError) : M A := fun w => (Err e, w).
Definition bind {A B} (m : M A) (k : A -> M B) : M B := fun w =>
  match m w with (Ok a, w') => k a w' | (Err e, w') => (Err e, w') end.
Definition get {A} (f : World -> A) : M A := fun w => (Ok (f w), w).
Definition put (f : World -> World) : M unit := fun w => (Ok tt, f w).
(** Run [f] when [m] fails, and fail with the same error. *)
Definition on_error {A} (f : SpoolError -> World -> World) (m : M A) : M A := fun w =>
  match m w with (Ok a, w') => (Ok a, w') | (Err e, w') => (Err e, f e w') end.

Declare Scope spool_scope.
Delimit Scope spool_scope with spool.
Local Open Scope spool_scope.
Notation "x <- m ;; k" := (bind m (fun x => k)) (at level 100, m at next level, right associativity) : spool_scope.
Notation "m ;;; k" := (bind m (fun _ => k)) (at level 100, right associativity) : spool_scope.

(** ** Field updates *)

Definition set_store (f : Store -> Store) (w : World) : World :=
  {| store := f (store w); segments := segments w; quarantine := quarantine w; buckets := buckets w; faults := faults w |}.
Definition set_segments (f : gmap string (list Z) -> gmap string (list Z)) (w : World) : World :=
  {| store := store w; segments := f (segments w); quarantine := quarantine w; buckets := buckets w; faults := faults w |}.
Definition set_buckets (f : Buckets -> Buckets) (w : World) : World :=
  {| store := store w; segments := segments w; quarantine := quarantine w; buckets := f (buckets w); faults := faults w |}.
Definition set_entries (f : DataClass -> list entry) (s : Store) : Store :=
  {| limits := limits s; open := open s; nextSeq := nextSeq s; entries := f; findings := findings s;
     activeFile := activeFile s; activeSize := activeSize s |}.
Definition set_active (file : string) (size : Z) (s : Store) : Store :=
  {| limits := limits s; open := open s; nextSeq := nextSeq s; entries := entries s; findings := findings s;
     activeFile := file; activeSize := size |}.
Definition set_nextSeq (n : Z) (s : Store) : Store :=
  {| limits := limits s; open := open s; nextSeq := n; entries := entries s; findings := findings s;
     activeFile := activeFile s; activeSize := activeSize s |}.
Definition set_open (b : bool) (s : Store) : Store :=
  {| limits := limits s; open := b; nextSeq := nextSeq s; entries := entries s; findings := findings s;
     activeFile := activeFile s; activeSize := activeSize s |}.
Definition add_finding (code : string) (s : Store) : Store :=
  {| limits := limits s; open := open s; nextSeq := nextSeq s; entries := entries s; findings := {[code]} ∪ findings s;
     activeFile := activeFile s; activeSize := activeSize s |}.
Definition set_indexes (index dups : gmap string string) (b : Buckets) : Buckets :=
  {| policy_state := policy_state b; checkpoints := checkpoints b; segment_index := index; dedup := dups;
     cursor_receipts := cursor_receipts b |}.
Definition set_cursors (c : gmap string (list Z)) (b : Buckets) : Buckets :=
  {| policy_state := policy_state b; checkpoints := checkpoints b; segment_index := segment_index b; dedup := dedup b;
     cursor_receipts := c |}.
Definition set_checkpoints (c : gmap string (list Z)) (b : Buckets) : Buckets :=
  {| policy_state := policy_state b; checkpoints := c; segment_index := segment_index b; dedup := dedup b;
     cursor_receipts := cursor_receipts b |}.
Definition set_policy (p : gmap string (list Z)) (b : Buckets) : Buckets :=
  {| policy_state := p; checkpoints := checkpoints b; segment_index := segment_index b; dedup := dedup b;
     cursor_receipts := cursor_receipts b |}.

(** One I/O call: [ok] is its effect, [part n] what a failure leaves behind. *)
Definition io_partial (ok : World -> World) (part : nat -> World -> World) : M unit := fun w =>
  let w' r := {| store := store w; segments := segments w; quarantine := quarantine w; buckets := buckets w; faults := r |} in
  match faults w with
  | [] => (Ok tt, ok w)
  | Works :: r => (Ok tt, ok (w' r))
  | Fails n :: r => (Err ErrIO, part n (w' r))
  end.
Definition io (ok : World -> World) : M unit := io_partial ok (fun _ w => w).

(** ** Names and keys *)

Definition class_name (c : DataClass) : string :=
  match c with Log => "LOG" | AuditLog => "AUDIT_LOG" | Metric => "METRIC" | JobResult => "JOB_RESULT" | ClassOther s => s end.
(** [fmt.Sprintf("%020d", sequence)] *)
Definition zeros (n : nat) : string := Nat.iter n (fun s => String (Ascii.ascii_of_N 48) s) EmptyString.
Definition sequenceKey (sequence : Z) : string :=
  let d := format_uint sequence in (zeros (20 - String.length d) +:+ d)%string.
Definition dedupKey (class : DataClass) (id : string) : string := (class_name class +:+ nul +:+ id)%string.
Definition active_open : string := "active.open".
Definition seg_suffix : string := ".seg".
Definition sealed_name (first : Z) : string := (sequenceKey first +:+ seg_suffix)%string.
Definition FindingAuditSpoolFull : string := "AUDIT_SPOOL_FULL".
Definition FindingAuditSpoolIOFailure : string := "AUDIT_SPOOL_IO_FAILURE".
Definition FindingCorruptSegment : string := "CORRUPT_SEGMENT".

(** ** The pending entries *)

Definition classes : list DataClass := [Log; AuditLog; Metric; JobResult].
Definition all_entries (s : Store) : list entry := classes ≫= entries s.
Definition update_class (f : DataClass -> list entry) (c : DataClass) (l : list entry) : DataClass -> list entry :=
  fun c' => if bool_decide (c' = c) then l else f c'.

Definition usedBytes (s : Store) : Z := int64 (occupied (all_entries s)).

Definition entry_id (e : entry) : string := b_ID (e_batch e).
Definition find_entry (s : Store) (class : DataClass) (id : string) : option (nat * entry) :=
  list_find (fun e => entry_id e = id) (entries s class).
(** The entries after [remove]. *)
Definition remove (s : Store) (class : DataClass) (id : string) : DataClass -> list entry :=
  match find_entry s class id with
  | None => entries s
  | Some (i, _) => update_class (entries s) class (delete i (entries s class))
  end.
(** What the pointer [item] to slot [i] reads after [remove] shifted the slice in place: the
    next entry, or [item] itself in the last slot. *)
Definition item_after_remove (s : Store) (class : DataClass) (i : nat) (item : entry) : entry :=
  match entries s class !! S i with Some next => next | None => item end.

Definition seq_le (a b : entry) : Prop := e_sequence a <= e_sequence b.
#[global] Instance seq_le_dec : RelDecision seq_le.
Proof. intros a b. unfold seq_le. apply _. Defined.
Definition by_sequence (l : list entry) : list entry := merge_sort seq_le l.

Definition cheaper (a b : entry) : Prop :=
  b_Priority (e_batch a) < b_Priority (e_batch b)
  \/ b_Priority (e_batch a) = b_Priority (e_batch b) /\ e_sequence a <= e_sequence b.
#[global] Instance cheaper_dec : RelDecision cheaper.
Proof. intros a b. unfold cheaper. apply _. Defined.

Fixpoint evict_from (s : Store) (order : list DataClass) : option entry :=
  match order with
  | [] => None
  | c :: rest => match entries s c with [] => evict_from s rest | l => head (merge_sort cheaper l) end
  end.
Definition evictionCandidate (s : Store) : option entry := evict_from s [Metric; Log; JobResult].

Definition activeContainsAudit (s : Store) : bool :=
  existsb (fun e => bool_decide (e_file e = activeFile s)) (entries s AuditLog).

Definition header_of (e : entry) : recordHeader :=
  {| h_ID := b_ID (e_batch e); h_SourceID := b_SourceID (e_batch e); h_CreatedAt := UTC (b_CreatedAt (e_batch e));
     h_Priority := b_Priority (e_batch e); h_Checksum := b_Checksum (e_batch e); h_Class := e_class e;
     h_Sequence := e_sequence e; h_Cursor := clonePersistedCursor <$> e_cursor e |}.
Definition record_of (e : entry) : recordHeader * list Z := (header_of e, b_Payload (e_batch e)).

Definition set_file (f : string) (e : entry) : entry :=
  {| e_batch := e_batch e; e_class := e_class e; e_sequence := e_sequence e; e_file := f; e_bytes := e_bytes e;
     e_cursor := e_cursor e |}.

(** [auditIOFailure] *)
Definition auditIOFailure {A} (class : DataClass) (m : M A) : M A :=
  on_error (fun e w =>
    if bool_decide (class = AuditLog) && negb (match e with ErrAuditCapacity => true | _ => false end)
    then set_store (add_finding FindingAuditSpoolIOFailure) w else w) m.

Section Operations.

Context (marshal_header : recordHeader -> option (list Z)).
Context (unmarshal_header : list Z -> option recordHeader).
Context (marshal_cursor : persistedCursorReceipt -> option (list Z)).
Context (unmarshal_cursor : list Z -> option persistedCursorReceipt).
Context (sha256 : list Z -> list Z).

(** ** Receipts in the bucket *)

Definition loadCursorReceiptTx (b : Buckets) (key : string) : result SpoolError (option persistedCursorReceipt) :=
  match cursor_receipts b !! key with
  | None => Ok None
  | Some encoded =>
      match unmarshal_cursor encoded with
      | None => Err ErrCursorConflict
      | Some v => match validPersistedCursorReceipt v with
                  | None => Err ErrCursorConflict
                  | Some v' => Ok (Some (clonePersistedCursor v'))
                  end
      end
  end.
(** [db.View] fails when the database does *)
Definition loadCursorReceipt (key : string) : M (option persistedCursorReceipt) :=
  io (fun w => w) ;;; fun w => (loadCursorReceiptTx (buckets w) key, w).

(** ** Segments *)

(** The lowest sequence in the active file, 0 when it holds none. *)
Definition first_active (s : Store) : Z :=
  foldl (fun first e => if bool_decide (e_file e = activeFile s) && ((first =? 0) || (e_sequence e <? first))
                        then e_sequence e else first) 0 (all_entries s).

Definition sealActive : M unit :=
  s <- get store ;;
  if empty_string (activeFile s) then ret tt
  else
    let first := first_active s in
    if first =? 0 then
      io (set_segments (base.delete (activeFile s))) ;;;
      put (set_store (set_active EmptyString 0))
    else
      let sealed := sealed_name first in
      content <- get (fun w => segments w !! activeFile s) ;;
      match content with
      | None => io (fun w => w) ;;; fail ErrIO   (* os.Rename of a missing file *)
      | Some bytes =>
          io (set_segments (fun d => <[sealed := bytes]> (base.delete (activeFile s) d))) ;;;
          io (fun w => w) ;;;
          io (set_buckets (fun b => set_indexes
                (foldl (fun m e => if bool_decide (e_file e = activeFile s) then <[sequenceKey (e_sequence e) := sealed]> m else m)
                   (segment_index b) (all_entries s)) (dedup b) b)) ;;;
          put (set_store (fun s => set_active EmptyString 0
                (set_entries (fun c => (fun e => if bool_decide (e_file e = activeFile s) then set_file sealed e else e) <$> entries s c) s)))
      end.

(** [atomicReplace] off Windows: the temporary file is created, restricted, written, synced and closed,
    then renamed over the target, then the directory is synced. *)
Definition atomicReplace (file : string) (contents : list Z) : M unit :=
  io (fun w => w) ;;; io (fun w => w) ;;; io (fun w => w) ;;; io (fun w => w) ;;; io (fun w => w) ;;;
  io (set_segments <[file := contents]>) ;;;
  io (fun w => w).

Definition rewriteWithout (exclude : entry) : M Z :=
  s <- get store ;;
  let remaining := by_sequence (filter (fun e => e_file e = e_file exclude /\ e_sequence e <> e_sequence exclude) (all_entries s)) in
  match remaining with
  | [] => io (set_segments (base.delete (e_file exclude))) ;;; ret 0
  | _ =>
      match encode_records marshal_header (record_of <$> remaining) with
      | Err x => fail x
      | Ok contents => atomicReplace (e_file exclude) contents ;;; ret (len contents)
      end
  end.

(** The common part of [Ack] and [delete], from [find] to the update of the active size. *)
Definition remove_entry (class : DataClass) (id : string) : M unit :=
  s <- get store ;;
  match find_entry s class id with
  | None => ret tt
  | Some (i, item) =>
      size <- rewriteWithout item ;;
      io (set_buckets (fun b => set_indexes (base.delete (sequenceKey (e_sequence item)) (segment_index b))
                                            (base.delete (dedupKey class id) (dedup b)) b)) ;;;
      put (set_store (fun s => set_entries (remove s class id) s)) ;;;
      if bool_decide (e_file (item_after_remove s class i item) = activeFile s)
      then put (set_store (set_active (if size =? 0 then EmptyString else activeFile s) size))
      else ret tt
  end.

Definition Ack (cancelled : bool) (class : DataClass) (batchID : string) : M unit :=
  if cancelled then fail ErrContext
  else if negb (validClass class) || empty_string batchID then fail ErrInvalidRequest
  else s <- get store ;;
  if negb (open s) then fail ErrClosed
  else auditIOFailure class (remove_entry class batchID).

Definition delete_entry (class : DataClass) (id : string) : M unit := remove_entry class id.

Fixpoint makeCapacity_loop (fuel : nat) (newClass : DataClass) (needed : Z) : M unit :=
  match fuel with
  | O => fail ErrFuel
  | S fuel' =>
      s <- get store ;;
      if MaxBytes (limits s) <? int64 (usedBytes s + needed) then
        match evictionCandidate s with
        | None =>
            if bool_decide (newClass = AuditLog)
            then put (set_store (add_finding FindingAuditSpoolFull)) ;;; fail ErrAuditCapacity
            else fail ErrCapacity
        | Some candidate =>
            delete_entry (e_class candidate) (entry_id candidate) ;;;
            makeCapacity_loop fuel' newClass needed
        end
      else ret tt
  end.
(** Every round removes an entry, so one more round than entries is enough. *)
Definition makeCapacity (newClass : DataClass) (needed : Z) : M unit :=
  s <- get store ;;
  makeCapacity_loop (S (length (all_entries s))) newClass needed.

(** ** Append *)

Inductive CursorAppendResult := CursorAppendStored | CursorAppendDuplicate.

(** The cursor fence of [append]: [None] lets the append go on. *)
Definition cursor_fence (receipt : option persistedCursorReceipt) : M (option CursorAppendResult) :=
  match receipt with
  | None => ret None
  | Some r =>
      current <- loadCursorReceipt (p_Key r) ;;
      match current with
      | None => ret None
      | Some c =>
          if p_ACKPending c && (p_Sequence c <? p_Sequence r) then fail ErrCursorACKPending
          else if (p_Sequence r <? p_Sequence c)
               || ((p_Sequence r =? p_Sequence c)
                   && (negb (bool_decide (p_Digest r = p_Digest c)) || negb (TimeEqual (p_CollectedAt r) (p_CollectedAt c))))
               || ((p_Sequence c <? p_Sequence r) && Before (p_CollectedAt r) (p_CollectedAt c))
          then fail ErrCursorConflict
          else if p_Sequence r =? p_Sequence c then ret (Some CursorAppendDuplicate)
          else ret None
      end
  end.

Definition append_header (class : DataClass) (batch : Batch) (sequence : Z) (receipt : option persistedCursorReceipt) : recordHeader :=
  {| h_ID := b_ID batch; h_SourceID := b_SourceID batch; h_CreatedAt := UTC (b_CreatedAt batch);
     h_Priority := b_Priority batch; h_Checksum := b_Checksum batch; h_Class := class; h_Sequence := sequence;
     h_Cursor := receipt |}.

Definition stored_batch (b : Batch) : Batch :=
  {| b_ID := b_ID b; b_SourceID := b_SourceID b; b_CreatedAt := UTC (b_CreatedAt b); b_Priority := b_Priority b;
     b_Payload := b_Payload b; b_Checksum := b_Checksum b |}.

(** The file write of [append]: open, write, sync, close; a failed write leaves a part of the record. *)
Definition write_record (file : string) (encoded : list Z) : M unit :=
  io (set_segments (fun d => <[file := default [] (d !! file)]> d)) ;;;
  io_partial (set_segments (fun d => <[file := default [] (d !! file) ++ encoded]> d))
             (fun n => set_segments (fun d => <[file := default [] (d !! file) ++ take n encoded]> d)) ;;;
  io (fun w => w) ;;;
  io (fun w => w).

(** The transaction that makes the record visible. *)
Definition index_record (class : DataClass) (id : string) (sequence : Z) (file : string) (receipt : option persistedCursorReceipt) : M unit :=
  let puts b := set_indexes (<[sequenceKey sequence := file]> (segment_index b)) (<[dedupKey class id := sequenceKey sequence]> (dedup b)) b in
  match receipt with
  | None => io (set_buckets puts)
  | Some r =>
      match marshal_cursor r with
      | None => fail ErrHeader
      | Some encoded => io (set_buckets (fun b => set_cursors (<[p_Key r := encoded]> (cursor_receipts b)) (puts b)))
      end
  end.

(** Seal a full active segment, evict, and name the active file. *)
Definition make_room (class : DataClass) (needed : Z) : M unit :=
  s <- get store ;;
  (if negb (empty_string (activeFile s)) && (0 <? activeSize s) && (SegmentBytes (limits s) <? int64 (activeSize s + needed))
   then sealActive else ret tt) ;;;
  makeCapacity class needed ;;;
  s <- get store ;;
  if empty_string (activeFile s) then put (set_store (set_active active_open 0)) else ret tt.

(** [os.Truncate]: cut off, or filled up with zeros; its failure is ignored. *)
Definition truncate_segment (file : string) (size : Z) (w : World) : World :=
  let resize c := take (Z.to_nat size) c ++ replicate (Z.to_nat size - length c) 0 in
  snd (io (set_segments (fun d => match d !! file with Some c => <[file := resize c]> d | None => d end)) w).

(** Write and index the record; when the transaction fails the file is truncated to its old size. *)
Definition write_and_index (class : DataClass) (batch : Batch) (receipt : option persistedCursorReceipt)
    (sequence : Z) (encoded : list Z) : M unit :=
  s <- get store ;;
  write_record (activeFile s) encoded ;;;
  on_error (fun _ => truncate_segment (activeFile s) (activeSize s))
    (index_record class (b_ID batch) sequence (activeFile s) receipt).

Definition store_record (class : DataClass) (batch : Batch) (receipt : option persistedCursorReceipt)
    (sequence : Z) (encoded : list Z) : M CursorAppendResult :=
  auditIOFailure class (
    make_room class (len encoded) ;;;
    write_and_index class batch receipt sequence encoded ;;;
    put (set_store (fun s =>
      let item := {| e_batch := stored_batch batch; e_class := class; e_sequence := sequence; e_file := activeFile s;
                     e_bytes := len encoded; e_cursor := clonePersistedCursor <$> receipt |} in
      set_active (activeFile s) (int64 (activeSize s + len encoded))
        (set_nextSeq sequence (set_entries (update_class (entries s) class (entries s class ++ [item])) s)))) ;;;
    s <- get store ;;
    (if SegmentBytes (limits s) <=? activeSize s then sealActive else ret tt) ;;;
    ret CursorAppendStored).

Definition append (cancelled : bool) (class : DataClass) (batch : Batch) (receipt : option persistedCursorReceipt) : M CursorAppendResult :=
  if cancelled then fail ErrContext
  else if negb (validClass class) || empty_string (b_ID batch) || empty_string (b_SourceID batch) then fail ErrInvalidBatch
  else s <- get store ;;
  if negb (open s) then fail ErrClosed
  else
    fenced <- cursor_fence receipt ;;
    match fenced with
    | Some r => ret r
    | None =>
        match find_entry s class (b_ID batch) with
        | Some _ => match receipt with Some _ => fail ErrCursorConflict | None => ret CursorAppendDuplicate end
        | None =>
            let sequence := uint64 (nextSeq s + 1) in
            match encodeRecord marshal_header (append_header class batch sequence receipt) (b_Payload batch) with
            | Err x => fail x
            | Ok encoded => store_record class batch receipt sequence encoded
            end
        end
    end.

Definition Append (cancelled : bool) (class : DataClass) (batch : Batch) : M unit :=
  append cancelled class batch None ;;; ret tt.

Definition persisted_of (r : CursorReceipt) : persistedCursorReceipt :=
  {| p_Version := 1; p_Key := c_Key r; p_AssignmentID := c_AssignmentID r;
     p_ConfigurationRevision := c_ConfigurationRevision r; p_TemplateID := c_TemplateID r;
     p_InstanceID := c_InstanceID r; p_Sequence := c_Sequence r; p_Digest := c_Digest r;
     p_CollectedAt := UTC (c_CollectedAt r); p_ACKPending := true |}.

Definition AppendWithCursor (cancelled : bool) (class : DataClass) (batch : Batch) (receipt : CursorReceipt) : M CursorAppendResult :=
  if negb (validCursorReceipt receipt) || negb (bool_decide (sha256 (b_Payload batch) = c_Digest receipt))
  then fail ErrInvalidReceipt
  else append cancelled class batch (Some (persisted_of receipt)).

(** ** Cursors *)

Definition Cursor (cancelled : bool) (key : string) : M (option CursorReceipt) :=
  if cancelled then fail ErrContext
  else if empty_string key || (1024 <? Z.of_nat (String.length key)) then fail ErrInvalidRequest
  else s <- get store ;;
  if negb (open s) then fail ErrClosed
  else value <- loadCursorReceipt key ;; ret (publicCursorReceipt <$> value).

Definition set_ack (b : bool) (c : persistedCursorReceipt) : persistedCursorReceipt :=
  {| p_Version := p_Version c; p_Key := p_Key c; p_AssignmentID := p_AssignmentID c;
     p_ConfigurationRevision := p_ConfigurationRevision c; p_TemplateID := p_TemplateID c;
     p_InstanceID := p_InstanceID c; p_Sequence := p_Sequence c; p_Digest := p_Digest c;
     p_CollectedAt := p_CollectedAt c; p_ACKPending := b |}.
Definition ack_entry (key : string) (sequence : Z) (e : entry) : entry :=
  match e_cursor e with
  | Some c => if bool_decide (p_Key c = key) && (p_Sequence c =? sequence)
              then {| e_batch := e_batch e; e_class := e_class e; e_sequence := e_sequence e; e_file := e_file e;
                      e_bytes := e_bytes e; e_cursor := Some (set_ack false c) |}
              else e
  | None => e
  end.

Definition MarkCursorAcknowledged (cancelled : bool) (key : string) (sequence : Z) : M unit :=
  if cancelled then fail ErrContext
  else if empty_string key || (sequence =? 0) then fail ErrCursorConflict
  else s <- get store ;;
  if negb (open s) then fail ErrClosed
  else fun w =>
    match loadCursorReceipt key w with
    | (Ok (Some current), w') =>
        if negb (p_Sequence current =? sequence) then (Err ErrCursorConflict, w')
        else if negb (p_ACKPending current) then (Ok tt, w')
        else match marshal_cursor (set_ack false current) with
        | None => (Err ErrHeader, w')
        | Some encoded =>
            (io (set_buckets (fun b => set_cursors (<[key := encoded]> (cursor_receipts b)) b)) ;;;
             put (set_store (fun s => set_entries (fun c => ack_entry key sequence <$> entries s c) s))) w'
        end
    | (_, w') => (Err ErrCursorConflict, w')
    end.

(** ** Reading *)

Definition Lookup (cancelled : bool) (class : DataClass) (id : string) (payload : list Z) : M (bool * bool) :=
  if cancelled then fail ErrContext
  else if negb (validClass class) || empty_string id then fail ErrInvalidRequest
  else s <- get store ;;
  if negb (open s) then fail ErrClosed
  else match find_entry s class id with
  | None => ret (false, false)
  | Some (_, item) => ret (true, bool_decide (b_Payload (e_batch item) = payload))
  end.

Definition Pending (cancelled : bool) (class : DataClass) (limit : Z) : M (list Batch) :=
  if cancelled then fail ErrContext
  else if negb (validClass class) || (limit <? 0) then fail ErrInvalidRequest
  else s <- get store ;;
  if negb (open s) then fail ErrClosed
  else
    let items := entries s class in
    let n := if (limit =? 0) || (Z.of_nat (length items) <? limit) then length items else Z.to_nat limit in
    ret (e_batch <$> take n items).

Record Stats := { UsedBytes : Z; StatsMaxBytes : Z; PendingBatches : Z }.
Definition stats : M Stats :=
  s <- get store ;;
  if negb (open s) then fail ErrClosed
  else ret {| UsedBytes := usedBytes s; StatsMaxBytes := MaxBytes (limits s);
              PendingBatches := Z.of_nat (length (all_entries s)) |}.

(** [sort.Strings] *)
Definition string_le (a b : string) : Prop := String.leb a b = true.
#[global] Instance string_le_dec : RelDecision string_le.
Proof. intros a b. unfold string_le. apply _. Defined.

Definition HealthFindings : M (list string) := get (fun w => merge_sort string_le (elements (findings (store w)))).
Definition RecordHealthFinding (code : string) : M unit :=
  if empty_string code then ret tt
  else put (set_store (fun s => if open s then add_finding code s else s)).

(** ** Policy and checkpoints *)

Definition update_db (f : Buckets -> Buckets) : M unit :=
  s <- get store ;; if negb (open s) then fail ErrClosed else io (set_buckets f).
Definition view_db {A} (f : Buckets -> result SpoolError A) : M A :=
  s <- get store ;; if negb (open s) then fail ErrClosed else io (fun w => w) ;;; fun w => (f (buckets w), w).

(** [json.Marshal] of the envelope, [None] when it fails *)
Definition PutPolicy (envelope : option (list Z)) : M unit :=
  match envelope with
  | None => fail ErrInvalidRequest
  | Some value => update_db (fun b => set_policy (<["active" := value]> (policy_state b)) b)
  end.
(** [json.Unmarshal] of the stored bytes is an argument. *)
Definition ActivePolicy {E} (decode : list Z -> result SpoolError E) : M E :=
  view_db (fun b => match policy_state b !! "active" with None => Err ErrNoActivePolicy | Some value => decode value end).
Definition PutCheckpoint (sourceID : string) (value : list Z) : M unit :=
  if empty_string sourceID || (Z.shiftl 1 20 <? len value) then fail ErrInvalidRequest
  else update_db (fun b => set_checkpoints (<[sourceID := value]> (checkpoints b)) b).
Definition Checkpoint (sourceID : string) : M (list Z) :=
  view_db (fun b => match checkpoints b !! sourceID with None => Err ErrNoCheckpoint | Some value => Ok value end).

(** The read-only count of the durable index. *)
Definition PendingBatchCount (w : World) : nat := size (segment_index (buckets w)).

(** ** Sealing and closing *)

Definition Seal : M unit :=
  s <- get store ;; if negb (open s) then fail ErrClosed else sealActive.

(** The finding [Close] records for a failed step when the active segment held audit records. *)
Definition note_failure (hadAuditActive : bool) (r : result SpoolError unit) (w : World) : World :=
  match r with
  | Ok _ => w
  | Err _ => if hadAuditActive then set_store (add_finding FindingAuditSpoolIOFailure) w else w
  end.

Definition Close : M unit :=
  s <- get store ;;
  if negb (open s) then ret tt
  else fun w =>
    let hadAuditActive := activeContainsAudit s in
    let (sealed, w1) := sealActive w in
    let (closed, w2) := io (fun w => w) (note_failure hadAuditActive sealed w1) in
    (match sealed with Err e => Err e | Ok _ => closed end,
     note_failure hadAuditActive closed (set_store (set_open false) w2)).

(** ** Recovery *)

(** The files of the segment directory in scan order: [*.seg] sorted, then the active file. *)
Fixpoint ends_with (suffix s : string) : bool :=
  bool_decide (s = suffix) || match s with EmptyString => false | String _ rest => ends_with suffix rest end.
Definition recovery_order (d : gmap string (list Z)) : list string :=
  merge_sort string_le (filter (fun f => ends_with seg_suffix f = true) (map fst (map_to_list d)))
  ++ (if bool_decide (is_Some (d !! active_open)) then [active_open] else []).

(** [quarantineFile]; [now] is [time.Now().UnixNano()] *)
Fixpoint trim_seg (name : string) : string :=
  if bool_decide (name = seg_suffix) then EmptyString
  else match name with EmptyString => EmptyString | String a rest => String a (trim_seg rest) end.
Definition quarantineFile (now : Z) (name : string) : M unit :=
  io (fun w =>
    let target := match quarantine w !! name with
                  | Some _ => (trim_seg name +:+ "-" +:+ pretty now +:+ seg_suffix)%string
                  | None => name end in
    {| store := store w; segments := base.delete name (segments w);
       quarantine := <[target := default [] (segments w !! name)]> (quarantine w); buckets := buckets w; faults := faults w |}).

(** The scan of the files; [errors.Is(err, errCorruptRecord)] quarantines the file. *)
Fixpoint scan_files (now : Z) (files : list string) (loaded : list entry) : M (list entry) :=
  match files with
  | [] => ret loaded
  | f :: rest =>
      io (fun w => w) ;;;
      contents <- get (fun w => default [] (segments w !! f)) ;;
      match recoverFile unmarshal_header contents with
      | Err ErrCorruptRecord =>
          quarantineFile now f ;;;
          put (set_store (add_finding FindingCorruptSegment)) ;;;
          scan_files now rest loaded
      | Err x => fail x
      | Ok (items, cut) =>
          match cut with
          | None => ret tt
          | Some n => io (set_segments <[f := take (Z.to_nat n) contents]>)
          end ;;;
          scan_files now rest (loaded ++ (set_file f <$> items))
      end
  end.

(** The cursor check of one recovered item in the rebuild transaction. *)
Definition recover_cursor (e : entry) (b : Buckets) : result SpoolError Buckets :=
  match e_cursor e with
  | None => Ok b
  | Some c =>
      match loadCursorReceiptTx b (p_Key c) with
      | Err x => Err x
      | Ok current =>
          let conflict := match current with
            | None => false
            | Some cur => (p_Sequence c <? p_Sequence cur)
                || ((p_Sequence c =? p_Sequence cur)
                    && (negb (bool_decide (p_Digest c = p_Digest cur)) || negb (TimeEqual (p_CollectedAt c) (p_CollectedAt cur)))) end in
          let newer := match current with None => true | Some cur => p_Sequence cur <? p_Sequence c end in
          if conflict then Err ErrCursorConflict
          else if newer then
            match marshal_cursor c with
            | None => Err ErrHeader
            | Some encoded => Ok (set_cursors (<[p_Key c := encoded]> (cursor_receipts b)) b)
            end
          else Ok b
      end
  end.

Fixpoint reindex (items : list entry) (b : Buckets) : result SpoolError Buckets :=
  match items with
  | [] => Ok b
  | e :: rest =>
      let b' := set_indexes (<[sequenceKey (e_sequence e) := e_file e]> (segment_index b))
                            (<[dedupKey (e_class e) (entry_id e) := sequenceKey (e_sequence e)]> (dedup b)) b in
      match recover_cursor e b' with Err x => Err x | Ok b'' => reindex rest b'' end
  end.

Definition max_sequence (l : list entry) : Z :=
  foldl (fun m e => if m <? e_sequence e then e_sequence e else m) 0 l.

Definition of_class (c : DataClass) (l : list entry) : list entry := filter (fun e => e_class e = c) l.

(** [recover]; [order] is the order in which the transaction visits the classes. *)
Definition recover (now : Z) (order : list DataClass) : M unit :=
  files <- get (fun w => recovery_order (segments w)) ;;
  loaded <- scan_files now files [] ;;
  put (set_store (fun s => set_nextSeq (max_sequence loaded) (set_entries (fun c => by_sequence (of_class c loaded)) s))) ;;;
  put (fun w => match segments w !! active_open with
                | Some c => set_store (set_active active_open (len c)) w
                | None => w end) ;;;
  s <- get store ;;
  fun w =>
    match reindex (order ≫= entries s) (set_indexes ∅ ∅ (buckets w)) with
    | Err x => (Err x, w)
    | Ok b => io (set_buckets (fun _ => b)) w
    end.

(** [Open] once the directories exist: the database and its buckets, a fresh store, then [recover]. *)
Definition fresh_store (l : Limits) : Store :=
  {| limits := l; open := true; nextSeq := 0; entries := fun _ => []; findings := ∅; activeFile := EmptyString; activeSize := 0 |}.
Definition Open (l : Limits) (now : Z) (order : list DataClass) : M unit :=
  if (MaxBytes l <=? 0) || (SegmentBytes l <=? 0) then fail ErrInvalidRequest
  else io (fun w => w) ;;; io (fun w => w) ;;; put (set_store (fun _ => fresh_store l)) ;;; recover now order.

End Operations.

(** ** Executions

    [moves R m]: whatever the outcome of its I/O calls, [m] takes a world to an [R]-related one. *)

Definition moves (R : World -> World -> Prop) {A} (m : M A) : Prop := forall w, R w (snd (m w)).

Section Moves.
Context (R : World -> World -> Prop) `{!PreOrder R}.

Lemma moves_ret {A} (a : A) : moves R (ret a).
Proof. intros w. cbn. reflexivity. Qed.
Lemma moves_fail {A} e : moves R (fail (A := A) e).
Proof. intros w. cbn. reflexivity. Qed.
Lemma moves_bind {A B} (m : M A) (k : A -> M B) : moves R m -> (forall a, moves R (k a)) -> moves R (bind m k).
Proof.
  intros Hm Hk w. specialize (Hm w). unfold bind. destruct (m w) as [[a|e] w']; cbn in *; [|done].
  etrans; [done|]. apply Hk.
Qed.
Lemma moves_get {A B} (f : World -> A) (k : A -> M B) : (forall w, R w (snd (k (f w) w))) -> moves R (bind (get f) k).
Proof. intros H w. apply H. Qed.
Lemma moves_put f : (forall w, R w (f w)) -> moves R (put f).
Proof. intros H w. apply H. Qed.
Lemma moves_on_error {A} f (m : M A) : moves R m -> (forall e w, R w (f e w)) -> moves R (on_error f m).
Proof. intros Hm Hf w. specialize (Hm w). unfold on_error. destruct (m w) as [[a|e] w']; cbn in *; [done|]. by etrans. Qed.
End Moves.

Definition with_faults (r : list outcome) (w : World) : World :=
  {| store := store w; segments := segments w; quarantine := quarantine w; buckets := buckets w; faults := r |}.

Lemma moves_io_partial (R : World -> World -> Prop) `{!PreOrder R} ok part :
  (forall w r, R w (with_faults r w)) -> (forall w, R w (ok w)) -> (forall n w, R w (part n w)) ->
  moves R (io_partial ok part).
Proof.
  intros Hf Hok Hp w. unfold io_partial. fold (with_faults).
  destruct (faults w) as [|[|n] r]; cbn; [done|etrans; [apply (Hf w r)|apply Hok]|etrans; [apply (Hf w r)|apply Hp]].
Qed.
Lemma moves_io (R : World -> World -> Prop) `{!PreOrder R} ok :
  (forall w r, R w (with_faults r w)) -> (forall w, R w (ok w)) -> moves R (io ok).
Proof. intros Hf Hok. apply moves_io_partial; [done|done|done|]. intros _ w. reflexivity. Qed.

(** What an entry is, apart from the file it is stored in and the acknowledgement flag of its cursor. *)
Definition core (e : entry) : entry :=
  {| e_batch := e_batch e; e_class := e_class e; e_sequence := e_sequence e; e_file := EmptyString; e_bytes := e_bytes e;
     e_cursor := set_ack true <$> e_cursor e |}.

(** [evolves P]: the entries of the classes in [P] are the same up to [core], those of the
    other classes are some of them, and the counters are unchanged. *)
Record evolves (P : DataClass -> Prop) (w w' : World) : Prop := {
  ev_limits : limits (store w') = limits (store w);
  ev_open : open (store w') = open (store w);
  ev_next : nextSeq (store w') = nextSeq (store w);
  ev_sub c : core <$> entries (store w') c `sublist_of` core <$> entries (store w) c;
  ev_same c : P c -> core <$> entries (store w') c = core <$> entries (store w) c
}.

#[global] Instance evolves_preorder P : PreOrder (evolves P).
Proof.
  split.
  - intros w. by split.
  - intros w1 w2 w3 [A1 A2 A3 A4 A5] [B1 B2 B3 B4 B5]. split; try congruence.
    + intros c. transitivity (core <$> entries (store w2) c); auto.
    + intros c Hc. rewrite B5 by done. auto.
Qed.

Lemma evolves_weaken (P Q : DataClass -> Prop) w w' : (forall c, Q c -> P c) -> evolves P w w' -> evolves Q w w'.
Proof. intros H []. split; auto. Qed.

Lemma evolves_same P w w' : store w' = store w -> evolves P w w'.
Proof. intros H. split; rewrite H; done. Qed.

Lemma moves_weaken (R S : World -> World -> Prop) {A} (m : M A) :
  (forall w w', R w w' -> S w w') -> moves R m -> moves S m.
Proof. intros H Hm w. apply H, Hm. Qed.

Lemma evolves_faults P w r : evolves P w (with_faults r w).
Proof. by apply evolves_same. Qed.

Lemma evolves_active P w file size : evolves P w (set_store (set_active file size) w).
Proof. by split. Qed.

Lemma evolves_finding P w code : evolves P w (set_store (add_finding code) w).
Proof. by split. Qed.

Lemma evolves_map P w (f : entry -> entry) (g : Store -> Store) :
  (forall c, entries (g (store w)) c = f <$> entries (store w) c) -> (forall e, core (f e) = core e) ->
  limits (g (store w)) = limits (store w) -> open (g (store w)) = open (store w) ->
  nextSeq (g (store w)) = nextSeq (store w) -> evolves P w (set_store g w).
Proof.
  intros Hg Hf H1 H2 H3.
  assert (H : forall c, core <$> entries (g (store w)) c = core <$> entries (store w) c).
  { intros c. rewrite Hg, <- list_fmap_compose. apply list_fmap_ext. intros _ e _. apply Hf. }
  split; cbn; auto. intros c. by rewrite H.
Qed.

(** A relation between worlds with the same store. *)
Definition same_store (w w' : World) : Prop := store w' = store w.
#[global] Instance same_store_preorder : PreOrder same_store.
Proof. split; [done|]. unfold same_store. intros w1 w2 w3 H1 H2. congruence. Qed.

(** A relation between worlds with the same durable cursors. *)
Definition same_cursors (w w' : World) : Prop := cursor_receipts (buckets w') = cursor_receipts (buckets w).
#[global] Instance same_cursors_preorder : PreOrder same_cursors.
Proof. split; [done|]. unfold same_cursors. intros w1 w2 w3 H1 H2. congruence. Qed.

Ltac io_side := try first [ apply evolves_faults | by apply evolves_same | by unfold same_store | by unfold same_cursors ].

(** Walk through a monadic body, leaving its state updates as goals. *)
Ltac walk :=
  repeat match goal with
  | |- moves _ (bind _ _) => apply moves_bind; [apply _| |intros ?]
  | |- moves _ (ret _) => apply moves_ret; apply _
  | |- moves _ (fail _) => apply moves_fail; apply _
  | |- moves _ (io _) => apply moves_io; [apply _|intros; io_side|intros; io_side]
  | |- moves _ (io_partial _ _) =>
      apply moves_io_partial; [apply _|intros; io_side|intros; io_side|intros; io_side]
  | |- moves _ (on_error _ _) => apply moves_on_error; [apply _| |intros ? ?]
  | |- moves _ (get _) => let w := fresh in intros w; cbn; reflexivity
  | |- moves _ (if ?b then _ else _) => destruct b
  | |- moves _ (match ?x with _ => _ end) => destruct x
  | |- moves _ (put _) => apply moves_put; intros ?
  | |- moves _ (let _ := _ in _) => cbv zeta
  end.

(** ** The invariant of the pending entries *)

Record wf (s : Store) : Prop := {
  wf_class c : Forall (fun e => e_class e = c) (entries s c);
  wf_valid c : validClass c = false -> entries s c = [];
  wf_ids c : NoDup (entry_id <$> entries s c);
  wf_sorted c : StronglySorted Z.lt (e_sequence <$> entries s c);
  wf_seq : NoDup (e_sequence <$> all_entries s);
  wf_bound e : e ∈ all_entries s -> 0 < e_sequence e <= nextSeq s;
  wf_next : 0 <= nextSeq s
}.

Lemma StronglySorted_sublist {A} (R : A -> A -> Prop) l k :
  l `sublist_of` k -> StronglySorted R k -> StronglySorted R l.
Proof.
  induction 1 as [|x l k Hs IH|x l k Hs IH]; intros H; [done| |].
  - apply StronglySorted_inv in H as [H1 H2]. constructor; [auto|].
    apply Forall_forall. intros y Hy. rewrite Forall_forall in H2. apply H2. by eapply elem_of_sublist.
  - apply StronglySorted_inv in H as [H1 _]. auto.
Qed.

Lemma fmap_core {B} (f : entry -> B) (l : list entry) :
  (forall e, f (core e) = f e) -> f <$> l = f <$> (core <$> l).
Proof. intros H. rewrite <- list_fmap_compose. apply list_fmap_ext. intros _ e _. cbn. by rewrite H. Qed.

Lemma evolves_all P w w' : evolves P w w' -> core <$> all_entries (store w') `sublist_of` core <$> all_entries (store w).
Proof.
  intros H. unfold all_entries, classes. cbn. rewrite !fmap_app.
  repeat apply sublist_app; try apply (ev_sub _ _ _ H). done.
Qed.

Lemma core_sublist_elem l k e :
  core <$> l `sublist_of` core <$> k -> e ∈ l -> exists e', e' ∈ k /\ core e = core e'.
Proof.
  intros Hs He. apply (list_elem_of_fmap_2 core) in He. apply (elem_of_sublist _ _ _ He) in Hs.
  apply list_elem_of_fmap in Hs as (e' & Heq & He'). eauto.
Qed.

Lemma wf_evolves P w w' : wf (store w) -> evolves P w w' -> wf (store w').
Proof.
  intros [W1 W2 W3 W4 W5 W6 W7] He. pose proof (evolves_all _ _ _ He) as Hall.
  destruct He as [E1 E2 E3 E4 E5]. split.
  - intros c. apply Forall_forall. intros e He. destruct (core_sublist_elem _ _ _ (E4 c) He) as (e' & He' & Heq).
    apply (f_equal e_class) in Heq. cbn in Heq. rewrite Heq. specialize (W1 c). rewrite Forall_forall in W1. auto.
  - intros c Hc. specialize (E4 c). rewrite W2 in E4 by done. apply sublist_nil_r in E4. by apply fmap_nil_inv in E4.
  - intros c. rewrite (fmap_core entry_id) by done. apply (sublist_NoDup _ (entry_id <$> (core <$> entries (store w) c))).
    + by rewrite <- (fmap_core entry_id).
    + apply fmap_sublist, E4.
  - intros c. rewrite (fmap_core e_sequence) by done. eapply StronglySorted_sublist; [apply fmap_sublist, E4|].
    by rewrite <- (fmap_core e_sequence).
  - rewrite (fmap_core e_sequence) by done. apply (sublist_NoDup _ (e_sequence <$> (core <$> all_entries (store w)))).
    + by rewrite <- (fmap_core e_sequence).
    + by apply fmap_sublist.
  - intros e He. destruct (core_sublist_elem _ _ _ Hall He) as (e' & He' & Heq). apply (f_equal e_sequence) in Heq. cbn in Heq.
    rewrite E3, Heq. auto.
  - by rewrite E3.
Qed.

Section SpoolFacts.

Context (marshal_header : recordHeader -> option (list Z)).
Context (marshal_cursor : persistedCursorReceipt -> option (list Z)).
Context (unmarshal_cursor : list Z -> option persistedCursorReceipt).
Context (sha256 : list Z -> list Z).

Lemma sealActive_evolves P : moves (evolves P) sealActive.
Proof.
  unfold sealActive. walk; try apply evolves_active.
  eapply evolves_map; [intros c; reflexivity| |done..].
  intros e. cbn. by destruct (bool_decide _).
Qed.

Lemma rewriteWithout_evolves P exclude : moves (evolves P) (rewriteWithout marshal_header exclude).
Proof. unfold rewriteWithout, atomicReplace. walk. Qed.

Lemma remove_evolves w class id :
  evolves (fun c => c <> class) w (set_store (fun s => set_entries (remove s class id) s) w).
Proof.
  assert (Hsub : forall c, remove (store w) class id c `sublist_of` entries (store w) c).
  { intros c. unfold remove, update_class. destruct (find_entry _ _ _) as [[i e]|]; [|done].
    case_bool_decide; [subst|done]. apply sublist_delete. }
  split; cbn; auto.
  - intros c. apply fmap_sublist, Hsub.
  - intros c Hc. unfold remove, update_class. destruct (find_entry _ _ _) as [[i e]|]; [|done].
    by rewrite bool_decide_false.
Qed.

Lemma remove_entry_evolves class id : moves (evolves (fun c => c <> class)) (remove_entry marshal_header class id).
Proof.
  unfold remove_entry. walk; try apply remove_evolves; try apply evolves_active.
  apply rewriteWithout_evolves.
Qed.

Lemma rewriteWithout_store exclude : moves same_store (rewriteWithout marshal_header exclude).
Proof. unfold rewriteWithout, atomicReplace. walk. Qed.

Lemma bind_Ok {A B} (m : M A) (k : A -> M B) w b w' :
  bind m k w = (Ok b, w') -> exists a w1, m w = (Ok a, w1) /\ k a w1 = (Ok b, w').
Proof. unfold bind. destruct (m w) as [[a|e] w1] eqn:E; intros H; [eauto|discriminate]. Qed.

Lemma bind_get {A B} (f : World -> A) (k : A -> M B) w : bind (get f) k w = k (f w) w.
Proof. reflexivity. Qed.
Lemma bind_put {B} f (k : unit -> M B) w : bind (put f) k w = k tt (f w).
Proof. reflexivity. Qed.

Lemma remove_entry_entries w w' class id c :
  remove_entry marshal_header class id w = (Ok tt, w') -> entries (store w') c = remove (store w) class id c.
Proof.
  unfold remove_entry. rewrite bind_get. cbv beta. unfold remove at 2. intros H.
  destruct (find_entry (store w) class id) as [[i item]|] eqn:Hf; [|unfold ret in H; by simplify_eq].
  apply bind_Ok in H as (size & w1 & H1 & H). apply bind_Ok in H as ([] & w2 & H2 & H).
  pose proof (rewriteWithout_store item w) as S1. rewrite H1 in S1. unfold same_store in S1. cbn in S1.
  assert (S2 : same_store w1 w2).
  { match type of H2 with io ?f _ = _ => assert (Hm : moves same_store (io f)) by walk; specialize (Hm w1) end.
    by rewrite H2 in Hm. }
  unfold same_store in S2. rewrite bind_put in H.
  assert (Hs : entries (store w') = remove (store w2) class id) by (destruct (bool_decide _); unfold put, ret in H; by simplify_eq).
  rewrite Hs, S2, S1. unfold remove. by rewrite Hf.
Qed.

Lemma remove_shrinks s class id : find_entry s class id <> None -> validClass class = true ->
  (length (classes ≫= remove s class id) < length (all_entries s))%nat.
Proof.
  intros Hf Hv. unfold all_entries, remove, update_class. destruct (find_entry s class id) as [[i e]|] eqn:E; [|done].
  apply list_find_Some in E as (Hi & _). apply lookup_lt_Some in Hi.
  pose proof (length_delete (entries s class) i ltac:(by apply lookup_lt_is_Some_2)) as Hd.
  unfold classes. cbn. rewrite !length_app.
  destruct class; try done; repeat (case_bool_decide; try done; try lia).
Qed.

(** [in_time m]: no loop of [m] runs out of rounds. *)
Definition in_time {A} (m : M A) : Prop := forall w, fst (m w) <> Err ErrFuel.

Lemma in_time_bind {A B} (m : M A) (k : A -> M B) : in_time m -> (forall a, in_time (k a)) -> in_time (bind m k).
Proof. intros Hm Hk w. specialize (Hm w). unfold bind. destruct (m w) as [[a|e] w']; [apply Hk|]. cbn in *. congruence. Qed.
Lemma in_time_io_partial ok part : in_time (io_partial ok part).
Proof. intros w. unfold io_partial. by destruct (faults w) as [|[] ?]. Qed.
Lemma in_time_on_error {A} f (m : M A) : in_time m -> in_time (on_error f m).
Proof. intros H w. specialize (H w). unfold on_error. by destruct (m w) as [[] ?]. Qed.

Ltac in_time_walk :=
  repeat match goal with
  | |- in_time (bind _ _) => apply in_time_bind; [|intros ?]
  | |- in_time (io _) => apply in_time_io_partial
  | |- in_time (io_partial _ _) => apply in_time_io_partial
  | |- in_time (on_error _ _) => apply in_time_on_error
  | |- in_time (if ?b then _ else _) => destruct b
  | |- in_time (match ?x with _ => _ end) => destruct x eqn:?
  | |- in_time (let _ := _ in _) => cbv zeta
  | |- in_time (ret _) => intros ?; discriminate
  | |- in_time (get _) => intros ?; discriminate
  | |- in_time (put _) => intros ?; discriminate
  | |- in_time (fail _) => intros ?; cbn; congruence
  end.

Lemma encodeRecord_errors h p x : encodeRecord marshal_header h p = Err x -> x <> ErrFuel.
Proof. unfold encodeRecord. intros H. by run H. Qed.

Lemma encode_records_errors rs x : encode_records marshal_header rs = Err x -> x <> ErrFuel.
Proof.
  induction rs as [|[h p] rs IH]; [done|]. cbn. intros H.
  destruct (encodeRecord marshal_header h p) eqn:E; [|apply encodeRecord_errors in E; congruence].
  destruct (encode_records marshal_header rs); [done|]. apply IH. congruence.
Qed.

Lemma sealActive_in_time : in_time sealActive.
Proof. unfold sealActive. in_time_walk. Qed.

Lemma remove_entry_in_time class id : in_time (remove_entry marshal_header class id).
Proof.
  unfold remove_entry, rewriteWithout, atomicReplace. in_time_walk.
  intros w H. cbn in H. simplify_eq. by eapply encode_records_errors.
Qed.

(** ** Eviction *)

#[global] Instance cheaper_total : Total cheaper.
Proof. intros a b. unfold cheaper. lia. Qed.
#[global] Instance cheaper_trans : Transitive cheaper.
Proof. intros a b c. unfold cheaper. lia. Qed.

Lemma merge_sort_head (l : list entry) e :
  head (merge_sort cheaper l) = Some e -> e ∈ l /\ forall e', e' ∈ l -> cheaper e e' \/ e' = e.
Proof.
  intros H. pose proof (merge_sort_Permutation cheaper l) as Hp. pose proof (StronglySorted_merge_sort cheaper l) as Hs.
  destruct (merge_sort cheaper l) as [|x k]; [done|]. injection H as ->. apply StronglySorted_inv in Hs as [_ Hall].
  split; [rewrite <- Hp; left|]. intros e' He'. rewrite <- Hp in He'. apply elem_of_cons in He' as [->|He']; [auto|].
  rewrite Forall_forall in Hall. auto.
Qed.

Lemma merge_sort_head_nonempty (l : list entry) : l <> [] -> is_Some (head (merge_sort cheaper l)).
Proof.
  intros H. pose proof (merge_sort_Permutation cheaper l) as Hp. destruct (merge_sort cheaper l); [|eauto].
  by apply Permutation_nil in Hp.
Qed.

Lemma evict_from_Some s order e : evict_from s order = Some e ->
  exists c, c ∈ order /\ e ∈ entries s c /\ forall e', e' ∈ entries s c -> cheaper e e' \/ e' = e.
Proof.
  induction order as [|c order IH]; [done|]. cbn [evict_from]. intros H. destruct (entries s c) as [|x l] eqn:E.
  - destruct (IH H) as (c' & Hc & He). exists c'. split; [by right|done].
  - apply merge_sort_head in H. exists c. rewrite E. split; [left|done].
Qed.

Lemma evict_from_None s order : evict_from s order = None <-> forall c, c ∈ order -> entries s c = [].
Proof.
  induction order as [|c order IH]; cbn [evict_from].
  - split; [intros _ c Hc; by apply not_elem_of_nil in Hc|done].
  - destruct (entries s c) as [|x l] eqn:E.
    + rewrite IH. split; intros H c' Hc'; [|by apply H; right]. apply elem_of_cons in Hc' as [->|]; auto.
    + destruct (merge_sort_head_nonempty (x :: l)) as [y ->]; [done|]. split; [done|].
      intros H. specialize (H c ltac:(left)). congruence.
Qed.

Lemma find_own_entry s c e : wf s -> e ∈ entries s c -> exists i, find_entry s c (entry_id e) = Some (i, e).
Proof.
  intros W He. apply list_elem_of_lookup in He as [i Hi]. exists i. apply list_find_Some. split_and!; [done|done|].
  intros j y Hj Hlt Hid. pose proof (wf_ids _ W c) as Hnd.
  enough (j = i) by lia. eapply NoDup_lookup; [exact Hnd| |].
  - by rewrite list_lookup_fmap, Hj.
  - by rewrite list_lookup_fmap, Hi, Hid.
Qed.

Lemma makeCapacity_loop_spec fuel newClass needed w r w' :
  wf (store w) -> (length (all_entries (store w)) < fuel)%nat ->
  makeCapacity_loop marshal_header fuel newClass needed w = (r, w') ->
  evolves (eq AuditLog) w w' /\ r <> Err ErrFuel
  /\ (r = Ok tt -> int64 (usedBytes (store w') + needed) <= MaxBytes (limits (store w'))).
Proof.
  revert w. induction fuel as [|fuel IH]; intros w W Hlen H; [lia|].
  cbn [makeCapacity_loop] in H. rewrite bind_get in H. cbv beta in H.
  destruct (MaxBytes (limits (store w)) <? _) eqn:Hfull.
  2:{ unfold ret in H. simplify_eq. bool_simpl. split_and!; [reflexivity|done|done]. }
  destruct (evictionCandidate (store w)) as [cand|] eqn:Hc.
  2:{ case_bool_decide; unfold fail, bind, put in H; simplify_eq; (split_and!; [|done|done]);
      [apply evolves_finding|reflexivity]. }
  apply evict_from_Some in Hc as (c & Hc & Hin & _).
  assert (Hcl : e_class cand = c) by (pose proof (wf_class _ W c) as HF; rewrite Forall_forall in HF; auto). subst c.
  assert (Hne : e_class cand <> AuditLog /\ validClass (e_class cand) = true).
  { rewrite !elem_of_cons in Hc. destruct Hc as [->|[->|[->|Hn]]]; try done. by apply not_elem_of_nil in Hn. }
  destruct (find_own_entry _ _ _ W Hin) as [i Hfind].
  pose proof (remove_entry_evolves (e_class cand) (entry_id cand) w) as Hev.
  pose proof (remove_entry_in_time (e_class cand) (entry_id cand) w) as Ht.
  unfold bind, delete_entry in H. destruct (remove_entry _ _ _ w) as [[[]|e] w1] eqn:Hr; cbn in Hev, Ht.
  2:{ simplify_eq. split_and!; [|congruence|done]. eapply evolves_weaken; [|exact Hev]. intros ? <-. naive_solver. }
  assert (Hev' : evolves (eq AuditLog) w w1) by (eapply evolves_weaken; [|exact Hev]; intros ? <-; naive_solver).
  destruct (IH w1) as (E1 & E2 & E3); [by eapply wf_evolves| |done|].
  - assert (Hall : all_entries (store w1) = classes ≫= remove (store w) (e_class cand) (entry_id cand)).
    { unfold all_entries, classes. cbn. by rewrite !(remove_entry_entries _ _ _ _ _ Hr). }
    rewrite Hall. pose proof (remove_shrinks (store w) (e_class cand) (entry_id cand)) as Hs.
    rewrite Hfind in Hs. specialize (Hs ltac:(done) (proj2 Hne)). lia.
  - split_and!; [by etrans|done|done].
Qed.

(** ** Append *)

Lemma bind_cases {A B} (m : M A) (k : A -> M B) w r w' :
  bind m k w = (r, w') ->
  (exists e, m w = (Err e, w') /\ r = Err e) \/ (exists a w1, m w = (Ok a, w1) /\ k a w1 = (r, w')).
Proof. unfold bind. destruct (m w) as [[a|e] w1]; intros H; [eauto|]. simplify_eq. eauto. Qed.

(** [class] gained [item] after some evictions, which left enough room. *)
Record appends (class : DataClass) (item : entry) (w w' : World) : Prop := {
  ap_limits : limits (store w') = limits (store w);
  ap_open : open (store w') = open (store w);
  ap_next : nextSeq (store w') = e_sequence item;
  ap_entries : exists w1, evolves (eq AuditLog) w w1
    /\ int64 (usedBytes (store w1) + e_bytes item) <= MaxBytes (limits (store w))
    /\ forall c, core <$> entries (store w') c
        = core <$> (if bool_decide (c = class) then entries (store w1) c ++ [item] else entries (store w1) c)
}.

Definition new_item (class : DataClass) (batch : Batch) (receipt : option persistedCursorReceipt) (sequence : Z) (encoded : list Z) : entry :=
  {| e_batch := stored_batch batch; e_class := class; e_sequence := sequence; e_file := EmptyString;
     e_bytes := len encoded; e_cursor := clonePersistedCursor <$> receipt |}.

Lemma appends_evolves class item w w' w'' : appends class item w w' -> evolves (fun _ => True) w' w'' -> appends class item w w''.
Proof.
  intros [A1 A2 A3 (w1 & A4 & A5 & A6)] [E1 E2 E3 E4 E5]. split; try congruence.
  exists w1. split_and!; [done|done|]. intros c. by rewrite E5.
Qed.

Lemma make_room_spec class needed w r w' :
  wf (store w) -> make_room marshal_header class needed w = (r, w') ->
  evolves (eq AuditLog) w w' /\ r <> Err ErrFuel
  /\ (r = Ok tt -> int64 (usedBytes (store w') + needed) <= MaxBytes (limits (store w'))).
Proof.
  intros W H. unfold make_room in H. rewrite bind_get in H. cbv beta in H.
  match type of H with bind ?m _ _ = _ =>
    assert (Hm1 : moves (evolves (eq AuditLog)) m) by (walk; apply sealActive_evolves);
    assert (Ht1 : in_time m) by (in_time_walk; apply sealActive_in_time) end.
  specialize (Hm1 w). specialize (Ht1 w).
  apply bind_cases in H as [(e & H1 & ->)|([] & w1 & H1 & H)]; rewrite H1 in Hm1, Ht1; cbn in Hm1, Ht1.
  { split_and!; [done|congruence|done]. }
  assert (W1 : wf (store w1)) by (by eapply wf_evolves).
  apply bind_cases in H as [(e & H2 & ->)|([] & w2 & H2 & H)];
    destruct (makeCapacity_loop_spec _ _ _ _ _ _ W1 (Nat.lt_succ_diag_r _) H2) as (Hev2 & Ht2 & Hroom).
  { split_and!; [by etrans|congruence|done]. }
  specialize (Hroom eq_refl). rewrite bind_get in H. cbv beta in H.
  clear H1 H2. destruct (empty_string _); unfold put, ret in H; simplify_eq; (split_and!; [|done|intros _; exact Hroom]).
  - etrans; [exact Hm1|]. etrans; [exact Hev2|]. apply evolves_active.
  - by etrans.
Qed.

Lemma truncate_segment_same file size w : same_store w (truncate_segment file size w) /\ same_cursors w (truncate_segment file size w).
Proof. unfold truncate_segment, io, io_partial. by repeat case_match. Qed.

Lemma write_and_index_store class batch receipt sequence encoded :
  moves same_store (write_and_index marshal_cursor class batch receipt sequence encoded).
Proof. unfold write_and_index, write_record, index_record. walk; by first [apply truncate_segment_same|unfold same_store]. Qed.

Lemma write_and_index_in_time class batch receipt sequence encoded :
  in_time (write_and_index marshal_cursor class batch receipt sequence encoded).
Proof. unfold write_and_index, write_record, index_record. in_time_walk. Qed.

(** Recording a finding on failure changes no entry. *)
Lemma auditIOFailure_cases {A} class (m : M A) w r w' :
  auditIOFailure class m w = (r, w') -> exists w0, m w = (r, w0) /\ forall P, evolves P w0 w'.
Proof.
  unfold auditIOFailure, on_error. destruct (m w) as [[a|e] w0]; intros H; simplify_eq; eexists; (split; [done|]); intros P.
  - reflexivity.
  - destruct (_ && _); [apply evolves_finding|reflexivity].
Qed.

Lemma store_record_spec class batch receipt sequence encoded w r w' :
  wf (store w) -> store_record marshal_header marshal_cursor class batch receipt sequence encoded w = (r, w') ->
  r <> Err ErrFuel /\
  ((exists e, r = Err e) /\ evolves (eq AuditLog) w w' \/ appends class (new_item class batch receipt sequence encoded) w w').
Proof.
  intros W H. apply auditIOFailure_cases in H as (w0 & H & Hfin).
  apply bind_cases in H as [(e & H1 & ->)|([] & w1 & H1 & H)];
    destruct (make_room_spec _ _ _ _ _ W H1) as (Hev1 & Ht1 & Hroom).
  { split; [congruence|]. left. split; [eauto|]. by etrans. }
  pose proof (write_and_index_store class batch receipt sequence encoded w1) as S2.
  pose proof (write_and_index_in_time class batch receipt sequence encoded w1) as Ht2.
  apply bind_cases in H as [(e & H2 & ->)|([] & w2 & H2 & H)]; rewrite H2 in S2, Ht2; cbn in S2, Ht2.
  { split; [congruence|]. left. split; [eauto|]. etrans; [exact Hev1|]. etrans; [by apply evolves_same|apply Hfin]. }
  rewrite bind_put in H. cbv beta in H. rewrite bind_get in H. cbv beta in H.
  match type of H with bind _ _ ?x = _ => set (w3 := x) in * end.
  assert (Hap : appends class (new_item class batch receipt sequence encoded) w w3).
  { unfold same_store in S2. split; [cbn; rewrite S2; apply Hev1|cbn; rewrite S2; apply Hev1|done|].
    exists w1. split; [exact Hev1|]. split; [rewrite <- (ev_limits _ _ _ Hev1); by apply Hroom|].
    intros c. cbn. unfold update_class. rewrite S2. case_bool_decide; [subst c|done]. by rewrite !fmap_app. }
  clearbody w3.
  match type of H with bind ?m _ _ = _ =>
    assert (Hm4 : moves (evolves (fun _ => True)) m) by (walk; apply sealActive_evolves);
    assert (Ht4 : in_time m) by (in_time_walk; apply sealActive_in_time) end.
  specialize (Hm4 w3). specialize (Ht4 w3).
  apply bind_cases in H as [(e & H4 & ->)|([] & w4 & H4 & H)]; rewrite H4 in Hm4, Ht4; cbn in Hm4, Ht4.
  - split; [congruence|]. right. eapply appends_evolves; [exact Hap|]. by etrans.
  - unfold ret in H. simplify_eq. split; [done|]. right. eapply appends_evolves; [exact Hap|]. by etrans.
Qed.

Lemma core_ack_entry key sequence e : core (ack_entry key sequence e) = core e.
Proof. destruct e as [b cl sq f n [c|]]; unfold ack_entry; cbn; [|done]. by destruct (_ && _). Qed.

Lemma all_entries_elem s e : wf s -> e ∈ all_entries s <-> exists c, e ∈ entries s c.
Proof.
  intros W. unfold all_entries. rewrite list_elem_of_bind. split.
  - intros (c & He & _). eauto.
  - intros (c & He). exists c. split; [done|]. destruct (validClass c) eqn:Hc; [|rewrite (wf_valid _ W c Hc) in He; by apply not_elem_of_nil in He].
    unfold classes. destruct c; try done; repeat (rewrite elem_of_cons); auto.
Qed.

Lemma all_entries_appended (f g : DataClass -> list entry) class item :
  validClass class = true ->
  (forall c, core <$> f c = core <$> (if bool_decide (c = class) then g c ++ [item] else g c)) ->
  core <$> (classes ≫= f) ≡ₚ core item :: (core <$> (classes ≫= g)).
Proof.
  intros Hv H. unfold classes. cbn. rewrite !app_nil_r, !fmap_app, !H.
  repeat (case_bool_decide; [subst class|]); try done; rewrite ?fmap_app; cbn; try solve_Permutation.
  by destruct class.
Qed.

Lemma wf_append s class item :
  wf s -> validClass class = true -> e_class item = class -> e_sequence item = nextSeq s + 1 ->
  entry_id item ∉ entry_id <$> entries s class ->
  wf (set_nextSeq (e_sequence item) (set_entries (update_class (entries s) class (entries s class ++ [item])) s)).
Proof.
  intros W Hv Hc Hseq Hid. pose proof W as [W1 W2 W3 W4 W5 W6 W7].
  set (s' := set_nextSeq _ _).
  assert (Hperm : all_entries s' ≡ₚ item :: all_entries s).
  { unfold all_entries, s', classes, update_class. clear -Hv. cbn. rewrite !app_nil_r.
    repeat (case_bool_decide; [subst class|]); try done; try solve_Permutation. by destruct class. }
  assert (Hbelow : forall e c, e ∈ entries s c -> 0 < e_sequence e <= nextSeq s).
  { intros e c He. apply W6, all_entries_elem; [done|eauto]. }
  split; try (intros c; cbn; unfold update_class; case_bool_decide; [subst c|done]).
  - apply Forall_app. split; [done|]. by constructor.
  - intros c Hf. cbn. unfold update_class. case_bool_decide; [congruence|auto].
  - rewrite fmap_app, NoDup_app. split_and!; [done| |apply NoDup_singleton].
    intros x Hx ->%list_elem_of_singleton. done.
  - rewrite fmap_app, StronglySorted_app. split_and!; [|done|repeat constructor].
    intros x y (e & -> & He)%list_elem_of_fmap ->%list_elem_of_singleton. apply Hbelow in He. cbn. lia.
  - rewrite Hperm. cbn. apply NoDup_cons. split; [|done].
    intros (e & Heq & He)%list_elem_of_fmap. apply W6 in He. lia.
  - intros e. rewrite Hperm, elem_of_cons. intros [->|He]; cbn; [lia|]. apply W6 in He. lia.
  - cbn. lia.
Qed.

Lemma evolves_ids P w w' c : evolves P w w' -> entry_id <$> entries (store w') c `sublist_of` entry_id <$> entries (store w) c.
Proof. intros H. rewrite (fmap_core entry_id), (fmap_core entry_id (entries (store w) c)) by done. apply fmap_sublist, H. Qed.

Lemma wf_appends class item w w' :
  wf (store w) -> validClass class = true -> e_class item = class -> e_sequence item = nextSeq (store w) + 1 ->
  find_entry (store w) class (entry_id item) = None -> appends class item w w' -> wf (store w').
Proof.
  intros W Hv Hc Hseq Hfind [A1 A2 A3 (w1 & Hev & _ & Hent)].
  set (w2 := set_store (fun s => set_nextSeq (e_sequence item) (set_entries (update_class (entries s) class (entries s class ++ [item])) s)) w1).
  assert (W2 : wf (store w2)).
  { apply wf_append; [by eapply wf_evolves|done|done|by rewrite (ev_next _ _ _ Hev)|].
    intros Hin. eapply elem_of_sublist in Hin; [|by eapply evolves_ids]. apply list_elem_of_fmap in Hin as (e & Heq & He).
    apply list_find_None in Hfind. rewrite Forall_forall in Hfind. by eapply Hfind. }
  apply (wf_evolves (fun _ => True) w2); [done|].
  assert (Hcore : forall c, core <$> entries (store w') c = core <$> entries (store w2) c).
  { intros c. rewrite Hent. cbn. unfold update_class. case_bool_decide; [by subst c|done]. }
  split; cbn; [by rewrite A1, (ev_limits _ _ _ Hev)|by rewrite A2, (ev_open _ _ _ Hev)|done| |].
  - intros c. by rewrite Hcore.
  - intros c _. apply Hcore.
Qed.

Definition stored (r : result SpoolError CursorAppendResult) : Prop := r = Ok CursorAppendStored.

Lemma cursor_fence_store receipt : moves same_store (cursor_fence unmarshal_cursor receipt).
Proof. unfold cursor_fence, loadCursorReceipt. walk. intros w. cbn. done. Qed.

Lemma cursor_fence_in_time receipt : in_time (cursor_fence unmarshal_cursor receipt).
Proof.
  unfold cursor_fence, loadCursorReceipt. in_time_walk.
  intros w H. cbn in H. unfold loadCursorReceiptTx in H. by run H.
Qed.

Lemma cursor_fence_result receipt w x w' : cursor_fence unmarshal_cursor receipt w = (Ok (Some x), w') -> x = CursorAppendDuplicate.
Proof.
  unfold cursor_fence. destruct receipt as [p|]; [|done]. intros (c & w1 & _ & H)%bind_Ok.
  destruct c as [c|]; [|done]. unfold fail, ret in H. by run H.
Qed.

Lemma append_spec cancelled class batch receipt w r w' :
  wf (store w) -> nextSeq (store w) < 2 ^ 64 - 1 ->
  append marshal_header marshal_cursor unmarshal_cursor cancelled class batch receipt w = (r, w') ->
  wf (store w') /\ r <> Err ErrFuel /\
  (~ stored r /\ evolves (eq AuditLog) w w' \/
   exists encoded, find_entry (store w) class (b_ID batch) = None /\ validClass class = true
     /\ appends class (new_item class batch receipt (nextSeq (store w) + 1) encoded) w w').
Proof.
  intros W Hn H. unfold append, stored in *.
  destruct cancelled; [unfold fail in H; simplify_eq; split_and!; [done|done|left; split; [done|reflexivity]]|].
  destruct (_ || _) eqn:Hvalid; [unfold fail in H; simplify_eq; split_and!; [done|done|left; split; [done|reflexivity]]|].
  bool_simpl. rewrite bind_get in H. cbv beta in H.
  destruct (negb (open (store w))); [unfold fail in H; simplify_eq; split_and!; [done|done|left; split; [done|reflexivity]]|].
  pose proof (cursor_fence_store receipt w) as S1. pose proof (cursor_fence_in_time receipt w) as T1.
  assert (Hw1 : forall w1, same_store w w1 -> wf (store w1) /\ evolves (eq AuditLog) w w1).
  { intros w1 Hs. split; [by rewrite Hs|by apply evolves_same]. }
  apply bind_cases in H as [(e & Hf & ->)|(fenced & w1 & Hf & H)]; rewrite Hf in S1, T1; cbn in S1, T1;
    destruct (Hw1 _ S1) as [W1 Hev1].
  { split_and!; [done|congruence|left; done]. }
  destruct fenced as [x|].
  { apply cursor_fence_result in Hf as ->. unfold ret in H. simplify_eq. split_and!; [done|done|left; done]. }
  destruct (find_entry (store w) class (b_ID batch)) as [[i e]|] eqn:Hfind.
  { destruct receipt; unfold fail, ret in H; simplify_eq; (split_and!; [done|done|left; done]). }
  destruct (encodeRecord _ _ _) as [encoded|e] eqn:Henc.
  2:{ unfold fail in H. simplify_eq. apply encodeRecord_errors in Henc. split_and!; [done|congruence|left; done]. }
  assert (Hseq : uint64 (nextSeq (store w) + 1) = nextSeq (store w) + 1).
  { unfold uint64. apply Z.mod_small. pose proof (wf_next _ W). lia. }
  rewrite Hseq in *. destruct (store_record_spec _ _ _ _ _ _ _ _ W1 H) as [Ht [[[e ->] Hev]|Hap]].
  - split_and!; [by eapply wf_evolves|done|]. left. split; [done|]. by etrans.
  - assert (Hap' : appends class (new_item class batch receipt (nextSeq (store w) + 1) encoded) w w').
    { destruct Hap as [A1 A2 A3 (w2 & A4 & A5 & A6)]. unfold same_store in S1.
      split; [congruence|congruence|done|]. exists w2. rewrite S1 in *. split_and!; [by etrans|done|done]. }
    split_and!; [|done|right; eauto].
    by apply (wf_appends class (new_item class batch receipt (nextSeq (store w) + 1) encoded) w).
Qed.

(** ** Operations as a step relation *)

Inductive op :=
| DoAppend (cancelled : bool) (class : DataClass) (batch : Batch)
| DoAppendWithCursor (cancelled : bool) (class : DataClass) (batch : Batch) (receipt : CursorReceipt)
| DoAck (cancelled : bool) (class : DataClass) (id : string)
| DoMark (cancelled : bool) (key : string) (sequence : Z)
| DoSeal
| DoClose
| DoCheckpoint (sourceID : string) (value : list Z)
| DoPolicy (envelope : option (list Z))
| DoFinding (code : string).

Definition run_op (o : op) : M unit :=
  match o with
  | DoAppend x c b => Append marshal_header marshal_cursor unmarshal_cursor x c b
  | DoAppendWithCursor x c b r => AppendWithCursor marshal_header marshal_cursor unmarshal_cursor sha256 x c b r ;;; ret tt
  | DoAck x c id => Ack marshal_header x c id
  | DoMark x k n => MarkCursorAcknowledged marshal_cursor unmarshal_cursor x k n
  | DoSeal => Seal
  | DoClose => Close
  | DoCheckpoint i v => PutCheckpoint i v
  | DoPolicy e => PutPolicy e
  | DoFinding c => RecordHealthFinding c
  end.

(** Operations admitted by [P] in any order, each with any I/O outcomes; the sequence counter stays below
    its last value. *)
Inductive reachable (P : op -> Prop) (w0 : World) : World -> Prop :=
| reach_refl : reachable P w0 w0
| reach_step w o f : reachable P w0 w -> P o -> nextSeq (store w) < 2 ^ 64 - 1 ->
    reachable P w0 (snd (run_op o (with_faults f w))).

Lemma auditIOFailure_moves {A} P class (m : M A) : moves (evolves P) m -> moves (evolves P) (auditIOFailure class m).
Proof.
  intros H. apply moves_on_error; [apply _|done|]. intros e w. destruct (_ && _); [apply evolves_finding|reflexivity].
Qed.

Lemma Ack_evolves x c id : moves (evolves (fun c' => c' <> c)) (Ack marshal_header x c id).
Proof. unfold Ack. walk. apply auditIOFailure_moves, remove_entry_evolves. Qed.

Lemma MarkCursorAcknowledged_evolves P x k n : moves (evolves P) (MarkCursorAcknowledged marshal_cursor unmarshal_cursor x k n).
Proof.
  unfold MarkCursorAcknowledged. walk. intros w.
  assert (Hl : moves (evolves P) (loadCursorReceipt unmarshal_cursor k)).
  { unfold loadCursorReceipt. walk. intros w'. cbn. reflexivity. }
  specialize (Hl w). destruct (loadCursorReceipt _ _ _) as [[[c|]|e] w1]; cbn in Hl; [|exact Hl|exact Hl].
  destruct (negb _); [exact Hl|]. destruct (negb _); [exact Hl|]. destruct (marshal_cursor _); [|exact Hl].
  etrans; [exact Hl|]. match goal with |- evolves _ _ (snd (?m _)) => assert (Hm : moves (evolves P) m); [|apply Hm] end.
  walk. eapply evolves_map; [intros c'; reflexivity| |done..]. apply core_ack_entry.
Qed.

Lemma wf_same_entries s s' : entries s' = entries s -> nextSeq s' = nextSeq s -> wf s -> wf s'.
Proof. destruct s, s'; cbn. intros -> -> [W1 W2 W3 W4 W5 W6 W7]. by split. Qed.

Lemma Close_wf w : wf (store w) -> wf (store (snd (Close w))).
Proof.
  intros W. unfold Close. rewrite bind_get. cbv beta. destruct (negb (open (store w))); [done|]. cbv zeta.
  pose proof (sealActive_evolves (fun _ => True) w) as Hs. destruct (sealActive w) as [sealed w1] eqn:E. cbn in Hs.
  assert (W1 : wf (store w1)) by (by eapply wf_evolves).
  set (note := note_failure (activeContainsAudit (store w))).
  assert (Hnote : forall r w', entries (store (note r w')) = entries (store w') /\ nextSeq (store (note r w')) = nextSeq (store w')).
  { intros [|] w'; unfold note, note_failure; [done|]. by destruct (activeContainsAudit _). }
  assert (Hio : moves same_store (io (fun w => w))) by walk. specialize (Hio (note sealed w1)).
  destruct (io (fun w => w) (note sealed w1)) as [closed w2]. cbn in Hio |- *. unfold same_store in Hio.
  destruct (Hnote closed (set_store (set_open false) w2)) as [N1 N2]. destruct (Hnote sealed w1) as [N3 N4].
  eapply wf_same_entries; [rewrite N1; reflexivity|rewrite N2; reflexivity|]. cbn.
  eapply wf_same_entries; [cbn; rewrite Hio, N3; reflexivity|cbn; rewrite Hio, N4; reflexivity|done].
Qed.

Lemma bind_ret_snd {A B} (m : M A) (b : B) w : snd ((m ;;; ret b) w) = snd (m w).
Proof. unfold bind, ret. by destruct (m w) as [[] ?]. Qed.

Lemma run_op_wf o w : wf (store w) -> nextSeq (store w) < 2 ^ 64 - 1 -> wf (store (snd (run_op o w))).
Proof.
  intros W Hn. destruct o; cbn [run_op].
  - unfold Append. rewrite bind_ret_snd. destruct (append _ _ _ _ _ _ _ w) as [r w'] eqn:E. by eapply append_spec in E as [? _].
  - rewrite bind_ret_snd. unfold AppendWithCursor. destruct (_ || _); [done|].
    destruct (append _ _ _ _ _ _ _ w) as [r w'] eqn:E. by eapply append_spec in E as [? _].
  - eapply wf_evolves; [done|apply Ack_evolves].
  - eapply (wf_evolves (fun _ => True)); [done|apply MarkCursorAcknowledged_evolves].
  - eapply (wf_evolves (fun _ => True)); [done|]. assert (H : moves (evolves (fun _ => True)) Seal); [|apply H].
    unfold Seal. walk. apply sealActive_evolves.
  - by apply Close_wf.
  - eapply (wf_evolves (fun _ => True)); [done|]. assert (H : moves (evolves (fun _ => True)) (PutCheckpoint sourceID value)); [|apply H].
    unfold PutCheckpoint, update_db. walk.
  - eapply (wf_evolves (fun _ => True)); [done|]. assert (H : moves (evolves (fun _ => True)) (PutPolicy envelope)); [|apply H].
    unfold PutPolicy, update_db. walk.
  - eapply (wf_evolves (fun _ => True)); [done|].
    assert (H : moves (evolves (fun _ => True)) (RecordHealthFinding code)); [|apply H].
    unfold RecordHealthFinding. walk. unfold set_store. destruct (open (store _)); [by split|by apply evolves_same].
Qed.

Lemma run_op_in_time o w : wf (store w) -> nextSeq (store w) < 2 ^ 64 - 1 -> fst (run_op o w) <> Err ErrFuel.
Proof.
  assert (Hbind : forall {A B} (m : M A) (b : B) w, fst (m w) <> Err ErrFuel -> fst ((m ;;; ret b) w) <> Err ErrFuel).
  { intros A B m b w0. unfold bind, ret. destruct (m w0) as [[] ?]; cbn; congruence. }
  intros W Hn. destruct o; cbn [run_op].
  - unfold Append. apply Hbind. destruct (append _ _ _ _ _ _ _ w) as [r w'] eqn:E. by eapply append_spec in E as (_ & ? & _).
  - apply Hbind. unfold AppendWithCursor. destruct (_ || _); [done|].
    destruct (append _ _ _ _ _ _ _ w) as [r w'] eqn:E. by eapply append_spec in E as (_ & ? & _).
  - revert w W Hn. enough (H : in_time (Ack marshal_header cancelled class id)) by auto.
    unfold Ack. in_time_walk. unfold auditIOFailure. in_time_walk. apply remove_entry_in_time.
  - unfold MarkCursorAcknowledged. destruct cancelled; [done|]. destruct (_ || _); [done|]. rewrite bind_get. cbv beta.
    destruct (negb _); [done|]. destruct (loadCursorReceipt _ _ _) as [[[c|]|e] w1]; [|done..].
    destruct (negb _); [done|]. destruct (negb _); [done|]. destruct (marshal_cursor _); [|done].
    apply (in_time_bind _ _ (in_time_io_partial _ _)). intros _ ?. done.
  - unfold Seal. rewrite bind_get. cbv beta. destruct (negb _); [done|]. apply sealActive_in_time.
  - unfold Close. rewrite bind_get. cbv beta. destruct (negb _); [done|]. cbv zeta.
    pose proof (sealActive_in_time w) as Ht. destruct (sealActive w) as [[[]|e] w1]; cbn in Ht.
    + pose proof (in_time_io_partial (fun w => w) (fun _ w => w) (note_failure (activeContainsAudit (store w)) (Ok ()) w1)) as Hio.
      unfold io. by destruct (io_partial _ _ _).
    + by destruct (io _ _).
  - revert w W Hn. enough (H : in_time (PutCheckpoint sourceID value)) by auto. unfold PutCheckpoint, update_db. in_time_walk.
  - revert w W Hn. enough (H : in_time (PutPolicy envelope)) by auto. unfold PutPolicy, update_db. in_time_walk.
  - unfold RecordHealthFinding. by destruct (empty_string _).
Qed.

Lemma int64_add_l a b : int64 (int64 a + b) = int64 (a + b).
Proof.
  unfold int64. set (m := 2 ^ 64). set (h := 2 ^ 63).
  replace ((a + h) mod m - h + b + h) with ((a + h) mod m + b) by lia.
  rewrite Z.add_mod_idemp_l by (unfold m; lia). do 2 f_equal. lia.
Qed.

Lemma occupied_core (l k : list entry) : core <$> l ≡ₚ core <$> k -> occupied l = occupied k.
Proof.
  assert (Hc : forall l, occupied l = foldr Z.add 0 (e_bytes <$> (core <$> l))).
  { induction l0 as [|e l0 IH]; [done|]. change (occupied (e :: l0)) with (e_bytes e + occupied l0). by rewrite IH. }
  intros H. rewrite !Hc. apply (fmap_Permutation e_bytes) in H.
  revert H. generalize (e_bytes <$> (core <$> l)), (e_bytes <$> (core <$> k)). induction 1; cbn; lia.
Qed.

(** ** Properties of the pending entries *)

(** under any sequence of operations with any I/O failures the pending entries stay well formed
    (each under its own class, ids distinct per class, sequences distinct and increasing, none above the
    counter), and no operation runs its eviction loop out of rounds. *)
Theorem reachable_spools_are_well_formed w0 w :
  wf (store w0) -> reachable (fun _ => True) w0 w ->
  wf (store w) /\ forall o f, nextSeq (store w) < 2 ^ 64 - 1 -> fst (run_op o (with_faults f w)) <> Err ErrFuel.
Proof.
  intros W0 H. assert (W : wf (store w)).
  { induction H as [|w o f Hr IH _ Hn]; [done|]. by apply run_op_wf. }
  split; [done|]. intros o f Hn. by apply run_op_in_time.
Qed.

(** C29: an append that stores its batch leaves the occupied bytes within [MaxBytes]. *)
Theorem append_stays_within_capacity cancelled class batch receipt w w' :
  wf (store w) -> nextSeq (store w) < 2 ^ 64 - 1 ->
  append marshal_header marshal_cursor unmarshal_cursor cancelled class batch receipt w = (Ok CursorAppendStored, w') ->
  usedBytes (store w') <= MaxBytes (limits (store w')).
Proof.
  intros W Hn H. apply append_spec in H as (_ & _ & [[Hs _]|(encoded & _ & Hv & Hap)]); [by contradict Hs| |done|done].
  destruct Hap as [A1 _ _ (w1 & _ & Hroom & Hent)]. rewrite A1. unfold usedBytes in *. rewrite int64_add_l in Hroom.
  enough (occupied (all_entries (store w')) = occupied (all_entries (store w1)) + e_bytes (new_item class batch receipt (nextSeq (store w) + 1) encoded)) by congruence.
  rewrite (occupied_core _ (new_item class batch receipt (nextSeq (store w) + 1) encoded :: all_entries (store w1))).
  - cbn. unfold occupied. lia.
  - by apply (all_entries_appended _ _ class).
Qed.

(** no append, successful or failed, loses or changes a pending audit record: the audit entries are
    those of before, followed by the new one when it is an audit batch that was stored. *)
Theorem audit_records_survive_appends cancelled class batch receipt w r w' :
  wf (store w) -> nextSeq (store w) < 2 ^ 64 - 1 ->
  append marshal_header marshal_cursor unmarshal_cursor cancelled class batch receipt w = (r, w') ->
  exists added, core <$> entries (store w') AuditLog = (core <$> entries (store w) AuditLog) ++ added
    /\ (added = [] \/ class = AuditLog /\ exists e, added = [e] /\ e_batch e = stored_batch batch
                      /\ e_sequence e = nextSeq (store w) + 1).
Proof.
  intros W Hn H. apply append_spec in H as (_ & _ & [[_ Hev]|(encoded & _ & _ & Hap)]); [| |done|done].
  - exists []. rewrite app_nil_r. split; [by apply Hev|by left].
  - destruct Hap as [_ _ _ (w1 & Hev & _ & Hent)]. rewrite Hent, <- (ev_same _ _ _ Hev) by done.
    case_bool_decide as Hc; [|exists []; rewrite app_nil_r; eauto].
    rewrite fmap_app. eexists. split; [done|]. right. eauto 10.
Qed.

(** eviction gives up metrics before logs before job results, within a class the lowest priority and
    then the oldest, never an audit record; it finds nothing only when those classes are empty. *)
Theorem eviction_prefers_cheap_data s :
  wf s ->
  match evictionCandidate s with
  | None => entries s Metric = [] /\ entries s Log = [] /\ entries s JobResult = []
  | Some e => e_class e <> AuditLog /\ e ∈ entries s (e_class e)
      /\ (e_class e = Log -> entries s Metric = []) /\ (e_class e = JobResult -> entries s Metric = [] /\ entries s Log = [])
      /\ forall e', e' ∈ entries s (e_class e) -> e' <> e ->
           b_Priority (e_batch e) < b_Priority (e_batch e')
           \/ b_Priority (e_batch e) = b_Priority (e_batch e') /\ e_sequence e <= e_sequence e'
  end.
Proof.
  intros W. destruct (evictionCandidate s) as [e|] eqn:He; unfold evictionCandidate in He.
  - assert (Hown : forall c, e ∈ entries s c -> e_class e = c).
    { intros c Hc. pose proof (wf_class _ W c) as HF. rewrite Forall_forall in HF. auto. }
    cbn [evict_from] in He.
    destruct (entries s Metric) as [|m ms] eqn:E1; [destruct (entries s Log) as [|l ls] eqn:E2; [destruct (entries s JobResult) as [|j js] eqn:E3; [done|]|]|];
      apply merge_sort_head in He as [Hin Hmin].
    all: rewrite <- ?E1, <- ?E2, <- ?E3 in Hin; rewrite (Hown _ Hin); rewrite ?E1, ?E2, ?E3 in *.
    all: split_and!; try done; intros e' He' Hne; destruct (Hmin _ He'); done.
  - rewrite evict_from_None in He. split_and!; apply He; rewrite !elem_of_cons; auto.
Qed.

Lemma delete_is_filter (l : list entry) i e :
  NoDup (entry_id <$> l) -> l !! i = Some e -> delete i l = filter (fun x => entry_id x <> entry_id e) l.
Proof.
  intros Hnd Hi. apply list_elem_of_split_length in Hi as (l1 & l2 & -> & ->).
  rewrite delete_middle, filter_app, filter_cons_False by auto.
  rewrite fmap_app, fmap_cons, NoDup_app, NoDup_cons in Hnd. destruct Hnd as (_ & Hd & Hn & _).
  assert (Hkeep : forall k : list entry, entry_id e ∉ entry_id <$> k -> filter (fun x => entry_id x <> entry_id e) k = k).
  { induction k as [|x k IH]; intros Hk; [done|]. rewrite fmap_cons, not_elem_of_cons in Hk.
    rewrite filter_cons_True by naive_solver. f_equal. naive_solver. }
  rewrite !Hkeep; [done|done|]. intros H. apply (Hd _ H). left.
Qed.

Lemma find_entry_None s class id : find_entry s class id = None <-> id ∉ entry_id <$> entries s class.
Proof.
  unfold find_entry. rewrite list_find_None, Forall_forall. split.
  - intros H (e & -> & He)%list_elem_of_fmap. by apply (H e).
  - intros H e He <-. apply H. by apply list_elem_of_fmap_2.
Qed.

Lemma remove_is_filter s class id c : wf s ->
  remove s class id c = if bool_decide (c = class) then filter (fun e => entry_id e <> id) (entries s c) else entries s c.
Proof.
  intros W. unfold remove, update_class. destruct (find_entry s class id) as [[i e]|] eqn:Hf.
  - case_bool_decide; [subst c|done]. apply list_find_Some in Hf as (Hi & Hid & _). rewrite <- Hid.
    apply delete_is_filter; [apply W|done].
  - case_bool_decide; [subst c|done]. apply find_entry_None in Hf. symmetry.
    induction (entries s class) as [|e l IH]; [done|]. rewrite fmap_cons, not_elem_of_cons in Hf.
    rewrite filter_cons_True by naive_solver. f_equal. naive_solver.
Qed.

Lemma auditIOFailure_Ok {A} class (m : M A) w a w' : auditIOFailure class m w = (Ok a, w') -> m w = (Ok a, w').
Proof. unfold auditIOFailure, on_error. by destruct (m w) as [[] ?]; intros H; simplify_eq. Qed.

(** A successful acknowledgement removes exactly the batch with that id from its class and nothing else,
    and acknowledging it again succeeds and changes nothing. *)
Theorem acknowledgement_removes_exactly_one class id w w' :
  wf (store w) -> Ack marshal_header false class id w = (Ok tt, w') ->
  (forall c, entries (store w') c = if bool_decide (c = class) then filter (fun e => entry_id e <> id) (entries (store w) c) else entries (store w) c)
  /\ forall f, Ack marshal_header false class id (with_faults f w') = (Ok tt, with_faults f w').
Proof.
  intros W H. unfold Ack in *. destruct (_ || _); [done|]. rewrite bind_get in H. cbv beta in H.
  destruct (open (store w)) eqn:Ho; [|done]. cbn [negb] in H.
  apply auditIOFailure_Ok in H.
  assert (Hent : forall c, entries (store w') c = remove (store w) class id c) by (intros c; by apply remove_entry_entries).
  split; [intros c; by rewrite Hent, remove_is_filter|].
  intros f. rewrite bind_get. cbv beta. pose proof (remove_entry_evolves class id w) as Hev. rewrite H in Hev. cbn in Hev.
  change (open (store (with_faults f w'))) with (open (store w')). rewrite (ev_open _ _ _ Hev), Ho. cbn [negb].
  unfold auditIOFailure, on_error, remove_entry. rewrite bind_get. cbv beta.
  assert (Hn : find_entry (store (with_faults f w')) class id = None).
  { apply find_entry_None. cbn. rewrite Hent, remove_is_filter, bool_decide_true by done.
    intros (e & -> & He)%list_elem_of_fmap. apply list_elem_of_filter in He as [He _]. done. }
  by rewrite Hn.
Qed.

(** ** Cursors *)

Lemma remove_entry_cursors class id : moves same_cursors (remove_entry marshal_header class id).
Proof. unfold remove_entry, rewriteWithout, atomicReplace. walk; by unfold same_cursors. Qed.

Lemma sealActive_cursors : moves same_cursors sealActive.
Proof. unfold sealActive. walk; by unfold same_cursors. Qed.

Lemma makeCapacity_loop_cursors fuel class needed : moves same_cursors (makeCapacity_loop marshal_header fuel class needed).
Proof.
  induction fuel as [|fuel IH]; cbn [makeCapacity_loop]; walk; try done.
  apply remove_entry_cursors.
Qed.

Lemma make_room_cursors class needed : moves same_cursors (make_room marshal_header class needed).
Proof.
  unfold make_room, makeCapacity. walk; try by unfold same_cursors.
  - apply sealActive_cursors.
  - apply makeCapacity_loop_cursors.
Qed.

(** The cursor bucket once the receipt of a stored batch is in it. *)
Definition with_receipt (receipt : option persistedCursorReceipt) (m : gmap string (list Z)) : gmap string (list Z) :=
  match receipt with
  | None => m
  | Some r => match marshal_cursor r with Some b => <[p_Key r := b]> m | None => m end
  end.

Lemma io_cases ok w : (io ok w = (Ok tt, ok w) /\ faults w = []) \/
  exists o r, faults w = o :: r /\ io ok w = match o with Works => (Ok tt, ok (with_faults r w)) | Fails _ => (Err ErrIO, with_faults r w) end.
Proof. unfold io, io_partial. destruct (faults w) as [|[] r]; eauto. Qed.

Definition encodable (receipt : option persistedCursorReceipt) : Prop :=
  forall c, receipt = Some c -> is_Some (marshal_cursor c).

Lemma index_record_encodable class id sequence file receipt w w' :
  index_record marshal_cursor class id sequence file receipt w = (Ok tt, w') -> encodable receipt.
Proof. unfold index_record. intros H c ->. destruct (marshal_cursor c); [eauto|done]. Qed.

Lemma index_record_cursors class id sequence file receipt w r w' :
  index_record marshal_cursor class id sequence file receipt w = (r, w') ->
  cursor_receipts (buckets w') = match r with Ok _ => with_receipt receipt (cursor_receipts (buckets w)) | Err _ => cursor_receipts (buckets w) end.
Proof.
  unfold index_record, with_receipt. intros H.
  assert (Hio : forall (f : Buckets -> Buckets) w r w', io (set_buckets f) w = (r, w') ->
    cursor_receipts (buckets w') = match r with Ok _ => cursor_receipts (f (buckets w)) | Err _ => cursor_receipts (buckets w) end).
  { intros f v rv v' Hv. destruct (io_cases (set_buckets f) v) as [[E _]|(o & l & _ & E)]; rewrite E in Hv;
      [|destruct o]; by simplify_eq. }
  destruct receipt as [p|].
  - destruct (marshal_cursor p); [|unfold fail in H; by simplify_eq]. by rewrite (Hio _ _ _ _ H).
  - by rewrite (Hio _ _ _ _ H).
Qed.

Lemma write_and_index_cursors class batch receipt sequence encoded w r w' :
  write_and_index marshal_cursor class batch receipt sequence encoded w = (r, w') ->
  match r with
  | Ok _ => encodable receipt /\ cursor_receipts (buckets w') = with_receipt receipt (cursor_receipts (buckets w))
  | Err _ => same_cursors w w'
  end.
Proof.
  unfold write_and_index. rewrite bind_get. cbv beta.
  assert (Hwr : moves same_cursors (write_record (activeFile (store w)) encoded)) by (unfold write_record; walk).
  specialize (Hwr w). intros [(e & H1 & ->)|([] & w1 & H1 & H)]%bind_cases; rewrite H1 in Hwr; cbn in Hwr; [done|].
  unfold on_error in H. destruct (index_record _ _ _ _ _ _ w1) as [r2 w2] eqn:H2. pose proof (index_record_cursors _ _ _ _ _ _ _ _ H2) as Hc.
  unfold same_cursors in *. rewrite <- Hwr. destruct r2 as [[]|]; simplify_eq; [by split; [eapply index_record_encodable|]|].
  rewrite <- Hc. apply truncate_segment_same.
Qed.

Lemma store_record_cursors class batch receipt sequence encoded w r w' :
  store_record marshal_header marshal_cursor class batch receipt sequence encoded w = (r, w') ->
  encodable receipt /\ cursor_receipts (buckets w') = with_receipt receipt (cursor_receipts (buckets w))
  \/ (exists e, r = Err e) /\ same_cursors w w'.
Proof.
  intros H. unfold store_record, auditIOFailure, on_error in H. destruct (bind _ _ w) as [r0 w0] eqn:Hin.
  enough (Hgoal : encodable receipt /\ cursor_receipts (buckets w0) = with_receipt receipt (cursor_receipts (buckets w)) \/ (exists e, r0 = Err e) /\ same_cursors w w0).
  { unfold same_cursors in *. destruct r0; simplify_eq; [done|]. by destruct (_ && _). }
  clear H. pose proof (make_room_cursors class (len encoded) w) as Hroom.
  apply bind_cases in Hin as [(e & H1 & ->)|([] & w1 & H1 & H)]; rewrite H1 in Hroom; cbn in Hroom; [eauto|].
  apply bind_cases in H as [(e & H2 & ->)|([] & w2 & H2 & H)]; apply write_and_index_cursors in H2; unfold same_cursors in *.
  { right. split; [eauto|]. congruence. }
  left. destruct H2 as [Henc H2]. split; [done|].
  rewrite bind_put in H. cbv beta in H. rewrite bind_get in H. cbv beta in H. rewrite Hroom in H2. rewrite <- H2.
  match type of H with bind ?m _ ?x = _ => assert (Hm : moves same_cursors (bind m (fun _ => ret CursorAppendStored)));
    [walk; apply sealActive_cursors|specialize (Hm x); rewrite H in Hm] end.
  exact Hm.
Qed.

Lemma store_record_result class batch receipt sequence encoded w r w' :
  store_record marshal_header marshal_cursor class batch receipt sequence encoded w = (Ok r, w') -> r = CursorAppendStored.
Proof.
  intros H. apply auditIOFailure_Ok in H. apply bind_Ok in H as (? & ? & _ & H). apply bind_Ok in H as (? & ? & _ & H).
  rewrite bind_put in H. cbv beta in H. rewrite bind_get in H. cbv beta in H. apply bind_Ok in H as (? & ? & _ & H).
  unfold ret in H. by simplify_eq.
Qed.

Lemma append_duplicate cancelled class batch c w w' :
  append marshal_header marshal_cursor unmarshal_cursor cancelled class batch (Some c) w = (Ok CursorAppendDuplicate, w') ->
  cursor_fence unmarshal_cursor (Some c) w = (Ok (Some CursorAppendDuplicate), w').
Proof.
  unfold append. destruct cancelled; [done|]. destruct (_ || _); [done|]. rewrite bind_get. cbv beta.
  destruct (negb (open (store w))); [done|]. intros (fenced & w1 & H1 & H)%bind_Ok. destruct fenced as [x|].
  - unfold ret in H. by simplify_eq.
  - destruct (find_entry _ _ _); [done|]. destruct (encodeRecord _ _ _); [|done]. by apply store_record_result in H.
Qed.

Lemma append_cursors cancelled class batch receipt w r w' :
  append marshal_header marshal_cursor unmarshal_cursor cancelled class batch receipt w = (r, w') ->
  (~ stored r /\ same_cursors w w') \/
  (encodable receipt /\ cursor_receipts (buckets w') = with_receipt receipt (cursor_receipts (buckets w))
   /\ exists w1, cursor_fence unmarshal_cursor receipt w = (Ok None, w1)).
Proof.
  unfold append, stored. intros H.
  destruct cancelled; [unfold fail in H; simplify_eq; left; split; [done|reflexivity]|].
  destruct (_ || _); [unfold fail in H; simplify_eq; left; split; [done|reflexivity]|].
  rewrite bind_get in H. cbv beta in H.
  destruct (negb (open (store w))); [unfold fail in H; simplify_eq; left; split; [done|reflexivity]|].
  assert (Hf : moves same_cursors (cursor_fence unmarshal_cursor receipt)).
  { unfold cursor_fence, loadCursorReceipt. walk. intros v. cbn. reflexivity. }
  specialize (Hf w). apply bind_cases in H as [(e & H1 & ->)|(fenced & w1 & H1 & H)]; pose proof H1 as Hfence; rewrite H1 in Hf; cbn in Hf.
  { left. done. }
  destruct fenced as [x|].
  { apply cursor_fence_result in H1 as ->. unfold ret in H. simplify_eq. left. done. }
  destruct (find_entry (store w) class (b_ID batch)) as [[i e]|].
  { destruct receipt; unfold fail, ret in H; simplify_eq; left; done. }
  destruct (encodeRecord _ _ _) as [encoded|e]; [|unfold fail in H; simplify_eq; left; done].
  unfold same_cursors in *. apply store_record_cursors in H as [[Henc H]|[[e ->] H]].
  - right. rewrite H, Hf. eauto.
  - left. split; [done|]. unfold same_cursors in H. congruence.
Qed.

Section DurableCursors.

(** [json.Unmarshal] reads back a plain receipt that [json.Marshal] wrote. *)
Context (cursor_roundtrip : forall c b, plain_cursor c -> marshal_cursor c = Some b -> unmarshal_cursor b = Some c).

Definition receipt_ok (c : persistedCursorReceipt) : Prop :=
  plain_cursor c /\ p_Version c = 1 /\ validCursorReceipt (publicCursorReceipt c) = true.

(** Every receipt of the bucket is the encoding of a valid one, under its own key. *)
Definition cursors_ok (w : World) : Prop :=
  forall k bytes, cursor_receipts (buckets w) !! k = Some bytes ->
    exists c, marshal_cursor c = Some bytes /\ receipt_ok c /\ p_Key c = k.

(** The durable receipt of a key. *)
Definition durable (w : World) (k : string) : option persistedCursorReceipt :=
  match loadCursorReceiptTx unmarshal_cursor (buckets w) k with Ok o => o | Err _ => None end.

Lemma clone_plain c : plain_cursor c -> clonePersistedCursor c = c.
Proof.
  unfold plain_cursor. intros (_ & _ & _ & _ & _ & _ & _ & _ & Hu). destruct c as [v k a cr t i s d [x u] q].
  cbn in *. subst u. reflexivity.
Qed.

Lemma valid_receipt_ok c : receipt_ok c -> validPersistedCursorReceipt c = Some c.
Proof. intros (_ & Hv & Hc). unfold validPersistedCursorReceipt. rewrite Hv, Hc. reflexivity. Qed.

Lemma load_encoded b k c bytes :
  cursor_receipts b !! k = Some bytes -> marshal_cursor c = Some bytes -> receipt_ok c ->
  loadCursorReceiptTx unmarshal_cursor b k = Ok (Some c).
Proof.
  intros Hk Hm Hc. unfold loadCursorReceiptTx. rewrite Hk, (cursor_roundtrip _ _ (proj1 Hc) Hm), (valid_receipt_ok _ Hc).
  by rewrite clone_plain by apply Hc.
Qed.

Lemma load_durable w k : cursors_ok w -> loadCursorReceiptTx unmarshal_cursor (buckets w) k = Ok (durable w k).
Proof.
  intros Hok. unfold durable. destruct (cursor_receipts (buckets w) !! k) as [bytes|] eqn:Hk.
  - destruct (Hok _ _ Hk) as (c & Hm & Hc & _). by rewrite (load_encoded _ _ _ _ Hk Hm Hc).
  - unfold loadCursorReceiptTx. by rewrite Hk.
Qed.

Lemma durable_ok w k c : cursors_ok w -> durable w k = Some c -> receipt_ok c /\ p_Key c = k.
Proof.
  intros Hok. unfold durable. destruct (cursor_receipts (buckets w) !! k) as [bytes|] eqn:Hk.
  - destruct (Hok _ _ Hk) as (c' & Hm & Hc & Hkey). rewrite (load_encoded _ _ _ _ Hk Hm Hc). intros [= <-]. done.
  - unfold loadCursorReceiptTx. by rewrite Hk.
Qed.

Lemma durable_same w w' k : same_cursors w w' -> durable w' k = durable w k.
Proof. unfold durable, loadCursorReceiptTx. by intros ->. Qed.

(** Later evidence for the same key: a higher sequence collected no earlier, or the same receipt,
    whose acknowledgement may have arrived. *)
Definition advances (c c' : persistedCursorReceipt) : Prop :=
  p_Sequence c < p_Sequence c' /\ Before (p_CollectedAt c') (p_CollectedAt c) = false
  \/ p_Sequence c = p_Sequence c' /\ p_Digest c = p_Digest c' /\ p_CollectedAt c = p_CollectedAt c'
     /\ (p_ACKPending c' = true -> p_ACKPending c = true).

Record cursors_advance (w w' : World) : Prop := {
  ca_ok : cursors_ok w -> cursors_ok w';
  ca_advance k c : cursors_ok w -> durable w k = Some c -> exists c', durable w' k = Some c' /\ advances c c'
}.

#[global] Instance advances_preorder : PreOrder advances.
Proof.
  split.
  - intros c. right. auto.
  - unfold advances, Before. intros a b c [[H1 H2]|(H1 & H2 & H3 & H4)] [[G1 G2]|(G1 & G2 & G3 & G4)]; bool_simpl.
    + left. rewrite Z.ltb_ge. lia.
    + left. rewrite Z.ltb_ge, <- G3. lia.
    + left. rewrite Z.ltb_ge, H3. lia.
    + right. split_and!; [congruence..|auto].
Qed.

#[global] Instance cursors_advance_preorder : PreOrder cursors_advance.
Proof.
  split.
  - intros w. split; [done|]. intros k c _ Hc. exists c. split; [done|reflexivity].
  - intros w1 w2 w3 [A1 A2] [B1 B2]. split; [auto|]. intros k c Hok Hc.
    destruct (A2 _ _ Hok Hc) as (c1 & Hc1 & H1). destruct (B2 k c1 (A1 Hok) Hc1) as (c2 & Hc2 & H2).
    exists c2. split; [done|]. by etrans.
Qed.

Lemma cursors_advance_same w w' : same_cursors w w' -> cursors_advance w w'.
Proof.
  intros H. split.
  - unfold cursors_ok. by rewrite H.
  - intros k c _ Hc. exists c. rewrite (durable_same _ _ _ H). split; [done|reflexivity].
Qed.

Lemma durable_inserted w w' c bytes k :
  receipt_ok c -> marshal_cursor c = Some bytes -> cursor_receipts (buckets w') = <[p_Key c := bytes]> (cursor_receipts (buckets w)) ->
  durable w' k = if bool_decide (k = p_Key c) then Some c else durable w k.
Proof.
  intros Hc Hm Hb. unfold durable. case_bool_decide as Hk.
  - subst k. erewrite load_encoded; [done| |done|done]. by rewrite Hb, lookup_insert_eq.
  - unfold loadCursorReceiptTx. by rewrite Hb, lookup_insert_ne by done.
Qed.

Lemma cursors_advance_insert w w' c bytes :
  receipt_ok c -> marshal_cursor c = Some bytes -> cursor_receipts (buckets w') = <[p_Key c := bytes]> (cursor_receipts (buckets w)) ->
  (forall c0, durable w (p_Key c) = Some c0 -> advances c0 c) -> cursors_advance w w'.
Proof.
  intros Hc Hm Hb Hadv. split.
  - intros Hok k by0. rewrite Hb. intros [[<- <-]|[Hne Hk]]%lookup_insert_Some; [eauto|]. eauto.
  - intros k c0 Hok Hk. rewrite (durable_inserted w w' c bytes k Hc Hm Hb). case_bool_decide; [subst k; eauto|].
    exists c0. split; [done|reflexivity].
Qed.

Lemma load_same_world k w r w' : loadCursorReceipt unmarshal_cursor k w = (Ok r, w') ->
  loadCursorReceiptTx unmarshal_cursor (buckets w) k = Ok r /\ buckets w' = buckets w /\ store w' = store w.
Proof.
  unfold loadCursorReceipt. intros (u & w1 & H1 & H)%bind_Ok.
  destruct (io_cases (fun w => w) w) as [[E _]|(o & l & _ & E)]; rewrite E in H1; [|destruct o]; simplify_eq; done.
Qed.

Lemma cursor_fence_passed r w w1 : cursors_ok w ->
  cursor_fence unmarshal_cursor (Some r) w = (Ok None, w1) ->
  match durable w (p_Key r) with
  | None => True
  | Some c => p_ACKPending c = false /\ p_Sequence c < p_Sequence r /\ Before (p_CollectedAt r) (p_CollectedAt c) = false
  end.
Proof.
  intros Hok H. unfold cursor_fence in H. apply bind_Ok in H as (current & w2 & H1 & H).
  apply load_same_world in H1 as [H1 _]. rewrite load_durable in H1 by done. injection H1 as ->.
  destruct current as [c|]; [|done]. unfold fail, ret in H.
  destruct (p_ACKPending c && _) eqn:E1; [done|]. destruct (_ || _) eqn:E2; [done|]. destruct (_ =? _) eqn:E3; [done|].
  bool_simpl. assert (Hlt : p_Sequence c < p_Sequence r) by lia. apply Z.ltb_lt in Hlt as Hlt'.
  rewrite Hlt' in *. rewrite andb_true_r in E1. cbn in *. done.
Qed.

Lemma cursor_fence_duplicate r w w1 : cursors_ok w ->
  cursor_fence unmarshal_cursor (Some r) w = (Ok (Some CursorAppendDuplicate), w1) ->
  exists c, durable w (p_Key r) = Some c /\ p_Sequence c = p_Sequence r /\ p_Digest c = p_Digest r
    /\ instant (p_CollectedAt c) = instant (p_CollectedAt r).
Proof.
  intros Hok H. unfold cursor_fence in H. apply bind_Ok in H as (current & w2 & H1 & H).
  apply load_same_world in H1 as [H1 _]. rewrite load_durable in H1 by done. injection H1 as ->.
  destruct current as [c|]; [|done]. exists c. unfold fail, ret in H.
  destruct (p_ACKPending c && _) eqn:E1; [done|]. destruct (_ || _) eqn:E2; [done|]. destruct (_ =? _) eqn:E3; [|done].
  apply orb_false_iff in E2 as [E2 _]. apply orb_false_iff in E2 as [_ E2]. cbn [andb] in E2. unfold TimeEqual in E2.
  bool_simpl. auto.
Qed.

Lemma persisted_receipt_ok r : validCursorReceipt r = true -> plain_cursor (persisted_of r) -> receipt_ok (persisted_of r).
Proof. intros Hv Hp. split_and!; [done|done|]. exact Hv. Qed.

Lemma append_advances cancelled class batch receipt w r w' :
  match receipt with None => True | Some c => receipt_ok c end -> cursors_ok w ->
  append marshal_header marshal_cursor unmarshal_cursor cancelled class batch receipt w = (r, w') ->
  cursors_advance w w'.
Proof.
  intros Hrec Hok H. apply append_cursors in H as [[_ H]|(_ & H & w1 & Hf)]; [by apply cursors_advance_same|].
  destruct receipt as [c|]; cbn in H; [|by apply cursors_advance_same].
  destruct (marshal_cursor c) as [bytes|] eqn:Hm; [|by apply cursors_advance_same].
  apply (cursors_advance_insert _ _ c bytes); [done|done|done|].
  apply cursor_fence_passed in Hf; [|done]. intros c0 Hc0. rewrite Hc0 in Hf. left. by destruct Hf as (_ & ? & ?).
Qed.

Lemma MarkCursorAcknowledged_advances x k n w : cursors_ok w ->
  cursors_advance w (snd (MarkCursorAcknowledged marshal_cursor unmarshal_cursor x k n w)).
Proof.
  intros Hok. unfold MarkCursorAcknowledged. destruct x; [reflexivity|]. destruct (_ || _); [reflexivity|].
  rewrite bind_get. cbv beta. destruct (negb _); [reflexivity|].
  assert (Hl : moves same_cursors (loadCursorReceipt unmarshal_cursor k)).
  { unfold loadCursorReceipt. walk. intros v. cbn. reflexivity. }
  specialize (Hl w). destruct (loadCursorReceipt _ _ _) as [[[c|]|e] w1] eqn:Hload; cbn in Hl;
    [|by apply cursors_advance_same..].
  destruct (negb (p_Sequence c =? n)) eqn:Hseq; [by apply cursors_advance_same|]. destruct (negb (p_ACKPending c)) eqn:Hack; [by apply cursors_advance_same|].
  destruct (marshal_cursor _) as [bytes|] eqn:Hm; [|by apply cursors_advance_same].
  apply load_same_world in Hload as [Hload _]. rewrite load_durable in Hload by done. injection Hload as Hd.
  destruct (durable_ok _ _ _ Hok Hd) as [Hc Hk].
  unfold bind. destruct (io_cases (set_buckets (fun b => set_cursors (<[k:=bytes]> (cursor_receipts b)) b)) w1) as [[E _]|(o & l & _ & E)];
    rewrite E; [|destruct o]; cbn.
  3: by apply cursors_advance_same.
  all: apply (cursors_advance_insert _ _ (set_ack false c) bytes);
    [destruct Hc as (P1 & P2 & P3); split_and!; done|done|cbn; rewrite Hk; cbn; by rewrite Hl
    |cbn; rewrite Hk, Hd; intros ? [= <-]; right; done].
Qed.

(** Operations whose receipts JSON carries unchanged. *)
Definition plain_op (o : op) : Prop :=
  match o with DoAppendWithCursor _ _ _ r => plain_cursor (persisted_of r) | _ => True end.

Lemma run_op_advances o w : plain_op o -> cursors_ok w -> cursors_advance w (snd (run_op o w)).
Proof.
  intros Hp Hok. destruct o; cbn [run_op].
  - unfold Append. rewrite bind_ret_snd. destruct (append _ _ _ _ _ _ _ w) as [r w'] eqn:E. by eapply append_advances in E.
  - rewrite bind_ret_snd. unfold AppendWithCursor. destruct (_ || _) eqn:Hv; [reflexivity|]. bool_simpl.
    destruct (append _ _ _ _ _ _ _ w) as [r w'] eqn:E. eapply append_advances in E; [done| |done].
    by apply persisted_receipt_ok.
  - apply cursors_advance_same. unfold Ack. destruct cancelled; [reflexivity|]. destruct (_ || _); [reflexivity|].
    rewrite bind_get. cbv beta. destruct (negb _); [reflexivity|]. unfold auditIOFailure.
    apply (moves_on_error same_cursors); [apply remove_entry_cursors|]. intros e v. by destruct (_ && _).
  - by apply MarkCursorAcknowledged_advances.
  - apply cursors_advance_same. unfold Seal. rewrite bind_get. cbv beta. destruct (negb _); [reflexivity|]. apply sealActive_cursors.
  - apply cursors_advance_same. unfold Close. rewrite bind_get. cbv beta. destruct (negb _); [reflexivity|]. cbv zeta.
    pose proof (sealActive_cursors w) as Hs. destruct (sealActive w) as [sealed w1]. cbn in Hs.
    assert (Hn : forall b r v, same_cursors v (note_failure b r v)) by (intros [] [] v; reflexivity).
    assert (Hio : moves same_cursors (io (fun w => w))) by walk. specialize (Hio (note_failure (activeContainsAudit (store w)) sealed w1)).
    destruct (io _ _) as [closed w2]. cbn in Hio |- *. etrans; [exact Hs|]. etrans; [apply Hn|]. etrans; [exact Hio|].
    transitivity (set_store (set_open false) w2); [reflexivity|apply Hn].
  - apply cursors_advance_same. enough (H : moves same_cursors (PutCheckpoint sourceID value)) by apply H.
    unfold PutCheckpoint, update_db. walk.
  - apply cursors_advance_same. enough (H : moves same_cursors (PutPolicy envelope)) by apply H.
    unfold PutPolicy, update_db. walk.
  - apply cursors_advance_same. unfold RecordHealthFinding. by destruct (empty_string _).
Qed.

(** C30: under any operations and any I/O failures, the durable receipt of a cursor key is never lost and never
    goes back: its sequence grows with a collection time that does not decrease, or it stays the same receipt,
    whose pending acknowledgement can only be resolved. *)
Theorem durable_cursors_never_go_back w0 w k c :
  cursors_ok w0 -> reachable plain_op w0 w -> durable w0 k = Some c ->
  exists c', durable w k = Some c' /\ advances c c'.
Proof.
  intros Hok H Hc. enough (Hadv : cursors_advance w0 w) by (by apply Hadv).
  induction H as [|w o f Hr IH Hp Hn]; [reflexivity|]. etrans; [exact IH|].
  etrans; [apply (cursors_advance_same w (with_faults f w)); reflexivity|].
  apply run_op_advances; [done|]. by apply (ca_ok _ _ IH).
Qed.

(** the cursor fence.  A stored batch makes its receipt the durable one, awaiting acknowledgement, and the
    receipt it replaces, if any, was acknowledged, lower and not collected later; a batch reported as a duplicate
    carries the durable sequence, digest and collection time; every other answer leaves the durable cursors alone
    unless sealing failed after the batch was stored. *)
Theorem cursor_appends_are_fenced cancelled class batch receipt w r w' :
  cursors_ok w -> plain_cursor (persisted_of receipt) ->
  AppendWithCursor marshal_header marshal_cursor unmarshal_cursor sha256 cancelled class batch receipt w = (r, w') ->
  match r with
  | Ok CursorAppendStored =>
      durable w' (c_Key receipt) = Some (persisted_of receipt) /\ sha256 (b_Payload batch) = c_Digest receipt
      /\ match durable w (c_Key receipt) with
         | None => True
         | Some c => p_ACKPending c = false /\ p_Sequence c < c_Sequence receipt
                     /\ Before (c_CollectedAt receipt) (p_CollectedAt c) = false
         end
  | Ok CursorAppendDuplicate =>
      same_cursors w w' /\ exists c, durable w (c_Key receipt) = Some c /\ p_Sequence c = c_Sequence receipt
        /\ p_Digest c = c_Digest receipt /\ instant (p_CollectedAt c) = instant (c_CollectedAt receipt)
  | Err _ => same_cursors w w' \/ durable w' (c_Key receipt) = Some (persisted_of receipt)
  end.
Proof.
  intros Hok Hp H. unfold AppendWithCursor in H. destruct (_ || _) eqn:Hv; [unfold fail in H; simplify_eq; left; reflexivity|].
  bool_simpl. assert (Hrok : receipt_ok (persisted_of receipt)) by (by apply persisted_receipt_ok).
  pose proof (append_cursors _ _ _ _ _ _ _ H) as Hcur.
  assert (Hins : cursor_receipts (buckets w') = with_receipt (Some (persisted_of receipt)) (cursor_receipts (buckets w)) ->
                 encodable (Some (persisted_of receipt)) -> durable w' (c_Key receipt) = Some (persisted_of receipt)).
  { intros Hb Henc. destruct (Henc _ eq_refl) as [bytes Hm]. cbn in Hb. rewrite Hm in Hb.
    rewrite (durable_inserted w w' (persisted_of receipt) bytes _ Hrok Hm Hb). by rewrite bool_decide_true. }
  destruct r as [[]|e].
  - destruct Hcur as [[Hs _]|(Henc & Hb & w1 & Hf)]; [by contradict Hs|]. split_and!; [auto|done|].
    apply cursor_fence_passed in Hf; [|done]. exact Hf.
  - destruct Hcur as [[_ Hs]|(_ & _ & w1 & Hf)]; apply append_duplicate in H; [|congruence]. split; [done|].
    by apply cursor_fence_duplicate in H.
  - destruct Hcur as [[_ Hs]|(Henc & Hb & _)]; auto.
Qed.

End DurableCursors.

End SpoolFacts.

(** ** Concrete runs *)

Module SpoolDemo.

Definition cursor (n : Z) (pending : bool) : persistedCursorReceipt :=
  {| p_Version := 1; p_Key := cursor_key "a" 7 "t" "i"; p_AssignmentID := "a"; p_ConfigurationRevision := 7;
     p_TemplateID := "t"; p_InstanceID := "i"; p_Sequence := n; p_Digest := replicate 32 n;
     p_CollectedAt := Time (10 + n) true; p_ACKPending := pending |}.
Definition receipt (n : Z) : CursorReceipt := publicCursorReceipt (cursor n true).

(** Batch [n] has [n] as its sequence, its priority and its payload byte. *)
Definition batch (n : Z) : Batch :=
  {| b_ID := "b" +:+ format_uint n; b_SourceID := "host"; b_CreatedAt := Time 9 true; b_Priority := n;
     b_Payload := replicate 10 n; b_Checksum := 77 |}.

Definition header_table : list recordHeader :=
  seqZ 1 6 ≫= fun n => [append_header Metric (batch n) n None; append_header AuditLog (batch n) n None;
                        append_header Metric (batch n) n (Some (cursor n true)); append_header Metric (batch n) n (Some (cursor n false))].
Definition cursor_table : list persistedCursorReceipt := seqZ 1 6 ≫= fun n => [cursor n true; cursor n false].

Definition mh := TableCodec.marshal header_table.
Definition uh := TableCodec.unmarshal header_table.
Definition mc := TableCodec.marshal cursor_table.
Definition uc := TableCodec.unmarshal cursor_table.
(** Stands for SHA-256: the digest of a payload of equal bytes. *)
Definition sha (payload : list Z) : list Z := replicate 32 (hd 0 payload).

Lemma header_law h b : plain_header h -> mh h = Some b -> uh b = Some h.
Proof. intros _. apply TableCodec.roundtrip. apply Nat.leb_le. vm_compute. reflexivity. Qed.
Lemma header_bytes h b : mh h = Some b -> Forall is_byte b.
Proof. apply TableCodec.encoded_bytes. Qed.
Lemma cursor_law c b : plain_cursor c -> mc c = Some b -> uc b = Some c.
Proof. intros _. apply TableCodec.roundtrip. apply Nat.leb_le. vm_compute. reflexivity. Qed.

Definition empty_world (max segment : Z) : World :=
  {| store := fresh_store {| MaxBytes := max; SegmentBytes := segment |}; segments := ∅; quarantine := ∅;
     buckets := {| policy_state := ∅; checkpoints := ∅; segment_index := ∅; dedup := ∅; cursor_receipts := ∅ |}; faults := [] |}.

Definition run1 (f : list outcome) (o : op) (w : World) : World := snd (run_op mh mc uc sha o (with_faults f w)).
Definition run (ops : list op) (w : World) : World := foldl (fun w o => run1 [] o w) w ops.

Lemma run_reachable P ops w0 w : reachable mh mc uc sha P w0 w -> Forall P ops ->
  (forall k, nextSeq (store (run (take k ops) w)) < 2 ^ 64 - 1) -> reachable mh mc uc sha P w0 (run ops w).
Proof.
  revert w. induction ops as [|o ops IH]; intros w Hr Hp Hn; [done|]. apply Forall_cons in Hp as [Ho Hp].
  apply (IH (run1 [] o w)); [|done|intros k; apply (Hn (S k))].
  apply reach_step; [done|done|apply (Hn O)].
Qed.

End SpoolDemo.

Section DemoFacts.
Import SpoolDemo.

Lemma empty_world_wf max segment : wf (store (empty_world max segment)).
Proof.
  split; intros; cbn in *; try constructor; try done.
  all: exfalso; by eapply not_elem_of_nil.
Qed.

Lemma empty_world_cursors max segment : cursors_ok mc (empty_world max segment).
Proof. intros k bytes H. cbn in H. by rewrite lookup_empty in H. Qed.

(** Two metrics and an audit record fill 99 of 110 bytes; the next append must evict, and its file write fails. *)
Definition demo_full : World :=
  run [DoAppend false Metric (batch 1); DoAppend false AuditLog (batch 2); DoAppend false Metric (batch 3)] (empty_world 110 70).
Definition demo_failed : World :=
  run1 (replicate 9 Works ++ [Fails 5]) (DoAppend false Metric (batch 4)) demo_full.

Lemma demo_full_reachable : reachable mh mc uc sha (fun _ => True) (empty_world 110 70) demo_full.
Proof.
  apply run_reachable; [apply reach_refl|repeat constructor|].
  intros [|[|[|[|k]]]]; vm_compute; reflexivity.
Qed.

Lemma demo_full_wf : wf (store demo_full).
Proof.
  pose proof demo_full_reachable as H.
  induction H as [|w o f Hr IH _ Hn]; [apply empty_world_wf|]. by apply run_op_wf.
Qed.

Lemma reachable_spools_are_well_formed_witness :
  wf (store demo_failed) /\ fst (run_op mh mc uc sha (DoAppend false AuditLog (batch 4)) (with_faults [] demo_failed)) <> Err ErrFuel.
Proof.
  destruct (reachable_spools_are_well_formed mh mc uc sha (empty_world 110 70) demo_failed) as [H1 H2].
  - apply empty_world_wf.
  - apply reach_step; [exact demo_full_reachable|exact I|vm_compute; reflexivity].
  - split; [exact H1|]. apply H2. vm_compute. reflexivity.
Defined.

Lemma append_stays_within_capacity_witness :
  usedBytes (store (snd (append mh mc uc false Metric (batch 4) None demo_full))) <= 110.
Proof.
  apply (append_stays_within_capacity mh mc uc false Metric (batch 4) None demo_full).
  - exact demo_full_wf.
  - vm_compute. reflexivity.
  - vm_compute. reflexivity.
Defined.

Lemma audit_records_survive_appends_witness :
  exists added, core <$> entries (store (snd (append mh mc uc false Metric (batch 4) None demo_full))) AuditLog
                = (core <$> entries (store demo_full) AuditLog) ++ added /\ length (entries (store demo_full) AuditLog) = 1%nat.
Proof.
  destruct (audit_records_survive_appends mh mc uc false Metric (batch 4) None demo_full
              (fst (append mh mc uc false Metric (batch 4) None demo_full))
              (snd (append mh mc uc false Metric (batch 4) None demo_full))) as (added & H & _).
  - exact demo_full_wf.
  - vm_compute. reflexivity.
  - destruct (append mh mc uc false Metric (batch 4) None demo_full). reflexivity.
  - exists added. split; [exact H|vm_compute; reflexivity].
Defined.

Lemma eviction_prefers_cheap_data_witness :
  option_map e_sequence (evictionCandidate (store demo_full)) = Some 1 /\
  match evictionCandidate (store demo_full) with Some e => e_class e <> AuditLog | None => False end.
Proof.
  split; [vm_compute; reflexivity|].
  pose proof (eviction_prefers_cheap_data (store demo_full) demo_full_wf) as H.
  destruct (evictionCandidate (store demo_full)) as [e|] eqn:E; [apply H|]. vm_compute in E. discriminate.
Defined.

Lemma acknowledgement_removes_exactly_one_witness :
  let w' := snd (Ack mh false Metric "b1" demo_full) in
  entries (store w') Metric = filter (fun e => entry_id e <> "b1") (entries (store demo_full) Metric)
  /\ length (entries (store w') Metric) = 1%nat /\ fst (Ack mh false Metric "b1" w') = Ok tt.
Proof.
  destruct (acknowledgement_removes_exactly_one mh Metric "b1" demo_full (snd (Ack mh false Metric "b1" demo_full))) as [H1 H2].
  - exact demo_full_wf.
  - vm_compute. reflexivity.
  - split; [|split; [vm_compute; reflexivity|vm_compute; reflexivity]]. exact (H1 Metric).
Defined.

(** A plugin batch, its acknowledgement, the next one; the last step seals. *)
Definition demo_cursors : World :=
  run [DoAppendWithCursor false Metric (batch 1) (receipt 1); DoMark false (cursor_key "a" 7 "t" "i") 1;
       DoAppendWithCursor false Metric (batch 2) (receipt 2)] (empty_world 1000 1000).

Lemma cursor_plain n b : 1 <= n <= 6 -> plain_cursor (cursor n b).
Proof.
  intros Hn. unfold plain_cursor, ascii_string, is_byte. split_and!; try done; try (cbn; lia).
  - apply (bool_decide_eq_true_1 (Forall _ _)). vm_compute. reflexivity.
  - apply (bool_decide_eq_true_1 (Forall _ _)). vm_compute. reflexivity.
  - apply (bool_decide_eq_true_1 (Forall _ _)). vm_compute. reflexivity.
  - apply (bool_decide_eq_true_1 (Forall _ _)). vm_compute. reflexivity.
  - apply Forall_replicate. lia.
Qed.

Definition demo_first : World := run1 [] (DoAppendWithCursor false Metric (batch 1) (receipt 1)) (empty_world 1000 1000).

Lemma demo_first_cursors : cursors_ok mc demo_first.
Proof.
  apply (ca_ok mc uc _ _ (run_op_advances mh mc uc sha cursor_law
           (DoAppendWithCursor false Metric (batch 1) (receipt 1)) (with_faults [] (empty_world 1000 1000))
           (cursor_plain 1 true ltac:(lia)) (empty_world_cursors 1000 1000)) (empty_world_cursors 1000 1000)).
Qed.

Lemma durable_cursors_never_go_back_witness :
  exists c', durable uc demo_cursors (cursor_key "a" 7 "t" "i") = Some c' /\ advances (cursor 1 true) c' /\ p_Sequence c' = 2.
Proof.
  destruct (durable_cursors_never_go_back mh mc uc sha cursor_law demo_first demo_cursors (cursor_key "a" 7 "t" "i") (cursor 1 true))
    as (c' & H1 & H2).
  - exact demo_first_cursors.
  - apply (run_reachable plain_op [DoMark false (cursor_key "a" 7 "t" "i") 1; DoAppendWithCursor false Metric (batch 2) (receipt 2)]
             demo_first demo_first).
    + apply reach_refl.
    + repeat constructor; try done. all: apply (cursor_plain 2 true); lia.
    + intros [|[|[|k]]]; vm_compute; reflexivity.
  - vm_compute. reflexivity.
  - exists c'. split_and!; [exact H1|exact H2|]. vm_compute in H1. injection H1 as <-. reflexivity.
Defined.

Lemma cursor_appends_are_fenced_witness :
  let w' := snd (AppendWithCursor mh mc uc sha false Metric (batch 1) (receipt 1) (empty_world 1000 1000)) in
  durable uc w' (c_Key (receipt 1)) = Some (persisted_of (receipt 1)) /\ sha (b_Payload (batch 1)) = c_Digest (receipt 1).
Proof.
  pose proof (cursor_appends_are_fenced mh mc uc sha cursor_law false Metric (batch 1) (receipt 1) (empty_world 1000 1000)
    (Ok CursorAppendStored) (snd (AppendWithCursor mh mc uc sha false Metric (batch 1) (receipt 1) (empty_world 1000 1000)))
    (empty_world_cursors 1000 1000)) as H.
  destruct H as (H1 & H2 & _).
  - apply (cursor_plain 1 true). lia.
  - vm_compute. reflexivity.
  - exact (conj H1 H2).
Defined.

End DemoFacts.
