(* ===== verification/SpoolDurability.v ===== *)
(** * Durability of the spool

    What a restart recovers.  When no I/O call fails, the segment files hold exactly the pending entries after
    every operation ([on_disk]), so that [recover] rebuilds the same pending batches; whether [Open] then succeeds
    depends on the cursors.  The last part holds runs in which the code loses its own bookkeeping. *)

From stdpp Require Import pretty.
From S2P Require Import Prelude SpoolCodec SpoolStore.

Local Open Scope Z_scope.
Local Open Scope spool_scope.

(** ** File names *)

Fixpoint decimal_prefix (acc : N) (s : string) : N :=
  match s with
  | EmptyString => acc
  | String a rest =>
      let c := Ascii.N_of_ascii a in
      if ((48 <=? c) && (c <=? 57))%N then decimal_prefix (10 * acc + (c - 48)) rest else acc
  end.

Lemma decimal_prefix_digit acc d s : (d < 10)%N ->
  decimal_prefix acc (String (pretty_N_char d) s) = decimal_prefix (10 * acc + d) s.
Proof.
  intros Hd. assert (Hc : d ∈ (N.of_nat <$> seq 0 10)).
  { apply list_elem_of_fmap. exists (N.to_nat d). rewrite N2Nat.id. split; [done|]. apply elem_of_seq. lia. }
  clear Hd. revert d Hc. apply Forall_forall. repeat (apply Forall_cons; split; [reflexivity|]). constructor.
Qed.

Lemma decimal_prefix_pretty x s t :
  decimal_prefix 0 (pretty_N_go x s +:+ t)%string = decimal_prefix x (s +:+ t)%string.
Proof.
  revert s. induction (N.lt_wf_0 x) as [x _ IH]; intros s.
  assert (x = 0 \/ 0 < x)%N as [->|Hx] by lia; [by rewrite pretty_N_go_0|].
  rewrite pretty_N_go_step by done. rewrite IH by (by apply N.div_lt).
  change (String ?a s +:+ t)%string with (String a (s +:+ t)). rewrite decimal_prefix_digit by (apply N.mod_lt; lia).
  f_equal. rewrite <- N.div_mod; lia.
Qed.

Lemma decimal_prefix_zeros n s : decimal_prefix 0 (zeros n +:+ s)%string = decimal_prefix 0 s.
Proof. induction n as [|n IH]; [done|]. exact IH. Qed.

Lemma string_app_assoc (a b c : string) : ((a +:+ b) +:+ c = a +:+ (b +:+ c))%string.
Proof. induction a as [|x a IH]; [done|]. apply (f_equal (String x)), IH. Qed.

Lemma decimal_prefix_sealed j : 0 < j -> decimal_prefix 0 (sealed_name j) = Z.to_N j.
Proof.
  intros Hj. unfold sealed_name, sequenceKey, format_uint. rewrite string_app_assoc, decimal_prefix_zeros.
  unfold pretty, pretty_N. rewrite decide_False by lia. by rewrite decimal_prefix_pretty.
Qed.

Lemma sealed_name_inj i j : 0 < i -> 0 < j -> sealed_name i = sealed_name j -> i = j.
Proof. intros Hi Hj H. apply (f_equal (decimal_prefix 0)) in H. rewrite !decimal_prefix_sealed in H by done. lia. Qed.

Lemma sealed_not_active j : 0 < j -> sealed_name j <> active_open.
Proof. intros Hj H. apply (f_equal (decimal_prefix 0)) in H. rewrite decimal_prefix_sealed in H by done. change (decimal_prefix 0 active_open) with 0%N in H. lia. Qed.

Lemma ends_with_app a suffix : ends_with suffix (a +:+ suffix)%string = true.
Proof.
  induction a as [|x a IH].
  - change (ends_with suffix suffix = true). destruct suffix; apply orb_true_iff; left; by apply bool_decide_eq_true_2.
  - change (ends_with suffix (String x (a +:+ suffix)) = true)%string. apply orb_true_iff. right. exact IH.
Qed.

Lemma sealed_name_seg j : ends_with seg_suffix (sealed_name j) = true.
Proof. apply ends_with_app. Qed.

Section Durability.

Context (marshal_header : recordHeader -> option (list Z)).
Context (unmarshal_header : list Z -> option recordHeader).
Context (marshal_cursor : persistedCursorReceipt -> option (list Z)).
Context (unmarshal_cursor : list Z -> option persistedCursorReceipt).
Context (sha256 : list Z -> list Z).
(** The JSON codecs read back what they wrote, write bytes, and encode the receipt of any header they encode. *)
Context (header_roundtrip : forall h b, plain_header h -> marshal_header h = Some b -> unmarshal_header b = Some h).
Context (header_bytes : forall h b, marshal_header h = Some b -> Forall is_byte b).
Context (cursor_roundtrip : forall c b, plain_cursor c -> marshal_cursor c = Some b -> unmarshal_cursor b = Some c).
Context (header_cursor : forall h c b, marshal_header h = Some b -> h_Cursor h = Some c -> is_Some (marshal_cursor c)).

Local Notation run_op := (run_op marshal_header marshal_cursor unmarshal_cursor sha256).

(** ** The invariant *)

(** An entry that its record describes completely. *)
Record sound (e : entry) : Prop := {
  so_writable : writable (header_of e) (b_Payload (e_batch e));
  so_utc : in_utc (b_CreatedAt (e_batch e)) = true;
  so_cursor c : e_cursor e = Some c -> receipt_ok c
}.

Definition file_entries (s : Store) (f : string) : list entry := filter (fun e => e_file e = f) (all_entries s).

(** [contents] is a segment with the records of [l], up to the acknowledgement flags when they were written. *)
Definition holds (contents : list Z) (l : list entry) : Prop :=
  exists es, encode_records marshal_header (record_of <$> es) = Ok contents /\ Forall sound es
    /\ core <$> es ≡ₚ core <$> l.

Record on_disk (w : World) : Prop := {
  d_faults : faults w = [];
  d_wf : wf (store w);
  d_sound e : e ∈ all_entries (store w) -> sound e;
  d_files f : match segments w !! f with
              | None => file_entries (store w) f = []
              | Some contents => holds contents (file_entries (store w) f)
              end;
  d_names f : is_Some (segments w !! f) ->
    f = active_open \/ exists j, f = sealed_name j /\ 0 < j <= nextSeq (store w)
                       /\ forall e, e ∈ file_entries (store w) active_open -> j < e_sequence e;
  d_active : activeFile (store w) = EmptyString \/ activeFile (store w) = active_open
}.

Lemma io_quiet ok w : faults w = [] -> io ok w = (Ok tt, ok w).
Proof. intros H. unfold io, io_partial. by rewrite H. Qed.

Lemma bind_io_quiet {B} ok (k : unit -> M B) w : faults w = [] -> bind (io ok) k w = k tt (ok w).
Proof. intros H. unfold bind. by rewrite io_quiet. Qed.

(** ** Removal *)

Definition remaining_of (s : Store) (exclude : entry) : list entry :=
  by_sequence (filter (fun e => e_file e = e_file exclude /\ e_sequence e <> e_sequence exclude) (all_entries s)).

Lemma rewriteWithout_quiet exclude w : faults w = [] ->
  rewriteWithout marshal_header exclude w =
  match remaining_of (store w) exclude with
  | [] => (Ok 0, set_segments (base.delete (e_file exclude)) w)
  | l => match encode_records marshal_header (record_of <$> l) with
         | Err x => (Err x, w)
         | Ok contents => (Ok (len contents), set_segments <[e_file exclude := contents]> w)
         end
  end.
Proof.
  intros Hq. unfold rewriteWithout. rewrite bind_get. cbv zeta beta. fold (remaining_of (store w) exclude).
  destruct (remaining_of _ _) as [|e l]; [by rewrite bind_io_quiet|].
  destruct (encode_records _ _) as [contents|]; [|done].
  unfold atomicReplace, bind. by rewrite !io_quiet.
Qed.

Lemma all_entries_remove s class id i item :
  validClass class = true -> find_entry s class id = Some (i, item) ->
  all_entries s ≡ₚ item :: (classes ≫= remove s class id).
Proof.
  intros Hv Hf. unfold all_entries, remove, update_class. rewrite Hf. apply list_find_Some in Hf as (Hi & _ & _).
  assert (Hp : entries s class ≡ₚ item :: delete i (entries s class)) by (by apply delete_Permutation).
  unfold classes. cbn. rewrite !app_nil_r.
  repeat (case_bool_decide; [subst class|]); try (rewrite Hp at 1; solve_Permutation). by destruct class.
Qed.

Lemma file_entries_remove s class id i item f :
  wf s -> validClass class = true -> find_entry s class id = Some (i, item) ->
  let s' := set_entries (remove s class id) s in
  if decide (f = e_file item) then remaining_of s item ≡ₚ file_entries s' f
  else file_entries s f ≡ₚ file_entries s' f.
Proof.
  intros W Hv Hf s'. pose proof (all_entries_remove _ _ _ _ _ Hv Hf) as Hp. unfold file_entries, remaining_of, by_sequence.
  change (all_entries s') with (classes ≫= remove s class id).
  set (R := classes ≫= remove s class id) in *.
  assert (Hne : forall e, e ∈ R -> e_sequence e <> e_sequence item).
  { intros e He Heq. pose proof (wf_seq _ W) as Hnd. rewrite Hp in Hnd. cbn in Hnd. apply NoDup_cons in Hnd as [Hn _].
    apply Hn. rewrite <- Heq. by apply list_elem_of_fmap_2. }
  case_decide as Hfile.
  - subst f. rewrite (merge_sort_Permutation seq_le), Hp, filter_cons_False by naive_solver.
    rewrite (filter_ext_in (fun e => e_file e = e_file item /\ e_sequence e <> e_sequence item) (fun e => e_file e = e_file item) R); [done|].
    intros e He. naive_solver.
  - rewrite Hp, filter_cons_False by congruence. done.
Qed.

(** The outcome of a removal without I/O failures: an encoding error without any effect, or the removal. *)
Lemma remove_entry_quiet class id w i item :
  faults w = [] -> find_entry (store w) class id = Some (i, item) ->
  (exists x, remove_entry marshal_header class id w = (Err x, w)) \/
  exists w', remove_entry marshal_header class id w = (Ok tt, w') /\ faults w' = []
    /\ entries (store w') = remove (store w) class id /\ nextSeq (store w') = nextSeq (store w)
    /\ (activeFile (store w') = EmptyString \/ activeFile (store w') = activeFile (store w))
    /\ match remaining_of (store w) item with
       | [] => segments w' = base.delete (e_file item) (segments w)
       | l => exists contents, encode_records marshal_header (record_of <$> l) = Ok contents
                /\ segments w' = <[e_file item := contents]> (segments w)
       end.
Proof.
  intros Hq Hf. assert (Hre : exists k, remove_entry marshal_header class id w = bind (rewriteWithout marshal_header item) k w
    /\ k = fun size => io (set_buckets (fun b => set_indexes (base.delete (sequenceKey (e_sequence item)) (segment_index b)) (base.delete (dedupKey class id) (dedup b)) b)) ;;;
     put (set_store (fun s => set_entries (remove s class id) s)) ;;;
     if bool_decide (e_file (item_after_remove (store w) class i item) = activeFile (store w))
     then put (set_store (set_active (if size =? 0 then EmptyString else activeFile (store w)) size)) else ret tt).
  { unfold remove_entry. rewrite bind_get. cbv beta. rewrite Hf. eauto. }
  destruct Hre as (k & -> & Hk). unfold bind at 1 2. rewrite (rewriteWithout_quiet item w Hq).
  assert (Hend : forall size f, exists w', k size (set_segments f w) = (Ok tt, w')
    /\ faults w' = [] /\ entries (store w') = remove (store w) class id /\ nextSeq (store w') = nextSeq (store w)
    /\ (activeFile (store w') = EmptyString \/ activeFile (store w') = activeFile (store w)) /\ segments w' = f (segments w)).
  { intros size f. rewrite Hk. rewrite bind_io_quiet by done. rewrite bind_put. cbv beta.
    destruct (bool_decide _); eexists; (split; [reflexivity|]); cbn; split_and!; try done; [destruct (size =? 0)|]; auto. }
  destruct (remaining_of (store w) item) as [|e l].
  - destruct (Hend 0 (base.delete (e_file item))) as (w' & H1 & H2). right. exists w'. split; [exact H1|exact H2].
  - destruct (encode_records _ _) as [contents|x]; [|left; eauto].
    destruct (Hend (len contents) <[e_file item := contents]>) as (w' & H1 & A & B & C & D & E). right. exists w'.
    split; [exact H1|]. split_and!; try done. by exists contents.
Qed.

Lemma remove_on_disk class id w : validClass class = true -> on_disk w -> on_disk (snd (remove_entry marshal_header class id w)).
Proof.
  intros Hv [D1 D2 D3 D4 D5 D6]. destruct (find_entry (store w) class id) as [[i item]|] eqn:Hf.
  2:{ unfold remove_entry. rewrite bind_get. cbv beta. rewrite Hf. by split. }
  pose proof (remove_entry_evolves marshal_header class id w) as Hev.
  destruct (remove_entry_quiet class id w i item D1 Hf) as [[x ->]|(w' & Hr & Q1 & Q2 & Q3 & Q4 & Q5)]; [by split|].
  rewrite Hr in Hev |- *. cbn [snd] in *. assert (W' : wf (store w')) by (by eapply wf_evolves).
  pose proof (all_entries_remove _ _ _ _ _ Hv Hf) as Hall.
  assert (Hsub : forall e, e ∈ all_entries (store w') -> e ∈ all_entries (store w)).
  { intros e He. rewrite Hall. right. unfold all_entries in He. by rewrite Q2 in He. }
  assert (Hfe : forall f, if decide (f = e_file item) then remaining_of (store w) item ≡ₚ file_entries (store w') f
                          else file_entries (store w) f ≡ₚ file_entries (store w') f).
  { intros f. pose proof (file_entries_remove _ _ _ _ _ f D2 Hv Hf) as H. cbv zeta in H.
    unfold file_entries, all_entries in *. cbn in H. by rewrite Q2. }
  assert (Hseg : forall f, f <> e_file item -> segments w' !! f = segments w !! f).
  { intros f Hne. destruct (remaining_of (store w) item) as [|e0 l0]; [by rewrite Q5, lookup_delete_ne by done|].
    destruct Q5 as (c & _ & ->). by rewrite lookup_insert_ne. }
  split; [done|done|intros e He; auto| | |].
  - intros f. specialize (Hfe f). case_decide as Hfile.
    + subst f. destruct (remaining_of (store w) item) as [|e0 l0] eqn:Hrem.
      * rewrite Q5, lookup_delete_eq. by apply Permutation_nil in Hfe.
      * destruct Q5 as (c & Henc & ->). rewrite lookup_insert_eq. exists (e0 :: l0). split_and!; [done| |by rewrite Hfe].
        apply Forall_forall. intros e He. apply D3. rewrite <- Hrem in He. unfold remaining_of, by_sequence in He.
        rewrite merge_sort_Permutation in He. apply list_elem_of_filter in He as [_ He]. exact He.
    + rewrite Hseg by done. specialize (D4 f). destruct (segments w !! f) as [c|].
      * destruct D4 as (es & E1 & E2 & E3). exists es. by rewrite <- Hfe.
      * rewrite D4 in Hfe. by apply Permutation_nil in Hfe.
  - intros f Hsome. assert (Hsome' : is_Some (segments w !! f)).
    { destruct (decide (f = e_file item)) as [->|Hne]; [|by rewrite <- Hseg]. specialize (D4 (e_file item)).
      destruct (segments w !! e_file item); [eauto|]. exfalso. eapply (filter_nil_not_elem_of (fun e => e_file e = e_file item)) in D4;
        [|reflexivity]. apply D4. rewrite Hall. left. }
    destruct (D5 f Hsome') as [->|(j & -> & Hj & Hlt)]; [by left|]. right. exists j. rewrite Q3. split_and!; [done|lia|lia|].
    intros e He. apply Hlt. unfold file_entries in *. rewrite list_elem_of_filter in *. naive_solver.
  - destruct Q4 as [H|H]; rewrite H; auto.
Qed.

(** ** Sealing *)

Lemma sound_set_file f e : sound e -> sound (set_file f e).
Proof. intros [S1 S2 S3]. by split. Qed.

Lemma first_active_spec s : wf s ->
  match file_entries s (activeFile s) with
  | [] => first_active s = 0
  | _ => 0 < first_active s <= nextSeq s /\ exists e, e ∈ file_entries s (activeFile s) /\ e_sequence e = first_active s
  end.
Proof.
  intros W. pose proof (wf_bound _ W) as Hb. unfold first_active, file_entries.
  set (f := activeFile s). revert Hb. generalize (all_entries s) as l. intros l Hb.
  assert (H : forall acc, (0 <= acc <= nextSeq s) ->
    let r := foldl (fun first e => if bool_decide (e_file e = f) && ((first =? 0) || (e_sequence e <? first)) then e_sequence e else first) acc l in
    (r = acc /\ (0 < acc \/ filter (fun e => e_file e = f) l = []))
    \/ 0 < r <= nextSeq s /\ exists e, e ∈ filter (fun e => e_file e = f) l /\ e_sequence e = r).
  { clear W. induction l as [|e l IH]; intros acc Hacc r; [by left; auto|].
    pose proof (Hb e ltac:(left)) as He. specialize (IH (fun x Hx => Hb x (list_elem_of_further _ _ _ Hx))).
    unfold r. clear r. cbn [foldl]. rewrite filter_cons.
    destruct (decide (e_file e = f)) as [Hf|Hf]; [rewrite bool_decide_true by done|rewrite bool_decide_false by done; by apply IH].
    cbn [andb]. destruct ((acc =? 0) || (e_sequence e <? acc)) eqn:Hc.
    - destruct (IH (e_sequence e) ltac:(lia)) as [[-> _]|(I1 & x & I2 & I3)]; right; (split; [lia|]); [exists e|exists x];
        (split; [|done]); [left|by right].
    - bool_simpl. destruct (IH acc Hacc) as [[-> _]|(I1 & x & I2 & I3)]; [left; split; [done|lia]|].
      right. split; [done|]. exists x. split; [by right|done]. }
  pose proof (wf_next _ W). destruct (H 0 ltac:(lia)) as [[H1 [H2|H2]]|(H1 & e & H2 & H3)]; [lia|by rewrite H2|].
  destruct (filter _ l) as [|e0 k]; [by apply not_elem_of_nil in H2|]. split; [done|eauto].
Qed.

Definition sealing (s : Store) (sealed : string) (e : entry) : entry :=
  if bool_decide (e_file e = activeFile s) then set_file sealed e else e.

Lemma sealed_entries s sealed s' :
  (forall c, entries s' c = sealing s sealed <$> entries s c) -> all_entries s' = sealing s sealed <$> all_entries s.
Proof. intros H. unfold all_entries, classes. cbn. rewrite !H. by rewrite !fmap_app. Qed.

Lemma file_entries_sealed s sealed s' f :
  (forall c, entries s' c = sealing s sealed <$> entries s c) -> sealed <> activeFile s -> file_entries s sealed = [] ->
  core <$> file_entries s' f =
  if decide (f = sealed) then core <$> file_entries s (activeFile s)
  else if decide (f = activeFile s) then [] else core <$> file_entries s f.
Proof.
  intros He Hne Hnone. unfold file_entries in *. rewrite (sealed_entries _ _ _ He). clear He.
  induction (all_entries s) as [|e l IH]; [by repeat case_decide|].
  rewrite filter_cons in Hnone. destruct (decide (e_file e = sealed)) as [|Hes]; [done|]. specialize (IH Hnone).
  rewrite fmap_cons, !filter_cons.
  assert (Hs : sealing s sealed e = if decide (e_file e = activeFile s) then set_file sealed e else e).
  { unfold sealing. destruct (decide (e_file e = activeFile s)); [by rewrite bool_decide_true|by rewrite bool_decide_false]. }
  rewrite Hs. clear Hs. destruct (decide (e_file e = activeFile s)) as [Hea|Hea]; cbn [e_file set_file];
    destruct (decide (f = sealed)), (decide (f = activeFile s)), (decide (sealed = f)), (decide (e_file e = f));
    rewrite ?fmap_cons, IH; first [reflexivity | congruence].
Qed.

(** The effect of sealing without I/O failures. *)
Lemma sealActive_quiet w : on_disk w ->
  exists w', sealActive w = (Ok tt, w') /\ faults w' = [] /\
  (w' = w \/
   activeFile (store w) = active_open /\ activeFile (store w') = EmptyString /\
   (file_entries (store w) active_open = [] /\ segments w' = base.delete active_open (segments w) /\ entries (store w') = entries (store w)
    \/ exists bytes, segments w !! active_open = Some bytes /\ file_entries (store w) active_open <> []
        /\ segments w' = <[sealed_name (first_active (store w)) := bytes]> (base.delete active_open (segments w))
        /\ forall c, entries (store w') c = sealing (store w) (sealed_name (first_active (store w))) <$> entries (store w) c)).
Proof.
  intros [D1 D2 D3 D4 D5 D6]. unfold sealActive. rewrite bind_get. cbv beta zeta.
  destruct (empty_string (activeFile (store w))) eqn:Hemp; [eauto|].
  destruct D6 as [D6|D6]; [by rewrite D6 in Hemp|]. pose proof (first_active_spec _ D2) as Hfirst.
  rewrite D6 in Hfirst |- *. pose proof (D4 active_open) as Hact.
  destruct (file_entries (store w) active_open) as [|e0 l0] eqn:Hfe.
  - rewrite Hfirst. cbn [Z.eqb]. rewrite bind_io_quiet by done. eexists. split; [reflexivity|]. split; [done|]. right. auto 6.
  - destruct (first_active (store w) =? 0) eqn:Hz; [bool_simpl; lia|]. rewrite bind_get. cbv beta.
    destruct (segments w !! active_open) as [bytes|]; [|done].
    rewrite bind_io_quiet by done. rewrite bind_io_quiet by done. rewrite bind_io_quiet by done.
    eexists. split; [reflexivity|]. split; [done|]. right. split_and!; [done|done|]. right. exists bytes. split_and!; try done.
Qed.

Lemma sealActive_on_disk w : on_disk w -> on_disk (snd (sealActive w)) /\ fst (sealActive w) = Ok tt.
Proof.
  intros HD. pose proof HD as [D1 D2 D3 D4 D5 D6]. pose proof (sealActive_evolves (fun _ => True) w) as Hev.
  destruct (sealActive_quiet w HD) as (w' & Hr & Q1 & Hw). rewrite Hr in *. cbn [snd fst] in *. split; [|done].
  assert (W' : wf (store w')) by (by eapply wf_evolves). pose proof (ev_next _ _ _ Hev) as Hnext.
  destruct Hw as [->|(Ha & Ha' & [(Hnone & Hseg & Hent)|(bytes & Hb & Hne & Hseg & Hent)])]; [done| |].
  - assert (Hfe : forall f, file_entries (store w') f = file_entries (store w) f).
    { intros f. unfold file_entries, all_entries. by rewrite Hent. }
    split; [done|done| | | |by left].
    + intros e He. apply D3. unfold all_entries in *. by rewrite Hent in He.
    + intros f. rewrite Hseg, Hfe. destruct (decide (f = active_open)) as [->|Hf]; [by rewrite lookup_delete_eq|].
      rewrite lookup_delete_ne by done. apply D4.
    + intros f Hs. rewrite Hseg in Hs. destruct (decide (f = active_open)) as [->|Hf]; [by left|].
      rewrite lookup_delete_ne in Hs by done. destruct (D5 f Hs) as [->|(j & -> & Hj & Hlt)]; [done|].
      right. exists j. rewrite Hnext, Hfe. auto.
  - pose proof (first_active_spec _ D2) as Hfirst. rewrite Ha in Hfirst. set (sealed := sealed_name (first_active (store w))) in *.
    assert (Hf : 0 < first_active (store w) <= nextSeq (store w)
                 /\ exists e, e ∈ file_entries (store w) active_open /\ e_sequence e = first_active (store w))
      by (destruct (file_entries (store w) active_open); done).
    clear Hfirst. destruct Hf as (Hpos & e0 & He0 & Heq0). assert (Hsa : sealed <> active_open) by (apply sealed_not_active; lia).
    assert (Hfresh : segments w !! sealed = None).
    { destruct (segments w !! sealed) eqn:Hs; [|done]. exfalso.
      destruct (D5 sealed ltac:(eauto)) as [Heq|(j & Heq & Hj & Hlt)]; [done|]. apply sealed_name_inj in Heq; [|lia|lia].
      specialize (Hlt e0 He0). lia. }
    assert (Hnone : file_entries (store w) sealed = []) by (specialize (D4 sealed); by rewrite Hfresh in D4).
    pose proof (fun f => file_entries_sealed (store w) sealed (store w') f Hent ltac:(congruence) Hnone) as Hfe. rewrite Ha in Hfe.
    assert (Hactive : file_entries (store w') active_open = []).
    { specialize (Hfe active_open). rewrite decide_False, decide_True in Hfe by done. by apply fmap_nil_inv in Hfe. }
    split; [done|done| | | |by left].
    + intros e He. rewrite (sealed_entries _ _ _ Hent) in He. apply list_elem_of_fmap in He as (e1 & -> & He1). unfold sealing.
      destruct (bool_decide _); [apply sound_set_file|]; auto.
    + intros f. rewrite Hseg. destruct (decide (f = sealed)) as [->|Hf1].
      * rewrite lookup_insert_eq. specialize (D4 active_open). rewrite Hb in D4. destruct D4 as (es & E1 & E2 & E3).
        exists es. split_and!; [done|done|]. rewrite Hfe, decide_True by done. done.
      * rewrite lookup_insert_ne by done. destruct (decide (f = active_open)) as [->|Hf2]; [by rewrite lookup_delete_eq|].
        rewrite lookup_delete_ne by done. specialize (Hfe f). rewrite !decide_False in Hfe by done. specialize (D4 f).
        destruct (segments w !! f) as [c|].
        -- destruct D4 as (es & E1 & E2 & E3). exists es. by rewrite Hfe.
        -- rewrite D4 in Hfe. by apply fmap_nil_inv in Hfe.
    + intros f Hs. rewrite Hseg in Hs. destruct (decide (f = sealed)) as [->|Hf1].
      * right. exists (first_active (store w)). rewrite Hactive, Hnext. split_and!; [done|lia|lia|].
        intros e He. by apply not_elem_of_nil in He.
      * rewrite lookup_insert_ne in Hs by done. destruct (decide (f = active_open)) as [->|Hf2]; [by left|].
        rewrite lookup_delete_ne in Hs by done. destruct (D5 f Hs) as [->|(j & -> & Hj & Hlt)]; [done|].
        right. exists j. rewrite Hnext, Hactive. split_and!; [done|lia|lia|]. intros e He. by apply not_elem_of_nil in He.
Qed.

(** ** Append *)

(** [on_disk] reads the entries, the counter, the active file name, the segments and the faults only. *)
Lemma on_disk_same w w' :
  entries (store w') = entries (store w) -> nextSeq (store w') = nextSeq (store w) -> segments w' = segments w ->
  faults w' = [] -> (activeFile (store w') = activeFile (store w) \/ activeFile (store w') = active_open \/ activeFile (store w') = EmptyString) ->
  on_disk w -> on_disk w'.
Proof.
  intros H1 H2 H3 H4 H5 [D1 D2 D3 D4 D5 D6].
  assert (Hall : all_entries (store w') = all_entries (store w)) by (unfold all_entries; by rewrite H1).
  assert (Hfe : forall f, file_entries (store w') f = file_entries (store w) f) by (intros f; unfold file_entries; by rewrite Hall).
  split; [done|by eapply wf_same_entries| | | |].
  - by rewrite Hall.
  - intros f. rewrite H3, Hfe. apply D4.
  - intros f. rewrite H2, H3, Hfe. apply D5.
  - destruct H5 as [->|[->|H5]]; auto.
Qed.

Lemma makeCapacity_on_disk fuel class needed w : on_disk w -> on_disk (snd (makeCapacity_loop marshal_header fuel class needed w)).
Proof.
  revert w. induction fuel as [|fuel IH]; intros w HD; [done|]. cbn [makeCapacity_loop]. rewrite bind_get. cbv beta.
  destruct (_ <? _); [|done]. destruct (evictionCandidate (store w)) as [cand|] eqn:Hc.
  - apply evict_from_Some in Hc as (c & Hc & Hin & _).
    assert (Hcl : e_class cand = c) by (pose proof (wf_class _ (d_wf _ HD) c) as HF; rewrite Forall_forall in HF; auto). subst c.
    assert (Hv : validClass (e_class cand) = true).
    { rewrite !elem_of_cons in Hc. destruct Hc as [->|[->|[->|Hn]]]; try done. by apply not_elem_of_nil in Hn. }
    pose proof (remove_on_disk (e_class cand) (entry_id cand) w Hv HD) as HD'. unfold bind, delete_entry.
    destruct (remove_entry _ _ _ w) as [[[]|e] w1]; [by apply IH|done].
  - destruct (bool_decide _); [|done]. eapply on_disk_same; [..|exact HD]; try done; [apply HD|by left].
Qed.

Lemma make_room_on_disk class needed w r w' :
  on_disk w -> make_room marshal_header class needed w = (r, w') ->
  on_disk w' /\ (r = Ok tt -> activeFile (store w') = active_open).
Proof.
  intros HD H. unfold make_room in H. rewrite bind_get in H. cbv beta in H.
  apply bind_cases in H as [(e & H1 & ->)|([] & w1 & H1 & H)].
  { split; [|done]. destruct (_ && _ && _); [|done]. pose proof (proj1 (sealActive_on_disk _ HD)) as Hs. by rewrite H1 in Hs. }
  assert (HD1 : on_disk w1).
  { destruct (_ && _ && _); [|unfold ret in H1; by simplify_eq].
    pose proof (proj1 (sealActive_on_disk _ HD)) as Hs. by rewrite H1 in Hs. }
  pose proof (makeCapacity_on_disk (S (length (all_entries (store w1)))) class needed w1 HD1) as HD2.
  apply bind_cases in H as [(e & H2 & ->)|([] & w2 & H2 & H)]; unfold makeCapacity in H2; rewrite bind_get in H2;
    cbv beta in H2; rewrite H2 in HD2; cbn [snd] in HD2; [done|].
  rewrite bind_get in H. cbv beta in H. destruct (empty_string (activeFile (store w2))) eqn:He; unfold put, ret in H; simplify_eq.
  - split; [|done]. eapply on_disk_same; [..|exact HD2]; try done; [apply HD2|by right; left].
  - split; [done|]. intros _. destruct (d_active _ HD2) as [Ha|Ha]; [by rewrite Ha in He|done].
Qed.

Lemma encode_records_app l k a b :
  encode_records marshal_header l = Ok a -> encode_records marshal_header k = Ok b ->
  encode_records marshal_header (l ++ k) = Ok (a ++ b).
Proof.
  revert a. induction l as [|[h p] l IH]; intros a H1 H2; cbn in *; [by simplify_eq|].
  destruct (encodeRecord marshal_header h p) as [r|]; [|done]. destruct (encode_records marshal_header l) as [c|]; [|done].
  simplify_eq. by rewrite (IH c), app_assoc.
Qed.

Lemma write_and_index_quiet class batch receipt sequence encoded w :
  faults w = [] -> encodable marshal_cursor receipt ->
  exists w', write_and_index marshal_cursor class batch receipt sequence encoded w = (Ok tt, w')
    /\ faults w' = [] /\ store w' = store w
    /\ segments w' = <[activeFile (store w) := default [] (segments w !! activeFile (store w)) ++ encoded]> (segments w).
Proof.
  intros Hq Henc. unfold write_and_index. rewrite bind_get. cbv beta. unfold write_record.
  set (f := activeFile (store w)).
  unfold bind at 1. unfold bind at 1. rewrite io_quiet by done.
  unfold bind at 1. unfold io_partial. cbn [faults set_segments]. rewrite Hq.
  unfold bind at 1. rewrite io_quiet by done. rewrite io_quiet by done.
  unfold on_error, index_record.
  assert (Hseg : forall d : gmap string (list Z), <[f := default [] (<[f := default [] (d !! f)]> d !! f) ++ encoded]> (<[f := default [] (d !! f)]> d)
                 = <[f := default [] (d !! f) ++ encoded]> d).
  { intros d. by rewrite lookup_insert_eq, insert_insert_eq. }
  destruct receipt as [c|].
  - destruct (Henc c eq_refl) as [bytes ->]. rewrite io_quiet by done. eexists. split; [reflexivity|]. cbn. by rewrite Hseg.
  - rewrite io_quiet by done. eexists. split; [reflexivity|]. cbn. by rewrite Hseg.
Qed.

(** Adding a stored item to the entries and its record to the active segment. *)
Lemma appended_on_disk class item encoded w w' :
  on_disk w -> validClass class = true -> e_class item = class -> e_sequence item = nextSeq (store w) + 1 ->
  e_file item = active_open -> entry_id item ∉ entry_id <$> entries (store w) class -> sound item ->
  encodeRecord marshal_header (header_of item) (b_Payload (e_batch item)) = Ok encoded ->
  faults w' = [] -> activeFile (store w') = active_open -> nextSeq (store w') = e_sequence item ->
  entries (store w') = update_class (entries (store w)) class (entries (store w) class ++ [item]) ->
  segments w' = <[active_open := default [] (segments w !! active_open) ++ encoded]> (segments w) -> on_disk w'.
Proof.
  intros [D1 D2 D3 D4 D5 D6] Hv Hc Hseq Hfile Hid Hsound Henc Hq Ha Hn He Hseg.
  assert (W' : wf (store w')).
  { eapply wf_same_entries; [| |apply (wf_append (store w) class item)]; try done. }
  assert (Hall : all_entries (store w') ≡ₚ item :: all_entries (store w)).
  { unfold all_entries, classes, update_class. rewrite He. unfold update_class. clear -Hv. cbn. rewrite !app_nil_r.
    repeat (case_bool_decide; [subst class|]); try done; try solve_Permutation. by destruct class. }
  assert (Hfe : forall f, file_entries (store w') f ≡ₚ (if decide (f = active_open) then [item] else []) ++ file_entries (store w) f).
  { intros f. unfold file_entries. rewrite Hall, filter_cons, Hfile. repeat case_decide; try congruence; done. }
  split; [done|done| | | |by right].
  - intros e. rewrite Hall. intros [->|Hin]%elem_of_cons; auto.
  - intros f. specialize (Hfe f). rewrite Hseg. destruct (decide (f = active_open)) as [->|Hne].
    + rewrite lookup_insert_eq. specialize (D4 active_open).
      assert (Hh : holds (default [] (segments w !! active_open)) (file_entries (store w) active_open)).
      { destruct (segments w !! active_open); [done|]. rewrite D4. exists []. by split_and!. }
      destruct Hh as (es & E1 & E2 & E3). exists (es ++ [item]). split_and!.
      * rewrite fmap_app. apply encode_records_app; [done|]. cbn. rewrite Henc. by rewrite app_nil_r.
      * apply Forall_app. split; [done|]. by constructor.
      * rewrite fmap_app, E3, Hfe. cbn. solve_Permutation.
    + rewrite lookup_insert_ne by done. specialize (D4 f). rewrite app_nil_l in Hfe. destruct (segments w !! f) as [c|].
      * destruct D4 as (es & E1 & E2 & E3). exists es. by rewrite Hfe.
      * rewrite D4 in Hfe. by apply Permutation_nil_r in Hfe.
  - intros f Hs. destruct (decide (f = active_open)) as [->|Hne]; [by left|]. rewrite Hseg, lookup_insert_ne in Hs by done.
    destruct (D5 f Hs) as [->|(j & -> & Hj & Hlt)]; [done|]. right. exists j. rewrite Hn, Hseq. split_and!; [done|lia|lia|].
    intros e. rewrite (Hfe active_open), decide_True by done. intros [->|Hin]%elem_of_cons; [lia|auto].
Qed.

(** A batch that JSON carries unchanged. *)
Definition plain_batch (b : Batch) : Prop :=
  ascii_string (b_ID b) /\ ascii_string (b_SourceID b) /\ int64_min <= b_Priority b <= int64_max
  /\ 0 <= b_Checksum b < 2 ^ 32 /\ Forall is_byte (b_Payload b).

Definition receipts_ok (receipt : option persistedCursorReceipt) : Prop :=
  match receipt with None => True | Some c => receipt_ok c end.

Lemma new_item_header class batch receipt sequence encoded f :
  receipts_ok receipt -> header_of (set_file f (new_item class batch receipt sequence encoded)) = append_header class batch sequence receipt.
Proof.
  intros Hr. unfold header_of, append_header, new_item. cbn. f_equal. destruct receipt as [c|]; [|done]. cbn in *.
  by rewrite !(clone_plain c) by apply Hr.
Qed.

Lemma new_item_sound class batch receipt sequence encoded f :
  validClass class = true -> empty_string (b_ID batch) = false -> empty_string (b_SourceID batch) = false ->
  0 < sequence < 2 ^ 64 -> plain_batch batch -> receipts_ok receipt ->
  sound (set_file f (new_item class batch receipt sequence encoded)).
Proof.
  intros Hv Hi Hs Hq (P1 & P2 & P3 & P4 & P5) Hr. split; [|done|].
  - unfold writable. rewrite new_item_header by done. split_and!; [| |done].
    + unfold plain_header, append_header. cbn. split_and!; try done; try lia. destruct receipt; [apply Hr|done].
    + unfold accept_header, append_header. cbn [h_Class h_ID h_SourceID h_Sequence h_Cursor]. rewrite Hv, Hi, Hs.
      destruct (sequence =? 0) eqn:E; [bool_simpl; lia|]. cbn [negb orb].
      destruct receipt as [c|]; [|done]. by rewrite valid_receipt_ok.
  - cbn. intros c Hc. destruct receipt as [r|]; [|done]. cbn in *. simplify_eq. by rewrite clone_plain by apply Hr.
Qed.

Lemma encodable_receipt class batch receipt sequence encoded :
  encodeRecord marshal_header (append_header class batch sequence receipt) (b_Payload batch) = Ok encoded -> encodable marshal_cursor receipt.
Proof.
  intros H c ->. apply encodeRecord_inv in H as (header & Hm & _). by apply (header_cursor _ c) in Hm.
Qed.

Lemma store_record_on_disk class batch receipt encoded w r w' :
  on_disk w -> nextSeq (store w) < 2 ^ 64 - 1 -> validClass class = true ->
  empty_string (b_ID batch) = false -> empty_string (b_SourceID batch) = false -> plain_batch batch -> receipts_ok receipt ->
  find_entry (store w) class (b_ID batch) = None ->
  encodeRecord marshal_header (append_header class batch (nextSeq (store w) + 1) receipt) (b_Payload batch) = Ok encoded ->
  store_record marshal_header marshal_cursor class batch receipt (nextSeq (store w) + 1) encoded w = (r, w') ->
  on_disk w' /\ (stored r \/ evolves (fun _ => False) w w').
Proof.
  intros HD Hn Hv Hi Hs Hp Hr Hfind Henc H. unfold store_record, auditIOFailure, on_error in H.
  destruct (bind _ _ w) as [r0 w0] eqn:Hin.
  enough (Hgoal : on_disk w0 /\ (stored r0 \/ evolves (fun _ => False) w w0)).
  { destruct r0; simplify_eq; [done|]. destruct Hgoal as [G1 G2]. destruct (_ && _); [|done]. split.
    - eapply on_disk_same; [..|exact G1]; try done; [apply G1|by left].
    - destruct G2 as [G2|G2]; [done|]. right. etrans; [exact G2|apply evolves_finding]. }
  clear H. apply bind_cases in Hin as [(e & H1 & ->)|([] & w1 & H1 & H)];
    destruct (make_room_on_disk _ _ _ _ _ HD H1) as [HD1 Ha1];
    destruct (make_room_spec _ _ _ _ _ _ (d_wf _ HD) H1) as (Hev1 & _ & _).
  { split; [done|]. right. by eapply evolves_weaken; [|exact Hev1]. }
  specialize (Ha1 eq_refl).
  destruct (write_and_index_quiet class batch receipt (nextSeq (store w) + 1) encoded w1 (d_faults _ HD1) (encodable_receipt _ _ _ _ _ Henc))
    as (w2 & H2 & Q1 & Q2 & Q3).
  unfold bind at 1 in H. rewrite H2 in H. rewrite bind_put in H. cbv beta in H. rewrite bind_get in H. cbv beta in H.
  match type of H with bind _ _ ?x = _ => set (w3 := x) in * end.
  assert (HD3 : on_disk w3).
  { apply (appended_on_disk class (set_file active_open (new_item class batch receipt (nextSeq (store w) + 1) encoded)) encoded w1); try done.
    - by rewrite (ev_next _ _ _ Hev1).
    - intros Hin. eapply elem_of_sublist in Hin; [|by eapply evolves_ids]. by apply find_entry_None in Hfind.
    - apply new_item_sound; try done. pose proof (wf_next _ (d_wf _ HD)). lia.
    - by rewrite new_item_header.
    - cbn. by rewrite Q2, Ha1.
    - cbn. rewrite Q2. unfold new_item, set_file. cbn. by rewrite Ha1.
    - cbn. by rewrite Q3, Ha1. }
  clearbody w3. assert (Hseal : on_disk (snd ((if SegmentBytes (limits (store w3)) <=? activeSize (store w3) then sealActive else ret tt) w3))
    /\ fst ((if SegmentBytes (limits (store w3)) <=? activeSize (store w3) then sealActive else ret tt) w3) = Ok tt).
  { destruct (_ <=? _); [by apply sealActive_on_disk|done]. }
  unfold bind in H. destruct ((if SegmentBytes (limits (store w3)) <=? activeSize (store w3) then sealActive else ret tt) w3) as [[[]|e] w4];
    destruct Hseal as [G1 G2]; [|discriminate]. unfold ret in H. simplify_eq. split; [done|by left].
Qed.

(** ** Pending entries and durable cursors *)

(** The durable receipt is the entry's own, or a later one. *)
Definition covered (c cur : persistedCursorReceipt) : Prop :=
  p_Sequence c < p_Sequence cur
  \/ p_Sequence c = p_Sequence cur /\ p_Digest c = p_Digest cur /\ p_CollectedAt c = p_CollectedAt cur.

Definition cursors_cover (w : World) : Prop :=
  forall e c, e ∈ all_entries (store w) -> e_cursor e = Some c ->
    exists cur, durable unmarshal_cursor w (p_Key c) = Some cur /\ covered c cur.

Lemma covered_advances c cur cur' : covered c cur -> advances cur cur' -> covered c cur'.
Proof. intros [H|(H1 & H2 & H3)] [[G _]|(G1 & G2 & G3 & _)]; [left; lia|left; lia|left; lia|]. right. split_and!; congruence. Qed.

Lemma cover_core w w' (fresh : entry -> Prop) :
  cursors_cover w -> cursors_ok marshal_cursor w -> cursors_advance marshal_cursor unmarshal_cursor w w' ->
  (forall e, e ∈ all_entries (store w') -> (exists e', e' ∈ all_entries (store w) /\ core e = core e') \/ fresh e) ->
  (forall e c, fresh e -> e_cursor e = Some c -> exists cur, durable unmarshal_cursor w' (p_Key c) = Some cur /\ covered c cur) ->
  cursors_cover w'.
Proof.
  intros Hc Hok Hadv Hold Hnew e c He Hec. destruct (Hold e He) as [(e' & He' & Hcore)|Hf]; [|by apply (Hnew e)].
  apply (f_equal e_cursor) in Hcore. cbn in Hcore. rewrite Hec in Hcore. destruct (e_cursor e') as [c'|] eqn:Hec'; [|done].
  cbn in Hcore. injection Hcore as Heq. intros.
  assert (Hf : p_Key c = p_Key c' /\ p_Sequence c = p_Sequence c' /\ p_Digest c = p_Digest c' /\ p_CollectedAt c = p_CollectedAt c').
  { destruct c, c'; cbn in *; by simplify_eq. }
  destruct Hf as (F1 & F2 & F3 & F4). destruct (Hc e' c' He' Hec') as (cur & Hd & Hcov).
  destruct (ca_advance _ _ _ _ Hadv _ _ Hok Hd) as (cur' & Hd' & Ha). exists cur'. rewrite F1. split; [done|].
  eapply covered_advances; [|exact Ha]. unfold covered. by rewrite F2, F3, F4.
Qed.

Lemma evolves_old P w w' e : evolves P w w' -> e ∈ all_entries (store w') -> exists e', e' ∈ all_entries (store w) /\ core e = core e'.
Proof. intros Hev. apply core_sublist_elem. by eapply evolves_all. Qed.

(** All that holds of the world between two operations without I/O failures. *)
Record consistent (w : World) : Prop := {
  co_disk : on_disk w;
  co_cursors : cursors_ok marshal_cursor w;
  co_cover : cursors_cover w
}.

Lemma append_on_disk cancelled class batch receipt w r w' :
  on_disk w -> nextSeq (store w) < 2 ^ 64 - 1 -> plain_batch batch -> receipts_ok receipt ->
  append marshal_header marshal_cursor unmarshal_cursor cancelled class batch receipt w = (r, w') ->
  on_disk w' /\ (stored r \/ evolves (fun _ => False) w w').
Proof.
  intros HD Hn Hp Hr H0. unfold append in H0.
    destruct cancelled; [unfold fail in H0; simplify_eq; split; [done|right; reflexivity]|].
    destruct (_ || _) eqn:Hvalid; [unfold fail in H0; simplify_eq; split; [done|right; reflexivity]|]. bool_simpl.
    rewrite bind_get in H0. cbv beta in H0.
    destruct (negb (open (store w))); [unfold fail in H0; simplify_eq; split; [done|right; reflexivity]|].
    assert (Hf : cursor_fence unmarshal_cursor receipt w = (fst (cursor_fence unmarshal_cursor receipt w), w)).
    { unfold cursor_fence, loadCursorReceipt. destruct receipt as [c|]; [|done]. unfold bind. rewrite io_quiet by apply HD.
      repeat (case_match; try done). all: by simplify_eq. }
    unfold bind in H0. rewrite Hf in H0. destruct (fst (cursor_fence unmarshal_cursor receipt w)) as [[x|]|e];
      [unfold ret in H0; simplify_eq; split; [done|right; reflexivity]| |simplify_eq; split; [done|right; reflexivity]].
    destruct (find_entry (store w) class (b_ID batch)) eqn:Hfind;
      [destruct receipt; unfold fail, ret in H0; simplify_eq; (split; [done|right; reflexivity])|].
    assert (Hseq : uint64 (nextSeq (store w) + 1) = nextSeq (store w) + 1).
    { unfold uint64. apply Z.mod_small. pose proof (wf_next _ (d_wf _ HD)). lia. }
    rewrite Hseq in H0. destruct (encodeRecord _ _ _) as [encoded|e] eqn:Henc; [|unfold fail in H0; simplify_eq; split; [done|right; reflexivity]].
    by eapply store_record_on_disk.
Qed.

Lemma append_consistent cancelled class batch receipt w r w' :
  consistent w -> nextSeq (store w) < 2 ^ 64 - 1 -> plain_batch batch -> receipts_ok receipt ->
  append marshal_header marshal_cursor unmarshal_cursor cancelled class batch receipt w = (r, w') -> consistent w'.
Proof.
  intros [HD Hok Hcov] Hn Hp Hr H.
  pose proof (append_advances marshal_header _ _ cursor_roundtrip _ _ _ _ _ _ _ Hr Hok H) as Hadv.
  destruct (append_on_disk _ _ _ _ _ _ _ HD Hn Hp Hr H) as [HD' Hcase].
split; [done|by apply (ca_ok _ _ _ _ Hadv)|]. destruct Hcase as [Hst|Hev].
  2:{ apply (cover_core w w' (fun _ => False)); try done. intros e He. left. by eapply evolves_old. }
  pose proof (append_cursors _ _ _ _ _ _ _ _ _ _ H) as [[Hs _]|(Henc & Hb & _)]; [done|].
  pose proof (append_spec _ _ _ _ _ _ _ _ _ _ (d_wf _ HD) Hn H) as (_ & _ & [[Hs _]|(encoded & _ & Hv & Hap)]); [done|].
  destruct Hap as [_ _ _ (w1 & Hev & _ & Hent)].
  pose proof (all_entries_appended _ _ _ _ Hv Hent) as Hperm.
  apply (cover_core w w' (fun e => core e = core (new_item class batch receipt (nextSeq (store w) + 1) encoded))); try done.
  - intros e He. apply (list_elem_of_fmap_2 core) in He. unfold all_entries in He. rewrite Hperm in He.
    apply elem_of_cons in He as [He|He]; [by right|]. left. apply list_elem_of_fmap in He as (e1 & Heq & He1).
    destruct (evolves_old _ _ _ e1 Hev He1) as (e2 & He2 & Heq2). exists e2. split; [done|congruence].
  - intros e c Hcore Hec. apply (f_equal e_cursor) in Hcore. cbn in Hcore. rewrite Hec in Hcore.
    destruct receipt as [rc|]; [|done]. cbn in Hcore, Hr. rewrite clone_plain in Hcore by apply Hr. injection Hcore as Heq. intros.
    destruct (Henc rc eq_refl) as [bytes Hm]. cbn in Hb. rewrite Hm in Hb.
    exists rc. assert (Hf : p_Key c = p_Key rc /\ p_Sequence c = p_Sequence rc /\ p_Digest c = p_Digest rc /\ p_CollectedAt c = p_CollectedAt rc).
    { destruct c, rc; cbn in *; by simplify_eq. }
    destruct Hf as (F1 & F2 & F3 & F4). rewrite F1, (durable_inserted _ _ cursor_roundtrip w w' rc bytes _ Hr Hm Hb), bool_decide_true by done.
    split; [done|]. right. auto.
Qed.

Lemma sound_ack_entry key sequence e : sound e -> sound (ack_entry key sequence e).
Proof.
  intros [[Hp [Ha Hb]] S2 S3]. destruct (e_cursor e) as [c|] eqn:Hc; unfold ack_entry; rewrite Hc; [|by split; [split_and!|..]; try done; rewrite Hc].
  destruct (_ && _); [|split; [done|done|by rewrite Hc]].
  assert (Hok : receipt_ok (set_ack false c)) by (destruct (S3 c eq_refl) as (P1 & P2 & P3); by split_and!).
  split; [|done|cbn; intros c' [= <-]; done].
  split_and!; [| |done].
  - destruct Hp as (P1 & P2 & P3 & P4 & P5 & P6 & P7 & _).
    refine (conj P1 (conj P2 (conj P3 (conj P4 (conj P5 (conj P6 (conj P7 _))))))).
    change (plain_cursor (clonePersistedCursor (set_ack false c))). rewrite clone_plain by apply Hok. apply Hok.
  - unfold accept_header in *. cbn [header_of h_Class h_ID h_SourceID h_Sequence h_Cursor e_batch e_class e_sequence e_cursor] in *.
    destruct (_ || _); [done|]. cbn [fmap option_fmap option_map]. rewrite (clone_plain (set_ack false c)) by apply Hok.
    rewrite valid_receipt_ok by done. unfold header_of. cbn. by rewrite (clone_plain (set_ack false c)) by apply Hok.
Qed.

Lemma ack_on_disk key sequence w w' :
  (forall c, entries (store w') c = ack_entry key sequence <$> entries (store w) c) ->
  wf (store w') -> nextSeq (store w') = nextSeq (store w) -> segments w' = segments w -> faults w' = [] ->
  activeFile (store w') = activeFile (store w) -> on_disk w -> on_disk w'.
Proof.
  intros He W' Hn Hs Hq Ha [D1 D2 D3 D4 D5 D6].
  assert (Hall : all_entries (store w') = ack_entry key sequence <$> all_entries (store w)).
  { unfold all_entries, classes. cbn. rewrite !He. by rewrite !fmap_app. }
  assert (Hfield : forall e, e_file (ack_entry key sequence e) = e_file e /\ e_sequence (ack_entry key sequence e) = e_sequence e).
  { intros e. unfold ack_entry. destruct (e_cursor e); [by destruct (_ && _)|done]. }
  assert (Hfe : forall f, file_entries (store w') f = ack_entry key sequence <$> file_entries (store w) f).
  { intros f. unfold file_entries. rewrite Hall. clear -Hfield. induction (all_entries (store w)) as [|e l IH]; [done|].
    rewrite fmap_cons, !filter_cons. rewrite (proj1 (Hfield e)), IH. by destruct (decide (e_file e = f)). }
  split; [done|done| | | |by rewrite Ha].
  - intros e. rewrite Hall. intros (e' & -> & He')%list_elem_of_fmap. by apply sound_ack_entry, D3.
  - intros f. rewrite Hs, Hfe. specialize (D4 f). destruct (segments w !! f) as [c|]; [|by rewrite D4].
    destruct D4 as (es & E1 & E2 & E3). exists es. split_and!; [done|done|]. rewrite E3, <- list_fmap_compose.
    erewrite (list_fmap_ext (core ∘ ack_entry key sequence) core); [done|]. intros _ e _. apply core_ack_entry.
  - intros f Hf. rewrite Hs in Hf. destruct (D5 f Hf) as [->|(j & -> & Hj & Hlt)]; [by left|]. right. exists j.
    rewrite Hn, Hfe. split_and!; [done|lia|lia|]. intros e (e' & -> & He')%list_elem_of_fmap.
    rewrite (proj2 (Hfield e')). auto.
Qed.

(** Operations whose batches and receipts JSON carries unchanged. *)
Definition quiet_op (o : op) : Prop :=
  match o with
  | DoAppend _ _ b => plain_batch b
  | DoAppendWithCursor _ _ b r => plain_batch b /\ plain_cursor (persisted_of r)
  | _ => True
  end.

Lemma mark_consistent x k n w : consistent w -> consistent (snd (MarkCursorAcknowledged marshal_cursor unmarshal_cursor x k n w)).
Proof.
  intros [HD Hok Hcov].
  pose proof (MarkCursorAcknowledged_advances _ _ cursor_roundtrip x k n w Hok) as Hadv.
  pose proof (MarkCursorAcknowledged_evolves marshal_cursor unmarshal_cursor (fun _ => True) x k n w) as Hev.
  assert (Hcov' : cursors_cover (snd (MarkCursorAcknowledged marshal_cursor unmarshal_cursor x k n w))).
  { eapply (cover_core w _ (fun _ => False)); try done. intros e He. left. by eapply evolves_old. }
  split; [|by apply (ca_ok _ _ _ _ Hadv)|done]. pose proof (wf_evolves _ _ _ (d_wf _ HD) Hev) as W'. clear Hcov' Hadv Hev.
  revert W'. unfold MarkCursorAcknowledged. destruct x; [done|]. destruct (_ || _); [done|]. rewrite bind_get. cbv beta.
  destruct (negb _); [done|]. unfold loadCursorReceipt, bind. rewrite io_quiet by apply HD.
  destruct (loadCursorReceiptTx _ _ _) as [[c|]|e]; [|done..]. destruct (negb _); [done|]. destruct (negb _); [done|].
  destruct (marshal_cursor _) as [bytes|]; [|done]. rewrite io_quiet by apply HD. intros W'.
  eapply (ack_on_disk k n w); try done. apply HD.
Qed.

Lemma ack_consistent x class id w : consistent w -> consistent (snd (Ack marshal_header x class id w)).
Proof.
  intros [HD Hok Hcov]. pose proof (Ack_evolves marshal_header x class id w) as Hev.
  assert (Hc : same_cursors w (snd (Ack marshal_header x class id w))).
  { unfold Ack. destruct x; [reflexivity|]. destruct (_ || _); [reflexivity|]. rewrite bind_get. cbv beta.
    destruct (negb _); [reflexivity|]. apply (moves_on_error same_cursors); [apply remove_entry_cursors|]. intros e v. by destruct (_ && _). }
  pose proof (cursors_advance_same marshal_cursor unmarshal_cursor _ _ Hc) as Hadv.
  split; [|by apply (ca_ok _ _ _ _ Hadv)|].
  - clear Hev Hc Hadv. unfold Ack. destruct x; [done|]. destruct (_ || _) eqn:Hv; [done|]. rewrite bind_get. cbv beta.
    destruct (negb (open (store w))); [done|]. unfold auditIOFailure, on_error. bool_simpl.
    pose proof (remove_on_disk class id w ltac:(done) HD) as HD'. destruct (remove_entry _ _ _ w) as [[[]|e] w1]; [done|].
    cbn in *. destruct (_ && _); [|done]. eapply on_disk_same; [..|exact HD']; try done; [apply HD'|by left].
  - eapply (cover_core w _ (fun _ => False)); try done. intros e He. left. by eapply evolves_old.
Qed.

(** Operations that leave the entries and segments alone, or only seal. *)
Lemma consistent_keeps w w' : consistent w -> on_disk w' -> evolves (fun _ => False) w w' -> same_cursors w w' -> consistent w'.
Proof.
  intros [HD Hok Hcov] HD' Hev Hc. pose proof (cursors_advance_same marshal_cursor unmarshal_cursor _ _ Hc) as Hadv.
  split; [done|by apply (ca_ok _ _ _ _ Hadv)|].
  eapply (cover_core w _ (fun _ => False)); try done. intros e He. left. by eapply evolves_old.
Qed.

Lemma seal_consistent w : consistent w -> consistent (snd (sealActive w)).
Proof.
  intros Hc. apply (consistent_keeps w); [done|by apply sealActive_on_disk, Hc|apply sealActive_evolves|apply sealActive_cursors].
Qed.

Lemma same_entries_consistent w w' :
  entries (store w') = entries (store w) -> nextSeq (store w') = nextSeq (store w) -> segments w' = segments w ->
  faults w' = [] -> activeFile (store w') = activeFile (store w) -> same_cursors w w' -> consistent w -> consistent w'.
Proof.
  intros H1 H2 H3 H4 H5 H6 [HD Hok Hcov]. pose proof (cursors_advance_same marshal_cursor unmarshal_cursor _ _ H6) as Hadv.
  split; [eapply on_disk_same; [..|exact HD]; auto|by apply (ca_ok _ _ _ _ Hadv)|].
  eapply (cover_core w _ (fun _ => False)); try done. intros e He. left. unfold all_entries in *. rewrite H1 in He. eauto.
Qed.

Lemma run_op_consistent o w : consistent w -> nextSeq (store w) < 2 ^ 64 - 1 -> quiet_op o -> consistent (snd (run_op o w)).
Proof.
  intros Hc Hn Hp. pose proof (d_faults _ (co_disk _ Hc)) as Hq. destruct o; cbn [SpoolStore.run_op].
  - unfold Append. rewrite bind_ret_snd. destruct (append _ _ _ _ _ _ _ w) as [r w'] eqn:E. by eapply append_consistent in E.
  - rewrite bind_ret_snd. unfold AppendWithCursor. destruct (_ || _) eqn:Hv; [done|]. bool_simpl. destruct Hp as [Hp1 Hp2].
    destruct (append _ _ _ _ _ _ _ w) as [r w'] eqn:E. by eapply append_consistent in E.
  - by apply ack_consistent.
  - by apply mark_consistent.
  - unfold Seal. rewrite bind_get. cbv beta. destruct (negb _); [done|]. by apply seal_consistent.
  - unfold Close. rewrite bind_get. cbv beta. destruct (negb _); [done|]. cbv zeta.
    pose proof (seal_consistent _ Hc) as Hs. pose proof (proj2 (sealActive_on_disk _ (co_disk _ Hc))) as Hr.
    destruct (sealActive w) as [r w1]. cbn in Hs, Hr. subst r. cbn [note_failure]. pose proof (d_faults _ (co_disk _ Hs)) as Hq1.
    rewrite io_quiet by done. cbn. by apply (same_entries_consistent w1).
  - unfold PutCheckpoint, update_db. destruct (_ || _); [done|]. rewrite bind_get. cbv beta. destruct (negb _); [done|].
    rewrite io_quiet by done. cbn. by apply (same_entries_consistent w).
  - unfold PutPolicy, update_db. destruct envelope; [|done]. rewrite bind_get. cbv beta. destruct (negb _); [done|].
    rewrite io_quiet by done. cbn. by apply (same_entries_consistent w).
  - unfold RecordHealthFinding. destruct (empty_string _); [done|]. cbn. unfold set_store.
    apply (same_entries_consistent w); cbn; try done; by destruct (open (store w)).
Qed.

(** Any operations in any order, without I/O failures. *)
Inductive quiet (w0 : World) : World -> Prop :=
| quiet_refl : quiet w0 w0
| quiet_step w o : quiet w0 w -> quiet_op o -> nextSeq (store w) < 2 ^ 64 - 1 -> quiet w0 (snd (run_op o w)).

Lemma quiet_consistent w0 w : consistent w0 -> quiet w0 w -> consistent w.
Proof. intros H0 H. induction H; [done|]. by apply run_op_consistent. Qed.

(** ** Recovery *)

(** What a restart must bring back of an entry. *)
Definition pending (e : entry) : DataClass * Z * Batch * option persistedCursorReceipt :=
  (e_class e, e_sequence e, e_batch e, set_ack true <$> e_cursor e).

Lemma pending_core e e' : core e = core e' -> pending e = pending e'.
Proof. unfold core, pending. intros H. by injection H as -> -> -> _ ->. Qed.

Lemma fmap_pending_core (l k : list entry) : core <$> l ≡ₚ core <$> k -> pending <$> l ≡ₚ pending <$> k.
Proof.
  assert (Hc : forall l : list entry, pending <$> l = pending <$> (core <$> l)).
  { intros m. rewrite <- list_fmap_compose. apply list_fmap_ext. intros _ e _. apply pending_core. unfold core. cbn.
    by destruct (e_cursor e). }
  intros H. rewrite (Hc l), (Hc k). by rewrite H.
Qed.

Lemma pending_recovered e : sound e -> pending (recovered marshal_header (record_of e)) = pending e.
Proof.
  intros [[_ _] S2 S3]. unfold pending, recovered, record_of, entry_of, header_of.
  destruct e as [[bi bs [ct cu] bp bl bk] ec es ef eb [c|]]; cbn [fst snd e_batch e_class e_sequence e_cursor h_ID h_SourceID h_CreatedAt
    h_Priority h_Checksum h_Class h_Sequence h_Cursor b_ID b_SourceID b_CreatedAt b_Priority b_Payload b_Checksum fmap option_fmap option_map] in *;
    cbn in S2; subst cu; [|done].
  by rewrite !(clone_plain c) by apply (S3 c eq_refl).
Qed.

Lemma filter_pending c (l : list entry) :
  pending <$> of_class c l = filter (fun p => fst (fst (fst p)) = c) (pending <$> l).
Proof.
  unfold of_class. induction l as [|e l IH]; [done|]. rewrite fmap_cons, !filter_cons. cbn [pending fst].
  destruct (decide (e_class e = c)); [rewrite fmap_cons|]; by rewrite IH.
Qed.

Lemma partition_by_file (l : list entry) (fs : list string) : NoDup fs -> (forall e, e ∈ l -> e_file e ∈ fs) ->
  l ≡ₚ fs ≫= (fun f => filter (fun e => e_file e = f) l).
Proof.
  revert l. induction fs as [|f fs IH]; intros l Hnd Hin.
  - destruct l as [|e l]; [done|]. specialize (Hin e ltac:(left)). by apply not_elem_of_nil in Hin.
  - apply NoDup_cons in Hnd as [Hn Hnd]. cbn.
    assert (Hsplit : l ≡ₚ filter (fun e => e_file e = f) l ++ filter (fun e => e_file e <> f) l).
    { clear. induction l as [|e l IH]; [done|]. rewrite !filter_cons. destruct (decide (e_file e = f)).
      - rewrite decide_False by tauto. cbn. by rewrite <- IH.
      - rewrite decide_True by done. rewrite <- Permutation_middle. by rewrite <- IH. }
    rewrite Hsplit at 1. f_equiv. rewrite (IH (filter (fun e => e_file e <> f) l)); [|done|].
    + erewrite Forall_bind_ext; [done|]. apply Forall_forall. intros g Hg. cbn. rewrite list_filter_filter. apply list_filter_iff. intros e. split; [tauto|].
      intros He. split; [done|]. intros Hf. apply Hn. by rewrite <- Hf, He.
    + intros e [Hne He]%list_elem_of_filter. specialize (Hin e He). apply elem_of_cons in Hin as [|]; [done|done].
Qed.

Lemma scan_files_quiet now s0 fs loaded w :
  faults w = [] ->
  (forall f, f ∈ fs -> exists contents, segments w !! f = Some contents /\ holds contents (file_entries s0 f)) ->
  exists items, scan_files unmarshal_header now fs loaded w = (Ok (loaded ++ items), w)
    /\ pending <$> items ≡ₚ pending <$> (fs ≫= file_entries s0).
Proof.
  intros Hq. revert loaded. induction fs as [|f fs IH]; intros loaded Hf.
  - exists []. by rewrite app_nil_r.
  - destruct (Hf f ltac:(left)) as (contents & Hc & es & He & Hs & Hp). cbn [scan_files].
    rewrite bind_io_quiet by done. rewrite bind_get. cbv beta. rewrite Hc. cbn [default].
    rewrite (recoverFile_encoded marshal_header unmarshal_header header_roundtrip header_bytes (record_of <$> es)); [|done|].
    2:{ apply Forall_fmap. eapply Forall_impl; [exact Hs|]. intros e Se. apply Se. }
    unfold bind at 1, ret at 1.
    destruct (IH (loaded ++ (set_file f <$> map (recovered marshal_header) (record_of <$> es)))) as (items & H1 & H2).
    { intros g Hg. apply Hf. by right. }
    rewrite H1. exists ((set_file f <$> map (recovered marshal_header) (record_of <$> es)) ++ items).
    split; [by rewrite app_assoc|]. cbn [mbind list_bind]. rewrite !fmap_app, H2. f_equiv.
    rewrite <- (fmap_pending_core _ _ Hp). rewrite <- !list_fmap_compose.
    erewrite (Forall_fmap_ext_1 _ pending); [done|]. eapply Forall_impl; [exact Hs|]. intros e Se. cbn. by apply pending_recovered.
Qed.

Lemma recovery_order_spec w : on_disk w ->
  NoDup (recovery_order (segments w)) /\ forall f, f ∈ recovery_order (segments w) <-> is_Some (segments w !! f).
Proof.
  intros HD. unfold recovery_order.
  assert (Hin : forall f, f ∈ map fst (map_to_list (segments w)) <-> is_Some (segments w !! f)).
  { intros f. split.
    - intros ([g c] & -> & H)%list_elem_of_fmap. apply elem_of_map_to_list in H. eauto.
    - intros [c H]. apply list_elem_of_fmap. exists (f, c). split; [done|]. by apply elem_of_map_to_list. }
  assert (Hact : ends_with seg_suffix active_open = false) by reflexivity.
  split.
  - apply NoDup_app. split_and!.
    + rewrite (merge_sort_Permutation string_le). apply NoDup_filter, NoDup_fst_map_to_list.
    + intros f Hf. rewrite (merge_sort_Permutation string_le), list_elem_of_filter in Hf. destruct Hf as [Hf _].
      destruct (bool_decide _); [|apply not_elem_of_nil]. intros ->%list_elem_of_singleton. congruence.
    + destruct (bool_decide _); [apply NoDup_singleton|constructor].
  - intros f. rewrite elem_of_app, (merge_sort_Permutation string_le), list_elem_of_filter, Hin. split.
    + intros [[_ H]|H]; [done|]. destruct (bool_decide (is_Some (segments w !! active_open))) eqn:Hb; [|by apply not_elem_of_nil in H].
      apply list_elem_of_singleton in H as ->. by apply bool_decide_eq_true in Hb.
    + intros Hs. destruct (d_names _ HD f Hs) as [->|(j & -> & _)]; [right; rewrite bool_decide_true by done; apply list_elem_of_singleton; done|].
      left. split; [apply sealed_name_seg|done].
Qed.

Lemma entries_of_class s c : wf s -> of_class c (all_entries s) = entries s c.
Proof.
  intros W. assert (Hk : forall c', of_class c (entries s c') = if decide (c' = c) then entries s c' else []).
  { intros c'. unfold of_class. pose proof (wf_class _ W c') as Hc. induction Hc as [|e l He Hl IH]; [by case_decide|].
    rewrite filter_cons, IH, He. by case_decide. }
  unfold all_entries, classes. cbn. rewrite app_nil_r. unfold of_class in *. rewrite !filter_app, !Hk.
  destruct (validClass c) eqn:Hv; [|rewrite (wf_valid _ W c Hv); destruct c; try done].
  destruct c; try done; cbn; by rewrite ?app_nil_r.
Qed.

#[global] Instance seq_le_total : Total seq_le.
Proof. intros a b. unfold seq_le. lia. Qed.
#[global] Instance seq_le_trans : Transitive seq_le.
Proof. intros a b c. unfold seq_le. lia. Qed.

Definition pending_seq (p : DataClass * Z * Batch * option persistedCursorReceipt) : Z := snd (fst (fst p)).

(** Sorting what was loaded restores the order of the entries. *)
Lemma by_sequence_restores (l k : list entry) :
  pending <$> l ≡ₚ pending <$> k -> StronglySorted Z.lt (e_sequence <$> k) -> pending <$> by_sequence l = pending <$> k.
Proof.
  intros Hp Hs. assert (Hseq : forall m : list entry, pending_seq <$> (pending <$> m) = e_sequence <$> m).
  { intros m. by rewrite <- list_fmap_compose. }
  apply (StronglySorted_unique_strong (fun p q => pending_seq p <= pending_seq q)).
  - intros p q Hl Hk Hpq Hqp. unfold by_sequence in Hl. rewrite (merge_sort_Permutation seq_le), Hp in Hl.
    apply (NoDup_fmap_inj_in pending_seq (pending <$> k)); [|done|done|lia]. rewrite Hseq. by apply StronglySorted_lt_NoDup.
  - apply (StronglySorted_fmap pending (fun p q => pending_seq p <= pending_seq q)). apply (StronglySorted_merge_sort seq_le).
  - apply StronglySorted_fmap_inv with (R := Z.le). rewrite Hseq. eapply StronglySorted_weaken; [|exact Hs]. lia.
  - unfold by_sequence. by rewrite (merge_sort_Permutation seq_le).
Qed.

(** A pending entry whose cursor key has moved on. *)
Definition superseded (w : World) (e : entry) : bool :=
  match e_cursor e with
  | None => false
  | Some c => match durable unmarshal_cursor w (p_Key c) with
              | None => false
              | Some cur => p_Sequence c <? p_Sequence cur
              end
  end.

Lemma reindex_cursors (items : list entry) b w :
  cursor_receipts b = cursor_receipts (buckets w) -> cursors_ok marshal_cursor w ->
  (forall e c, e ∈ items -> e_cursor e = Some c -> exists cur, durable unmarshal_cursor w (p_Key c) = Some cur /\ covered c cur) ->
  if existsb (superseded w) items then reindex marshal_cursor unmarshal_cursor items b = Err ErrCursorConflict
  else exists b', reindex marshal_cursor unmarshal_cursor items b = Ok b' /\ cursor_receipts b' = cursor_receipts (buckets w).
Proof.
  intros Hb Hok. revert b Hb. induction items as [|e items IH]; intros b Hb Hcov; [by exists b|].
  cbn [existsb reindex]. set (b1 := set_indexes _ _ b). assert (Hb1 : cursor_receipts b1 = cursor_receipts (buckets w)) by done.
  specialize (IH b1 Hb1 (fun e' c Hin => Hcov e' c (list_elem_of_further _ _ _ Hin))).
  assert (Hstep : recover_cursor marshal_cursor unmarshal_cursor e b1 = if superseded w e then Err ErrCursorConflict else Ok b1).
  { unfold recover_cursor, superseded. destruct (e_cursor e) as [c|] eqn:Hc; [|done].
    destruct (Hcov e c ltac:(left) Hc) as (cur & Hd & Hcv).
    assert (Hload : loadCursorReceiptTx unmarshal_cursor b1 (p_Key c) = Ok (Some cur)).
    { rewrite <- Hd, <- (load_durable _ _ cursor_roundtrip w _ Hok). unfold loadCursorReceiptTx. by rewrite Hb1. }
    rewrite Hload, Hd. destruct Hcv as [Hlt|(H1 & H2 & H3)].
    - apply Z.ltb_lt in Hlt as ->. done.
    - rewrite H1, H2, H3, Z.ltb_irrefl, Z.eqb_refl, bool_decide_true by done. unfold TimeEqual. rewrite Z.eqb_refl. done. }
  rewrite Hstep. destruct (superseded w e); [done|]. exact IH.
Qed.

Definition pending_superseded (w : World) (p : DataClass * Z * Batch * option persistedCursorReceipt) : bool :=
  match snd p with
  | None => false
  | Some c => match durable unmarshal_cursor w (p_Key c) with None => false | Some cur => p_Sequence c <? p_Sequence cur end
  end.

Lemma superseded_pending w e : superseded w e = pending_superseded w (pending e).
Proof. unfold superseded, pending_superseded, pending. cbn. by destruct (e_cursor e). Qed.

Lemma existsb_pending w (l k : list entry) : pending <$> l ≡ₚ pending <$> k -> existsb (superseded w) l = existsb (superseded w) k.
Proof.
  intros Hp. assert (He : forall m : list entry, existsb (superseded w) m = true <-> exists p, p ∈ pending <$> m /\ pending_superseded w p = true).
  { intros m. rewrite existsb_exists. split.
    - intros (e & Hin & Hs). exists (pending e). rewrite <- superseded_pending. split; [|done].
      apply list_elem_of_fmap_2. by apply list_elem_of_In.
    - intros (p & (e & -> & Hin)%list_elem_of_fmap & Hs). exists e. rewrite superseded_pending. split; [|done]. by apply list_elem_of_In. }
  apply Bool.eq_true_iff_eq. rewrite !He. by setoid_rewrite Hp.
Qed.

Lemma cover_pending w (l : list entry) : cursors_cover w -> pending <$> l ≡ₚ pending <$> all_entries (store w) ->
  forall e c, e ∈ l -> e_cursor e = Some c -> exists cur, durable unmarshal_cursor w (p_Key c) = Some cur /\ covered c cur.
Proof.
  intros Hcov Hp e c He Hc. apply (list_elem_of_fmap_2 pending) in He. rewrite Hp in He.
  apply list_elem_of_fmap in He as (e' & Heq & He'). apply (f_equal snd) in Heq. cbn in Heq. rewrite Hc in Heq.
  destruct (e_cursor e') as [c'|] eqn:Hc'; [|done]. cbn in Heq.
  assert (Hf : p_Key c = p_Key c' /\ p_Sequence c = p_Sequence c' /\ p_Digest c = p_Digest c' /\ p_CollectedAt c = p_CollectedAt c').
  { destruct c, c'; cbn in *; by simplify_eq. }
  destruct Hf as (F1 & F2 & F3 & F4). destruct (Hcov e' c' He' Hc') as (cur & Hd & Hcv). exists cur.
  rewrite F1. split; [done|]. unfold covered. by rewrite F2, F3, F4.
Qed.

Lemma open_consistent l now order w :
  consistent w -> 0 < MaxBytes l -> 0 < SegmentBytes l -> order ≡ₚ classes ->
  exists w', Open unmarshal_header marshal_cursor unmarshal_cursor l now order w =
    (if existsb (superseded w) (all_entries (store w)) then Err ErrCursorConflict else Ok tt, w')
  /\ open (store w') = true /\ segments w' = segments w
  /\ (forall c, pending <$> entries (store w') c = pending <$> entries (store w) c).
Proof.
  intros [HD Hok Hcov] H1 H2 Horder. unfold Open.
  replace ((MaxBytes l <=? 0) || (SegmentBytes l <=? 0)) with false by (symmetry; apply orb_false_iff; rewrite !Z.leb_gt; lia).
  rewrite !bind_io_quiet by apply HD. rewrite bind_put. cbv beta. set (w0 := set_store (fun _ => fresh_store l) w). unfold recover. rewrite bind_get. cbv beta.
  destruct (recovery_order_spec w HD) as [Hnd Hin].
  destruct (scan_files_quiet now (store w) (recovery_order (segments w0)) [] w0) as (items & Hscan & Hitems); [apply HD| |].
  { intros f Hf. apply Hin in Hf as [contents Hc]. exists contents. split; [done|]. pose proof (d_files _ HD f) as Hd. by rewrite Hc in Hd. }
  assert (Hall : pending <$> items ≡ₚ pending <$> all_entries (store w)).
  { rewrite Hitems. apply fmap_Permutation. symmetry. apply partition_by_file; [done|]. intros e He. apply Hin.
    pose proof (d_files _ HD (e_file e)) as Hd. destruct (segments w !! e_file e); [eauto|].
    eapply (filter_nil_not_elem_of (fun x => e_file x = e_file e)) in Hd; [|reflexivity]. done. }
  unfold bind at 1. rewrite Hscan. cbn [app]. rewrite bind_put. cbv beta. rewrite bind_put. cbv beta. rewrite bind_get. cbv beta.
  match goal with |- context [reindex _ _ _ (set_indexes _ _ (buckets ?x))] => set (w2 := x) in * end.
  assert (Hw2 : entries (store w2) = (fun c => by_sequence (of_class c items)) /\ buckets w2 = buckets w /\ faults w2 = []
                /\ segments w2 = segments w /\ open (store w2) = true).
  { pose proof (d_faults _ HD) as Hq. unfold w2. cbn [segments set_store].
    destruct (segments w0 !! active_open); cbn; by rewrite Hq. }
  destruct Hw2 as (E1 & E2 & E3 & E4 & E5). clearbody w2.
  assert (Hent : forall c, pending <$> entries (store w2) c = pending <$> entries (store w) c).
  { intros c. rewrite E1. apply by_sequence_restores; [|apply HD]. rewrite filter_pending, Hall, <- filter_pending.
    by rewrite entries_of_class by apply HD. }
  assert (Hperm : pending <$> (order ≫= entries (store w2)) ≡ₚ pending <$> all_entries (store w)).
  { rewrite Horder. unfold all_entries, classes. cbn. rewrite !fmap_app, !Hent. done. }
  pose proof (reindex_cursors (order ≫= entries (store w2)) (set_indexes ∅ ∅ (buckets w2)) w) as Hre.
  rewrite (existsb_pending w _ _ Hperm) in Hre.
  destruct (existsb (superseded w) (all_entries (store w))).
  - rewrite Hre; [by exists w2|by rewrite E2|done|]. by eapply cover_pending.
  - destruct Hre as (b' & Hb & _); [by rewrite E2|done|by eapply cover_pending|]. rewrite Hb, io_quiet by done. by eexists.
Qed.

(** ** Properties *)

(** A spool whose directories were just created. *)
Definition empty_spool (l : Limits) : World :=
  {| store := fresh_store l; segments := ∅; quarantine := ∅;
     buckets := {| policy_state := ∅; checkpoints := ∅; segment_index := ∅; dedup := ∅; cursor_receipts := ∅ |}; faults := [] |}.

Lemma empty_spool_consistent l : consistent (empty_spool l).
Proof.
  split.
  - split; [done| | | | |by left].
    + split; intros; cbn in *; try constructor; try done. all: exfalso; by eapply not_elem_of_nil.
    + intros e He. by apply not_elem_of_nil in He.
    + intros f. cbn. by rewrite lookup_empty.
    + intros f [c Hc]. cbn in Hc. by rewrite lookup_empty in Hc.
  - intros k b Hb. cbn in Hb. by rewrite lookup_empty in Hb.
  - intros e c He. by apply not_elem_of_nil in He.
Qed.

(** C31: after any operations without I/O failures, a restart recovers the pending batches of every class, in
    order, with their sequences, and opens the spool, provided no pending batch has a cursor that has moved on. *)
Theorem reopening_restores_pending_batches l0 l now order w :
  quiet (empty_spool l0) w -> 0 < MaxBytes l -> 0 < SegmentBytes l -> order ≡ₚ classes ->
  existsb (superseded w) (all_entries (store w)) = false ->
  exists w', Open unmarshal_header marshal_cursor unmarshal_cursor l now order w = (Ok tt, w')
  /\ forall c, e_batch <$> entries (store w') c = e_batch <$> entries (store w) c
            /\ e_sequence <$> entries (store w') c = e_sequence <$> entries (store w) c.
Proof.
  intros Hr H1 H2 Ho Hs. pose proof (quiet_consistent _ _ (empty_spool_consistent l0) Hr) as Hc.
  destruct (open_consistent l now order w Hc H1 H2 Ho) as (w' & Hopen & _ & _ & Hent). rewrite Hs in Hopen.
  exists w'. split; [done|]. intros c. specialize (Hent c). split.
  - apply (f_equal (fmap (fun p => snd (fst p)))) in Hent. by rewrite <- !list_fmap_compose in Hent.
  - apply (f_equal (fmap pending_seq)) in Hent. by rewrite <- !list_fmap_compose in Hent.
Qed.

(** when a later batch of the same cursor was stored while an earlier one is still pending, the spool can not
    be opened again: recovery takes the earlier record for a cursor conflict. *)
Theorem superseded_cursor_blocks_reopening l0 l now order w e c cur :
  quiet (empty_spool l0) w -> 0 < MaxBytes l -> 0 < SegmentBytes l -> order ≡ₚ classes ->
  e ∈ all_entries (store w) -> e_cursor e = Some c -> durable unmarshal_cursor w (p_Key c) = Some cur ->
  p_Sequence c < p_Sequence cur ->
  fst (Open unmarshal_header marshal_cursor unmarshal_cursor l now order w) = Err ErrCursorConflict.
Proof.
  intros Hr H1 H2 Ho He Hec Hd Hlt. pose proof (quiet_consistent _ _ (empty_spool_consistent l0) Hr) as Hc.
  destruct (open_consistent l now order w Hc H1 H2 Ho) as (w' & Hopen & _).
  assert (Hs : existsb (superseded w) (all_entries (store w)) = true).
  { apply existsb_exists. exists e. split; [by apply list_elem_of_In|]. unfold superseded. rewrite Hec, Hd. by apply Z.ltb_lt. }
  by rewrite Hopen, Hs.
Qed.

(** acknowledging the only record of a sealed segment while the next entry of the class is in the active
    segment makes the store forget the active segment: its name and size are reset although its records are still
    pending and its file is unchanged. *)
Theorem acknowledgement_forgets_the_active_segment class id w w' i item next :
  faults w = [] -> wf (store w) -> find_entry (store w) class id = Some (i, item) ->
  file_entries (store w) (e_file item) = [item] ->
  entries (store w) class !! S i = Some next -> e_file next = activeFile (store w) ->
  Ack marshal_header false class id w = (Ok tt, w') ->
  activeFile (store w') = EmptyString /\ activeSize (store w') = 0 /\ next ∈ entries (store w') class
  /\ (e_file item <> activeFile (store w) -> segments w' !! activeFile (store w) = segments w !! activeFile (store w)).
Proof.
  intros Hq W Hf Honly Hnext Hact H. unfold Ack in H. destruct (_ || _) eqn:Hv; [done|]. bool_simpl.
  rewrite bind_get in H. cbv beta in H. destruct (open (store w)); [|done]. cbn [negb] in H. apply auditIOFailure_Ok in H.
  assert (Hrem : remaining_of (store w) item = []).
  { apply Permutation_nil_r. unfold remaining_of, by_sequence. rewrite (merge_sort_Permutation seq_le).
    destruct (filter _ (all_entries (store w))) as [|e l] eqn:He; [done|]. exfalso.
    assert (Hin : e ∈ filter (fun e => e_file e = e_file item /\ e_sequence e <> e_sequence item) (all_entries (store w))) by (rewrite He; left).
    apply list_elem_of_filter in Hin as [[Hef Hes] Hin]. apply Hes.
    assert (Hone : e ∈ file_entries (store w) (e_file item)) by (by apply list_elem_of_filter).
    rewrite Honly in Hone. by apply list_elem_of_singleton in Hone as ->. }
  unfold remove_entry in H. rewrite bind_get in H. cbv beta in H. rewrite Hf in H. unfold bind at 1 in H.
  rewrite (rewriteWithout_quiet item w Hq), Hrem in H. rewrite bind_io_quiet in H by done. rewrite bind_put in H. cbv beta in H.
  unfold item_after_remove in H. rewrite Hnext, Hact, bool_decide_true in H by done. unfold put in H. simplify_eq. cbn in *.
  split_and!; [done|done| |intros Hne; by rewrite lookup_delete_ne].
  rewrite remove_is_filter, bool_decide_true by done. apply list_elem_of_filter.
  apply list_find_Some in Hf as (Hi & Hid & _). split; [|by eapply list_elem_of_lookup_2].
  intros Hid'. assert (S i = i); [|lia]. eapply NoDup_lookup; [apply (wf_ids _ W class)| |]; rewrite list_lookup_fmap.
  - rewrite Hnext. cbn. by rewrite Hid'.
  - rewrite Hi. cbn. by rewrite Hid.
Qed.

(** ** A record write that fails *)

(** Nothing keeps a batch from being appended to the active segment: it is valid and new, it is encoded, no segment has to be
    sealed before or after it, and nothing evicted for it. *)
Record appendable (s : Store) (class : DataClass) (b : Batch) (encoded : list Z) : Prop := {
  ap_open : open s = true;
  ap_valid : negb (validClass class) || empty_string (b_ID b) || empty_string (b_SourceID b) = false;
  ap_new : find_entry s class (b_ID b) = None;
  ap_encoded : encodeRecord marshal_header (append_header class b (uint64 (nextSeq s + 1)) None) (b_Payload b) = Ok encoded;
  ap_active : activeFile s = active_open;
  ap_fits : int64 (activeSize s + len encoded) < SegmentBytes (limits s);
  ap_room : int64 (usedBytes s + len encoded) <= MaxBytes (limits s);
}.

Lemma make_room_fits class needed w : activeFile (store w) = active_open -> int64 (activeSize (store w) + needed) < SegmentBytes (limits (store w)) ->
  int64 (usedBytes (store w) + needed) <= MaxBytes (limits (store w)) -> make_room marshal_header class needed w = (Ok tt, w).
Proof.
  intros Ha Hf Hr. unfold make_room. rewrite bind_get. cbv beta. rewrite Ha.
  replace (SegmentBytes (limits (store w)) <? _) with false by (symmetry; apply Z.ltb_ge; lia). rewrite andb_false_r.
  unfold bind at 1. unfold ret at 1. unfold bind at 1. unfold makeCapacity. rewrite bind_get. cbn [makeCapacity_loop]. rewrite bind_get. cbv beta.
  replace (MaxBytes (limits (store w)) <? _) with false by (symmetry; by apply Z.ltb_ge). unfold ret at 1. rewrite bind_get. cbv beta. by rewrite Ha.
Qed.

Lemma append_stores class b encoded w : appendable (store w) class b encoded ->
  append marshal_header marshal_cursor unmarshal_cursor false class b None w = store_record marshal_header marshal_cursor class b None (uint64 (nextSeq (store w) + 1)) encoded w.
Proof.
  intros [H1 H2 H3 H4 _ _ _]. unfold append. rewrite H2, bind_get. cbv beta. rewrite H1. cbn [negb]. unfold cursor_fence, bind at 1. unfold ret at 1. cbv beta zeta iota. by rewrite H3, H4.
Qed.

(** The write leaves a part of the record in the file and nothing else. *)
Lemma append_torn class b encoded n w : appendable (store w) class b encoded -> faults w = [Works; Fails n] ->
  exists w', append marshal_header marshal_cursor unmarshal_cursor false class b None w = (Err ErrIO, w') /\ faults w' = []
    /\ segments w' !! active_open = Some (default [] (segments w !! active_open) ++ take n encoded)
    /\ (entries (store w') = entries (store w) /\ nextSeq (store w') = nextSeq (store w)).
Proof.
  intros Hap Hq. pose proof Hap as [_ _ _ _ Ha Hf Hr]. rewrite (append_stores _ _ _ _ Hap). unfold store_record, auditIOFailure, on_error.
  unfold bind at 1. rewrite make_room_fits by done. unfold bind at 1. unfold write_and_index. rewrite bind_get. cbv beta. rewrite Ha. unfold write_record.
  unfold bind at 1. unfold bind at 1. unfold io at 1, io_partial at 1. rewrite Hq. cbv iota. unfold bind at 1. unfold io_partial at 1. cbn [faults set_segments].
  eexists. split; [reflexivity|]. cbn. destruct (_ && _); cbn; rewrite !lookup_insert_eq; done.
Qed.

(** The next append writes behind what the file holds. *)
Lemma append_behind class b encoded w : appendable (store w) class b encoded -> faults w = [] ->
  exists w', append marshal_header marshal_cursor unmarshal_cursor false class b None w = (Ok CursorAppendStored, w')
    /\ segments w' !! active_open = Some (default [] (segments w !! active_open) ++ encoded) /\ is_Some (find_entry (store w') class (b_ID b)).
Proof.
  intros Hap Hq. pose proof Hap as [_ _ Hn _ Ha Hf Hr]. rewrite (append_stores _ _ _ _ Hap). unfold store_record, auditIOFailure, on_error.
  unfold bind at 1. rewrite make_room_fits by done. unfold bind at 1.
  destruct (write_and_index_quiet class b None (uint64 (nextSeq (store w) + 1)) encoded w Hq ltac:(done)) as (w1 & -> & Hq1 & Hs1 & Hseg).
  rewrite bind_put. cbv beta. rewrite bind_get. cbv beta. cbn [store set_store limits activeSize set_active set_nextSeq set_entries]. rewrite Hs1.
  replace (SegmentBytes (limits (store w)) <=? _) with false by (symmetry; apply Z.leb_gt; lia). unfold bind, ret.
  eexists. split; [reflexivity|]. cbn. split; [rewrite Hseg, Ha; by rewrite lookup_insert_eq|].
  unfold find_entry. cbn. unfold update_class. rewrite bool_decide_true by done. apply list_find_elem_of with (x := {| e_batch := stored_batch b; e_class := class; e_sequence := uint64 (nextSeq (store w) + 1); e_file := activeFile (store w); e_bytes := len encoded; e_cursor := clonePersistedCursor <$> None |}); [|done].
  rewrite Hs1. apply elem_of_app. right. by left.
Qed.

(** C32: In a spool whose operations had not failed before, a record write that fails after the lengths of the record leaves its bytes in the active segment.  A next batch that fits the
    same segment without eviction is reported as stored and is found in the store, but the recovery scan of a restart gives it back in no case: either it refuses the segment, with all batches in it, or it cuts the segment back to
    the batches stored before the failure.  The one exception is that the bytes of the later record complete the torn one with its checksum. *)
Theorem failed_write_loses_later_batches l0 w class batch encoded n class' batch' encoded' contents :
  quiet (empty_spool l0) w -> segments w !! active_open = Some contents ->
  appendable (store w) class batch encoded -> 17 <= Z.of_nat n < len encoded ->
  let (r1, w1) := append marshal_header marshal_cursor unmarshal_cursor false class batch None (with_faults [Works; Fails n] w) in
  appendable (store w1) class' batch' encoded' ->
  let (r2, w2) := append marshal_header marshal_cursor unmarshal_cursor false class' batch' None w1 in
  r1 = Err ErrIO /\ r2 = Ok CursorAppendStored /\ is_Some (find_entry (store w2) class' (b_ID batch')) /\
  let torn := take n encoded ++ encoded' in
  segments w2 !! active_open = Some (contents ++ torn) /\
  (completes_record (len encoded) torn
   \/ recoverFile unmarshal_header (contents ++ torn) = Err ErrCorruptRecord
   \/ exists items, recoverFile unmarshal_header (contents ++ torn) = Ok (items, Some (len contents)) /\
      forall e, e ∈ items -> (exists e0, e0 ∈ all_entries (store w) /\ pending e = pending e0) /\ ~ (e_class e = class' /\ entry_id e = b_ID batch')).
Proof.
  intros Hr Hc Hap Hn. pose proof (co_disk _ (quiet_consistent _ _ (empty_spool_consistent l0) Hr)) as HD.
  destruct (append_torn class batch encoded n (with_faults [Works; Fails n] w) Hap eq_refl) as (w1 & -> & Hq1 & Hs1 & He1 & _). intros Hap'.
  destruct (append_behind class' batch' encoded' w1 Hap' Hq1) as (w2 & -> & Hs2 & Hfound). cbn [segments with_faults store] in Hs1, He1. rewrite Hs1, Hc in Hs2. cbn in Hs2. rewrite <- app_assoc in Hs2.
  split; [done|]. split; [done|]. split; [done|]. cbv zeta. split; [exact Hs2|]. pose proof (d_files _ HD active_open) as Hh. rewrite Hc in Hh. destruct Hh as (es & E1 & E2 & E3).
  destruct (decide (completes_record (len encoded) (take n encoded ++ encoded'))) as [|Hno]; [by left|]. right.
  assert (Hlen : len (take n encoded) = Z.of_nat n) by (unfold len in *; rewrite length_take; lia).
  rewrite (recover_loop_overwritten marshal_header unmarshal_header header_roundtrip header_bytes (record_of <$> es) contents (append_header class batch (uint64 (nextSeq (store w) + 1)) None) (b_Payload batch) (take n encoded) (drop n encoded) encoded' E1);
    [|by apply Forall_fmap; eapply Forall_impl; [exact E2|]; intros e []|rewrite take_drop; apply Hap|lia|by rewrite take_drop].
  destruct (_ && _); [right|by left]. eexists. split; [reflexivity|]. intros e (x & <- & (e1 & -> & He)%list_elem_of_In%list_elem_of_fmap)%list_elem_of_In%in_map_iff.
  rewrite Forall_forall in E2. pose proof (pending_recovered e1 (E2 e1 He)) as Hp. set (e := recovered _ _) in *. clearbody e.
  apply (list_elem_of_fmap_2 core) in He. rewrite E3 in He. apply list_elem_of_fmap in He as (e0 & Hcore & [_ He0]%list_elem_of_filter). apply pending_core in Hcore.
  split; [exists e0; split; [done|congruence]|]. intros [Hcl Hid].
  assert (e_class e = e_class e0 /\ entry_id e = entry_id e0) as [F1 F2] by (unfold entry_id; rewrite Hcore in Hp; injection Hp as -> _ -> _; done).
  apply all_entries_elem in He0 as (c & He0); [|by apply (d_wf _ HD)]. pose proof (wf_class _ (d_wf _ HD) c) as Hfc. rewrite Forall_forall in Hfc. pose proof (Hfc e0 He0) as Hcc.
  pose proof (ap_new _ _ _ _ Hap') as Hnew. unfold find_entry in Hnew. rewrite He1 in Hnew. apply list_find_None in Hnew. rewrite Forall_forall in Hnew. apply (Hnew e0); congruence.
Qed.

End Durability.

(** ** Concrete runs *)

Section DemoFacts.
Import SpoolDemo.

Lemma header_cursor_law h c b : mh h = Some b -> h_Cursor h = Some c -> is_Some (mc c).
Proof.
  intros Hm Hc. unfold mh, TableCodec.marshal in Hm. apply fmap_Some in Hm as ([i x] & Hf & _).
  apply list_find_Some in Hf as (Hi & -> & _). apply list_elem_of_lookup_2 in Hi.
  assert (Hall : forallb (fun h => match h_Cursor h with None => true | Some c => bool_decide (is_Some (mc c)) end) header_table = true)
    by (vm_compute; reflexivity).
  rewrite forallb_forall in Hall. specialize (Hall h ltac:(by apply list_elem_of_In)). rewrite Hc in Hall. by apply bool_decide_eq_true in Hall.
Qed.

Definition demo_limits : Limits := {| MaxBytes := 1000; SegmentBytes := 70 |}.

Lemma batch_plain n : 1 <= n <= 6 -> plain_batch (batch n).
Proof.
  intros Hn. assert (Hin : n ∈ seqZ 1 6) by (apply elem_of_seqZ; lia). clear Hn.
  assert (Hall : Forall (fun n => ascii_string (b_ID (batch n)) /\ ascii_string (b_SourceID (batch n))
     /\ (int64_min <= b_Priority (batch n) <= int64_max) /\ (0 <= b_Checksum (batch n) < 2 ^ 32)
     /\ Forall (fun z => 0 <= z < 256) (b_Payload (batch n))) (seqZ 1 6)).
  { unfold ascii_string. apply (bool_decide_eq_true_1 (Forall _ _)). vm_compute. reflexivity. }
  rewrite Forall_forall in Hall. exact (Hall n Hin).
Qed.

Lemma run_quiet ops w0 w : quiet mh mc uc sha w0 w -> Forall quiet_op ops -> faults w = [] ->
  (forall k, nextSeq (store (run (take k ops) w)) < 2 ^ 64 - 1 /\ faults (run (take k ops) w) = []) -> quiet mh mc uc sha w0 (run ops w).
Proof.
  revert w. induction ops as [|o ops IH]; intros w Hr Hp Hq Hn; [done|]. apply Forall_cons in Hp as [Ho Hp].
  assert (Hw : with_faults [] w = w) by (destruct w; cbn in *; by subst).
  apply (IH (run1 [] o w)); [|done|apply (Hn 1%nat)|intros k; apply (Hn (S k))].
  unfold run1. rewrite Hw. apply quiet_step; [done|done|apply (Hn O)].
Qed.

Definition demo_history : list op :=
  [DoAppend false Metric (batch 1); DoAppendWithCursor false Metric (batch 2) (receipt 2); DoAppend false AuditLog (batch 3);
   DoAck false Metric "b1"; DoMark false (cursor_key "a" 7 "t" "i") 2].
Definition demo_before : World := run demo_history (empty_spool demo_limits).

Lemma demo_history_quiet : Forall quiet_op demo_history.
Proof.
  unfold demo_history. repeat (apply Forall_cons; split); cbn [quiet_op].
  - apply batch_plain. lia.
  - split; [apply batch_plain; lia|apply (cursor_plain 2 true); lia].
  - apply batch_plain. lia.
  - exact I.
  - exact I.
  - constructor.
Qed.

Lemma demo_before_quiet : quiet mh mc uc sha (empty_spool demo_limits) demo_before.
Proof.
  apply run_quiet; [apply quiet_refl|exact demo_history_quiet|reflexivity|].
  intros [|[|[|[|[|[|k]]]]]]; vm_compute; split; reflexivity.
Qed.

(** Three batches, two of them pending in two segments, and an acknowledged cursor. *)
Lemma reopening_restores_pending_batches_witness :
  exists w', Open uh mc uc demo_limits 0 [JobResult; Metric; Log; AuditLog] demo_before = (Ok tt, w')
  /\ e_batch <$> entries (store w') Metric = e_batch <$> entries (store demo_before) Metric
  /\ length (all_entries (store demo_before)) = 2%nat.
Proof.
  destruct (reopening_restores_pending_batches mh uh mc uc sha header_law header_bytes cursor_law header_cursor_law
              demo_limits demo_limits 0 [JobResult; Metric; Log; AuditLog] demo_before) as (w' & H1 & H2).
  - exact demo_before_quiet.
  - reflexivity.
  - reflexivity.
  - unfold classes. solve_Permutation.
  - vm_compute. reflexivity.
  - exists w'. split_and!; [exact H1|apply (H2 Metric)|vm_compute; reflexivity].
Defined.

(** Two plugin batches of one cursor, the first acknowledged to the plugin but not yet delivered. *)
Definition demo_superseded : World :=
  run [DoAppendWithCursor false Metric (batch 1) (receipt 1); DoMark false (cursor_key "a" 7 "t" "i") 1;
       DoAppendWithCursor false Metric (batch 2) (receipt 2)] (empty_spool demo_limits).

Lemma superseded_cursor_blocks_reopening_witness :
  fst (Open uh mc uc demo_limits 0 classes demo_superseded) = Err ErrCursorConflict
  /\ length (entries (store demo_superseded) Metric) = 2%nat.
Proof.
  split; [|vm_compute; reflexivity].
  destruct (entries (store demo_superseded) Metric) as [|e l] eqn:He; [vm_compute in He; discriminate|].
  apply (superseded_cursor_blocks_reopening mh uh mc uc sha header_law header_bytes cursor_law header_cursor_law
           demo_limits demo_limits 0 classes demo_superseded e (cursor 1 false) (cursor 2 true)).
  - apply run_quiet; [apply quiet_refl| |reflexivity|].
    + repeat (apply Forall_cons; split); cbn [quiet_op].
      * split; [apply batch_plain; lia|apply (cursor_plain 1 true); lia].
      * exact I.
      * split; [apply batch_plain; lia|apply (cursor_plain 2 true); lia].
      * constructor.
    + intros [|[|[|[|k]]]]; vm_compute; split; reflexivity.
  - reflexivity.
  - reflexivity.
  - reflexivity.
  - unfold all_entries, classes. cbn [mbind list_bind]. rewrite He, !elem_of_app. right. right. left. left.
  - vm_compute in He. injection He as <- _. reflexivity.
  - vm_compute. reflexivity.
  - vm_compute. reflexivity.
Defined.

(** Batch 1 sealed, batch 2 in the active segment. *)
Definition demo_sealed : World :=
  run [DoAppend false Metric (batch 1); DoSeal; DoAppend false Metric (batch 2)] (empty_spool demo_limits).

Lemma acknowledgement_forgets_the_active_segment_witness :
  let w' := snd (Ack mh false Metric "b1" demo_sealed) in
  activeFile (store demo_sealed) = active_open /\ activeFile (store w') = EmptyString /\ activeSize (store w') = 0
  /\ length (entries (store w') Metric) = 1%nat.
Proof.
  assert (Hq : quiet mh mc uc sha (empty_spool demo_limits) demo_sealed).
  { apply run_quiet; [apply quiet_refl| |reflexivity|intros [|[|[|[|k]]]]; vm_compute; split; reflexivity].
    repeat (apply Forall_cons; split); cbn [quiet_op]; [apply batch_plain; lia|exact I|apply batch_plain; lia|constructor]. }
  pose proof (d_wf _ _ (co_disk _ _ _ _ (quiet_consistent mh mc uc sha cursor_law header_cursor_law _ _
                (empty_spool_consistent mh mc uc demo_limits) Hq))) as W.
  destruct (find_entry (store demo_sealed) Metric "b1") as [[i item]|] eqn:Hf; [|vm_compute in Hf; discriminate].
  destruct (entries (store demo_sealed) Metric !! S i) as [next|] eqn:Hn; [|vm_compute in Hf; injection Hf as <- <-; vm_compute in Hn; discriminate].
  destruct (acknowledgement_forgets_the_active_segment mh Metric "b1" demo_sealed (snd (Ack mh false Metric "b1" demo_sealed)) i item next)
    as (H1 & H2 & _ & _).
  - reflexivity.
  - exact W.
  - exact Hf.
  - vm_compute in Hf. injection Hf as <- <-. vm_compute. reflexivity.
  - exact Hn.
  - vm_compute in Hf. injection Hf as <- <-. vm_compute in Hn. injection Hn as <-. reflexivity.
  - vm_compute. reflexivity.
  - split_and!; [vm_compute; reflexivity|exact H1|exact H2|vm_compute; reflexivity].
Defined.

(** Batch 1 is stored; the write of a batch with a payload of [size] bytes fails after 20 bytes; a retry with a payload of 10 bytes follows. *)
Definition wide_limits : Limits := {| MaxBytes := 1000; SegmentBytes := 1000 |}.
Definition demo_first : World := run [DoAppend false Metric (batch 1)] (empty_spool wide_limits).
Definition sized (size : nat) : Batch := {| b_ID := "b2"; b_SourceID := "host"; b_CreatedAt := Time 9 true; b_Priority := 2; b_Payload := replicate size 2; b_Checksum := 77 |}.
Definition demo_torn (size : nat) : World := snd (append mh mc uc false Metric (sized size) None (with_faults [Works; Fails 20] demo_first)).
Definition demo_retried (size : nat) : World := snd (append mh mc uc false Metric (sized 10) None (demo_torn size)).
Definition bytes_of_record (size : nat) : list Z := match encodeRecord mh (append_header Metric (sized size) 2 None) (b_Payload (sized size)) with Ok e => e | Err _ => [] end.
Definition first_bytes : list Z := default [] (segments demo_first !! active_open).

Lemma demo_first_quiet : quiet mh mc uc sha (empty_spool wide_limits) demo_first.
Proof.
  apply run_quiet; [apply quiet_refl| |reflexivity|intros [|[|k]]; vm_compute; split; reflexivity].
  repeat (apply Forall_cons; split); cbn [quiet_op]; [apply batch_plain; lia|constructor].
Qed.

(** The segment is refused when the torn record is no longer than what follows it, and cut back when it is longer. *)
Lemma failed_write_loses_later_batches_witness :
  segments (demo_retried 10) !! active_open = Some (first_bytes ++ take 20 (bytes_of_record 10) ++ bytes_of_record 10) /\
  segments (demo_retried 60) !! active_open = Some (first_bytes ++ take 20 (bytes_of_record 60) ++ bytes_of_record 10).
Proof.
  assert (H : forall size, size = 10%nat \/ size = 60%nat -> segments (demo_retried size) !! active_open = Some (first_bytes ++ take 20 (bytes_of_record size) ++ bytes_of_record 10)).
  { intros size Hsize.
    pose proof (failed_write_loses_later_batches mh uh mc uc sha header_law header_bytes cursor_law header_cursor_law wide_limits demo_first Metric (sized size) (bytes_of_record size) 20
                  Metric (sized 10) (bytes_of_record 10) first_bytes demo_first_quiet) as T.
    unfold demo_retried, demo_torn. destruct (append mh mc uc false Metric (sized size) None _) as [r1 w1] eqn:E1. cbn [snd].
    assert (Hw1 : w1 = snd (append mh mc uc false Metric (sized size) None (with_faults [Works; Fails 20] demo_first))) by (by rewrite E1).
    destruct (append mh mc uc false Metric (sized 10) None w1) as [r2 w2] eqn:E2. cbn [snd].
    assert (Hap : appendable mh (store demo_first) Metric (sized size) (bytes_of_record size)) by (destruct Hsize as [-> | ->]; split; vm_compute; reflexivity || discriminate).
    assert (Hap2 : appendable mh (store w1) Metric (sized 10) (bytes_of_record 10)) by (subst w1; destruct Hsize as [-> | ->]; split; vm_compute; reflexivity || discriminate).
    assert (Hn : 17 <= Z.of_nat 20 < len (bytes_of_record size)) by (destruct Hsize as [-> | ->]; vm_compute; split; [discriminate|reflexivity|discriminate|reflexivity]).
    destruct (T ltac:(vm_compute; reflexivity) Hap Hn Hap2) as (_ & _ & _ & S & _). exact S. }
  split; apply H; [by left|by right].
Defined.

(** The restarts after these two runs. *)
Definition restarted (size : nat) : result SpoolError unit * World := Open uh mc uc wide_limits 0 classes (demo_retried size).
Example restart_quarantines_the_segment :
  fst (restarted 10) = Ok tt /\ length (entries (store (demo_retried 10)) Metric) = 2%nat /\ all_entries (store (snd (restarted 10))) = [] /\ FindingCorruptSegment ∈ findings (store (snd (restarted 10))).
Proof. vm_compute. split_and!; reflexivity. Qed.
Example restart_cuts_the_segment_back :
  fst (restarted 60) = Ok tt /\ length (entries (store (demo_retried 60)) Metric) = 2%nat /\ entry_id <$> all_entries (store (snd (restarted 60))) = ["b1"]%string.
Proof. vm_compute. split_and!; reflexivity. Qed.

End DemoFacts.
