(* ===== verification/JsonText.v ===== *)
(** * JSON texts

    [json.Valid] of the Go standard library: the byte-by-byte scanner of
    [encoding/json] with its stack of open arrays and objects and its limit on
    the nesting depth.  The scanner reads every byte once, so it needs no fuel.
    The main result gives the texts the services themselves write: an object
    of plain string members is valid JSON. *)

From Stdlib Require Import Ascii.
From S2P Require Import Prelude GoText.

Open Scope Z_scope.

(** What the scanner is inside of. *)
Inductive frame := InObjectKey | InObjectValue | InArray.

Inductive scan_state :=
  | BeginValue            (* a value must start *)
  | BeginValueOrEmpty     (* after an opening bracket *)
  | BeginStringOrEmpty    (* after an opening brace *)
  | BeginString           (* after a comma in an object *)
  | EndValue              (* a value just ended *)
  | EndTop                (* after the top-level value *)
  | InStr | InStrEsc | InStrEscU (more : nat)
  | NumNeg | NumZero | NumInt | NumDot | NumFrac | NumExp | NumExpSign | NumExpDigits
  | Literal (rest : list Z).

Definition is_json_space (c : Z) : bool := (c =? 32) || (c =? 9) || (c =? 13) || (c =? 10).
Definition is_hex (c : Z) : bool := is_digit c || ((97 <=? c) && (c <=? 102)) || ((65 <=? c) && (c <=? 70)).
Definition is_escape (c : Z) : bool := existsb (Z.eqb c) [98; 102; 110; 114; 116; 92; 47; 34].

Definition maxNestingDepth : nat := 10000.

(** [pushParseState]: an error when the text is nested too deeply. *)
Definition push (f : frame) (stack : list frame) (s : scan_state) : option (scan_state * list frame) :=
  if (length stack <? maxNestingDepth)%nat then Some (s, f :: stack) else None.

(** [popParseState] *)
Definition pop (stack : list frame) : option (scan_state * list frame) :=
  match stack with
  | [] => None
  | [_] => Some (EndTop, [])
  | _ :: rest => Some (EndValue, rest)
  end.

(** [stateBeginValue] *)
Definition begin_value (stack : list frame) (c : Z) : option (scan_state * list frame) :=
  if is_json_space c then Some (BeginValue, stack)
  else if c =? 123 then push InObjectKey stack BeginStringOrEmpty
  else if c =? 91 then push InArray stack BeginValueOrEmpty
  else if c =? 34 then Some (InStr, stack)
  else if c =? 45 then Some (NumNeg, stack)
  else if c =? 48 then Some (NumZero, stack)
  else if c =? 116 then Some (Literal [114; 117; 101], stack)
  else if c =? 102 then Some (Literal [97; 108; 115; 101], stack)
  else if c =? 110 then Some (Literal [117; 108; 108], stack)
  else if (49 <=? c) && (c <=? 57) then Some (NumInt, stack)
  else None.

(** [stateEndValue]: what may follow a value. *)
Definition end_value (stack : list frame) (c : Z) : option (scan_state * list frame) :=
  match stack with
  | [] => if is_json_space c then Some (EndTop, []) else None
  | f :: rest =>
      if is_json_space c then Some (EndValue, stack)
      else match f with
           | InObjectKey => if c =? 58 then Some (BeginValue, InObjectValue :: rest) else None
           | InObjectValue => if c =? 44 then Some (BeginString, InObjectKey :: rest) else if c =? 125 then pop stack else None
           | InArray => if c =? 44 then Some (BeginValue, stack) else if c =? 93 then pop stack else None
           end
  end.

Definition begin_string (stack : list frame) (c : Z) : option (scan_state * list frame) :=
  if is_json_space c then Some (BeginString, stack) else if c =? 34 then Some (InStr, stack) else None.

(** One byte of the text; [None] is a syntax error. *)
Definition scan_step (s : scan_state) (stack : list frame) (c : Z) : option (scan_state * list frame) :=
  match s with
  | BeginValue => begin_value stack c
  | BeginValueOrEmpty =>
      if is_json_space c then Some (BeginValueOrEmpty, stack) else if c =? 93 then end_value stack c else begin_value stack c
  | BeginStringOrEmpty =>
      if is_json_space c then Some (BeginStringOrEmpty, stack)
      else if c =? 125 then match stack with [] => None | _ :: rest => end_value (InObjectValue :: rest) c end
      else begin_string stack c
  | BeginString => begin_string stack c
  | EndValue => end_value stack c
  | EndTop => if is_json_space c then Some (EndTop, stack) else None
  | InStr => if c =? 34 then Some (EndValue, stack) else if c =? 92 then Some (InStrEsc, stack) else if c <? 32 then None else Some (InStr, stack)
  | InStrEsc => if is_escape c then Some (InStr, stack) else if c =? 117 then Some (InStrEscU 3, stack) else None
  | InStrEscU more => if is_hex c then Some (match more with O => InStr | S n => InStrEscU n end, stack) else None
  | NumNeg => if c =? 48 then Some (NumZero, stack) else if (49 <=? c) && (c <=? 57) then Some (NumInt, stack) else None
  | NumInt => if is_digit c then Some (NumInt, stack) else
      if c =? 46 then Some (NumDot, stack) else if (c =? 101) || (c =? 69) then Some (NumExp, stack) else end_value stack c
  | NumZero => if c =? 46 then Some (NumDot, stack) else if (c =? 101) || (c =? 69) then Some (NumExp, stack) else end_value stack c
  | NumDot => if is_digit c then Some (NumFrac, stack) else None
  | NumFrac => if is_digit c then Some (NumFrac, stack) else if (c =? 101) || (c =? 69) then Some (NumExp, stack) else end_value stack c
  | NumExp => if (c =? 43) || (c =? 45) then Some (NumExpSign, stack) else if is_digit c then Some (NumExpDigits, stack) else None
  | NumExpSign => if is_digit c then Some (NumExpDigits, stack) else None
  | NumExpDigits => if is_digit c then Some (NumExpDigits, stack) else end_value stack c
  | Literal [] => end_value stack c
  | Literal (x :: rest) => if c =? x then Some (match rest with [] => EndValue | _ => Literal rest end, stack) else None
  end.

Fixpoint scan (s : scan_state) (stack : list frame) (text : list Z) : option (scan_state * list frame) :=
  match text with
  | [] => Some (s, stack)
  | c :: rest => match scan_step s stack c with Some (s', stack') => scan s' stack' rest | None => None end
  end.

(** The end of the text: a top-level value must be complete. *)
Definition scan_eof (s : scan_state) (stack : list frame) : bool :=
  match stack with
  | _ :: _ => false
  | [] => match s with EndTop | EndValue | NumZero | NumInt | NumFrac | NumExpDigits => true | _ => false end
  end.

Definition json_valid (text : string) : bool :=
  match scan BeginValue [] (bytes_of text) with Some (s, stack) => scan_eof s stack | None => false end.

(** ** Examples *)

Example json_accepts : forallb json_valid ["{}"; " [1, -2.5e+3, true,null] "; "0"; "-0"; "[]"; "[[],[{}]]"]%string = true.
Proof. vm_compute. reflexivity. Qed.

Example json_refuses : existsb json_valid [""; "{"; "[1,]"; "01"; "1."; "tru"; "{1:2}"; "[1 2]"; "nul"; "-"; "{},"; "[}"]%string = false.
Proof. vm_compute. reflexivity. Qed.

(** ** Texts of plain string members *)

(** Characters that JSON writes as themselves inside a string. *)
Definition plain_json (s : string) : bool := forallb (fun c => (32 <=? c) && negb (c =? 34) && negb (c =? 92)) (bytes_of s).

Definition quote : Ascii.ascii := Ascii.ascii_of_N 34.
Definition json_string (s : string) : string := String quote (s +:+ String quote EmptyString)%string.

Lemma scan_app s stack a b : scan s stack (a ++ b) = match scan s stack a with Some (s', st') => scan s' st' b | None => None end.
Proof. revert s stack. induction a as [|c a IH]; intros s stack; [done|]. cbn. destruct (scan_step s stack c) as [[s' st']|]; [apply IH|done]. Qed.

Lemma bytes_of_app a b : bytes_of (a +:+ b)%string = bytes_of a ++ bytes_of b.
Proof. induction a as [|x a IH]; [done|]. change (bytes_of (String x a +:+ b)%string) with (byte_of x :: bytes_of (a +:+ b)%string). by rewrite IH. Qed.

Lemma scan_plain s stack : plain_json s = true -> scan InStr stack (bytes_of s) = Some (InStr, stack).
Proof.
  unfold plain_json. induction (bytes_of s) as [|c l IH]; [done|]. cbn [forallb scan]. rewrite !andb_true_iff, !negb_true_iff. intros [[[Hc Hq] Hb] Hl].
  cbn [scan_step]. rewrite Hq, Hb. destruct (Z.ltb_spec c 32); [lia|]. by apply IH.
Qed.

Lemma scan_json_string s stack tail : plain_json s = true -> scan InStr stack (bytes_of s ++ 34 :: tail) = scan EndValue stack tail.
Proof. intros Hs. rewrite scan_app, scan_plain by done. done. Qed.

(** An object with the given members, as [json.Marshal] writes it. *)
Fixpoint json_members (l : list (string * string)) : string :=
  match l with
  | [] => EmptyString
  | [(k, v)] => (json_string k +:+ ":" +:+ json_string v)%string
  | (k, v) :: rest => (json_string k +:+ ":" +:+ json_string v +:+ "," +:+ json_members rest)%string
  end.
Definition json_object (l : list (string * string)) : string := ("{" +:+ json_members l +:+ "}")%string.

Lemma bytes_of_json_string s : bytes_of (json_string s) = 34 :: bytes_of s ++ [34].
Proof. unfold json_string. change (bytes_of (String quote ?t)) with (34 :: bytes_of t). by rewrite bytes_of_app. Qed.

Lemma scan_string_value s stack tail : plain_json s = true -> scan BeginValue stack (bytes_of (json_string s) ++ tail) = scan EndValue stack tail.
Proof. intros Hs. rewrite bytes_of_json_string. cbn [app]. rewrite <- app_assoc. cbn [app]. by apply scan_json_string. Qed.

Lemma scan_key s stack tail st : plain_json s = true -> (st = BeginString \/ st = BeginStringOrEmpty) ->
  scan st stack (bytes_of (json_string s) ++ tail) = scan EndValue stack tail.
Proof. intros Hs [-> | ->]; rewrite bytes_of_json_string; cbn [app]; rewrite <- app_assoc; cbn [app]; by apply scan_json_string. Qed.

Lemma scan_members l stack st : l <> [] -> Forall (fun kv => plain_json (fst kv) = true /\ plain_json (snd kv) = true) l ->
  (st = BeginString \/ st = BeginStringOrEmpty) ->
  scan st (InObjectKey :: stack) (bytes_of (json_members l)) = Some (EndValue, InObjectValue :: stack).
Proof.
  revert st. induction l as [|[k v] l IH]; intros st Hne Hl Hst; [done|]. apply Forall_cons in Hl as [[Hk Hv] Hl]. cbn [fst snd] in *.
  assert (Hcolon : forall tail, scan EndValue (InObjectKey :: stack) (bytes_of ":" ++ tail) = scan BeginValue (InObjectValue :: stack) tail) by done.
  assert (Hcomma : forall tail, scan EndValue (InObjectValue :: stack) (bytes_of "," ++ tail) = scan BeginString (InObjectKey :: stack) tail) by done.
  destruct l as [|kv l].
  - cbn [json_members]. rewrite !bytes_of_app, (scan_key k), Hcolon, <- (app_nil_r (bytes_of (json_string v))), scan_string_value by done. done.
  - change (json_members ((k, v) :: kv :: l)) with (json_string k +:+ ":" +:+ json_string v +:+ "," +:+ json_members (kv :: l))%string.
    rewrite !bytes_of_app, (scan_key k), Hcolon, scan_string_value, Hcomma by done. apply IH; [done|done|by left].
Qed.

(** Objects of plain string members are valid JSON. *)
Lemma json_object_valid l : Forall (fun kv => plain_json (fst kv) = true /\ plain_json (snd kv) = true) l -> json_valid (json_object l) = true.
Proof.
  intros Hl. unfold json_valid, json_object. rewrite !bytes_of_app. change (bytes_of "{") with [123]. change (bytes_of "}") with [125].
  cbn [app scan]. change (scan_step BeginValue [] 123) with (Some (BeginStringOrEmpty, [InObjectKey])). cbn match. rewrite scan_app.
  destruct l as [|kv l]; [done|]. rewrite scan_members by (done || by right). done.
Qed.
