(* ===== verification/AlertModel.v ===== *)
(** * Alert data model and audit policy

    [alert/model.go] and the pure part of [alert/audit.go] and
    [alert/metric_store.go]: scopes and principals, rules, events and their
    state machine, canonical keys and fingerprints, the label and secret
    checks, and the per-action policy on audit details.  A Go string enum is a
    byte string compared with its constants; a map is a [gmap]. *)

From stdpp Require Import pretty.
From Stdlib Require Import Ascii.
From S2P Require Import Prelude GoText.

Open Scope Z_scope.

(** The errors of package [alert]; [ErrExternal] stands for an error passed on
    from a database, a random source or a delivery channel. *)
Inductive AlertError :=
| ErrInvalidScope | ErrInvalidRule | ErrInvalidEvent | ErrInvalidEventTransition | ErrInvalidEventTransitionTime
| ErrInvalidDisposition | ErrInvalidAuditRecord | ErrMissingAuditActor | ErrInvalidMetricSample | ErrInvalidMetricQuery
| ErrUnsupportedAggregation | ErrInvalidRateWindow | ErrEvaluationAuditPersistence | ErrNotFound
| ErrInvalidNotification | ErrInvalidTemplate | ErrNotificationScopeMismatch | ErrRuleScheduleLeaseLost
| ErrConfigurationInUse | ErrInvalidPolicyReference | ErrExternal.

#[global] Instance AlertError_eq_dec : EqDecision AlertError.
Proof. solve_decision. Defined.

Definition outcome (A : Type) : Type := result AlertError A.
Definition guard_ok (b : bool) (e : AlertError) : outcome unit := if b then Ok tt else Err e.

Notation labels_map := (gmap string string).

(** [m[key]] of a Go map of strings: the empty string when absent. *)
Definition label (m : labels_map) (k : string) : string := default EmptyString (m !! k).
Definition map_all (f : string -> string -> bool) (m : labels_map) : bool :=
  forallb (fun kv => f (fst kv) (snd kv)) (map_to_list m).

(** ** Closed option sets *)

Definition one_of (options : list string) (s : string) : bool := existsb (fun o => bool_decide (s = o)) options.

Definition allowedAggregation : string -> bool := one_of ["avg"; "max"; "min"; "sum"; "count"; "rate"]%string.
Definition allowedOperator : string -> bool := one_of [">"; ">="; "<"; "<="; "=="; "!="]%string.
Definition allowedSeverity : string -> bool := one_of ["info"; "warning"; "critical"]%string.
Definition allowedMissingData : string -> bool := one_of ["ignore"; "alert"; "resolve"]%string.

(** ** Identifiers: the loops range over characters, and every byte of a
    character outside ASCII fails each test *)


Fixpoint all_indexed (ok : nat -> Z -> bool) (i : nat) (s : string) : bool :=
  match s with
  | EmptyString => true
  | String a rest => ok i (byte_of a) && all_indexed ok (S i) rest
  end.

Definition validIdentifier (value : string) : bool :=
  if (String.length value =? 0)%nat || (128 <? String.length value)%nat then false
  else all_indexed (fun i c => is_letter c || (c =? 95) || (c =? 45) || (c =? 46) || ((0 <? i)%nat && is_digit c)) 0 value.

Definition validLabelName (value : string) : bool :=
  if empty_string value then false
  else all_indexed (fun i c => is_letter c || (c =? 95) || ((0 <? i)%nat && is_digit c)) 0 value.

(** ** Secret detection *)

Definition secret_markers : list string :=
  ["password="; "passwd="; "secret="; "token="; "bearer "; "authorization:"; "postgres://"; "postgresql://"; "mysql://"]%string.

Definition containsSecretMaterial (value : string) : bool :=
  let normalized := ToLower value in existsb (fun marker => Contains marker normalized) secret_markers.

Definition sensitive_markers : list string :=
  ["password"; "passwd"; "secret"; "token"; "credential"; "api_key"; "authorization"]%string.

Definition sensitiveField (field : string) : bool :=
  let normalized := ToLower (ReplaceAll "."%char "_"%char (ReplaceAll "-"%char "_"%char field)) in
  existsb (fun marker => Contains marker normalized) sensitive_markers.

Definition validLabelMatchers (matchers : labels_map) : bool :=
  map_all (fun key value => negb (negb (validLabelName key) || blank value || sensitiveField key || containsSecretMaterial value)) matchers.

Definition RedactedValue : string := "[REDACTED]".

Definition sanitizeDetails (details : labels_map) : labels_map :=
  map_imap (fun key value => Some (if sensitiveField key then RedactedValue else value)) details.

(** ** Scopes and principals *)

Record Scope := MkScope { TenantID : string; ProjectID : string }.

#[global] Instance Scope_eq_dec : EqDecision Scope.
Proof. solve_decision. Defined.
#[global] Instance Scope_countable : Countable Scope.
Proof.
  apply (inj_countable' (fun s => (TenantID s, ProjectID s)) (fun p => MkScope p.1 p.2)). by intros [].
Defined.

Definition Scope_Validate (s : Scope) : outcome unit :=
  if blank (TenantID s) || blank (ProjectID s) then Err ErrInvalidScope else Ok tt.

(** [canonicalParts]: every part with its decimal length and a colon before it. *)
Fixpoint canonicalParts (parts : list string) : string :=
  match parts with
  | [] => EmptyString
  | part :: rest => (Itoa (Z.of_nat (String.length part)) +:+ ":" +:+ part +:+ canonicalParts rest)%string
  end.

Definition Scope_Key (s : Scope) : string := canonicalParts [TenantID s; ProjectID s].

Record Principal := {
  Subject : string;
  PlatformAdmin : bool;
  Projects : gset string;
}.

Definition Allows (p : Principal) (scope : Scope) : bool :=
  if negb (is_ok (Scope_Validate scope)) then false
  else if PlatformAdmin p then true
  else bool_decide (Scope_Key scope ∈ Projects p).

(** ** Fingerprints *)

Class Digest := { sha256 : list Z -> list Z }.
Class DigestLaws `{Digest} := { sha256_bytes l : Forall is_byte (sha256 l) }.

Definition string_le (a b : string) : Prop := string_leb a b = true.
#[global] Instance string_le_dec a b : Decision (string_le a b) := decide (string_leb a b = true).

(** [sort.Strings] of the keys *)
Definition sorted_keys (labels : labels_map) : list string := merge_sort string_le (map fst (map_to_list labels)).

Definition canonicalLabels (labels : labels_map) : string :=
  canonicalParts (flat_map (fun key => [key; label labels key]) (sorted_keys labels)).

Section fingerprints.
Context `{Digest}.

Definition fingerprintParts (parts : list string) : string := hex_encode (sha256 (bytes_of (canonicalParts parts))).

Definition EventFingerprint (scope : Scope) (ruleID : string) (labels : labels_map) : string :=
  fingerprintParts [TenantID scope; ProjectID scope; ruleID; canonicalLabels labels].

Definition SeriesFingerprint (labels : labels_map) : string := fingerprintParts [canonicalLabels labels].
End fingerprints.

(** ** Rules *)

Record AlertRule := {
  Rule_ID : string; Rule_Scope : Scope; Rule_Name : string; Metric : string;
  Aggregation : string; Operator : string; Threshold : float64;
  EvaluationEvery : Z; LookbackWindow : Z; For : Z;
  MissingData : string; Severity : string; NotificationPolicyIDs : list string;
  Rule_Labels : labels_map; Rule_Enabled : bool; Rule_CreatedAt : time; Rule_UpdatedAt : time;
}.

Definition AlertRule_Validate (r : AlertRule) : outcome unit :=
  if negb (is_ok (Scope_Validate (Rule_Scope r))) || blank (Rule_Name r) || blank (Metric r) then Err ErrInvalidRule
  else if negb (allowedAggregation (Aggregation r)) || negb (allowedOperator (Operator r))
          || negb (allowedSeverity (Severity r)) || negb (allowedMissingData (MissingData r)) then Err ErrInvalidRule
  else if IsNaN (Threshold r) || IsInf (Threshold r) || (EvaluationEvery r <=? 0) || (LookbackWindow r <? 0) || (For r <=? 0)
       then Err ErrInvalidRule
  else if negb (forallb validIdentifier (NotificationPolicyIDs r)) then Err ErrInvalidRule
  else if negb (validLabelMatchers (Rule_Labels r)) then Err ErrInvalidRule
  else Ok tt.

Definition EffectiveLookbackWindow (r : AlertRule) : Z :=
  if 0 <? LookbackWindow r then LookbackWindow r else EvaluationEvery r.

(** ** Events *)

Definition EventPending : string := "pending".
Definition EventFiring : string := "firing".
Definition EventAcknowledged : string := "acknowledged".
Definition EventResolved : string := "resolved".

Record AlertEvent := {
  ID : string; Event_Scope : Scope; RuleID : string; Fingerprint : string;
  Labels : labels_map; Evidence : labels_map; State : string;
  FirstSeen : time; LastSeen : time; FiringAt : time; AcknowledgedAt : time; ResolvedAt : time;
  LastActor : string;
}.

Definition in_state (e : AlertEvent) (s : string) : bool := bool_decide (State e = s).

Definition allowedEventState : string -> bool := one_of [EventPending; EventFiring; EventAcknowledged; EventResolved].

Definition validEventTimestamp (value firstSeen lastSeen : time) : bool :=
  IsZero value || (negb (Before value firstSeen) && negb (After value lastSeen)).

(** The timestamps each state requires and forbids. *)
Definition state_timestamps (e : AlertEvent) : bool :=
  if in_state e EventPending then IsZero (FiringAt e) && IsZero (AcknowledgedAt e) && IsZero (ResolvedAt e)
  else if in_state e EventFiring then negb (IsZero (FiringAt e)) && IsZero (AcknowledgedAt e) && IsZero (ResolvedAt e)
  else if in_state e EventAcknowledged then
    negb (IsZero (FiringAt e)) && negb (IsZero (AcknowledgedAt e)) && negb (Before (AcknowledgedAt e) (FiringAt e)) && IsZero (ResolvedAt e)
  else if in_state e EventResolved then
    negb (IsZero (ResolvedAt e)) && negb (negb (IsZero (FiringAt e)) && Before (ResolvedAt e) (FiringAt e))
    && negb (negb (IsZero (AcknowledgedAt e)) && (IsZero (FiringAt e) || Before (ResolvedAt e) (AcknowledgedAt e)))
  else true.

Definition AlertEvent_Validate (e : AlertEvent) : outcome unit :=
  if negb (is_ok (Scope_Validate (Event_Scope e))) || blank (RuleID e) || blank (Fingerprint e) || negb (allowedEventState (State e))
  then Err ErrInvalidEvent
  else if IsZero (FirstSeen e) || IsZero (LastSeen e) || Before (LastSeen e) (FirstSeen e) then Err ErrInvalidEvent
  else if negb (validEventTimestamp (FiringAt e) (FirstSeen e) (LastSeen e))
          || negb (validEventTimestamp (AcknowledgedAt e) (FirstSeen e) (LastSeen e))
          || negb (validEventTimestamp (ResolvedAt e) (FirstSeen e) (LastSeen e)) then Err ErrInvalidEvent
  else if state_timestamps e then Ok tt else Err ErrInvalidEvent.

Definition permittedTransition (current next : string) : bool :=
  if bool_decide (current = EventPending) then bool_decide (next = EventFiring) || bool_decide (next = EventResolved)
  else if bool_decide (current = EventFiring) then bool_decide (next = EventAcknowledged) || bool_decide (next = EventResolved)
  else if bool_decide (current = EventAcknowledged) then bool_decide (next = EventResolved)
  else false.

(** The event after a transition: [FirstSeen] is set once, and entering a state
    stamps the time of that state. *)
Definition enter_state (e : AlertEvent) (next : string) (at_ : time) (actor : string) : AlertEvent :=
  {| ID := ID e; Event_Scope := Event_Scope e; RuleID := RuleID e; Fingerprint := Fingerprint e;
     Labels := Labels e; Evidence := Evidence e; State := next;
     FirstSeen := if IsZero (FirstSeen e) then at_ else FirstSeen e; LastSeen := at_;
     FiringAt := if bool_decide (next = EventFiring) then at_ else FiringAt e;
     AcknowledgedAt := if bool_decide (next = EventAcknowledged) then at_ else AcknowledgedAt e;
     ResolvedAt := if bool_decide (next = EventResolved) then at_ else ResolvedAt e;
     LastActor := actor |}.

Definition Transition (e : AlertEvent) (next : string) (at_ : time) (actor : string) : outcome AlertEvent :=
  if IsZero at_ then Err ErrInvalidEventTransitionTime
  else if (negb (IsZero (FirstSeen e)) && Before at_ (FirstSeen e)) || (negb (IsZero (LastSeen e)) && Before at_ (LastSeen e))
       then Err ErrInvalidEventTransitionTime
  else if negb (permittedTransition (State e) next) then Err ErrInvalidEventTransition
  else Ok (enter_state e next at_ actor).

(** ** Dispositions *)

Record EventDisposition := {
  Disp_ID : string; Disp_Scope : Scope; Disp_EventID : string; Disp_Kind : string;
  Disp_Category : string; Disp_Reason : string; Disp_Actor : string; Disp_OccurredAt : time;
}.

Definition DispositionAcknowledgement : string := "acknowledgement".
Definition DispositionResolution : string := "resolution".
Definition DispositionRootCause : string := "root_cause".

Definition EventDisposition_Validate (d : EventDisposition) : outcome unit :=
  if negb (is_ok (Scope_Validate (Disp_Scope d))) || negb (validIdentifier (Disp_ID d)) || negb (validIdentifier (Disp_EventID d))
     || negb (validIdentifier (Disp_Category d)) || blank (Disp_Actor d) || negb (trimmed (Disp_Actor d)) || IsZero (Disp_OccurredAt d)
  then Err ErrInvalidDisposition
  else if negb (one_of [DispositionAcknowledgement; DispositionResolution; DispositionRootCause] (Disp_Kind d)) then Err ErrInvalidDisposition
  else if blank (Disp_Reason d) || negb (trimmed (Disp_Reason d)) || (1024 <? String.length (Disp_Reason d))%nat || containsSecretMaterial (Disp_Reason d)
       then Err ErrInvalidDisposition
  else Ok tt.

(** ** Metric samples *)

Record MetricSample := {
  Sample_Scope : Scope; AgentID : string; InstanceID : string; Component : string; Role : string;
  Host : string; Sample_Name : string; Sample_Labels : labels_map; Sample_Value : float64; SampledAt : time;
}.

Definition canonicalResourceDimensions : list string := ["instance"; "component"; "role"; "host"]%string.

Definition MissingResourceDimensions (labels : labels_map) : list string :=
  filter (fun dimension => blank (label labels dimension) = true) canonicalResourceDimensions.

Definition ValidateMetricLabels (labels : labels_map) : outcome unit :=
  match MissingResourceDimensions labels with
  | [] => guard_ok (map_all (fun key value => negb (blank key || sensitiveField key || containsSecretMaterial value)) labels) ErrInvalidMetricSample
  | _ => Err ErrInvalidMetricSample
  end.

Definition validateMetricSample (sample : MetricSample) : outcome unit :=
  if negb (is_ok (Scope_Validate (Sample_Scope sample))) || blank (AgentID sample) || blank (Sample_Name sample)
     || IsZero (SampledAt sample) || IsNaN (Sample_Value sample) || IsInf (Sample_Value sample) then Err ErrInvalidMetricSample
  else ValidateMetricLabels (Sample_Labels sample).

Definition labelsMatch (actual expected : labels_map) : bool :=
  map_all (fun key value => bool_decide (actual !! key = Some value)) expected.

Definition metricSeriesFingerprint `{Digest} (agentID : string) (labels : labels_map) : string :=
  SeriesFingerprint (<["agent_id"%string := agentID]> labels).

Record MetricQuery := { Query_Scope : Scope; Query_Name : string; Query_Labels : labels_map; From_ : time; To_ : time }.

Definition validateMetricQuery (query : MetricQuery) : outcome unit :=
  if negb (is_ok (Scope_Validate (Query_Scope query))) || blank (Query_Name query) || IsZero (From_ query) || IsZero (To_ query)
     || Before (To_ query) (From_ query) then Err ErrInvalidMetricQuery
  else Ok tt.

(** ** Audit records *)

Record AuditRecord := {
  Audit_ID : string; Audit_Scope : Scope; Audit_Actor : string; Audit_Action : string;
  TargetID : string; OccurredAt : time; Details : labels_map;
}.

Definition auditActorFromContext (actor : string) : outcome string :=
  if blank actor || negb (trimmed actor) then Err ErrMissingAuditActor else Ok actor.

Definition event_actions : list string := ["event.pending"; "event.firing"; "event.acknowledged"; "event.resolved"]%string.
Definition delivery_actions : list string :=
  ["delivery.suppressed"; "delivery.delivered"; "delivery.retrying"; "delivery.retry_scheduled"; "delivery.abandoned"]%string.

Definition allowedAuditAction : string -> bool :=
  one_of (["rule.created"; "rule.updated"; "rule.deleted"]%string ++ event_actions ++
          ["event.root_cause"; "evaluation.failed"; "policy.created"; "policy.updated"; "policy.deleted"; "template.created";
           "template.updated"; "template.deleted"; "silence.created"; "silence.updated"; "silence.deleted"]%string ++ delivery_actions).

Definition conditionSinceEvidenceKey : string := "condition_since".

Definition DeliveryAttempting : string := "attempting".
Definition DeliveryDelivered : string := "delivered".
Definition DeliverySuppressed : string := "suppressed".
Definition DeliveryRetryScheduled : string := "retry_scheduled".
Definition DeliveryAbandoned : string := "abandoned".
Definition delivery_statuses : list string :=
  [DeliveryAttempting; DeliveryDelivered; DeliverySuppressed; DeliveryRetryScheduled; DeliveryAbandoned].

(** The loop of [sanitizeFailureClass]: it stops once 64 bytes are written. *)
Fixpoint keep_class_bytes (written : nat) (s : string) : string :=
  match s with
  | EmptyString => EmptyString
  | String a rest =>
      let c := byte_of a in
      if ((97 <=? c) && (c <=? 122)) || is_digit c || (c =? 95) || (c =? 45)
      then String a (if (64 <=? S written)%nat then EmptyString else keep_class_bytes (S written) rest)
      else if (64 <=? written)%nat then EmptyString else keep_class_bytes written rest
  end.

Definition sanitizeFailureClass (value : string) : string :=
  let sanitized := keep_class_bytes 0 (ToLower (TrimSpace value)) in
  if empty_string sanitized then "delivery_error"%string else sanitized.

Section audit.
Context `{FloatText}.

Definition parses_bool (value : string) : bool := bool_decide (is_Some (ParseBool value)).
Definition parses_true (value : string) : bool := bool_decide (ParseBool value = Some true).
Definition parses_time (value : string) : bool := match ParseRFC3339 value with Some _ => true | None => false end.
Definition parses_int (ok : Z -> bool) (value : string) : bool := match Atoi value with Some n => ok n | None => false end.
Definition parses_finite (value : string) : bool := match ParseFloat value with Some f => finite f | None => false end.

(** The first entry whose keys include [key] decides; an unlisted key is refused. *)
Fixpoint detail_switch (key value : string) (cases : list (list string * (string -> bool))) : bool :=
  match cases with
  | [] => false
  | (keys, ok) :: rest => if one_of keys key then ok value else detail_switch key value rest
  end.

Definition rule_details : list (list string * (string -> bool)) :=
  [(["aggregation"], allowedAggregation); (["operator"], allowedOperator); (["severity"], allowedSeverity);
   (["enabled"], parses_bool); (["threshold"], parses_finite)]%string.

Definition event_details (action : string) : list (list string * (string -> bool)) :=
  [(["state"]%string, fun value => allowedEventState value && bool_decide (action = ("event." +:+ value)%string));
   (["window_start"; "window_end"; conditionSinceEvidenceKey]%string, parses_time);
   (["samples"]%string, parses_int (fun n => 0 <=? n)); (["missing"]%string, parses_bool);
   (["missing_dimensions"]%string, fun value => forallb (one_of canonicalResourceDimensions) (split_comma value) && negb (empty_string value));
   (["aggregate"; "rate"]%string, parses_finite);
   (["failure_kind"]%string, one_of ["rule_evaluation"; "no_data"; "evaluation_delay"; "queue_backlog"]%string);
   (["category"]%string, validIdentifier); (["reason_present"]%string, parses_true)].

Definition root_cause_details : list (list string * (string -> bool)) :=
  [(["category"]%string, validIdentifier); (["reason_present"]%string, parses_true)].

Definition evaluation_details : list (list string * (string -> bool)) :=
  [(["failure_kind"]%string, one_of ["rule_evaluation"]%string)].

Definition silence_details : list (list string * (string -> bool)) :=
  [(["starts_at"; "ends_at"]%string, parses_time); (["matcher_count"]%string, parses_int (fun n => 0 <? n));
   (["reason_present"]%string, parses_true)].

Definition policy_details : list (list string * (string -> bool)) :=
  [(["channel"]%string, one_of ["in_app"; "smtp"; "webhook"]%string); (["template_id"]%string, validIdentifier);
   (["enabled"]%string, parses_bool)].

Definition template_details : list (list string * (string -> bool)) :=
  [(["version"]%string, parses_int (fun n => 0 <? n))].

Definition delivery_details : list (list string * (string -> bool)) :=
  [(["status"]%string, one_of delivery_statuses); (["channel"]%string, validIdentifier);
   (["attempt"]%string, parses_int (fun n => 0 <=? n));
   (["failure_class"]%string, fun value => bool_decide (sanitizeFailureClass value = value))].

(** The switch on the action: the details it may carry, with the check of each. *)
Definition action_details (action : string) : list (list string * (string -> bool)) :=
  if one_of ["rule.created"; "rule.updated"]%string action then rule_details
  else if one_of event_actions action then event_details action
  else if one_of ["event.root_cause"]%string action then root_cause_details
  else if one_of ["evaluation.failed"]%string action then evaluation_details
  else if one_of ["silence.created"; "silence.updated"; "silence.deleted"]%string action then silence_details
  else if one_of ["policy.created"; "policy.updated"]%string action then policy_details
  else if one_of ["template.created"; "template.updated"]%string action then template_details
  else if one_of delivery_actions action then delivery_details
  else [].

Definition allowedAuditDetail (action key value : string) : bool :=
  if sensitiveField key || containsSecretMaterial value then false
  else detail_switch key value (action_details action).

Definition knownAuditDetailKey (action key : string) : bool :=
  if one_of ["rule.created"; "rule.updated"]%string action then one_of ["aggregation"; "operator"; "severity"; "enabled"; "threshold"]%string key
  else if one_of event_actions action then
    one_of ["state"; "window_start"; "window_end"; conditionSinceEvidenceKey; "samples"; "missing"; "missing_dimensions"; "aggregate"; "rate";
            "failure_kind"; "category"; "reason_present"]%string key
  else if one_of ["event.root_cause"]%string action then one_of ["category"; "reason_present"]%string key
  else if one_of ["evaluation.failed"]%string action then one_of ["failure_kind"]%string key
  else if one_of ["silence.created"; "silence.updated"; "silence.deleted"]%string action then
    one_of ["starts_at"; "ends_at"; "matcher_count"; "reason_present"]%string key
  else if one_of ["policy.created"; "policy.updated"]%string action then one_of ["channel"; "template_id"; "enabled"]%string key
  else if one_of ["template.created"; "template.updated"]%string action then one_of ["version"]%string key
  else if one_of delivery_actions action then one_of ["status"; "channel"; "attempt"; "failure_class"]%string key
  else false.

Definition validateAuditDetailTypes (record : AuditRecord) : outcome unit :=
  guard_ok (map_all (fun key value => negb (knownAuditDetailKey (Audit_Action record) key && negb (allowedAuditDetail (Audit_Action record) key value)))
                    (Details record)) ErrInvalidAuditRecord.

Definition sanitizeAuditDetails (action : string) (details : labels_map) : labels_map :=
  filter (fun kv => allowedAuditDetail action (fst kv) (snd kv) = true) details.

Definition with_details (record : AuditRecord) (details : labels_map) : AuditRecord :=
  {| Audit_ID := Audit_ID record; Audit_Scope := Audit_Scope record; Audit_Actor := Audit_Actor record; Audit_Action := Audit_Action record;
     TargetID := TargetID record; OccurredAt := OccurredAt record; Details := details |}.

Definition sanitizeAuditRecord (record : AuditRecord) : AuditRecord :=
  with_details record (sanitizeAuditDetails (Audit_Action record) (Details record)).

Definition AuditRecord_Validate (record : AuditRecord) : outcome unit :=
  if negb (is_ok (Scope_Validate (Audit_Scope record))) || blank (Audit_ID record) || blank (Audit_Actor record)
     || negb (allowedAuditAction (Audit_Action record)) || blank (TargetID record) || IsZero (OccurredAt record) then Err ErrInvalidAuditRecord
  else
    let sanitized := sanitizeAuditDetails (Audit_Action record) (Details record) in
    if negb (bool_decide (size sanitized = size (Details record))) then Err ErrInvalidAuditRecord
    else guard_ok (map_all (fun key value => bool_decide (label sanitized key = value)) (Details record)) ErrInvalidAuditRecord.
End audit.

(** ** Notification data *)

Record NotificationPolicy := {
  Policy_ID : string; Policy_Scope : Scope; Policy_Name : string; Policy_Channel : string; Policy_Target : string;
  Policy_SecretRef : string; Policy_TemplateID : string; Policy_Severities : list string; Policy_MatchLabels : labels_map;
  Policy_WindowStartUTC : string; Policy_WindowEndUTC : string; Policy_Enabled : bool; Policy_CreatedAt : time; Policy_UpdatedAt : time;
}.

Record NotificationTemplate := {
  Template_ID : string; Template_Scope : Scope; Template_Name : string; Template_Subject : string; Template_Body : string;
  Revision : Z; LegacyVersionFromUpdatedAt : bool; Template_CreatedAt : time; Template_UpdatedAt : time;
}.

Record Silence := {
  Silence_ID : string; Silence_Scope : Scope; Matchers : labels_map; StartsAt : time; EndsAt : time;
  CreatedBy : string; Silence_Reason : string; Silence_CreatedAt : time; Silence_UpdatedAt : time;
}.

Record DeliveryRequest := {
  DeliveryID : string; Request_Scope : Scope; Request_EventID : string; Request_State : string; Request_Severity : string;
  Channel : string; Request_PolicyID : string; PolicyVersion : string; TemplateID : string; TemplateVersion : string;
  Target : string; SecretRef : string; Subject_ : string; Body : string; Request_Labels : labels_map;
}.

Record NotificationDelivery := {
  Delivery_ID : string; Delivery_Scope : Scope; Delivery_EventID : string; Delivery_PolicyID : string; EventState : string;
  IdempotencyKey : string; Status : string; Attempts : Z; AttemptedAt : time; NextAttemptAt : time; DeliveredAt : time;
  FailureClass : string; LeaseOwner : string; LeaseExpiresAt : time; ClaimOwner : string; Request : DeliveryRequest;
}.

(** [newControlPlaneID]: a prefix and twelve random bytes; [None] is a random
    source that fails. *)
Definition newControlPlaneID (prefix : string) (random : option (list Z)) : outcome string :=
  match random with
  | None => Err ErrExternal
  | Some bytes => Ok (prefix +:+ "-" +:+ hex_encode bytes)%string
  end.

(** ** Lemmas *)

Lemma one_of_spec l s : one_of l s = true <-> s ∈ l.
Proof.
  unfold one_of. rewrite existsb_exists. split.
  - intros (x & Hx & ->%bool_decide_eq_true). by apply list_elem_of_In.
  - intros Hs. exists s. split; [by apply list_elem_of_In|]. by apply bool_decide_eq_true.
Qed.

Lemma map_all_spec f m : map_all f m = true <-> forall k v, m !! k = Some v -> f k v = true.
Proof.
  unfold map_all. rewrite forallb_forall. split.
  - intros H k v Hk. apply (H (k, v)). apply list_elem_of_In. by apply elem_of_map_to_list.
  - intros H [k v] Hin. apply H. apply elem_of_map_to_list. by apply list_elem_of_In.
Qed.

Lemma guard_ok_spec b e : guard_ok b e = Ok tt <-> b = true.
Proof. unfold guard_ok. by destruct b. Qed.

Lemma guard_ok_is_ok b e : is_ok (guard_ok b e) = b.
Proof. by destruct b. Qed.

Lemma is_ok_unit (r : outcome unit) : is_ok r = true <-> r = Ok tt.
Proof. destruct r as [[]|]; cbn; split; done. Qed.

(** *** Canonical keys *)

(** The text up to the first colon. *)
Fixpoint before_colon (s : string) : string :=
  match s with
  | EmptyString => EmptyString
  | String a rest => if Ascii.eqb a ":"%char then EmptyString else String a (before_colon rest)
  end.

Fixpoint colon_free (s : string) : bool :=
  match s with EmptyString => true | String a rest => negb (Ascii.eqb a ":"%char) && colon_free rest end.

Lemma before_colon_app s t : colon_free s = true -> before_colon (s +:+ String ":"%char t)%string = s.
Proof. induction s as [|a s IH]; intros H; [done|]. cbn [colon_free] in H.
  change (String a s +:+ ?x)%string with (String a (s +:+ x)). cbn [before_colon].
  apply andb_true_iff in H as [H1%negb_true_iff H2]. by rewrite H1, IH. Qed.

Lemma pretty_go_colon_free x s : colon_free s = true -> colon_free (pretty_N_go x s) = true.
Proof.
  revert s. induction (N.lt_wf_0 x) as [x _ IH]. intros s Hs.
  assert (x = 0 \/ 0 < x)%N as [->|Hx] by lia; [by rewrite pretty_N_go_0|].
  rewrite pretty_N_go_step by done. apply IH; [by apply N.div_lt|]. cbn. rewrite Hs, andb_true_r.
  unfold pretty_N_char. repeat (case_match; try done).
Qed.

Lemma Itoa_colon_free n : colon_free (Itoa (Z.of_nat n)) = true.
Proof.
  unfold Itoa. rewrite (proj2 (Z.ltb_ge _ _)) by lia. unfold pretty, pretty_N.
  case_decide; [done|]. by apply pretty_go_colon_free.
Qed.

Lemma Itoa_inj n m : Itoa (Z.of_nat n) = Itoa (Z.of_nat m) -> n = m.
Proof.
  unfold Itoa. rewrite !(proj2 (Z.ltb_ge _ _)) by lia. intros H. apply (inj pretty) in H. lia.
Qed.

Lemma string_app_inj_length (a b s t : string) : String.length a = String.length b ->
  (a +:+ s)%string = (b +:+ t)%string -> a = b /\ s = t.
Proof.
  revert b. induction a as [|x a IH]; intros [|y b]; cbn; intros Hl H; try discriminate Hl; [done|].
  injection Hl as Hl. injection H as -> H. destruct (IH b Hl H) as [-> ->]. done.
Qed.

Lemma canonicalParts_inj l k : canonicalParts l = canonicalParts k -> l = k.
Proof.
  assert (Hcons : forall p r, canonicalParts (p :: r) <> EmptyString).
  { intros p r. cbn. by destruct (Itoa (Z.of_nat (String.length p))). }
  revert k. induction l as [|p l IH]; intros [|q k] H; [done|by destruct (Hcons q k)|by destruct (Hcons p l)|].
  cbn [canonicalParts] in H.
  assert (Hlen : Itoa (Z.of_nat (String.length p)) = Itoa (Z.of_nat (String.length q))).
  { apply (f_equal before_colon) in H. change (":" +:+ ?x)%string with (String ":"%char x) in H.
    by rewrite !before_colon_app in H by apply Itoa_colon_free. }
  apply string_app_inj_length in H as [_ H]; [|by rewrite Hlen]. injection H as H.
  change (EmptyString +:+ ?x)%string with x in H. apply Itoa_inj in Hlen. apply string_app_inj_length in H as [-> H]; [|done]. f_equal. by apply IH.
Qed.

Lemma Scope_Key_inj s t : Scope_Key s = Scope_Key t -> s = t.
Proof. destruct s, t. unfold Scope_Key. intros H%canonicalParts_inj. cbn in H. congruence. Qed.

Lemma sorted_keys_perm m : sorted_keys m ≡ₚ map fst (map_to_list m).
Proof. apply merge_sort_Permutation. Qed.

Lemma elem_of_sorted_keys m k : k ∈ sorted_keys m <-> is_Some (m !! k).
Proof.
  rewrite sorted_keys_perm. split.
  - intros (kv & -> & Hkv)%list_elem_of_fmap. destruct kv as [x v]. apply elem_of_map_to_list in Hkv. eauto.
  - intros [v Hv]. apply list_elem_of_fmap. exists (k, v). split; [done|]. by apply elem_of_map_to_list.
Qed.

Lemma label_pairs_inj (f g : string -> string) l k :
  flat_map (fun key => [key; f key]) l = flat_map (fun key => [key; g key]) k -> l = k /\ forall x, x ∈ l -> f x = g x.
Proof.
  revert k. induction l as [|x l IH]; intros [|y k] H; cbn in H; try discriminate H.
  - split; [done|]. intros z Hz. by apply not_elem_of_nil in Hz.
  - injection H as -> Hfg H. destruct (IH k H) as [-> Hall]. split; [done|].
    intros z [->|Hz]%elem_of_cons; auto.
Qed.

Lemma canonicalLabels_inj m n : canonicalLabels m = canonicalLabels n -> m = n.
Proof.
  intros (Hkeys & Hval)%canonicalParts_inj%label_pairs_inj. apply map_eq. intros k.
  pose proof (elem_of_sorted_keys m k) as Hm. pose proof (elem_of_sorted_keys n k) as Hn. specialize (Hval k). rewrite Hkeys in Hm, Hval. unfold label in Hval.
  destruct (m !! k) as [v|], (n !! k) as [w|]; cbn in Hval.
  - f_equal. apply Hval. apply Hm. eauto.
  - assert (Hin : k ∈ sorted_keys n) by (apply Hm; eauto). by apply Hn, is_Some_None in Hin.
  - assert (Hin : k ∈ sorted_keys n) by (apply Hn; eauto). by apply Hm, is_Some_None in Hin.
  - done.
Qed.

Lemma byte_of_inj a b : byte_of a = byte_of b -> a = b.
Proof.
  unfold byte_of. intros H%N2Z.inj. rewrite <- (Ascii.ascii_N_embedding a), <- (Ascii.ascii_N_embedding b). by f_equal.
Qed.

Lemma bytes_of_inj s t : bytes_of s = bytes_of t -> s = t.
Proof.
  revert t. induction s as [|a s IH]; intros [|b t] H; try done.
  unfold bytes_of in H. cbn in H. injection H as Ha Hs. f_equal; [by apply byte_of_inj|]. by apply IH.
Qed.

(** Equal fingerprints come from equal parts, or from a collision of the digest. *)
Lemma fingerprintParts_inj `{DigestLaws} l k :
  fingerprintParts l = fingerprintParts k -> l = k \/ (exists x y, x <> y /\ sha256 x = sha256 y).
Proof.
  intros Heq%hex_encode_inj; [|apply sha256_bytes..].
  destruct (decide (bytes_of (canonicalParts l) = bytes_of (canonicalParts k))) as [E|E]; [|by right; eauto].
  left. by apply canonicalParts_inj, bytes_of_inj.
Qed.

(** *** The event state machine *)

Lemma AlertEvent_Validate_Ok e : AlertEvent_Validate e = Ok tt <->
  Scope_Validate (Event_Scope e) = Ok tt /\ blank (RuleID e) = false /\ blank (Fingerprint e) = false /\ allowedEventState (State e) = true /\
  instant (FirstSeen e) <> 0 /\ instant (LastSeen e) <> 0 /\ instant (FirstSeen e) <= instant (LastSeen e) /\
  (forall t, t ∈ [FiringAt e; AcknowledgedAt e; ResolvedAt e] -> validEventTimestamp t (FirstSeen e) (LastSeen e) = true) /\
  state_timestamps e = true.
Proof.
  unfold AlertEvent_Validate. rewrite <- (is_ok_unit (Scope_Validate _)). unfold IsZero, Before. split.
  - intros H. repeat (case_hyp H); bool_simpl. split_and!; try done.
    intros t Ht. set_unfold in Ht. destruct Ht as [Ht|[Ht|[Ht|[]]]]; by subst t.
  - intros (-> & -> & -> & -> & H1 & H2 & H3 & Ht & ->). cbn [negb orb].
    rewrite !(proj2 (Z.eqb_neq _ _)) by done. rewrite (proj2 (Z.ltb_ge _ _)) by done. cbn [orb].
    rewrite !Ht by set_solver. done.
Qed.

Lemma permittedTransition_cases s next : permittedTransition s next = true ->
  (s = EventPending /\ (next = EventFiring \/ next = EventResolved)) \/
  (s = EventFiring /\ (next = EventAcknowledged \/ next = EventResolved)) \/
  (s = EventAcknowledged /\ next = EventResolved).
Proof.
  unfold permittedTransition. intros H. repeat (case_hyp H); bool_simpl; subst.
  - apply orb_true_iff in H as [H|H]; bool_simpl; auto.
  - apply orb_true_iff in H as [H|H]; bool_simpl; auto.
  - auto.
Qed.

Lemma Transition_Ok e next at_ actor e' : Transition e next at_ actor = Ok e' ->
  e' = enter_state e next at_ actor /\ instant at_ <> 0 /\ permittedTransition (State e) next = true /\
  (instant (LastSeen e) <> 0 -> instant (LastSeen e) <= instant at_) /\ (instant (FirstSeen e) <> 0 -> instant (FirstSeen e) <= instant at_).
Proof.
  unfold Transition, IsZero, Before. intros H. repeat (case_hyp H). injection H as <-. bool_simpl. split_and!; try done.
  - intros Hn. destruct (Z.eqb_spec (instant (LastSeen e)) 0); [done|]. cbn in *. bool_simpl. lia.
  - intros Hn. destruct (Z.eqb_spec (instant (FirstSeen e)) 0); [done|]. cbn in *. bool_simpl. lia.
Qed.

(** Split a state into the four constants, and evaluate tests on constants. *)
Ltac decide_states :=
  repeat match goal with
  | |- context [bool_decide (?a = ?b)] => first
      [ rewrite (bool_decide_eq_true_2 (a = b)) by reflexivity
      | rewrite (bool_decide_eq_false_2 (a = b)) by discriminate ]
  | H : context [bool_decide (?a = ?b)] |- _ => first
      [ rewrite (bool_decide_eq_true_2 (a = b)) in H by reflexivity
      | rewrite (bool_decide_eq_false_2 (a = b)) in H by discriminate ]
  end.

Lemma timestamp_at at_ f : instant f <= instant at_ -> validEventTimestamp at_ f at_ = true.
Proof. intros H. unfold validEventTimestamp, Before, After. rewrite !(proj2 (Z.ltb_ge _ _)) by lia. by rewrite orb_true_r. Qed.

Lemma timestamp_extend t f l l' : validEventTimestamp t f l = true -> instant l <= instant l' -> validEventTimestamp t f l' = true.
Proof.
  unfold validEventTimestamp, Before, After. intros [H|H]%orb_true_iff Hl; apply orb_true_iff; [by left|right].
  bool_simpl. apply andb_true_iff. split; apply negb_true_iff, Z.ltb_ge; lia.
Qed.

Lemma timestamp_bounds t f l : validEventTimestamp t f l = true -> instant t <> 0 -> instant f <= instant t <= instant l.
Proof.
  unfold validEventTimestamp, IsZero, Before, After. intros [H|H]%orb_true_iff Hn; bool_simpl; lia.
Qed.

Lemma Transition_preserves e next at_ actor e' : AlertEvent_Validate e = Ok tt -> Transition e next at_ actor = Ok e' ->
  AlertEvent_Validate e' = Ok tt.
Proof.
  intros Hv (-> & Hat & Hp & Hl & _)%Transition_Ok. apply AlertEvent_Validate_Ok in Hv as (Hs & Hr & Hf & Ha & H1 & H2 & H3 & Ht & Hst).
  assert (Hle : instant (LastSeen e) <= instant at_) by auto. clear Hl.
  pose proof (Ht (FiringAt e) ltac:(set_solver)) as Tf. pose proof (Ht (AcknowledgedAt e) ltac:(set_solver)) as Ta.
  pose proof (Ht (ResolvedAt e) ltac:(set_solver)) as Tr. clear Ht.
  pose proof (timestamp_bounds _ _ _ Tf) as Bf. pose proof (timestamp_bounds _ _ _ Ta) as Ba.
  pose proof (timestamp_at at_ (FirstSeen e) ltac:(lia)) as Tat.
  apply (fun H => timestamp_extend _ _ _ at_ H Hle) in Tf, Ta, Tr.
  apply AlertEvent_Validate_Ok. unfold enter_state; cbn [Event_Scope RuleID Fingerprint State FirstSeen LastSeen FiringAt AcknowledgedAt ResolvedAt].
  unfold IsZero. rewrite (proj2 (Z.eqb_neq _ _) H1).
  assert (Hn : next = EventFiring \/ next = EventAcknowledged \/ next = EventResolved).
  { destruct (permittedTransition_cases _ _ Hp) as [[_ [?|?]]|[[_ [?|?]]|[_ ?]]]; auto. }
  split_and!; try done; try lia.
  - by destruct Hn as [->|[->| ->]].
  - intros t Hin. set_unfold in Hin. destruct Hin as [->|[->|[->|[]]]]; case_bool_decide; done.
  - unfold state_timestamps, in_state in *. cbn [State FiringAt AcknowledgedAt ResolvedAt].
    destruct (permittedTransition_cases _ _ Hp) as [[Hs1 [->| ->]]|[[Hs1 [->| ->]]|[Hs1 ->]]]; rewrite Hs1 in Hst; decide_states;
      unfold IsZero, Before in *; rewrite ?Z.eqb_refl, ?(proj2 (Z.eqb_neq _ _) Hat); bool_simpl; cbn [negb andb orb];
      repeat match goal with |- context [(?a =? ?b)] => destruct (Z.eqb_spec a b) end;
      repeat match goal with |- context [(?a <? ?b)] => destruct (Z.ltb_spec a b) end; cbn; try done; try lia.
Qed.

(** Requested transitions, one after another; the first refusal ends the run. *)
Fixpoint run_transitions (e : AlertEvent) (requests : list (string * time * string)) : outcome AlertEvent :=
  match requests with
  | [] => Ok e
  | (next, at_, actor) :: rest =>
      match Transition e next at_ actor with Ok e' => run_transitions e' rest | Err err => Err err end
  end.

(** How many transitions are left from a state. *)
Definition state_rank (s : string) : nat :=
  if bool_decide (s = EventPending) then 3 else if bool_decide (s = EventFiring) then 2
  else if bool_decide (s = EventAcknowledged) then 1 else 0.

Definition same_identity (e e' : AlertEvent) : Prop :=
  ID e' = ID e /\ Event_Scope e' = Event_Scope e /\ RuleID e' = RuleID e /\ Fingerprint e' = Fingerprint e.

Lemma permittedTransition_rank s next : permittedTransition s next = true -> (state_rank next < state_rank s)%nat.
Proof.
  intros H. destruct (permittedTransition_cases _ _ H) as [[-> [->| ->]]|[[-> [->| ->]]|[-> ->]]]; by apply Nat.ltb_lt.
Qed.

(** the event state machine.  A transition of a valid event succeeds
    exactly when the target state is permitted and the time is neither zero nor
    before the last update; every run of successful transitions keeps the event
    valid, keeps its identity and first-seen time, never moves the last update
    back, and ends after at most three steps (none once resolved). *)
Theorem event_lifecycle_is_sound e : AlertEvent_Validate e = Ok tt ->
  (forall next at_ actor, is_ok (Transition e next at_ actor) = true <->
     permittedTransition (State e) next = true /\ instant at_ <> 0 /\ instant (LastSeen e) <= instant at_) /\
  forall requests e', run_transitions e requests = Ok e' ->
    AlertEvent_Validate e' = Ok tt /\ same_identity e e' /\ FirstSeen e' = FirstSeen e /\
    instant (LastSeen e) <= instant (LastSeen e') /\ (length requests + state_rank (State e') <= state_rank (State e))%nat.
Proof.
  intros Hv. split.
  - intros next at_ actor. pose proof Hv as (_ & _ & _ & _ & H1 & H2 & H3 & _)%AlertEvent_Validate_Ok. split.
    + intros H. destruct (Transition e next at_ actor) as [e'|] eqn:E; [|discriminate]. apply Transition_Ok in E as (_ & ? & ? & ? & _). auto.
    + intros (Hp & Ha & Hl). unfold Transition, IsZero, Before. rewrite !(proj2 (Z.eqb_neq _ _)) by done.
      rewrite !(proj2 (Z.ltb_ge _ _)) by lia. rewrite Hp. done.
  - intros requests. revert e Hv. induction requests as [|[[next at_] actor] rest IH]; intros e Hv e' H.
    + injection H as <-. unfold same_identity. split_and!; try done; cbn; lia.
    + cbn [run_transitions] in H. destruct (Transition e next at_ actor) as [e1|] eqn:E; [|discriminate].
      pose proof (Transition_preserves _ _ _ _ _ Hv E) as Hv1. apply Transition_Ok in E as (-> & _ & Hp & Hl & _).
      apply AlertEvent_Validate_Ok in Hv as (_ & _ & _ & _ & H1 & H2 & _).
      destruct (IH _ Hv1 _ H) as (Hv' & (I1 & I2 & I3 & I4) & Hf & Hl' & Hlen). apply permittedTransition_rank in Hp. specialize (Hl H2).
      unfold enter_state, IsZero in Hf. cbn [FirstSeen] in Hf. rewrite (proj2 (Z.eqb_neq _ _) H1) in Hf.
      cbn [enter_state LastSeen State] in *. cbn [length]. unfold same_identity. split_and!; try done; lia.
Qed.

Module ModelDemo.

Definition at_second (s : Z) : time := Time (unix_epoch + s * second) true.
Definition scope : Scope := MkScope "acme" "billing".
Definition event : AlertEvent :=
  {| ID := "event-1"; Event_Scope := scope; RuleID := "rule-1"; Fingerprint := "f1"; Labels := ∅; Evidence := ∅; State := EventPending;
     FirstSeen := at_second 10; LastSeen := at_second 20; FiringAt := zero_time; AcknowledgedAt := zero_time; ResolvedAt := zero_time;
     LastActor := "system:evaluator" |}.

(** A digest of 32 bytes for the examples: the input cut or padded. *)
Definition cut_digest : list Z -> list Z := fun l => take 32 (((fun z => z mod 256) <$> l) ++ replicate 32 0).

#[export] Instance demo_digest : Digest := { sha256 := cut_digest }.
#[export] Instance demo_digest_laws : DigestLaws.
Proof.
  split. intros l. cbn. unfold cut_digest. apply Forall_take, Forall_app. split; [|apply Forall_replicate; unfold is_byte; lia].
  apply Forall_fmap, Forall_forall. intros z _. apply Z.mod_pos_bound. lia.
Qed.

End ModelDemo.

Lemma event_lifecycle_is_sound_witness :
  exists e', run_transitions ModelDemo.event [(EventFiring, ModelDemo.at_second 30, "system:evaluator"%string); (EventResolved, ModelDemo.at_second 40, "ops"%string)] = Ok e' /\
    AlertEvent_Validate e' = Ok tt.
Proof.
  eexists. split; [vm_compute; reflexivity|].
  refine (proj1 (proj2 (event_lifecycle_is_sound ModelDemo.event _) [(EventFiring, ModelDemo.at_second 30, "system:evaluator"%string); (EventResolved, ModelDemo.at_second 40, "ops"%string)] _ _));
    vm_compute; reflexivity.
Defined.

(** tenant isolation.  An ordinary principal is allowed exactly the valid
    scopes it is assigned to: keys of different scopes never coincide.  Equal
    event fingerprints come from the same scope, rule and labels, unless the
    digest itself collides. *)
Theorem scope_identities_are_unambiguous `{DigestLaws} :
  (forall subject assigned scope,
     Allows {| Subject := subject; PlatformAdmin := false; Projects := list_to_set (Scope_Key <$> assigned) |} scope = true <->
     Scope_Validate scope = Ok tt /\ scope ∈ assigned) /\
  forall s s' r r' l l', EventFingerprint s r l = EventFingerprint s' r' l' ->
    (s = s' /\ r = r' /\ l = l') \/ exists x y, x <> y /\ sha256 x = sha256 y.
Proof.
  split.
  - intros subject assigned scope. unfold Allows. cbn [PlatformAdmin Projects]. rewrite <- is_ok_unit.
    destruct (is_ok (Scope_Validate scope)); cbn [negb]; [|split; [done|by intros []]].
    rewrite bool_decide_eq_true, elem_of_list_to_set, list_elem_of_fmap. split.
    + intros (s & ->%Scope_Key_inj & Hs). done.
    + intros [_ Hs]. eauto.
  - intros s s' r r' l l' [Heq|Hc]%fingerprintParts_inj; [left|by right].
    injection Heq as H1 H2 -> ->%canonicalLabels_inj. destruct s, s'. cbn in *. by subst.
Qed.

Lemma scope_identities_are_unambiguous_witness :
  Allows {| Subject := "ops"; PlatformAdmin := false; Projects := list_to_set (Scope_Key <$> [ModelDemo.scope]) |} ModelDemo.scope = true.
Proof.
  apply (proj1 (@scope_identities_are_unambiguous ModelDemo.demo_digest ModelDemo.demo_digest_laws) "ops"%string [ModelDemo.scope] ModelDemo.scope).
  split; [vm_compute; reflexivity|by apply list_elem_of_singleton].
Defined.

(** *** Audit details *)

Lemma detail_switch_keys key value cases :
  detail_switch key value cases = true -> one_of (concat (map fst cases)) key = true.
Proof.
  induction cases as [|[keys ok] rest IH]; cbn [detail_switch map concat fst]; intros H; [done|].
  apply one_of_spec, elem_of_app. destruct (one_of keys key) eqn:E; [left|right]; apply one_of_spec; auto.
Qed.

Lemma known_iff_listed `{FloatText} action key :
  knownAuditDetailKey action key = one_of (concat (map fst (action_details action))) key.
Proof. unfold knownAuditDetailKey, action_details. repeat case_goal; reflexivity. Qed.

Lemma allowed_is_known `{FloatText} action key value : allowedAuditDetail action key value = true ->
  knownAuditDetailKey action key = true /\ sensitiveField key = false /\ containsSecretMaterial value = false.
Proof.
  unfold allowedAuditDetail. intros Ha. case_hyp Ha. apply detail_switch_keys in Ha. rewrite known_iff_listed. bool_simpl. done.
Qed.

Lemma sanitizeAuditDetails_lookup `{FloatText} action m k v :
  sanitizeAuditDetails action m !! k = Some v <-> m !! k = Some v /\ allowedAuditDetail action k v = true.
Proof. unfold sanitizeAuditDetails. rewrite map_lookup_filter_Some. done. Qed.

Lemma sanitizeAuditDetails_id `{FloatText} action m :
  (forall k v, m !! k = Some v -> allowedAuditDetail action k v = true) -> sanitizeAuditDetails action m = m.
Proof. intros Hm. apply map_filter_id. intros k v Hk. cbn. by apply Hm. Qed.

(** A record whose details are left unchanged by the sanitiser is valid when its header is. *)
Lemma AuditRecord_Validate_Ok `{FloatText} r : AuditRecord_Validate r = Ok tt <->
  AuditRecord_Validate (with_details r ∅) = Ok tt /\ sanitizeAuditRecord r = r.
Proof.
  assert (Hd : sanitizeAuditRecord r = r <-> sanitizeAuditDetails (Audit_Action r) (Details r) = Details r).
  { destruct r. unfold sanitizeAuditRecord, with_details. cbn. split; [by intros [=]|by intros ->]. }
  rewrite Hd. unfold AuditRecord_Validate, with_details. cbn [Audit_Scope Audit_ID Audit_Actor Audit_Action TargetID OccurredAt Details].
  case_goal; [split; [done|by intros []]|]. change (sanitizeAuditDetails (Audit_Action r) ∅) with (∅ : labels_map).
  change (map_all _ ∅) with true. rewrite (bool_decide_eq_true_2 (size (∅ : labels_map) = size (∅ : labels_map))) by reflexivity. cbn [guard_ok negb].
  split.
  - intros Hr. split; [done|]. case_hyp Hr. bool_simpl. apply map_subseteq_size_eq; [apply map_filter_subseteq|lia].
  - intros [_ ->]. rewrite bool_decide_eq_true_2 by done. cbn [negb]. apply guard_ok_spec, map_all_spec. intros k v Hk.
    apply bool_decide_eq_true. unfold label. by rewrite Hk.
Qed.

(** audit records carry no secrets.  Whatever details a caller supplies,
    the stored record keeps only details of the caller's with a key known for
    its action, a key that names no credential and a value without secret
    material.  Validation accepts exactly the records that have a valid header
    and that sanitising leaves unchanged, so a sanitised record with a valid
    header always passes; and when the type check passes, sanitising drops
    nothing but details whose key the action does not know. *)
Theorem audit_records_carry_no_secrets `{FloatText} (r : AuditRecord) :
  (forall k v, Details (sanitizeAuditRecord r) !! k = Some v ->
     Details r !! k = Some v /\ knownAuditDetailKey (Audit_Action r) k = true /\ sensitiveField k = false /\ containsSecretMaterial v = false) /\
  (AuditRecord_Validate r = Ok tt <-> AuditRecord_Validate (with_details r ∅) = Ok tt /\ sanitizeAuditRecord r = r) /\
  (AuditRecord_Validate (with_details r ∅) = Ok tt -> AuditRecord_Validate (sanitizeAuditRecord r) = Ok tt) /\
  (validateAuditDetailTypes r = Ok tt -> forall k v, Details r !! k = Some v -> Details (sanitizeAuditRecord r) !! k = None ->
     knownAuditDetailKey (Audit_Action r) k = false).
Proof.
  split_and!.
  - intros k v (Hk & (H1 & H2 & H3)%allowed_is_known)%sanitizeAuditDetails_lookup. done.
  - apply AuditRecord_Validate_Ok.
  - intros Hh. apply AuditRecord_Validate_Ok. split; [exact Hh|].
    unfold sanitizeAuditRecord at 1. cbn [sanitizeAuditRecord with_details Audit_Action Details].
    rewrite (sanitizeAuditDetails_id _ (sanitizeAuditDetails _ _)); [done|]. intros k v [_ Hk]%sanitizeAuditDetails_lookup. exact Hk.
  - intros Ht%guard_ok_spec k v Hk Hnone. rewrite map_all_spec in Ht. specialize (Ht k v Hk). cbn in Hnone.
    destruct (knownAuditDetailKey (Audit_Action r) k); [|done]. destruct (allowedAuditDetail (Audit_Action r) k v) eqn:Ea; [|done].
    assert (Hs : sanitizeAuditDetails (Audit_Action r) (Details r) !! k = Some v) by by apply sanitizeAuditDetails_lookup.
    congruence.
Qed.
