(* ===== verification/AlertStore.v ===== *)
(** * The PostgreSQL alert store

    The event, rule-schedule and audit part of [alert/postgres.go]: the tables
    as finite maps, every transaction with the outcome the database gives it,
    and the checks the code makes inside it.  What the database does to a
    value it stores is a parameter: the rounding of timestamps, the JSONB
    encoding of a string map, and the collation that orders identifiers.

    The main result is that the event table follows the alert lifecycle
    whatever events its callers write ([stored_events_follow_the_lifecycle]). *)

From S2P Require Import Prelude GoText AlertModel.

Open Scope Z_scope.

(** ** The database *)

Class Database := {
  pg_time : time -> time;                      (* a timestamp after a round trip through TIMESTAMPTZ *)
  jsonb : labels_map -> option labels_map;     (* a string map after a round trip through JSONB *)
  collate : string -> string -> bool;          (* the order of identifiers *)
}.

(** PostgreSQL keeps timestamps with microsecond resolution; a JSON object
    keeps the entries that are printable ASCII. *)
Class DatabaseLaws `{Database} := {
  pg_time_mono a b : instant a <= instant b -> instant (pg_time a) <= instant (pg_time b);
  pg_time_idem t : instant (pg_time (pg_time t)) = instant (pg_time t);
  pg_time_near t : -500 <= instant (pg_time t) - instant t <= 500;
  jsonb_entry m m' k v : jsonb m = Some m' -> m !! k = Some v -> plain_text k = true -> plain_text v = true -> m' !! k = Some v;
}.

Record ruleRow := {
  row_rule : AlertRule;
  next_evaluation_at : time;
  last_evaluated_at : option time;
  evaluation_lease_owner : string;
  evaluation_lease_expires_at : option time;
}.

Record tables := Tables {
  events : gmap (Scope * string) AlertEvent;      (* unique (tenant, project, fingerprint) *)
  rules : gmap (Scope * string) ruleRow;          (* primary key (tenant, project, id) *)
  audits : list AuditRecord;                      (* append-only *)
  dispositions : list EventDisposition;           (* append-only *)
  policies : gmap (Scope * string) NotificationPolicy;
  templates : gmap (Scope * string) NotificationTemplate;
  silences : list Silence;
  deliveries : gmap (Scope * string) NotificationDelivery;   (* unique (tenant, project, idempotency key) *)
}.

(** A delivery channel succeeds, fails with a classified delivery error, or
    fails with any other error. *)
Inductive channel_reply := ChannelAccepted | ChannelFailed (class : string) (retryable : bool) | ChannelError.

(** What an operation of the alert control plane can see and change: the
    tables, the outcomes of the database calls, random reads and channel calls
    to come, and the requests handed to the channels so far. *)
Record world := World {
  db : tables;
  verdicts : list verdict;
  entropy : list (option (list Z));
  replies : list channel_reply;
  sent : list DeliveryRequest;
}.
Definition set_db (t : tables) (w : world) : world := World t (verdicts w) (entropy w) (replies w) (sent w).

Definition M (A : Type) : Type := world -> outcome A * world.
#[global] Instance M_ret : MRet M := fun _ a w => (Ok a, w).
#[global] Instance M_bind : MBind M := fun _ _ f m w =>
  match m w with
  | (Ok a, w') => f a w'
  | (Err e, w') => (Err e, w')
  end.
Definition throw {A} (e : AlertError) : M A := fun w => (Err e, w).
Definition lift {A} (r : outcome A) : M A := fun w => (r, w).
(** The outcome of a call as a value, for code that inspects the error. *)
Definition attempt {A} (m : M A) : M (outcome A) := fun w => let '(r, w') := m w in (Ok r, w').
Definition get {A} (f : tables -> A) : M A := fun w => (Ok (f (db w)), w).
Definition modify (f : tables -> tables) : M unit := fun w => (Ok tt, set_db (f (db w)) w).

Definition next_verdict (w : world) : verdict * world :=
  match verdicts w with
  | [] => (TxCommit, w)
  | v :: rest => (v, World (db w) rest (entropy w) (replies w) (sent w))
  end.

(** A query outside a transaction. *)
Definition query {A} (body : M A) : M A := fun w =>
  match next_verdict w with
  | (TxCommit, w') => body w'
  | (_, w') => (Err ErrExternal, w')
  end.

(** [BeginTx], the body, [Commit], with the deferred [Rollback]. *)
Definition transaction {A} (body : M A) : M A := fun w =>
  match next_verdict w with
  | (TxFail, w') => (Err ErrExternal, w')
  | (v, w') =>
      match body w' with
      | (Err e, w2) => (Err e, set_db (db w') w2)
      | (Ok a, w2) => match v with TxLost => (Err ErrExternal, w2) | _ => (Ok a, w2) end
      end
  end.

Definition newID (prefix : string) : M string := fun w =>
  match entropy w with
  | [] => (Err ErrExternal, w)
  | r :: rest => (newControlPlaneID prefix r, World (db w) (verdicts w) rest (replies w) (sent w))
  end.

Definition require (b : bool) (e : AlertError) : M unit := if b then mret tt else throw e.

(** ** Events *)

Definition set_events (f : gmap (Scope * string) AlertEvent -> gmap (Scope * string) AlertEvent) (t : tables) : tables :=
  Tables (f (events t)) (rules t) (audits t) (dispositions t) (policies t) (templates t) (silences t) (deliveries t).
Definition add_audit (r : AuditRecord) (t : tables) : tables :=
  Tables (events t) (rules t) (audits t ++ [r]) (dispositions t) (policies t) (templates t) (silences t) (deliveries t).
Definition add_disposition (d : EventDisposition) (t : tables) : tables :=
  Tables (events t) (rules t) (audits t) (dispositions t ++ [d]) (policies t) (templates t) (silences t) (deliveries t).

Definition event_key (e : AlertEvent) : Scope * string := (Event_Scope e, Fingerprint e).
Definition sameTime (a b : time) : bool := TimeEqual a b.

Definition validateStoredEventMutation (previous : option AlertEvent) (next : AlertEvent) : outcome bool :=
  if blank (LastActor next) then Err ErrInvalidEventTransition
  else match previous with
  | None =>
      if negb (in_state next EventPending) && negb (in_state next EventResolved) then Err ErrInvalidEventTransition
      else if in_state next EventResolved && negb (TimeEqual (ResolvedAt next) (LastSeen next)) then Err ErrInvalidEventTransition
      else Ok true
  | Some p =>
      if negb (bool_decide (ID p = ID next)) || negb (bool_decide (Event_Scope p = Event_Scope next))
         || negb (bool_decide (RuleID p = RuleID next)) || negb (bool_decide (Fingerprint p = Fingerprint next))
         || negb (TimeEqual (FirstSeen p) (FirstSeen next)) || Before (LastSeen next) (LastSeen p) then Err ErrInvalidEventTransition
      else if bool_decide (State p = State next) then
        if negb (sameTime (FiringAt p) (FiringAt next)) || negb (sameTime (AcknowledgedAt p) (AcknowledgedAt next))
           || negb (sameTime (ResolvedAt p) (ResolvedAt next)) then Err ErrInvalidEventTransition
        else Ok false
      else if in_state p EventResolved && in_state next EventPending then
        if negb (IsZero (FiringAt next)) || negb (IsZero (AcknowledgedAt next)) || negb (IsZero (ResolvedAt next))
        then Err ErrInvalidEventTransition else Ok true
      else match Transition p (State next) (LastSeen next) (LastActor next) with
           | Err _ => Err ErrInvalidEventTransition
           | Ok expected =>
               if negb (sameTime (FiringAt expected) (FiringAt next)) || negb (sameTime (AcknowledgedAt expected) (AcknowledgedAt next))
                  || negb (sameTime (ResolvedAt expected) (ResolvedAt next)) then Err ErrInvalidEventTransition
               else Ok true
           end
  end.

Definition validateLifecycleAudit (event : AlertEvent) (record : AuditRecord) : outcome unit :=
  if negb (bool_decide (Audit_Scope record = Event_Scope event)) || negb (bool_decide (TargetID record = ID event))
     || negb (bool_decide (Audit_Action record = ("event." +:+ State event)%string))
     || negb (bool_decide (Audit_Actor record = LastActor event)) || negb (TimeEqual (OccurredAt record) (LastSeen event))
  then Err ErrInvalidAuditRecord else Ok tt.

Definition with_target (record : AuditRecord) (target : string) : AuditRecord :=
  {| Audit_ID := Audit_ID record; Audit_Scope := Audit_Scope record; Audit_Actor := Audit_Actor record; Audit_Action := Audit_Action record;
     TargetID := target; OccurredAt := OccurredAt record; Details := Details record |}.

Section store.
Context `{Digest} `{FloatText} `{Database}.

Definition lifecycleAuditRecord (event : AlertEvent) (supplied : option AuditRecord) : M AuditRecord :=
  match supplied with
  | Some record => mret (with_target record (ID event))
  | None =>
      id ← newID "audit";
      mret (sanitizeAuditRecord
        {| Audit_ID := id; Audit_Scope := Event_Scope event; Audit_Actor := LastActor event;
           Audit_Action := ("event." +:+ State event)%string; TargetID := ID event; OccurredAt := LastSeen event;
           Details := <["state"%string := State event]> (Evidence event) |})
  end.

(** [nullableTimestamp] on the way in, [sql.NullTime] on the way out. *)
Definition nullable (t : time) : time := if IsZero t then zero_time else pg_time t.

Definition encode_map (m : labels_map) : M labels_map :=
  match jsonb m with Some m' => mret m' | None => throw ErrExternal end.

(** The row of an upsert: on a conflict of (tenant, project, fingerprint) the
    identifier, rule and first-seen time of the old row stay. *)
Definition upsert_row (old : option AlertEvent) (e : AlertEvent) (labels evidence : labels_map) : AlertEvent :=
  {| ID := match old with Some p => ID p | None => ID e end; Event_Scope := Event_Scope e;
     RuleID := match old with Some p => RuleID p | None => RuleID e end; Fingerprint := Fingerprint e;
     Labels := labels; Evidence := evidence; State := State e;
     FirstSeen := match old with Some p => FirstSeen p | None => pg_time (FirstSeen e) end; LastSeen := pg_time (LastSeen e);
     FiringAt := nullable (FiringAt e); AcknowledgedAt := nullable (AcknowledgedAt e); ResolvedAt := nullable (ResolvedAt e);
     LastActor := LastActor e |}.

(** A new event is refused by the primary key (tenant, project, id) if its identifier is used, and by the foreign key on
    the rules if its rule is not there. *)
Definition insert_refused (t : tables) (e : AlertEvent) : bool :=
  existsb (fun kv => bool_decide (Event_Scope (snd kv) = Event_Scope e) && bool_decide (ID (snd kv) = ID e)) (map_to_list (events t))
  || negb (bool_decide (is_Some (rules t !! (Event_Scope e, RuleID e)))).

Definition putEvent (e : AlertEvent) : M AlertEvent :=
  _ ← lift (AlertEvent_Validate e);
  labels ← encode_map (sanitizeDetails (Labels e));
  evidence ← encode_map (sanitizeDetails (Evidence e));
  old ← get (fun t => events t !! event_key e);
  refused ← get (fun t => insert_refused t e);
  _ ← require (negb (bool_decide (old = None) && refused)) ErrExternal;
  let row := upsert_row old e labels evidence in
  _ ← modify (set_events (fun m => <[event_key e := row]> m));
  mret row.

Definition audit_taken (t : tables) (record : AuditRecord) : bool :=
  existsb (fun r => bool_decide (Audit_Scope r = Audit_Scope record) && bool_decide (Audit_ID r = Audit_ID record)) (audits t).

Definition stored_audit (record : AuditRecord) (details : labels_map) : AuditRecord :=
  {| Audit_ID := Audit_ID record; Audit_Scope := Audit_Scope record; Audit_Actor := Audit_Actor record; Audit_Action := Audit_Action record;
     TargetID := TargetID record; OccurredAt := pg_time (OccurredAt record); Details := details |}.

(** The insert into the audit log, which refuses a used identifier. *)
Definition insert_audit (record : AuditRecord) : M unit :=
  details ← encode_map (Details record);
  taken ← get (fun t => audit_taken t record);
  _ ← require (negb taken) ErrExternal;
  modify (add_audit (stored_audit record details)).

Definition appendAudit (record : AuditRecord) : M unit :=
  _ ← lift (validateAuditDetailTypes record);
  let record := sanitizeAuditRecord record in
  _ ← lift (AuditRecord_Validate record);
  insert_audit record.

Definition stored_disposition (d : EventDisposition) : EventDisposition :=
  {| Disp_ID := Disp_ID d; Disp_Scope := Disp_Scope d; Disp_EventID := Disp_EventID d; Disp_Kind := Disp_Kind d;
     Disp_Category := Disp_Category d; Disp_Reason := Disp_Reason d; Disp_Actor := Disp_Actor d; Disp_OccurredAt := pg_time (Disp_OccurredAt d) |}.

(** Dispositions have a primary key and refer to an event of their scope. *)
Definition insertEventDisposition (d : EventDisposition) : M unit :=
  _ ← lift (EventDisposition_Validate d);
  taken ← get (fun t => existsb (fun d' => bool_decide (Disp_Scope d' = Disp_Scope d) && bool_decide (Disp_ID d' = Disp_ID d)) (dispositions t));
  known ← get (fun t => existsb (fun kv => bool_decide (Event_Scope (snd kv) = Disp_Scope d) && bool_decide (ID (snd kv) = Disp_EventID d)) (map_to_list (events t)));
  _ ← require (negb taken && known) ErrExternal;
  modify (add_disposition (stored_disposition d)).

(** The body of the event transaction; the advisory lock and the row lock make
    it atomic with respect to other writers of the same fingerprint. *)
Definition mutate_body (event : AlertEvent) (suppliedAudit : option AuditRecord) (suppliedDisposition : option EventDisposition) : M AlertEvent :=
  previous ← get (fun t => events t !! event_key event);
  stateChanged ← lift (validateStoredEventMutation previous event);
  _ ← require (bool_decide (suppliedAudit = None) || stateChanged) ErrInvalidAuditRecord;
  stored ← putEvent event;
  _ ← (if stateChanged then record ← lifecycleAuditRecord stored suppliedAudit; appendAudit record else mret tt);
  _ ← match suppliedDisposition with
      | None => mret tt
      | Some d => _ ← require stateChanged ErrInvalidDisposition; insertEventDisposition d
      end;
  mret stored.

Definition mutateEvent (event : AlertEvent) (suppliedAudit : option AuditRecord) (suppliedDisposition : option EventDisposition) : M AlertEvent :=
  _ ← lift (AlertEvent_Validate event);
  transaction (mutate_body event suppliedAudit suppliedDisposition).

Definition PutEvent (event : AlertEvent) : M AlertEvent := mutateEvent event None None.

(** The checks [PutEventAndAudit] and [PutEventAndDisposition] share: a
    sanitised, valid audit record of this very transition. *)
Definition checked_audit (event : AlertEvent) (record : AuditRecord) : M AuditRecord :=
  _ ← lift (AlertEvent_Validate event);
  _ ← lift (validateAuditDetailTypes record);
  let record := sanitizeAuditRecord record in
  _ ← lift (AuditRecord_Validate record);
  _ ← lift (validateLifecycleAudit event record);
  mret record.

Definition PutEventAndAudit (event : AlertEvent) (record : AuditRecord) : M AlertEvent :=
  record ← checked_audit event record;
  mutateEvent event (Some record) None.

Definition PutEventAndDisposition (event : AlertEvent) (record : AuditRecord) (d : EventDisposition) : M AlertEvent :=
  if negb (is_ok (EventDisposition_Validate d)) || negb (bool_decide (Disp_Scope d = Event_Scope event))
     || negb (bool_decide (Disp_EventID d = ID event)) || negb (bool_decide (Disp_Actor d = LastActor event))
     || negb (TimeEqual (Disp_OccurredAt d) (LastSeen event)) then throw ErrInvalidDisposition
  else
    let wantKind := if in_state event EventResolved then DispositionResolution else DispositionAcknowledgement in
    if negb (bool_decide (Disp_Kind d = wantKind)) then throw ErrInvalidDisposition
    else record ← checked_audit event record; mutateEvent event (Some record) (Some d).

Definition AppendAudit (record : AuditRecord) : M unit :=
  _ ← lift (validateAuditDetailTypes record);
  let record := sanitizeAuditRecord record in
  _ ← lift (AuditRecord_Validate record);
  transaction (insert_audit record).

Definition AppendEventDisposition (d : EventDisposition) (record : AuditRecord) : M unit :=
  if negb (is_ok (EventDisposition_Validate d)) || negb (bool_decide (Disp_Kind d = DispositionRootCause))
     || negb (bool_decide (Audit_Scope record = Disp_Scope d)) || negb (bool_decide (TargetID record = Disp_EventID d))
     || negb (bool_decide (Audit_Actor record = Disp_Actor d)) || negb (TimeEqual (OccurredAt record) (Disp_OccurredAt d))
     || negb (bool_decide (Audit_Action record = "event.root_cause"%string)) then throw ErrInvalidDisposition
  else
    _ ← lift (validateAuditDetailTypes record);
    let record := sanitizeAuditRecord record in
    _ ← lift (AuditRecord_Validate record);
    transaction (
      known ← get (fun t => existsb (fun kv => bool_decide (Event_Scope (snd kv) = Disp_Scope d) && bool_decide (ID (snd kv) = Disp_EventID d)) (map_to_list (events t)));
      _ ← require known ErrNotFound;
      _ ← appendAudit record;
      insertEventDisposition d).

(** *** Reading events *)

Definition FindEventByFingerprint (scope : Scope) (fingerprint : string) : M (option AlertEvent) :=
  _ ← lift (Scope_Validate scope);
  query (get (fun t => events t !! (scope, fingerprint))).

Definition scope_events (scope : Scope) (t : tables) : list AlertEvent :=
  filter (fun e => Event_Scope e = scope) (map snd (map_to_list (events t))).

Definition id_le (a b : AlertEvent) : Prop := collate (ID a) (ID b) = true.
#[global] Instance id_le_dec a b : Decision (id_le a b) := decide (collate (ID a) (ID b) = true).

(** Newest first, ties by identifier. *)
Definition recent_first (a b : AlertEvent) : Prop :=
  (Before (LastSeen b) (LastSeen a) || (TimeEqual (LastSeen a) (LastSeen b) && collate (ID a) (ID b))) = true.
#[global] Instance recent_first_dec a b : Decision (recent_first a b) :=
  decide ((Before (LastSeen b) (LastSeen a) || (TimeEqual (LastSeen a) (LastSeen b) && collate (ID a) (ID b))) = true).

Definition after_id (cursor : string) (e : AlertEvent) : bool := collate cursor (ID e) && negb (bool_decide (ID e = cursor)).

Record EventFilter := { States : list string; Limit : Z; Offset : Z; AfterID : string; OrderByID : bool }.

Definition page_limit (filter_ : EventFilter) : nat :=
  Z.to_nat (if (Limit filter_ <=? 0) || (500 <? Limit filter_) then 100 else Limit filter_).
Definition page_offset (filter_ : EventFilter) : nat := Z.to_nat (if Offset filter_ <? 0 then 0 else Offset filter_).
Definition state_selected (filter_ : EventFilter) (e : AlertEvent) : bool :=
  match States filter_ with [] => true | l => one_of l (State e) end.

Definition ListEvents (scope : Scope) (filter_ : EventFilter) : M (list AlertEvent) :=
  _ ← lift (Scope_Validate scope);
  let selected t := filter (fun e => state_selected filter_ e = true) (scope_events scope t) in
  if OrderByID filter_ then
    if empty_string (AfterID filter_) then
      query (get (fun t => take (page_limit filter_) (merge_sort id_le (selected t))))
    else if (512 <? String.length (AfterID filter_))%nat || existsb (fun b => b =? 0) (bytes_of (AfterID filter_)) then throw ErrInvalidEvent
    else query (get (fun t => take (page_limit filter_) (merge_sort id_le (filter (fun e => after_id (AfterID filter_) e = true) (selected t)))))
  else query (get (fun t => take (page_limit filter_) (drop (page_offset filter_) (merge_sort recent_first (selected t))))).

Definition ListRuleEvents (scope : Scope) (ruleID : string) (filter_ : EventFilter) : M (list AlertEvent) :=
  _ ← lift (Scope_Validate scope);
  if blank ruleID then throw ErrInvalidEvent
  else query (get (fun t => take (page_limit filter_) (drop (page_offset filter_)
         (merge_sort id_le (filter (fun e => RuleID e = ruleID /\ state_selected filter_ e = true) (scope_events scope t)))))).

(** ** Rules and their schedule *)

Definition GetRule (scope : Scope) (id : string) : M AlertRule :=
  _ ← lift (Scope_Validate scope);
  row ← query (get (fun t => rules t !! (scope, id)));
  match row with Some r => mret (row_rule r) | None => throw ErrNotFound end.

Definition newest_rule (a b : AlertRule) : Prop := Before (Rule_CreatedAt a) (Rule_CreatedAt b) = false.
#[global] Instance newest_rule_dec a b : Decision (newest_rule a b) := decide (Before (Rule_CreatedAt a) (Rule_CreatedAt b) = false).

Definition ListRules (scope : Scope) : M (list AlertRule) :=
  _ ← lift (Scope_Validate scope);
  query (get (fun t => merge_sort newest_rule (map (fun kr => row_rule (snd kr)) (filter (fun kr => fst (fst kr) = scope) (map_to_list (rules t)))))).

Record DueAlertRule := { Due_Rule : AlertRule; DueAt : time }.

Definition maxDueRulesPerPass : Z := 100.

Definition is_due (scope : Scope) (at_ : time) (kr : (Scope * string) * ruleRow) : bool :=
  let '((s, _), r) := kr in
  bool_decide (s = scope) && Rule_Enabled (row_rule r) && negb (After (next_evaluation_at r) (pg_time at_))
  && match evaluation_lease_expires_at r with None => true | Some until => negb (After until (pg_time at_)) end.

Definition due_before (a b : (Scope * string) * ruleRow) : Prop :=
  (Before (next_evaluation_at (snd a)) (next_evaluation_at (snd b))
   || (TimeEqual (next_evaluation_at (snd a)) (next_evaluation_at (snd b)) && collate (snd (fst a)) (snd (fst b)))) = true.
#[global] Instance due_before_dec a b : Decision (due_before a b) :=
  decide ((Before (next_evaluation_at (snd a)) (next_evaluation_at (snd b))
   || (TimeEqual (next_evaluation_at (snd a)) (next_evaluation_at (snd b)) && collate (snd (fst a)) (snd (fst b)))) = true).

Definition lease_row (owner : string) (until : time) (r : ruleRow) : ruleRow :=
  {| row_rule := row_rule r; next_evaluation_at := next_evaluation_at r; last_evaluated_at := last_evaluated_at r;
     evaluation_lease_owner := owner; evaluation_lease_expires_at := Some (pg_time until) |}.

Definition set_rules (f : gmap (Scope * string) ruleRow -> gmap (Scope * string) ruleRow) (t : tables) : tables :=
  Tables (events t) (f (rules t)) (audits t) (dispositions t) (policies t) (templates t) (silences t) (deliveries t).

Definition due_rows (scope : Scope) (at_ : time) (t : tables) : list ((Scope * string) * ruleRow) :=
  filter (fun kr => is_due scope at_ kr = true) (map_to_list (rules t)).

Definition ClaimDueRules (scope : Scope) (at_ : time) (owner : string) (leaseUntil : time) (limit : Z) : M (list DueAlertRule * Z) :=
  if negb (is_ok (Scope_Validate scope)) || IsZero at_ || blank owner || negb (After leaseUntil at_) || (limit <=? 0) then throw ErrInvalidRule
  else
    let limit := if maxDueRulesPerPass <? limit then maxDueRulesPerPass else limit in
    transaction (
      rows ← get (due_rows scope at_);
      let claimed := take (Z.to_nat limit) (merge_sort due_before rows) in
      _ ← modify (set_rules (fun m => foldr (fun kr m => <[fst kr := lease_row owner leaseUntil (snd kr)]> m) m claimed));
      mret (map (fun kr => {| Due_Rule := row_rule (snd kr); DueAt := next_evaluation_at (snd kr) |}) claimed,
            Z.max 0 (Z.of_nat (length rows) - Z.of_nat (length claimed)))).

Definition completed_row (evaluatedAt nextAt : time) (r : ruleRow) : ruleRow :=
  {| row_rule := row_rule r; next_evaluation_at := pg_time nextAt; last_evaluated_at := Some (pg_time evaluatedAt);
     evaluation_lease_owner := EmptyString; evaluation_lease_expires_at := None |}.

Definition CompleteRuleEvaluation (scope : Scope) (ruleID owner : string) (evaluatedAt nextAt : time) : M unit :=
  if negb (is_ok (Scope_Validate scope)) || negb (validIdentifier ruleID) || blank owner || IsZero evaluatedAt || negb (After nextAt evaluatedAt)
  then throw ErrInvalidRule
  else transaction (
    row ← get (fun t => rules t !! (scope, ruleID));
    match row with
    | Some r => if bool_decide (evaluation_lease_owner r = owner)
                then modify (set_rules (fun m => <[(scope, ruleID) := completed_row evaluatedAt nextAt r]> m))
                else throw ErrRuleScheduleLeaseLost
    | None => throw ErrRuleScheduleLeaseLost
    end).
End store.

(** ** Reasoning about store programs *)

Lemma run_bind_Ok {A B} (m : M A) (f : A -> M B) w b w' :
  (m ≫= f) w = (Ok b, w') -> exists a w1, m w = (Ok a, w1) /\ f a w1 = (Ok b, w').
Proof. unfold mbind, M_bind. destruct (m w) as [[a|e] w1]; [eauto|discriminate]. Qed.

Lemma lift_Ok {A} (r : outcome A) w a w' : lift r w = (Ok a, w') -> r = Ok a /\ w' = w.
Proof. by intros [= -> ->]. Qed.

Lemma get_Ok {A} (f : tables -> A) w a w' : get f w = (Ok a, w') -> a = f (db w) /\ w' = w.
Proof. by intros [= <- <-]. Qed.

Lemma require_Ok b e w u w' : require b e w = (Ok u, w') -> b = true /\ w' = w.
Proof. destruct b; [by intros [= <- <-]|discriminate]. Qed.

Lemma mret_Ok {A} (a b : A) w w' : (mret a : M A) w = (Ok b, w') -> b = a /\ w' = w.
Proof. by intros [= <- <-]. Qed.

Lemma modify_Ok f w u w' : modify f w = (Ok u, w') -> w' = set_db (f (db w)) w.
Proof. by intros [= <-]. Qed.

Lemma newID_Ok prefix w id w' : newID prefix w = (Ok id, w') -> db w' = db w.
Proof. unfold newID. destruct (entropy w) as [|x l]; [discriminate|]. by intros [= _ <-]. Qed.

(** Run one call of a store program that succeeded. *)
Ltac mstep H :=
  let a := fresh "a" in let w1 := fresh "w" in let H1 := fresh "H" in
  apply run_bind_Ok in H as (a & w1 & H1 & H);
  lazymatch type of H1 with
  | lift _ _ = _ => apply lift_Ok in H1 as [H1 ->]
  | get _ _ = _ => apply get_Ok in H1 as [-> ->]
  | require _ _ _ = _ => apply require_Ok in H1 as [H1 ->]
  | mret _ _ = _ => apply mret_Ok in H1 as [-> ->]
  | modify _ _ = _ => apply modify_Ok in H1 as ->
  | _ => idtac
  end.

Lemma db_next_verdict w v w' : next_verdict w = (v, w') -> db w' = db w.
Proof. unfold next_verdict. destruct (verdicts w); by intros [= <- <-]. Qed.

(** A transaction either leaves the tables alone, or its body succeeded on them. *)
Lemma transaction_spec {A} (body : M A) w r w' : transaction body w = (r, w') ->
  (db w' = db w /\ exists e, r = Err e) \/
  exists v w1 a, next_verdict w = (v, w1) /\ v <> TxFail /\ body w1 = (Ok a, w') /\ (r = Ok a \/ r = Err ErrExternal).
Proof.
  unfold transaction. destruct (next_verdict w) as [v w1] eqn:E. pose proof (db_next_verdict _ _ _ E) as Hd.
  destruct v; [|intros [= <- <-]; left; eauto|]; destruct (body w1) as [[a|e] w2] eqn:Eb; intros [= <- <-]; cbn; eauto 10.
Qed.

Lemma query_db {A} (f : tables -> A) w r w' : query (get f) w = (r, w') -> db w' = db w /\ (forall a, r = Ok a -> a = f (db w)).
Proof.
  unfold query. destruct (next_verdict w) as [v w1] eqn:E. pose proof (db_next_verdict _ _ _ E) as Hd.
  destruct v; intros [= <- <-]; rewrite Hd; naive_solver.
Qed.

Section store_lemmas.
Context `{Digest} `{FloatText} `{Database}.

Lemma encode_map_Ok m w a w' : encode_map m w = (Ok a, w') -> jsonb m = Some a /\ w' = w.
Proof. unfold encode_map. destruct (jsonb m); [|discriminate]. intros [= <- <-]. auto. Qed.

Lemma putEvent_Ok e w row w' : putEvent e w = (Ok row, w') ->
  AlertEvent_Validate e = Ok tt /\
  exists labels evidence, jsonb (sanitizeDetails (Labels e)) = Some labels /\ jsonb (sanitizeDetails (Evidence e)) = Some evidence /\
    row = upsert_row (events (db w) !! event_key e) e labels evidence /\
    db w' = set_events (fun m => <[event_key e := row]> m) (db w).
Proof.
  unfold putEvent. intros H3. mstep H3. destruct a. apply run_bind_Ok in H3 as (labels & ? & [E1 ->]%encode_map_Ok & H3).
  apply run_bind_Ok in H3 as (evidence & ? & [E2 ->]%encode_map_Ok & H3). mstep H3. mstep H3. mstep H3. mstep H3.
  apply mret_Ok in H3 as [-> ->]. split; [done|]. exists labels, evidence. auto.
Qed.

Lemma insert_audit_Ok r w u w' : insert_audit r w = (Ok u, w') ->
  exists details, jsonb (Details r) = Some details /\ db w' = add_audit (stored_audit r details) (db w).
Proof.
  unfold insert_audit. intros H3. apply run_bind_Ok in H3 as (details & ? & [E1 ->]%encode_map_Ok & H3).
  mstep H3. mstep H3. apply modify_Ok in H3 as ->. eauto.
Qed.

Lemma appendAudit_Ok r w u w' : appendAudit r w = (Ok u, w') ->
  exists details, db w' = add_audit (stored_audit r details) (db w).
Proof.
  unfold appendAudit. intros H3. mstep H3. mstep H3. apply insert_audit_Ok in H3 as (details & _ & ->). by exists details.
Qed.

Lemma insertEventDisposition_Ok d w u w' : insertEventDisposition d w = (Ok u, w') -> db w' = add_disposition (stored_disposition d) (db w).
Proof. unfold insertEventDisposition. intros H3. do 4 (mstep H3). by apply modify_Ok in H3 as ->. Qed.

Lemma lifecycleAuditRecord_Ok e a w r w' : lifecycleAuditRecord e a w = (Ok r, w') ->
  db w' = db w /\
  match a with
  | Some r0 => r = with_target r0 (ID e)
  | None => Audit_Scope r = Event_Scope e /\ TargetID r = ID e /\ Audit_Action r = ("event." +:+ State e)%string
  end.
Proof.
  unfold lifecycleAuditRecord. destruct a as [r0|].
  - intros [-> ->]%mret_Ok. auto.
  - intros H3. apply run_bind_Ok in H3 as (id & w1 & Hid%newID_Ok & H3). apply mret_Ok in H3 as [-> ->]. auto.
Qed.

(** The audit record of a transition. *)
Definition records_state (a : AuditRecord) (e : AlertEvent) : Prop :=
  Audit_Scope a = Event_Scope e /\ TargetID a = ID e /\ Audit_Action a = ("event." +:+ State e)%string.

Lemma mutate_body_Ok e a d w row w' : mutate_body e a d w = (Ok row, w') ->
  (forall r, a = Some r -> validateLifecycleAudit e r = Ok tt) ->
  exists changed labels evidence new,
    validateStoredEventMutation (events (db w) !! event_key e) e = Ok changed /\ AlertEvent_Validate e = Ok tt /\
    jsonb (sanitizeDetails (Labels e)) = Some labels /\ jsonb (sanitizeDetails (Evidence e)) = Some evidence /\
    row = upsert_row (events (db w) !! event_key e) e labels evidence /\
    events (db w') = <[event_key e := row]> (events (db w)) /\ rules (db w') = rules (db w) /\
    audits (db w') = audits (db w) ++ new /\ if changed then exists r, new = [r] /\ records_state r row else new = [].
Proof.
  unfold mutate_body. intros H3 Ha. mstep H3. mstep H3. mstep H3.
  apply run_bind_Ok in H3 as (stored & w1 & Hp & H3). apply putEvent_Ok in Hp as (Hv & labels & evidence & E1 & E2 & -> & Hw1).
  apply run_bind_Ok in H3 as (u & w2 & Hau & H3). apply run_bind_Ok in H3 as (u' & w3 & Hd & H3). apply mret_Ok in H3 as [-> ->].
  assert (Hw3 : events (db w3) = events (db w2) /\ rules (db w3) = rules (db w2) /\ audits (db w3) = audits (db w2)).
  { destruct d as [d|]; [|by apply mret_Ok in Hd as [_ ->]]. mstep Hd. apply insertEventDisposition_Ok in Hd as ->. auto. }
  destruct Hw3 as (-> & -> & ->). destruct a0.
  - apply run_bind_Ok in Hau as (r & w4 & Hr & Hau). apply lifecycleAuditRecord_Ok in Hr as [Hw4 Hr].
    apply appendAudit_Ok in Hau as (details & ->). cbn [events rules audits add_audit]. rewrite Hw4, Hw1. cbn [events rules audits set_events].
    exists true, labels, evidence, [stored_audit r details]. split_and!; auto. exists (stored_audit r details). split; [done|].
    unfold records_state. cbn [stored_audit Audit_Scope TargetID Audit_Action]. destruct a as [r0|]; [|exact Hr]. subst r.
    specialize (Ha r0 eq_refl). unfold validateLifecycleAudit in Ha. case_hyp Ha. bool_simpl. cbn. auto.
  - apply mret_Ok in Hau as [_ ->]. rewrite Hw1. exists false, labels, evidence, []. rewrite app_nil_r. split_and!; auto.
Qed.
End store_lemmas.

(** *** Successful writes *)

Section writes.
Context `{FloatText} `{Database}.

Lemma run_bind_cases {A B} (m : M A) (f : A -> M B) w r w' : (m ≫= f) w = (r, w') ->
  (exists e, m w = (Err e, w') /\ r = Err e) \/ exists a w1, m w = (Ok a, w1) /\ f a w1 = (r, w').
Proof. unfold mbind, M_bind. destruct (m w) as [[a|e] w1]; [eauto|]. intros [= <- <-]. left. eauto. Qed.

(** A program that leaves the tables as they are. *)
Definition pure_step {A} (m : M A) : Prop := forall w, db (snd (m w)) = db w.

Lemma checked_audit_pure e r : pure_step (checked_audit e r).
Proof.
  intros w. unfold checked_audit, mbind, M_bind, lift. destruct (AlertEvent_Validate e); [|done].
  destruct (validateAuditDetailTypes r); [|done]. destruct (AuditRecord_Validate (sanitizeAuditRecord r)); [|done].
  by destruct (validateLifecycleAudit e (sanitizeAuditRecord r)).
Qed.

Lemma checked_audit_Ok e r w a w' : checked_audit e r w = (Ok a, w') -> validateLifecycleAudit e a = Ok tt.
Proof. unfold checked_audit. intros Hc. do 4 (mstep Hc). apply mret_Ok in Hc as [-> _]. by destruct a3. Qed.

(** The row an event is stored as, and the table afterwards. *)
Definition stored_as (e : AlertEvent) (row : AlertEvent) (t t' : tables) : Prop :=
  exists labels evidence, jsonb (sanitizeDetails (Labels e)) = Some labels /\ jsonb (sanitizeDetails (Evidence e)) = Some evidence /\
    row = upsert_row (events t !! event_key e) e labels evidence /\ events t' = <[event_key e := row]> (events t).

Lemma mutateEvent_Ok e a d w row w' : mutateEvent e a d w = (Ok row, w') ->
  (forall r, a = Some r -> validateLifecycleAudit e r = Ok tt) ->
  stored_as e row (db w) (db w') /\ exists changed, validateStoredEventMutation (events (db w) !! event_key e) e = Ok changed.
Proof.
  unfold mutateEvent. intros Hm Ha. mstep Hm. apply transaction_spec in Hm as [[_ (err & Herr)]|(v & w1 & x & Hn & _ & Hb & Hr)]; [discriminate|].
  destruct Hr as [[= <-]|Hr]; [|discriminate]. apply db_next_verdict in Hn.
  destruct (mutate_body_Ok _ _ _ _ _ _ Hb Ha) as (changed & labels & evidence & new & Hv & _ & E1 & E2 & Hrow & He & _).
  rewrite Hn in *. split; [|by exists changed]. exists labels, evidence. done.
Qed.

Lemma PutEvent_Ok e w row w' : PutEvent e w = (Ok row, w') -> stored_as e row (db w) (db w').
Proof. intros Hp. eapply mutateEvent_Ok; [exact Hp|]. intros r [=]. Qed.

Lemma PutEventAndAudit_Ok e r w row w' : PutEventAndAudit e r w = (Ok row, w') -> stored_as e row (db w) (db w').
Proof.
  unfold PutEventAndAudit. intros Hp. pose proof (checked_audit_pure e r w) as Hpure.
  apply run_bind_Ok in Hp as (a & w1 & Hc & Hp). rewrite Hc in Hpure. cbn in Hpure. rewrite <- Hpure.
  eapply mutateEvent_Ok; [exact Hp|]. intros x [= <-]. by eapply checked_audit_Ok.
Qed.
End writes.

(** ** The event table follows the lifecycle *)

(** Operations that write to the alert tables, by any caller. *)
Inductive store_op :=
| OpPutEvent (e : AlertEvent)
| OpPutEventAndAudit (e : AlertEvent) (r : AuditRecord)
| OpPutEventAndDisposition (e : AlertEvent) (r : AuditRecord) (d : EventDisposition)
| OpAppendAudit (r : AuditRecord)
| OpAppendEventDisposition (d : EventDisposition) (r : AuditRecord)
| OpClaimDueRules (scope : Scope) (at_ : time) (owner : string) (until : time) (limit : Z)
| OpCompleteRuleEvaluation (scope : Scope) (ruleID owner : string) (at_ next : time).

Definition as_unit {A} (m : M A) : M unit := _ ← m; mret tt.

Definition run_op `{FloatText} `{Database} (op : store_op) : M unit :=
  match op with
  | OpPutEvent e => as_unit (PutEvent e)
  | OpPutEventAndAudit e r => as_unit (PutEventAndAudit e r)
  | OpPutEventAndDisposition e r d => as_unit (PutEventAndDisposition e r d)
  | OpAppendAudit r => AppendAudit r
  | OpAppendEventDisposition d r => AppendEventDisposition d r
  | OpClaimDueRules scope at_ owner until limit => as_unit (ClaimDueRules scope at_ owner until limit)
  | OpCompleteRuleEvaluation scope ruleID owner at_ next => CompleteRuleEvaluation scope ruleID owner at_ next
  end.

(** Timestamps at least a microsecond after Go's zero time, so that rounding
    cannot turn one into the zero time. *)
Definition op_dated (op : store_op) : Prop :=
  match op with
  | OpPutEvent e | OpPutEventAndAudit e _ | OpPutEventAndDisposition e _ _ => microsecond <= instant (FirstSeen e)
  | _ => True
  end.

(** What one operation may do to a stored event. *)
Definition lifecycle_step (old new : AlertEvent) : Prop :=
  same_identity old new /\ FirstSeen new = FirstSeen old /\ instant (LastSeen old) <= instant (LastSeen new) /\
  (State new = State old \/ permittedTransition (State old) (State new) = true \/ (State old = EventResolved /\ State new = EventPending)).

Lemma lifecycle_step_refl e : lifecycle_step e e.
Proof. unfold lifecycle_step, same_identity. split_and!; auto; lia. Qed.

Section lifecycle.
Context `{Digest} `{FloatText} `{DatabaseLaws}.

Definition rounded (t : time) : Prop := instant (pg_time t) = instant t.

Record event_wf (k : Scope * string) (e : AlertEvent) : Prop := {
  ew_key : k = event_key e;
  ew_valid : AlertEvent_Validate e = Ok tt;
  ew_first : rounded (FirstSeen e);
  ew_last : rounded (LastSeen e);
}.
Definition events_wf (t : tables) : Prop := forall k e, events t !! k = Some e -> event_wf k e.

Lemma pg_time_eq a b : instant a = instant b -> instant (pg_time a) = instant (pg_time b).
Proof. intros Hab. apply Z.le_antisymm; apply pg_time_mono; lia. Qed.

Lemma nullable_zero t : (instant t = 0 \/ microsecond <= instant t) -> IsZero (nullable t) = IsZero t.
Proof.
  unfold nullable. intros Ht. destruct (IsZero t) eqn:E; [done|]. unfold IsZero in *. bool_simpl. apply Z.eqb_neq.
  pose proof (pg_time_near t). unfold microsecond in Ht. lia.
Qed.

Lemma nullable_mono a b : instant a <> 0 -> instant b <> 0 -> instant a <= instant b -> instant (nullable a) <= instant (nullable b).
Proof.
  intros Ha Hb Hab. unfold nullable, IsZero. rewrite !(proj2 (Z.eqb_neq _ _)) by done. by apply pg_time_mono.
Qed.

(** The instants of a valid, dated event: zero, or at least a microsecond. *)
Lemma dated_timestamp e t : AlertEvent_Validate e = Ok tt -> microsecond <= instant (FirstSeen e) ->
  t ∈ [FiringAt e; AcknowledgedAt e; ResolvedAt e] -> instant t = 0 \/ (instant (FirstSeen e) <= instant t <= instant (LastSeen e)).
Proof.
  intros (_ & _ & _ & _ & _ & _ & _ & Ht & _)%AlertEvent_Validate_Ok Hd Hin. specialize (Ht t Hin).
  destruct (Z.eq_dec (instant t) 0); [by left|right]. by eapply timestamp_bounds.
Qed.

Lemma nullable_timestamp e t f l : AlertEvent_Validate e = Ok tt -> microsecond <= instant (FirstSeen e) ->
  t ∈ [FiringAt e; AcknowledgedAt e; ResolvedAt e] ->
  instant f = instant (pg_time (FirstSeen e)) -> instant l = instant (pg_time (LastSeen e)) ->
  validEventTimestamp (nullable t) f l = true.
Proof.
  intros Hv Hd Hin Hf Hl. unfold validEventTimestamp. apply orb_true_iff.
  destruct (dated_timestamp _ _ Hv Hd Hin) as [Hz|[H1' H2']].
  - left. rewrite nullable_zero by auto. by apply Z.eqb_eq.
  - right. unfold Before, After, nullable, IsZero. unfold microsecond in Hd. rewrite (proj2 (Z.eqb_neq _ _)) by lia.
    apply pg_time_mono in H1', H2'. apply andb_true_iff. split; apply negb_true_iff, Z.ltb_ge; lia.
Qed.

Lemma state_timestamps_stored e row : AlertEvent_Validate e = Ok tt -> microsecond <= instant (FirstSeen e) ->
  State row = State e -> FiringAt row = nullable (FiringAt e) -> AcknowledgedAt row = nullable (AcknowledgedAt e) ->
  ResolvedAt row = nullable (ResolvedAt e) -> state_timestamps row = true.
Proof.
  intros Hv Hd Hs Hf Ha Hr. unfold microsecond in Hd.
  assert (Hz : forall t, t ∈ [FiringAt e; AcknowledgedAt e; ResolvedAt e] -> IsZero (nullable t) = IsZero t).
  { intros t Ht. apply nullable_zero. unfold microsecond. destruct (dated_timestamp _ _ Hv Hd Ht); [by left|right; lia]. }
  pose proof (Hz (FiringAt e) ltac:(set_solver)) as Zf. pose proof (Hz (AcknowledgedAt e) ltac:(set_solver)) as Za.
  pose proof (Hz (ResolvedAt e) ltac:(set_solver)) as Zr. clear Hz.
  apply AlertEvent_Validate_Ok in Hv as (_ & _ & _ & _ & _ & _ & _ & _ & Hst).
  unfold state_timestamps, in_state in *. rewrite Hs, Hf, Ha, Hr, Zf, Za, Zr. clear Hs Hf Ha Hr Zf Za Zr.
  assert (Hm : forall a b, instant a <> 0 -> instant b <> 0 -> Before a b = false -> Before (nullable a) (nullable b) = false).
  { intros a b Hna Hnb Hab. unfold Before in *. bool_simpl. apply Z.ltb_ge. by apply nullable_mono. }
  repeat case_goal; try done; unfold IsZero in *;
    destruct (Z.eqb_spec (instant (FiringAt e)) 0), (Z.eqb_spec (instant (AcknowledgedAt e)) 0), (Z.eqb_spec (instant (ResolvedAt e)) 0);
    cbn [negb andb orb] in Hst |- *; try done; bool_simpl; rewrite ?Hm by assumption; done.
Qed.

(** What an accepted mutation says about the previous row. *)
Lemma mutation_step p e changed : validateStoredEventMutation (Some p) e = Ok changed ->
  ID p = ID e /\ Event_Scope p = Event_Scope e /\ RuleID p = RuleID e /\ Fingerprint p = Fingerprint e /\
  instant (FirstSeen p) = instant (FirstSeen e) /\ instant (LastSeen p) <= instant (LastSeen e) /\
  (State e = State p \/ permittedTransition (State p) (State e) = true \/ (State p = EventResolved /\ State e = EventPending)) /\
  (changed = false -> State e = State p).
Proof.
  unfold validateStoredEventMutation, TimeEqual, Before. intros Hm. case_hyp Hm. case_hyp Hm. bool_simpl.
  split_and!; try done.
  - case_hyp Hm; bool_simpl; [by left|]. right. case_hyp Hm.
    + right. unfold in_state in *. bool_simpl. done.
    + left. destruct (Transition p (State e) (LastSeen e) (LastActor e)) as [x|] eqn:Et; [|discriminate].
      apply Transition_Ok in Et as (_ & _ & Hp & _). exact Hp.
  - intros ->. case_hyp Hm; bool_simpl; [done|]. repeat case_hyp Hm.
Qed.

Lemma stored_row_wf old e changed labels evidence :
  (forall p, old = Some p -> event_wf (event_key e) p) -> validateStoredEventMutation old e = Ok changed ->
  AlertEvent_Validate e = Ok tt -> microsecond <= instant (FirstSeen e) ->
  event_wf (event_key e) (upsert_row old e labels evidence).
Proof.
  intros Hold Hm Hv Hd. pose proof Hv as (Hs & Hr & Hf & Ha & _ & _ & Hle & _)%AlertEvent_Validate_Ok.
  assert (Hfirst : instant (FirstSeen (upsert_row old e labels evidence)) = instant (pg_time (FirstSeen e))
                   /\ rounded (FirstSeen (upsert_row old e labels evidence)) /\ RuleID (upsert_row old e labels evidence) = RuleID e).
  { destruct old as [p|]; cbn [upsert_row FirstSeen RuleID].
    - destruct (mutation_step _ _ _ Hm) as (_ & _ & -> & _ & Heq & _). destruct (Hold p eq_refl) as [_ _ Hrp _]. unfold rounded in *.
      split_and!; [|done|done]. rewrite <- Hrp. by apply pg_time_eq.
    - split_and!; [done|apply pg_time_idem|done]. }
  destruct Hfirst as (Hfirst & Hround & Hrule). split; [reflexivity| |exact Hround|apply pg_time_idem].
  pose proof (pg_time_near (FirstSeen e)) as N1. apply pg_time_mono in Hle. unfold microsecond in Hd.
  apply AlertEvent_Validate_Ok. rewrite Hrule, Hfirst. cbn [upsert_row Event_Scope Fingerprint State LastSeen FiringAt AcknowledgedAt ResolvedAt].
  split_and!; try done; try lia.
  - intros t Ht. set_unfold in Ht. destruct Ht as [->|[->|[->|[]]]]; eapply nullable_timestamp; try done; set_solver.
  - by eapply state_timestamps_stored.
Qed.

Lemma stored_row_step p e changed labels evidence :
  event_wf (event_key e) p -> validateStoredEventMutation (Some p) e = Ok changed ->
  lifecycle_step p (upsert_row (Some p) e labels evidence).
Proof.
  intros [_ _ _ Hl] Hm. destruct (mutation_step _ _ _ Hm) as (_ & H1' & _ & H2' & _ & Hle & Hst & _).
  unfold lifecycle_step, same_identity. cbn [upsert_row ID Event_Scope RuleID Fingerprint FirstSeen LastSeen State].
  split_and!; try done. unfold rounded in Hl. rewrite <- Hl. by apply pg_time_mono.
Qed.

(** The effect of one operation on the tables. *)
Definition table_step (t t' : tables) : Prop :=
  (forall k e, events t !! k = Some e -> exists e', events t' !! k = Some e' /\ lifecycle_step e e') /\
  exists new, audits t' = audits t ++ new /\
    forall k e', events t' !! k = Some e' -> State <$> events t !! k <> Some (State e') -> exists a, a ∈ new /\ records_state a e'.

Lemma table_step_same t t' : events t' = events t -> (exists new, audits t' = audits t ++ new) -> table_step t t'.
Proof.
  intros He [new Ha]. split.
  - intros k e Hk. exists e. rewrite He. split; [done|apply lifecycle_step_refl].
  - exists new. split; [done|]. intros k e' Hk Hs. rewrite <- He, Hk in Hs. done.
Qed.

Lemma mutateEvent_step e a d w r w' : events_wf (db w) -> microsecond <= instant (FirstSeen e) ->
  (forall r, a = Some r -> validateLifecycleAudit e r = Ok tt) ->
  mutateEvent e a d w = (r, w') -> events_wf (db w') /\ table_step (db w) (db w').
Proof.
  intros Hwf Hd Ha. unfold mutateEvent, mbind, M_bind, lift. destruct (AlertEvent_Validate e) as [[]|err] eqn:Ev.
  2:{ intros [= <- <-]. split; [done|]. apply table_step_same; [done|]. exists []. by rewrite app_nil_r. }
  intros Ht. apply transaction_spec in Ht as [[Hsame _]|(v & w1 & row & Hn & _ & Hb & _)].
  { rewrite Hsame. split; [done|]. apply table_step_same; [done|]. exists []. by rewrite app_nil_r. }
  apply db_next_verdict in Hn. destruct (mutate_body_Ok _ _ _ _ _ _ Hb Ha) as (changed & labels & evidence & new & Hm & _ & _ & _ & -> & He & _ & Hau & Hnew).
  rewrite Hn in *. set (old := events (db w) !! event_key e) in *.
  assert (Hold : forall p, old = Some p -> event_wf (event_key e) p) by (intros p; apply Hwf).
  split.
  - intros k x. rewrite He, lookup_insert_Some. intros [[<- <-]|[_ Hk]]; [|by apply Hwf]. by eapply stored_row_wf.
  - split.
    + intros k x Hk. rewrite He. destruct (decide (k = event_key e)) as [->|Hne].
      * rewrite lookup_insert_eq. eexists. split; [done|]. fold old in Hk. rewrite Hk in *. eapply stored_row_step; eauto.
      * rewrite lookup_insert_ne by done. exists x. split; [done|apply lifecycle_step_refl].
    + exists new. split; [done|]. intros k x. rewrite He, lookup_insert_Some. intros [[<- <-]|[_ Hk]] Hs; [|by rewrite Hk in Hs].
      fold old in Hs. destruct changed; [destruct Hnew as (r0 & -> & Hr0); exists r0; split; [by left|done]|].
      destruct old as [p|] eqn:Eo; [|exfalso; revert Hm; unfold validateStoredEventMutation; repeat case_goal; done].
      destruct (mutation_step _ _ _ Hm) as (_ & _ & _ & _ & _ & _ & _ & Hst). cbn in Hs. by rewrite Hst in Hs.
Qed.

Lemma audited_mutation e r d w res w' : events_wf (db w) -> microsecond <= instant (FirstSeen e) ->
  (record ← checked_audit e r; mutateEvent e (Some record) d) w = (res, w') -> events_wf (db w') /\ table_step (db w) (db w').
Proof.
  intros Hwf Hd Hb. pose proof (checked_audit_pure e r w) as Hp. apply run_bind_cases in Hb as [(err & E & _)|(a & w1 & E & Hb)]; rewrite E in Hp; cbn in Hp.
  - rewrite Hp. split; [done|]. apply table_step_same; [done|]. exists []. by rewrite app_nil_r.
  - rewrite <- Hp in Hwf |- *. eapply mutateEvent_step; try done. intros x [= <-]. by eapply checked_audit_Ok.
Qed.

Lemma as_unit_spec {A} (m : M A) w r w' : as_unit m w = (r, w') -> exists r', m w = (r', w').
Proof. intros [(e & E & _)|(a & w1 & E & Hr)]%run_bind_cases; [eauto|]. injection Hr as _ <-. eauto. Qed.

(** A transaction whose body keeps the events and only adds audit records. *)
Lemma quiet_transaction {A} (body : M A) w r w' :
  (forall w1 a w2, body w1 = (Ok a, w2) -> events (db w2) = events (db w1) /\ exists new, audits (db w2) = audits (db w1) ++ new) ->
  events_wf (db w) -> transaction body w = (r, w') -> events_wf (db w') /\ table_step (db w) (db w').
Proof.
  intros Hb Hwf Ht. assert (Hx : events (db w') = events (db w) /\ exists new, audits (db w') = audits (db w) ++ new).
  { apply transaction_spec in Ht as [[-> _]|(v & w1 & a & Hn%db_next_verdict & _ & Hbody & _)].
    - split; [done|]. exists []. by rewrite app_nil_r.
    - rewrite <- Hn. by eapply Hb. }
  destruct Hx as [He Ha]. split; [|by apply table_step_same]. intros k e. rewrite He. apply Hwf.
Qed.

Lemma quiet_result {A} (r r' : outcome A) w w' : events_wf (db w) -> (r, w) = (r', w') -> events_wf (db w') /\ table_step (db w) (db w').
Proof. intros Hwf [= _ <-]. split; [done|]. apply table_step_same; [done|]. exists []. by rewrite app_nil_r. Qed.

Lemma run_op_step op w r w' : events_wf (db w) -> op_dated op -> run_op op w = (r, w') -> events_wf (db w') /\ table_step (db w) (db w').
Proof.
  intros Hwf Hd. destruct op as [e|e a|e a d|a|d a|scope at_ owner until limit|scope ruleID owner at_ next]; cbn [run_op op_dated] in *.
  - intros [r' Hr]%as_unit_spec. eapply mutateEvent_step; try done. intros x [=].
  - intros [r' Hr]%as_unit_spec. by eapply audited_mutation.
  - intros [r' Hr]%as_unit_spec. unfold PutEventAndDisposition in Hr. case_hyp Hr; [by eapply quiet_result|]. cbv zeta in Hr.
    destruct (negb (bool_decide (Disp_Kind d = _))); [by eapply quiet_result|]. by eapply audited_mutation.
  - unfold AppendAudit. cbv zeta. unfold mbind at 1, M_bind at 1, lift at 1. destruct (validateAuditDetailTypes a); [|by eapply quiet_result].
    unfold mbind, M_bind, lift. destruct (AuditRecord_Validate (sanitizeAuditRecord a)); [|by eapply quiet_result].
    apply quiet_transaction; [|done]. intros w1 x w2 (details & _ & ->)%insert_audit_Ok. cbn. eauto.
  - unfold AppendEventDisposition. destruct (_ || _ || _ || _ || _ || _ || _); [by eapply quiet_result|]. cbv zeta.
    unfold mbind at 1, M_bind at 1, lift at 1. destruct (validateAuditDetailTypes a); [|by eapply quiet_result].
    unfold mbind at 1, M_bind at 1, lift at 1. destruct (AuditRecord_Validate (sanitizeAuditRecord a)); [|by eapply quiet_result].
    apply quiet_transaction; [|done]. intros w1 x w2 Hb. mstep Hb. mstep Hb. apply run_bind_Ok in Hb as (u & w3 & Hau & Hb).
    apply appendAudit_Ok in Hau as (details & E). apply insertEventDisposition_Ok in Hb as ->. rewrite E. cbn. eauto.
  - intros [r' Hr]%as_unit_spec. revert Hr. unfold ClaimDueRules. destruct (_ || _ || _ || _ || _); [by apply quiet_result|]. cbv zeta.
    apply quiet_transaction; [|done]. intros w1 x w2 Hb. mstep Hb. mstep Hb. apply mret_Ok in Hb as [-> ->]. cbn. split; [done|].
    exists []. by rewrite app_nil_r.
  - unfold CompleteRuleEvaluation. destruct (_ || _ || _ || _ || _); [by eapply quiet_result|].
    apply quiet_transaction; [|done]. intros w1 x w2 Hb. mstep Hb. destruct (rules (db w1) !! (scope, ruleID)) as [row|]; [|discriminate].
    destruct (bool_decide _); [|discriminate]. apply modify_Ok in Hb as ->. cbn. split; [done|]. exists []. by rewrite app_nil_r.
Qed.

(** Tables reachable from an empty event table. *)
Inductive reachable : tables -> Prop :=
| reachable_init t : events t = ∅ -> reachable t
| reachable_step w op r w' : reachable (db w) -> op_dated op -> run_op op w = (r, w') -> reachable (db w').

Lemma reachable_wf t : reachable t -> events_wf t.
Proof.
  induction 1 as [t He|w op r w' _ IH Hd Hr]; [intros k e; by rewrite He, lookup_empty|]. eapply run_op_step; eauto.
Qed.
End lifecycle.

(** C33: the event table follows the alert lifecycle.  Whatever events, audit
    records and dispositions callers write, in whatever order and whatever the
    database answers, every stored event is valid and filed under its own scope
    and fingerprint; one operation keeps each event's identity and first-seen
    time, never moves its last update back, and changes its state only along a
    permitted transition or from resolved back to pending; the audit log is
    only appended to, and every event that was created or changed state has an
    audit record of exactly that state appended with it. *)
Theorem stored_events_follow_the_lifecycle `{FloatText} `{DatabaseLaws} w op r w' :
  reachable (db w) -> op_dated op -> run_op op w = (r, w') ->
  (forall k e, events (db w') !! k = Some e -> k = (Event_Scope e, Fingerprint e) /\ AlertEvent_Validate e = Ok tt) /\
  (forall k e, events (db w) !! k = Some e -> exists e', events (db w') !! k = Some e' /\ lifecycle_step e e') /\
  exists new, audits (db w') = audits (db w) ++ new /\
    forall k e', events (db w') !! k = Some e' -> State <$> events (db w) !! k <> Some (State e') -> exists a, a ∈ new /\ records_state a e'.
Proof.
  intros Hwf%reachable_wf Hd Hr. destruct (run_op_step _ _ _ _ Hwf Hd Hr) as [Hwf' [H1' H2']]. split_and!; [|done|done].
  intros k e Hk. destruct (Hwf' k e Hk) as [-> Hv _ _]. done.
Qed.

Module StoreDemo.

#[local] Ltac Zify.zify_post_hook ::= Z.to_euclidean_division_equations.

(** A database that rounds to the nearest microsecond and orders identifiers by bytes. *)
#[export] Instance demo_database : Database := {
  pg_time t := Time ((instant t + 500) / 1000 * 1000) false;
  jsonb m := Some m;
  collate := string_leb;
}.

#[export] Instance demo_database_laws : DatabaseLaws.
Proof. split; cbn; [intros; lia..|naive_solver]. Qed.

(** Float text is not used in these examples. *)
#[export] Instance no_float_text : FloatText := { FormatFloat _ := EmptyString; ParseFloat _ := None }.

Definition event : AlertEvent := ModelDemo.event.
Definition audit : AuditRecord :=
  {| Audit_ID := "audit-1"; Audit_Scope := ModelDemo.scope; Audit_Actor := "system:evaluator"; Audit_Action := "event.pending";
     TargetID := "event-1"; OccurredAt := ModelDemo.at_second 20; Details := {[ "state"%string := "pending"%string ]} |}.
Definition rule : AlertRule :=
  {| Rule_ID := "rule-1"; Rule_Scope := ModelDemo.scope; Rule_Name := "connections"; Metric := "db_connections"; Aggregation := "max"; Operator := ">";
     Threshold := f_of_Z 100; EvaluationEvery := 30 * second; LookbackWindow := 0; For := minute; MissingData := "ignore"; Severity := "warning";
     NotificationPolicyIDs := ["policy-1"%string]; Rule_Labels := ∅; Rule_Enabled := true; Rule_CreatedAt := ModelDemo.at_second 1; Rule_UpdatedAt := ModelDemo.at_second 1 |}.
Definition rule_row : ruleRow :=
  {| row_rule := rule; next_evaluation_at := ModelDemo.at_second 1; last_evaluated_at := None; evaluation_lease_owner := EmptyString; evaluation_lease_expires_at := None |}.
Definition rule_table : gmap (Scope * string) ruleRow := {[ (ModelDemo.scope, "rule-1"%string) := rule_row ]}.
Definition empty_world : world := World (Tables ∅ rule_table [] [] ∅ ∅ [] ∅) [] [] [] [].

Lemma stored_events_follow_the_lifecycle_witness :
  exists w' e', run_op (OpPutEventAndAudit event audit) empty_world = (Ok tt, w') /\
    events (db w') !! (ModelDemo.scope, "f1"%string) = Some e' /\ AlertEvent_Validate e' = Ok tt.
Proof.
  eexists _, _. split; [vm_compute; reflexivity|]. split; [vm_compute; reflexivity|].
  refine (proj2 (proj1 (stored_events_follow_the_lifecycle empty_world
    (OpPutEventAndAudit event audit) (Ok tt) _ _ _ _) (ModelDemo.scope, "f1"%string) _ _)).
  - apply reachable_init. reflexivity.
  - vm_compute. discriminate.
  - vm_compute. reflexivity.
  - vm_compute. reflexivity.
Defined.

End StoreDemo.
