(* ===== verification/AlertEvaluator.v ===== *)
(** * The alert rule evaluator

    [alert/evaluator.go] on top of the store: aggregation of samples, the
    decision each evaluation takes for an alert event, system findings, the
    evaluation of a rule and of a scope.  The metric store and the iteration
    order of Go maps are parameters.

    Main results: one evaluation of a series implements a four-state abstract
    alert machine, and an alert fires only after its condition held for the
    rule's hold time. *)

From S2P Require Import Prelude GoText AlertModel AlertStore.

Open Scope Z_scope.

Definition systemFindingLabelKey : string := "dbpilot_system_finding".
Definition systemFindingFailure : string := "failure".
Definition systemFindingNoData : string := "no_data".
Definition systemFindingDelay : string := "delay".
Definition systemFindingBacklog : string := "backlog".
Definition ruleEvaluationLease : Z := 5 * minute.
Definition evaluator_actor : string := "system:evaluator".

Record EvaluationEvidence := {
  WindowStart : time; WindowEnd : time; Samples : Z; Aggregate : option float64; Missing : bool;
  Rate : option float64; MissingDimensions : list string;
}.

(** ** Aggregation *)

Definition sum_samples (samples : list MetricSample) : float64 := foldl (fun total s => fadd total (Sample_Value s)) fzero samples.

Definition extreme (better : float64 -> float64 -> bool) (first : MetricSample) (rest : list MetricSample) : float64 :=
  foldl (fun value s => if better (Sample_Value s) value then Sample_Value s else value) (Sample_Value first) rest.

Definition aggregate (kind : string) (samples : list MetricSample) : outcome float64 :=
  match samples with
  | [] => Err ErrUnsupportedAggregation
  | first :: rest =>
      if bool_decide (kind = "count"%string) then Ok (f_of_Z (Z.of_nat (length samples)))
      else if bool_decide (kind = "avg"%string) then Ok (fdiv (sum_samples samples) (f_of_Z (Z.of_nat (length samples))))
      else if bool_decide (kind = "sum"%string) then Ok (sum_samples samples)
      else if bool_decide (kind = "max"%string) then Ok (extreme (fun s v => flt v s) first rest)
      else if bool_decide (kind = "min"%string) then Ok (extreme (fun s v => flt s v) first rest)
      else Err ErrUnsupportedAggregation
  end.

(** [sort.SliceStable] by sample time: an insertion sort that keeps the order of equal times. *)
Fixpoint insert_sample (x : MetricSample) (l : list MetricSample) : list MetricSample :=
  match l with
  | [] => [x]
  | y :: rest => if Before (SampledAt y) (SampledAt x) then y :: insert_sample x rest else x :: l
  end.
Definition sort_samples (l : list MetricSample) : list MetricSample := foldr insert_sample [] l.

Definition rate (samples : list MetricSample) : outcome float64 :=
  if (length samples <? 2)%nat then Err ErrInvalidRateWindow
  else match head (sort_samples samples), last (sort_samples samples) with
  | Some first, Some final =>
      let elapsed := Seconds (SubTime (SampledAt final) (SampledAt first)) in
      if fle elapsed fzero then Err ErrInvalidRateWindow
      else Ok (fdiv (fsub (Sample_Value final) (Sample_Value first)) elapsed)
  | _, _ => Err ErrInvalidRateWindow
  end.

Definition compare (value threshold : float64) (operator : string) : bool :=
  if bool_decide (operator = ">"%string) then flt threshold value
  else if bool_decide (operator = ">="%string) then fle threshold value
  else if bool_decide (operator = "<"%string) then flt value threshold
  else if bool_decide (operator = "<="%string) then fle value threshold
  else if bool_decide (operator = "=="%string) then feq value threshold
  else if bool_decide (operator = "!="%string) then negb (feq value threshold)
  else false.

(** ** Labels and samples *)

Definition canonicalResourceLabels (sample : MetricSample) : labels_map :=
  <["agent_id"%string := AgentID sample]> (sanitizeDetails (Sample_Labels sample)).

Definition canonicalRuleSelector (selector : labels_map) : labels_map := sanitizeDetails selector.

Definition storageMetricSelector (selector : labels_map) : labels_map :=
  filter (fun kv => fst kv <> "agent_id"%string /\ sensitiveField (fst kv) = false) selector.

Definition in_window (scope : Scope) (metric : string) (from to : time) (sample : MetricSample) : bool :=
  negb (negb (bool_decide (Sample_Scope sample = scope)) || negb (bool_decide (Sample_Name sample = metric))
        || Before (SampledAt sample) from || After (SampledAt sample) to).

Definition filterEvaluationSamples (samples : list MetricSample) (scope : Scope) (metric : string) (selector : labels_map) (from to : time)
  : list MetricSample * list string :=
  let inside := filter (fun s => in_window scope metric from to s = true) samples in
  let kept := filter (fun s => negb (negb (is_ok (validateMetricSample s)) || negb (labelsMatch (canonicalResourceLabels s) selector)) = true) inside in
  let missing := filter (fun dimension => existsb (fun s => one_of (MissingResourceDimensions (Sample_Labels s)) dimension) inside = true) canonicalResourceDimensions in
  (kept, missing).

(** Samples grouped by the fingerprint of their resource labels; the labels of
    the first sample of a group stand for the group. *)
Notation sample_group := (string * (labels_map * list MetricSample))%type.

Fixpoint add_to_group (key : string) (labels : labels_map) (s : MetricSample) (groups : list sample_group) : list sample_group :=
  match groups with
  | [] => [(key, (labels, [s]))]
  | (k, (l, series)) :: rest => if bool_decide (k = key) then (k, (l, series ++ [s])) :: rest else (k, (l, series)) :: add_to_group key labels s rest
  end.

Definition systemFindingLabels (kind : string) : labels_map :=
  list_to_map [(systemFindingLabelKey, kind); ("instance", "controlplane"); ("component", "evaluator"); ("role", "system"); ("host", "controlplane")]%string.

Definition EventFilter_page (offset : Z) : EventFilter := {| States := []; Limit := 500; Offset := offset; AfterID := EmptyString; OrderByID := false |}.
Definition EventFilter_after (cursor : string) : EventFilter := {| States := []; Limit := 500; Offset := 0; AfterID := cursor; OrderByID := true |}.

(** Record updates of an event. *)
Definition with_evidence (e : AlertEvent) (labels evidence : labels_map) : AlertEvent :=
  {| ID := ID e; Event_Scope := Event_Scope e; RuleID := RuleID e; Fingerprint := Fingerprint e; Labels := labels; Evidence := evidence; State := State e;
     FirstSeen := FirstSeen e; LastSeen := LastSeen e; FiringAt := FiringAt e; AcknowledgedAt := AcknowledgedAt e; ResolvedAt := ResolvedAt e; LastActor := LastActor e |}.

Definition touched (e : AlertEvent) (now : time) (actor : string) : AlertEvent :=
  {| ID := ID e; Event_Scope := Event_Scope e; RuleID := RuleID e; Fingerprint := Fingerprint e; Labels := Labels e; Evidence := Evidence e; State := State e;
     FirstSeen := FirstSeen e; LastSeen := now; FiringAt := FiringAt e; AcknowledgedAt := AcknowledgedAt e; ResolvedAt := ResolvedAt e; LastActor := actor |}.

(** A resolved event taken up again: pending, with the state times cleared. *)
Definition reopened (e : AlertEvent) (now : time) : AlertEvent :=
  {| ID := ID e; Event_Scope := Event_Scope e; RuleID := RuleID e; Fingerprint := Fingerprint e; Labels := Labels e; Evidence := Evidence e; State := EventPending;
     FirstSeen := FirstSeen e; LastSeen := now; FiringAt := zero_time; AcknowledgedAt := zero_time; ResolvedAt := zero_time; LastActor := evaluator_actor |}.

Definition new_event (id : string) (rule : AlertRule) (fingerprint : string) (labels evidence : labels_map) (now : time) : AlertEvent :=
  {| ID := id; Event_Scope := Rule_Scope rule; RuleID := Rule_ID rule; Fingerprint := fingerprint; Labels := labels; Evidence := evidence; State := EventPending;
     FirstSeen := now; LastSeen := now; FiringAt := zero_time; AcknowledgedAt := zero_time; ResolvedAt := zero_time; LastActor := evaluator_actor |}.

Section evaluator.
Context `{Digest} `{FloatText} `{Database}.

Definition asMap (evidence : EvaluationEvidence) : labels_map :=
  let values : labels_map := list_to_map
    [("window_start"%string, FormatRFC3339Nano (UTC (WindowStart evidence))); ("window_end"%string, FormatRFC3339Nano (UTC (WindowEnd evidence)));
     ("samples"%string, Itoa (Samples evidence)); ("missing"%string, FormatBool (Missing evidence))] in
  let values := match Aggregate evidence with Some f => <["aggregate"%string := FormatFloat f]> values | None => values end in
  let values := match Rate evidence with Some f => <["rate"%string := FormatFloat f]> values | None => values end in
  match MissingDimensions evidence with [] => values | l => <["missing_dimensions"%string := join_comma l]> values end.

Definition stamp_since (evidence : labels_map) (since : time) : labels_map :=
  <[conditionSinceEvidenceKey := FormatRFC3339Nano (UTC since)]> evidence.

Definition writeTransition (event : AlertEvent) (action : string) (now : time) : M bool :=
  let details := <["state"%string := State event]> (Evidence event) in
  auditID ← newID "audit";
  _ ← PutEventAndAudit event
        {| Audit_ID := auditID; Audit_Scope := Event_Scope event; Audit_Actor := evaluator_actor; Audit_Action := action;
           TargetID := ID event; OccurredAt := now; Details := details |};
  mret true.

(** Since when the condition holds: what the evidence says, unless it is
    missing, unreadable or in the future. *)
Definition condition_since (event : AlertEvent) (now : time) : time :=
  let encoded := label (Evidence event) conditionSinceEvidenceKey in
  if empty_string encoded then FirstSeen event
  else match ParseRFC3339 encoded with
       | Some parsed => if negb (After parsed now) then parsed else FirstSeen event
       | None => FirstSeen event
       end.

Definition applyResult (rule : AlertRule) (fingerprint : string) (labels : labels_map) (evidence : EvaluationEvidence)
    (condition createResolved : bool) (now : time) : M bool :=
  found ← FindEventByFingerprint (Rule_Scope rule) fingerprint;
  let evidenceMap := asMap evidence in
  let sanitizedLabels := sanitizeDetails labels in
  match found with
  | None =>
      if negb condition && negb createResolved then mret false
      else
        eventID ← newID "event";
        if createResolved then
          let event := new_event eventID rule fingerprint sanitizedLabels evidenceMap now in
          let event := {| ID := ID event; Event_Scope := Event_Scope event; RuleID := RuleID event; Fingerprint := Fingerprint event; Labels := Labels event;
                          Evidence := Evidence event; State := EventResolved; FirstSeen := now; LastSeen := now; FiringAt := zero_time;
                          AcknowledgedAt := zero_time; ResolvedAt := now; LastActor := evaluator_actor |} in
          writeTransition event "event.resolved" now
        else writeTransition (new_event eventID rule fingerprint sanitizedLabels (stamp_since evidenceMap now) now) "event.pending" now
  | Some event =>
      if condition then
        if in_state event EventResolved then
          writeTransition (with_evidence (reopened event now) sanitizedLabels (stamp_since evidenceMap now)) "event.pending" now
        else if in_state event EventPending then
          let since := condition_since event now in
          let evidenceMap := stamp_since evidenceMap since in
          if For rule <=? SubTime now since then
            event' ← lift (Transition event EventFiring now evaluator_actor);
            writeTransition (with_evidence event' sanitizedLabels evidenceMap) "event.firing" now
          else
            _ ← PutEvent (with_evidence (touched event now evaluator_actor) sanitizedLabels evidenceMap);
            mret true
        else if in_state event EventFiring || in_state event EventAcknowledged then
          let encoded := label (Evidence event) conditionSinceEvidenceKey in
          let evidenceMap := if empty_string encoded then evidenceMap else <[conditionSinceEvidenceKey := encoded]> evidenceMap in
          _ ← PutEvent (with_evidence (touched event now evaluator_actor) sanitizedLabels evidenceMap);
          mret true
        else throw ErrInvalidEvent
      else if in_state event EventResolved then mret false
      else
        event' ← lift (Transition event EventResolved now evaluator_actor);
        writeTransition (with_evidence event' sanitizedLabels evidenceMap) "event.resolved" now
  end.

Definition applyMissing (rule : AlertRule) (fingerprint : string) (labels : labels_map) (evidence : EvaluationEvidence) (now : time) : M bool :=
  if bool_decide (MissingData rule = "ignore"%string) then mret false
  else if bool_decide (MissingData rule = "alert"%string) then applyResult rule fingerprint labels evidence true false now
  else if bool_decide (MissingData rule = "resolve"%string) then applyResult rule fingerprint labels evidence false true now
  else throw ErrInvalidRule.

(** ** System findings *)

Definition finding_evidence (failureKind : string) : labels_map := {[ "failure_kind"%string := failureKind ]}.

(** The second half of [reconcileSystemFinding]: from pending to firing. *)
Definition fire_finding (event : AlertEvent) (labels : labels_map) (failureKind : string) (now : time) : M unit :=
  event' ← lift (Transition event EventFiring now evaluator_actor);
  _ ← writeTransition (with_evidence event' labels (finding_evidence failureKind)) "event.firing" now;
  mret tt.

Definition reconcileSystemFinding (rule : AlertRule) (kind failureKind : string) (active : bool) (now : time) : M unit :=
  let now := Truncate (UTC now) microsecond in
  let labels := systemFindingLabels kind in
  let fingerprint := EventFingerprint (Rule_Scope rule) (Rule_ID rule) labels in
  found ← FindEventByFingerprint (Rule_Scope rule) fingerprint;
  if negb active then
    match found with
    | None => mret tt
    | Some event =>
        if in_state event EventResolved then mret tt
        else
          event' ← lift (Transition event EventResolved now evaluator_actor);
          _ ← writeTransition (with_evidence event' (Labels event') (finding_evidence failureKind)) "event.resolved" now;
          mret tt
    end
  else
    match found with
    | None =>
        eventID ← newID "event";
        _ ← writeTransition (new_event eventID rule fingerprint labels (finding_evidence failureKind) now) "event.pending" now;
        found ← FindEventByFingerprint (Rule_Scope rule) fingerprint;
        match found with
        | None => throw ErrInvalidEvent
        | Some event => fire_finding event labels failureKind now
        end
    | Some event =>
        if in_state event EventResolved then
          let event := with_evidence (reopened event now) labels (finding_evidence failureKind) in
          _ ← writeTransition event "event.pending" now;
          fire_finding event labels failureKind now
        else if in_state event EventFiring || in_state event EventAcknowledged then
          _ ← PutEvent (with_evidence (touched event now (LastActor event)) (Labels event) (finding_evidence failureKind));
          mret tt
        else fire_finding event labels failureKind now
    end.

Definition appendFailureFinding (scope : Scope) (ruleID : string) (now : time) : M unit :=
  auditID ← newID "audit";
  _ ← AppendAudit {| Audit_ID := auditID; Audit_Scope := scope; Audit_Actor := evaluator_actor; Audit_Action := "evaluation.failed";
                      TargetID := ruleID; OccurredAt := now; Details := {[ "failure_kind"%string := "rule_evaluation"%string ]} |};
  rule ← GetRule scope ruleID;
  reconcileSystemFinding rule systemFindingFailure "rule_evaluation" true now.

(** The pages of a listing by offset, until a short page; [fuel] bounds the number of pages. *)
Fixpoint rule_event_pages (fuel : nat) (scope : Scope) (ruleID : string) (offset : Z) (all : list AlertEvent) : M (list AlertEvent) :=
  match fuel with
  | O => mret all
  | S fuel' =>
      page ← ListRuleEvents scope ruleID (EventFilter_page offset);
      let all := all ++ filter (fun e => label (Labels e) systemFindingLabelKey = EmptyString) page in
      if (length page <? 500)%nat then mret all else rule_event_pages fuel' scope ruleID (offset + 500) all
  end.

Definition listAllRuleEvents (scope : Scope) (ruleID : string) : M (list AlertEvent) :=
  bound ← get (fun t => S (size (events t)));
  rule_event_pages bound scope ruleID 0 [].

Definition resolve_backlog (scope : Scope) (desired : string) (now : time) (event : AlertEvent) : M unit :=
  if negb (bool_decide (label (Labels event) systemFindingLabelKey = systemFindingBacklog)) || bool_decide (Fingerprint event = desired) || in_state event EventResolved
  then mret tt
  else rule ← GetRule scope (RuleID event); reconcileSystemFinding rule systemFindingBacklog "queue_backlog" false now.

Fixpoint each {A} (f : A -> M unit) (l : list A) : M unit :=
  match l with [] => mret tt | x :: rest => _ ← f x; each f rest end.

Fixpoint backlog_pages (fuel : nat) (scope : Scope) (desired : string) (now : time) (cursor : string) : M unit :=
  match fuel with
  | O => mret tt
  | S fuel' =>
      page ← ListEvents scope (EventFilter_after cursor);
      _ ← each (resolve_backlog scope desired now) page;
      if (length page <? 500)%nat then mret tt
      else backlog_pages fuel' scope desired now (match last page with Some e => ID e | None => EmptyString end)
  end.

Definition reconcileBacklogFinding (scope : Scope) (dueRules : list DueAlertRule) (queueDepth : Z) (now : time) : M unit :=
  desired ← match dueRules with
            | due :: _ =>
                if 0 <? queueDepth then
                  let rule := Due_Rule due in
                  _ ← reconcileSystemFinding rule systemFindingBacklog "queue_backlog" true now;
                  mret (EventFingerprint scope (Rule_ID rule) (systemFindingLabels systemFindingBacklog))
                else mret EmptyString
            | [] => mret EmptyString
            end;
  bound ← get (fun t => S (size (events t)));
  backlog_pages bound scope desired now EmptyString.

(** ** Evaluating a rule *)

Section evaluate.
Context (metrics : MetricQuery -> outcome (list MetricSample)).
(** The order in which Go iterates over the map of groups. *)
Context (iteration_order : list sample_group -> list sample_group).

Definition group_samples (samples : list MetricSample) : list sample_group :=
  foldl (fun groups s => let labels := canonicalResourceLabels s in add_to_group (SeriesFingerprint labels) labels s groups) [] samples.

(** Run [f] on every element and count how often it changed something. *)
Fixpoint count_changes {A} (f : A -> M bool) (l : list A) (updated : Z) : M Z :=
  match l with
  | [] => mret updated
  | x :: rest => changed ← f x; count_changes f rest (if (changed : bool) then updated + 1 else updated)
  end.

Definition group_value (rule : AlertRule) (series : list MetricSample) : outcome float64 :=
  if bool_decide (Aggregation rule = "rate"%string) then rate series else aggregate (Aggregation rule) series.

Definition evaluate_group (rule : AlertRule) (scope : Scope) (windowStart now : time) (group : sample_group) : M bool :=
  let '(_, (labels, series)) := group in
  value ← lift (group_value rule series);
  let evidence := {| WindowStart := windowStart; WindowEnd := now; Samples := Z.of_nat (length series); Aggregate := Some value; Missing := false;
                     Rate := if bool_decide (Aggregation rule = "rate"%string) then Some value else None; MissingDimensions := [] |} in
  applyResult rule (EventFingerprint scope (Rule_ID rule) labels) labels evidence (compare value (Threshold rule) (Operator rule)) false now.

Definition evaluate_absent (rule : AlertRule) (has_groups : bool) (sample_count : Z) (globalMissing : string) (missingEvidence : EvaluationEvidence) (now : time) (event : AlertEvent) : M bool :=
  if has_groups && bool_decide (Fingerprint event = globalMissing) then
    applyResult rule (Fingerprint event) (Labels event)
      {| WindowStart := WindowStart missingEvidence; WindowEnd := now; Samples := sample_count; Aggregate := None; Missing := false; Rate := None; MissingDimensions := [] |}
      false false now
  else applyMissing rule (Fingerprint event) (Labels event) missingEvidence now.

Definition evaluateRule (scope : Scope) (rule : AlertRule) (now : time) : M (Z * bool) :=
  if negb (bool_decide (Rule_Scope rule = scope)) || negb (is_ok (AlertRule_Validate rule)) then throw ErrInvalidRule
  else
    let windowStart := AddDuration now (- EffectiveLookbackWindow rule) in
    let selector := canonicalRuleSelector (Rule_Labels rule) in
    samples ← lift (metrics {| Query_Scope := scope; Query_Name := Metric rule; Query_Labels := storageMetricSelector (Rule_Labels rule); From_ := windowStart; To_ := now |});
    let '(samples, missingDimensions) := filterEvaluationSamples samples scope (Metric rule) selector windowStart now in
    let groups := iteration_order (group_samples samples) in
    let has_groups := negb (bool_decide (groups = [])) in
    let seen := map (fun g => EventFingerprint scope (Rule_ID rule) (fst (snd g))) groups in
    updated ← count_changes (evaluate_group rule scope windowStart now) groups 0;
    existing ← listAllRuleEvents scope (Rule_ID rule);
    let missingEvidence := {| WindowStart := windowStart; WindowEnd := now; Samples := 0; Aggregate := None; Missing := true; Rate := None; MissingDimensions := missingDimensions |} in
    let globalMissing := EventFingerprint scope (Rule_ID rule) selector in
    let absent := filter (fun e => one_of seen (Fingerprint e) = false) existing in
    updated ← count_changes (evaluate_absent rule has_groups (Z.of_nat (length samples)) globalMissing missingEvidence now) absent updated;
    if negb has_groups && bool_decide (absent = []) && negb (bool_decide (MissingData rule = "ignore"%string)) then
      changed ← applyMissing rule globalMissing selector missingEvidence now;
      mret (if (changed : bool) then updated + 1 else updated, false)
    else mret (updated, has_groups).

(** ** The evaluator *)

Record EvaluatorHealth := {
  LastRunAt : time; LastRunLatency : Z; LastError : string; Health_FailedRules : Z; LateRuns : Z; QueueDepth : Z;
}.
Definition no_health : EvaluatorHealth :=
  {| LastRunAt := zero_time; LastRunLatency := 0; LastError := EmptyString; Health_FailedRules := 0; LateRuns := 0; QueueDepth := 0 |}.

Record Evaluator := {
  workerID : string;
  scheduled : bool;                             (* the repository implements RuleScheduleRepository *)
  healthByScope : gmap string EvaluatorHealth;
  localNextDue : gmap string time;
}.

Definition HealthForScope (e : Evaluator) (scope : Scope) : EvaluatorHealth := default no_health (healthByScope e !! Scope_Key scope).

Definition update_health (f : EvaluatorHealth -> EvaluatorHealth) (scope : Scope) (e : Evaluator) : Evaluator :=
  {| workerID := workerID e; scheduled := scheduled e; healthByScope := <[Scope_Key scope := f (HealthForScope e scope)]> (healthByScope e); localNextDue := localNextDue e |}.

Definition setQueueDepth (scope : Scope) (depth : Z) : Evaluator -> Evaluator :=
  update_health (fun h => {| LastRunAt := LastRunAt h; LastRunLatency := LastRunLatency h; LastError := LastError h;
    Health_FailedRules := Health_FailedRules h; LateRuns := LateRuns h; QueueDepth := depth |}) scope.

Definition recordLateRun : Scope -> Evaluator -> Evaluator :=
  update_health (fun h => {| LastRunAt := LastRunAt h; LastRunLatency := LastRunLatency h; LastError := LastError h;
    Health_FailedRules := Health_FailedRules h; LateRuns := uint64 (LateRuns h + 1); QueueDepth := QueueDepth h |}).

Definition run_error_text (failedRules : Z) (runErr : option AlertError) : string :=
  match runErr with
  | Some ErrEvaluationAuditPersistence => "alert evaluation audit persistence failed"%string
  | Some _ => "alert evaluation failed"%string
  | None => if 0 <? failedRules then "one or more alert rules failed"%string else EmptyString
  end.

Definition finishRun (scope : Scope) (now : time) (latency failedRules : Z) (runErr : option AlertError) : Evaluator -> Evaluator :=
  update_health (fun h => {| LastRunAt := now; LastRunLatency := latency; LastError := run_error_text failedRules runErr;
    Health_FailedRules := failedRules; LateRuns := LateRuns h; QueueDepth := QueueDepth h |}) scope.

(** [Health] folds over the scopes in map order. *)
Definition merge_health (total h : EvaluatorHealth) : EvaluatorHealth :=
  {| LastRunAt := if After (LastRunAt h) (LastRunAt total) then LastRunAt h else LastRunAt total;
     LastRunLatency := if LastRunLatency total <? LastRunLatency h then LastRunLatency h else LastRunLatency total;
     LastError := if empty_string (LastError total) && negb (empty_string (LastError h)) then LastError h else LastError total;
     Health_FailedRules := int64 (Health_FailedRules total + Health_FailedRules h); LateRuns := uint64 (LateRuns total + LateRuns h);
     QueueDepth := int64 (QueueDepth total + QueueDepth h) |}.
Definition Health (order : list EvaluatorHealth) : EvaluatorHealth := foldl merge_health no_health order.

(** The local schedule, for a repository without durable scheduling. *)
Fixpoint claim_local (scope : Scope) (now : time) (rules : list AlertRule) (next : gmap string time) : list DueAlertRule * gmap string time :=
  match rules with
  | [] => ([], next)
  | rule :: rest =>
      if negb (Rule_Enabled rule) then claim_local scope now rest next
      else
        let key := (Scope_Key scope +:+ canonicalParts [Rule_ID rule])%string in
        let dueAt := default zero_time (next !! key) in
        if negb (IsZero dueAt) && Before now dueAt then claim_local scope now rest next
        else let '(due, next') := claim_local scope now rest (<[key := AddDuration now (EvaluationEvery rule)]> next) in
             ({| Due_Rule := rule; DueAt := dueAt |} :: due, next')
  end.

Definition claimDueRules (e : Evaluator) (scope : Scope) (now : time) : M (list DueAlertRule * Z * Evaluator) :=
  if scheduled e then
    '(due, depth) ← ClaimDueRules scope now (workerID e) (AddDuration now ruleEvaluationLease) maxDueRulesPerPass;
    mret (due, depth, e)
  else
    rules ← ListRules scope;
    let '(due, next) := claim_local scope now rules (localNextDue e) in
    mret (due, 0, {| workerID := workerID e; scheduled := scheduled e; healthByScope := healthByScope e; localNextDue := next |}).

Definition completeRuleEvaluation (e : Evaluator) (scope : Scope) (rule : AlertRule) (now : time) : M unit :=
  if scheduled e then CompleteRuleEvaluation scope (Rule_ID rule) (workerID e) now (AddDuration now (EvaluationEvery rule)) else mret tt.

Record EvaluationSummary := { Rules : Z; EvaluatedRules : Z; FailedRules : Z; EventsUpdated : Z; StartedAt : time; CompletedAt : time }.

Record pass := { pass_evaluated : Z; pass_failed : Z; pass_updated : Z; pass_audit_failed : bool; pass_late : bool }.

Definition is_late (due : DueAlertRule) (now : time) : bool :=
  negb (IsZero (DueAt due)) && (EvaluationEvery (Due_Rule due) <? SubTime now (DueAt due)).

(** The three findings of an evaluated rule; the first failure stops them. *)
Definition reconcile_findings (rule : AlertRule) (hasData late : bool) (now : time) : M unit :=
  _ ← reconcileSystemFinding rule systemFindingFailure "rule_evaluation" false now;
  _ ← reconcileSystemFinding rule systemFindingNoData "no_data" (negb hasData) now;
  reconcileSystemFinding rule systemFindingDelay "evaluation_delay" late now.

Definition evaluate_due (e : Evaluator) (scope : Scope) (now : time) (due : DueAlertRule) (p : pass) : M pass :=
  let rule := Due_Rule due in
  let late := is_late due now in
  evaluated ← attempt (evaluateRule scope rule now);
  completed ← attempt (completeRuleEvaluation e scope rule now);
  match evaluated, completed with
  | Ok (updated, hasData), Ok _ =>
      findings ← attempt (reconcile_findings rule hasData late now);
      let failed := negb (is_ok findings) in
      mret {| pass_evaluated := pass_evaluated p + 1; pass_failed := if failed then pass_failed p + 1 else pass_failed p;
              pass_updated := pass_updated p + updated; pass_audit_failed := pass_audit_failed p || failed; pass_late := pass_late p || late |}
  | _, _ =>
      finding ← attempt (appendFailureFinding scope (Rule_ID rule) now);
      mret {| pass_evaluated := pass_evaluated p; pass_failed := pass_failed p + 1; pass_updated := pass_updated p;
              pass_audit_failed := pass_audit_failed p || negb (is_ok finding); pass_late := pass_late p || late |}
  end.

Fixpoint evaluate_all (e : Evaluator) (scope : Scope) (now : time) (due : list DueAlertRule) (p : pass) : M pass :=
  match due with [] => mret p | d :: rest => p' ← evaluate_due e scope now d p; evaluate_all e scope now rest p' end.

(** [EvaluateScope] with the measured latency; the summary is returned with or
    without an error, and the deferred [finishRun] always runs. *)
Definition EvaluateScope (e : Evaluator) (scope : Scope) (now : time) (latency : Z) : M (EvaluationSummary * option AlertError * Evaluator) :=
  let finish e rules p err :=
    ({| Rules := rules; EvaluatedRules := pass_evaluated p; FailedRules := pass_failed p; EventsUpdated := pass_updated p; StartedAt := now; CompletedAt := now |},
     err, finishRun scope now latency (pass_failed p) err e) in
  let p0 := {| pass_evaluated := 0; pass_failed := 0; pass_updated := 0; pass_audit_failed := false; pass_late := false |} in
  match Scope_Validate scope with
  | Err err => mret (finish e 0 p0 (Some err))
  | Ok _ =>
      if IsZero now then mret (finish e 0 p0 (Some ErrExternal))
      else
        claimed ← attempt (claimDueRules e scope now);
        match claimed with
        | Err err => mret (finish e 0 p0 (Some err))
        | Ok (dueRules, queueDepth, e) =>
            let e := setQueueDepth scope queueDepth e in
            p ← evaluate_all e scope now dueRules p0;
            let e := if pass_late p then recordLateRun scope e else e in
            backlog ← attempt (reconcileBacklogFinding scope dueRules queueDepth now);
            let p := if is_ok backlog then p
                     else {| pass_evaluated := pass_evaluated p; pass_failed := pass_failed p + 1; pass_updated := pass_updated p; pass_audit_failed := true; pass_late := pass_late p |} in
            mret (finish e (Z.of_nat (length dueRules)) p (if pass_audit_failed p then Some ErrEvaluationAuditPersistence else None))
        end
  end.
End evaluate.
End evaluator.

(** ** The abstract alert machine *)

(** What an alert is, seen from outside: quiet, waiting since some instant for
    its hold time to pass, alerting, or acknowledged by an operator. *)
Inductive alert_view := Quiet | Waiting (since : Z) | Alerting | Acknowledged | Unreadable.

(** One observation of the condition. *)
Definition observe (hold : Z) (condition : bool) (now : Z) (v : alert_view) : alert_view :=
  if negb condition then match v with Unreadable => Unreadable | _ => Quiet end
  else match v with
       | Quiet => Waiting now
       | Waiting since => if hold <=? now - since then Alerting else Waiting since
       | v => v
       end.

Definition view_event (e : AlertEvent) : alert_view :=
  if in_state e EventResolved then Quiet
  else if in_state e EventPending then
    match ParseRFC3339 (label (Evidence e) conditionSinceEvidenceKey) with Some s => Waiting (instant s) | None => Unreadable end
  else if in_state e EventFiring then Alerting
  else if in_state e EventAcknowledged then Acknowledged
  else Unreadable.

Definition view (t : tables) (key : Scope * string) : alert_view :=
  match events t !! key with None => Quiet | Some e => view_event e end.

Lemma SubTime_hold a b hold : 0 < hold -> hold <= int64_max -> (hold <=? SubTime a b) = (hold <=? instant a - instant b).
Proof.
  intros H1 H2. unfold SubTime. cbv zeta. unfold int64_max, int64_min in *.
  destruct (Z.ltb_spec (2 ^ 63 - 1) (instant a - instant b)); [|destruct (Z.ltb_spec (instant a - instant b) (- 2 ^ 63)); [|done]];
    destruct (Z.leb_spec hold (instant a - instant b)); first [apply Z.leb_le|apply Z.leb_gt]; lia.
Qed.

Lemma sanitizeDetails_lookup m k : sensitiveField k = false -> sanitizeDetails m !! k = m !! k.
Proof. intros Hk. unfold sanitizeDetails. rewrite map_lookup_imap, Hk. by destruct (m !! k). Qed.

Lemma condition_since_key_plain : sensitiveField conditionSinceEvidenceKey = false /\ plain_text conditionSinceEvidenceKey = true.
Proof. split; vm_compute; reflexivity. Qed.

Lemma empty_string_false s : empty_string s = false -> s <> EmptyString.
Proof. unfold empty_string. by intros H%bool_decide_eq_false. Qed.

Section refinement.
Context `{Digest} `{FloatText} `{DatabaseLaws}.

(** A stored pending event remembers the instant written into its evidence. *)
Lemma stored_since e row t t' s : stored_as e row t t' -> rfc3339_range s ->
  Evidence e !! conditionSinceEvidenceKey = Some (FormatRFC3339Nano (UTC s)) ->
  ParseRFC3339 (label (Evidence row) conditionSinceEvidenceKey) = Some (UTC s).
Proof.
  intros (labels & evidence & _ & E2 & -> & _) Hr He. destruct condition_since_key_plain as [K1 K2].
  cbn [upsert_row Evidence]. unfold label.
  rewrite (jsonb_entry _ _ _ (FormatRFC3339Nano (UTC s)) E2); [|by rewrite sanitizeDetails_lookup|done|by apply FormatRFC3339Nano_plain].
  cbn. by apply (ParseRFC3339_Format (UTC s)).
Qed.

Lemma stored_view e row t t' : stored_as e row t t' -> view t' (event_key e) = view_event row /\ State row = State e.
Proof. intros (labels & evidence & _ & _ & -> & He). unfold view. rewrite He, lookup_insert_eq. done. Qed.

(** What a write makes of the view: the state decides, and a pending event is
    waiting since the instant in its evidence. *)
Lemma stored_view_pending e row t t' s : stored_as e row t t' -> State e = EventPending -> rfc3339_range s ->
  Evidence e !! conditionSinceEvidenceKey = Some (FormatRFC3339Nano (UTC s)) -> view t' (event_key e) = Waiting (instant s).
Proof.
  intros Hst Hp Hr He. destruct (stored_view _ _ _ _ Hst) as [-> Hs]. unfold view_event, in_state. rewrite Hs, Hp. decide_states.
  by rewrite (stored_since _ _ _ _ _ Hst Hr He).
Qed.

Lemma stored_view_state e row t t' : stored_as e row t t' -> State e <> EventPending ->
  view t' (event_key e) = (if bool_decide (State e = EventResolved) then Quiet else if bool_decide (State e = EventFiring) then Alerting
                           else if bool_decide (State e = EventAcknowledged) then Acknowledged else Unreadable).
Proof.
  intros Hst Hp. destruct (stored_view _ _ _ _ Hst) as [-> Hs]. unfold view_event, in_state. rewrite Hs.
  by rewrite (bool_decide_eq_false_2 (State e = EventPending)).
Qed.

Lemma newID_db prefix w r w' : newID prefix w = (r, w') -> db w' = db w.
Proof. unfold newID. destruct (entropy w) as [|x l]; intros [= _ <-]; done. Qed.

Lemma writeTransition_Ok e action now w b w' : writeTransition e action now w = (Ok b, w') -> exists row, stored_as e row (db w) (db w').
Proof.
  unfold writeTransition. cbv zeta. intros Hw. apply run_bind_Ok in Hw as (id & w1 & Hid%newID_db & Hw). apply run_bind_Ok in Hw as (row & w2 & Hp & Hw).
  apply mret_Ok in Hw as [-> ->]. apply PutEventAndAudit_Ok in Hp. rewrite Hid in Hp. by exists row.
Qed.

Lemma FindEvent_Ok scope fp w r w' : FindEventByFingerprint scope fp w = (Ok r, w') -> db w' = db w /\ r = events (db w) !! (scope, fp).
Proof.
  unfold FindEventByFingerprint. intros Hf. mstep Hf. apply query_db in Hf as [Hd Hr]. split; [done|]. by apply Hr.
Qed.

(** The rows under a key carry that key. *)
Definition keyed (t : tables) : Prop := forall k e, events t !! k = Some e -> event_key e = k.

Lemma stored_keyed e row t t' : stored_as e row t t' -> keyed t -> keyed t'.
Proof.
  intros (labels & evidence & _ & _ & -> & He) Hk k x. rewrite He, lookup_insert_Some. intros [[<- <-]|[_ Hx]]; [done|by apply Hk].
Qed.

Lemma stored_frame e row t t' k : stored_as e row t t' -> k <> event_key e -> events t' !! k = events t !! k.
Proof. intros (labels & evidence & _ & _ & _ & He) Hk. by rewrite He, lookup_insert_ne. Qed.

(** The condition holds since the recorded instant, when that is not in the future. *)
Lemma condition_since_recorded e now s : ParseRFC3339 (label (Evidence e) conditionSinceEvidenceKey) = Some s ->
  instant s <= instant now -> condition_since e now = s.
Proof.
  intros Hp Hle. unfold condition_since. cbv zeta. destruct (empty_string (label (Evidence e) conditionSinceEvidenceKey)) eqn:E.
  { unfold empty_string in E. bool_simpl. rewrite E in Hp. discriminate Hp. }
  rewrite Hp. unfold After. by rewrite (proj2 (Z.ltb_ge _ _)).
Qed.

Lemma stamp_lookup m s : stamp_since m s !! conditionSinceEvidenceKey = Some (FormatRFC3339Nano (UTC s)).
Proof. apply lookup_insert_eq. Qed.

(** The evaluation of a series at [now] is timely: the rule's hold time is a
    positive duration, [now] is a date with an RFC 3339 text, and a waiting
    alert does not wait since the future. *)
Definition timely (rule : AlertRule) (now : time) (v : alert_view) : Prop :=
  0 < For rule <= int64_max /\ rfc3339_range now /\ v <> Unreadable /\ forall s, v = Waiting s -> 0 <= s <= instant now.

(** After a run the key has view [v] and nothing else changed. *)
Definition only_changes (key : Scope * string) (v : alert_view) (t t' : tables) : Prop :=
  view t' key = v /\ keyed t' /\ forall k, k <> key -> events t' !! k = events t !! k.

Lemma stored_only_changes e row t t' key v : stored_as e row t t' -> keyed t -> event_key e = key -> view t' key = v -> only_changes key v t t'.
Proof. intros Hst Hk <- Hv. split_and!; [done|by eapply stored_keyed|]. intros k Hne. by eapply stored_frame. Qed.

Lemma unchanged_only key v t : keyed t -> view t key = v -> only_changes key v t t.
Proof. intros Hk Hv. by split_and!. Qed.

(** The view of a found event. *)
Lemma view_found t key e : events t !! key = Some e -> view t key = view_event e.
Proof. intros He. unfold view. by rewrite He. Qed.

Lemma touch_refines e labels evidence now w row w' v :
  PutEvent (with_evidence (touched e now evaluator_actor) labels evidence) w = (Ok row, w') ->
  keyed (db w) -> v = (if in_state e EventFiring then Alerting else Acknowledged) -> in_state e EventFiring || in_state e EventAcknowledged = true ->
  only_changes (event_key e) v (db w) (db w').
Proof.
  intros Hp%PutEvent_Ok Hk -> Hs. apply (stored_only_changes _ _ _ _ _ _ Hp Hk); [done|].
  change (event_key e) with (event_key (with_evidence (touched e now evaluator_actor) labels evidence)).
  unfold in_state in *.
  rewrite (stored_view_state _ _ _ _ Hp); cbn [with_evidence touched State]; apply orb_true_iff in Hs as [Hs|Hs]; apply bool_decide_eq_true in Hs; rewrite Hs;
    first [discriminate|by decide_states].
Qed.

Lemma transition_refines e labels evidence now action next v e' w b w' :
  Transition e next now evaluator_actor = Ok e' -> writeTransition (with_evidence e' labels evidence) action now w = (Ok b, w') ->
  keyed (db w) -> next <> EventPending -> v = (if bool_decide (next = EventResolved) then Quiet else if bool_decide (next = EventFiring) then Alerting
    else if bool_decide (next = EventAcknowledged) then Acknowledged else Unreadable) ->
  only_changes (event_key e) v (db w) (db w').
Proof.
  intros (-> & _)%Transition_Ok (row & Hst)%writeTransition_Ok Hk Hn ->. apply (stored_only_changes _ _ _ _ _ _ Hst Hk); [done|].
  exact (stored_view_state _ _ _ _ Hst Hn).
Qed.

Lemma pending_refines e now s w row : stored_as e row (db w) s -> keyed (db w) -> State e = EventPending -> rfc3339_range now ->
  Evidence e !! conditionSinceEvidenceKey = Some (FormatRFC3339Nano (UTC now)) -> only_changes (event_key e) (Waiting (instant now)) (db w) s.
Proof. intros Hst Hk Hp Hr He. apply (stored_only_changes _ _ _ _ _ _ Hst Hk); [done|]. by eapply stored_view_pending. Qed.

Lemma create_refines rule fp labels evidence condition createResolved now w b w' :
  rfc3339_range now -> (createResolved = true -> condition = false) -> keyed (db w) -> events (db w) !! (Rule_Scope rule, fp) = None ->
  applyResult rule fp labels evidence condition createResolved now w = (Ok b, w') ->
  only_changes (Rule_Scope rule, fp) (observe (For rule) condition (instant now) Quiet) (db w) (db w').
Proof.
  intros Hr Hcr Hk Hnone. unfold applyResult. intros Ha. apply run_bind_Ok in Ha as (found & w1 & Hf & Ha). apply FindEvent_Ok in Hf as [Hd ->].
  rewrite Hnone in Ha. cbv zeta in Ha. destruct (negb condition && negb createResolved) eqn:Eb.
  { apply mret_Ok in Ha as [-> ->]. bool_simpl. subst condition. rewrite Hd. apply unchanged_only; [done|]. unfold view. by rewrite Hnone. }
  apply run_bind_Ok in Ha as (id & w2 & Hid%newID_db & Ha). rewrite <- Hd, <- Hid in *.
  destruct createResolved; apply writeTransition_Ok in Ha as (row & Hst).
  - rewrite (Hcr eq_refl). apply (stored_only_changes _ _ _ _ _ _ Hst Hk); [done|].
    etransitivity; [apply (stored_view_state _ _ _ _ Hst); discriminate|reflexivity].
  - destruct condition; [|discriminate]. by apply (pending_refines _ _ _ _ _ Hst Hk); [|done|apply stamp_lookup].
Qed.

Lemma observe_refines rule fp labels evidence condition createResolved now w b w' :
  keyed (db w) -> timely rule now (view (db w) (Rule_Scope rule, fp)) -> (createResolved = true -> condition = false) ->
  applyResult rule fp labels evidence condition createResolved now w = (Ok b, w') ->
  only_changes (Rule_Scope rule, fp) (observe (For rule) condition (instant now) (view (db w) (Rule_Scope rule, fp))) (db w) (db w').
Proof.
  intros Hk (Hhold & Hr & Hread & Hsince) Hcr Ha. destruct (events (db w) !! (Rule_Scope rule, fp)) as [e|] eqn:Ee.
  2:{ unfold view. rewrite Ee. by eapply create_refines. }
  pose proof (Hk _ _ Ee) as Hkey. rewrite (view_found _ _ _ Ee) in *. unfold applyResult in Ha. cbv zeta in Ha.
  apply run_bind_Ok in Ha as (found & w1 & Hf & Ha). apply FindEvent_Ok in Hf as [Hd ->]. rewrite Ee in Ha. rewrite <- Hkey, <- Hd in *.
  unfold view_event in *. destruct condition; cbn [observe negb].
  - destruct (in_state e EventResolved) eqn:E1.
    { apply writeTransition_Ok in Ha as (row & Hst). by apply (pending_refines _ _ _ _ _ Hst Hk); [|done|apply stamp_lookup]. }
    destruct (in_state e EventPending) eqn:E2.
    + destruct (ParseRFC3339 (label (Evidence e) conditionSinceEvidenceKey)) as [s|] eqn:Ep; [|done].
      destruct (Hsince _ eq_refl) as [Hs0 Hs1]. rewrite (condition_since_recorded _ _ _ Ep Hs1), SubTime_hold in Ha by lia.
      destruct (For rule <=? instant now - instant s).
      * mstep Ha. eapply transition_refines; try done.
      * apply run_bind_Ok in Ha as (row & w2 & Hp & Ha). apply mret_Ok in Ha as [-> ->]. apply PutEvent_Ok in Hp.
        apply (pending_refines _ _ _ _ _ Hp Hk); [unfold in_state in E2; by bool_simpl| |apply stamp_lookup].
        unfold rfc3339_range in *. lia.
    + destruct (in_state e EventFiring || in_state e EventAcknowledged) eqn:E3; [|discriminate].
      apply run_bind_Ok in Ha as (row & w2 & Hp & Ha). apply mret_Ok in Ha as [-> ->].
      eapply touch_refines; [exact Hp|done| |done]. apply orb_true_iff in E3. destruct (in_state e EventFiring); [done|].
      destruct E3 as [E3|E3]; [done|]. by rewrite E3.
  - destruct (in_state e EventResolved) eqn:E1.
    { apply mret_Ok in Ha as [-> ->]. apply unchanged_only; [done|]. rewrite (view_found _ _ e); [unfold view_event; by rewrite E1|exact Ee]. }
    mstep Ha. eapply transition_refines; try done. decide_states. repeat case_goal; try done.
Qed.
End refinement.

(** ** Sequences of evaluations *)

(** One evaluation of a series: what was found, and when. *)
Record observation := {
  ob_labels : labels_map; ob_evidence : EvaluationEvidence; ob_condition : bool; ob_createResolved : bool; ob_now : time;
}.

Fixpoint evaluate_series `{FloatText} `{Database} (rule : AlertRule) (fp : string) (obs : list observation) : M unit :=
  match obs with
  | [] => mret tt
  | o :: rest =>
      _ ← applyResult rule fp (ob_labels o) (ob_evidence o) (ob_condition o) (ob_createResolved o) (ob_now o);
      evaluate_series rule fp rest
  end.

(** Dates with a text, in the order of the clock from [from] on; a missing-data
    resolution never comes with a true condition. *)
Fixpoint clocked (from : Z) (obs : list observation) : Prop :=
  match obs with
  | [] => True
  | o :: rest => from <= instant (ob_now o) /\ rfc3339_range (ob_now o) /\ (ob_createResolved o = true -> ob_condition o = false)
                 /\ clocked (instant (ob_now o)) rest
  end.

Definition observe_all (hold : Z) (obs : list observation) (v : alert_view) : alert_view :=
  foldl (fun v o => observe hold (ob_condition o) (instant (ob_now o)) v) v obs.

(** Start of the unbroken run of true observations at the end, and the last observation. *)
Definition streak (obs : list observation) : option Z :=
  foldl (fun st o => if ob_condition o then Some (default (instant (ob_now o)) st) else None) None obs.
Definition last_instant (obs : list observation) : Z := foldl (fun _ o => instant (ob_now o)) 0 obs.

Lemma streak_snoc obs o : streak (obs ++ [o]) = if ob_condition o then Some (default (instant (ob_now o)) (streak obs)) else None.
Proof. unfold streak. by rewrite foldl_app. Qed.

Lemma last_instant_snoc obs o : last_instant (obs ++ [o]) = instant (ob_now o).
Proof. unfold last_instant. by rewrite foldl_app. Qed.

Lemma observe_all_snoc hold obs o v : observe_all hold (obs ++ [o]) v = observe hold (ob_condition o) (instant (ob_now o)) (observe_all hold obs v).
Proof. unfold observe_all. by rewrite foldl_app. Qed.

Lemma clocked_snoc from obs o : clocked from (obs ++ [o]) -> clocked from obs /\ (obs <> [] -> last_instant obs <= instant (ob_now o)).
Proof.
  revert from. induction obs as [|x obs IH]; intros from; [done|]. cbn [app clocked]. intros (H1 & H2 & H3 & H4).
  destruct (IH _ H4) as [Hc Hl]. split; [done|]. intros _. destruct obs as [|y obs]; [cbn; apply H4|by apply Hl].
Qed.

(** The abstract machine, started quiet, alerts exactly when the streak is long enough. *)
Lemma observe_all_streak hold obs from : 0 < hold -> clocked from obs ->
  observe_all hold obs Quiet = match streak obs with
                               | None => Quiet
                               | Some s => if hold <=? last_instant obs - s then Alerting else Waiting s
                               end /\ (obs <> [] -> forall s, streak obs = Some s -> s <= last_instant obs).
Proof.
  intros Hh. induction obs as [|o obs IH] using rev_ind; intros Hc; [done|].
  destruct (clocked_snoc _ _ _ Hc) as [Hc' Hl]. destruct (IH Hc') as [Hv Hs].
  rewrite observe_all_snoc, streak_snoc, last_instant_snoc, Hv. clear IH Hv.
  destruct (ob_condition o); cbn [observe negb]; [|split; [destruct (streak obs); [by destruct (hold <=? _)|done]|intros _ s [=]]].
  destruct (streak obs) as [s|] eqn:Es; cbn [default from_option id].
  - assert (Hne : obs <> []) by (intros ->; discriminate Es). specialize (Hl Hne). specialize (Hs Hne s eq_refl).
    split; [|intros _ ? [= <-]; lia]. destruct (Z.leb_spec hold (last_instant obs - s)); [|done].
    by rewrite (proj2 (Z.leb_le hold (instant (ob_now o) - s))) by lia.
  - split; [|intros _ ? [= <-]; lia]. by rewrite (proj2 (Z.leb_gt hold (instant (ob_now o) - instant (ob_now o)))) by lia.
Qed.

Lemma observe_timely rule now next c v : timely rule now v -> rfc3339_range next -> instant now <= instant next ->
  timely rule next (observe (For rule) c (instant now) v).
Proof.
  intros (Hh & Hr & Hu & Hs) Hn Hle. split_and!; try done; try apply Hh.
  - unfold observe. destruct (negb c), v as [|s| | |]; try done. by destruct (For rule <=? instant now - s).
  - intros s. unfold observe. unfold rfc3339_range in *. destruct (negb c), v; try discriminate; try case_match; try discriminate; intros [= <-]; try lia.
    destruct (Hs _ eq_refl). lia.
Qed.

Lemma evaluate_series_refines `{FloatText} `{DatabaseLaws} rule fp obs w w' :
  evaluate_series rule fp obs w = (Ok tt, w') -> keyed (db w) ->
  match obs with [] => True | o :: _ => timely rule (ob_now o) (view (db w) (Rule_Scope rule, fp)) end ->
  (exists from, clocked from obs) ->
  only_changes (Rule_Scope rule, fp) (observe_all (For rule) obs (view (db w) (Rule_Scope rule, fp))) (db w) (db w').
Proof.
  revert w. induction obs as [|o obs IH]; intros w Hrun Hk Ht (from & Hc).
  { injection Hrun as <-. by apply unchanged_only. }
  cbn [evaluate_series] in Hrun. apply run_bind_Ok in Hrun as (b & w1 & Ha & Hrun). destruct Hc as (_ & _ & Hcr & Hc).
  destruct (observe_refines _ _ _ _ _ _ _ _ _ _ Hk Ht Hcr Ha) as (Hv & Hk1 & Hframe).
  change (observe_all (For rule) (o :: obs) ?v) with (observe_all (For rule) obs (observe (For rule) (ob_condition o) (instant (ob_now o)) v)).
  rewrite <- Hv. destruct (IH w1 Hrun Hk1) as (Hv' & Hk' & Hframe'); [|by eexists|].
  - destruct obs as [|o2 obs]; [done|]. rewrite Hv. destruct Hc as (Hle & Hr2 & _). by eapply observe_timely.
  - split_and!; [done|done|]. intros k Hne. by rewrite Hframe', Hframe.
Qed.

(** C34: one evaluation of a series implements the abstract alert machine.  If
    the write succeeds, the alert goes from quiet to waiting, from waiting to
    alerting once the condition is true and has been waited for the rule's hold
    time, stays alerting or acknowledged while the condition is true, and goes
    quiet when it is false; the instant the wait began is kept across writes
    (through the RFC 3339 text in the evidence and the database), and no other
    event is touched. *)
Theorem applyResult_refines_alert_machine `{FloatText} `{DatabaseLaws} rule fp labels evidence condition createResolved now w changed w' :
  keyed (db w) -> timely rule now (view (db w) (Rule_Scope rule, fp)) -> (createResolved = true -> condition = false) ->
  applyResult rule fp labels evidence condition createResolved now w = (Ok changed, w') ->
  view (db w') (Rule_Scope rule, fp) = observe (For rule) condition (instant now) (view (db w) (Rule_Scope rule, fp)) /\
  (forall k, k <> (Rule_Scope rule, fp) -> events (db w') !! k = events (db w) !! k).
Proof. intros Hk Ht Hcr Ha. destruct (observe_refines _ _ _ _ _ _ _ _ _ _ Hk Ht Hcr Ha) as (Hv & _ & Hf). done. Qed.

(** C35: an alert fires exactly when its condition has held for the hold time.
    After any sequence of successful evaluations of a series that had no event,
    with the condition observed true or false at instants that never go back,
    the event is firing if and only if the condition was true at every
    observation of a final run that spans at least the rule's hold time, and
    pending if and only if there is such a run that is still too short. *)
Theorem alert_fires_exactly_after_its_hold `{FloatText} `{DatabaseLaws} rule fp obs from w w' :
  0 < For rule <= int64_max -> keyed (db w) -> events (db w) !! (Rule_Scope rule, fp) = None -> clocked from obs ->
  evaluate_series rule fp obs w = (Ok tt, w') ->
  match streak obs with
  | None => view (db w') (Rule_Scope rule, fp) = Quiet
  | Some s => exists e, events (db w') !! (Rule_Scope rule, fp) = Some e /\
      (State e = EventFiring <-> For rule <= last_instant obs - s) /\ (State e = EventPending <-> last_instant obs - s < For rule)
  end.
Proof.
  intros Hh Hk Hnone Hc Hrun.
  assert (Hq : view (db w) (Rule_Scope rule, fp) = Quiet) by (unfold view; by rewrite Hnone).
  destruct (evaluate_series_refines _ _ _ _ _ Hrun Hk) as (Hv & _ & _); [|by eexists|].
  { destruct obs as [|o obs]; [done|]. rewrite Hq. destruct Hc as (_ & Hr & _). unfold timely. split_and!; try done; lia. }
  rewrite Hq in Hv. destruct (observe_all_streak (For rule) obs from ltac:(lia) Hc) as [Ho _]. rewrite Ho in Hv.
  destruct (streak obs) as [s|]; [|exact Hv]. unfold view in Hv.
  destruct (events (db w') !! (Rule_Scope rule, fp)) as [e|]; [|by destruct (For rule <=? last_instant obs - s)].
  exists e. split; [done|]. unfold view_event, in_state in Hv.
  destruct (Z.leb_spec (For rule) (last_instant obs - s)); repeat (case_bool_decide || case_hyp Hv); try discriminate Hv;
    (split; split; intros Hx; try lia; try done; try congruence; assert (EventPending = EventFiring) by congruence; discriminate).
Qed.

Module EvaluatorDemo.
Import StoreDemo.

Definition evidence (now : time) : EvaluationEvidence :=
  {| WindowStart := AddDuration now (- 30 * second); WindowEnd := now; Samples := 3; Aggregate := None; Missing := false; Rate := None; MissingDimensions := [] |}.
Definition labels : labels_map := {[ "instance"%string := "db-1"%string ]}.
Definition see (condition : bool) (s : Z) : observation :=
  {| ob_labels := labels; ob_evidence := evidence (ModelDemo.at_second s); ob_condition := condition; ob_createResolved := false; ob_now := ModelDemo.at_second s |}.
Definition random_bytes : list (option (list Z)) := (fun n => Some (replicate 12 (Z.of_nat n))) <$> seq 0 8.
Definition start : world := World (Tables ∅ rule_table [] [] ∅ ∅ [] ∅) [] random_bytes [] [].
Definition key : Scope * string := (ModelDemo.scope, "f1"%string).

Lemma applyResult_refines_alert_machine_witness :
  exists w', applyResult rule "f1" labels (evidence (ModelDemo.at_second 10)) true false (ModelDemo.at_second 10) start = (Ok true, w') /\
    view (db w') key = Waiting (instant (ModelDemo.at_second 10)).
Proof.
  eexists. split; [vm_compute; reflexivity|].
  refine (proj1 (applyResult_refines_alert_machine rule "f1" labels (evidence (ModelDemo.at_second 10)) true false (ModelDemo.at_second 10) start true _ _ _ _ _)).
  - intros k e Hk. change (events (db start)) with (∅ : gmap (Scope * string) AlertEvent) in Hk. rewrite lookup_empty in Hk. discriminate Hk.
  - unfold timely. split_and!; try (intros s [=]); vm_compute; done.
  - discriminate.
  - vm_compute. reflexivity.
Defined.

Lemma alert_fires_exactly_after_its_hold_witness :
  exists w' e, evaluate_series rule "f1" [see true 10; see false 20; see true 30; see true 60; see true 90] start = (Ok tt, w') /\
    events (db w') !! key = Some e /\ (State e = EventFiring <-> minute <= instant (ModelDemo.at_second 90) - instant (ModelDemo.at_second 30)).
Proof.
  assert (Hrun : exists w', evaluate_series rule "f1" [see true 10; see false 20; see true 30; see true 60; see true 90] start = (Ok tt, w'))
    by (eexists; vm_compute; reflexivity).
  destruct Hrun as [w' Hrun]. exists w'.
  destruct (alert_fires_exactly_after_its_hold rule "f1" [see true 10; see false 20; see true 30; see true 60; see true 90] 0 start w') as (e & He & Hf & _).
  - split; vm_compute; done.
  - intros k e Hk. change (events (db start)) with (∅ : gmap (Scope * string) AlertEvent) in Hk. rewrite lookup_empty in Hk. discriminate Hk.
  - reflexivity.
  - cbn [clocked see ob_now ob_createResolved ob_condition]. split_and!;
      lazymatch goal with
      | |- True => exact I
      | |- _ -> _ => discriminate
      | |- rfc3339_range _ => vm_compute; split; [discriminate|reflexivity]
      | |- _ => vm_compute; discriminate
      end.
  - exact Hrun.
  - exists e. split; [exact Hrun|]. split; [exact He|exact Hf].
Defined.

End EvaluatorDemo.
