(* ===== verification/AlertNotification.v ===== *)
(** * Alert notifications

    [alert/notification.go] and the delivery part of [alert/postgres.go]:
    routing, silences, templates, requests, the outcome of an attempt, and the
    calls of the repository: the idempotent reservation of deliveries, their
    updates and claims, with a logic for what a call does to the tables.  The
    dispatcher itself is in [AlertDispatch]. *)

From Stdlib Require Import Ascii.
From S2P Require Import Prelude GoText AlertModel AlertStore AlertEvaluator.

Open Scope Z_scope.

Definition retryDelays : list Z := [minute; 5 * minute; 30 * minute].

Record NotificationRoute := {
  Policy : NotificationPolicy; Template : NotificationTemplate; Severities : list string; MatchLabels : labels_map;
  WindowStartUTC : string; WindowEndUTC : string;
}.

Definition Template_Version (t : NotificationTemplate) : string :=
  if LegacyVersionFromUpdatedAt t && negb (IsZero (Template_UpdatedAt t)) then FormatRFC3339Nano (UTC (Template_UpdatedAt t))
  else if 0 <? Revision t then Itoa (Revision t)
  else if negb (IsZero (Template_UpdatedAt t)) then FormatRFC3339Nano (UTC (Template_UpdatedAt t))
  else if negb (IsZero (Template_CreatedAt t)) then FormatRFC3339Nano (UTC (Template_CreatedAt t))
  else Template_ID t.

Definition Policy_Version (p : NotificationPolicy) : string :=
  if negb (IsZero (Policy_UpdatedAt p)) then FormatRFC3339Nano (UTC (Policy_UpdatedAt p))
  else if negb (IsZero (Policy_CreatedAt p)) then FormatRFC3339Nano (UTC (Policy_CreatedAt p))
  else Policy_ID p.

(** ** Routing *)

Definition containsString (values : list string) (wanted : string) : bool := one_of values wanted.

Definition inUTCWindow (at_ : time) (startRaw endRaw : string) : bool :=
  if empty_string startRaw && empty_string endRaw then true
  else match ParseClock startRaw, ParseClock endRaw with
       | Some startMinute, Some endMinute =>
           let nowMinute := minute_of_day at_ in
           if startMinute =? endMinute then true
           else if startMinute <? endMinute then (startMinute <=? nowMinute) && (nowMinute <? endMinute)
           else (startMinute <=? nowMinute) || (nowMinute <? endMinute)
       | _, _ => false
       end.

Definition routeMatches (route : NotificationRoute) (rule : AlertRule) (event : AlertEvent) (at_ : time) : bool :=
  if negb (Policy_Enabled (Policy route)) || negb (containsString (NotificationPolicyIDs rule) (Policy_ID (Policy route))) then false
  else
    let severities := match Policy_Severities (Policy route) with [] => Severities route | l => l end in
    if negb (bool_decide (severities = [])) && negb (containsString severities (Severity rule)) then false
    else
      let labels := if bool_decide (Policy_MatchLabels (Policy route) = ∅) then MatchLabels route else Policy_MatchLabels (Policy route) in
      if negb (map_all (fun key value => bool_decide (Labels event !! key = Some value)) labels) then false
      else
        let own_window := negb (empty_string (Policy_WindowStartUTC (Policy route)) && empty_string (Policy_WindowEndUTC (Policy route))) in
        inUTCWindow at_ (if own_window then Policy_WindowStartUTC (Policy route) else WindowStartUTC route)
                        (if own_window then Policy_WindowEndUTC (Policy route) else WindowEndUTC route).

(** *** Silences *)

Definition has_label (event : AlertEvent) (name value : string) : bool := bool_decide (Labels event !! name = Some value).

Definition matcher_holds (event : AlertEvent) (key value : string) : bool :=
  if bool_decide (key = "fingerprint"%string) then bool_decide (Fingerprint event = value)
  else if bool_decide (key = "tenant_id"%string) then bool_decide (TenantID (Event_Scope event) = value)
  else if bool_decide (key = "project_id"%string) then bool_decide (ProjectID (Event_Scope event) = value)
  else if bool_decide (key = "scope"%string) then bool_decide (Scope_Key (Event_Scope event) = value)
  else if bool_decide (key = "resource"%string) then has_label event "resource" value || has_label event "resource_id" value
  else if HasPrefix "resource." key then has_label event (TrimPrefix "resource." key) value
  else if HasPrefix "label." key then has_label event (TrimPrefix "label." key) value
  else has_label event key value.

Definition silence_matches (event : AlertEvent) (at_ : time) (s : Silence) : bool :=
  negb (negb (bool_decide (Silence_Scope s = Event_Scope event)) || Before at_ (StartsAt s) || negb (Before at_ (EndsAt s)))
  && map_all (matcher_holds event) (Matchers s).

Definition matchingSilence (silences : list Silence) (event : AlertEvent) (at_ : time) : bool :=
  existsb (silence_matches event at_) silences.

Definition validSilenceMatchers (matchers : labels_map) : bool :=
  map_all (fun key value =>
    if blank value || sensitiveField key || containsSecretMaterial value then false
    else if one_of ["fingerprint"; "resource"; "tenant_id"; "project_id"; "scope"]%string key then true
    else if HasPrefix "label." key || HasPrefix "resource." key then
      let name := TrimPrefix "resource." (TrimPrefix "label." key) in
      validLabelName name && negb (sensitiveField name)
    else false) matchers.

(** ** Templates *)

(** [\s] of the pattern, and the characters of a placeholder name. *)
Definition is_pattern_space (c : Z) : bool := (c =? 9) || (c =? 10) || (c =? 12) || (c =? 13) || (c =? 32).
Definition is_name_char (c : Z) : bool := is_letter c || is_digit c || (c =? 95) || (c =? 46) || (c =? 45).

Fixpoint skip_spaces (s : string) : string :=
  match s with String a rest => if is_pattern_space (byte_of a) then skip_spaces rest else s | EmptyString => s end.

Fixpoint take_name (s : string) : string * string :=
  match s with
  | String a rest => if is_name_char (byte_of a) then let '(n, r) := take_name rest in (String a n, r) else (EmptyString, s)
  | EmptyString => (EmptyString, s)
  end.

(** A match of the placeholder pattern at the head of the text: the name and what follows.  The three
    repetitions are over disjoint sets of characters, so there is at most one way to match. *)
Definition match_placeholder (s : string) : option (string * string) :=
  if HasPrefix "{{" s then
    match take_name (skip_spaces (drop_string 2 s)) with
    | (EmptyString, _) => None
    | (name, rest) => let rest' := skip_spaces rest in
                      if HasPrefix "}}" rest' then Some (name, drop_string 2 rest') else None
    end
  else None.

(** [ReplaceAllStringFunc]: the leftmost matches, replaced by [f]; the flag says whether [f] refused a name.
    Every step consumes a character, so the length of the text is enough fuel. *)
Fixpoint replace_placeholders (fuel : nat) (f : string -> option string) (s : string) : string * bool :=
  match fuel with
  | O => (s, false)
  | S fuel' =>
      match s with
      | EmptyString => (EmptyString, false)
      | String a rest =>
          match match_placeholder s with
          | Some (name, rest') =>
              let '(out, invalid) := replace_placeholders fuel' f rest' in
              match f name with Some v => ((v +:+ out)%string, invalid) | None => (out, true) end
          | None => let '(out, invalid) := replace_placeholders fuel' f rest in (String a out, invalid)
          end
      end
  end.

Definition render (f : string -> option string) (source : string) : option string :=
  let '(rendered, invalid) := replace_placeholders (String.length source) f source in
  if invalid || Contains "{{" rendered || Contains "}}" rendered then None else Some rendered.

(** A resource placeholder with a nonempty label name. *)
Definition resource_name (name : string) : bool := HasPrefix "resource." name && (String.length "resource." <? String.length name)%nat.

Definition template_names : list string := ["event.id"; "event.state"; "event.severity"; "evidence.aggregate"; "event.url"]%string.

Definition validTemplateText (source : string) : bool :=
  match render (fun name => if one_of template_names name || resource_name name then Some EmptyString else None) source with
  | Some _ => true | None => false
  end.

Definition templateValues (rule : AlertRule) (event : AlertEvent) (state eventURL : string) : labels_map :=
  list_to_map [("event.id", ID event); ("event.state", state); ("event.severity", Severity rule);
               ("evidence.aggregate", label (Evidence event) "aggregate"); ("event.url", eventURL)]%string.

Definition renderNotificationText (source : string) (values labels : labels_map) : outcome string :=
  match render (fun name => match values !! name with
                            | Some v => Some v
                            | None => if resource_name name then Some (label labels (TrimPrefix "resource." name)) else None
                            end) source with
  | Some text => Ok text
  | None => Err ErrInvalidTemplate
  end.

(** ** Configuration checks *)

Definition ValidateSecretReference (ref : string) : outcome unit :=
  if negb (HasPrefix "env://" ref) then Err ErrInvalidNotification
  else let name := TrimPrefix "env://" ref in
       if empty_string name then Err ErrInvalidNotification
       else guard_ok (all_indexed (fun i c => is_letter c || (c =? 95) || ((0 <? i)%nat && is_digit c)) 0 name) ErrInvalidNotification.

Definition parses_clock (s : string) : bool := match ParseClock s with Some _ => true | None => false end.

Definition validateNotificationPolicy (p : NotificationPolicy) : outcome unit :=
  if negb (is_ok (Scope_Validate (Policy_Scope p))) || negb (validIdentifier (Policy_ID p)) || blank (Policy_Name p) || blank (Policy_Target p)
     || containsSecretMaterial (Policy_Target p) || negb (validIdentifier (Policy_TemplateID p)) then Err ErrInvalidNotification
  else if negb (if bool_decide (Policy_Channel p = "in_app"%string) then blank (Policy_SecretRef p)
                else if one_of ["smtp"; "webhook"]%string (Policy_Channel p) then is_ok (ValidateSecretReference (Policy_SecretRef p))
                else false) then Err ErrInvalidNotification
  else if negb (forallb allowedSeverity (Policy_Severities p)) then Err ErrInvalidNotification
  else if negb (validLabelMatchers (Policy_MatchLabels p)) then Err ErrInvalidNotification
  else if negb (Bool.eqb (empty_string (Policy_WindowStartUTC p)) (empty_string (Policy_WindowEndUTC p))) then Err ErrInvalidNotification
  else if empty_string (Policy_WindowStartUTC p) then Ok tt
  else guard_ok (parses_clock (Policy_WindowStartUTC p) && parses_clock (Policy_WindowEndUTC p)) ErrInvalidNotification.

Definition validateNotificationTemplate (t : NotificationTemplate) : outcome unit :=
  if negb (is_ok (Scope_Validate (Template_Scope t))) || negb (validIdentifier (Template_ID t)) || blank (Template_Name t) || (Revision t <=? 0)
  then Err ErrInvalidTemplate
  else guard_ok (validTemplateText (Template_Subject t) && validTemplateText (Template_Body t)) ErrInvalidTemplate.

(** ** Deliveries *)

Definition known_channel_secret (request : DeliveryRequest) : bool :=
  if bool_decide (Channel request = "in_app"%string) then empty_string (SecretRef request)
  else if one_of ["smtp"; "webhook"]%string (Channel request) then is_ok (ValidateSecretReference (SecretRef request))
  else false.

Definition validateNotificationDelivery (d : NotificationDelivery) : outcome unit :=
  let r := Request d in
  if negb (is_ok (Scope_Validate (Delivery_Scope d))) || blank (Delivery_ID d) || negb (bool_decide (Delivery_ID d = IdempotencyKey d))
     || blank (Delivery_EventID d) || blank (Delivery_PolicyID d) || (Attempts d <? 1) || IsZero (AttemptedAt d) then Err ErrInvalidNotification
  else if negb (bool_decide (Request_Scope r = Delivery_Scope d)) || negb (bool_decide (Request_EventID r = Delivery_EventID d))
     || negb (bool_decide (Request_PolicyID r = Delivery_PolicyID d)) || empty_string (Channel r) || empty_string (TemplateID r)
     || empty_string (TemplateVersion r) then Err ErrInvalidNotification
  else if negb (known_channel_secret r) then Err ErrInvalidNotification
  else if containsSecretMaterial (Target r) || containsSecretMaterial (Subject_ r) || containsSecretMaterial (Body r) then Err ErrInvalidNotification
  else if negb (map_all (fun key value => negb (blank key || sensitiveField key || containsSecretMaterial value)) (Request_Labels r)) then Err ErrInvalidNotification
  else if negb (one_of delivery_statuses (Status d)) then Err ErrInvalidNotification
  else if bool_decide (Status d = DeliveryRetryScheduled) && IsZero (NextAttemptAt d) then Err ErrInvalidNotification
  else if bool_decide (Status d = DeliveryAttempting) && (empty_string (LeaseOwner d) || IsZero (LeaseExpiresAt d)) then Err ErrInvalidNotification
  else if negb (empty_string (FailureClass d)) && negb (bool_decide (sanitizeFailureClass (FailureClass d) = FailureClass d)) then Err ErrInvalidNotification
  else Ok tt.

(** The columns an attempt changes. *)
Definition with_status (d : NotificationDelivery) (status : string) (attemptedAt nextAttemptAt deliveredAt : time) (failure owner : string) (expires : time) : NotificationDelivery :=
  {| Delivery_ID := Delivery_ID d; Delivery_Scope := Delivery_Scope d; Delivery_EventID := Delivery_EventID d; Delivery_PolicyID := Delivery_PolicyID d;
     EventState := EventState d; IdempotencyKey := IdempotencyKey d; Status := status; Attempts := Attempts d; AttemptedAt := attemptedAt;
     NextAttemptAt := nextAttemptAt; DeliveredAt := deliveredAt; FailureClass := failure; LeaseOwner := owner; LeaseExpiresAt := expires;
     ClaimOwner := ClaimOwner d; Request := Request d |}.

Definition with_lease (d : NotificationDelivery) (owner : string) (expires : time) : NotificationDelivery :=
  {| Delivery_ID := Delivery_ID d; Delivery_Scope := Delivery_Scope d; Delivery_EventID := Delivery_EventID d; Delivery_PolicyID := Delivery_PolicyID d;
     EventState := EventState d; IdempotencyKey := IdempotencyKey d; Status := Status d; Attempts := Attempts d; AttemptedAt := AttemptedAt d;
     NextAttemptAt := NextAttemptAt d; DeliveredAt := DeliveredAt d; FailureClass := FailureClass d; LeaseOwner := owner; LeaseExpiresAt := expires;
     ClaimOwner := owner; Request := Request d |}.

(** ** The dispatcher *)

Record Dispatcher := {
  channels : gset string;                (* the names of the registered channels *)
  eventURL : AlertEvent -> string;
  Dispatcher_workerID : string;
  lease : Z;
  batchSize : nat;
}.

(** [NewDispatcher] with the names of the given channels ([None] is a nil channel). *)
Definition NewDispatcher (given : list (option string)) (url : option (AlertEvent -> string)) (random : option (list Z)) : Dispatcher :=
  {| channels := list_to_set (omap (fun c => match c with Some name => if blank name then None else Some name | None => None end) given);
     eventURL := match url with Some f => f | None => fun _ => EmptyString end;
     Dispatcher_workerID := match newControlPlaneID "dispatcher" random with Ok id => id | Err _ => "dispatcher-local"%string end;
     lease := 30 * second; batchSize := 100 |}.

Definition IsRetryableDeliveryError (r : channel_reply) : bool := match r with ChannelFailed _ retryable => retryable | _ => false end.
Definition deliveryErrorClass (r : channel_reply) : string :=
  match r with ChannelFailed class _ => sanitizeFailureClass (sanitizeFailureClass class) | _ => "channel_error"%string end.

Section notify.
Context `{Digest} `{FloatText} `{Database}.

Definition deliveryIdempotencyKey (eventID state channel policyID policyVersion templateVersion : string) : string :=
  hex_encode (sha256 (bytes_of (canonicalParts ["dbpilot.delivery.v2"%string; eventID; state; channel; policyID; policyVersion; templateVersion]))).

Definition legacyDeliveryIdempotencyKey (eventID state channel templateVersion : string) : string :=
  hex_encode (sha256 (bytes_of (eventID +:+ state +:+ channel +:+ templateVersion)%string)).

Definition notificationAuditID (d : NotificationDelivery) (action : string) : string :=
  ("audit-" +:+ hex_encode (take 12 (sha256 (bytes_of (Delivery_ID d +:+ action +:+ Itoa (Attempts d)))%string)))%string.

Definition notificationAudit (d : NotificationDelivery) (action : string) (at_ : time) : AuditRecord :=
  let details : labels_map := list_to_map [("status", Status d); ("channel", Channel (Request d)); ("attempt", Itoa (Attempts d))]%string in
  {| Audit_ID := notificationAuditID d action; Audit_Scope := Delivery_Scope d; Audit_Actor := "dbpilot-notification-dispatcher"; Audit_Action := action;
     AlertModel.TargetID := Delivery_ID d; OccurredAt := UTC at_;
     Details := if empty_string (FailureClass d) then details else <["failure_class"%string := sanitizeFailureClass (FailureClass d)]> details |}.

Definition validateNotificationAudit (record : AuditRecord) : outcome unit :=
  if one_of delivery_actions (Audit_Action record) then AuditRecord_Validate record else Err ErrInvalidAuditRecord.

Definition appendNotificationAudit (record : AuditRecord) : M unit :=
  _ ← lift (validateNotificationAudit record);
  insert_audit record.

(** *** The delivery table *)

Definition set_deliveries (f : gmap (Scope * string) NotificationDelivery -> gmap (Scope * string) NotificationDelivery) (t : tables) : tables :=
  Tables (events t) (rules t) (audits t) (dispositions t) (policies t) (templates t) (silences t) (f (deliveries t)).

Definition delivery_key (d : NotificationDelivery) : Scope * string := (Delivery_Scope d, Delivery_ID d).

(** A delivery as [scanNotificationDelivery] reads it back: severity and policy version are not stored. *)
Definition stored_request (r : DeliveryRequest) (d : NotificationDelivery) (labels : labels_map) : DeliveryRequest :=
  {| DeliveryID := Delivery_ID d; Request_Scope := Delivery_Scope d; Request_EventID := Delivery_EventID d; Request_State := Request_State r;
     Request_Severity := EmptyString; Channel := Channel r; Request_PolicyID := Delivery_PolicyID d; PolicyVersion := EmptyString;
     TemplateID := TemplateID r; TemplateVersion := TemplateVersion r; Target := Target r; SecretRef := SecretRef r; Subject_ := Subject_ r; Body := Body r;
     Request_Labels := labels |}.

Definition stored_delivery (d : NotificationDelivery) (labels : labels_map) : NotificationDelivery :=
  {| Delivery_ID := Delivery_ID d; Delivery_Scope := Delivery_Scope d; Delivery_EventID := Delivery_EventID d; Delivery_PolicyID := Delivery_PolicyID d;
     EventState := Request_State (Request d); IdempotencyKey := IdempotencyKey d; Status := Status d; Attempts := Attempts d; AttemptedAt := pg_time (AttemptedAt d);
     NextAttemptAt := nullable (NextAttemptAt d); DeliveredAt := nullable (DeliveredAt d); FailureClass := FailureClass d; LeaseOwner := LeaseOwner d;
     LeaseExpiresAt := nullable (LeaseExpiresAt d); ClaimOwner := LeaseOwner d; Request := stored_request (Request d) d labels |}.

(** The [NOT EXISTS] guard of the insert: the same key, or a first-generation key of the same route. *)
Definition same_delivery (d : NotificationDelivery) (legacy : string) (x : NotificationDelivery) : bool :=
  bool_decide (Delivery_Scope x = Delivery_Scope d)
  && (bool_decide (IdempotencyKey x = IdempotencyKey d)
      || (bool_decide (IdempotencyKey x = legacy) && bool_decide (Delivery_PolicyID x = Delivery_PolicyID d)
          && bool_decide (Request_State (Request x) = Request_State (Request d)) && bool_decide (Channel (Request x) = Channel (Request d))
          && bool_decide (TemplateID (Request x) = TemplateID (Request d)) && bool_decide (TemplateVersion (Request x) = TemplateVersion (Request d))
          && bool_decide (Target (Request x) = Target (Request d)) && bool_decide (SecretRef (Request x) = SecretRef (Request d)))).

Definition reserve_body (d : NotificationDelivery) (labels : labels_map) (audit : option AuditRecord) : M bool :=
  taken ← get (fun t => existsb (fun kv => same_delivery d (legacyDeliveryIdempotencyKey (Delivery_EventID d) (EventState d) (Channel (Request d)) (TemplateVersion (Request d))) (snd kv))
                         (map_to_list (deliveries t))
                        || bool_decide (is_Some (deliveries t !! delivery_key d)));
  if (taken : bool) then mret false
  else
    _ ← modify (set_deliveries (fun m => <[delivery_key d := stored_delivery d labels]> m));
    _ ← match audit with Some r => appendNotificationAudit r | None => mret tt end;
    mret true.

Definition ReserveNotificationDelivery (d : NotificationDelivery) (audit : option AuditRecord) : M bool :=
  _ ← lift (validateNotificationDelivery d);
  _ ← match audit with
      | None => mret tt
      | Some r => _ ← require (bool_decide (Audit_Scope r = Delivery_Scope d) && bool_decide (AlertModel.TargetID r = Delivery_ID d)) ErrInvalidAuditRecord;
                  lift (validateNotificationAudit r)
      end;
  labels ← encode_map (Request_Labels (Request d));
  transaction (reserve_body d labels audit).

(** The row after [deliveryUpdateSQL]. *)
Definition updated_row (row d : NotificationDelivery) : NotificationDelivery :=
  {| Delivery_ID := Delivery_ID row; Delivery_Scope := Delivery_Scope row; Delivery_EventID := Delivery_EventID row; Delivery_PolicyID := Delivery_PolicyID row;
     EventState := EventState row; IdempotencyKey := IdempotencyKey row; Status := Status d; Attempts := Attempts row; AttemptedAt := pg_time (AttemptedAt d);
     NextAttemptAt := nullable (NextAttemptAt d); DeliveredAt := nullable (DeliveredAt d); FailureClass := FailureClass d; LeaseOwner := LeaseOwner d;
     LeaseExpiresAt := nullable (LeaseExpiresAt d); ClaimOwner := LeaseOwner d; Request := Request row |}.

Definition update_body (d : NotificationDelivery) (audit : AuditRecord) : M unit :=
  row ← get (fun t => deliveries t !! delivery_key d);
  match row with
  | Some x =>
      if bool_decide (Status x = DeliveryAttempting) && bool_decide (LeaseOwner x = ClaimOwner d) then
        _ ← modify (set_deliveries (fun m => <[delivery_key d := updated_row x d]> m));
        appendNotificationAudit audit
      else throw ErrNotFound
  | None => throw ErrNotFound
  end.

Definition UpdateNotificationDelivery (d : NotificationDelivery) (audit : AuditRecord) : M unit :=
  _ ← lift (validateNotificationDelivery d);
  _ ← require (bool_decide (Audit_Scope audit = Delivery_Scope d) && bool_decide (AlertModel.TargetID audit = Delivery_ID d)) ErrInvalidAuditRecord;
  _ ← lift (validateNotificationAudit audit);
  transaction (update_body d audit).

(** The deliveries due at an instant: a scheduled retry whose time has come, or an attempt whose lease ran out. *)
Definition claimable (at_ : time) (kv : (Scope * string) * NotificationDelivery) : bool :=
  let d := snd kv in
  ((bool_decide (Status d = DeliveryRetryScheduled) && negb (IsZero (NextAttemptAt d)) && negb (After (NextAttemptAt d) (pg_time at_)))
   || (bool_decide (Status d = DeliveryAttempting) && negb (IsZero (LeaseExpiresAt d)) && negb (After (LeaseExpiresAt d) (pg_time at_))))
  && negb (empty_string (IdempotencyKey d)) && allowedEventState (EventState d) && negb (empty_string (Channel (Request d)))
  && negb (empty_string (TemplateID (Request d))) && negb (empty_string (TemplateVersion (Request d))) && (1 <=? Attempts d).

Definition due_instant (d : NotificationDelivery) : time := if IsZero (NextAttemptAt d) then LeaseExpiresAt d else NextAttemptAt d.
Definition due_first (a b : (Scope * string) * NotificationDelivery) : Prop :=
  (Before (due_instant (snd a)) (due_instant (snd b))
   || (TimeEqual (due_instant (snd a)) (due_instant (snd b)) && negb (Before (AttemptedAt (snd b)) (AttemptedAt (snd a))))) = true.
#[global] Instance due_first_dec a b : Decision (due_first a b) :=
  decide ((Before (due_instant (snd a)) (due_instant (snd b))
   || (TimeEqual (due_instant (snd a)) (due_instant (snd b)) && negb (Before (AttemptedAt (snd b)) (AttemptedAt (snd a))))) = true).

Definition claimed_row (at_ : time) (owner : string) (until : time) (d : NotificationDelivery) : NotificationDelivery :=
  {| Delivery_ID := Delivery_ID d; Delivery_Scope := Delivery_Scope d; Delivery_EventID := Delivery_EventID d; Delivery_PolicyID := Delivery_PolicyID d;
     EventState := EventState d; IdempotencyKey := IdempotencyKey d; Status := DeliveryAttempting; Attempts := Attempts d + 1; AttemptedAt := pg_time at_;
     NextAttemptAt := zero_time; DeliveredAt := DeliveredAt d; FailureClass := FailureClass d; LeaseOwner := owner; LeaseExpiresAt := pg_time until;
     ClaimOwner := owner; Request := Request d |}.

Definition claim_body (at_ : time) (owner : string) (until : time) (limit : nat) : M (list NotificationDelivery) :=
  due ← get (fun t => take limit (merge_sort due_first (filter (fun kv => claimable at_ kv = true) (map_to_list (deliveries t)))));
  _ ← modify (set_deliveries (fun m => foldr (fun kv m => <[fst kv := claimed_row at_ owner until (snd kv)]> m) m due));
  mret (map (fun kv => claimed_row at_ owner until (snd kv)) due).

Definition ClaimDueNotificationDeliveries (at_ : time) (owner : string) (leaseUntil : time) (limit : Z) : M (list NotificationDelivery) :=
  if IsZero at_ || IsZero leaseUntil || negb (After leaseUntil at_) || blank owner then throw ErrInvalidNotification
  else
    let limit := if (limit <=? 0) || (500 <? limit) then 100 else limit in
    let until := Truncate (UTC leaseUntil) microsecond in
    claimed ← transaction (claim_body (UTC at_) owner until (Z.to_nat limit));
    if forallb (fun d => is_ok (validateNotificationDelivery d) && bool_decide (Status d = DeliveryAttempting) && bool_decide (LeaseOwner d = owner)
                         && TimeEqual (LeaseExpiresAt d) until) claimed
    then mret claimed else throw ErrInvalidNotification.

(** [RecordOrphanedEvent]: an audit record for an event whose rule is gone, at most once. *)
Definition orphan_delivery (event : AlertEvent) (at_ : time) : NotificationDelivery :=
  {| Delivery_ID := ("orphan-" +:+ String.substring 0 24 (fingerprintParts [Scope_Key (Event_Scope event); ID event; State event]))%string;
     Delivery_Scope := Event_Scope event; Delivery_EventID := ID event; Delivery_PolicyID := "orphan-rule"; EventState := State event; IdempotencyKey := EmptyString;
     Status := DeliveryAbandoned; Attempts := 0; AttemptedAt := UTC at_; NextAttemptAt := zero_time; DeliveredAt := zero_time; FailureClass := "orphan_rule";
     LeaseOwner := EmptyString; LeaseExpiresAt := zero_time; ClaimOwner := EmptyString;
     Request := {| DeliveryID := EmptyString; Request_Scope := Event_Scope event; Request_EventID := ID event; Request_State := State event; Request_Severity := EmptyString;
                   Channel := "orphan"; Request_PolicyID := "orphan-rule"; PolicyVersion := EmptyString; TemplateID := "orphan-rule"; TemplateVersion := "orphan-rule";
                   Target := EmptyString; SecretRef := EmptyString; Subject_ := EmptyString; Body := EmptyString; Request_Labels := ∅ |} |}.

Definition RecordOrphanedEvent (event : AlertEvent) (at_ : time) : M unit :=
  if negb (is_ok (AlertEvent_Validate event)) || IsZero at_ then throw ErrInvalidNotification
  else
    let record := with_target (notificationAudit (orphan_delivery event at_) "delivery.abandoned" at_) (ID event) in
    details ← encode_map (Details record);
    transaction (
      taken ← get (fun t => audit_taken t record);
      if (taken : bool) then mret tt else modify (add_audit (stored_audit record details))).

(** *** Reading the configuration *)

Definition no_template : NotificationTemplate :=
  {| Template_ID := EmptyString; Template_Scope := MkScope EmptyString EmptyString; Template_Name := EmptyString; Template_Subject := EmptyString; Template_Body := EmptyString;
     Revision := 0; LegacyVersionFromUpdatedAt := false; Template_CreatedAt := zero_time; Template_UpdatedAt := zero_time |}.

Definition policy_le (a b : NotificationPolicy) : Prop := collate (Policy_ID a) (Policy_ID b) = true.
#[global] Instance policy_le_dec a b : Decision (policy_le a b) := decide (collate (Policy_ID a) (Policy_ID b) = true).

(** The join of a rule with its policies and their templates. *)
Definition rule_routes (scope : Scope) (ruleID : string) (t : tables) : list NotificationRoute :=
  match rules t !! (scope, ruleID) with
  | None => []
  | Some row =>
      let ps := filter (fun p => Policy_Scope p = scope /\ containsString (NotificationPolicyIDs (row_rule row)) (Policy_ID p) = true) (map snd (map_to_list (policies t))) in
      map (fun p => {| Policy := p; Template := default no_template (templates t !! (scope, Policy_TemplateID p)); Severities := []; MatchLabels := ∅;
                       WindowStartUTC := EmptyString; WindowEndUTC := EmptyString |}) (merge_sort policy_le ps)
  end.

Definition ListNotificationRoutes (scope : Scope) (ruleID : string) : M (list NotificationRoute) :=
  _ ← lift (Scope_Validate scope);
  if negb (validIdentifier ruleID) then throw ErrInvalidNotification else query (get (rule_routes scope ruleID)).

Definition silence_le (a b : Silence) : Prop := Before (Silence_CreatedAt b) (Silence_CreatedAt a) = false.
#[global] Instance silence_le_dec a b : Decision (silence_le a b) := decide (Before (Silence_CreatedAt b) (Silence_CreatedAt a) = false).

Definition ListActiveSilences (scope : Scope) (at_ : time) : M (list Silence) :=
  _ ← lift (Scope_Validate scope);
  if IsZero at_ then throw ErrInvalidNotification
  else query (get (fun t => merge_sort silence_le (filter (fun s => Silence_Scope s = scope /\ After (StartsAt s) (pg_time at_) = false /\ After (EndsAt s) (pg_time at_) = true) (silences t)))).

(** *** Requests *)

Definition suppressedDeliveryRequest (route : NotificationRoute) (severity : string) (event : AlertEvent) (state : string) : DeliveryRequest :=
  let templateID := if empty_string (Policy_TemplateID (Policy route)) then Template_ID (Template route) else Policy_TemplateID (Policy route) in
  let templateVersion := Template_Version (Template route) in
  {| DeliveryID := EmptyString; Request_Scope := Event_Scope event; Request_EventID := ID event; Request_State := state; Request_Severity := severity;
     Channel := Policy_Channel (Policy route); Request_PolicyID := Policy_ID (Policy route); PolicyVersion := Policy_Version (Policy route); TemplateID := templateID;
     TemplateVersion := if empty_string (Template_ID (Template route)) || empty_string templateVersion then ("missing:" +:+ templateID)%string else templateVersion;
     Target := Policy_Target (Policy route); SecretRef := Policy_SecretRef (Policy route); Subject_ := EmptyString; Body := EmptyString; Request_Labels := ∅ |}.

Definition deliveryRequest (d : Dispatcher) (route : NotificationRoute) (rule : AlertRule) (event : AlertEvent) (state : string) : outcome DeliveryRequest :=
  let values := templateValues rule event state (eventURL d event) in
  match renderNotificationText (Template_Subject (Template route)) values (Labels event) with
  | Err e => Err e
  | Ok subject =>
      match renderNotificationText (Template_Body (Template route)) values (Labels event) with
      | Err e => Err e
      | Ok body => Ok
          {| DeliveryID := EmptyString; Request_Scope := Event_Scope event; Request_EventID := ID event; Request_State := state; Request_Severity := Severity rule;
             Channel := Policy_Channel (Policy route); Request_PolicyID := Policy_ID (Policy route); PolicyVersion := Policy_Version (Policy route);
             TemplateID := Template_ID (Template route); TemplateVersion := Template_Version (Template route); Target := Policy_Target (Policy route);
             SecretRef := Policy_SecretRef (Policy route); Subject_ := subject; Body := body; Request_Labels := Labels event |}
      end
  end.

Definition with_delivery_id (r : DeliveryRequest) (id : string) : DeliveryRequest :=
  {| DeliveryID := id; Request_Scope := Request_Scope r; Request_EventID := Request_EventID r; Request_State := Request_State r; Request_Severity := Request_Severity r;
     Channel := Channel r; Request_PolicyID := Request_PolicyID r; PolicyVersion := PolicyVersion r; TemplateID := TemplateID r; TemplateVersion := TemplateVersion r;
     Target := Target r; SecretRef := SecretRef r; Subject_ := Subject_ r; Body := Body r; Request_Labels := Request_Labels r |}.

Definition newNotificationDelivery (request : DeliveryRequest) (event : AlertEvent) (at_ : time) : NotificationDelivery :=
  let key := deliveryIdempotencyKey (ID event) (Request_State request) (Channel request) (Request_PolicyID request) (PolicyVersion request) (TemplateVersion request) in
  {| Delivery_ID := key; Delivery_Scope := Event_Scope event; Delivery_EventID := ID event; Delivery_PolicyID := Request_PolicyID request; EventState := Request_State request;
     IdempotencyKey := key; Status := DeliveryAttempting; Attempts := 1; AttemptedAt := at_; NextAttemptAt := zero_time; DeliveredAt := zero_time; FailureClass := EmptyString;
     LeaseOwner := EmptyString; LeaseExpiresAt := zero_time; ClaimOwner := EmptyString; Request := with_delivery_id request key |}.

(** *** Attempts *)

(** Hand a request to its channel. *)
Definition Deliver (r : DeliveryRequest) : M channel_reply := fun w =>
  match replies w with
  | [] => (Ok ChannelAccepted, World (db w) (verdicts w) (entropy w) [] (sent w ++ [r]))
  | x :: rest => (Ok x, World (db w) (verdicts w) (entropy w) rest (sent w ++ [r]))
  end.

(** The delivery after an attempt with the given reply; [None] is Go's panic on an index out of range. *)
Definition attempt_outcome (d : NotificationDelivery) (reply : channel_reply) (at_ : time) : option (NotificationDelivery * string) :=
  match reply with
  | ChannelAccepted => Some (with_status d DeliveryDelivered (AttemptedAt d) zero_time at_ EmptyString EmptyString zero_time, "delivery.delivered"%string)
  | _ =>
      if IsRetryableDeliveryError reply && (Attempts d <=? Z.of_nat (length retryDelays)) then
        if Attempts d <? 1 then None
        else match retryDelays !! Z.to_nat (Attempts d - 1) with
             | Some delay => Some (with_status d DeliveryRetryScheduled (AttemptedAt d) (AddDuration at_ delay) zero_time (deliveryErrorClass reply) EmptyString zero_time, "delivery.retry_scheduled"%string)
             | None => None
             end
      else Some (with_status d DeliveryAbandoned (AttemptedAt d) zero_time zero_time (deliveryErrorClass reply) EmptyString zero_time, "delivery.abandoned"%string)
  end.

End notify.

(** ** A program logic for store programs

    Assertions speak about the tables and the requests sent so far.  [hoare I P m Q]: from [P], the program [m] ends in [I],
    and if it succeeds with [a] also in [Q a]. *)

Definition assertion : Type := tables -> list DeliveryRequest -> Prop.

Definition hoare {A} (I P : assertion) (m : M A) (Q : A -> assertion) : Prop :=
  forall w r w', P (db w) (sent w) -> m w = (r, w') -> I (db w') (sent w') /\ forall a, r = Ok a -> Q a (db w') (sent w').

Lemma hoare_bind {A B} I P (m : M A) (f : A -> M B) R Q :
  hoare I P m R -> (forall a, hoare I (R a) (f a) Q) -> hoare I P (m ≫= f) Q.
Proof.
  intros Hm Hf w r w' HP Hb. apply run_bind_cases in Hb as [(e & E & ->)|(a & w1 & E & Hb)].
  - destruct (Hm _ _ _ HP E) as [HI _]. split; [done|]. intros ? [=].
  - destruct (Hm _ _ _ HP E) as [_ HR]. exact (Hf a _ _ _ (HR a eq_refl) Hb).
Qed.

Lemma hoare_weaken {A} I P P' (m : M A) (Q Q' : A -> assertion) :
  hoare I P' m Q' -> (forall t s, P t s -> P' t s) -> (forall a t s, Q' a t s -> Q a t s) -> hoare I P m Q.
Proof. intros Hm HP HQ w r w' Hw Hr. destruct (Hm _ _ _ (HP _ _ Hw) Hr). split; auto. Qed.

Lemma hoare_ret {A} (I P : assertion) (a : A) (Q : A -> assertion) :
  (forall t s, P t s -> I t s) -> (forall t s, P t s -> Q a t s) -> hoare I P (mret a) Q.
Proof. intros HI HQ w r w' HP [= <- <-]. split; [by apply HI|]. intros ? [= <-]. by apply HQ. Qed.

Lemma hoare_throw {A} (I P : assertion) e (Q : A -> assertion) : (forall t s, P t s -> I t s) -> hoare I P (throw e) Q.
Proof. intros HI w r w' HP [= <- <-]. split; [by apply HI|]. intros ? [=]. Qed.

Lemma hoare_lift {A} (I P : assertion) (x : outcome A) : (forall t s, P t s -> I t s) -> hoare I P (lift x) (fun a t s => P t s /\ x = Ok a).
Proof. intros HI w r w' HP [= <- <-]. split; [by apply HI|]. auto. Qed.

Lemma hoare_require (I P : assertion) b e : (forall t s, P t s -> I t s) -> hoare I P (require b e) (fun _ t s => P t s /\ b = true).
Proof. intros HI. destruct b; [apply hoare_ret; auto|by apply hoare_throw]. Qed.

Lemma hoare_get {A} (I P : assertion) (f : tables -> A) : (forall t s, P t s -> I t s) -> hoare I P (get f) (fun a t s => P t s /\ a = f t).
Proof. intros HI w r w' HP [= <- <-]. split; [by apply HI|]. intros ? [= <-]. done. Qed.

Lemma hoare_query {A} (I P : assertion) (f : tables -> A) : (forall t s, P t s -> I t s) -> hoare I P (query (get f)) (fun a t s => P t s /\ a = f t).
Proof.
  intros HI w r w' HP. unfold query. destruct (next_verdict w) as [v w1] eqn:E.
  assert (Hs : sent w1 = sent w) by (revert E; unfold next_verdict; destruct (verdicts w); by intros [= <- <-]).
  pose proof (db_next_verdict _ _ _ E) as Hd.
  destruct v; intros [= <- <-]; rewrite Hd, Hs; (split; [by apply HI|]); intros ? [= <-]; done.
Qed.

Lemma hoare_attempt {A} (I P : assertion) (m : M A) (Q : A -> assertion) :
  hoare I P m Q -> hoare I P (attempt m) (fun r t s => I t s /\ forall a, r = Ok a -> Q a t s).
Proof.
  intros Hm w r w' HP. unfold attempt. destruct (m w) as [x w1] eqn:E. intros [= <- <-].
  destruct (Hm _ _ _ HP E) as [HI HQ]. split; [done|]. intros ? [= <-]. auto.
Qed.

(** Programs that send nothing. *)
Definition silent {A} (m : M A) : Prop := forall w, sent (snd (m w)) = sent w.

Lemma silent_bind {A B} (m : M A) (f : A -> M B) : silent m -> (forall a, silent (f a)) -> silent (m ≫= f).
Proof.
  intros Hm Hf w. unfold mbind, M_bind. specialize (Hm w). destruct (m w) as [[a|e] w1]; cbn in *; [|done]. by rewrite Hf.
Qed.

Lemma hoare_transaction {A} (I P : assertion) (body : M A) (Q : A -> assertion) :
  hoare (fun _ _ => True) P body Q -> silent body -> (forall t s, P t s -> I t s) -> (forall a t s, Q a t s -> I t s) ->
  hoare I P (transaction body) Q.
Proof.
  intros Hb Hs HI HQ w r w' HP. unfold transaction. destruct (next_verdict w) as [v w1] eqn:E.
  assert (Hs1 : sent w1 = sent w) by (revert E; unfold next_verdict; destruct (verdicts w); by intros [= <- <-]).
  pose proof (db_next_verdict _ _ _ E) as Hd. rewrite <- Hd, <- Hs1 in HP. specialize (Hs w1).
  destruct v; [|intros [= <- <-]; split; [by apply HI|intros ? [=]]|]; destruct (body w1) as [[a|e] w2] eqn:Eb; cbn in Hs;
    intros [= <- <-]; cbn [db sent set_db]; rewrite ?Hs; try (split; [by apply HI|intros ? [=]]);
    destruct (Hb _ _ _ HP Eb) as [_ HQa]; specialize (HQa a eq_refl); rewrite Hs in HQa; (split; [by eapply HQ|]); intros ? [= <-]; done.
Qed.

Lemma hoare_each {A} (I : assertion) (f : A -> M unit) l :
  (forall x, x ∈ l -> hoare I I (f x) (fun _ => I)) -> hoare I I (each f l) (fun _ => I).
Proof.
  induction l as [|x l IH]; intros Hf; cbn [each]; [by apply hoare_ret|].
  apply (hoare_bind _ _ _ _ (fun _ => I)); [apply Hf; by left|]. intros _. apply IH. intros y Hy. apply Hf. by right.
Qed.

Lemma hoare_from {A} (I P : assertion) (m : M A) (Q : A -> assertion) (F : Prop) :
  (forall t s, P t s -> F) -> (F -> hoare I P m Q) -> hoare I P m Q.
Proof. intros HF Hm w r w' HP. apply Hm; [by eapply HF|done]. Qed.

Create HintDb quiet.
Lemma silent_ret {A} (a : A) : silent (mret a).
Proof. done. Qed.
Lemma silent_throw {A} e : silent (throw e : M A).
Proof. done. Qed.
Lemma silent_lift {A} (x : outcome A) : silent (lift x).
Proof. done. Qed.
Lemma silent_get {A} (f : tables -> A) : silent (get f).
Proof. done. Qed.
Lemma silent_modify f : silent (modify f).
Proof. done. Qed.
Lemma silent_require b e : silent (require b e).
Proof. by destruct b. Qed.
Lemma silent_encode `{Database} m : silent (encode_map m).
Proof. intros w. unfold encode_map. by destruct (jsonb m). Qed.
#[local] Hint Resolve silent_bind silent_ret silent_throw silent_lift silent_get silent_modify silent_require silent_encode : quiet.

(** ** What the dispatcher does to the delivery table *)

#[local] Notation delivery_table := (gmap (Scope * string) NotificationDelivery).
Definition dassert : Type := delivery_table -> list DeliveryRequest -> Prop.
Definition on (J : dassert) : assertion := fun t s => J (deliveries t) s.
Definition request_key (r : DeliveryRequest) : Scope * string := (Request_Scope r, DeliveryID r).

(** Rows are filed under their own scope and identifier, and so are their requests. *)
Definition filed (m : delivery_table) : Prop := forall k x, m !! k = Some x -> delivery_key x = k /\ request_key (Request x) = k.

Section table_rules.
Context `{Digest} `{FloatText} `{Database}.
Implicit Types (J : dassert).

Notation any := (fun _ _ => True : Prop).

Lemma insert_audit_rule J r : hoare any (on J) (insert_audit r) (fun _ => on J).
Proof.
  intros w x w' HJ Hr. split; [done|]. intros [] ->. apply insert_audit_Ok in Hr as Hd. destruct Hd as (details & _ & Hd).
  assert (Hs : sent w' = sent w).
  { revert Hr. unfold insert_audit. intros Hr. apply run_bind_Ok in Hr as (m & w1 & [_ ->]%encode_map_Ok & Hr).
    mstep Hr. mstep Hr. by apply modify_Ok in Hr as ->. }
  unfold on in *. rewrite Hd, Hs. exact HJ.
Qed.

Lemma notification_audit_rule J r : hoare any (on J) (appendNotificationAudit r) (fun _ => on J).
Proof.
  apply (hoare_bind _ _ _ _ (fun _ => on J)).
  - eapply hoare_weaken; [by apply hoare_lift|done|]. by intros a t s [HJ _].
  - intros _. apply insert_audit_rule.
Qed.

(** A modification of the delivery table as an assertion transformer. *)
Lemma set_deliveries_rule (P : assertion) f (Q : assertion) :
  (forall t s, P t s -> Q (set_deliveries f t) s) -> hoare any P (modify (set_deliveries f)) (fun _ => Q).
Proof. intros HQ w r w' HP [= <- <-]. split; [done|]. intros ? _. by apply HQ. Qed.

Lemma reserve_body_rule J d labels audit :
  hoare any (on J) (reserve_body d labels audit)
    (fun b t s => if (b : bool) then exists m, J m s /\ m !! delivery_key d = None /\ deliveries t = <[delivery_key d := stored_delivery d labels]> m else on J t s).
Proof.
  unfold reserve_body. eapply hoare_bind; [by apply hoare_get|]. cbn beta. intros taken. destruct taken.
  - apply hoare_ret; [done|]. by intros t s [HJ _].
  - set (R := fun (t : tables) s => exists m, J m s /\ m !! delivery_key d = None /\ deliveries t = <[delivery_key d := stored_delivery d labels]> m).
    apply (hoare_bind _ _ _ _ (fun _ => R)).
    + apply set_deliveries_rule. intros t s [HJ Hf]. symmetry in Hf. apply orb_false_iff in Hf as [_ Hf]. apply bool_decide_eq_false in Hf.
      exists (deliveries t). split; [done|]. split; [by apply eq_None_not_Some|done].
    + intros _. apply (hoare_bind _ _ _ _ (fun _ => R)).
      * destruct audit as [r|]; [|by apply hoare_ret].
        apply (hoare_weaken _ _ (on (fun m' s => exists m, J m s /\ m !! delivery_key d = None /\ m' = <[delivery_key d := stored_delivery d labels]> m)) _ _
          (fun _ => on (fun m' s => exists m, J m s /\ m !! delivery_key d = None /\ m' = <[delivery_key d := stored_delivery d labels]> m)));
          [apply notification_audit_rule|done|done].
      * intros _. by apply hoare_ret.
Qed.

Lemma update_body_rule J d audit :
  hoare any (on J) (update_body d audit)
    (fun _ => on (fun m' s => exists m x, J m s /\ m !! delivery_key d = Some x /\ Status x = DeliveryAttempting /\ m' = <[delivery_key d := updated_row x d]> m)).
Proof.
  unfold update_body. eapply hoare_bind; [by apply hoare_get|]. cbn beta. intros [x|]; [|by apply hoare_throw].
  destruct (bool_decide (Status x = DeliveryAttempting) && bool_decide (LeaseOwner x = ClaimOwner d)) eqn:E; [|by apply hoare_throw]. bool_simpl.
  eapply (hoare_bind _ _ _ _ (fun _ => on (fun m' s => exists m x, J m s /\ m !! delivery_key d = Some x /\ Status x = DeliveryAttempting /\ m' = <[delivery_key d := updated_row x d]> m)));
    [|intros u; apply notification_audit_rule].
  apply set_deliveries_rule. intros t s [HJ Hx]. exists (deliveries t), x. done.
Qed.

Lemma claim_body_rule J at_ owner until :
  hoare any (on J) (claim_body at_ owner until 1)
    (fun l => on (fun m' s => (l = [] /\ J m' s) \/
       exists m k x, J m s /\ m !! k = Some x /\ claimable at_ (k, x) = true /\ l = [claimed_row at_ owner until x] /\ m' = <[k := claimed_row at_ owner until x]> m)).
Proof.
  unfold claim_body. eapply hoare_bind; [by apply hoare_get|]. cbn beta. intros due.
  apply (hoare_bind _ _ _ _ (fun _ => on (fun m' s => exists m, J m s /\ m' = foldr (fun kv m => <[fst kv := claimed_row at_ owner until (snd kv)]> m) m due
           /\ (length due <= 1)%nat /\ forall kv, kv ∈ due -> m !! fst kv = Some (snd kv) /\ claimable at_ kv = true))).
  - apply set_deliveries_rule. intros t s [HJ ->]. exists (deliveries t). split_and!; [done|done|rewrite length_take; lia|].
    intros kv Hkv. apply elem_of_take in Hkv as (i & Hi & _). apply list_elem_of_lookup_2 in Hi.
    rewrite (merge_sort_Permutation due_first), list_elem_of_filter in Hi. destruct Hi as [Hc Hin]. split; [|done].
    apply elem_of_map_to_list. by destruct kv.
  - intros _. apply hoare_ret; [done|]. intros t s (m & HJ & Hm & Hlen & Hdue). unfold on. destruct due as [|[k x] [|y l]]; [left|right|cbn in Hlen; lia].
    + split; [done|]. cbn in Hm. by rewrite Hm.
    + destruct (Hdue (k, x)) as [Hx Hc]; [by left|]. exists m, k, x. done.
Qed.

Lemma Deliver_rule J r : hoare any (on J) (Deliver r) (fun _ => on (fun m s => exists s0, J m s0 /\ s = s0 ++ [r])).
Proof.
  intros w x w' HJ. unfold Deliver. destruct (replies w); intros [= <- <-]; (split; [done|]); intros ? _; exists (sent w); done.
Qed.

Lemma reserve_body_silent d labels audit : silent (reserve_body d labels audit).
Proof.
  apply silent_bind; [done|]. intros [|]; [done|]. apply silent_bind; [done|]. intros _. apply silent_bind; [|done].
  destruct audit; [|done]. unfold appendNotificationAudit, insert_audit. eauto 8 with quiet.
Qed.

Lemma update_body_silent d audit : silent (update_body d audit).
Proof.
  apply silent_bind; [done|]. intros [x|]; [|done]. destruct (_ && _); [|done]. apply silent_bind; [done|]. intros _.
  unfold appendNotificationAudit, insert_audit. eauto 8 with quiet.
Qed.

Lemma claim_body_silent at_ owner until n : silent (claim_body at_ owner until n).
Proof. unfold claim_body. eauto 8 with quiet. Qed.

(** A reservation from an invariant: the new row, if it is reserved, turns the invariant into [R]. *)
Lemma reserve_outcome_rule (I R : dassert) d audit : (forall m s, R m s -> I m s) ->
  (forall labels m s, I m s -> m !! delivery_key d = None -> 1 <= Attempts d -> R (<[delivery_key d := stored_delivery d labels]> m) s) ->
  hoare (on I) (on I) (ReserveNotificationDelivery d audit) (fun b => if (b : bool) then on R else on I).
Proof.
  intros HR Hnew. unfold ReserveNotificationDelivery. eapply hoare_bind; [by apply hoare_lift|]. cbn beta. intros u.
  apply (hoare_from _ _ _ _ (1 <= Attempts d)).
  { intros t s [_ Hv]. unfold validateNotificationDelivery in Hv. cbv zeta in Hv. case_hyp Hv. bool_simpl. lia. }
  intros Ha. apply (hoare_bind _ _ _ _ (fun _ => on I)).
  { destruct audit as [r|]; [|apply hoare_ret; by intros t s []]. apply (hoare_bind _ _ _ _ (fun _ => on I)).
    - eapply hoare_weaken; [by apply hoare_require|by intros t s []|by intros a t s []].
    - intros _. eapply hoare_weaken; [by apply hoare_lift|done|by intros a t s []]. }
  intros _. apply (hoare_bind _ _ _ _ (fun _ => on I)).
  { unfold encode_map. destruct (jsonb _); [by apply hoare_ret|by apply hoare_throw]. }
  intros labels. apply hoare_transaction; [|apply reserve_body_silent|done|intros [|] t s; [apply HR|done]].
  eapply hoare_weaken; [apply (reserve_body_rule I)|done|]. intros [|] t s; [|done].
  intros (m & HI & Hnone & Ht). unfold on. rewrite Ht. by apply Hnew.
Qed.

(** [UpdateNotificationDelivery] from an assertion that the update turns into [J]. *)
Lemma update_rule (I P J : dassert) d audit : (forall m s, P m s -> I m s) -> (forall m s, J m s -> I m s) ->
  (forall m s x, P m s -> m !! delivery_key d = Some x -> Status x = DeliveryAttempting -> J (<[delivery_key d := updated_row x d]> m) s) ->
  hoare (on I) (on P) (UpdateNotificationDelivery d audit) (fun _ => on J).
Proof.
  intros HP HJ Hup. unfold UpdateNotificationDelivery. apply (hoare_bind _ _ _ _ (fun _ => on P)).
  { eapply hoare_weaken; [apply hoare_lift; intros t s; apply HP|done|by intros a t s []]. }
  intros _. apply (hoare_bind _ _ _ _ (fun _ => on P)).
  { eapply hoare_weaken; [apply hoare_require; intros t s; apply HP|done|by intros a t s []]. }
  intros _. apply (hoare_bind _ _ _ _ (fun _ => on P)).
  { eapply hoare_weaken; [apply hoare_lift; intros t s; apply HP|done|by intros a t s []]. }
  intros _. apply hoare_transaction; [|apply update_body_silent|intros t s; apply HP|intros a t s; apply HJ].
  eapply hoare_weaken; [apply (update_body_rule P)|done|]. intros a t s (m & x & HPm & Hx & Hs & Ht). unfold on. rewrite Ht. by apply Hup.
Qed.
(** Reading changes nothing. *)
Lemma GetRule_rule (P : assertion) scope id : hoare P P (GetRule scope id) (fun _ => P).
Proof.
  unfold GetRule. apply (hoare_bind _ _ _ _ (fun _ => P)); [eapply hoare_weaken; [by apply hoare_lift|done|by intros ? ? ? []]|].
  intros _. eapply hoare_bind; [by apply hoare_query|]. cbn beta. intros [x|]; [apply hoare_ret|apply hoare_throw]; by intros ? ? [].
Qed.

Lemma ListNotificationRoutes_rule (P : assertion) scope id :
  hoare P P (ListNotificationRoutes scope id) (fun routes t s => P t s /\ routes = rule_routes scope id t).
Proof.
  unfold ListNotificationRoutes. apply (hoare_bind _ _ _ _ (fun _ => P)); [eapply hoare_weaken; [by apply hoare_lift|done|by intros ? ? ? []]|].
  intros _. case_goal; [by apply hoare_throw|]. by apply hoare_query.
Qed.

Lemma ListActiveSilences_rule (P : assertion) scope at_ : hoare P P (ListActiveSilences scope at_) (fun _ => P).
Proof.
  unfold ListActiveSilences. apply (hoare_bind _ _ _ _ (fun _ => P)); [eapply hoare_weaken; [by apply hoare_lift|done|by intros ? ? ? []]|].
  intros _. case_goal; [by apply hoare_throw|]. eapply hoare_weaken; [by apply hoare_query|done|by intros ? ? ? []].
Qed.

(** A failure between steps that only read leaves a state that may be weakened. *)
Lemma hoare_conseq {A} (I I' P : assertion) (m : M A) (Q : A -> assertion) : hoare I P m Q -> (forall t s, I t s -> I' t s) -> hoare I' P m Q.
Proof. intros Hm HI w r w' HP Hr. destruct (Hm _ _ _ HP Hr). auto. Qed.

(** [RecordOrphanedEvent] writes an audit record only. *)
Lemma RecordOrphanedEvent_rule J event at_ : hoare (on J) (on J) (RecordOrphanedEvent event at_) (fun _ => on J).
Proof.
  unfold RecordOrphanedEvent. cbv zeta. case_goal; [by apply hoare_throw|].
  eapply (hoare_bind _ _ _ _ (fun _ => on J)).
  { unfold encode_map. destruct (jsonb _); [by apply hoare_ret|by apply hoare_throw]. }
  intros details. apply hoare_transaction; [| |done|done].
  - eapply hoare_bind; [by apply hoare_get|]. cbn beta. intros [|]; [apply hoare_ret; [done|by intros t s []]|].
    intros w r w' [HI _] [= <- <-]. by split; [|intros].
  - apply silent_bind; [done|]. by intros [|].
Qed.
End table_rules.

(** ** Examples *)

Module NotificationDemo.
Import StoreDemo.

(** A digest of 32 bytes that separates the keys of the examples. *)
Definition folded (l : list Z) : Z := foldl (fun h b => (h * 257 + b + 1) mod 2 ^ 256) 0 l.
#[local] Instance folded_digest : Digest := { sha256 l := let h := folded l in (fun i => Z.shiftr h (8 * Z.of_nat i) mod 256) <$> seq 0 32 }.

Definition policy : NotificationPolicy :=
  {| Policy_ID := "policy-1"; Policy_Scope := ModelDemo.scope; Policy_Name := "on call"; Policy_Channel := "in_app"; Policy_Target := "oncall"; Policy_SecretRef := EmptyString;
     Policy_TemplateID := "template-1"; Policy_Severities := ["warning"%string]; Policy_MatchLabels := ∅; Policy_WindowStartUTC := EmptyString; Policy_WindowEndUTC := EmptyString;
     Policy_Enabled := true; Policy_CreatedAt := ModelDemo.at_second 1; Policy_UpdatedAt := ModelDemo.at_second 1 |}.
Definition template : NotificationTemplate :=
  {| Template_ID := "template-1"; Template_Scope := ModelDemo.scope; Template_Name := "plain"; Template_Subject := "{{event.state}} on {{ resource.instance }}";
     Template_Body := "{{event.id}}"; Revision := 1; LegacyVersionFromUpdatedAt := false; Template_CreatedAt := ModelDemo.at_second 1; Template_UpdatedAt := ModelDemo.at_second 1 |}.
Definition disp : Dispatcher := NewDispatcher [Some "in_app"%string; None] None (Some (replicate 12 1)).
Definition configured : tables :=
  Tables ∅ rule_table [] [] {[ (ModelDemo.scope, "policy-1"%string) := policy ]}
    {[ (ModelDemo.scope, "template-1"%string) := template ]} [] ∅.
Definition start : world := World configured [] EvaluatorDemo.random_bytes [] [].

End NotificationDemo.
