(* ===== verification/AlertDispatch.v ===== *)
(** * The alert dispatcher

    [Dispatch] and [RetryDue] of [alert/notification.go] as programs over the
    calls of the repository, the channels and the clock ([AlertNotification]
    has what a call does).  The control plane runs them in different goroutines
    and processes: a system of runs takes one call of one run at a time, each
    with its own clock, while the rest of the program changes other tables, and
    runs may die.  Whatever the runs do to each other, a settled delivery keeps
    its row, and the requests sent under its key are counted by its attempts. *)

From Stdlib Require Import Ascii.
From S2P Require Import Prelude Programs GoText AlertModel AlertStore AlertEvaluator AlertNotification.

Open Scope Z_scope.

(** Replies of calls; written out, since programs quantify over them. *)
Abbreviation outcome := (result AlertError).

Section dispatch.
Context `{Digest} `{FloatText} `{Database}.

(** ** Calls *)

Inductive notify_call : Type -> Type :=
  | NNow : notify_call time
  | NGetRule (scope : Scope) (id : string) : notify_call (outcome AlertRule)
  | NListRoutes (scope : Scope) (ruleID : string) : notify_call (outcome (list NotificationRoute))
  | NListSilences (scope : Scope) (at_ : time) : notify_call (outcome (list Silence))
  | NOrphaned (event : AlertEvent) (at_ : time) : notify_call (outcome unit)
  | NReserve (d : NotificationDelivery) (audit : option AuditRecord) : notify_call (outcome bool)
  | NUpdate (d : NotificationDelivery) (audit : AuditRecord) : notify_call (outcome unit)
  | NClaim (at_ : time) (owner : string) (until : time) (limit : Z) : notify_call (outcome (list NotificationDelivery))
  | NDeliver (r : DeliveryRequest) : notify_call (outcome channel_reply).

Definition exec {A} (clock : time) (c : notify_call A) (w : world) : A * world :=
  match c in notify_call A return A * world with
  | NNow => (clock, w)
  | NGetRule scope id => GetRule scope id w
  | NListRoutes scope id => ListNotificationRoutes scope id w
  | NListSilences scope at_ => ListActiveSilences scope at_ w
  | NOrphaned event at_ => RecordOrphanedEvent event at_ w
  | NReserve d audit => ReserveNotificationDelivery d audit w
  | NUpdate d audit => UpdateNotificationDelivery d audit w
  | NClaim at_ owner until limit => ClaimDueNotificationDeliveries at_ owner until limit w
  | NDeliver r => Deliver r w
  end.

#[local] Notation nprog A := (prog notify_call A).
Open Scope prog_scope.
Definition call {A} (c : notify_call A) : nprog A := Call c Return.

(** ** Attempts *)

Definition finishAttempt (d : NotificationDelivery) (at_ : time) : nprog (outcome unit) :=
  let! reply := NDeliver (Request d) in
  match attempt_outcome d reply at_ with
  | Some (d', action) => call (NUpdate d' (notificationAudit d' action at_))
  | None => Return (Err ErrExternal)
  end.

Definition recordConfigurationFailure (disp : Dispatcher) (route : NotificationRoute) (event : AlertEvent) (state : string) (at_ : time) (failureClass : string) : nprog (outcome unit) :=
  let d := with_lease (newNotificationDelivery (suppressedDeliveryRequest route "unknown" event state) event at_) (Dispatcher_workerID disp) (AddDuration at_ (lease disp)) in
  let! reserved := NReserve d None in
  if negb reserved then Return (Ok tt)
  else
    let d := with_status d DeliveryAbandoned (AttemptedAt d) (NextAttemptAt d) (DeliveredAt d) failureClass (LeaseOwner d) (LeaseExpiresAt d) in
    call (NUpdate d (notificationAudit d "delivery.abandoned" at_)).

(** ** [Dispatch] *)

(** One route. *)
Definition dispatch_route (disp : Dispatcher) (rule : AlertRule) (silences : list Silence) (event : AlertEvent) (state : string) (now : time) (route : NotificationRoute) : nprog (outcome unit) :=
  if negb (bool_decide (Policy_Scope (Policy route) = Event_Scope event)) then Return (Err ErrNotificationScopeMismatch)
  else if negb (routeMatches route rule event now) then Return (Ok tt)
  else if matchingSilence silences event now then
    let d := newNotificationDelivery (suppressedDeliveryRequest route (Severity rule) event state) event now in
    let d := with_status d DeliverySuppressed (AttemptedAt d) (NextAttemptAt d) (DeliveredAt d) (FailureClass d) (LeaseOwner d) (LeaseExpiresAt d) in
    let! _reserved := NReserve d (Some (notificationAudit d "delivery.suppressed" now)) in
    Return (Ok tt)
  else if empty_string (Template_ID (Template route)) then recordConfigurationFailure disp route event state now "template_missing"
  else if negb (bool_decide (Template_Scope (Template route) = Event_Scope event)) || negb (bool_decide (Template_ID (Template route) = Policy_TemplateID (Policy route)))
       then recordConfigurationFailure disp route event state now "template_scope"
  else if negb (bool_decide (Policy_Channel (Policy route) ∈ channels disp)) then recordConfigurationFailure disp route event state now "channel_validation"
  else match deliveryRequest disp route rule event state with
       | Err _ => recordConfigurationFailure disp route event state now "template_validation"
       | Ok request =>
           let d := with_lease (newNotificationDelivery request event now) (Dispatcher_workerID disp) (AddDuration now (lease disp)) in
           let! reserved := NReserve d None in
           if negb reserved then Return (Ok tt) else finishAttempt d now
       end.

(** The loop over the routes ends at the first error. *)
Fixpoint dispatch_routes (disp : Dispatcher) (rule : AlertRule) (silences : list Silence) (event : AlertEvent) (state : string) (now : time) (routes : list NotificationRoute) : nprog (outcome unit) :=
  match routes with
  | [] => Return (Ok tt)
  | route :: rest =>
      let? _done := dispatch_route disp rule silences event state now route in
      dispatch_routes disp rule silences event state now rest
  end.

(** The clock is read once, at the start. *)
Definition Dispatch (disp : Dispatcher) (event : AlertEvent) (state : string) : nprog (outcome unit) :=
  if negb (is_ok (AlertEvent_Validate event)) || negb (bool_decide (state = State event)) then Return (Err ErrInvalidNotification)
  else
    let* clock := NNow in
    let now := UTC clock in
    let* found := NGetRule (Event_Scope event) (RuleID event) in
    match found with
    | Err ErrNotFound => call (NOrphaned event now)
    | Err e => Return (Err e)
    | Ok rule =>
        if negb (bool_decide (Rule_Scope rule = Event_Scope event)) then Return (Err ErrNotificationScopeMismatch)
        else
          let! routes := NListRoutes (Event_Scope event) (RuleID event) in
          let! silences := NListSilences (Event_Scope event) now in
          dispatch_routes disp rule silences event state now routes
    end.

(** ** [RetryDue] *)

(** One claimed delivery; an error is collected, not returned. *)
Definition retry_one (disp : Dispatcher) (at_ claimAt : time) (d : NotificationDelivery) : nprog (outcome unit) :=
  if negb (bool_decide (Delivery_Scope d = Request_Scope (Request d))) || negb (bool_decide (Status d = DeliveryAttempting))
     || negb (bool_decide (LeaseOwner d = Dispatcher_workerID disp)) then Return (Err ErrInvalidNotification)
  else if negb (bool_decide (Channel (Request d) ∈ channels disp)) then
    let d := with_status d DeliveryAbandoned (AttemptedAt d) zero_time (DeliveredAt d) "channel_validation" EmptyString zero_time in
    call (NUpdate d (notificationAudit d "delivery.abandoned" at_))
  else
    let! _updated := NUpdate d (notificationAudit d "delivery.retrying" claimAt) in
    finishAttempt d claimAt.

Definition claim_instant (at_ clock : time) : time := if Before (UTC clock) (UTC at_) then UTC at_ else UTC clock.

(** At most [remaining] deliveries, claimed one after the other; the clock is read for each. *)
Fixpoint retry_loop (disp : Dispatcher) (at_ : time) (remaining : nat) (errors : list AlertError) : nprog (outcome (list AlertError)) :=
  match remaining with
  | O => Return (Ok errors)
  | S remaining =>
      let* clock := NNow in
      let claimAt := claim_instant at_ clock in
      let* claimed := NClaim claimAt (Dispatcher_workerID disp) (AddDuration claimAt (lease disp)) 1 in
      match claimed with
      | Err e => Return (Ok (errors ++ [e]))
      | Ok [] => Return (Ok errors)
      | Ok [d] =>
          let- done_ := retry_one disp at_ claimAt d in
          retry_loop disp at_ remaining (match done_ with Ok _ => errors | Err e => errors ++ [e] end)
      | Ok _ => Return (Ok (errors ++ [ErrInvalidNotification]))
      end
  end.

(** The joined errors. *)
Definition RetryDue (disp : Dispatcher) (at_ : time) : nprog (outcome (list AlertError)) :=
  if IsZero at_ then Return (Err ErrInvalidNotification) else retry_loop disp at_ (batchSize disp) [].

(** ** Systems of runs *)

(** The slots of a system of dispatchers; a slot whose run has ended is free. *)
Record system := System { shared : world; runs : nat -> nprog unit }.

Definition put_run (i : nat) (p : nprog unit) (rs : nat -> nprog unit) : nat -> nprog unit := fun j => if Nat.eqb j i then p else rs j.
Definition perform (i : nat) (clock : time) (s : system) : option system :=
  match runs s i with
  | Call c k => let '(a, w) := exec clock c (shared s) in Some (System w (put_run i (k a) (runs s)))
  | Return _ => None
  end.
Definition start_run (i : nat) (p : nprog unit) (s : system) : option system :=
  match runs s i with Return _ => Some (System (shared s) (put_run i p (runs s))) | Call _ _ => None end.
Definition dispatch_run (disp : Dispatcher) (event : AlertEvent) (state : string) : nprog unit := let- _r := Dispatch disp event state in Return tt.
Definition retry_run (disp : Dispatcher) (at_ : time) : nprog unit := let- _r := RetryDue disp at_ in Return tt.

(** Any dispatcher starts a run, a run takes a call, a run dies; and anything else changes in the world but the deliveries and
    the requests that were sent: other tables, and the answers that the database and the channels will give. *)
Inductive dispatch_step (s : system) : system -> Prop :=
  | step_dispatch i disp event state s' : start_run i (dispatch_run disp event state) s = Some s' -> dispatch_step s s'
  | step_retry i disp at_ s' : start_run i (retry_run disp at_) s = Some s' -> dispatch_step s s'
  | step_call i clock s' : perform i clock s = Some s' -> dispatch_step s s'
  | step_dies i : dispatch_step s (System (shared s) (put_run i (Return tt) (runs s)))
  | step_other w : deliveries (db w) = deliveries (db (shared s)) -> sent w = sent (shared s) -> dispatch_step s (System w (runs s)).

(** A program that runs alone. *)
Fixpoint perform_all {A} (clock : time) (p : nprog A) (w : world) : A * world :=
  match p with Return a => (a, w) | Call c k => let '(b, w) := exec clock c w in perform_all clock (k b) w end.
End dispatch.
#[global] Arguments perform {_ _ _}. 

(** ** What a run may do *)

Notation key := (Scope * string)%type.
(** A run has nothing to send, may send one request under a key that it reserved or claimed, or has sent it. *)
Inductive duty := Idle | MaySend (k : key) | HasSent (k : key).
#[global] Instance duty_eq_dec : EqDecision duty.
Proof. solve_decision. Defined.

Section logic.
Context `{Digest} `{FloatText} `{Database}.
#[local] Notation nprog A := (prog notify_call A).

(** What a run must hold for a call, what it knows of the reply, and what it holds after it. *)
Definition call_ok {A} (u : duty) (c : notify_call A) : Prop :=
  match c with
  | NReserve d _ => request_key (Request d) = delivery_key d /\ (Status d = DeliveryAttempting \/ Status d = DeliverySuppressed)
  | NUpdate d _ => Status d <> DeliverySuppressed /\ (Status d = DeliveryDelivered -> u = HasSent (delivery_key d))
  | NClaim _ _ _ limit => limit = 1
  | NDeliver r => u = MaySend (request_key r)
  | _ => True
  end.
Definition reply_ok {A} (c : notify_call A) : A -> Prop :=
  match c in notify_call A return A -> Prop with
  | NClaim _ _ _ _ => fun b => forall d, b = Ok [d] -> request_key (Request d) = delivery_key d
  | _ => fun _ => True
  end.
Definition yields {A} (u : duty) (c : notify_call A) : A -> duty :=
  match c in notify_call A return A -> duty with
  | NReserve d _ => fun b => match b with Ok true => if bool_decide (Status d = DeliveryAttempting) then MaySend (delivery_key d) else Idle | _ => Idle end
  | NClaim _ _ _ _ => fun b => match b with Ok [d] => MaySend (delivery_key d) | _ => Idle end
  | NDeliver r => fun _ => HasSent (request_key r)
  | _ => fun _ => u
  end.

Fixpoint obeys {A} (Q : duty -> A -> Prop) (u : duty) (p : nprog A) : Prop :=
  match p with
  | Return a => Q u a
  | Call c k => call_ok u c /\ forall b, reply_ok c b -> obeys Q (yields u c b) (k b)
  end.

Lemma obeys_weaken {A} (Q Q' : duty -> A -> Prop) p : forall u, obeys Q u p -> (forall u a, Q u a -> Q' u a) -> obeys Q' u p.
Proof. induction p as [a|B c k IH]; intros u Hp Hq; cbn in *; [auto|]. destruct Hp as [Hc Hp]. split; [done|]. intros b Hb. apply IH; auto. Qed.
Lemma obeys_bind {A B} (Q : duty -> B -> Prop) (f : A -> nprog B) p : forall u, obeys (fun u a => obeys Q u (f a)) u p -> obeys Q u (prog_bind f p).
Proof. induction p as [a|C c k IH]; intros u Hp; cbn in *; [done|]. destruct Hp as [Hc Hp]. split; [done|]. intros b Hb. by apply IH, Hp. Qed.

(** Whatever a run does next is its own affair. *)
Abbreviation free := (fun (_ : duty) _ => True).

Lemma attempt_outcome_spec d reply at_ d' action : attempt_outcome d reply at_ = Some (d', action) ->
  delivery_key d' = delivery_key d /\ Status d' <> DeliverySuppressed /\ (Status d' = DeliveryRetryScheduled -> Attempts d <= 3).
Proof.
  unfold attempt_outcome. intros Ho. destruct reply as [|class retryable|]; [by injection Ho as <- _|..];
    (case_hyp Ho; [case_hyp Ho; case_hyp Ho|]; injection Ho as <- _; (split; [done|]); split; try discriminate).
  - intros _. bool_simpl. cbn in *. lia.
Qed.

Lemma obeys_finish d at_ : request_key (Request d) = delivery_key d -> obeys free (MaySend (delivery_key d)) (finishAttempt d at_).
Proof.
  intros Hk. unfold finishAttempt. cbn. split; [by rewrite Hk|]. intros [reply|e] _; [|done]. destruct (attempt_outcome d reply at_) as [[d' action]|] eqn:E; [|done].
  destruct (attempt_outcome_spec _ _ _ _ _ E) as (Hkey & Hsup & _). cbn. split; [|done]. split; [done|]. intros _. by rewrite Hkey, Hk.
Qed.

Lemma request_key_new request event now : Request_Scope request = Event_Scope event ->
  request_key (Request (newNotificationDelivery request event now)) = delivery_key (newNotificationDelivery request event now).
Proof. intros Hs. unfold request_key, delivery_key. cbn. by rewrite Hs. Qed.
Lemma deliveryRequest_scope disp route rule event state request : deliveryRequest disp route rule event state = Ok request -> Request_Scope request = Event_Scope event.
Proof. unfold deliveryRequest. cbv zeta. intros Hr. case_hyp Hr. case_hyp Hr. by injection Hr as <-. Qed.

Lemma obeys_configuration_failure disp route event state at_ class u : obeys free u (recordConfigurationFailure disp route event state at_ class).
Proof.
  unfold recordConfigurationFailure. cbv zeta. cbn [obeys]. split; [split; [by apply request_key_new|by left]|]. intros [[|]|e] _; cbn; [|done..]. split; [|done]. by split.
Qed.

Lemma obeys_route disp rule silences event state now route u : obeys free u (dispatch_route disp rule silences event state now route).
Proof.
  unfold dispatch_route. cbv zeta. case_goal; [done|]. case_goal; [done|]. case_goal.
  { cbn [obeys]. split; [split; [by apply request_key_new|by right]|]. by intros [b|e] _. }
  case_goal; [apply obeys_configuration_failure|]. case_goal; [apply obeys_configuration_failure|]. case_goal; [apply obeys_configuration_failure|].
  destruct (deliveryRequest disp route rule event state) as [request|] eqn:Ereq; [|apply obeys_configuration_failure]. apply deliveryRequest_scope in Ereq.
  cbn [obeys]. split; [split; [by apply request_key_new|by left]|]. intros [[|]|e] _; cbn [negb obeys]; [|done..].
  apply obeys_finish. by apply request_key_new.
Qed.
Lemma obeys_routes disp rule silences event state now routes : forall u, obeys free u (dispatch_routes disp rule silences event state now routes).
Proof.
  induction routes as [|route routes IH]; intros u; [done|]. cbn [dispatch_routes]. apply obeys_bind. eapply obeys_weaken; [apply obeys_route|]. intros v [[]|e] _; [apply IH|done].
Qed.
Lemma obeys_Dispatch disp event state u : obeys free u (Dispatch disp event state).
Proof.
  unfold Dispatch. case_goal; [done|]. cbn. split; [done|]. intros clock _. split; [done|]. intros [rule|[]] _; cbn; try done.
  case_goal; [done|]. split; [done|]. intros [routes|e] _; [|done]. split; [done|]. intros [silences|e] _; [|done]. apply obeys_routes.
Qed.

Lemma obeys_retry_one disp at_ claimAt d : request_key (Request d) = delivery_key d -> obeys free (MaySend (delivery_key d)) (retry_one disp at_ claimAt d).
Proof.
  intros Hk. unfold retry_one. cbv zeta. case_goal; [done|]. bool_simpl. case_goal; cbn; [split; [|done]; by split|].
  split; [match goal with Hs : Status d = _ |- _ => rewrite Hs end; by split|]. intros [[]|e] _; [|done]. by apply obeys_finish.
Qed.
Lemma obeys_retry_loop disp at_ n : forall errors u, obeys free u (retry_loop disp at_ n errors).
Proof.
  induction n as [|n IH]; intros errors u; [done|]. cbn [retry_loop obeys]. split; [done|]. intros clock _. split; [done|].
  intros [[|d [|]]|e] Hb; try done. apply obeys_bind. eapply obeys_weaken; [apply obeys_retry_one; by apply Hb|]. intros v a _. apply IH.
Qed.
Lemma obeys_RetryDue disp at_ u : obeys free u (RetryDue disp at_).
Proof. unfold RetryDue. case_goal; [done|]. apply obeys_retry_loop. Qed.

(** ** What a call does to the deliveries *)

#[local] Notation delivery_table := (gmap key NotificationDelivery).
Definition is_now (m : delivery_table) (s : list DeliveryRequest) : dassert := fun m' s' => m' = m /\ s' = s.

Inductive table_change (m : delivery_table) : delivery_table -> Prop :=
  | table_same : table_change m m
  | table_reserved d labels : m !! delivery_key d = None -> table_change m (<[delivery_key d := stored_delivery d labels]> m)
  | table_updated d x : m !! delivery_key d = Some x -> Status x = DeliveryAttempting -> table_change m (<[delivery_key d := updated_row x d]> m)
  | table_claimed at_ owner until k x : m !! k = Some x -> claimable at_ (k, x) = true -> table_change m (<[k := claimed_row at_ owner until x]> m).

(** Reading changes nothing. *)
Lemma hoare_now {A} (m : M A) (Q : A -> assertion) w r w' :
  hoare (on (is_now (deliveries (db w)) (sent w))) (on (is_now (deliveries (db w)) (sent w))) m Q -> m w = (r, w') -> deliveries (db w') = deliveries (db w) /\ sent w' = sent w.
Proof. intros Hm Hr. by destruct (Hm w r w' (conj eq_refl eq_refl) Hr) as [HI _]. Qed.

Lemma reserve_effect d audit w r w' : ReserveNotificationDelivery d audit w = (r, w') -> sent w' = sent w /\
  ((deliveries (db w') = deliveries (db w) /\ r <> Ok true) \/
   (deliveries (db w) !! delivery_key d = None /\ 1 <= Attempts d /\ exists labels, deliveries (db w') = <[delivery_key d := stored_delivery d labels]> (deliveries (db w)))).
Proof.
  intros Hr. set (m0 := deliveries (db w)). set (s0 := sent w).
  set (R := fun (m : delivery_table) s => s = s0 /\ m0 !! delivery_key d = None /\ 1 <= Attempts d /\ exists labels, m = <[delivery_key d := stored_delivery d labels]> m0).
  set (I := fun m s => is_now m0 s0 m s \/ R m s).
  assert (HR : forall m s, R m s -> I m s) by (intros; by right).
  destruct (reserve_outcome_rule I R d audit HR) with (w := w) (r := r) (w' := w') as [HI HQ]; [|by left|exact Hr|].
  { intros labels m s [[-> ->]|(-> & _ & _ & l & ->)] Hnone Ha; [|by rewrite lookup_insert_eq in Hnone]. split_and!; try done. by exists labels. }
  destruct HI as [[Hm Hs]|(Hs & F1 & F2 & F3)]; [|split; [done|by right]]. split; [done|]. destruct r as [[|]|e]; try (left; by split).
  destruct (HQ true eq_refl) as (_ & F1 & F2 & F3). by right.
Qed.

Lemma update_effect d audit w r w' : UpdateNotificationDelivery d audit w = (r, w') -> sent w' = sent w /\
  (deliveries (db w') = deliveries (db w) \/
   exists x, deliveries (db w) !! delivery_key d = Some x /\ Status x = DeliveryAttempting /\ deliveries (db w') = <[delivery_key d := updated_row x d]> (deliveries (db w))).
Proof.
  intros Hr. set (m0 := deliveries (db w)). set (s0 := sent w).
  set (J := fun (m : delivery_table) s => s = s0 /\ exists x, m0 !! delivery_key d = Some x /\ Status x = DeliveryAttempting /\ m = <[delivery_key d := updated_row x d]> m0).
  set (I := fun m s => is_now m0 s0 m s \/ J m s).
  destruct (update_rule I (is_now m0 s0) J d audit) with (w := w) (r := r) (w' := w') as [[[Hm Hs]|(Hs & HJ)] _]; try done.
  - intros; by left.
  - intros; by right.
  - intros m s x [-> ->] Hx Hst. split; [done|]. by exists x.
  - split; [done|]. by left.
  - split; [done|]. by right.
Qed.

Lemma claim_effect at_ owner until w r w' : ClaimDueNotificationDeliveries at_ owner until 1 w = (r, w') -> sent w' = sent w /\
  ((deliveries (db w') = deliveries (db w) /\ forall d, r <> Ok [d]) \/
   exists k x u, deliveries (db w) !! k = Some x /\ claimable (UTC at_) (k, x) = true /\ deliveries (db w') = <[k := claimed_row (UTC at_) owner u x]> (deliveries (db w)) /\
     forall d, r = Ok [d] -> d = claimed_row (UTC at_) owner u x).
Proof.
  intros Hr. set (m0 := deliveries (db w)). set (s0 := sent w).
  set (T := fun (l : list NotificationDelivery) (m : delivery_table) s => s = s0 /\ ((l = [] /\ m = m0) \/
     exists k x u, m0 !! k = Some x /\ claimable (UTC at_) (k, x) = true /\ m = <[k := claimed_row (UTC at_) owner u x]> m0 /\ l = [claimed_row (UTC at_) owner u x])).
  set (I := fun m s => exists l, T l m s).
  assert (HJ : hoare (on I) (on (is_now m0 s0)) (ClaimDueNotificationDeliveries at_ owner until 1) (fun l => on (T l))).
  { assert (Hnow : forall t s, on (is_now m0 s0) t s -> on I t s) by (intros t s [Hm Hs]; exists []; split; [done|by left]).
    unfold ClaimDueNotificationDeliveries. case_goal; [by apply hoare_throw|]. cbv zeta. change (Z.to_nat (if (1 <=? 0) || (500 <? 1) then 100 else 1)) with 1%nat.
    apply (hoare_bind _ _ _ _ (fun l => on (T l))).
    - apply hoare_transaction; [|apply claim_body_silent|done|by intros l t s Ht; exists l].
      eapply hoare_weaken; [apply (claim_body_rule (is_now m0 s0))|done|].
      intros l t s [[-> [Hm Hs]]|(m & k & x & [-> ->] & Hx & Hc & -> & Ht)]; (split; [done|]); [by left|right]. exists k, x, (Truncate (UTC until) microsecond). done.
    - intros l. case_goal; [apply hoare_ret; [by intros t s Ht; exists l|done]|apply hoare_throw; by intros t s Ht; exists l]. }
  destruct (HJ w r w' (conj eq_refl eq_refl) Hr) as [(l & Hs & Hl) HQ]. split; [done|].
  destruct r as [l'|e].
  - destruct (HQ l' eq_refl) as [_ [[-> Hm]|(k & x & u & Hx & Hc & Hm & ->)]]; [left; by split|]. right. exists k, x, u. split_and!; try done. by intros d [= <-].
  - destruct Hl as [[-> Hm]|(k & x & u & Hx & Hc & Hm & ->)]; [left; by split|]. right. exists k, x, u. by split_and!.
Qed.

(** A call changes the table as its repository does, and only a channel call sends. *)
Lemma exec_quiet {A} clock (c : notify_call A) w a w' : exec clock c w = (a, w') ->
  match c with NReserve _ _ | NUpdate _ _ | NClaim _ _ _ _ | NDeliver _ => True | _ => deliveries (db w') = deliveries (db w) /\ sent w' = sent w end.
Proof.
  destruct c; cbn [exec]; intros Hr; try exact I.
  - by injection Hr as _ <-.
  - eapply hoare_now; [apply GetRule_rule|exact Hr].
  - eapply hoare_now; [|exact Hr]. eapply hoare_weaken; [apply ListNotificationRoutes_rule|done|]. by intros ? ? ? Ht; apply Ht.
  - eapply hoare_now; [apply ListActiveSilences_rule|exact Hr].
  - eapply hoare_now; [apply RecordOrphanedEvent_rule|exact Hr].
Qed.
Lemma Deliver_effect r w a w' : Deliver r w = (a, w') -> deliveries (db w') = deliveries (db w) /\ sent w' = sent w ++ [r].
Proof. unfold Deliver. destruct (replies w); by intros [= <- <-]. Qed.

(** ** The account of requests *)

Definition tally (k : key) (s : list DeliveryRequest) : Z := Z.of_nat (length (filter (fun r => request_key r = k) s)).
Lemma tally_snoc k s r : tally k (s ++ [r]) = tally k s + (if bool_decide (request_key r = k) then 1 else 0).
Proof. unfold tally. rewrite filter_app, length_app, filter_cons, filter_nil. case_bool_decide; [rewrite decide_True by done|rewrite decide_False by done]; cbn; lia. Qed.
Lemma tally_nonneg k s : 0 <= tally k s.
Proof. unfold tally. lia. Qed.

(** The requests that a row accounts for. *)
Definition budget (row : option NotificationDelivery) : Z :=
  match row with None => 0 | Some x => if bool_decide (Status x = DeliverySuppressed) then 0 else Attempts x end.

Definition may (k : key) (u : duty) : Z := if bool_decide (u = MaySend k) then 1 else 0.
Lemma may_nonneg k u : 0 <= may k u.
Proof. unfold may. case_bool_decide; lia. Qed.
Lemma may_le_1 k u : may k u <= 1.
Proof. unfold may. case_bool_decide; lia. Qed.
Lemma may_other k k' : k' <> k -> may k (MaySend k') = 0.
Proof. intros Hk. unfold may. rewrite bool_decide_eq_false_2; [done|]. by intros [= ->]. Qed.
Lemma may_Idle k : may k Idle = 0.
Proof. unfold may. by rewrite bool_decide_eq_false_2. Qed.
Definition holders (k : key) (us : list duty) : Z := foldr (fun u n => may k u + n) 0 us.
Lemma holders_cons k u us : holders k (u :: us) = may k u + holders k us.
Proof. done. Qed.
Lemma holders_insert k us i u u' : us !! i = Some u -> holders k (<[i := u']> us) = holders k us - may k u + may k u'.
Proof.
  revert i. induction us as [|v us IH]; intros [|i] Hi; [done|done| |].
  - change (<[0%nat := u']> (v :: us)) with (u' :: us). rewrite !holders_cons. injection Hi as ->. lia.
  - change (<[S i := u']> (v :: us)) with (v :: <[i := u']> us). rewrite !holders_cons, (IH i Hi). lia.
Qed.
Lemma holders_app k us vs : holders k (us ++ vs) = holders k us + holders k vs.
Proof. induction us as [|v us IH]; [done|]. cbn [app]. rewrite !holders_cons, IH. lia. Qed.
Lemma holders_idle k n : holders k (replicate n Idle) = 0.
Proof. induction n as [|n IH]; [done|]. cbn [replicate]. rewrite holders_cons, IH, may_Idle. done. Qed.
Lemma holders_nonneg k us : 0 <= holders k us.
Proof. induction us as [|v us IH]; [done|]. rewrite holders_cons. unfold may. case_bool_decide; lia. Qed.

(** The tables and what was sent, with the duties of the runs. *)
Record account_ok (m : delivery_table) (s : list DeliveryRequest) (us : list duty) : Prop := {
  ac_filed : filed m;
  ac_count k : tally k s + holders k us <= budget (m !! k);
  ac_sent k : HasSent k ∈ us -> 1 <= tally k s;
  ac_delivered k x : m !! k = Some x -> Status x = DeliveryDelivered -> 1 <= tally k s;
}.
Lemma filed_insert m k x : filed m -> delivery_key x = k -> request_key (Request x) = k -> filed (<[k := x]> m).
Proof. intros Hf Hk Hr k' x' [[<- <-]|[_ Hx]]%lookup_insert_Some; auto. Qed.

(** A run that gives up what it holds, and one that writes a row and may hold its key then. *)
Lemma account_keeps m s us i u u' : account_ok m s us -> us !! i = Some u -> (u' = u \/ u' = Idle) -> account_ok m s (<[i := u']> us).
Proof.
  intros [F1 F2 F3 F4] Hi Hu. split; [done| | |done].
  - intros k. rewrite (holders_insert _ _ _ _ _ Hi). specialize (F2 k). destruct Hu as [-> | ->]; [lia|]. unfold may in *. repeat case_bool_decide; try done; lia.
  - intros k [v Hv]%list_elem_of_lookup. apply F3. apply list_lookup_insert_Some in Hv as [(<- & Hv & _)|[_ Hv]]; [|by eapply list_elem_of_lookup_2].
    destruct Hu as [-> | ->]; [|done]. rewrite Hv in Hi. by eapply list_elem_of_lookup_2.
Qed.
Lemma account_writes m s us i u u' k x : account_ok m s us -> us !! i = Some u -> filed (<[k := x]> m) -> (u' = u \/ u' = Idle \/ u' = MaySend k) ->
  budget (m !! k) + may k u' <= budget (Some x) + may k u -> (Status x = DeliveryDelivered -> 1 <= tally k s) -> account_ok (<[k := x]> m) s (<[i := u']> us).
Proof.
  intros [F1 F2 F3 F4] Hi Hf Hu Hb Hd. split; [done| | |].
  - intros k'. rewrite (holders_insert _ _ _ _ _ Hi). specialize (F2 k'). destruct (decide (k' = k)) as [->|Hne]; [rewrite lookup_insert_eq; lia|].
    rewrite lookup_insert_ne by done. destruct Hu as [->|[-> | ->]]; unfold may in *; repeat case_bool_decide; simplify_eq; try done; lia.
  - intros k' [v Hv]%list_elem_of_lookup. apply F3. apply list_lookup_insert_Some in Hv as [(<- & Hv & _)|[_ Hv]]; [|by eapply list_elem_of_lookup_2].
    destruct Hu as [->|[-> | ->]]; try done. rewrite Hv in Hi. by eapply list_elem_of_lookup_2.
  - intros k' x' [[<- <-]|[_ Hx]]%lookup_insert_Some Hs; [auto|by eapply F4].
Qed.

(** A call keeps the rows at their keys; what is claimed is at its key. *)
Lemma exec_filed {A} clock (c : notify_call A) u w a w' : filed (deliveries (db w)) -> call_ok u c -> exec clock c w = (a, w') -> reply_ok c a /\ filed (deliveries (db w')).
Proof.
  intros Hf Hc Hr. pose proof (exec_quiet _ _ _ _ _ Hr) as Hq. destruct c; try (by destruct Hq as [-> _]); clear Hq; cbn [exec] in Hr; cbn [call_ok] in Hc.
  - split; [done|]. destruct Hc as [Hk _]. apply reserve_effect in Hr as [_ [[-> _]|(_ & _ & labels & ->)]]; [done|by apply filed_insert].
  - split; [done|]. apply update_effect in Hr as [_ [->|(x & Hx & _ & ->)]]; [done|]. destruct (Hf _ _ Hx). by apply filed_insert.
  - subst limit. apply claim_effect in Hr as [_ [[-> Hno]|(k & x & t & Hx & _ & -> & Hone)]]; cbn [reply_ok].
    + split; [intros d ->; by destruct (Hno d)|done].
    + destruct (Hf _ _ Hx) as [F1 F2]. split; [intros d Hd; rewrite (Hone d Hd); cbn; by rewrite F2, <- F1|by apply filed_insert].
  - split; [done|]. by apply Deliver_effect in Hr as [-> _].
Qed.

(** A call keeps the account, with what the run holds after it. *)
Lemma exec_account {A} clock (c : notify_call A) w a w' us i u : account_ok (deliveries (db w)) (sent w) us -> us !! i = Some u -> call_ok u c -> exec clock c w = (a, w') ->
  account_ok (deliveries (db w')) (sent w') (<[i := yields u c a]> us).
Proof.
  intros Hac Hi Hc Hr. pose proof (exec_quiet _ _ _ _ _ Hr) as Hq. pose proof (ac_filed _ _ _ Hac) as Hf. destruct (exec_filed _ _ _ _ _ _ Hf Hc Hr) as [_ Hf'].
  destruct c; try (destruct Hq as [-> ->]; apply (account_keeps _ _ _ _ _ _ Hac Hi); by left); clear Hq; cbn [exec] in Hr; cbn [call_ok] in Hc.
  - destruct Hc as [Hk Hst]. apply reserve_effect in Hr as [-> [[Hm Hno]|(Hnone & Ha & labels & Hm)]]; rewrite Hm in Hf' |- *; cbn [yields].
    + apply (account_keeps _ _ _ _ _ _ Hac Hi). right. by destruct a as [[|]|].
    + eapply account_writes; [exact Hac|exact Hi|exact Hf'| | |].
      * destruct a as [[|]|]; [|by auto..]. case_bool_decide; auto.
      * rewrite Hnone. cbn. pose proof (may_nonneg (delivery_key d) u). destruct Hst as [Hst|Hst]; rewrite Hst; cbn [bool_decide].
        -- rewrite (bool_decide_eq_false_2 (DeliveryAttempting = DeliverySuppressed)) by done. pose proof (may_le_1 (delivery_key d) (match a with Ok true => MaySend (delivery_key d) | _ => Idle end)).
           rewrite (bool_decide_eq_true_2 (DeliveryAttempting = DeliveryAttempting)) by done. lia.
        -- rewrite (bool_decide_eq_true_2 (DeliverySuppressed = DeliverySuppressed)), (bool_decide_eq_false_2 (DeliverySuppressed = DeliveryAttempting)) by done.
           destruct a as [[|]|]; rewrite may_Idle; lia.
      * destruct Hst as [Hst|Hst]; cbn; by rewrite Hst.
  - destruct Hc as [Hsup Hdel]. apply update_effect in Hr as [-> [Hm|(x & Hx & Hst & Hm)]]; rewrite Hm in Hf' |- *; cbn [yields]; [apply (account_keeps _ _ _ _ _ _ Hac Hi); by left|].
    destruct (Hf _ _ Hx) as [F1 F2]. eapply account_writes; [exact Hac|exact Hi|exact Hf'|by left| |].
    + rewrite Hx. cbn. rewrite Hst, (bool_decide_eq_false_2 _ Hsup), (bool_decide_eq_false_2 (DeliveryAttempting = DeliverySuppressed)) by done. lia.
    + intros Hd. apply (ac_sent _ _ _ Hac). rewrite (Hdel Hd) in Hi. by eapply list_elem_of_lookup_2.
  - subst limit. apply claim_effect in Hr as [-> [[Hm Hno]|(k & x & until' & Hx & Hcl & Hm & Hone)]]; rewrite Hm in Hf' |- *; cbn [yields].
    + apply (account_keeps _ _ _ _ _ _ Hac Hi). right. destruct a as [[|d [|]]|]; try done. by destruct (Hno d).
    + destruct (Hf _ _ Hx) as [F1 F2].
      assert (Hy : match a with Ok [d] => MaySend (delivery_key d) | _ => Idle end = Idle \/ match a with Ok [d] => MaySend (delivery_key d) | _ => Idle end = MaySend k).
      { destruct a as [[|d [|]]|]; auto. right. rewrite (Hone d eq_refl). by rewrite <- F1. }
      eapply account_writes; [exact Hac|exact Hi|exact Hf'|by right| |done].
      rewrite Hx. assert (Hsup : bool_decide (Status x = DeliverySuppressed) = false) by (apply bool_decide_eq_false; intros Hs; unfold claimable in Hcl; cbn in Hcl; by rewrite Hs in Hcl).
      cbn. rewrite Hsup. destruct Hy as [-> | ->]; unfold may; repeat case_bool_decide; simplify_eq; lia.
  - apply Deliver_effect in Hr as [-> ->]. cbn [yields]. destruct Hac as [F1 F2 F3 F4]. split; [done| | |].
    + intros k. rewrite tally_snoc, (holders_insert _ _ _ _ _ Hi). specialize (F2 k). subst u. unfold may in *. repeat case_bool_decide; simplify_eq; try done; lia.
    + intros k [v Hv]%list_elem_of_lookup. rewrite tally_snoc. pose proof (tally_nonneg k (sent w)). apply list_lookup_insert_Some in Hv as [(<- & Hv & _)|[_ Hv]].
      * injection Hv as ->. rewrite bool_decide_eq_true_2 by done. lia.
      * pose proof (F3 k (list_elem_of_lookup_2 _ _ _ Hv)). case_bool_decide; lia.
    + intros k x Hx Hs. rewrite tally_snoc. pose proof (F4 k x Hx Hs). case_bool_decide; lia.
Qed.

(** *** Invariants of a system *)

(** A statement about the table, the requests and the duties of the runs that holds whatever a run does. *)
Record keeps (P : delivery_table -> list DeliveryRequest -> list duty -> Prop) : Prop := {
  kp_call A clock (c : notify_call A) w a w' us i u : P (deliveries (db w)) (sent w) us -> us !! i = Some u -> call_ok u c -> exec clock c w = (a, w') ->
    P (deliveries (db w')) (sent w') (<[i := yields u c a]> us);
  kp_idle m s us i u : P m s us -> us !! i = Some u -> P m s (<[i := Idle]> us);
  kp_more m s us n : P m s us -> P m s (us ++ replicate n Idle);
  kp_filed m s us : P m s us -> filed m;
}.
Definition obeying (s : system) (us : list duty) : Prop := forall i, obeys free (default Idle (us !! i)) (runs s i).
Definition runs_keep P (s : system) (us : list duty) : Prop := obeying s us /\ P (deliveries (db (shared s))) (sent (shared s)) us.

Section keeping.
Variable P : delivery_table -> list DeliveryRequest -> list duty -> Prop.
Hypothesis laws : keeps P.

Lemma runs_put s us i u p w : runs_keep P s us -> us !! i <> None -> obeys free u p -> P (deliveries (db w)) (sent w) (<[i := u]> us) ->
  runs_keep P (System w (put_run i p (runs s))) (<[i := u]> us).
Proof.
  intros [Hr _] Hi Hp HP. split; [|exact HP]. cbn. intros j. cbn. unfold put_run. destruct (Nat.eqb_spec j i) as [->|Hne].
  - rewrite list_lookup_insert_eq; [done|]. by apply lookup_lt_is_Some, not_eq_None_Some.
  - rewrite list_lookup_insert_ne by done. apply Hr.
Qed.
(** Every slot has its duty. *)
Lemma runs_slot s us i : runs_keep P s us -> exists us' u, runs_keep P s us' /\ us' !! i = Some u /\ obeys free u (runs s i).
Proof.
  intros [Hr HP]. set (us' := us ++ replicate (S i) Idle).
  assert (Hsame : forall j, default Idle (us' !! j) = default Idle (us !! j)).
  { intros j. unfold us'. rewrite lookup_app. destruct (us !! j); [done|]. destruct (replicate (S i) Idle !! (j - length us)%nat) as [v|] eqn:E; [|done].
    by apply lookup_replicate in E as [-> _]. }
  destruct (us' !! i) as [u|] eqn:Hu; [|apply lookup_ge_None in Hu; unfold us' in Hu; rewrite length_app, length_replicate in Hu; lia].
  exists us', u. split; [|split; [done|]].
  - split; [intros j; rewrite Hsame; apply Hr|by apply (kp_more _ laws)].
  - replace u with (default Idle (us !! i)); [apply Hr|]. by rewrite <- Hsame, Hu.
Qed.
Lemma runs_idle s us i p : runs_keep P s us -> obeys free Idle p -> exists us', runs_keep P (System (shared s) (put_run i p (runs s))) us'.
Proof.
  intros Hok Hp. destruct (runs_slot _ _ i Hok) as (us' & u & Hok' & Hu & _).
  exists (<[i := Idle]> us'). apply (runs_put _ _ _ _ _ _ Hok'); [by rewrite Hu|exact Hp|]. eapply (kp_idle _ laws); [apply Hok'|exact Hu].
Qed.
Lemma runs_start s us i p s' : runs_keep P s us -> start_run i p s = Some s' -> obeys free Idle p -> exists us', runs_keep P s' us'.
Proof. intros Hok Hs Hp. unfold start_run in Hs. destruct (runs s i); [|done]. injection Hs as <-. by eapply runs_idle. Qed.

Lemma step_keeps s s' us : runs_keep P s us -> dispatch_step s s' -> exists us', runs_keep P s' us'.
Proof.
  intros Hok Hstep. destruct Hstep as [i disp event state s' Hs|i disp at_ s' Hs|i clock s' Hp|i|w Hd Hs].
  - apply (runs_start _ _ _ _ _ Hok Hs), obeys_bind. eapply obeys_weaken; [apply obeys_Dispatch|done].
  - apply (runs_start _ _ _ _ _ Hok Hs), obeys_bind. eapply obeys_weaken; [apply obeys_RetryDue|done].
  - unfold perform in Hp. destruct (runs_slot _ _ i Hok) as (us' & u & Hok' & Hu & Ho). destruct (runs s i) as [|A c k]; [done|].
    destruct (exec clock c (shared s)) as [a w] eqn:He. injection Hp as <-. destruct Ho as [Hc Hk]. destruct Hok' as [Hr' HP'].
    destruct (exec_filed _ _ _ _ _ _ (kp_filed _ laws _ _ _ HP') Hc He) as [Ha _].
    exists (<[i := yields u c a]> us'). apply runs_put; [by split|by rewrite Hu|by apply Hk|by eapply (kp_call _ laws)].
  - by eapply runs_idle.
  - exists us. destruct Hok as [F1 F2]. split; [exact F1|]. cbn. by rewrite Hd, Hs.
Qed.
Lemma history_keeps s s' us : runs_keep P s us -> rtc dispatch_step s s' -> exists us', runs_keep P s' us'.
Proof.
  intros Hok Hrun. revert us Hok. induction Hrun as [|s1 s2 s3 Hstep _ IH]; intros us Hok; [by exists us|].
  destruct (step_keeps _ _ _ Hok Hstep) as [us2 Hok2]. by apply (IH us2).
Qed.
End keeping.

Lemma account_laws : keeps account_ok.
Proof.
  constructor.
  - intros A clock c w a w' us i u Hac Hi Hc Hr. by eapply exec_account.
  - intros m s us i u Hac Hi. apply (account_keeps _ _ _ _ _ _ Hac Hi). by right.
  - intros m s us n [F1 F2 F3 F4]. split; [done| | |done].
    + intros k. specialize (F2 k). rewrite holders_app, holders_idle. lia.
    + intros k [Hin|Hin]%elem_of_app; [by apply F3|]. by apply elem_of_replicate in Hin as [? _].
  - intros m s us Hac. apply Hac.
Qed.

(** The system starts with an empty table of deliveries. *)
Definition started (s : system) : Prop := deliveries (db (shared s)) = ∅ /\ sent (shared s) = [] /\ forall i, runs s i = Return tt.
Lemma reachable_account s s' : started s -> rtc dispatch_step s s' -> exists us, runs_keep account_ok s' us.
Proof.
  intros (Hd & Hs & Hr) Hrun. apply (history_keeps _ account_laws s s' []); [|done]. split; [intros i; by rewrite Hr|].
  rewrite Hd, Hs. split; [by intros k x|intros k; by rewrite lookup_empty|set_solver|done].
Qed.

(** *** Settled deliveries *)

Definition settled (d : NotificationDelivery) : Prop := Status d = DeliveryDelivered \/ Status d = DeliverySuppressed \/ Status d = DeliveryAbandoned.
Lemma settled_not_attempting d : settled d -> Status d <> DeliveryAttempting.
Proof. by intros [->|[->| ->]]. Qed.
Lemma settled_not_claimable d k at_ : settled d -> claimable at_ (k, d) = false.
Proof. unfold claimable. cbn. by intros [->|[->| ->]]. Qed.

(** The row [d] stays, and the requests under its key that were sent or may be sent by a run that holds the key are [n] at most. *)
Definition at_rest (k : key) (d : NotificationDelivery) (n : Z) (m : delivery_table) (s : list DeliveryRequest) (us : list duty) : Prop :=
  filed m /\ m !! k = Some d /\ tally k s + holders k us <= n.

Lemma at_rest_call {A} k d n clock (c : notify_call A) w a w' us i u : settled d -> at_rest k d n (deliveries (db w)) (sent w) us -> us !! i = Some u -> call_ok u c -> exec clock c w = (a, w') ->
  at_rest k d n (deliveries (db w')) (sent w') (<[i := yields u c a]> us).
Proof.
  intros Hset (Hf & Hd & Hn) Hi Hc Hr. pose proof (exec_quiet _ _ _ _ _ Hr) as Hq. destruct (exec_filed _ _ _ _ _ _ Hf Hc Hr) as [_ Hf'].
  split; [exact Hf'|]. clear Hf'. rewrite (holders_insert _ _ _ _ _ Hi). pose proof (may_nonneg k u).
  destruct c; try (destruct Hq as [-> ->]; split; [done|cbn [yields]; lia]); clear Hq; cbn [exec] in Hr; cbn [call_ok] in Hc; cbn [yields].
  - apply reserve_effect in Hr as [-> [[-> Hno]|(Hnone & _ & labels & ->)]].
    + split; [done|]. destruct a as [[|]|]; [done|rewrite may_Idle; lia..].
    + assert (delivery_key d0 <> k) by congruence. split; [by rewrite lookup_insert_ne|].
      destruct a as [[|]|]; [case_bool_decide; [rewrite may_other by done|rewrite may_Idle]|rewrite may_Idle..]; lia.
  - apply update_effect in Hr as [-> [->|(x & Hx & Hst & ->)]]; (split; [|lia]); [done|]. rewrite lookup_insert_ne; [done|]. intros Hk.
    rewrite Hk, Hd in Hx. injection Hx as <-. by apply (settled_not_attempting d).
  - subst limit. apply claim_effect in Hr as [-> [[-> Hno]|(k' & x & t & Hx & Hcl & -> & Hone)]].
    + split; [done|]. destruct a as [[|d' [|]]|]; rewrite ?may_Idle; try lia. by destruct (Hno d').
    + assert (Hne : k' <> k) by (intros ->; rewrite Hd in Hx; injection Hx as <-; by rewrite settled_not_claimable in Hcl). split; [by rewrite lookup_insert_ne|].
      destruct a as [[|d' [|]]|]; rewrite ?may_Idle; try lia. rewrite (Hone d' eq_refl). destruct (Hf _ _ Hx) as [F1 _]. rewrite may_other; [lia|]. by rewrite <- F1 in Hne.
  - apply Deliver_effect in Hr as [-> ->]. split; [done|]. rewrite tally_snoc. subst u. unfold may in *. repeat case_bool_decide; simplify_eq; try done; lia.
Qed.
Lemma at_rest_laws k d n : settled d -> keeps (at_rest k d n).
Proof.
  intros Hset. constructor.
  - intros A clock c w a w' us i u Hq Hi Hc Hr. by eapply at_rest_call.
  - intros m s us i u (Hf & Hd & Hn) Hi. split_and!; [done..|]. rewrite (holders_insert _ _ _ _ _ Hi), may_Idle. pose proof (may_nonneg k u). lia.
  - intros m s us j (Hf & Hd & Hn). split_and!; [done..|]. rewrite holders_app, holders_idle. lia.
  - by intros m s us [Hf _].
Qed.

(** Runs hold a key only while they are in progress. *)
Definition in_progress (s : system) (i : nat) : Prop := runs s i <> Return tt.
Lemma holders_busy k (busy : list nat) : forall us, (forall i u, us !! i = Some u -> u <> Idle -> i ∈ busy) -> holders k us <= Z.of_nat (length busy).
Proof.
  induction busy as [|b busy IH]; intros us Hb.
  - cbn. assert (Hall : us = replicate (length us) Idle); [|rewrite Hall, holders_idle; lia]. apply symmetry, replicate_as_elem_of. split; [done|].
    intros u [i Hi]%list_elem_of_lookup. destruct (decide (u = Idle)) as [|Hu]; [done|]. by apply (Hb _ _ Hi), not_elem_of_nil in Hu.
  - assert (Hle : holders k us <= 1 + holders k (<[b := Idle]> us)).
    { destruct (us !! b) as [u|] eqn:Hu; [rewrite (holders_insert _ _ _ _ _ Hu), may_Idle; pose proof (may_le_1 k u); lia|].
      rewrite list_insert_ge by (by apply lookup_ge_None). lia. }
    assert (holders k (<[b := Idle]> us) <= Z.of_nat (length busy)); [|cbn [length]; lia]. apply IH. intros i u Hi Hu.
    apply list_lookup_insert_Some in Hi as [(_ & <- & _)|[Hne Hi]]; [done|]. by apply (Hb _ _ Hi) in Hu as [->|]%elem_of_cons.
Qed.
Lemma busy_duties s us (busy : list nat) : obeying s us -> (forall i, in_progress s i -> i ∈ busy) -> exists us', obeying s us' /\ forall i u, us' !! i = Some u -> u <> Idle -> i ∈ busy.
Proof.
  intros Ho Hb. exists (imap (fun i u => if bool_decide (i ∈ busy) then u else Idle) us). split.
  - intros i. specialize (Ho i). rewrite list_lookup_imap. case_bool_decide as Hi.
    + by destruct (us !! i).
    + destruct (runs s i) as [[]|A c p] eqn:E; [done|]. destruct Hi. apply Hb. unfold in_progress. by rewrite E.
  - intros i u. rewrite list_lookup_imap. destruct (us !! i) as [v|]; cbn; [|done]. intros [= <-]. by case_bool_decide.
Qed.

(** C36: However the runs of dispatchers overlap and whatever the database and the channels answer: the row of a delivery that was delivered, suppressed or
    abandoned never changes again; the requests ever sent under its key are no more than the attempts in that row, none if it was suppressed, and at least
    one if it was delivered; and from then on only a run that was in progress when the row was settled can send under the key, and only once. *)
Theorem settled_deliveries_are_final s0 s s' k d (busy : list nat) : started s0 -> rtc dispatch_step s0 s -> deliveries (db (shared s)) !! k = Some d -> settled d ->
  (forall i, in_progress s i -> i ∈ busy) -> rtc dispatch_step s s' ->
  deliveries (db (shared s')) !! k = Some d /\
  tally k (sent (shared s')) <= (if bool_decide (Status d = DeliverySuppressed) then 0 else Attempts d) /\
  (Status d = DeliveryDelivered -> 1 <= tally k (sent (shared s))) /\
  tally k (sent (shared s')) <= tally k (sent (shared s)) + Z.of_nat (length busy).
Proof.
  intros Hstart Hrun Hd Hset Hbusy Hrun'. destruct (reachable_account _ _ Hstart Hrun) as (us & Ho & Hac). destruct (busy_duties _ _ _ Ho Hbusy) as (us' & Ho' & Hus').
  pose proof (holders_busy k _ _ Hus') as Hb.
  destruct (history_keeps _ (at_rest_laws k d (tally k (sent (shared s)) + Z.of_nat (length busy)) Hset) s s' us') as (vs & _ & _ & Hd' & Hn); [|done|].
  { split; [done|]. split_and!; [apply Hac|done|lia]. }
  split; [exact Hd'|]. pose proof (holders_nonneg k vs). split; [|split; [|lia]].
  - destruct (history_keeps _ account_laws s s' us (conj Ho Hac) Hrun') as (us2 & _ & Hac2). pose proof (ac_count _ _ _ Hac2 k) as Hc. rewrite Hd' in Hc.
    pose proof (holders_nonneg k us2). cbn in Hc. lia.
  - intros Hst. by eapply (ac_delivered _ _ _ Hac).
Qed.
End logic.

(** ** Examples *)

Module DispatchDemo.
Import StoreDemo NotificationDemo.
#[local] Existing Instance folded_digest.

(** The stored event of the series. *)
Definition stored (w : world) : AlertEvent := default ModelDemo.event (events (db w) !! EvaluatorDemo.key).
Definition observe_series (obs : list observation) (w : world) : world := snd (evaluate_series rule "f1" obs w).
Definition notify (s : Z) (w : world) : world := snd (perform_all (ModelDemo.at_second s) (Dispatch disp (stored w) (State (stored w))) w).

(** The alert fires and is notified; it resolves and fires again, and the second firing is dispatched without an error and
    sends nothing: the event kept its identifier, so the keys of its routes are taken. *)
Definition fired : world := observe_series [EvaluatorDemo.see true 10; EvaluatorDemo.see true 90] start.
Definition notified : world := notify 100 fired.
Definition refired : world :=
  observe_series [EvaluatorDemo.see true 210; EvaluatorDemo.see true 300] (notify 160 (observe_series [EvaluatorDemo.see false 150] notified)).
Example refired_alert_is_not_notified :
  length (sent notified) = 1%nat /\ State (stored refired) = EventFiring /\ Before (FiringAt (stored fired)) (FiringAt (stored refired)) = true /\
  fst (perform_all (ModelDemo.at_second 310) (Dispatch disp (stored refired) EventFiring) refired) = Ok tt /\ sent (notify 310 refired) = sent refired.
Proof. by vm_compute. Qed.

(** The steps of a system with slots for the dispatch and the retry. *)
Inductive act := StartDispatch | StartRetry (s : Z) | Next (slot : nat) (s : Z).
Definition take (a : act) (s : system) : option system :=
  match a with
  | StartDispatch => start_run 0 (dispatch_run disp (stored fired) EventFiring) s
  | StartRetry at_ => start_run 1 (retry_run disp (ModelDemo.at_second at_)) s
  | Next slot at_ => perform slot (ModelDemo.at_second at_) s
  end.
Fixpoint take_all (l : list act) (s : system) : option system :=
  match l with [] => Some s | a :: l => match take a s with Some s => take_all l s | None => None end end.
Lemma take_all_steps l : forall s s', take_all l s = Some s' -> rtc dispatch_step s s'.
Proof.
  induction l as [|a l IH]; intros s s' Hl; cbn in Hl; [injection Hl as <-; apply rtc_refl|]. destruct (take a s) as [s1|] eqn:Ha; [|done].
  apply (rtc_l _ _ s1); [|by apply IH]. destruct a; [by eapply step_dispatch|by eapply step_retry|by eapply step_call].
Qed.
Definition reached (l : list act) (s : system) : system := default s (take_all l s).
Lemma reached_steps l s : match take_all l s with Some _ => true | None => false end = true -> rtc dispatch_step s (reached l s).
Proof. unfold reached. destruct (take_all l s) as [s'|] eqn:E; [|done]. intros _. by eapply take_all_steps. Qed.

(** The dispatch reserves the delivery, counting its lease of thirty seconds from the time it read at its start; the retry of the same
    worker claims the delivery when that time is over, sends the request and records the success; then the dispatch sends it again. *)
Definition before_ : system := System fired (fun _ => Return tt).
Definition overtaken : system :=
  reached (StartDispatch :: (Next 0 <$> [100; 100; 100; 100; 100]) ++ StartRetry 131 :: (Next 1 <$> replicate 7 131)) before_.
Definition repeated : system := reached (Next 0 <$> [132; 132]) overtaken.
Definition first_row : key * NotificationDelivery := default ((ModelDemo.scope, EmptyString), orphan_delivery (stored fired) (ModelDemo.at_second 1)) (head (map_to_list (deliveries (db (shared overtaken))))).

Lemma settled_deliveries_are_final_witness : let k := fst first_row in let d := snd first_row in
  Status d = DeliveryDelivered /\ Attempts d = 2 /\ tally k (sent (shared overtaken)) = 1 /\ tally k (sent (shared repeated)) = 2 /\
  deliveries (db (shared repeated)) !! k = Some d /\ tally k (sent (shared repeated)) <= (if bool_decide (Status d = DeliverySuppressed) then 0 else Attempts d).
Proof.
  intros k d. destruct (settled_deliveries_are_final before_ overtaken repeated k d [0%nat]) as (Hd & Ht & _).
  - split; [by vm_compute|]. by split; [vm_compute|].
  - apply reached_steps. vm_compute. reflexivity.
  - vm_compute. reflexivity.
  - left. vm_compute. reflexivity.
  - intros [|[|i]] Hi; [by left|exfalso; apply Hi; vm_compute; reflexivity..].
  - apply reached_steps. vm_compute. reflexivity.
  - do 4 (split; [vm_compute; reflexivity|]). exact (conj Hd Ht).
Defined.
End DispatchDemo.
