(* ===== verification/AlertConfiguration.v ===== *)
(** * Alert configuration

    The configuration statements of [alert/postgres.go]: rules, notification
    policies, templates and silences are created, updated and deleted, each in
    one transaction with its audit record.  Deletions are refused while the
    configuration is in use, by the code for rules and policies and by the
    table's foreign key for templates.

    Main results: references between rules, policies, templates and events
    never dangle, whatever callers do and the database answers, so that the
    dispatcher always finds the template of a route; and the revision of a
    template only grows. *)

From Stdlib Require Import Ascii.
From S2P Require Import Prelude GoText AlertModel AlertStore AlertEvaluator AlertNotification.

Open Scope Z_scope.

(** What SQL computes for the audit records of rules: MD5, and the texts of timestamps and doubles. *)
Class SqlText := { md5 : string -> string; timestamp_text : time -> string; double_text : float64 -> string }.

Definition set_policies (f : gmap (Scope * string) NotificationPolicy -> gmap (Scope * string) NotificationPolicy) (t : tables) : tables :=
  Tables (events t) (rules t) (audits t) (dispositions t) (f (policies t)) (templates t) (silences t) (deliveries t).
Definition set_templates (f : gmap (Scope * string) NotificationTemplate -> gmap (Scope * string) NotificationTemplate) (t : tables) : tables :=
  Tables (events t) (rules t) (audits t) (dispositions t) (policies t) (f (templates t)) (silences t) (deliveries t).
Definition set_silences (f : list Silence -> list Silence) (t : tables) : tables :=
  Tables (events t) (rules t) (audits t) (dispositions t) (policies t) (templates t) (f (silences t)) (deliveries t).

Section configuration.
Context `{Digest} `{FloatText} `{Database} `{SqlText}.

Definition configurationAudit (scope : Scope) (actor action target : string) (at_ : time) (details : labels_map) : AuditRecord :=
  {| Audit_ID := ("audit-" +:+ String.substring 0 24 (fingerprintParts [TenantID scope; ProjectID scope; target; action; FormatRFC3339Nano (UTC at_)]))%string;
     Audit_Scope := scope; Audit_Actor := actor; Audit_Action := action; AlertModel.TargetID := target; OccurredAt := UTC at_; Details := details |}.

(** ** Rules *)

Definition validateRulePolicyReferences (scope : Scope) (policyIDs : list string) : M unit :=
  if bool_decide (policyIDs = []) then mret tt
  else
    found ← get (fun t => list_to_set (C := gset string) (filter (fun id => is_Some (policies t !! (scope, id))) policyIDs));
    _ ← require (bool_decide (size found = length policyIDs)) ErrInvalidPolicyReference;
    require (forallb (fun id => bool_decide (id ∈ found)) policyIDs) ErrInvalidPolicyReference.

(** A rule as [scanRule] reads it back. *)
Definition stored_rule (rule : AlertRule) (labels : labels_map) (created updated : time) : AlertRule :=
  {| Rule_ID := Rule_ID rule; Rule_Scope := Rule_Scope rule; Rule_Name := Rule_Name rule; Metric := Metric rule; Aggregation := Aggregation rule;
     Operator := Operator rule; Threshold := Threshold rule; EvaluationEvery := EvaluationEvery rule; LookbackWindow := EffectiveLookbackWindow rule; For := For rule;
     MissingData := MissingData rule; Severity := Severity rule; NotificationPolicyIDs := NotificationPolicyIDs rule; Rule_Labels := labels;
     Rule_Enabled := Rule_Enabled rule; Rule_CreatedAt := created; Rule_UpdatedAt := updated |}.

Definition rule_audit (rule : AlertRule) (actor verb : string) (at_ : time) : AuditRecord :=
  {| Audit_ID := ("audit-" +:+ md5 (Rule_ID rule +:+ ":" +:+ verb +:+ ":" +:+ timestamp_text at_))%string; Audit_Scope := Rule_Scope rule; Audit_Actor := actor;
     Audit_Action := ("rule." +:+ verb)%string; AlertModel.TargetID := Rule_ID rule; OccurredAt := at_;
     Details := list_to_map [("aggregation", Aggregation rule); ("operator", Operator rule); ("threshold", double_text (Threshold rule));
                             ("severity", Severity rule); ("enabled", FormatBool (Rule_Enabled rule))]%string |}.

(** The audit row written by the statement itself. *)
Definition insert_sql_audit (record : AuditRecord) : M unit :=
  taken ← get (fun t => audit_taken t record);
  _ ← require (negb taken) ErrExternal;
  modify (add_audit record).

(** [mutateRule]; [dbnow] is the transaction's [NOW()]. *)
Definition mutateRule (ctx_actor : string) (rule : AlertRule) (update : bool) (dbnow : time) : M AlertRule :=
  _ ← lift (AlertRule_Validate rule);
  actor ← lift (auditActorFromContext ctx_actor);
  labels ← encode_map (Rule_Labels rule);
  transaction (
    _ ← validateRulePolicyReferences (Rule_Scope rule) (NotificationPolicyIDs rule);
    old ← get (fun t => rules t !! (Rule_Scope rule, Rule_ID rule));
    match old, update with
    | None, true => throw ErrNotFound
    | Some _, false => throw ErrExternal
    | None, false =>
        let stored := stored_rule rule labels (pg_time dbnow) (pg_time dbnow) in
        _ ← modify (set_rules (<[(Rule_Scope rule, Rule_ID rule) :=
              {| row_rule := stored; next_evaluation_at := pg_time dbnow; last_evaluated_at := None; evaluation_lease_owner := EmptyString; evaluation_lease_expires_at := None |}]>));
        _ ← insert_sql_audit (rule_audit stored actor "created" (Rule_CreatedAt stored));
        mret stored
    | Some row, true =>
        let stored := stored_rule rule labels (Rule_CreatedAt (row_rule row)) (pg_time dbnow) in
        _ ← modify (set_rules (<[(Rule_Scope rule, Rule_ID rule) :=
              {| row_rule := stored; next_evaluation_at := pg_time dbnow; last_evaluated_at := last_evaluated_at row; evaluation_lease_owner := EmptyString;
                 evaluation_lease_expires_at := None |}]>));
        _ ← insert_sql_audit (rule_audit stored actor "updated" (Rule_UpdatedAt stored));
        mret stored
    end).

Definition CreateRule (actor : string) (rule : AlertRule) (dbnow : time) : M AlertRule := mutateRule actor rule false dbnow.
Definition UpdateRule (actor : string) (rule : AlertRule) (dbnow : time) : M AlertRule := mutateRule actor rule true dbnow.

Definition has_events (scope : Scope) (ruleID : string) (t : tables) : bool :=
  existsb (fun kv => bool_decide (Event_Scope (snd kv) = scope) && bool_decide (RuleID (snd kv) = ruleID)) (map_to_list (events t)).

(** [deleteRule]; [now] is the caller's clock. *)
Definition DeleteRule (ctx_actor : string) (scope : Scope) (id : string) (now : time) : M unit :=
  actor ← lift (auditActorFromContext ctx_actor);
  _ ← require (is_ok (Scope_Validate scope) && validIdentifier id) ErrInvalidRule;
  transaction (
    there ← get (fun t => bool_decide (is_Some (rules t !! (scope, id))));
    _ ← require there ErrNotFound;
    used ← get (has_events scope id);
    _ ← require (negb used) ErrConfigurationInUse;
    _ ← modify (set_rules (delete (scope, id)));
    appendAudit (configurationAudit scope actor "rule.deleted" id (UTC now) ∅)).

(** ** Templates *)

Definition stored_template (template : NotificationTemplate) (legacy : bool) (created updated : time) : NotificationTemplate :=
  {| Template_ID := Template_ID template; Template_Scope := Template_Scope template; Template_Name := Template_Name template; Template_Subject := Template_Subject template;
     Template_Body := Template_Body template; Revision := Revision template; LegacyVersionFromUpdatedAt := legacy; Template_CreatedAt := created; Template_UpdatedAt := updated |}.

Definition template_key (t : NotificationTemplate) : Scope * string := (Template_Scope t, Template_ID t).

Definition mutateNotificationTemplate (ctx_actor : string) (template : NotificationTemplate) (update : bool) (dbnow : time) : M NotificationTemplate :=
  _ ← lift (validateNotificationTemplate template);
  actor ← lift (auditActorFromContext ctx_actor);
  transaction (
    old ← get (fun t => templates t !! template_key template);
    stored ← match old, update with
             | None, false => mret (stored_template template false (pg_time dbnow) (pg_time dbnow))
             | Some _, false => throw ErrExternal
             | None, true => throw ErrNotFound
             | Some row, true => if Revision row <? Revision template then mret (stored_template template false (Template_CreatedAt row) (pg_time dbnow)) else throw ErrNotFound
             end;
    _ ← modify (set_templates (<[template_key template := stored]>));
    _ ← appendAudit (configurationAudit (Template_Scope stored) actor (if update then "template.updated" else "template.created") (Template_ID stored)
                       (if update then Template_UpdatedAt stored else Template_CreatedAt stored) {[ "version"%string := Itoa (Revision stored) ]});
    mret stored).

Definition CreateNotificationTemplate (actor : string) (template : NotificationTemplate) (dbnow : time) : M NotificationTemplate := mutateNotificationTemplate actor template false dbnow.
Definition UpdateNotificationTemplate (actor : string) (template : NotificationTemplate) (dbnow : time) : M NotificationTemplate := mutateNotificationTemplate actor template true dbnow.

(** The foreign key of the policies. *)
Definition template_referenced (scope : Scope) (id : string) (t : tables) : bool :=
  existsb (fun kv => bool_decide (Policy_Scope (snd kv) = scope) && bool_decide (Policy_TemplateID (snd kv) = id)) (map_to_list (policies t)).

(** [deleteConfiguration] for templates. *)
Definition DeleteNotificationTemplate (ctx_actor : string) (scope : Scope) (id : string) (now : time) : M unit :=
  actor ← lift (auditActorFromContext ctx_actor);
  _ ← require (is_ok (Scope_Validate scope) && validIdentifier id) ErrInvalidNotification;
  transaction (
    referenced ← get (template_referenced scope id);
    there ← get (fun t => bool_decide (is_Some (templates t !! (scope, id))));
    _ ← require (negb (there && referenced)) ErrExternal;
    _ ← require there ErrNotFound;
    _ ← modify (set_templates (delete (scope, id)));
    appendAudit (configurationAudit scope actor "template.deleted" id (UTC now) ∅)).

(** ** Policies *)

(** A time of day as the column's [HH24:MI] text. *)
Definition two_digits (n : Z) : string := String (digit_char (n / 10)) (String (digit_char (n mod 10)) EmptyString).
Definition stored_clock (text : string) : string :=
  match ParseClock text with Some m => (two_digits (m / 60) +:+ ":" +:+ two_digits (m mod 60))%string | None => EmptyString end.

Definition stored_policy (policy : NotificationPolicy) (labels : labels_map) (created updated : time) : NotificationPolicy :=
  {| Policy_ID := Policy_ID policy; Policy_Scope := Policy_Scope policy; Policy_Name := Policy_Name policy; Policy_Channel := Policy_Channel policy;
     Policy_Target := Policy_Target policy; Policy_SecretRef := Policy_SecretRef policy; Policy_TemplateID := Policy_TemplateID policy;
     Policy_Severities := Policy_Severities policy; Policy_MatchLabels := labels; Policy_WindowStartUTC := stored_clock (Policy_WindowStartUTC policy);
     Policy_WindowEndUTC := stored_clock (Policy_WindowEndUTC policy); Policy_Enabled := Policy_Enabled policy; Policy_CreatedAt := created; Policy_UpdatedAt := updated |}.

Definition policy_key (p : NotificationPolicy) : Scope * string := (Policy_Scope p, Policy_ID p).

Definition mutateNotificationPolicy (ctx_actor : string) (policy : NotificationPolicy) (update : bool) (dbnow : time) : M NotificationPolicy :=
  _ ← lift (validateNotificationPolicy policy);
  actor ← lift (auditActorFromContext ctx_actor);
  labels ← encode_map (Policy_MatchLabels policy);
  transaction (
    old ← get (fun t => policies t !! policy_key policy);
    stored ← match old, update with
             | None, false => mret (stored_policy policy labels (pg_time dbnow) (pg_time dbnow))
             | Some _, false => throw ErrExternal
             | None, true => throw ErrNotFound
             | Some row, true => mret (stored_policy policy labels (Policy_CreatedAt row) (pg_time dbnow))
             end;
    there ← get (fun t => bool_decide (is_Some (templates t !! (Policy_Scope policy, Policy_TemplateID policy))));
    _ ← require there ErrExternal;
    _ ← modify (set_policies (<[policy_key policy := stored]>));
    _ ← appendAudit (configurationAudit (Policy_Scope stored) actor (if update then "policy.updated" else "policy.created") (Policy_ID stored)
                       (if update then Policy_UpdatedAt stored else Policy_CreatedAt stored)
                       (list_to_map [("channel", Policy_Channel stored); ("template_id", Policy_TemplateID stored); ("enabled", FormatBool (Policy_Enabled stored))]%string));
    mret stored).

Definition CreateNotificationPolicy (actor : string) (policy : NotificationPolicy) (dbnow : time) : M NotificationPolicy := mutateNotificationPolicy actor policy false dbnow.
Definition UpdateNotificationPolicy (actor : string) (policy : NotificationPolicy) (dbnow : time) : M NotificationPolicy := mutateNotificationPolicy actor policy true dbnow.

Definition policy_used (scope : Scope) (id : string) (t : tables) : bool :=
  existsb (fun kv => bool_decide (fst (fst kv) = scope) && containsString (NotificationPolicyIDs (row_rule (snd kv))) id) (map_to_list (rules t)).

(** [deletePolicy] *)
Definition DeleteNotificationPolicy (ctx_actor : string) (scope : Scope) (id : string) (now : time) : M unit :=
  actor ← lift (auditActorFromContext ctx_actor);
  _ ← require (is_ok (Scope_Validate scope) && validIdentifier id) ErrInvalidNotification;
  transaction (
    there ← get (fun t => bool_decide (is_Some (policies t !! (scope, id))));
    _ ← require there ErrNotFound;
    used ← get (policy_used scope id);
    _ ← require (negb used) ErrConfigurationInUse;
    _ ← modify (set_policies (delete (scope, id)));
    appendAudit (configurationAudit scope actor "policy.deleted" id (UTC now) ∅)).

(** ** Silences *)

Definition validateSilence (s : Silence) : outcome unit :=
  guard_ok (negb (negb (is_ok (Scope_Validate (Silence_Scope s))) || negb (validIdentifier (Silence_ID s)) || bool_decide (Matchers s = ∅) || negb (validSilenceMatchers (Matchers s))
                  || blank (CreatedBy s) || blank (Silence_Reason s) || containsSecretMaterial (Silence_Reason s) || IsZero (StartsAt s) || negb (After (EndsAt s) (StartsAt s))))
    ErrInvalidNotification.

Definition silenceAudit (s : Silence) (actor action : string) (at_ : time) : AuditRecord :=
  {| Audit_ID := ("audit-" +:+ String.substring 0 24 (fingerprintParts [TenantID (Silence_Scope s); ProjectID (Silence_Scope s); Silence_ID s; action; FormatRFC3339Nano (UTC at_)]))%string;
     Audit_Scope := Silence_Scope s; Audit_Actor := actor; Audit_Action := action; AlertModel.TargetID := Silence_ID s; OccurredAt := UTC at_;
     Details := list_to_map [("starts_at", FormatRFC3339Nano (UTC (StartsAt s))); ("ends_at", FormatRFC3339Nano (UTC (EndsAt s)));
                             ("matcher_count", Itoa (Z.of_nat (size (Matchers s)))); ("reason_present", "true")]%string |}.

Definition is_silence (scope : Scope) (id : string) (s : Silence) : bool := bool_decide (Silence_Scope s = scope) && bool_decide (Silence_ID s = id).

Definition stored_silence (s : Silence) (matchers : labels_map) (createdBy : string) (created updated : time) : Silence :=
  {| Silence_ID := Silence_ID s; Silence_Scope := Silence_Scope s; Matchers := matchers; StartsAt := pg_time (StartsAt s); EndsAt := pg_time (EndsAt s); CreatedBy := createdBy;
     Silence_Reason := Silence_Reason s; Silence_CreatedAt := created; Silence_UpdatedAt := updated |}.

Definition CreateSilence (ctx_actor : string) (s : Silence) (dbnow : time) : M Silence :=
  actor ← lift (auditActorFromContext ctx_actor);
  _ ← require (is_ok (validateSilence s) && bool_decide (CreatedBy s = actor)) ErrInvalidNotification;
  matchers ← encode_map (Matchers s);
  transaction (
    taken ← get (fun t => existsb (is_silence (Silence_Scope s) (Silence_ID s)) (silences t));
    _ ← require (negb taken) ErrExternal;
    let stored := stored_silence s matchers actor (pg_time dbnow) (pg_time dbnow) in
    _ ← modify (set_silences (fun l => l ++ [stored]));
    _ ← appendAudit (silenceAudit stored actor "silence.created" (Silence_CreatedAt stored));
    mret stored).

Definition UpdateSilence (ctx_actor : string) (s : Silence) (dbnow : time) : M Silence :=
  actor ← lift (auditActorFromContext ctx_actor);
  _ ← lift (validateSilence s);
  matchers ← encode_map (Matchers s);
  transaction (
    old ← get (fun t => List.find (is_silence (Silence_Scope s) (Silence_ID s)) (silences t));
    match old with
    | None => throw ErrNotFound
    | Some row =>
        let stored := stored_silence s matchers (CreatedBy row) (Silence_CreatedAt row) (pg_time dbnow) in
        _ ← modify (set_silences (map (fun x => if is_silence (Silence_Scope s) (Silence_ID s) x then stored else x)));
        _ ← appendAudit (silenceAudit stored actor "silence.updated" (Silence_UpdatedAt stored));
        mret stored
    end).

Definition DeleteSilence (ctx_actor : string) (scope : Scope) (id : string) (now : time) : M unit :=
  actor ← lift (auditActorFromContext ctx_actor);
  _ ← require (is_ok (Scope_Validate scope) && validIdentifier id) ErrInvalidNotification;
  transaction (
    old ← get (fun t => List.find (is_silence scope id) (silences t));
    match old with
    | None => throw ErrNotFound
    | Some row =>
        _ ← modify (set_silences (List.filter (fun x => negb (is_silence scope id x))));
        appendAudit (silenceAudit row actor "silence.deleted" (UTC now))
    end).
End configuration.

(** ** References *)

(** Rows are filed under their own keys and refer to rows that are there. *)
Record consistent (t : tables) : Prop := {
  policies_filed k p : policies t !! k = Some p -> policy_key p = k;
  templates_filed k x : templates t !! k = Some x -> template_key x = k;
  events_filed k e : events t !! k = Some e -> event_key e = k;
  rule_policies scope id row p : rules t !! (scope, id) = Some row -> p ∈ NotificationPolicyIDs (row_rule row) -> is_Some (policies t !! (scope, p));
  policy_templates k p : policies t !! k = Some p -> is_Some (templates t !! (Policy_Scope p, Policy_TemplateID p));
  event_rules k e : events t !! k = Some e -> is_Some (rules t !! (Event_Scope e, RuleID e));
}.

(** The templates are those of before, with the same or a greater revision. *)
Definition revisions_grow (t t' : tables) : Prop :=
  forall k x y, templates t !! k = Some x -> templates t' !! k = Some y -> Revision x <= Revision y.

(** What every operation does: it keeps the references and lets revisions grow. *)
Definition sound_step (t t' : tables) : Prop := consistent t -> consistent t' /\ revisions_grow t t'.

Definition sound {A} (m : M A) : Prop := forall w r w', m w = (r, w') -> sound_step (db w) (db w').

Lemma same_revisions t t' : templates t' = templates t -> revisions_grow t t'.
Proof. intros Ht k x y Hx Hy. rewrite Ht, Hx in Hy. injection Hy as <-. lia. Qed.

Lemma sound_step_refl t : sound_step t t.
Proof. intros Hc. split; [done|by apply same_revisions]. Qed.

(** Only four tables matter. *)
Lemma sound_step_ext t t1 t2 : events t2 = events t1 -> rules t2 = rules t1 -> policies t2 = policies t1 -> templates t2 = templates t1 -> sound_step t t1 -> sound_step t t2.
Proof.
  intros He Hr Hp Ht Hs Hc. destruct (Hs Hc) as [[] Hg]. split; [split; rewrite ?He, ?Hr, ?Hp, ?Ht; done|].
  intros k x y Hx. rewrite Ht. by apply Hg.
Qed.

Lemma sound_pure {A B} (m : M A) (f : A -> M B) : pure_step m -> (forall a, sound (f a)) -> sound (m ≫= f).
Proof.
  intros Hm Hf w r w' Hb. apply run_bind_cases in Hb as [(e & E & ->)|(a & w1 & E & Hb)]; specialize (Hm w); rewrite E in Hm; cbn in Hm; rewrite <- Hm.
  - apply sound_step_refl.
  - by eapply Hf.
Qed.

Lemma sound_throw {A} e : sound (throw e : M A).
Proof. intros w r w' [= <- <-]. apply sound_step_refl. Qed.

Lemma sound_transaction {A} (body : M A) : (forall w a w', body w = (Ok a, w') -> sound_step (db w) (db w')) -> sound (transaction body).
Proof.
  intros Hb w r w' [[-> _]|(v & w1 & a & Hn%db_next_verdict & _ & Hbody & _)]%transaction_spec; [apply sound_step_refl|]. rewrite <- Hn. by eapply Hb.
Qed.

Lemma sound_unit {A} (m : M A) : sound m -> sound (as_unit m).
Proof. intros Hm w r w' [r' Hr]%as_unit_spec. by eapply Hm. Qed.

Lemma pure_lift {A} (x : outcome A) : pure_step (lift x).
Proof. done. Qed.
Lemma pure_require b e : pure_step (require b e).
Proof. by destruct b. Qed.
Lemma pure_encode `{Database} m : pure_step (encode_map m).
Proof. intros w. unfold encode_map. by destruct (jsonb m). Qed.

Create HintDb configuration.
#[local] Hint Resolve pure_lift pure_require pure_encode sound_throw : configuration.

Section references.
Context `{Digest} `{FloatText} `{Database} `{SqlText}.

(** Audit records change none of the four tables. *)
Lemma sound_audit t r w u w' : appendAudit r w = (Ok u, w') -> sound_step t (db w) -> sound_step t (db w').
Proof. intros (details & ->)%appendAudit_Ok. by apply sound_step_ext. Qed.

Lemma sound_sql_audit t r w u w' : insert_sql_audit r w = (Ok u, w') -> sound_step t (db w) -> sound_step t (db w').
Proof. unfold insert_sql_audit. intros Hb. mstep Hb. mstep Hb. apply modify_Ok in Hb as ->. by apply sound_step_ext. Qed.

(** *** Changes of one row *)

Lemma put_rule t scope id row : (forall p, p ∈ NotificationPolicyIDs (row_rule row) -> is_Some (policies t !! (scope, p))) ->
  sound_step t (set_rules (<[(scope, id) := row]>) t).
Proof.
  intros Hp [Hpf Htf Hef Hrp Hpt Her]. split; [split; cbn; try done|by apply same_revisions].
  - intros s i row' p [[[= -> ->] <-]|[_ Hr]]%lookup_insert_Some; [auto|by eapply Hrp].
  - intros k e He. destruct (decide ((Event_Scope e, RuleID e) = (scope, id))) as [->|]; [rewrite lookup_insert_eq; eauto|].
    rewrite lookup_insert_ne by done. by eapply Her.
Qed.

Lemma drop_rule t scope id : has_events scope id t = false -> sound_step t (set_rules (delete (scope, id)) t).
Proof.
  intros Hno [Hpf Htf Hef Hrp Hpt Her]. split; [split; cbn; try done|by apply same_revisions].
  - intros s i row p [_ Hr]%lookup_delete_Some. by eapply Hrp.
  - intros k e He. rewrite lookup_delete_ne; [by eapply Her|]. intros [= -> ->].
    assert (Ht : has_events (Event_Scope e) (RuleID e) t = true); [|congruence]. apply existsb_exists. exists (k, e).
    split; [by apply list_elem_of_In, elem_of_map_to_list|cbn; by rewrite !bool_decide_true].
Qed.

Lemma put_template t x : (forall y, templates t !! template_key x = Some y -> Revision y <= Revision x) -> sound_step t (set_templates (<[template_key x := x]>) t).
Proof.
  intros Hg [Hpf Htf Hef Hrp Hpt Her]. split; [split; cbn; try done|].
  - intros k y [[<- <-]|[_ Hy]]%lookup_insert_Some; [done|by apply Htf].
  - intros k p Hp. destruct (decide ((Policy_Scope p, Policy_TemplateID p) = template_key x)) as [->|]; [rewrite lookup_insert_eq; eauto|].
    rewrite lookup_insert_ne by done. by eapply Hpt.
  - intros k y z Hy Hz. cbn in Hz. apply lookup_insert_Some in Hz as [[<- <-]|[_ Hz]]; [auto|]. rewrite Hy in Hz. injection Hz as <-. lia.
Qed.

Lemma drop_template t scope id : template_referenced scope id t = false -> sound_step t (set_templates (delete (scope, id)) t).
Proof.
  intros Hno [Hpf Htf Hef Hrp Hpt Her]. split; [split; cbn; try done|].
  - intros k x [_ Hx]%lookup_delete_Some. by apply Htf.
  - intros k p Hp. rewrite lookup_delete_ne; [by eapply Hpt|]. intros [= -> ->].
    assert (Ht : template_referenced (Policy_Scope p) (Policy_TemplateID p) t = true); [|congruence]. apply existsb_exists. exists (k, p).
    split; [by apply list_elem_of_In, elem_of_map_to_list|cbn; by rewrite !bool_decide_true].
  - intros k x y Hx Hy. cbn in Hy. apply lookup_delete_Some in Hy as [_ Hy]. rewrite Hx in Hy. injection Hy as <-. lia.
Qed.

Lemma put_policy t p : is_Some (templates t !! (Policy_Scope p, Policy_TemplateID p)) -> sound_step t (set_policies (<[policy_key p := p]>) t).
Proof.
  intros Hx [Hpf Htf Hef Hrp Hpt Her]. split; [split; cbn; try done|by apply same_revisions].
  - intros k q [[<- <-]|[_ Hq]]%lookup_insert_Some; [done|by apply Hpf].
  - intros s i row q Hr Hq. destruct (decide ((s, q) = policy_key p)) as [->|]; [rewrite lookup_insert_eq; eauto|].
    rewrite lookup_insert_ne by done. by eapply Hrp.
  - intros k q [[<- <-]|[_ Hq]]%lookup_insert_Some; [done|by eapply Hpt].
Qed.

Lemma drop_policy t scope id : policy_used scope id t = false -> sound_step t (set_policies (delete (scope, id)) t).
Proof.
  intros Hno [Hpf Htf Hef Hrp Hpt Her]. split; [split; cbn; try done|by apply same_revisions].
  - intros k p [_ Hp]%lookup_delete_Some. by apply Hpf.
  - intros s i row p Hr Hp. rewrite lookup_delete_ne; [by eapply Hrp|]. intros [= -> ->].
    assert (Hu : policy_used s p t = true); [|congruence]. apply existsb_exists. exists (s, i, row).
    split; [by apply list_elem_of_In, elem_of_map_to_list|]. cbn. rewrite bool_decide_true by done. cbn. apply existsb_exists. exists p.
    split; [by apply list_elem_of_In|by apply bool_decide_true].
  - intros k p [_ Hp]%lookup_delete_Some. by eapply Hpt.
Qed.

Lemma put_event t e : is_Some (rules t !! (Event_Scope e, RuleID e)) -> sound_step t (set_events (fun m => <[event_key e := e]> m) t).
Proof.
  intros Hr [Hpf Htf Hef Hrp Hpt Her]. split; [split; cbn; try done|by apply same_revisions].
  - intros k e' [[<- <-]|[_ He]]%lookup_insert_Some; [done|by apply Hef].
  - intros k e' [[<- <-]|[_ He]]%lookup_insert_Some; [done|by eapply Her].
Qed.

(** *** The operations *)

Lemma references_checked scope ids w u w' : validateRulePolicyReferences scope ids w = (Ok u, w') ->
  w' = w /\ forall p, p ∈ ids -> is_Some (policies (db w) !! (scope, p)).
Proof.
  unfold validateRulePolicyReferences. case_bool_decide as Hids; intros Hb.
  - apply mret_Ok in Hb as [_ ->]. subst ids. split; [done|]. by intros p ?%elem_of_nil.
  - mstep Hb. mstep Hb. apply require_Ok in Hb as [Hall ->]. split; [done|]. intros p Hp. rewrite forallb_forall in Hall.
    specialize (Hall p ltac:(by apply list_elem_of_In)). apply bool_decide_eq_true in Hall.
    by apply elem_of_list_to_set, list_elem_of_filter in Hall as [Hsome _].
Qed.

Lemma mutateRule_sound actor rule update dbnow : sound (mutateRule actor rule update dbnow).
Proof.
  unfold mutateRule. apply sound_pure; [apply pure_lift|]. intros _. apply sound_pure; [apply pure_lift|]. intros a. apply sound_pure; [apply pure_encode|]. intros labels.
  apply sound_transaction. intros w r w' Hb. apply run_bind_Ok in Hb as (u & w1 & [-> Hrefs]%references_checked & Hb). mstep Hb.
  destruct (rules (db w) !! (Rule_Scope rule, Rule_ID rule)) as [row|], update; [|discriminate Hb|discriminate Hb|]; cbv zeta in Hb;
    mstep Hb; apply run_bind_Ok in Hb as (v & w2 & Hau & Hb); apply mret_Ok in Hb as [_ ->]; apply (sound_sql_audit _ _ _ _ _ Hau); by apply put_rule.
Qed.

Lemma DeleteRule_sound actor scope id now : sound (DeleteRule actor scope id now).
Proof.
  unfold DeleteRule. apply sound_pure; [apply pure_lift|]. intros a. apply sound_pure; [apply pure_require|]. intros _.
  apply sound_transaction. intros w r w' Hb. do 5 mstep Hb. apply (sound_audit _ _ _ _ _ Hb), drop_rule. by apply negb_true_iff.
Qed.

Lemma mutateNotificationTemplate_sound actor template update dbnow : sound (mutateNotificationTemplate actor template update dbnow).
Proof.
  unfold mutateNotificationTemplate. apply sound_pure; [apply pure_lift|]. intros _. apply sound_pure; [apply pure_lift|]. intros a.
  apply sound_transaction. intros w r w' Hb. mstep Hb. apply run_bind_Ok in Hb as (stored & w1 & Hst & Hb).
  assert (Hrow : w1 = w /\ template_key stored = template_key template /\ forall y, templates (db w) !! template_key template = Some y -> Revision y <= Revision stored).
  { destruct (templates (db w) !! template_key template) as [row|], update; [|discriminate Hst|discriminate Hst|].
    - destruct (Z.ltb_spec (Revision row) (Revision template)); [|discriminate Hst]. apply mret_Ok in Hst as [-> ->]. split_and!; [done..|]. intros y [= <-]. cbn. lia.
    - apply mret_Ok in Hst as [-> ->]. by split_and!. }
  destruct Hrow as (-> & Hk & Hrev). mstep Hb. apply run_bind_Ok in Hb as (v & w2 & Hau & Hb). apply mret_Ok in Hb as [_ ->].
  apply (sound_audit _ _ _ _ _ Hau). rewrite <- Hk in Hrev |- *. by apply put_template.
Qed.

Lemma DeleteNotificationTemplate_sound actor scope id now : sound (DeleteNotificationTemplate actor scope id now).
Proof.
  unfold DeleteNotificationTemplate. apply sound_pure; [apply pure_lift|]. intros a. apply sound_pure; [apply pure_require|]. intros _.
  apply sound_transaction. intros w r w' Hb. do 5 mstep Hb. apply (sound_audit _ _ _ _ _ Hb), drop_template.
  rename H3 into Hfree, H4 into Hthere. rewrite Hthere in Hfree. by apply negb_true_iff in Hfree.
Qed.

Lemma mutateNotificationPolicy_sound actor policy update dbnow : sound (mutateNotificationPolicy actor policy update dbnow).
Proof.
  unfold mutateNotificationPolicy. apply sound_pure; [apply pure_lift|]. intros _. apply sound_pure; [apply pure_lift|]. intros a. apply sound_pure; [apply pure_encode|]. intros labels.
  apply sound_transaction. intros w r w' Hb. mstep Hb. apply run_bind_Ok in Hb as (stored & w1 & Hst & Hb).
  assert (Hrow : w1 = w /\ policy_key stored = policy_key policy /\ (Policy_Scope stored, Policy_TemplateID stored) = (Policy_Scope policy, Policy_TemplateID policy)).
  { destruct (policies (db w) !! policy_key policy) as [row|], update; [|discriminate Hst|discriminate Hst|]; by apply mret_Ok in Hst as [-> ->]. }
  destruct Hrow as (-> & Hk & Ht). mstep Hb. mstep Hb. mstep Hb. apply run_bind_Ok in Hb as (v & w2 & Hau & Hb). apply mret_Ok in Hb as [_ ->].
  apply (sound_audit _ _ _ _ _ Hau). rewrite <- Hk. apply put_policy. rewrite Ht. by apply bool_decide_eq_true in H3.
Qed.

Lemma DeleteNotificationPolicy_sound actor scope id now : sound (DeleteNotificationPolicy actor scope id now).
Proof.
  unfold DeleteNotificationPolicy. apply sound_pure; [apply pure_lift|]. intros a. apply sound_pure; [apply pure_require|]. intros _.
  apply sound_transaction. intros w r w' Hb. do 5 mstep Hb. apply (sound_audit _ _ _ _ _ Hb), drop_policy. by apply negb_true_iff.
Qed.

Lemma CreateSilence_sound actor s dbnow : sound (CreateSilence actor s dbnow).
Proof.
  unfold CreateSilence. apply sound_pure; [apply pure_lift|]. intros a. apply sound_pure; [apply pure_require|]. intros _. apply sound_pure; [apply pure_encode|]. intros matchers.
  apply sound_transaction. intros w r w' Hb. do 2 mstep Hb. cbv zeta in Hb. mstep Hb. apply run_bind_Ok in Hb as (v & w2 & Hau & Hb). apply mret_Ok in Hb as [_ ->].
  apply (sound_audit _ _ _ _ _ Hau). by eapply sound_step_ext, sound_step_refl.
Qed.

Lemma UpdateSilence_sound actor s dbnow : sound (UpdateSilence actor s dbnow).
Proof.
  unfold UpdateSilence. apply sound_pure; [apply pure_lift|]. intros a. apply sound_pure; [apply pure_lift|]. intros _. apply sound_pure; [apply pure_encode|]. intros matchers.
  apply sound_transaction. intros w r w' Hb. mstep Hb. destruct (List.find _ _) as [row|]; [|discriminate]. cbv zeta in Hb. mstep Hb.
  apply run_bind_Ok in Hb as (v & w2 & Hau & Hb). apply mret_Ok in Hb as [_ ->]. apply (sound_audit _ _ _ _ _ Hau). by eapply sound_step_ext, sound_step_refl.
Qed.

Lemma DeleteSilence_sound actor scope id now : sound (DeleteSilence actor scope id now).
Proof.
  unfold DeleteSilence. apply sound_pure; [apply pure_lift|]. intros a. apply sound_pure; [apply pure_require|]. intros _.
  apply sound_transaction. intros w r w' Hb. mstep Hb. destruct (List.find _ _) as [row|]; [|discriminate]. mstep Hb.
  apply (sound_audit _ _ _ _ _ Hb). by eapply sound_step_ext, sound_step_refl.
Qed.

(** *** Events and the rule schedule *)

Lemma putEvent_sound e w row w' : putEvent e w = (Ok row, w') -> sound_step (db w) (db w').
Proof.
  intros Hb Hc. destruct (putEvent_Ok _ _ _ _ Hb) as (_ & labels & evidence & _ & _ & Hrow & Hdb). rewrite Hdb.
  replace (event_key e) with (event_key row) by (by rewrite Hrow). apply put_event; [|done].
  destruct (events (db w) !! event_key e) as [p|] eqn:Ep; rewrite Hrow.
  - cbn. pose proof (events_filed _ Hc _ _ Ep) as [= Hs _]. rewrite <- Hs. by eapply event_rules.
  - cbn. clear Hrow Hdb. unfold putEvent in Hb. mstep Hb. apply run_bind_Ok in Hb as (l1 & ? & [_ ->]%encode_map_Ok & Hb).
    apply run_bind_Ok in Hb as (l2 & ? & [_ ->]%encode_map_Ok & Hb). mstep Hb. mstep Hb. mstep Hb. rewrite Ep in H4. cbn in H4.
    apply negb_true_iff, orb_false_iff in H4 as [_ Hk%negb_false_iff]. by apply bool_decide_eq_true in Hk.
Qed.

Lemma mutate_body_sound e a d w row w' : mutate_body e a d w = (Ok row, w') -> sound_step (db w) (db w').
Proof.
  unfold mutate_body. intros Hb. do 3 mstep Hb. apply run_bind_Ok in Hb as (stored & w1 & Hp%putEvent_sound & Hb).
  apply run_bind_Ok in Hb as (u & w2 & Hau & Hb). apply run_bind_Ok in Hb as (u' & w3 & Hd & Hb). apply mret_Ok in Hb as [_ ->].
  assert (H2s : sound_step (db w) (db w2)).
  { destruct a0; [|by apply mret_Ok in Hau as [_ ->]]. apply run_bind_Ok in Hau as (r & w4 & [Hw4 _]%lifecycleAuditRecord_Ok & Hau).
    apply (sound_audit _ _ _ _ _ Hau). by rewrite Hw4. }
  destruct d as [d|]; [|by apply mret_Ok in Hd as [_ ->]]. mstep Hd. apply insertEventDisposition_Ok in Hd as ->. revert H2s. by apply sound_step_ext.
Qed.

Lemma mutateEvent_sound e a d : sound (mutateEvent e a d).
Proof. unfold mutateEvent. apply sound_pure; [apply pure_lift|]. intros _. apply sound_transaction. intros w r w'. apply mutate_body_sound. Qed.

(** Rows of the schedule change without their rule. *)
Lemma reschedule (t : tables) (m : gmap (Scope * string) ruleRow) :
  (forall k row, m !! k = Some row -> exists old, rules t !! k = Some old /\ row_rule row = row_rule old) -> (forall k, is_Some (rules t !! k) -> is_Some (m !! k)) ->
  sound_step t (set_rules (fun _ => m) t).
Proof.
  intros Hm Hk [Hpf Htf Hef Hrp Hpt Her]. split; [split; cbn; try done|by apply same_revisions].
  - intros s i row p Hr Hp. destruct (Hm _ _ Hr) as (old & Ho & E). rewrite E in Hp. by eapply Hrp.
  - intros k e He. apply Hk. by eapply Her.
Qed.

Lemma ClaimDueRules_sound scope at_ owner until limit : sound (ClaimDueRules scope at_ owner until limit).
Proof.
  unfold ClaimDueRules. destruct (_ || _ || _ || _ || _); [apply sound_throw|]. cbv zeta. apply sound_transaction. intros w r w' Hb. mstep Hb. mstep Hb. apply mret_Ok in Hb as [_ ->].
  cbn [db set_db]. set (l := take _ _). assert (Hl : forall kr, kr ∈ l -> rules (db w) !! fst kr = Some (snd kr)).
  { intros [k row] Hin. unfold l in Hin. apply elem_of_take in Hin as (i & Hi%list_elem_of_lookup_2 & _). rewrite merge_sort_Permutation in Hi.
    unfold due_rows in Hi. apply list_elem_of_filter in Hi as [_ Hi]. by apply elem_of_map_to_list in Hi. }
  apply (reschedule (db w) (foldr (fun kr m => <[fst kr := lease_row owner until (snd kr)]> m) (rules (db w)) l)); clearbody l; induction l as [|kr l IH]; cbn [foldr].
  - intros k row Hr. eauto.
  - intros k row [[<- <-]|[_ Hr]]%lookup_insert_Some; [exists (snd kr); split; [apply Hl; by left|done]|]. apply IH; [|done]. intros x Hx. apply Hl. by right.
  - done.
  - intros k Hk. destruct (decide (fst kr = k)) as [->|]; [rewrite lookup_insert_eq; eauto|rewrite lookup_insert_ne by done]. apply IH; [|done]. intros x Hx. apply Hl. by right.
Qed.

Lemma CompleteRuleEvaluation_sound scope id owner at_ next : sound (CompleteRuleEvaluation scope id owner at_ next).
Proof.
  unfold CompleteRuleEvaluation. destruct (_ || _ || _ || _ || _); [apply sound_throw|]. apply sound_transaction. intros w r w' Hb. mstep Hb.
  destruct (rules (db w) !! (scope, id)) as [row|] eqn:E; [|discriminate Hb]. destruct (bool_decide _); [|discriminate Hb]. apply modify_Ok in Hb as ->. cbn [db set_db].
  apply (reschedule (db w) (<[(scope, id) := completed_row at_ next row]> (rules (db w)))).
  - intros k x [[<- <-]|[_ Hx]]%lookup_insert_Some; eauto.
  - intros k Hk. destruct (decide ((scope, id) = k)) as [<-|]; [rewrite lookup_insert_eq; eauto|by rewrite lookup_insert_ne].
Qed.

Lemma checked_audit_sound {A} e r (f : AuditRecord -> M A) : (forall a, sound (f a)) -> sound (a ← checked_audit e r; f a).
Proof. apply sound_pure, checked_audit_pure. Qed.

Lemma run_op_sound op : sound (run_op op).
Proof.
  destruct op as [e|e a|e a d|a|d a|scope at_ owner until limit|scope ruleID owner at_ next]; cbn [run_op].
  - apply sound_unit, mutateEvent_sound.
  - apply sound_unit, checked_audit_sound. intros x. apply mutateEvent_sound.
  - apply sound_unit. unfold PutEventAndDisposition. case_goal; [apply sound_throw|]. cbv zeta. case_goal; [apply sound_throw|]. apply checked_audit_sound. intros x. apply mutateEvent_sound.
  - unfold AppendAudit. cbv zeta. apply sound_pure; [apply pure_lift|]. intros _. apply sound_pure; [apply pure_lift|]. intros _. apply sound_transaction.
    intros w r w' (details & _ & ->)%insert_audit_Ok. by eapply sound_step_ext, sound_step_refl.
  - unfold AppendEventDisposition. case_goal; [apply sound_throw|]. cbv zeta. apply sound_pure; [apply pure_lift|]. intros _. apply sound_pure; [apply pure_lift|]. intros _.
    apply sound_transaction. intros w r w' Hb. mstep Hb. mstep Hb. apply run_bind_Ok in Hb as (u & w3 & Hau & Hb). apply insertEventDisposition_Ok in Hb as ->.
    eapply sound_step_ext, (sound_audit _ _ _ _ _ Hau), sound_step_refl; done.
  - apply sound_unit, ClaimDueRules_sound.
  - apply CompleteRuleEvaluation_sound.
Qed.

(** *** Histories *)

Inductive config_op :=
  | OpStore (op : store_op)
  | OpRule (actor : string) (rule : AlertRule) (update : bool) (dbnow : time)
  | OpDeleteRule (actor : string) (scope : Scope) (id : string) (now : time)
  | OpTemplate (actor : string) (template : NotificationTemplate) (update : bool) (dbnow : time)
  | OpDeleteTemplate (actor : string) (scope : Scope) (id : string) (now : time)
  | OpPolicy (actor : string) (policy : NotificationPolicy) (update : bool) (dbnow : time)
  | OpDeletePolicy (actor : string) (scope : Scope) (id : string) (now : time)
  | OpCreateSilence (actor : string) (s : Silence) (dbnow : time)
  | OpUpdateSilence (actor : string) (s : Silence) (dbnow : time)
  | OpDeleteSilence (actor : string) (scope : Scope) (id : string) (now : time).

Definition run_config (op : config_op) : M unit :=
  match op with
  | OpStore op => run_op op
  | OpRule actor rule update dbnow => as_unit (if update then UpdateRule actor rule dbnow else CreateRule actor rule dbnow)
  | OpDeleteRule actor scope id now => DeleteRule actor scope id now
  | OpTemplate actor x update dbnow => as_unit (if update then UpdateNotificationTemplate actor x dbnow else CreateNotificationTemplate actor x dbnow)
  | OpDeleteTemplate actor scope id now => DeleteNotificationTemplate actor scope id now
  | OpPolicy actor p update dbnow => as_unit (if update then UpdateNotificationPolicy actor p dbnow else CreateNotificationPolicy actor p dbnow)
  | OpDeletePolicy actor scope id now => DeleteNotificationPolicy actor scope id now
  | OpCreateSilence actor s dbnow => as_unit (CreateSilence actor s dbnow)
  | OpUpdateSilence actor s dbnow => as_unit (UpdateSilence actor s dbnow)
  | OpDeleteSilence actor scope id now => DeleteSilence actor scope id now
  end.

Lemma run_config_sound op : sound (run_config op).
Proof.
  destruct op as [op|? ? [|] ?|?|? ? [|] ?|?|? ? [|] ?|?|?|?|?]; cbn [run_config];
    unfold CreateRule, UpdateRule, CreateNotificationTemplate, UpdateNotificationTemplate, CreateNotificationPolicy, UpdateNotificationPolicy;
    auto using run_op_sound, sound_unit, mutateRule_sound, DeleteRule_sound, mutateNotificationTemplate_sound, DeleteNotificationTemplate_sound,
      mutateNotificationPolicy_sound, DeleteNotificationPolicy_sound, CreateSilence_sound, UpdateSilence_sound, DeleteSilence_sound.
Qed.

(** Tables reachable from an empty configuration; other components write other tables. *)
Inductive configured : tables -> Prop :=
  | configured_init t : events t = ∅ -> rules t = ∅ -> policies t = ∅ -> templates t = ∅ -> configured t
  | configured_step w op r w' : configured (db w) -> run_config op w = (r, w') -> configured (db w')
  | configured_other t t' : configured t -> events t' = events t -> rules t' = rules t -> policies t' = policies t -> templates t' = templates t -> configured t'.

Lemma configured_consistent t : configured t -> consistent t.
Proof.
  induction 1 as [t He Hr Hp Ht|w op r w' _ IH Hrun|t t' _ IH He Hr Hp Ht].
  - split; rewrite ?He, ?Hr, ?Hp, ?Ht; intros *; by rewrite lookup_empty.
  - by apply (run_config_sound op _ _ _ Hrun).
  - by apply (sound_step_ext t t t' He Hr Hp Ht (sound_step_refl t)).
Qed.

(** The routes of a rule are its policies with their templates. *)
Lemma routes_complete t scope id row : consistent t -> rules t !! (scope, id) = Some row ->
  (forall route, route ∈ rule_routes scope id t -> template_key (Template route) = (scope, Policy_TemplateID (Policy route)) /\ templates t !! template_key (Template route) = Some (Template route)) /\
  (forall p, p ∈ NotificationPolicyIDs (row_rule row) -> exists route, route ∈ rule_routes scope id t /\ policy_key (Policy route) = (scope, p)).
Proof.
  intros Hc Hrow. unfold rule_routes. rewrite Hrow. split.
  - intros route Hin. apply list_elem_of_fmap in Hin as (p & -> & Hp). rewrite merge_sort_Permutation in Hp. apply list_elem_of_filter in Hp as [[Hs _] Hp].
    apply list_elem_of_fmap in Hp as ([k p'] & -> & Hk%elem_of_map_to_list). cbn in *. destruct (policy_templates _ Hc _ _ Hk) as [x Hx]. rewrite Hs in Hx. rewrite Hx. cbn.
    pose proof (templates_filed _ Hc _ _ Hx) as Hf. by rewrite Hf.
  - intros p Hp. destruct (rule_policies _ Hc _ _ _ _ Hrow Hp) as [q Hq]. pose proof (policies_filed _ Hc _ _ Hq) as Hk. pose proof Hk as [= Hs Hid].
    eexists. split; [apply list_elem_of_fmap; exists q; split; [reflexivity|]|exact Hk]. rewrite merge_sort_Permutation. apply list_elem_of_filter. split.
    + split; [done|]. rewrite Hid. apply existsb_exists. exists p. split; [by apply list_elem_of_In|by apply bool_decide_true].
    + apply list_elem_of_fmap. exists ((scope, p), q). split; [done|]. by apply elem_of_map_to_list.
Qed.

(** C37.  References never dangle.  Whatever configuration and event operations callers run and whatever the database
    answers, every event has its rule, every policy its template, and the routes of a rule are exactly its policies, each
    with the stored template of its scope; an operation never lowers the revision of a template it keeps. *)
Theorem configuration_references_hold w : configured (db w) ->
  consistent (db w) /\
  (forall scope id row, rules (db w) !! (scope, id) = Some row ->
     (forall route, route ∈ rule_routes scope id (db w) ->
        template_key (Template route) = (scope, Policy_TemplateID (Policy route)) /\ templates (db w) !! template_key (Template route) = Some (Template route)) /\
     (forall p, p ∈ NotificationPolicyIDs (row_rule row) -> exists route, route ∈ rule_routes scope id (db w) /\ policy_key (Policy route) = (scope, p))) /\
  (forall op r w', run_config op w = (r, w') -> revisions_grow (db w) (db w')).
Proof.
  intros Hcf. pose proof (configured_consistent _ Hcf) as Hc. split; [done|]. split; [intros scope id row; by apply routes_complete|].
  intros op r w' Hrun. by apply (run_config_sound op _ _ _ Hrun).
Qed.
End references.

(** ** Witness *)
Module ConfigurationDemo.
Import StoreDemo.

#[local] Instance folded_digest : Digest := NotificationDemo.folded_digest.
#[local] Instance plain_text : SqlText := { md5 s := s; timestamp_text := FormatRFC3339Nano; double_text _ := "100"%string }.

(** Template, policy and rule are created in that order; the policy is then in use. *)
Definition empty : world := World (Tables ∅ ∅ [] [] ∅ ∅ [] ∅) [] [] [] [].
Definition ops : list config_op :=
  [OpTemplate "alice" NotificationDemo.template false (ModelDemo.at_second 1); OpPolicy "alice" NotificationDemo.policy false (ModelDemo.at_second 2);
   OpRule "alice" rule false (ModelDemo.at_second 3); OpDeletePolicy "alice" ModelDemo.scope "policy-1" (ModelDemo.at_second 4);
   OpDeleteTemplate "alice" ModelDemo.scope "template-1" (ModelDemo.at_second 5)].
Definition run_configs (l : list config_op) (w : world) : world := foldl (fun w op => snd (run_config op w)) w l.

Lemma run_configs_configured l w : configured (db w) -> configured (db (run_configs l w)).
Proof.
  revert w. induction l as [|op l IH]; intros w Hw; [exact Hw|]. cbn. apply IH. destruct (run_config op w) as [r w'] eqn:E. by eapply configured_step.
Qed.

Lemma configuration_references_hold_witness :
  fst (run_config (OpDeletePolicy "alice" ModelDemo.scope "policy-1" (ModelDemo.at_second 4)) (run_configs (take 3 ops) empty)) = Err ErrConfigurationInUse /\
  is_Some (rules (db (run_configs ops empty)) !! (ModelDemo.scope, "rule-1"%string)) /\ consistent (db (run_configs ops empty)).
Proof.
  split; [vm_compute; reflexivity|]. split; [eexists; vm_compute; reflexivity|].
  refine (proj1 (configuration_references_hold _ _)). apply run_configs_configured. by apply configured_init.
Defined.

End ConfigurationDemo.
