(* ===== verification/Idempotency.v ===== *)
(** * Idempotent requests

    [idempotency/service.go] and [idempotency/postgres.go]: the claim of a
    request key, the phases a claimed request goes through (processing, side
    effect committed, audited, completed), the replay of stored responses, and
    the recovery of requests whose handler died.

    The service is a program over the calls it makes (store, callbacks, clock
    and random source); the store is the table with its SQL statements, each of
    them atomic.  Handlers run concurrently: a system is a table shared by any
    number of such programs, and a step is one call of one of them.

    Main results: a key is granted to one owner until that owner gives it back
    or its record has expired; a completed response never changes before it
    expires and is replayed; a retry of a committed request completes it; and
    two retries that recover the same request can leave a response in the store
    that differs from the one reported to a caller. *)

From Stdlib Require Import Ascii.
From S2P Require Import Prelude Programs GoText JsonText.

Open Scope Z_scope.

(** ** Data *)

Definition DefaultTTL : Z := 24 * hour.
Definition maximumReconciliationBytes : nat := 65536.

(** The package's errors; [ErrExternal] is any other error of the database or of a callback. *)
Inductive IdempotencyError := ErrInvalid | ErrKeyConflict | ErrInProgress | ErrNotClaimed | ErrOwnershipConflict | ErrExternal.
Abbreviation outcome := (result IdempotencyError).

#[global] Instance IdempotencyError_eq_dec : EqDecision IdempotencyError.
Proof. solve_decision. Defined.

Inductive State := StateProcessing | StateSideEffectCommitted | StateAudited | StateCompleted.
#[global] Instance State_eq_dec : EqDecision State.
Proof. solve_decision. Defined.

(** [platformscope.Scope] *)
Record Scope := MkScope { TenantID : string; ProjectID : string }.
#[global] Instance Scope_eq_dec : EqDecision Scope.
Proof. solve_decision. Defined.

Definition Scope_Validate (s : Scope) : bool :=
  negb (empty_string (TenantID s) || empty_string (ProjectID s) || negb (trimmed (TenantID s)) || negb (trimmed (ProjectID s))).

Record Key := MkKey { Key_Scope : Scope; Actor : string; OperationID : string; IdempotencyKey : string }.
#[global] Instance Key_eq_dec : EqDecision Key.
Proof. solve_decision. Defined.
#[global] Instance Key_countable : Countable Key.
Proof.
  refine (inj_countable' (fun k => (TenantID (Key_Scope k), ProjectID (Key_Scope k), Actor k, OperationID k, IdempotencyKey k))
    (fun '(t, p, a, o, i) => MkKey (MkScope t p) a o i) _). by intros [[]].
Defined.

Abbreviation Headers := (gmap string (list string)).

Record Response := { Status : Z; Header : Headers; Body : string }.
#[global] Instance Response_eq_dec : EqDecision Response.
Proof. solve_decision. Defined.

(** A nil byte slice is the empty string: the code copies every slice with [append([]byte(nil), ...)], which makes empty slices nil. *)
Record Claim := {
  Claimed : bool; OwnerToken : string; Claim_State : State; CreatedAt : time; Claim_Response : option Response; Claim_Reconciliation : string;
}.

Record ProcessingClaim := { PC_OwnerToken : string; PC_CreatedAt : time; PC_Reconciliation : string; PC_Response : option Response }.

Record ClaimRequest := {
  Request_Key : Key; Fingerprint : string; Request_Owner : string; Request_Reconciliation : string; RecoverProcessing : bool; Now : time; ExpiresAt : time;
}.

(** What the store reads of a record. *)
Record storedClaim := {
  sc_fingerprint : string; sc_owner : string; sc_state : State; sc_response : Response; sc_reconciliation : string; sc_createdAt : time;
}.

(** ** Validation *)

Definition is_lower_hex (c : Z) : bool := is_digit c || ((97 <=? c) && (c <=? 102)).

(** A prefix followed by 64 lower-case hexadecimal digits. *)
Definition hex64_after (prefix s : string) : bool :=
  HasPrefix prefix s && (let tail := bytes_of (drop_string (String.length prefix) s) in (length tail =? 64)%nat && forallb is_lower_hex tail).

Definition fingerprintPattern : string -> bool := hex64_after "sha256:".
Definition ownerPattern : string -> bool := hex64_after "owner-".

Definition contains_byte (unwanted : list Z) (s : string) : bool := existsb (fun c => existsb (Z.eqb c) unwanted) (bytes_of s).

Definition canonicalKeyPart (value : string) : bool :=
  negb (empty_string value) && (String.length value <=? 256)%nat && trimmed value && negb (contains_byte [13; 10; 9] value).

Definition validateKey (key : Key) : bool :=
  Scope_Validate (Key_Scope key) && canonicalKeyPart (Actor key) && canonicalKeyPart (OperationID key) && canonicalKeyPart (IdempotencyKey key).

Definition validateReconciliation (value : string) : bool :=
  negb (empty_string value) && (String.length value <=? maximumReconciliationBytes)%nat && json_valid value.

Definition validateResponse (r : Response) : bool :=
  (100 <=? Status r) && (Status r <=? 599) && json_valid (Body r)
  && forallb (fun nv => negb (empty_string (fst nv)) && negb (contains_byte [13; 10] (fst nv)) && forallb (fun v => negb (contains_byte [13; 10] v)) (snd nv))
       (map_to_list (Header r)).

(** ** The service *)

(** The calls a handler makes: the statements of the store, the clock, the random source, and its two callbacks.  The three
    statements of [Claim] run in one transaction at the isolation level READ COMMITTED: each sees what was committed before it, the
    first two write one row and end the transaction if they find their row, and the third only reads. *)
Inductive call : Type -> Type :=
  | CNow : call time
  | COwner : call (outcome string)
  | CInsert (r : ClaimRequest) : call (outcome (option time))
  | CReclaim (r : ClaimRequest) : call (outcome (option time))
  | CSelect (key : Key) : call (outcome (option storedClaim))
  | CCommit (key : Key) (fingerprint owner : string) (response : Response) (reconciliation : string) (at_ : time) : call (outcome Response)
  | CRepair (key : Key) (fingerprint owner : string) (response : Response) (reconciliation : string) (at_ : time) : call (outcome Response)
  | CAudited (key : Key) (fingerprint owner : string) (at_ : time) : call (outcome unit)
  | CComplete (key : Key) (fingerprint owner : string) (response : Response) (at_ : time) : call (outcome Response)
  | CAbort (key : Key) (fingerprint owner : string) : call (outcome unit)
  | CReconcile (response : Response) (reconciliation : string) : call (outcome unit)
  | CRecover (p : ProcessingClaim) : call (outcome Response).

(** Programs over these calls. *)
Abbreviation prog := (Programs.prog call).
Notation fail e := (Return (Err e)).
Open Scope prog_scope.

Record Service := { ttl : Z; store_repairs : bool (* the store implements [incompleteSideEffectStore] *) }.
Definition NewService : Service := {| ttl := DefaultTTL; store_repairs := true |}.

Definition valid_fence (key : Key) (fingerprint owner : string) : bool := validateKey key && fingerprintPattern fingerprint && ownerPattern owner.

Definition valid_claim (r : ClaimRequest) : bool :=
  valid_fence (Request_Key r) (Fingerprint r) (Request_Owner r) && negb (IsZero (Now r)) && After (ExpiresAt r) (Now r)
  && (String.length (Request_Reconciliation r) <=? maximumReconciliationBytes)%nat
  && (empty_string (Request_Reconciliation r) || validateReconciliation (Request_Reconciliation r)).

Definition completed_claim (created : time) (response : Response) : Claim :=
  {| Claimed := false; OwnerToken := EmptyString; Claim_State := StateCompleted; CreatedAt := created; Claim_Response := Some response;
     Claim_Reconciliation := EmptyString |}.

Definition granted (r : ClaimRequest) (created : time) : Claim :=
  {| Claimed := true; OwnerToken := Request_Owner r; Claim_State := StateProcessing; CreatedAt := UTC created; Claim_Response := None;
     Claim_Reconciliation := Request_Reconciliation r |}.

(** The claim of a key that has a record. *)
Definition existing_claim (r : ClaimRequest) (record : storedClaim) : outcome Claim :=
  if negb (bool_decide (sc_fingerprint record = Fingerprint r)) then Err ErrKeyConflict
  else match sc_state record with
       | StateProcessing =>
           if negb (RecoverProcessing r) then Err ErrInProgress
           else Ok {| Claimed := false; OwnerToken := sc_owner record; Claim_State := StateProcessing; CreatedAt := UTC (sc_createdAt record); Claim_Response := None;
                      Claim_Reconciliation := sc_reconciliation record |}
       | StateSideEffectCommitted | StateAudited =>
           Ok {| Claimed := false; OwnerToken := sc_owner record; Claim_State := sc_state record; CreatedAt := UTC (sc_createdAt record); Claim_Response := Some (sc_response record);
                 Claim_Reconciliation := sc_reconciliation record |}
       | StateCompleted => Ok (completed_claim zero_time (sc_response record))
       end.

(** [PostgresStore.Claim] *)
Definition store_Claim (r : ClaimRequest) : prog (outcome Claim) :=
  if negb (valid_claim r) then fail ErrInvalid
  else
    let! inserted := CInsert r in
    match inserted with
    | Some created => Return (Ok (granted r created))
    | None =>
        let! reclaimed := CReclaim r in
        match reclaimed with
        | Some created => Return (Ok (granted r created))
        | None =>
            let! found := CSelect (Request_Key r) in
            match found with None => fail ErrNotClaimed | Some record => Return (existing_claim r record) end
        end
    end.

(** [Service.Complete] *)
Definition Complete (key : Key) (fingerprint owner : string) (response : Response) (reconciliation : string) : prog (outcome Response) :=
  if negb (validateKey key) || negb (fingerprintPattern fingerprint) || negb (ownerPattern owner) || negb (validateResponse response)
     || negb (validateReconciliation reconciliation) then fail ErrInvalid
  else
    let* at1 := CNow in
    let! committed := CCommit key fingerprint owner response reconciliation (UTC at1) in
    if negb (validateResponse committed) then fail ErrInvalid
    else
      let! _u := CReconcile committed reconciliation in
      let* at2 := CNow in
      let! _u := CAudited key fingerprint owner (UTC at2) in
      let* at3 := CNow in
      let! completed := CComplete key fingerprint owner committed (UTC at3) in
      if negb (validateResponse completed) then fail ErrInvalid else Return (Ok completed).

Definition Abort (key : Key) (fingerprint owner : string) : prog (outcome unit) :=
  if negb (validateKey key) || negb (fingerprintPattern fingerprint) || negb (ownerPattern owner) then fail ErrInvalid
  else let* r := CAbort key fingerprint owner in Return r.

(** What a caller gets when another one owns the rest of the work. *)
Definition correlated (created : time) (response : Response) : Claim :=
  {| Claimed := false; OwnerToken := EmptyString; Claim_State := StateSideEffectCommitted; CreatedAt := UTC created; Claim_Response := Some response;
     Claim_Reconciliation := EmptyString |}.

(** A retry that finds the request in the processing phase. *)
Definition begin_processing (key : Key) (fingerprint : string) (recover recoverIncomplete : bool) (claim : Claim) : prog (outcome Claim) :=
  if negb recover then fail ErrInProgress
  else if negb (ownerPattern (OwnerToken claim)) || IsZero (CreatedAt claim) || negb (validateReconciliation (Claim_Reconciliation claim)) then fail ErrInProgress
  else
    let! response := CRecover {| PC_OwnerToken := OwnerToken claim; PC_CreatedAt := UTC (CreatedAt claim); PC_Reconciliation := Claim_Reconciliation claim; PC_Response := None |} in
    let- completed := Complete key fingerprint (OwnerToken claim) response (Claim_Reconciliation claim) in
    match completed with
    | Ok r => Return (Ok (completed_claim (UTC (CreatedAt claim)) r))
    | Err e => if recoverIncomplete && bool_decide (e = ErrOwnershipConflict) then Return (Ok (correlated (CreatedAt claim) response)) else fail e
    end.

(** The last phase of a retry: audited to completed. *)
Definition begin_complete (key : Key) (fingerprint : string) (recoverIncomplete : bool) (claim : Claim) (response : Response) : prog (outcome Claim) :=
  let* at_ := CNow in
  let* completed := CComplete key fingerprint (OwnerToken claim) response (UTC at_) in
  match completed with
  | Err e => if recoverIncomplete && bool_decide (e = ErrOwnershipConflict) then Return (Ok (correlated (CreatedAt claim) response)) else fail e
  | Ok r => if negb (validateResponse r) then fail ErrInvalid else Return (Ok (completed_claim zero_time r))
  end.

(** A retry that finds a stored response. *)
Definition begin_phase (key : Key) (fingerprint : string) (recoverIncomplete : bool) (claim : Claim) (state : State) (response : Response) : prog (outcome Claim) :=
  match state with
  | StateCompleted =>
      if negb (empty_string (OwnerToken claim)) || negb (empty_string (Claim_Reconciliation claim)) then fail ErrInvalid
      else Return (Ok {| Claimed := Claimed claim; OwnerToken := OwnerToken claim; Claim_State := state; CreatedAt := CreatedAt claim;
                         Claim_Response := Some response; Claim_Reconciliation := Claim_Reconciliation claim |})
  | StateSideEffectCommitted =>
      if negb (ownerPattern (OwnerToken claim)) || negb (validateReconciliation (Claim_Reconciliation claim)) then fail ErrInvalid
      else
        let! _u := CReconcile response (Claim_Reconciliation claim) in
        let* at_ := CNow in
        let* audited := CAudited key fingerprint (OwnerToken claim) (UTC at_) in
        match audited with
        | Err e => if recoverIncomplete && bool_decide (e = ErrOwnershipConflict) then Return (Ok (correlated (CreatedAt claim) response)) else fail e
        | Ok _ => begin_complete key fingerprint recoverIncomplete claim response
        end
  | StateAudited =>
      if negb (ownerPattern (OwnerToken claim)) || negb (validateReconciliation (Claim_Reconciliation claim)) then fail ErrInvalid
      else begin_complete key fingerprint recoverIncomplete claim response
  | StateProcessing => fail ErrInvalid
  end.

(** The repair of a response that never reached its caller. *)
Definition begin_repair (svc : Service) (key : Key) (fingerprint : string) (claim : Claim) (response : Response) : prog (outcome Claim) :=
  if negb (store_repairs svc) || negb (ownerPattern (OwnerToken claim)) || negb (validateReconciliation (Claim_Reconciliation claim)) then fail ErrInvalid
  else
    let! repaired := CRecover {| PC_OwnerToken := OwnerToken claim; PC_CreatedAt := UTC (CreatedAt claim); PC_Reconciliation := Claim_Reconciliation claim; PC_Response := Some response |} in
    if negb (validateResponse repaired) then fail ErrInvalid
    else
      let* at_ := CNow in
      let* stored := CRepair key fingerprint (OwnerToken claim) repaired (Claim_Reconciliation claim) (UTC at_) in
      match stored with
      | Err e => if bool_decide (e = ErrOwnershipConflict) then Return (Ok (correlated (CreatedAt claim) repaired)) else fail e
      | Ok response => if negb (validateResponse response) then fail ErrInvalid else begin_phase key fingerprint true claim StateSideEffectCommitted response
      end.

Definition fresh_claim_ok (claim : Claim) (owner : string) (now : time) (reconciliation : string) : bool :=
  negb (negb (bool_decide (OwnerToken claim = owner)) || negb (bool_decide (Claim_State claim = StateProcessing)) || negb (bool_decide (Claim_Response claim = None))
        || IsZero (CreatedAt claim) || Before (CreatedAt claim) (AddDuration now (- second)) || After (CreatedAt claim) (AddDuration now second)
        || negb (bool_decide (Claim_Reconciliation claim = reconciliation))).

(** [Service.begin]; [recover] says whether a recovery callback is given. *)
Definition begin (svc : Service) (key : Key) (fingerprint reconciliation : string) (recover recoverIncomplete : bool) : prog (outcome Claim) :=
  if negb (validateKey key) || negb (fingerprintPattern fingerprint) then fail ErrInvalid
  else
    let* clock := CNow in
    let now := UTC clock in
    let life := if ttl svc <=? 0 then DefaultTTL else ttl svc in
    let* token := COwner in
    match token with
    | Err _ => fail ErrInvalid
    | Ok owner =>
        if negb (ownerPattern owner) then fail ErrInvalid
        else
          let? claim := store_Claim {| Request_Key := key; Fingerprint := fingerprint; Request_Owner := owner; Request_Reconciliation := reconciliation;
                             RecoverProcessing := recover; Now := now; ExpiresAt := AddDuration now life |} in
          if Claimed claim then if fresh_claim_ok claim owner now reconciliation then Return (Ok claim) else fail ErrInvalid
          else if bool_decide (Claim_State claim = StateProcessing) then begin_processing key fingerprint recover recoverIncomplete claim
          else match Claim_Response claim with
               | None => fail ErrInvalid
               | Some response =>
                   if negb (validateResponse response) then fail ErrInvalid
                   else if recoverIncomplete && (bool_decide (Claim_State claim = StateSideEffectCommitted) || bool_decide (Claim_State claim = StateAudited))
                   then begin_repair svc key fingerprint claim response
                   else begin_phase key fingerprint recoverIncomplete claim (Claim_State claim) response
               end
    end.

Definition Begin (svc : Service) (key : Key) (fingerprint : string) : prog (outcome Claim) := begin svc key fingerprint EmptyString false false.

Definition BeginRecoverable (svc : Service) (key : Key) (fingerprint reconciliation : string) : prog (outcome Claim) :=
  if negb (validateReconciliation reconciliation) then fail ErrInvalid else begin svc key fingerprint reconciliation true false.

Definition BeginUnreturnedRecoverable (svc : Service) (key : Key) (fingerprint reconciliation : string) : prog (outcome Claim) :=
  if negb (validateReconciliation reconciliation) then fail ErrInvalid else begin svc key fingerprint reconciliation true true.

(** ** The PostgreSQL store *)

(** What the table does to values: timestamps are rounded, JSONB columns hold normalised documents ([None]: the document is
    refused), and a decoded header map is iterated in an unspecified order. *)
Class Columns := {
  pg_time : time -> time;
  headers_jsonb : Headers -> option Headers;
  text_jsonb : string -> option string;
  header_order : Headers -> list (string * list string);
}.

(** Documented behaviour: header maps of plain text survive the column, and iteration visits every entry once. *)
Definition plain_headers (h : Headers) : Prop :=
  map_Forall (fun name values => plain_text name = true /\ Forall (fun v => plain_text v = true) values) h.

Class ColumnsLaws `{Columns} := {
  headers_survive h : plain_headers h -> headers_jsonb h = Some h;
  header_order_complete h : header_order h ≡ₚ map_to_list h;
}.

Record row := {
  request_fingerprint : string; owner_token : string; state : State; response_status : Z; response_headers : Headers;
  response_json : string; audit_event_json : string; expires_at : time; created_at : time; updated_at : time;
}.

Abbreviation table := (gmap Key row).

(** [textproto.CanonicalMIMEHeaderKey]: upper case after a hyphen and at the start, lower case elsewhere; names with other
    bytes than token bytes are left alone. *)
Definition is_token (c : Z) : bool := is_letter c || is_digit c || existsb (Z.eqb c) [33; 35; 36; 37; 38; 39; 42; 43; 45; 46; 94; 95; 96; 124; 126].

Fixpoint capitalize (upper : bool) (s : string) : string :=
  match s with
  | EmptyString => EmptyString
  | String a rest =>
      let c := byte_of a in
      let c' := if upper && (97 <=? c) && (c <=? 122) then c - 32 else if negb upper && (65 <=? c) && (c <=? 90) then c + 32 else c in
      String (Ascii.ascii_of_N (Z.to_N c')) (capitalize (c =? 45) rest)
  end.

Definition canonical_name (name : string) : string := if forallb is_token (bytes_of name) then capitalize true name else name.

(** [Header.Add] for every value of every name. *)
Definition add_values (h : Headers) (nv : string * list string) : Headers :=
  match snd nv with [] => h | values => <[canonical_name (fst nv) := default [] (h !! canonical_name (fst nv)) ++ values]> h end.

Section postgres.
Context `{Columns}.

Definition replayed_header (h : Headers) : Headers := foldl add_values ∅ (header_order h).

Definition stored_response (r : row) : Response :=
  {| Status := response_status r; Header := replayed_header (response_headers r); Body := response_json r |}.

(** [scanClaim]: a row as it is read. *)
Definition scanClaim (x : row) : outcome storedClaim :=
  let value response := {| sc_fingerprint := request_fingerprint x; sc_owner := owner_token x; sc_state := state x; sc_response := response;
                           sc_reconciliation := audit_event_json x; sc_createdAt := UTC (created_at x) |} in
  if IsZero (created_at x) then Err ErrInvalid
  else if bool_decide (state x = StateProcessing) then Ok (value {| Status := response_status x; Header := ∅; Body := response_json x |})
  else if negb (validateResponse (stored_response x)) then Err ErrInvalid
  else if negb (bool_decide (state x = StateCompleted)) && negb (validateReconciliation (audit_event_json x)) then Err ErrInvalid
  else Ok (value (stored_response x)).

(** The column for a reconciliation document: NULL when it is empty. *)
Definition reconciliation_column (value : string) : option string := if empty_string value then Some EmptyString else text_jsonb value.

(** A row as [insertClaimSQL] and [reclaimExpiredCompletedSQL] write it, if the table's checks admit it. *)
Definition fresh_row (r : ClaimRequest) : option row :=
  match reconciliation_column (Request_Reconciliation r) with
  | None => None
  | Some reconciliation =>
      let created := pg_time (UTC (Now r)) in
      let expires := pg_time (UTC (ExpiresAt r)) in
      if After expires created then
        Some {| request_fingerprint := Fingerprint r; owner_token := Request_Owner r; state := StateProcessing; response_status := 0; response_headers := ∅;
                response_json := EmptyString; audit_event_json := reconciliation; expires_at := expires; created_at := created; updated_at := created |}
      else None
  end.

Definition reclaimable (now : time) (x : row) : bool :=
  bool_decide (state x = StateCompleted) && negb (After (expires_at x) (pg_time (UTC now))).

(** The statements of [PostgresStore.Claim].  The insert checks the new row also when the key is taken. *)
Definition insert_body (r : ClaimRequest) (t : table) : outcome (option time) * table :=
  match fresh_row r with
  | None => (Err ErrExternal, t)
  | Some fresh => match t !! Request_Key r with Some _ => (Ok None, t) | None => (Ok (Some (created_at fresh)), <[Request_Key r := fresh]> t) end
  end.

Definition reclaim_body (r : ClaimRequest) (t : table) : outcome (option time) * table :=
  match t !! Request_Key r with
  | Some x => if reclaimable (Now r) x then match fresh_row r with Some fresh => (Ok (Some (created_at fresh)), <[Request_Key r := fresh]> t) | None => (Err ErrExternal, t) end
              else (Ok None, t)
  | None => (Ok None, t)
  end.

Definition select_body (key : Key) (t : table) : outcome (option storedClaim) * table :=
  (match t !! key with None => Ok None | Some x => match scanClaim x with Ok record => Ok (Some record) | Err e => Err e end end, t).

(** A fenced update of one row. *)
Definition fenced (fingerprint owner : string) (states : list State) (x : row) : bool :=
  bool_decide (request_fingerprint x = fingerprint) && bool_decide (owner_token x = owner) && existsb (fun s => bool_decide (state x = s)) states.

Definition update_row {A} (key : Key) (guard : row -> bool) (f : row -> option row) (a : A) (t : table) : outcome A * table :=
  match t !! key with
  | Some x => if guard x then match f x with Some x' => (Ok a, <[key := x']> t) | None => (Err ErrExternal, t) end else (Err ErrOwnershipConflict, t)
  | None => (Err ErrOwnershipConflict, t)
  end.

(** The row with a response, as the commit and the repair write it. *)
Definition with_response (response : Response) (reconciliation : string) (at_ : time) (x : row) : option row :=
  match headers_jsonb (Header response), text_jsonb reconciliation with
  | Some headers, Some document => Some
      {| request_fingerprint := request_fingerprint x; owner_token := owner_token x; state := StateSideEffectCommitted; response_status := Status response;
         response_headers := headers; response_json := Body response; audit_event_json := document; expires_at := expires_at x; created_at := created_at x;
         updated_at := pg_time (UTC at_) |}
  | _, _ => None
  end.

Definition with_state (s : State) (at_ : time) (x : row) : option row :=
  Some {| request_fingerprint := request_fingerprint x; owner_token := owner_token x; state := s; response_status := response_status x;
          response_headers := response_headers x; response_json := response_json x; audit_event_json := audit_event_json x; expires_at := expires_at x;
          created_at := created_at x; updated_at := pg_time (UTC at_) |}.

Definition abort_body (key : Key) (fingerprint owner : string) (t : table) : outcome unit * table :=
  match t !! key with
  | Some x => if fenced fingerprint owner [StateProcessing] x then (Ok tt, delete key t) else (Err ErrOwnershipConflict, t)
  | None => (Err ErrOwnershipConflict, t)
  end.

(** *** Calls on the shared world *)

(** The table, and what the database, the clock, the random source and the callbacks will answer. *)
Record world := World {
  records : table;
  verdicts : list verdict;
  clocks : list time;
  tokens : list (option (list Z));
  reconciliations : list (outcome unit);
  recoveries : list (outcome Response);
  reconciled : list Response;             (* the responses reconciled so far *)
}.

(** Run a statement or transaction on the table. *)
Definition on_table {A} (body : table -> outcome A * table) (w : world) : outcome A * world :=
  let '(v, rest) := match verdicts w with [] => (TxCommit, []) | v :: rest => (v, rest) end in
  let w' t := World t rest (clocks w) (tokens w) (reconciliations w) (recoveries w) (reconciled w) in
  match v with
  | TxFail => (Err ErrExternal, w' (records w))
  | TxCommit => let '(r, t) := body (records w) in (r, w' t)
  | TxLost => let '(r, t) := body (records w) in (Err ErrExternal, w' t)
  end.

Definition checked {A} (ok : bool) (body : table -> outcome A * table) (w : world) : outcome A * world :=
  if ok then on_table body w else (Err ErrInvalid, w).

Definition store_CommitSideEffect (key : Key) (fingerprint owner : string) (response : Response) (reconciliation : string) (at_ : time) : world -> outcome Response * world :=
  checked (valid_fence key fingerprint owner && validateResponse response && validateReconciliation reconciliation && negb (IsZero at_))
    (update_row key (fenced fingerprint owner [StateProcessing]) (with_response response reconciliation at_) response).

Definition store_RepairIncompleteSideEffect (key : Key) (fingerprint owner : string) (response : Response) (reconciliation : string) (at_ : time) : world -> outcome Response * world :=
  checked (valid_fence key fingerprint owner && validateResponse response && validateReconciliation reconciliation && negb (IsZero at_))
    (update_row key (fenced fingerprint owner [StateSideEffectCommitted; StateAudited]) (with_response response reconciliation at_) response).

Definition store_MarkAudited (key : Key) (fingerprint owner : string) (at_ : time) : world -> outcome unit * world :=
  checked (valid_fence key fingerprint owner && negb (IsZero at_))
    (update_row key (fenced fingerprint owner [StateSideEffectCommitted]) (with_state StateAudited at_) tt).

Definition store_Complete (key : Key) (fingerprint owner : string) (response : Response) (at_ : time) : world -> outcome Response * world :=
  checked (valid_fence key fingerprint owner && validateResponse response && negb (IsZero at_))
    (update_row key (fenced fingerprint owner [StateAudited]) (with_state StateCompleted at_) response).

Definition store_Abort (key : Key) (fingerprint owner : string) : world -> outcome unit * world :=
  checked (valid_fence key fingerprint owner) (abort_body key fingerprint owner).

(** [newOwnerToken]: 32 random bytes. *)
Definition newOwnerToken (random : option (list Z)) : outcome string :=
  match random with Some bytes => Ok ("owner-" +:+ hex_encode bytes)%string | None => Err ErrExternal end.

Definition exec {B} (c : call B) (w : world) : B * world :=
  match c in call B return B * world with
  | CNow => match clocks w with
            | [] => (zero_time, w)
            | t :: rest => (t, World (records w) (verdicts w) rest (tokens w) (reconciliations w) (recoveries w) (reconciled w))
            end
  | COwner => match tokens w with
              | [] => (Err ErrExternal, w)
              | x :: rest => (newOwnerToken x, World (records w) (verdicts w) (clocks w) rest (reconciliations w) (recoveries w) (reconciled w))
              end
  | CInsert r => on_table (insert_body r) w
  | CReclaim r => on_table (reclaim_body r) w
  | CSelect key => on_table (select_body key) w
  | CCommit key f o r d a => store_CommitSideEffect key f o r d a w
  | CRepair key f o r d a => store_RepairIncompleteSideEffect key f o r d a w
  | CAudited key f o a => store_MarkAudited key f o a w
  | CComplete key f o r a => store_Complete key f o r a w
  | CAbort key f o => store_Abort key f o w
  | CReconcile r _ =>
      let '(x, rest) := match reconciliations w with [] => (Ok tt, []) | x :: rest => (x, rest) end in
      (x, World (records w) (verdicts w) (clocks w) (tokens w) rest (recoveries w) (match x with Ok _ => reconciled w ++ [r] | Err _ => reconciled w end))
  | CRecover _ => match recoveries w with
                  | [] => (Err ErrExternal, w)
                  | x :: rest => (x, World (records w) (verdicts w) (clocks w) (tokens w) (reconciliations w) rest (reconciled w))
                  end
  end.

(** A handler alone. *)
Fixpoint run {A} (p : prog A) (w : world) : A * world :=
  match p with Return a => (a, w) | Call c k => let '(b, w') := exec c w in run (k b) w' end.
End postgres.

(** ** Concurrent handlers *)

(** What a handler of the HTTP layer returns. *)
Inductive answer := AClaim (r : outcome Claim) | AResponse (r : outcome Response) | AAborted (r : outcome unit).

(** A world shared by the programs of the running handlers. *)
Abbreviation system := (world * list (prog answer))%type.

Section system.
Context `{Columns}.

(** The handlers: a claim of one of the three kinds, a completion, or an abort. *)
Inductive handler : prog answer -> Prop :=
  | handler_begin svc key f : handler (prog_bind (fun r => Return (AClaim r)) (Begin svc key f))
  | handler_recoverable svc key f d : handler (prog_bind (fun r => Return (AClaim r)) (BeginRecoverable svc key f d))
  | handler_unreturned svc key f d : handler (prog_bind (fun r => Return (AClaim r)) (BeginUnreturnedRecoverable svc key f d))
  | handler_complete key f o r d : handler (prog_bind (fun r => Return (AResponse r)) (Complete key f o r d))
  | handler_abort key f o : handler (prog_bind (fun r => Return (AAborted r)) (Abort key f o)).

(** A step: one call of one handler, or a new handler.  A handler that never runs again has crashed. *)
Inductive sys_step : system -> system -> Prop :=
  | step_call {B} (c : call B) k i w ths b w' : ths !! i = Some (Call c k) -> exec c w = (b, w') -> sys_step (w, ths) (w', <[i := k b]> ths)
  | step_start p w ths : handler p -> sys_step (w, ths) (w, ths ++ [p]).

(** What one call can do to the record of a key. *)
Inductive row_step : option row -> option row -> Prop :=
  | row_same x : row_step x x
  | row_claimed x r : state x = StateProcessing -> fresh_row r = Some x -> row_step None (Some x)
  | row_reclaimed x y r : state x = StateCompleted -> instant (expires_at x) <= instant (created_at y) -> state y = StateProcessing ->
      fresh_row r = Some y -> row_step (Some x) (Some y)
  | row_committed x y r d a : state x = StateProcessing -> with_response r d a x = Some y -> row_step (Some x) (Some y)
  | row_repaired x y r d a : (state x = StateSideEffectCommitted \/ state x = StateAudited) -> with_response r d a x = Some y -> row_step (Some x) (Some y)
  | row_audited x y a : state x = StateSideEffectCommitted -> with_state StateAudited a x = Some y -> row_step (Some x) (Some y)
  | row_completed x y a : state x = StateAudited -> with_state StateCompleted a x = Some y -> row_step (Some x) (Some y)
  | row_aborted x : state x = StateProcessing -> row_step (Some x) None.

Lemma fresh_row_spec r x : fresh_row r = Some x ->
  state x = StateProcessing /\ owner_token x = Request_Owner r /\ request_fingerprint x = Fingerprint r /\ created_at x = pg_time (UTC (Now r)) /\
  instant (created_at x) < instant (expires_at x).
Proof.
  unfold fresh_row. intros Hr. case_hyp Hr. case_hyp Hr. injection Hr as <-. cbn. apply Z.ltb_lt in E0. by split_and!.
Qed.

Lemma with_response_spec r d a x y : with_response r d a x = Some y ->
  state y = StateSideEffectCommitted /\ owner_token y = owner_token x /\ request_fingerprint y = request_fingerprint x /\ expires_at y = expires_at x /\
  created_at y = created_at x.
Proof. unfold with_response. intros Hr. case_hyp Hr. case_hyp Hr. injection Hr as <-. by split_and!. Qed.

Lemma fenced_spec f o l x : fenced f o l x = true -> request_fingerprint x = f /\ owner_token x = o /\ state x ∈ l.
Proof.
  unfold fenced. rewrite !andb_true_iff, !bool_decide_eq_true. intros [[Hf Ho] Hs]. split_and!; [done..|].
  apply existsb_exists in Hs as (s & Hin & Hs). apply bool_decide_eq_true in Hs. subst s. by apply list_elem_of_In.
Qed.

(** Only the key of the call changes, along the phases. *)
Lemma at_key (key k : Key) (t t' : table) : (forall k', k' <> key -> t' !! k' = t !! k') -> row_step (t !! key) (t' !! key) -> row_step (t !! k) (t' !! k).
Proof. intros Hf Hs. destruct (decide (k = key)) as [->|]; [done|]. rewrite Hf by done. constructor. Qed.

Lemma insert_body_step r t o t' k : insert_body r t = (o, t') -> row_step (t !! k) (t' !! k).
Proof.
  unfold insert_body. destruct (fresh_row r) as [x|] eqn:E; [|intros [= <- <-]; constructor]. destruct (fresh_row_spec _ _ E) as (Hs & _).
  destruct (t !! Request_Key r) as [y|] eqn:Ey; intros [= <- <-]; [constructor|].
  apply (at_key (Request_Key r)); [intros; by rewrite lookup_insert_ne|]. rewrite Ey, lookup_insert_eq. by apply (row_claimed x r).
Qed.
Lemma reclaim_body_step r t o t' k : reclaim_body r t = (o, t') -> row_step (t !! k) (t' !! k).
Proof.
  unfold reclaim_body. destruct (t !! Request_Key r) as [y|] eqn:Ey; [|intros [= <- <-]; constructor]. destruct (reclaimable (Now r) y) eqn:Er; [|intros [= <- <-]; constructor].
  destruct (fresh_row r) as [x|] eqn:E; intros [= <- <-]; [|constructor]. destruct (fresh_row_spec _ _ E) as (Hs & _ & _ & Hc & _).
  apply (at_key (Request_Key r)); [intros; by rewrite lookup_insert_ne|]. rewrite Ey, lookup_insert_eq.
  unfold reclaimable in Er. apply andb_true_iff in Er as [Hst Ha%negb_true_iff]. apply bool_decide_eq_true in Hst.
  apply (row_reclaimed y x r); [done| |done|done]. rewrite Hc. unfold After in Ha. lia.
Qed.

Lemma update_row_step {A} key f o l g (a : A) t r t' k :
  (forall x y, state x ∈ l -> g x = Some y -> row_step (Some x) (Some y)) ->
  update_row key (fenced f o l) g a t = (r, t') -> row_step (t !! k) (t' !! k).
Proof.
  intros Hg. unfold update_row. destruct (t !! key) as [x|] eqn:Ex; [|intros [= <- <-]; constructor].
  destruct (fenced f o l x) eqn:Ef; [|intros [= <- <-]; constructor]. destruct (g x) as [y|] eqn:Eg; intros [= <- <-]; [|constructor].
  apply (at_key key); [intros; by rewrite lookup_insert_ne|]. rewrite Ex, lookup_insert_eq. apply fenced_spec in Ef as (_ & _ & Hs). by apply Hg.
Qed.

Lemma abort_body_step key f o t r t' k : abort_body key f o t = (r, t') -> row_step (t !! k) (t' !! k).
Proof.
  unfold abort_body. destruct (t !! key) as [x|] eqn:Ex; [|intros [= <- <-]; constructor].
  destruct (fenced f o [StateProcessing] x) eqn:Ef; intros [= <- <-]; [|constructor].
  apply (at_key key); [intros; by rewrite lookup_delete_ne|]. rewrite Ex, lookup_delete_eq. apply fenced_spec in Ef as (_ & _ & Hs%list_elem_of_singleton). by constructor.
Qed.

Lemma on_table_step {A} (body : table -> outcome A * table) w r w' k :
  (forall t o t', body t = (o, t') -> row_step (t !! k) (t' !! k)) -> on_table body w = (r, w') -> row_step (records w !! k) (records w' !! k).
Proof.
  intros Hb. unfold on_table. destruct (match verdicts w with [] => _ | _ => _ end) as [[| |] rest]; [..|intros [= <- <-]; constructor|];
    destruct (body (records w)) as [o t'] eqn:E; intros [= <- <-]; cbn; by eapply Hb.
Qed.
Lemma checked_step {A} ok (body : table -> outcome A * table) w r w' k :
  (forall t o t', body t = (o, t') -> row_step (t !! k) (t' !! k)) -> checked ok body w = (r, w') -> row_step (records w !! k) (records w' !! k).
Proof. intros Hb. unfold checked. destruct ok; [by apply on_table_step|intros [= <- <-]; constructor]. Qed.

(** Every call changes every record along the phases. *)
Lemma exec_step {B} (c : call B) w b w' k : exec c w = (b, w') -> row_step (records w !! k) (records w' !! k).
Proof.
  destruct c; cbn [exec]; intros Hx.
  - destruct (clocks w); injection Hx as <- <-; constructor.
  - destruct (tokens w); injection Hx as <- <-; constructor.
  - eapply on_table_step, Hx. intros t o t'. apply insert_body_step.
  - eapply on_table_step, Hx. intros t o t'. apply reclaim_body_step.
  - eapply on_table_step, Hx. intros t o t' [= <- <-]. constructor.
  - eapply checked_step, Hx. intros t o t'. apply update_row_step. intros x y Hs%list_elem_of_singleton Hy. by eapply row_committed.
  - eapply checked_step, Hx. intros t o t'. apply update_row_step. intros x y Hs Hy. eapply row_repaired; [|done]. set_solver.
  - eapply checked_step, Hx. intros t o t'. apply update_row_step. intros x y Hs%list_elem_of_singleton Hy. by eapply row_audited.
  - eapply checked_step, Hx. intros t o t'. apply update_row_step. intros x y Hs%list_elem_of_singleton Hy. by eapply row_completed.
  - eapply checked_step, Hx. intros t o t'. apply abort_body_step.
  - destruct (match reconciliations w with [] => _ | _ => _ end). injection Hx as <- <-. constructor.
  - destruct (recoveries w); injection Hx as <- <-; constructor.
Qed.

Lemma sys_step_row s s' k : sys_step s s' -> row_step (records (fst s) !! k) (records (fst s') !! k).
Proof. intros [B c kont i w ths b w' _ Hx|p w ths _]; cbn; [by eapply exec_step|constructor]. Qed.

(** *** Exclusive claims *)

(** A step after which the key still has a record. *)
Definition holding (k : Key) (s s' : system) : Prop := sys_step s s' /\ is_Some (records (fst s') !! k).

(** The record [y] continues the claim of [x], or was claimed after [x] had expired. *)
Definition same_claim_or_expired (x y : row) : Prop :=
  (owner_token y = owner_token x /\ request_fingerprint y = request_fingerprint x /\ expires_at y = expires_at x /\ created_at y = created_at x)
  \/ (instant (expires_at x) <= instant (created_at y) < instant (expires_at y)).

Lemma row_step_claim x y z : same_claim_or_expired x y -> row_step (Some y) (Some z) -> same_claim_or_expired x z.
Proof.
  intros Hxy Hs. inversion Hs as [|?|y' z' r Hc He Hp Hf|y' z' r d a Hp Hw|y' z' r d a Hp Hw|y' z' a Hp Hw|y' z' a Hp Hw|]; subst; [done|..].
  - right. apply fresh_row_spec in Hf as (_ & _ & _ & _ & Hlt). destruct Hxy as [(_ & _ & Hex & _)|]; [rewrite Hex in He|]; lia.
  - apply with_response_spec in Hw as (_ & Ho & Hf & He & Hc). unfold same_claim_or_expired. by rewrite Ho, Hf, He, Hc.
  - apply with_response_spec in Hw as (_ & Ho & Hf & He & Hc). unfold same_claim_or_expired. by rewrite Ho, Hf, He, Hc.
  - by injection Hw as <-.
  - by injection Hw as <-.
Qed.

Lemma holding_claim k s s' x : records (fst s) !! k = Some x -> rtc (holding k) s s' ->
  exists y, records (fst s') !! k = Some y /\ same_claim_or_expired x y.
Proof.
  intros Hx Hrun. assert (Hc : exists y, records (fst s) !! k = Some y /\ same_claim_or_expired x y) by (exists x; split; [done|by left]).
  clear Hx. induction Hrun as [s|s s1 s' [Hstep [z Hz]] _ IH]; [done|]. apply IH. destruct Hc as (y & Hy & Hxy).
  exists z. split; [done|]. apply (sys_step_row _ _ k) in Hstep. rewrite Hy, Hz in Hstep. by eapply row_step_claim.
Qed.

(** A claim is granted by the statement that writes its row; the program of the store reports no other claim as granted. *)
Definition grants {B} (r : ClaimRequest) (c : call B) : B -> Prop :=
  match c in call B return B -> Prop with
  | CInsert r' | CReclaim r' => fun b => r' = r /\ exists created, b = Ok (Some created)
  | _ => fun _ => False
  end.
(** A statement that succeeded. *)
Lemma on_table_Ok {A} (body : table -> outcome A * table) w a w' : on_table body w = (Ok a, w') ->
  body (records w) = (Ok a, records w') /\ reconciled w' = reconciled w /\ recoveries w' = recoveries w /\ clocks w' = clocks w.
Proof.
  unfold on_table. destruct (match verdicts w with [] => _ | _ => _ end) as [[| |] rest]; [|discriminate|]; destruct (body (records w)) as [o t'] eqn:E; intros [= ? <-]; by subst.
Qed.
Lemma claim_granted {B} (c : call B) r w b w' : exec c w = (b, w') -> grants r c b ->
  match records w !! Request_Key r with Some x => reclaimable (Now r) x = true | None => True end.
Proof.
  destruct c; try done; cbn [exec grants]; intros Hx [-> [created ->]]; apply on_table_Ok in Hx as [Hb _].
  - unfold insert_body in Hb. case_hyp Hb. by destruct (records w !! Request_Key r).
  - unfold reclaim_body in Hb. destruct (records w !! Request_Key r); [|done]. by destruct (reclaimable _ _).
Qed.

(** The record of a key disappears only by an abort that presents its fingerprint and owner token, in the processing phase. *)
Definition owner_aborts {B} (k : Key) (x : row) (c : call B) : Prop :=
  match c with CAbort key f o => key = k /\ f = request_fingerprint x /\ o = owner_token x /\ state x = StateProcessing | _ => False end.

Lemma on_table_keeps {A} (body : table -> outcome A * table) w r w' (k : Key) :
  (forall t o t', body t = (o, t') -> is_Some (t !! k) -> is_Some (t' !! k)) -> on_table body w = (r, w') -> is_Some (records w !! k) -> is_Some (records w' !! k).
Proof.
  intros Hb. unfold on_table. destruct (match verdicts w with [] => _ | _ => _ end) as [[| |] rest]; [|by intros [= <- <-]|]; destruct (body (records w)) as [o t'] eqn:E; intros [= <- <-]; cbn; by eapply Hb.
Qed.
Lemma checked_keeps {A} ok (body : table -> outcome A * table) w r w' (k : Key) :
  (forall t o t', body t = (o, t') -> is_Some (t !! k) -> is_Some (t' !! k)) -> checked ok body w = (r, w') -> is_Some (records w !! k) -> is_Some (records w' !! k).
Proof. intros Hb. unfold checked. destruct ok; [by apply on_table_keeps|by intros [= <- <-]]. Qed.

Lemma insert_keeps (t : table) k k' x : is_Some (t !! k) -> is_Some (<[k' := x]> t !! k).
Proof. intros Hk. destruct (decide (k = k')) as [->|]; [rewrite lookup_insert_eq|rewrite lookup_insert_ne by done]; eauto. Qed.

Lemma update_row_keeps {A} key guard g (a : A) t r t' k : update_row key guard g a t = (r, t') -> is_Some (t !! k) -> is_Some (t' !! k).
Proof.
  unfold update_row. destruct (t !! key) as [x|]; [|by intros [= <- <-]]. destruct (guard x); [|by intros [= <- <-]].
  destruct (g x); intros [= <- <-]; [apply insert_keeps|done].
Qed.

Lemma record_removed {B} (c : call B) w b w' k x : exec c w = (b, w') -> records w !! k = Some x -> records w' !! k = None -> owner_aborts k x c.
Proof.
  intros Hx Hr Hn. assert (Hs : is_Some (records w !! k)) by (by rewrite Hr). assert (Hns : ~ is_Some (records w' !! k)) by (rewrite Hn; by intros []).
  destruct c; cbn [exec owner_aborts] in *; try (eapply Hns, (on_table_keeps _ _ _ _ _), Hs; [|exact Hx]; intros t o t'); try (eapply Hns, checked_keeps, Hs; [|exact Hx]; intros t o t'; apply update_row_keeps).
  - apply Hns. destruct (clocks w); by injection Hx as <- <-.
  - apply Hns. destruct (tokens w); by injection Hx as <- <-.
  - unfold insert_body. destruct (fresh_row r); [|by intros [= <- <-]]. destruct (t !! Request_Key r); intros [= <- <-]; (apply insert_keeps || done).
  - unfold reclaim_body. destruct (t !! Request_Key r) as [y|]; [|by intros [= <- <-]]. destruct (reclaimable _ y); [|by intros [= <- <-]].
    destruct (fresh_row r); intros [= <- <-]; (apply insert_keeps || done).
  - by intros [= <- <-].
  - revert Hx. unfold store_Abort, checked, on_table. case_goal; [|by intros [= _ <-]; congruence].
    destruct (match verdicts w with [] => _ | _ => _ end) as [[| |] rest]; [|by intros [= _ <-]; cbn in Hn; congruence|];
      unfold abort_body; (destruct (records w !! key) as [y|] eqn:Ey; [|by intros [= _ <-]; cbn in Hn; congruence]);
      (destruct (fenced fingerprint owner [StateProcessing] y) eqn:Ef; intros [= _ <-]; cbn in Hn; [|congruence]);
      (destruct (decide (k = key)) as [->|]; [|rewrite lookup_delete_ne in Hn by done; congruence]); rewrite Hr in Ey; injection Ey as <-;
      apply fenced_spec in Ef as (Hf & Ho & Hst%list_elem_of_singleton); done.
  - apply Hns. destruct (match reconciliations w with [] => _ | _ => _ end). by injection Hx as <- <-.
  - apply Hns. destruct (recoveries w); by injection Hx as <- <-.
Qed.

(** C38.  A claimed key has one owner.  While handlers run concurrently, the record of a claimed key keeps its owner,
    fingerprint and expiry until it is completed and has expired; as long as it is there no claim of the key is granted
    before that expiry; and it goes away only when an abort presents its fingerprint and owner token. *)
Theorem claims_are_exclusive s k x : records (fst s) !! k = Some x ->
  (forall s', rtc (holding k) s s' ->
     (exists y, records (fst s') !! k = Some y /\ same_claim_or_expired x y) /\
     (forall r B (c : call B) b w', Request_Key r = k -> exec c (fst s') = (b, w') -> grants r c b ->
        instant (expires_at x) <= instant (pg_time (UTC (Now r))))) /\
  (forall B (c : call B) b w', exec c (fst s) = (b, w') -> records w' !! k = None -> owner_aborts k x c).
Proof.
  intros Hx. split; [|intros B c b w' Hc Hn; by eapply record_removed].
  intros s' Hrun. destruct (holding_claim _ _ _ _ Hx Hrun) as (y & Hy & Hxy). split; [by exists y|].
  intros r B c b w' <- Hc Hg. pose proof (claim_granted _ _ _ _ _ Hc Hg) as Hre. rewrite Hy in Hre.
  apply andb_true_iff in Hre as [_ Hre%negb_true_iff]. unfold After in Hre. destruct Hxy as [(_ & _ & He & _)|]; [rewrite He in Hre|]; lia.
Qed.

(** *** Replay *)

Lemma row_step_completed x o : row_step (Some x) o -> state x = StateCompleted ->
  o = Some x \/ exists y, o = Some y /\ instant (expires_at x) <= instant (created_at y).
Proof.
  intros Hs Hc. remember (Some x) as a eqn:Ha.
  destruct Hs as [|?|? y|? ? ? ? ? Hp|? ? ? ? ? [Hp|Hp]|? ? ? Hp|? ? ? Hp|? Hp]; simplify_eq; try congruence; [by left|right; by exists y].
Qed.

(** A completed record changes only by a claim after it expired. *)
Lemma completed_is_final k s s' x : records (fst s) !! k = Some x -> state x = StateCompleted -> rtc sys_step s s' ->
  records (fst s') !! k = Some x \/
  exists s1 y, rtc sys_step s s1 /\ rtc sys_step s1 s' /\ records (fst s1) !! k = Some y /\ instant (expires_at x) <= instant (created_at y).
Proof.
  intros Hx Hc Hrun. induction Hrun as [s|s s1 s' Hstep Hrest IH]; [by left|].
  pose proof (sys_step_row _ _ k Hstep) as Hr. rewrite Hx in Hr. destruct (row_step_completed _ _ Hr Hc) as [Hs1|(y & Hs1 & He)].
  - destruct (IH Hs1) as [|(s2 & y & Hs2 & Hs' & Hy)]; [by left|]. right. exists s2, y. split; [by eapply rtc_l|done].
  - right. exists s1, y. split; [by apply rtc_once|]. done.
Qed.

Lemma checked_Ok {A} ok (body : table -> outcome A * table) w a w' : checked ok body w = (Ok a, w') ->
  ok = true /\ body (records w) = (Ok a, records w') /\ reconciled w' = reconciled w /\ recoveries w' = recoveries w /\ clocks w' = clocks w.
Proof. unfold checked. destruct ok; [|discriminate]. intros Hx. split; [done|]. by apply on_table_Ok. Qed.

Lemma update_row_Ok {A} key f o l g (a : A) t r t' : update_row key (fenced f o l) g a t = (Ok r, t') ->
  r = a /\ exists x y, t !! key = Some x /\ request_fingerprint x = f /\ owner_token x = o /\ state x ∈ l /\ g x = Some y /\ t' = <[key := y]> t.
Proof.
  unfold update_row. destruct (t !! key) as [x|]; [|discriminate]. destruct (fenced f o l x) eqn:Ef; [|discriminate]. destruct (g x) as [y|] eqn:Eg; [|discriminate].
  intros [= <- <-]. apply fenced_spec in Ef as (? & ? & ?). split; [done|]. exists x, y. by split_and!.
Qed.

(** The clock only moves on. *)
Lemma exec_CNow w t w' : exec CNow w = (t, w') -> records w' = records w /\ reconciled w' = reconciled w /\ recoveries w' = recoveries w.
Proof. cbn [exec]. destruct (clocks w); by intros [= <- <-]. Qed.

Lemma run_Call {A B} (c : call B) (k : B -> prog A) w : run (Call c k) w = let '(b, w') := exec c w in run (k b) w'.
Proof. done. Qed.

Lemma exec_CReconcile_Ok resp d w w' : exec (CReconcile resp d) w = (Ok tt, w') -> records w' = records w /\ reconciled w' = reconciled w ++ [resp].
Proof. cbn [exec]. destruct (match reconciliations w with [] => _ | _ => _ end) as [x rest]. by intros [= -> <-]. Qed.

(** A row that carries a response as it was stored. *)
Definition carries (response : Response) (x : row) : Prop :=
  response_status x = Status response /\ response_json x = Body response /\ headers_jsonb (Header response) = Some (response_headers x).

(** A completion that succeeds: the record was processing under the presented fence, its response was reconciled, and it is completed. *)
Lemma Complete_Ok key f o response d w r w1 : run (Complete key f o response d) w = (Ok r, w1) ->
  r = response /\ reconciled w1 = reconciled w ++ [response] /\
  exists x y, records w !! key = Some x /\ state x = StateProcessing /\ request_fingerprint x = f /\ owner_token x = o /\
    records w1 !! key = Some y /\ state y = StateCompleted /\ request_fingerprint y = f /\ expires_at y = expires_at x /\ carries response y.
Proof.
  unfold Complete. intros Hrun. case_hyp Hrun. rewrite run_Call in Hrun. destruct (exec CNow w) as [t1 wa] eqn:E1. apply exec_CNow in E1 as (Ra & La & _).
  rewrite run_Call in Hrun. destruct (exec (CCommit key f o response d (UTC t1)) wa) as [[committed|] wb] eqn:E2; [|discriminate].
  cbn [exec] in E2. apply checked_Ok in E2 as (_ & (-> & x & y & Hx & Hf & Ho & Hs%list_elem_of_singleton & Hy & Hwb)%update_row_Ok & Lb & _).
  case_hyp Hrun. rewrite run_Call in Hrun. destruct (exec (CReconcile response d) wb) as [[[]|] wc] eqn:E3; [|discriminate].
  apply exec_CReconcile_Ok in E3 as [Rc Lc]. rewrite run_Call in Hrun. destruct (exec CNow wc) as [t2 wd] eqn:E4. apply exec_CNow in E4 as (Rd & Ld & _).
  rewrite run_Call in Hrun. destruct (exec (CAudited key f o (UTC t2)) wd) as [[[]|] we] eqn:E5; [|discriminate].
  cbn [exec] in E5. apply checked_Ok in E5 as (_ & (_ & y1 & y2 & Hy1 & _ & _ & _ & Hy2 & Hwe)%update_row_Ok & Le & _).
  rewrite run_Call in Hrun. destruct (exec CNow we) as [t3 wf] eqn:E6. apply exec_CNow in E6 as (Rf & Lf & _).
  rewrite run_Call in Hrun. destruct (exec (CComplete key f o response (UTC t3)) wf) as [[done_|] wg] eqn:E7; [|discriminate].
  cbn [exec] in E7. apply checked_Ok in E7 as (_ & (-> & z1 & z2 & Hz1 & _ & _ & _ & Hz2 & Hwg)%update_row_Ok & Lg & _).
  case_hyp Hrun. injection Hrun as <- <-. split; [done|]. split; [by rewrite Lg, Lf, Le, Ld, Lc, Lb, La|].
  assert (y1 = y) as ->. { rewrite Rd, Rc, Hwb, lookup_insert_eq in Hy1. by injection Hy1. }
  assert (z1 = y2) as ->. { rewrite Rf, Hwe, lookup_insert_eq in Hz1. by injection Hz1. }
  injection Hy2 as <-. injection Hz2 as <-. rewrite Ra in Hx. apply with_response_spec in Hy as Hspec. destruct Hspec as (_ & Hoy & Hfy & Hey & _).
  exists x. eexists. split; [done|]. split; [done|]. split; [done|]. split; [done|]. split; [by rewrite Hwg, lookup_insert_eq|]. cbn.
  split; [done|]. split; [by rewrite Hfy|]. split; [done|]. unfold with_response in Hy. case_hyp Hy. case_hyp Hy. injection Hy as <-. by split_and!.
Qed.

Lemma run_bind {A B} (f : A -> prog B) p : forall w, run (prog_bind f p) w = let '(a, w') := run p w in run (f a) w'.
Proof. induction p as [a|C c k IH]; intros w; [done|]. cbn [prog_bind run]. destruct (exec c w). apply IH. Qed.

Lemma existing_completed r x record c : state x = StateCompleted -> scanClaim x = Ok record -> existing_claim r record = Ok c ->
  request_fingerprint x = Fingerprint r /\ c = completed_claim zero_time (stored_response x) /\ validateResponse (stored_response x) = true.
Proof.
  intros Hc Hs Hex. unfold scanClaim in Hs. rewrite Hc, (bool_decide_false (StateCompleted = StateProcessing)), (bool_decide_true (StateCompleted = StateCompleted)) in Hs by done.
  cbn in Hs. case_hyp Hs. destruct (validateResponse (stored_response x)) eqn:Hv; [|discriminate Hs]. injection Hs as <-. unfold existing_claim in Hex. cbn in Hex.
  case_hyp Hex. bool_simpl. by injection Hex as <-.
Qed.

(** A claim that finds a completed record. *)
Lemma store_Claim_completed r w c w' x : records w !! Request_Key r = Some x -> state x = StateCompleted -> run (store_Claim r) w = (Ok c, w') ->
  (Claimed c = true /\ instant (expires_at x) <= instant (pg_time (UTC (Now r)))) \/
  (c = completed_claim zero_time (stored_response x) /\ request_fingerprint x = Fingerprint r /\ validateResponse (stored_response x) = true /\
   records w' = records w /\ reconciled w' = reconciled w /\ recoveries w' = recoveries w).
Proof.
  intros Hx Hc Hrun. unfold store_Claim in Hrun. case_hyp Hrun. rewrite run_Call in Hrun. cbn [exec] in Hrun. destruct (on_table (insert_body r) w) as [[inserted|] w1] eqn:E1; [|discriminate].
  apply on_table_Ok in E1 as (B1 & L1 & V1 & _). unfold insert_body in B1. case_hyp B1. rewrite Hx in B1. injection B1 as <- R1.
  rewrite run_Call in Hrun. cbn [exec] in Hrun. destruct (on_table (reclaim_body r) w1) as [[reclaimed|] w2] eqn:E2; [|discriminate].
  apply on_table_Ok in E2 as (B2 & L2 & V2 & _). unfold reclaim_body in B2. rewrite <- R1, Hx in B2. destruct (reclaimable (Now r) x) eqn:Er.
  - case_hyp B2. injection B2 as <- _. injection Hrun as <- _. left. split; [done|]. apply andb_true_iff in Er as [_ Er%negb_true_iff]. unfold After in Er. lia.
  - injection B2 as <- R2. rewrite run_Call in Hrun. cbn [exec] in Hrun. destruct (on_table (select_body (Request_Key r)) w2) as [[found|] w3] eqn:E3; [|discriminate].
    apply on_table_Ok in E3 as (B3 & L3 & V3 & _). unfold select_body in B3. rewrite <- R2, Hx in B3. destruct (scanClaim x) as [record|] eqn:Es; [|done]. injection B3 as <- R3.
    injection Hrun as Hex <-. destruct (existing_completed _ _ _ _ Hc Es Hex) as (Hf & -> & Hv). right. rewrite L3, L2, L1, V3, V2, V1. by split_and!.
Qed.

Lemma begin_completed svc key f d recover inc w claim w2 x : records w !! key = Some x -> state x = StateCompleted ->
  run (begin svc key f d recover inc) w = (Ok claim, w2) ->
  (Claimed claim = true /\ instant (expires_at x) <= instant (pg_time (UTC (default zero_time (head (clocks w)))))) \/
  (claim = completed_claim zero_time (stored_response x) /\ f = request_fingerprint x /\ records w2 = records w /\ reconciled w2 = reconciled w /\ recoveries w2 = recoveries w).
Proof.
  intros Hx Hc. unfold begin. intros Hrun. case_hyp Hrun. rewrite run_Call in Hrun. destruct (exec CNow w) as [t1 wa] eqn:E1.
  assert (Ht : t1 = default zero_time (head (clocks w))) by (revert E1; cbn [exec]; destruct (clocks w); by intros [= <- _]).
  apply exec_CNow in E1 as (Ra & La & Va). cbv zeta in Hrun. rewrite run_Call in Hrun. destruct (exec COwner wa) as [o wb] eqn:E2.
  assert (Hb : records wb = records wa /\ reconciled wb = reconciled wa /\ recoveries wb = recoveries wa) by (revert E2; cbn [exec]; destruct (tokens wa); by intros [= _ <-]).
  destruct Hb as (Rb & Lb & Vb). destruct o as [owner|]; [|discriminate]. case_hyp Hrun. rewrite run_bind in Hrun.
  destruct (run (store_Claim _) wb) as [[c|] wc] eqn:E3; [|discriminate].
  assert (Hxb : records wb !! key = Some x) by (by rewrite Rb, Ra). pose proof (fun Hk => store_Claim_completed _ _ _ _ x Hk Hc E3) as Hstore. destruct (Hstore Hxb) as [[Hcl He]|(-> & Hf & Hv & Rc & Lc & Vc)].
  - rewrite Hcl in Hrun. destruct (fresh_claim_ok _ _ _ _); [|discriminate Hrun]. injection Hrun as <- _. left. split; [done|]. by rewrite <- Ht.
  - right. cbn in Hrun, Hf. rewrite (bool_decide_false (StateCompleted = StateProcessing)), Hv in Hrun by done. cbn in Hrun. rewrite andb_false_r in Hrun. cbn in Hrun. injection Hrun as <- <-.
    rewrite Rc, Lc, Vc, Rb, Lb, Vb, Ra, La, Va. by split_and!.
Qed.

(** A completed response is final and is replayed.  After a completion that succeeded, whatever other handlers do, a
    claim of the same key that returns gets exactly the completed status and body, with canonical header names, and runs
    nothing; only a claim after the expiry can start the request again. *)
Theorem completed_responses_are_replayed `{!ColumnsLaws} key f o response d w r w1 :
  run (Complete key f o response d) w = (Ok r, w1) -> plain_headers (Header response) ->
  exists x, records w1 !! key = Some x /\ reconciled w1 = reconciled w ++ [response] /\
    forall ths s, rtc sys_step (w1, ths) s ->
      (exists s1 y, rtc sys_step (w1, ths) s1 /\ rtc sys_step s1 s /\ records (fst s1) !! key = Some y /\ instant (expires_at x) <= instant (created_at y)) \/
      forall svc f' d' recover inc claim w2, run (begin svc key f' d' recover inc) (fst s) = (Ok claim, w2) ->
        (Claimed claim = true /\ instant (expires_at x) <= instant (pg_time (UTC (default zero_time (head (clocks (fst s))))))) \/
        (claim = completed_claim zero_time {| Status := Status response; Header := replayed_header (Header response); Body := Body response |} /\ f' = f /\
         records w2 = records (fst s) /\ reconciled w2 = reconciled (fst s) /\ recoveries w2 = recoveries (fst s)).
Proof.
  intros Hrun Hplain. destruct (Complete_Ok _ _ _ _ _ _ _ _ Hrun) as (-> & Hrec & x0 & x & _ & _ & _ & _ & Hx & Hc & Hf & _ & Hst & Hbody & Hh).
  exists x. split; [done|]. split; [done|]. intros ths s Hsteps.
  destruct (completed_is_final key (w1, ths) s x Hx Hc Hsteps) as [Hxs|Hexp]; [right|by left].
  intros svc f' d' recover inc claim w2 Hb. destruct (begin_completed _ _ _ _ _ _ _ _ _ _ Hxs Hc Hb) as [|(-> & -> & Hrest)]; [by left|right].
  rewrite headers_survive in Hh by done. injection Hh as Hh. split; [|by rewrite Hf].
  unfold stored_response. by rewrite Hst, Hbody, Hh.
Qed.

(** *** Retries *)

(** A stored record that a retry can read. *)
Record readable (x : row) : Prop := {
  readable_created : IsZero (created_at x) = false;
  readable_owner : ownerPattern (owner_token x) = true;
  readable_response : validateResponse (stored_response x) = true;
}.

(** The three ways to begin a request: without recovery, with the recovery of requests in the processing phase, and for responses
    that are not kept, where the recovery also replaces a response that was stored but not completed. *)
Inductive entry := AsBegin | AsRecoverable (reconciliation : string) | AsUnreturned (reconciliation : string).
Definition entry_document (e : entry) : string := match e with AsBegin => EmptyString | AsRecoverable d | AsUnreturned d => d end.
Definition recovers (e : entry) : bool := match e with AsBegin => false | _ => true end.
Definition replaces (e : entry) : bool := match e with AsUnreturned _ => true | _ => false end.
Definition entry_program (svc : Service) (key : Key) (f : string) (e : entry) : prog (outcome Claim) :=
  match e with AsBegin => Begin svc key f | AsRecoverable d => BeginRecoverable svc key f d | AsUnreturned d => BeginUnreturnedRecoverable svc key f d end.

(** The claim request of an entry at an instant with a token, and that it passes the checks of the service and of the table. *)
Definition begin_request (svc : Service) (key : Key) (f : string) (e : entry) (owner : string) (at_ : time) : ClaimRequest :=
  {| Request_Key := key; Fingerprint := f; Request_Owner := owner; Request_Reconciliation := entry_document e; RecoverProcessing := recovers e; Now := UTC at_;
     ExpiresAt := AddDuration (UTC at_) (if ttl svc <=? 0 then DefaultTTL else ttl svc) |}.
Definition admissible (svc : Service) (key : Key) (f : string) (e : entry) (owner : string) (at_ : time) : Prop :=
  (recovers e = true -> validateReconciliation (entry_document e) = true) /\ valid_claim (begin_request svc key f e owner at_) = true /\
  is_Some (fresh_row (begin_request svc key f e owner at_)).

Definition incomplete_claim (x : row) : Claim :=
  {| Claimed := false; OwnerToken := owner_token x; Claim_State := state x; CreatedAt := UTC (created_at x); Claim_Response := Some (stored_response x);
     Claim_Reconciliation := audit_event_json x |}.

(** A claim on a table that answers, for a key whose request has a response. *)
Lemma store_Claim_incomplete r t x cl tk rc rv l : valid_claim r = true -> is_Some (fresh_row r) -> t !! Request_Key r = Some x -> readable x ->
  state x = StateSideEffectCommitted \/ state x = StateAudited -> request_fingerprint x = Fingerprint r ->
  run (store_Claim r) (World t [] cl tk rc rv l) = (if validateReconciliation (audit_event_json x) then Ok (incomplete_claim x) else Err ErrInvalid, World t [] cl tk rc rv l).
Proof.
  intros Hv [fresh Hfresh] Hx [Hcr _ Hresp] Hst Hf. unfold store_Claim. rewrite Hv. cbn [negb run exec on_table verdicts records].
  unfold insert_body. rewrite Hfresh, Hx. cbn [run exec on_table verdicts records clocks tokens reconciliations recoveries reconciled].
  unfold reclaim_body. rewrite Hx. assert (Hrc : reclaimable (Now r) x = false) by (unfold reclaimable; rewrite bool_decide_false; [done|by destruct Hst as [-> | ->]]).
  rewrite Hrc. cbn [run exec on_table verdicts records clocks tokens reconciliations recoveries reconciled].
  unfold select_body. rewrite Hx. unfold scanClaim. rewrite Hcr, Hresp, (bool_decide_false (state x = StateProcessing)), (bool_decide_false (state x = StateCompleted)) by (by destruct Hst as [-> | ->]).
  destruct (validateReconciliation (audit_event_json x)); [|done]. cbn [negb andb run]. unfold existing_claim, incomplete_claim. cbn. rewrite (bool_decide_true (request_fingerprint x = _)) by done.
  by destruct Hst as [-> | ->].
Qed.

(** A fenced update on a table that answers. *)
Lemma update_hit {A} key f o l g (a : A) t x y cl tk rc rv log : t !! key = Some x -> fenced f o l x = true -> g x = Some y ->
  checked true (update_row key (fenced f o l) g a) (World t [] cl tk rc rv log) = (Ok a, World (<[key := y]> t) [] cl tk rc rv log).
Proof. intros Hx Hf Hg. unfold checked, on_table, update_row. cbn. by rewrite Hx, Hf, Hg. Qed.

Lemma fenced_self x l : state x ∈ l -> fenced (request_fingerprint x) (owner_token x) l x = true.
Proof.
  intros Hs. unfold fenced. rewrite !bool_decide_true by done. apply existsb_exists. exists (state x). split; [by apply list_elem_of_In|by apply bool_decide_true].
Qed.

(** The row after [with_state]. *)
Definition in_state (s : State) (at_ : time) (x : row) : row := default x (with_state s at_ x).

(** The record of the key is completed, with the response of [x]. *)
Definition completes (key : Key) (x y : row) (w : world) : Prop :=
  records w !! key = Some y /\ state y = StateCompleted /\ stored_response y = stored_response x /\ forall r, carries r x -> carries r y.

(** The last phases for a record [x] that the claim fences. *)
Lemma begin_complete_run key x inc claim response t at_ cl tk rc rv l : validateKey key = true -> fingerprintPattern (request_fingerprint x) = true ->
  ownerPattern (owner_token x) = true -> validateResponse response = true -> IsZero at_ = false -> OwnerToken claim = owner_token x -> t !! key = Some x -> state x = StateAudited ->
  run (begin_complete key (request_fingerprint x) inc claim response) (World t [] (at_ :: cl) tk rc rv l) =
  (Ok (completed_claim zero_time response), World (<[key := in_state StateCompleted (UTC at_) x]> t) [] cl tk rc rv l).
Proof.
  intros Hkey Hfp Hown Hresp Hz Ho Hx Hst. unfold begin_complete. cbn [run exec clocks]. unfold store_Complete, valid_fence. rewrite Ho, Hkey, Hfp, Hown, Hresp.
  change (IsZero (UTC at_)) with (IsZero at_). rewrite Hz. cbn [negb andb].
  erewrite update_hit; [|done|apply fenced_self; rewrite Hst; set_solver|reflexivity]. cbn. by rewrite Hresp.
Qed.
Lemma begin_committed_run key x inc claim response t at_ at' cl tk rv l : validateKey key = true -> fingerprintPattern (request_fingerprint x) = true ->
  ownerPattern (owner_token x) = true -> validateResponse response = true -> validateReconciliation (Claim_Reconciliation claim) = true -> IsZero at_ = false -> IsZero at' = false ->
  OwnerToken claim = owner_token x -> t !! key = Some x -> state x = StateSideEffectCommitted ->
  exists w' y, run (begin_phase key (request_fingerprint x) inc claim StateSideEffectCommitted response) (World t [] (at_ :: at' :: cl) tk [] rv l) =
    (Ok (completed_claim zero_time response), w') /\ completes key x y w' /\ recoveries w' = rv /\ reconciled w' = l ++ [response].
Proof.
  intros Hkey Hfp Hown Hresp Hdoc Hz Hz' Ho Hx Hst. set (z := in_state StateAudited (UTC at_) x).
  exists (World (<[key := in_state StateCompleted (UTC at') z]> (<[key := z]> t)) [] cl tk [] rv (l ++ [response])), (in_state StateCompleted (UTC at') z).
  split; [|split; [split_and!; [apply lookup_insert_eq|done|done|by intros r]|done]].
  unfold begin_phase. rewrite Ho, Hown, Hdoc. cbn [negb orb run exec reconciliations clocks]. unfold store_MarkAudited, valid_fence. rewrite Hkey, Hfp, Hown.
  change (IsZero (UTC at_)) with (IsZero at_). rewrite Hz. cbn [negb andb]. erewrite update_hit; [|done|apply fenced_self; rewrite Hst; set_solver|reflexivity].
  apply (begin_complete_run key z); try done. by rewrite lookup_insert_eq.
Qed.

(** The repair of an incomplete request: the response of the recovery is stored, reconciled and completed. *)
Lemma begin_repair_run svc key x claim repaired t t2 t3 t4 cl tk rv l : store_repairs svc = true -> validateKey key = true -> fingerprintPattern (request_fingerprint x) = true ->
  readable x -> claim = incomplete_claim x -> validateReconciliation (audit_event_json x) = true -> validateResponse repaired = true -> t !! key = Some x ->
  state x = StateSideEffectCommitted \/ state x = StateAudited -> is_Some (headers_jsonb (Header repaired)) -> is_Some (text_jsonb (audit_event_json x)) ->
  IsZero t2 = false -> IsZero t3 = false -> IsZero t4 = false ->
  exists w' y, run (begin_repair svc key (request_fingerprint x) claim (stored_response x)) (World t [] (t2 :: t3 :: t4 :: cl) tk [] (Ok repaired :: rv) l) =
    (Ok (completed_claim zero_time repaired), w') /\ records w' !! key = Some y /\ state y = StateCompleted /\ carries repaired y /\ recoveries w' = rv /\ reconciled w' = l ++ [repaired].
Proof.
  intros Hrep Hkey Hfp Hr -> Hdoc Hresp Hx Hst [h Hh] [d Hd] Hz2 Hz3 Hz4. unfold begin_repair. cbn [OwnerToken Claim_Reconciliation incomplete_claim].
  rewrite Hrep, (readable_owner _ Hr), Hdoc. cbn [negb orb run exec recoveries]. rewrite Hresp. cbn [negb run exec clocks].
  unfold store_RepairIncompleteSideEffect, valid_fence. rewrite Hkey, Hfp, (readable_owner _ Hr), Hresp, Hdoc. change (IsZero (UTC t2)) with (IsZero t2). rewrite Hz2. cbn [negb andb].
  destruct (with_response repaired (audit_event_json x) (UTC t2) x) as [z|] eqn:Ez; [|unfold with_response in Ez; by rewrite Hh, Hd in Ez].
  destruct (with_response_spec _ _ _ _ _ Ez) as (Hzs & Hzo & Hzf & _). assert (Hzc : carries repaired z) by (unfold with_response in Ez; rewrite Hh, Hd in Ez; by injection Ez as <-).
  erewrite update_hit; [|done|apply fenced_self; destruct Hst as [-> | ->]; set_solver|exact Ez]. rewrite Hresp. cbn [negb records verdicts clocks tokens reconciliations recoveries reconciled]. rewrite <- Hzf.
  destruct (begin_committed_run key z true (incomplete_claim x) repaired (<[key := z]> t) t3 t4 cl tk rv l) as (w' & y & Hrun & (Hy & Hys & _ & Hyc) & Hrest); try done;
    [by rewrite Hzf|by rewrite Hzo, (readable_owner _ Hr)|by rewrite lookup_insert_eq|].
  exists w', y. split_and!; [done|done|done|apply Hyc, Hzc|apply Hrest..].
Qed.

(** C39.  A retry finishes what a dead handler left behind.  If nothing fails, a retry on a key whose response is stored but not
    completed completes the record.  Through [Begin] and [BeginRecoverable] it returns the stored response, which it reconciles first
    if that had not happened, and calls no recovery; through [BeginUnreturnedRecoverable] it asks the recovery for another response,
    which replaces the stored one, is reconciled also if the first one was, and is returned.  If the stored reconciliation document
    has grown beyond what may be read, the retry fails with [ErrInvalid] whichever way it begins, and the record stays as it is. *)
Theorem retry_completes_stored_response svc key e x t t1 t2 t3 t4 cl bytes tk repaired rv log :
  let w := World t [] (t1 :: t2 :: t3 :: t4 :: cl) (Some bytes :: tk) [] (Ok repaired :: rv) log in
  t !! key = Some x -> state x = StateSideEffectCommitted \/ state x = StateAudited -> readable x ->
  admissible svc key (request_fingerprint x) e ("owner-" +:+ hex_encode bytes)%string t1 -> IsZero t2 = false -> IsZero t3 = false -> IsZero t4 = false ->
  (replaces e = true -> store_repairs svc = true /\ validateResponse repaired = true /\ is_Some (headers_jsonb (Header repaired)) /\ is_Some (text_jsonb (audit_event_json x))) ->
  exists w', if validateReconciliation (audit_event_json x)
    then exists y, records w' !! key = Some y /\ state y = StateCompleted /\
      if replaces e
      then run (entry_program svc key (request_fingerprint x) e) w = (Ok (completed_claim zero_time repaired), w') /\ carries repaired y /\
           recoveries w' = rv /\ reconciled w' = log ++ [repaired]
      else run (entry_program svc key (request_fingerprint x) e) w = (Ok (completed_claim zero_time (stored_response x)), w') /\ stored_response y = stored_response x /\
           recoveries w' = recoveries w /\ reconciled w' = log ++ (if bool_decide (state x = StateSideEffectCommitted) then [stored_response x] else [])
    else run (entry_program svc key (request_fingerprint x) e) w = (Err ErrInvalid, w') /\ records w' = t /\ recoveries w' = recoveries w.
Proof.
  intros w Hx Hst Hr (Hdocs & Hvalid & Hfresh) Hz2 Hz3 Hz4 Hrep. set (f := request_fingerprint x) in *.
  assert (Hfence : validateKey key = true /\ fingerprintPattern f = true /\ ownerPattern ("owner-" +:+ hex_encode bytes)%string = true)
    by (unfold valid_claim, valid_fence in Hvalid; cbn [Request_Key Fingerprint Request_Owner begin_request] in Hvalid; bool_simpl; done).
  destruct Hfence as (Hkey & Hfp & Howner).
  assert (Hentry : entry_program svc key f e = begin svc key f (entry_document e) (recovers e) (replaces e)).
  { destruct e as [|d|d]; [done|..]; cbn; unfold BeginRecoverable, BeginUnreturnedRecoverable; by rewrite (Hdocs eq_refl : validateReconciliation d = true). }
  assert (Hbegin : run (entry_program svc key f e) w =
    if validateReconciliation (audit_event_json x)
    then run (if replaces e then begin_repair svc key f (incomplete_claim x) (stored_response x) else begin_phase key f false (incomplete_claim x) (state x) (stored_response x))
           (World t [] (t2 :: t3 :: t4 :: cl) tk [] (Ok repaired :: rv) log)
    else (Err ErrInvalid, World t [] (t2 :: t3 :: t4 :: cl) tk [] (Ok repaired :: rv) log)).
  { rewrite Hentry. subst w. unfold begin. rewrite Hkey, Hfp. cbn [negb orb]. rewrite run_Call. cbn [exec clocks]. rewrite run_Call. cbn [exec tokens newOwnerToken].
    rewrite Howner. cbn [negb]. rewrite run_bind. change {| Request_Key := key; Fingerprint := f; Request_Owner := ?o; Request_Reconciliation := _;
      RecoverProcessing := _; Now := _; ExpiresAt := _ |} with (begin_request svc key f e o t1).
    cbn [records verdicts clocks tokens reconciliations recoveries reconciled].
    rewrite (store_Claim_incomplete _ _ x) by done. destruct (validateReconciliation (audit_event_json x)); [|done]. cbn [Claimed incomplete_claim Claim_State Claim_Response].
    rewrite bool_decide_false by (by destruct Hst as [-> | ->]). rewrite (readable_response _ Hr). cbn [negb].
    assert (Hor : bool_decide (state x = StateSideEffectCommitted) || bool_decide (state x = StateAudited) = true) by (by destruct Hst as [-> | ->]).
    rewrite Hor, andb_true_r. by destruct (replaces e). }
  rewrite Hbegin. clear Hbegin Hentry. subst f. destruct (validateReconciliation (audit_event_json x)) eqn:Hdoc; [|eexists; split; [reflexivity|done]].
  destruct (replaces e).
  - destruct (Hrep eq_refl) as (Hs & Hv & Hh & Hd). destruct (begin_repair_run svc key x (incomplete_claim x) repaired t t2 t3 t4 cl tk rv log) as (w' & y & Hrun & H1 & H2 & H3 & H4 & H5); try done.
    exists w', y. by split_and!.
  - destruct Hst as [Hst|Hst]; rewrite Hst.
    + destruct (begin_committed_run key x false (incomplete_claim x) (stored_response x) t t2 t3 (t4 :: cl) tk (Ok repaired :: rv) log) as (w' & y & Hrun & (H1 & H2 & H3 & _) & H4 & H5);
        try (done || apply Hr). exists w', y. rewrite bool_decide_true by done. by split_and!.
    + unfold begin_phase. cbn [OwnerToken Claim_Reconciliation incomplete_claim]. rewrite (readable_owner _ Hr), Hdoc. cbn [negb orb].
      rewrite (begin_complete_run key x) by (done || apply Hr). eexists. exists (in_state StateCompleted (UTC t2) x). rewrite bool_decide_false, app_nil_r by done.
      split; [|split; [done|split; [reflexivity|done]]]. apply lookup_insert_eq.
Qed.
End system.

(** ** Examples *)

Module IdempotencyDemo.

#[export] Instance demo_columns : Columns := {
  pg_time t := Time ((instant t + 500) / 1000 * 1000) false;
  headers_jsonb h := Some h;
  text_jsonb d := Some d;
  header_order h := map_to_list h;
}.
#[export] Instance demo_columns_laws : ColumnsLaws.
Proof. by split. Qed.

Definition at_second (s : Z) : time := Time (unix_epoch + s * second) true.
Definition key : Key := MkKey (MkScope "acme" "billing") "user-1" "createEnrollment" "k-1".
Definition fingerprint : string := ("sha256:" +:+ hex_encode (replicate 32 171))%string.
Definition token (n : Z) : option (list Z) := Some (replicate 32 n).
Definition owner : string := ("owner-" +:+ hex_encode (replicate 32 1))%string.
Definition document : string := json_object [("actor", "user-1")]%string.
Definition answer_with (id : string) : Response :=
  {| Status := 201; Header := {[ "location"%string := [id] ]}; Body := json_object [("id"%string, id)] |}.

(** Scheduling by hand: start a handler, or let the [i]-th make its next call. *)
Inductive move := Start (p : prog answer) | Step (i : nat).
Definition do_move (s : system) (m : move) : system :=
  match m with
  | Start p => (fst s, snd s ++ [p])
  | Step i => match snd s !! i with Some (Call c k) => let '(b, w') := exec c (fst s) in (w', <[i := k b]> (snd s)) | _ => s end
  end.

Definition legal (m : move) : Prop := match m with Start p => handler p | Step _ => True end.

Lemma moves_run ms s : Forall legal ms -> rtc sys_step s (foldl do_move s ms).
Proof.
  intros Hms. revert s. induction Hms as [|m ms Hm _ IH]; intros s; [done|]. cbn [foldl]. etrans; [|apply IH].
  destruct s as [w ths]. destruct m as [p|i]; cbn [do_move fst snd]; [by apply rtc_once, step_start|].
  destruct (ths !! i) as [[a|B c k]|] eqn:E; [done| |done]. destruct (exec c w) as [b w'] eqn:Ec. by apply rtc_once, (step_call c k).
Qed.

(** A retry of a request whose secret response may be lost. *)
Definition retry : prog answer := prog_bind (fun r => Return (AClaim r)) (BeginUnreturnedRecoverable NewService key fingerprint document).
(** The completion of the first handler. *)
Definition first_completion : prog answer := prog_bind (fun r => Return (AResponse r)) (Complete key fingerprint owner (answer_with "secret-0") document).

Definition empty_world : world :=
  World ∅ [] (at_second <$> seqZ 1 30) [token 1; token 2; token 3; token 4] [] [Ok (answer_with "secret-a"); Ok (answer_with "secret-b")] [].

(** The first handler claims the key and dies after its response was stored; two retries then recover the request at the
    same time, and the second replaces the response of the first before the first completes the record. *)
Definition moves : list move :=
  [Start retry; Step 0; Step 0; Step 0; Start first_completion; Step 1; Step 1;
   Start retry; Start retry; Step 2; Step 2; Step 2; Step 2; Step 2; Step 2; Step 2; Step 2; Step 3; Step 3; Step 3; Step 3; Step 3; Step 3; Step 3; Step 3;
   Step 2; Step 2; Step 2; Step 2; Step 2].
Definition raced : system := foldl do_move (empty_world, []) moves.

Definition answered (i : nat) (s : system) : option Claim := match snd s !! i with Some (Return (AClaim (Ok c))) => Some c | _ => None end.

Lemma demo_handlers : Forall legal moves.
Proof. repeat apply Forall_cons_2; try exact I; [apply handler_unreturned|apply handler_complete|apply handler_unreturned|apply handler_unreturned|constructor]. Qed.

(** C40.  Two retries that recover the same request at the same time can disagree: from an empty table there is a run in
    which one retry is told that the request completed with its response, while the completed record holds, and will
    replay, the response of the other one, which was never reconciled. *)
Theorem concurrent_recovery_disagrees :
  exists s i claim reported x, rtc sys_step (empty_world, []) s /\ answered i s = Some claim /\ Claim_State claim = StateCompleted /\ Claim_Response claim = Some reported /\
    records (fst s) !! key = Some x /\ state x = StateCompleted /\ Body (stored_response x) <> Body reported /\ stored_response x ∉ reconciled (fst s).
Proof.
  exists raced, 2%nat. eexists _, _, _. split; [apply moves_run, demo_handlers|]. split; [vm_compute; reflexivity|]. split; [reflexivity|]. split; [reflexivity|].
  split; [vm_compute; reflexivity|]. split; [reflexivity|]. split; [vm_compute; discriminate|].
  apply (bool_decide_unpack (_ ∉ _)). vm_compute. exact I.
Qed.

(** The world in which the first handler has claimed the key. *)
Definition claimed_system : system := foldl do_move (empty_world, []) (take 4 moves).

Lemma claims_are_exclusive_witness :
  exists x, records (fst claimed_system) !! key = Some x /\
    (exists y, records (fst (do_move claimed_system (Start retry))) !! key = Some y /\ same_claim_or_expired x y).
Proof.
  eexists. split; [vm_compute; reflexivity|].
  refine (proj1 (proj1 (claims_are_exclusive claimed_system key _ _) (do_move claimed_system (Start retry)) _)).
  - vm_compute. reflexivity.
  - apply rtc_once. split; [apply step_start, handler_unreturned|]. eexists. vm_compute. reflexivity.
Defined.

Definition completion_world : world := fst claimed_system.

Lemma completed_responses_are_replayed_witness :
  exists w1 x, run (Complete key fingerprint owner (answer_with "secret-0") document) completion_world = (Ok (answer_with "secret-0"), w1) /\
    records w1 !! key = Some x /\ reconciled w1 = [answer_with "secret-0"].
Proof.
  assert (Hrun : exists w1, run (Complete key fingerprint owner (answer_with "secret-0") document) completion_world = (Ok (answer_with "secret-0"), w1))
    by (eexists; vm_compute; reflexivity).
  destruct Hrun as [w1 Hrun]. exists w1.
  destruct (completed_responses_are_replayed key fingerprint owner (answer_with "secret-0") document completion_world (answer_with "secret-0") w1) as (x & Hx & Hrec & _).
  - exact Hrun.
  - intros name values Hn. cbn [Header answer_with] in Hn. apply lookup_singleton_Some in Hn as [<- <-]. split; [reflexivity|repeat constructor].
  - exists x. split; [exact Hrun|]. split; [exact Hx|exact Hrec].
Defined.

(** The record after the first handler died. *)
Definition stored_table : table := records (fst (foldl do_move (empty_world, []) (take 7 moves))).
Definition stored_row : row := default {| request_fingerprint := fingerprint; owner_token := owner; state := StateProcessing; response_status := 0; response_headers := ∅;
  response_json := EmptyString; audit_event_json := EmptyString; expires_at := zero_time; created_at := zero_time; updated_at := zero_time |} (stored_table !! key).

(** A retry of either kind, with a recovery that would answer with another response. *)
Definition retry_world : world :=
  World stored_table [] [at_second 50; at_second 51; at_second 52; at_second 53] [token 9] [] [Ok (answer_with "secret-a")] [].

Lemma retry_completes_stored_response_witness :
  (exists w' y, records w' !! key = Some y /\ state y = StateCompleted /\
    run (entry_program NewService key fingerprint AsBegin) retry_world = (Ok (completed_claim zero_time (stored_response stored_row)), w') /\
    stored_response y = stored_response stored_row /\ recoveries w' = recoveries retry_world /\ reconciled w' = [stored_response stored_row]) /\
  (exists w' y, records w' !! key = Some y /\ state y = StateCompleted /\
    run (entry_program NewService key fingerprint (AsUnreturned document)) retry_world = (Ok (completed_claim zero_time (answer_with "secret-a")), w') /\
    carries (answer_with "secret-a") y /\ recoveries w' = [] /\ reconciled w' = [answer_with "secret-a"]).
Proof.
  assert (Hdoc : validateReconciliation (audit_event_json stored_row) = true) by (vm_compute; reflexivity).
  assert (Hr : readable stored_row) by (split; vm_compute; reflexivity).
  pose proof (fun e => retry_completes_stored_response NewService key e stored_row stored_table (at_second 50) (at_second 51) (at_second 52) (at_second 53) [] (replicate 32 9) []
    (answer_with "secret-a") [] []) as Hretry.
  cbv zeta in Hretry. rewrite Hdoc in Hretry. assert (Hx : stored_table !! key = Some stored_row) by (vm_compute; reflexivity).
  assert (Hst : state stored_row = StateSideEffectCommitted) by (vm_compute; reflexivity). change fingerprint with (request_fingerprint stored_row).
  assert (Hadm : forall e, e = AsBegin \/ e = AsUnreturned document -> admissible NewService key (request_fingerprint stored_row) e ("owner-" +:+ hex_encode (replicate 32 9))%string (at_second 50)).
  { intros e [-> | ->]; (split; [done || (intros _; vm_compute; reflexivity)|split; [vm_compute; reflexivity|eexists; vm_compute; reflexivity]]). }
  split.
  - destruct (Hretry AsBegin Hx (or_introl Hst) Hr (Hadm _ (or_introl eq_refl)) eq_refl eq_refl eq_refl ltac:(discriminate)) as (w' & y & Hy & Hs & Hrest).
    exists w', y. exact (conj Hy (conj Hs Hrest)).
  - assert (Hrep : replaces (AsUnreturned document) = true -> store_repairs NewService = true /\ validateResponse (answer_with "secret-a") = true /\
      is_Some (headers_jsonb (Header (answer_with "secret-a"))) /\ is_Some (text_jsonb (audit_event_json stored_row)))
      by (intros _; split; [reflexivity|]; split; [vm_compute; reflexivity|]; split; eexists; reflexivity).
    destruct (Hretry (AsUnreturned document) Hx (or_introl Hst) Hr (Hadm _ (or_intror eq_refl)) eq_refl eq_refl eq_refl Hrep) as (w' & y & Hy & Hs & Hrest).
    exists w', y. exact (conj Hy (conj Hs Hrest)).
Defined.
End IdempotencyDemo.
